(* ===== verification/_CoqProject ===== *)
-Q . S2P
Prelude.v
Wrapping.v
Streams.v
Reassembler.v
Buffers.v
Parsing.v
TcpWire.v
Receiver.v
Sender.v
Connection.v
Transfer.v
Endpoint.v
Windows.v
Progress.v
Benchmark.v
TcpState.v
IpWire.v
EtherWire.v
Addresses.v
Printers.v
NetIf.v
Routing.v
Simulator.v
Delivery.v
Simulation.v
Adapters.v
Totality.v
CmdLine.v
Tcpdump.v
FileDesc.v
EventLoop.v
Sockets.v
Handles.v
StreamCopy.v
StreamEnds.v
Bouncer.v
Programs.v
SpongeSocket.v
SpongeThread.v
Devices.v
Sessions.v
Clients.v
Launch.v
Webget.v
TunDump.v
Lab7.v
