(* ===== verification/Prelude.v ===== *)
(** * cs144-impl: a verification development for the sponge TCP/IP stack

    The program is a user-space TCP/IP stack in C++ ([libsponge/]): byte streams, a stream
    reassembler, a TCP receiver, sender and connection, the wire formats of TCP, IPv4,
    Ethernet and ARP, a network interface with ARP, a router, and adapters that carry TCP
    segments over UDP, TUN and TAP devices, an event loop, and a socket that runs a connection
    behind a pair of file descriptors.  The programs of [apps/] use it: a benchmark that runs two
    connections against each other, a simulator of a network of hosts and a router, a host and a
    router that meet over the Internet, the relay between them, clients that copy between a
    terminal and a socket, one that fetches a page, and dumps of captured packets and of what
    arrives at a TUN device.

    ** How the parts interact

    An application writes to the outbound [ByteStream] of a [TCPConnection] and reads from
    the inbound one.  The connection's [TCPSender] cuts the outbound stream into segments,
    keeps them until they are acknowledged and retransmits the oldest one when its timer
    expires; its [TCPReceiver] hands the payloads of arriving segments to a
    [StreamReassembler], which writes the inbound stream in order.  [TCPConnection] stamps
    outgoing segments with the receiver's acknowledgment and window and passes those of
    arriving segments to the sender.  An adapter wraps segments in datagrams and filters those
    that arrive; the [NetworkInterface] wraps datagrams in Ethernet frames and resolves next
    hops; a [Router] forwards datagrams between interfaces.  [TCPSpongeSocket] gives the owner
    one end of a socket pair and runs an [EventLoop] with four rules: segments in, bytes from
    the owner, bytes to the owner, segments out.  The programs configure such a socket from
    their command line and hand it to [bidirectional_stream_copy], which runs an [EventLoop] of
    its own with four rules between the terminal, two [ByteStream]s and the socket.

    ** Files, in dependency order

    - Prelude.v (this file): machine integers, outcomes of C++ code, bytes, lists indexed by
      machine integers, [std::string] operations, tactics and hint databases.
    - Wrapping.v: [wrapping_integers.{hh,cc}], module [WrappingInt32], [wrap], [unwrap].
    - Streams.v: [byte_stream.{hh,cc}], modules [RingBuffer] and [ByteStream]; the abstract
      specification [Fifo].
    - Reassembler.v: [stream_reassembler.{hh,cc}], module [StreamReassembler].
    - Buffers.v: [util/buffer.{hh,cc}], modules [Buffer], [BufferList], [BufferViewList]; the
      class [Sheddable] for what drops bytes from the front.
    - Parsing.v: [util/parser.{hh,cc}] and the checksum of [util/util.{hh,cc}], modules
      [NetParser], [NetUnparser], [InternetChecksum].
    - TcpWire.v: [tcp_helpers/tcp_header], [tcp_segment], modules [TCPHeader], [TCPSegment].
    - Receiver.v, Sender.v, Connection.v: [tcp_receiver], [tcp_sender] (with [tcp_config] and
      the retransmission timer) and [tcp_connection], modules [TCPReceiver], [TCPConfig],
      [RetransmissionTimer], [TCPSender], [TCPConnection].
    - Transfer.v: two connections and a network that loses, duplicates, delays and reorders
      segments, as a step relation.
    - Endpoint.v: what one endpoint of such a network may do on its own, as a relation [path]
      that records the segments it heard and said.
    - Windows.v: the windows an endpoint advertises on such a path.
    - Progress.v, Benchmark.v: [apps/tcp_benchmark.cc], module [TcpBenchmark]; Progress.v has
      the lemmas on a segment that advances the other side and on a connection that winds down.
    - TcpState.v: [tcp_helpers/tcp_state], module [TCPState], and [TCPConnection::state].
    - IpWire.v, EtherWire.v: [ipv4_header], [ipv4_datagram], [ethernet_header],
      [ethernet_frame], [arp_message].
    - Addresses.v: [util/address], module [Address]; the class [NumericResolver] states what
      is documented of the C library's name functions.
    - Printers.v: the texts of the headers ([to_string], [summary]) and [hexdump].
    - NetIf.v: [network_interface], module [NetworkInterface].
    - Routing.v: [router], modules [AsyncNetworkInterface], [Router].
    - Simulator.v, Delivery.v, Simulation.v: [apps/network_simulator.cc], modules [Host] and
      [Network]; Delivery.v has the phases in which a datagram crosses a link that may have to
      resolve an address first, Simulation.v the proof for the whole program.
    - Adapters.v: [fd_adapter], [tcp_over_ip], [tuntap_adapter], [lossy_fd_adapter]; the class
      [FdAdapter] is the interface [LossyFdAdapter] wraps.
    - Totality.v: what never reaches undefined behaviour or runs forever, whatever is on the
      wire: parsing, printing, the network interface and the router.
    - CmdLine.v: the command lines of [apps/tcp_ipv4.cc], [tcp_udp.cc] and
      [tcp_ip_ethernet.cc], with [strtol] and [strtof] of the C library.
    - Tcpdump.v: [apps/udp_tcpdump.cc].
    - FileDesc.v: [util/file_descriptor] and [SystemCall], modules [FDWrapper],
      [FileDescriptor]; the class [PosixKernel] states what is documented of the system calls.
    - EventLoop.v: [util/eventloop], module [EventLoop]; the class [PosixPoll]; the
      records [loop_invariant] and [loop_contract] are what a client has to show of its
      callbacks.
    - Sockets.v: [util/socket], [util/tun], modules [Socket], [UDPSocket], [TCPSocket],
      [LocalStreamSocket], [TunTapFD]; the class [PosixSockets].
    - Handles.v: lemmas on handles that clients of the event loop share; the class
      [LoggedKernel] says which calls change what has been read and written.
    - StreamCopy.v: [apps/bidirectional_stream_copy.cc], module [StreamCopy].
    - StreamEnds.v: the calls that pass on the end of a stream; the class [EndingKernel] states
      what is documented of [shutdown] and [close].
    - Bouncer.v: [apps/bouncer.cc], module [Bouncer]; the specification [transcript] and the
      class [MailKernel].
    - Programs.v: [apps/tcp_native.cc], module [TcpNative]; the class [StandardStreams].
    - SpongeSocket.v: [tcp_helpers/tcp_sponge_socket], module [TCPSpongeSocket]: the four rules
      that tie the owner's socket pair, the connection and an adapter together.  The classes
      [SpongeAdapter] and [LoggedAdapter] are what it needs of an adapter, [Memory] says that
      system calls do not touch the object.
    - SpongeThread.v: the socket's rules, loop, opening and closing put together, on a machine
      that keeps the promises of the classes [HostOk] and [EndpointAdapter].
    - Devices.v: the UDP, TUN, TAP and lossy adapters on their devices, as instances of
      [SpongeAdapter]; each is an instance of the class [QuietAdapter], and with a record of its
      traffic of [EndpointAdapter].
    - Sessions.v: sockets from owner to owner.
    - Clients.v: the [main] functions of [apps/tcp_ipv4.cc], [tcp_udp.cc] and
      [tcp_ip_ethernet.cc], module [SpongeClient]; the three programs are one [main] with three
      ways to read a command line and to make a device.
    - Launch.v: the constructors of devices and sockets, and the clients from start to exit; the
      class [OpensDescriptors] states what is documented of calls that open descriptors,
      [LaunchPad] what a program needs of its host.
    - Webget.v: [apps/webget.cc] and [FullStackSocket], module [Webget].
    - TunDump.v: [apps/tun.cc], module [TunDump]; the specification [report].
    - Lab7.v: [apps/lab7.cc], the host and the router that meet over a UDP socket.

    ** How the code is translated

    A class is a [Record] with the source's field names, in a module of the class's name; a
    method is a function from the object (and its arguments) to the new object and the
    result.  Unsigned integers are [Z] with the reduction of their type ([u8], [u16], [u32],
    [u64]) written wherever the C++ operation can leave the range.  Code that can throw, read
    where it must not, or loop returns an [outcome].  References handed out by accessors
    ([stream_out()], [header()], [segments_out()]) are a getter and a setter.  The bytes a
    [Buffer] shares are never written after construction, so sharing is invisible and
    buffers are values.  [std::queue], [deque] and [forward_list] are lists with the front
    first; unordered and ordered maps are finite maps.  Around the kernel, in FileDesc.v and
    EventLoop.v, code runs in a state monad whose exceptions keep the state; file descriptor
    objects share their wrappers, so these live in a store with reference counts.

    Loops over containers are structural.  These loops have fuel: [fill_window] gets the
    distance to the right edge, since each round but the last sends at least one sequence
    number ([fill_window_correct] and [transfer_no_failure] exclude [OutOfFuel]), and the
    router's loops get 34 prefix lengths and the length of the longest queue
    ([route_correct]); [FileDescriptor::write] gets one round more than there are bytes, since
    every round but the last writes one ([fd_write_correct]); the loop that empties the queue of
    segments gets one more than their number ([datagram_rule_correct]).  The folding loop of the
    checksum gets four rounds, enough for 32 bits ([checksum_correct]).  The loops over a command
    line get the number of arguments, since each turn takes at least one
    ([command_line_safe]); the walk over IPv6 extension headers gets the length of the packet,
    since each header has at least eight bytes ([packet_walk_terminates]).  The simulator's 256
    rounds are the code's own.  The loops of the benchmark get a fuel the theorem bounds
    ([benchmark_terminates]).  [_tcp_loop] and the loop of [bidirectional_stream_copy] run as long
    as their peers like, and so do the network thread of [lab7] and the loops of [webget] and
    [tun]; their fuel is an argument, the number of rounds, and what is proved holds after any
    number of them.  The bouncer's loop over
    the ports gets one unit for each of its 31489 pairs, its rounds are an argument
    ([bouncer_relays]).

    ** What the theorems show

    - Wrapping.v: [unwrap] finds the number closest to the checkpoint; round trips.
    - Streams.v: the ring buffer implements the bounded queue [Fifo]; reads return what was
      written, in order, over any run.  As in the code, an ended stream still accepts bytes.
    - Reassembler.v: pushing any parts of a stream in any order yields a prefix of it, as long
      as can be known, within the capacity; the pending list stays sorted and disjoint.
    - Receiver.v: any segment keeps the receiver well formed; segments of one connection make
      it deliver that stream and acknowledge exactly what it has.
    - Sender.v: as long as nothing is written after the end of the input, all segments are
      pieces of the stream at the right sequence numbers, whatever else happens; the window is
      filled and respected; acknowledgments and timer do what they should.
    - Connection.v: any segment, the retransmission limit, lingering.
    - Transfer.v: end to end, what one side reads is a prefix of what the other wrote, all of
      it once the end is seen, and no call ever fails.
    - Windows.v: a window is the free room modulo [2^16], and every byte in any window ever
      advertised is kept when it arrives.
    - Benchmark.v: liveness.  Two connections that exchange their segments, in order or reversed
      within each batch, deliver everything, find it equal and wind down: the program ends.
    - TcpState.v: the summaries mean what they say; resets are reported as RESET; a whole
      connection's states are evaluated.
    - Parsing.v, TcpWire.v, IpWire.v, EtherWire.v: parsing is total and decides every case;
      what is serialized parses back; checksums verify and detect.
    - NetIf.v: no well-formed datagram is lost, duplicated or reordered per next hop; every
      branch of sending and receiving.
    - Routing.v: the table lookup is the longest prefix match over the routes in the order
      they were added; [route] drains all queues of well-formed datagrams and does exactly the
      forwarding sends.
    - Simulation.v: liveness of the network.  For all random draws in which the interfaces of a
      link have different addresses, each of the simulator's tests finds its datagram delivered
      to the right host within the rounds it simulates, and no other; a host's check is exact.
    - Printers.v: a dump shows its data row by row, equal to a reference layout.
    - CmdLine.v: options written on a command line are read back as configured; no command line
      makes a program read past its arguments.
    - Tcpdump.v: the walk over the headers of any packet ends inside it; a captured segment is
      shown with its own fields.
    - Adapters.v: segments survive the trip through a TUN device; only segments of the
      connection get in; the lossy adapter only loses.
    - FileDesc.v: a write sends a prefix of the buffer and says how long it is, whatever the
      kernel does; reads and the EOF flag; the descriptor is closed with its last handle.
    - EventLoop.v: a round pairs every rule with its own poll result although rules are erased
      on the way; busy waiting is detected; rules keep their order; an invariant of the
      callbacks is an invariant of the loop.
    - StreamCopy.v: the copy loses, repeats and reorders no byte, leaks no handle and never
      reaches undefined behaviour, whatever the kernel does and however it ends; a copy that
      ends without an error has copied everything.
    - StreamEnds.v: a direction is marked as shut down only after [shutdown(SHUT_WR)] on the
      socket or [close] on the output was made; both were, when the copy is complete.
    - Bouncer.v: refinement.  The datagrams the bouncer sends are exactly those its
      specification gives for the datagrams it got, in the same order.
    - Programs.v: [tcp_native] exits with 0 or 1 and closes what it opened, and copies both ways.
    - Sockets.v: sockets made from descriptors are checked; datagrams arrive whole or not at
      all; [shutdown] counts what it ends.
    - SpongeSocket.v: the rules move bytes and segments in order, each once, whatever the
      kernel does; a session over the whole stack is evaluated.
    - SpongeThread.v, Sessions.v: refinement.  Whatever the owner, the kernel, the clock and the
      network do, a socket from [connect] or [listen_and_accept] to [wait_until_closed] or its
      destructor takes a path of Endpoint.v; so the bytes one owner gets are a prefix of those
      the other one wrote.
    - Devices.v, Sessions.v: all adapters of the programs keep the promises the socket relies on,
      whatever their devices deliver.
    - Launch.v, Webget.v: whole programs.  The clients and [webget] never reach undefined
      behaviour and let no exception out; when they exit every descriptor they opened is gone,
      and when they succeed, they have copied both ways, or have sent the whole request and shown
      what came back, over a socket whose thread was an endpoint.
    - TunDump.v: the output is the report of every packet that was read, in order.
    - Totality.v: code that handles what comes from the network always returns or throws.
    - Lab7.v: the network thread never reaches undefined behaviour and only an exception or the
      flag ends it; two ways in which a datagram from outside cuts the router off.

    Where the code departs from its documentation or from what it means to do, a theorem says
    what it does: [bytestream_refines_fifo], [write_after_fin_is_sent], [window_honoured],
    [event_loop_round], [arp_mapping_never_refreshed], [empty_datagram_deafens],
    [route_throws_on_wrong_version], [poll_error_swallowed], [abort_sends_no_rst], [syn_fin_overrun], [pop_output_past_end], [datagram_parse_ignores_verdict],
    [frame_parse_accepts_short], [as_string_unsupported], [dump_truncated_throws],
    [dump_blank_on_bad_checksum], [dump_overreads_short_packet], [loss_rate_undefined].

    ** Bounds

    Streams have a capacity between 1 and [string_max_size] (a capacity of 0 makes the ring
    buffer divide by zero).  A stream carries less than [2^63] bytes in all, so that absolute
    sequence numbers do not wrap; the end-to-end theorems need every delivered segment to be
    less than [2^31] from the receiver's position, which holds by itself below 2 GiB per
    direction.  Clocks stay below [2^64] milliseconds.

    ** Not modelled

    Threads: a thread runs where its owner joins it, and the two meet only through the kernel
    and the flag that stops the thread, which are parameters; interleavings of their accesses
    to shared memory are not modelled.  Debugging output and usage texts.  Opening a capture with
    libpcap; starting and joining the two threads of [lab7].  The clock and the random device
    are parameters.  Where a callback throws half way through a method of the connection or of an
    adapter, the model keeps the object as it was before the method. *)

From Stdlib Require Export ZArith Lia.
From Stdlib Require Strings.Byte.
From stdpp Require Export base tactics numbers list strings.

#[global] Open Scope Z_scope.

(** ** Machine integers

    A [w]-bit unsigned integer is a [Z] in [0 <= z < 2^w]; every C++ operation
    that can leave that range is followed by the reduction of its type. *)

Abbreviation two8 := 256 (only parsing).
Abbreviation two16 := 65536 (only parsing).
Abbreviation two31 := 2147483648 (only parsing).
Abbreviation two32 := 4294967296 (only parsing).
Abbreviation two63 := 9223372036854775808 (only parsing).
Abbreviation two64 := 18446744073709551616 (only parsing).

Definition u8 (z : Z) : Z := z mod two8.
Definition u16 (z : Z) : Z := z mod two16.
Definition u32 (z : Z) : Z := z mod two32.
Definition u64 (z : Z) : Z := z mod two64.

(** The two's complement reading of a 32-bit pattern ([static_cast<int32_t>]). *)
Definition s32 (z : Z) : Z := (z + two31) mod two32 - two31.

Lemma u8_range z : 0 <= u8 z < two8.
Proof. by apply Z.mod_pos_bound. Qed.

Lemma u16_range z : 0 <= u16 z < two16.
Proof. by apply Z.mod_pos_bound. Qed.

Lemma u32_range z : 0 <= u32 z < two32.
Proof. by apply Z.mod_pos_bound. Qed.

Lemma u64_range z : 0 <= u64 z < two64.
Proof. by apply Z.mod_pos_bound. Qed.

Lemma u8_small z : 0 <= z < two8 -> u8 z = z.
Proof. apply Z.mod_small. Qed.

Lemma u16_small z : 0 <= z < two16 -> u16 z = z.
Proof. apply Z.mod_small. Qed.

Lemma u32_small z : 0 <= z < two32 -> u32 z = z.
Proof. apply Z.mod_small. Qed.

Lemma u64_small z : 0 <= z < two64 -> u64 z = z.
Proof. apply Z.mod_small. Qed.

(** ** Outcomes

    The result of running C++ code: a value, a thrown exception, undefined
    behaviour, or (for loops written with fuel) fuel that did not suffice. *)

Inductive exn :=
  | out_of_range (where_ : string)
  | length_error (where_ : string)
  | runtime_error (what : string)
  | invalid_argument (where_ : string)
  | bad_optional_access
  | tagged_error (attempt : string) (error_code : Z).

Inductive outcome (A : Type) :=
  | Ok (a : A)
  | Throw (e : exn)
  | Undefined
  | OutOfFuel.
Arguments Ok {A} a.
Arguments Throw {A} e.
Arguments Undefined {A}.
Arguments OutOfFuel {A}.

#[export] Instance outcome_ret : MRet outcome := fun A a => Ok a.
#[export] Instance outcome_bind : MBind outcome := fun A B k m =>
  match m with
  | Ok a => k a
  | Throw e => Throw e
  | Undefined => Undefined
  | OutOfFuel => OutOfFuel
  end.

#[export] Instance exn_eq_dec : EqDecision exn.
Proof. solve_decision. Defined.

Lemma bind_Ok_inv {A B} (m : outcome A) (k : A -> outcome B) (b : B) :
  m ≫= k = Ok b -> exists a, m = Ok a /\ k a = Ok b.
Proof. destruct m; simpl; naive_solver. Qed.

Lemma bind_assoc {A B C} (m : outcome A) (f : A -> outcome B) (g : B -> outcome C) :
  (m ≫= f) ≫= g = m ≫= (fun a => f a ≫= g).
Proof. by destruct m. Qed.

(** The code threw an exception or returned something of which [P] holds: it neither reached
    undefined behaviour nor ran on. *)
Definition yields {A} (o : outcome A) (P : A -> Prop) : Prop :=
  match o with Ok a => P a | Throw _ => True | _ => False end.

Abbreviation concluded o := (yields o (fun _ => True)).

Lemma yields_bind {A B} (m : outcome A) (k : A -> outcome B) (P : A -> Prop) (Q : B -> Prop) :
  yields m P -> (forall a, P a -> yields (k a) Q) -> yields (m ≫= k) Q.
Proof. destruct m; simpl; auto. Qed.

Lemma yields_impl {A} (o : outcome A) (P Q : A -> Prop) : yields o P -> (forall a, P a -> Q a) -> yields o Q.
Proof. destruct o; simpl; auto. Qed.

Lemma yields_Ok {A} (o : outcome A) (P : A -> Prop) a : yields o P -> o = Ok a -> P a.
Proof. by intros H ->. Qed.

(** Splits every successful bind in the hypotheses. *)
Ltac inv_ok :=
  repeat match goal with
  | H : (_ ≫= _) = Ok _ |- _ =>
      let a := fresh "v" in
      apply bind_Ok_inv in H as (a & ? & H)
  | H : Ok _ = Ok _ |- _ => injection H as H
  | H : mret _ = Ok _ |- _ => injection H as H
  end.

(** ** Bytes *)

Abbreviation byte := Byte.byte.

#[export] Instance byte_eq_dec : EqDecision byte := Byte.byte_eq_dec.

Definition Z_of_byte (b : byte) : Z := Z.of_N (Byte.to_N b).

Definition byte_of_Z (z : Z) : byte :=
  default Byte.x00 (Byte.of_N (Z.to_N (u8 z))).

Lemma Z_of_byte_range b : 0 <= Z_of_byte b < two8.
Proof. unfold Z_of_byte. pose proof (Byte.to_N_bounded b). lia. Qed.

Lemma byte_of_Z_of_byte b : byte_of_Z (Z_of_byte b) = b.
Proof.
  unfold byte_of_Z. rewrite u8_small by apply Z_of_byte_range.
  unfold Z_of_byte. by rewrite N2Z.id, Byte.of_to_N.
Qed.

Lemma Z_of_byte_of_Z z : Z_of_byte (byte_of_Z z) = u8 z.
Proof.
  unfold byte_of_Z, Z_of_byte. pose proof (u8_range z).
  destruct (Byte.of_N (Z.to_N (u8 z))) as [b|] eqn:E; simpl.
  - apply Byte.to_of_N in E. rewrite E. lia.
  - apply Byte.of_N_None_iff in E. lia.
Qed.

#[export] Instance Z_of_byte_inj : Inj (=) (=) Z_of_byte.
Proof.
  intros b1 b2 H%(f_equal byte_of_Z). by rewrite !byte_of_Z_of_byte in H.
Qed.

(** ** Lists indexed by machine integers *)

Abbreviation zlen l := (Z.of_nat (length l)).

(** The first [n] elements and the rest.  The recursion is on the list, so the
    functions run on any [n], including counts that wrapped around. *)
Fixpoint ztake {A} (n : Z) (l : list A) : list A :=
  match l with
  | [] => []
  | x :: l' => if n <=? 0 then [] else x :: ztake (n - 1) l'
  end.

Fixpoint zdrop {A} (n : Z) (l : list A) : list A :=
  match l with
  | [] => []
  | x :: l' => if n <=? 0 then l else zdrop (n - 1) l'
  end.

(** [l[i]] at a machine index. *)
Definition zget {A} (l : list A) (i : Z) : option A :=
  if i <? 0 then None else l !! Z.to_nat i.

Lemma ztake_take {A} n (l : list A) : ztake n l = take (Z.to_nat n) l.
Proof.
  revert n. induction l as [|x l IH]; intros n; simpl; [by rewrite take_nil|].
  destruct (Z.leb_spec n 0) as [Hn|Hn].
  - by replace (Z.to_nat n) with 0%nat by lia.
  - replace (Z.to_nat n) with (S (Z.to_nat (n - 1))) by lia. by rewrite IH.
Qed.

Lemma zdrop_drop {A} n (l : list A) : zdrop n l = drop (Z.to_nat n) l.
Proof.
  revert n. induction l as [|x l IH]; intros n; simpl; [by rewrite drop_nil|].
  destruct (Z.leb_spec n 0) as [Hn|Hn].
  - by replace (Z.to_nat n) with 0%nat by lia.
  - replace (Z.to_nat n) with (S (Z.to_nat (n - 1))) by lia. by rewrite IH.
Qed.

Lemma zlen_ztake {A} n (l : list A) :
  zlen (ztake n l) = Z.max 0 (Z.min n (zlen l)).
Proof. rewrite ztake_take, length_take. lia. Qed.

Lemma zlen_zdrop {A} n (l : list A) :
  zlen (zdrop n l) = zlen l - Z.max 0 (Z.min n (zlen l)).
Proof. rewrite zdrop_drop, length_drop. lia. Qed.

Lemma zlen_app {A} (l k : list A) : zlen (l ++ k) = zlen l + zlen k.
Proof. rewrite length_app. lia. Qed.

Lemma zlen_nonneg {A} (l : list A) : 0 <= zlen l.
Proof. lia. Qed.

Lemma zlen_0 {A} (l : list A) : zlen l = 0 -> l = [].
Proof. destruct l; simpl; [done|lia]. Qed.

Lemma ztake_zdrop {A} n (l : list A) : ztake n l ++ zdrop n l = l.
Proof. rewrite ztake_take, zdrop_drop. apply take_drop. Qed.

Lemma ztake_ge {A} n (l : list A) : zlen l <= n -> ztake n l = l.
Proof. intros. rewrite ztake_take. apply take_ge. lia. Qed.

Lemma ztake_le0 {A} n (l : list A) : n <= 0 -> ztake n l = [].
Proof. intros. rewrite ztake_take. by replace (Z.to_nat n) with 0%nat by lia. Qed.

Lemma zdrop_ge {A} n (l : list A) : zlen l <= n -> zdrop n l = [].
Proof. intros. rewrite zdrop_drop. apply drop_ge. lia. Qed.

Lemma zdrop_le0 {A} n (l : list A) : n <= 0 -> zdrop n l = l.
Proof. intros. rewrite zdrop_drop. by replace (Z.to_nat n) with 0%nat by lia. Qed.

Lemma ztake_app {A} n (l k : list A) :
  ztake n (l ++ k) = ztake n l ++ ztake (n - zlen l) k.
Proof. rewrite !ztake_take, take_app. f_equal. f_equal. lia. Qed.

Lemma zdrop_app {A} n (l k : list A) :
  zdrop n (l ++ k) = zdrop n l ++ zdrop (n - zlen l) k.
Proof. rewrite !zdrop_drop, drop_app. f_equal. f_equal. lia. Qed.

Lemma zdrop_zdrop {A} n m (l : list A) :
  0 <= n -> 0 <= m -> zdrop n (zdrop m l) = zdrop (n + m) l.
Proof. intros. rewrite !zdrop_drop, drop_drop. f_equal. lia. Qed.

Lemma ztake_ztake {A} n m (l : list A) : ztake n (ztake m l) = ztake (Z.min n m) l.
Proof. rewrite !ztake_take, take_take. f_equal. lia. Qed.

Lemma ztake_app_exact {A} n (l k : list A) : n = zlen l -> ztake n (l ++ k) = l.
Proof.
  intros ->. by rewrite ztake_app, Z.sub_diag, ztake_ge, ztake_le0, app_nil_r by lia.
Qed.

Lemma zdrop_app_exact {A} n (l k : list A) : n = zlen l -> zdrop n (l ++ k) = k.
Proof.
  intros ->. by rewrite zdrop_app, Z.sub_diag, zdrop_ge, zdrop_le0 by lia.
Qed.

Lemma zget_ztake {A} n (l : list A) i :
  zget (ztake n l) i = if i <? n then zget l i else None.
Proof.
  unfold zget. rewrite ztake_take.
  destruct (Z.ltb_spec i 0), (Z.ltb_spec i n); try done.
  - apply lookup_take_lt. lia.
  - apply lookup_take_ge. lia.
Qed.

Lemma zget_zdrop {A} n (l : list A) i :
  0 <= n -> 0 <= i -> zget (zdrop n l) i = zget l (n + i).
Proof.
  intros. unfold zget. rewrite zdrop_drop, lookup_drop.
  destruct (Z.ltb_spec i 0), (Z.ltb_spec (n + i) 0); try lia. f_equal. lia.
Qed.

Lemma zget_app {A} (l k : list A) i :
  zget (l ++ k) i = if i <? zlen l then zget l i else zget k (i - zlen l).
Proof.
  unfold zget. destruct (Z.ltb_spec i 0), (Z.ltb_spec i (zlen l)); try lia.
  - done.
  - apply lookup_app_l. lia.
  - destruct (Z.ltb_spec (i - zlen l) 0); [lia|].
    rewrite lookup_app_r by lia. f_equal. lia.
Qed.

Lemma zget_Some_range {A} (l : list A) i x : zget l i = Some x -> 0 <= i < zlen l.
Proof.
  unfold zget. destruct (Z.ltb_spec i 0); [done|].
  intros ?%lookup_lt_Some. lia.
Qed.

Lemma zget_nil_Some {A} i (x : A) : ~ zget [] i = Some x.
Proof. intros H%zget_Some_range. simpl in H. lia. Qed.

Lemma zget_is_Some {A} (l : list A) i : 0 <= i < zlen l -> is_Some (zget l i).
Proof.
  intros. unfold zget. destruct (Z.ltb_spec i 0); [lia|].
  apply lookup_lt_is_Some. lia.
Qed.

Lemma zget_None {A} (l : list A) i : zlen l <= i -> zget l i = None.
Proof.
  intros. unfold zget. destruct (Z.ltb_spec i 0); [done|].
  apply lookup_ge_None. lia.
Qed.

(** Lists with the same elements at every index are equal. *)
Lemma zget_ext {A} (l k : list A) :
  zlen l = zlen k -> (forall i, 0 <= i < zlen l -> zget l i = zget k i) -> l = k.
Proof.
  intros Hlen H. apply list_eq. intros i.
  destruct (decide (i < length l)%nat) as [Hi|Hi].
  - specialize (H (Z.of_nat i) ltac:(lia)). unfold zget in H.
    destruct (Z.ltb_spec (Z.of_nat i) 0); [lia|]. by rewrite Nat2Z.id in H.
  - rewrite !lookup_ge_None_2 by lia. done.
Qed.

(** ** Standard library strings

    [std::string::substr] and [std::string::replace] with their range checks:
    a start past the end throws, a count past the end is clipped. *)

Definition substr (s : list byte) (pos n : Z) : outcome (list byte) :=
  if zlen s <? pos then Throw (out_of_range "basic_string::substr")
  else Ok (ztake n (zdrop pos s)).

Definition str_replace (q : list byte) (pos n1 : Z) (s : list byte) (pos2 n2 : Z)
  : outcome (list byte) :=
  if zlen q <? pos then Throw (out_of_range "basic_string::replace")
  else if zlen s <? pos2 then Throw (out_of_range "basic_string::replace")
  else Ok (ztake pos q ++ ztake n2 (zdrop pos2 s) ++ zdrop (pos + n1) q).

(** [std::string::resize]: cuts, or pads with zero bytes. *)
Definition str_resize (s : list byte) (n : Z) : list byte :=
  ztake n s ++ replicate (Z.to_nat (n - zlen s)) Byte.x00.

(** Overwriting [s] over the elements of [q] that start at [pos]. *)
Definition overwrite {A} (pos : Z) (s q : list A) : list A :=
  ztake pos q ++ s ++ zdrop (pos + zlen s) q.

Lemma zlen_overwrite {A} pos (s q : list A) :
  0 <= pos -> pos + zlen s <= zlen q -> zlen (overwrite pos s q) = zlen q.
Proof.
  intros. unfold overwrite. rewrite !zlen_app, zlen_ztake, zlen_zdrop. lia.
Qed.

Lemma zget_overwrite {A} pos (s q : list A) i :
  0 <= pos -> pos + zlen s <= zlen q -> 0 <= i ->
  zget (overwrite pos s q) i =
    if (pos <=? i) && (i <? pos + zlen s) then zget s (i - pos) else zget q i.
Proof.
  intros. unfold overwrite. rewrite !zget_app, zget_ztake, zlen_ztake.
  destruct (Z.leb_spec pos i), (Z.ltb_spec i (pos + zlen s)); simpl;
    repeat case_match; try lia; try done; try (f_equal; lia).
  rewrite zget_zdrop by lia. f_equal. lia.
Qed.

(** ** Proof automation *)

Create HintDb sponge.
Create Rewrite HintDb zlen.
#[export] Hint Resolve u8_range u16_range u32_range u64_range Z_of_byte_range : sponge.
#[export] Hint Rewrite @zlen_app @zlen_ztake @zlen_zdrop : zlen.

(** Removes the reductions whose argument provably fits its width. *)
Ltac unwrap_ints :=
  repeat match goal with
  | |- context [u64 ?x] => rewrite (u64_small x) by lia
  | H : context [u64 ?x] |- _ => rewrite (u64_small x) in H by lia
  | |- context [u32 ?x] => rewrite (u32_small x) by lia
  | H : context [u32 ?x] |- _ => rewrite (u32_small x) in H by lia
  | |- context [u16 ?x] => rewrite (u16_small x) by lia
  | H : context [u16 ?x] |- _ => rewrite (u16_small x) in H by lia
  end.

(** Case analysis on the integer tests of the goal, innermost first. *)
Ltac no_if t := lazymatch t with context [if _ then _ else _] => fail | _ => idtac end.
Ltac ztests :=
  repeat match goal with
  | |- context [?a <? ?b] => no_if a; no_if b; destruct (Z.ltb_spec a b); simpl; try lia
  | |- context [?a <=? ?b] => no_if a; no_if b; destruct (Z.leb_spec a b); simpl; try lia
  | |- context [?a =? ?b] => no_if a; no_if b; destruct (Z.eqb_spec a b); simpl; try lia
  end.

(** Linear arithmetic with division and remainder by constants. *)
Ltac mlia := unfold u8, u16, u32, u64, s32 in *; Z.to_euclidean_division_equations; lia.
