(* ===== verification/Wrapping.v ===== *)
(** * Wrapping.v: 32-bit wrapping sequence numbers

    Models [libsponge/wrapping_integers.hh] and [libsponge/wrapping_integers.cc]:
    the class [WrappingInt32], its operators, and the conversions [wrap] and
    [unwrap] between 64-bit absolute and 32-bit relative sequence numbers. *)

From S2P Require Import Prelude.

(** ** The class *)

Module WrappingInt32.

(** The raw 32-bit stored integer; the constructor's parameter is a [uint32_t]. *)
Record t := mk { raw_value : Z }.

(** Values a [uint32_t] field can hold. *)
Definition ok (a : t) : Prop := 0 <= raw_value a < two32.

(** [operator-(WrappingInt32, WrappingInt32)]: a signed distance. *)
Definition diff (a b : t) : Z := s32 (u32 (raw_value a - raw_value b)).

Definition eqb (a b : t) : bool := raw_value a =? raw_value b.

Definition neqb (a b : t) : bool := negb (eqb a b).

(** [operator+(WrappingInt32, uint32_t)]. *)
Definition add (a : t) (b : Z) : t := mk (u32 (raw_value a + b)).

(** [operator-(WrappingInt32, uint32_t)], written in the source as [a + -b]. *)
Definition sub (a : t) (b : Z) : t := add a (u32 (- b)).

End WrappingInt32.

#[export] Instance WrappingInt32_eq_dec : EqDecision WrappingInt32.t.
Proof. solve_decision. Defined.

(** ** Conversions *)

Definition wrap (n : Z) (isn : WrappingInt32.t) : WrappingInt32.t :=
  let m := two32 in
  WrappingInt32.mk (u32 ((n mod m + WrappingInt32.raw_value isn) mod m)).

Definition unwrap (n isn : WrappingInt32.t) (checkpoint : Z) : Z :=
  let m := two32 in
  let steps := u64 (u64 (WrappingInt32.raw_value n + m) - WrappingInt32.raw_value isn) mod m in
  let prev := u64 (checkpoint - steps) / m in
  let next := u64 (prev + 1) in
  let from_prev := u64 (steps + u64 (prev * m)) in
  let from_next := u64 (steps + u64 (next * m)) in
  let diff_prev := if from_prev <? checkpoint then u64 (checkpoint - from_prev)
                   else u64 (from_prev - checkpoint) in
  let diff_next := if from_next <? checkpoint then u64 (checkpoint - from_next)
                   else u64 (from_next - checkpoint) in
  if diff_prev <? diff_next then from_prev else from_next.

(** ** Lemmas *)

Lemma wrap_ok n isn : WrappingInt32.ok (wrap n isn).
Proof. unfold WrappingInt32.ok, wrap; simpl. apply u32_range. Qed.

(** Adding to a wrapped number wraps the sum. *)
Lemma wrap_add n isn k :
  WrappingInt32.add (wrap n isn) k = wrap (n + k) isn.
Proof.
  unfold WrappingInt32.add, wrap; simpl. f_equal. mlia.
Qed.

(** Two absolute numbers wrap alike exactly when they agree modulo [2^32]. *)
Lemma wrap_eq_iff x y isn :
  wrap x isn = wrap y isn <-> x mod two32 = y mod two32.
Proof.
  unfold wrap. split.
  - intros [= H]. mlia.
  - intros ->. done.
Qed.

Lemma wrap_0 isn : WrappingInt32.ok isn -> wrap 0 isn = isn.
Proof.
  destruct isn as [i]. unfold wrap, WrappingInt32.ok; simpl. intros. f_equal. mlia.
Qed.

(** The number of increments from [isn] to [n], the source's [steps]. *)
Definition steps (n isn : WrappingInt32.t) : Z :=
  (WrappingInt32.raw_value n - WrappingInt32.raw_value isn) mod two32.

Lemma wrap_steps n isn x :
  WrappingInt32.ok n -> WrappingInt32.ok isn ->
  wrap x isn = n <-> x mod two32 = steps n isn.
Proof.
  destruct n as [n], isn as [isn]. unfold WrappingInt32.ok, wrap, steps; simpl.
  intros Hn Hi. split.
  - intros [= H]. mlia.
  - intros H. f_equal. mlia.
Qed.

(** The two candidates of [unwrap]: the greatest number congruent to [steps]
    that does not exceed the checkpoint, and the next one, both modulo [2^64]. *)
Lemma unwrap_cases n isn checkpoint :
  WrappingInt32.ok n -> WrappingInt32.ok isn -> 0 <= checkpoint < two64 ->
  let s := steps n isn in
  let q := (checkpoint - s) / two32 in
  unwrap n isn checkpoint =
    if checkpoint <? s then s
    else if (q =? two32 - 1) || (checkpoint - (s + q * two32) <? s + (q + 1) * two32 - checkpoint)
    then s + q * two32 else s + (q + 1) * two32.
Proof.
  destruct n as [n], isn as [isn]. unfold WrappingInt32.ok, unwrap, steps; simpl.
  intros Hn Hi Hc.
  assert (Hst : u64 (u64 (n + two32) - isn) mod two32 = (n - isn) mod two32) by mlia.
  rewrite Hst. set (s := (n - isn) mod two32).
  assert (Hs : 0 <= s < two32) by (apply Z.mod_pos_bound; lia). clearbody s.
  destruct (Z.ltb_spec checkpoint s).
  - replace (u64 (checkpoint - s)) with (checkpoint - s + two64) by mlia.
    replace ((checkpoint - s + two64) / two32) with (two32 - 1) by mlia.
    replace (u64 (u64 (two32 - 1 + 1) * two32)) with 0 by reflexivity.
    replace (u64 ((two32 - 1) * two32)) with (two64 - two32) by reflexivity.
    rewrite !(u64_small (s + _)) by lia. ztests; unwrap_ints; ztests; lia.
  - rewrite (u64_small (checkpoint - s)) by lia.
    set (q := (checkpoint - s) / two32).
    assert (Hq : checkpoint - s - two32 < q * two32 <= checkpoint - s) by (unfold q; mlia).
    assert (0 <= q < two32) by lia. clearbody q.
    rewrite (u64_small (q + 1)), (u64_small (q * two32)) by lia.
    rewrite (u64_small (s + q * two32)) by lia.
    destruct (Z.eqb_spec q (two32 - 1)) as [->|]; simpl.
    + replace (u64 ((two32 - 1 + 1) * two32)) with 0 by reflexivity.
      rewrite (u64_small (s + 0)) by lia. ztests; unwrap_ints; ztests; lia.
    + rewrite (u64_small ((q + 1) * two32)) by lia.
      rewrite (u64_small (s + (q + 1) * two32)) by lia.
      ztests; unwrap_ints; ztests; lia.
Qed.

Lemma unwrap_spec n isn checkpoint :
  WrappingInt32.ok n -> WrappingInt32.ok isn -> 0 <= checkpoint < two64 ->
  let r := unwrap n isn checkpoint in
  0 <= r < two64 /\ r mod two32 = steps n isn /\
  forall x, 0 <= x < two64 -> x mod two32 = steps n isn ->
    Z.abs (r - checkpoint) <= Z.abs (x - checkpoint) /\
    (Z.abs (x - checkpoint) = Z.abs (r - checkpoint) -> x <= r).
Proof.
  intros Hn Hi Hc. cbv zeta. rewrite unwrap_cases by done. cbv zeta.
  assert (Hs : 0 <= steps n isn < two32) by (apply Z.mod_pos_bound; lia).
  set (s := steps n isn) in *. clearbody s.
  assert (Hmod : forall k, (s + k * two32) mod two32 = s) by (intros; mlia).
  destruct (Z.ltb_spec checkpoint s).
  { split; [lia|]. split; [mlia|]. intros x Hx Hm. mlia. }
  assert (Hq : checkpoint - s - two32 < (checkpoint - s) / two32 * two32 <= checkpoint - s)
    by mlia.
  set (q := (checkpoint - s) / two32) in *. clearbody q.
  destruct (_ || _) eqn:E; (split; [lia|]); rewrite Hmod; (split; [done|]);
    intros x Hx Hm; pose proof (Z.div_mod x two32 ltac:(lia)); nia.
Qed.

(** ** Properties *)

(** C19. [unwrap] returns, for every 64-bit checkpoint, a 64-bit number that wraps to
    [n] and is closest to the checkpoint among all of them; on a tie it takes the
    larger one. *)
Theorem unwrap_closest n isn checkpoint :
  WrappingInt32.ok n -> WrappingInt32.ok isn -> 0 <= checkpoint < two64 ->
  let r := unwrap n isn checkpoint in
  0 <= r < two64 /\ wrap r isn = n /\
  forall x, 0 <= x < two64 -> wrap x isn = n ->
    Z.abs (r - checkpoint) <= Z.abs (x - checkpoint) /\
    (Z.abs (x - checkpoint) = Z.abs (r - checkpoint) -> x <= r).
Proof.
  intros Hn Hi Hc. cbv zeta.
  destruct (unwrap_spec n isn checkpoint Hn Hi Hc) as (Hr & Hm & Hx).
  split; [done|]. split; [by apply wrap_steps|].
  intros x Hxr Hxw. apply Hx; [done|]. by apply wrap_steps.
Qed.

Lemma unwrap_closest_witness :
  let r := unwrap (WrappingInt32.mk 5) (WrappingInt32.mk 4294967290) 8589934600 in
  0 <= r < two64 /\ wrap r (WrappingInt32.mk 4294967290) = WrappingInt32.mk 5 /\
  forall x, 0 <= x < two64 -> wrap x (WrappingInt32.mk 4294967290) = WrappingInt32.mk 5 ->
    Z.abs (r - 8589934600) <= Z.abs (x - 8589934600) /\
    (Z.abs (x - 8589934600) = Z.abs (r - 8589934600) -> x <= r).
Proof. apply unwrap_closest; unfold WrappingInt32.ok; simpl; lia. Defined.

Lemma unwrap_wrap_near x isn checkpoint :
  WrappingInt32.ok isn -> 0 <= x < two64 -> 0 <= checkpoint < two64 ->
  - two31 < x - checkpoint <= two31 ->
  unwrap (wrap x isn) isn checkpoint = x.
Proof.
  intros Hi Hx Hc Hd.
  destruct (unwrap_spec (wrap x isn) isn checkpoint (wrap_ok x isn) Hi Hc) as (Hr & Hm & Hmin).
  assert (Hxm : x mod two32 = steps (wrap x isn) isn)
    by (apply wrap_steps; auto using wrap_ok).
  specialize (Hmin x Hx Hxm) as [Hle Htie].
  set (r := unwrap _ _ _) in *. clearbody r. rewrite <- Hxm in Hm. mlia.
Qed.

(** A 64-bit sequence number less than [2^31] away from the checkpoint survives the
    round trip through its 32-bit wrapped form. *)
Theorem unwrap_wrap_roundtrip x isn checkpoint :
  WrappingInt32.ok isn -> 0 <= x < two64 -> 0 <= checkpoint < two64 ->
  - two31 < x - checkpoint <= two31 ->
  WrappingInt32.ok (wrap x isn) /\ unwrap (wrap x isn) isn checkpoint = x.
Proof. split; [apply wrap_ok | by apply unwrap_wrap_near]. Qed.

Lemma unwrap_wrap_roundtrip_witness :
  WrappingInt32.ok (wrap 8589934593 (WrappingInt32.mk 17)) /\
  unwrap (wrap 8589934593 (WrappingInt32.mk 17)) (WrappingInt32.mk 17) 8589934600 = 8589934593.
Proof. apply unwrap_wrap_roundtrip; unfold WrappingInt32.ok; simpl; lia. Defined.

(** The operators on wrapped numbers compute with the absolute numbers they stand
    for: addition and subtraction of an offset commute with [wrap], and the signed
    difference of two numbers less than [2^31] apart is their distance. *)
Theorem wrapping_operators a b k isn :
  WrappingInt32.ok isn -> 0 <= a -> 0 <= b -> 0 <= k < two32 ->
  - two31 <= a - b < two31 ->
  WrappingInt32.add (wrap a isn) k = wrap (a + k) isn /\
  (k <= a -> WrappingInt32.sub (wrap a isn) k = wrap (a - k) isn) /\
  WrappingInt32.diff (wrap a isn) (wrap b isn) = a - b /\
  (WrappingInt32.eqb (wrap a isn) (wrap b isn) = true <-> a = b).
Proof.
  intros Hi Ha Hb Hk Hd. split; [apply wrap_add|].
  destruct isn as [isn]. unfold WrappingInt32.ok in Hi; simpl in Hi.
  split; [|split].
  - intros. unfold WrappingInt32.sub. rewrite wrap_add. apply wrap_eq_iff. mlia.
  - unfold WrappingInt32.diff, wrap; simpl. mlia.
  - unfold WrappingInt32.eqb, wrap; simpl. rewrite Z.eqb_eq. split; [|by intros ->].
    intros. mlia.
Qed.

Lemma wrapping_operators_witness :
  WrappingInt32.add (wrap 7 (WrappingInt32.mk 4294967295)) 3 = wrap (7 + 3) (WrappingInt32.mk 4294967295) /\
  (3 <= 7 -> WrappingInt32.sub (wrap 7 (WrappingInt32.mk 4294967295)) 3
             = wrap (7 - 3) (WrappingInt32.mk 4294967295)) /\
  WrappingInt32.diff (wrap 7 (WrappingInt32.mk 4294967295)) (wrap 9 (WrappingInt32.mk 4294967295)) = 7 - 9 /\
  (WrappingInt32.eqb (wrap 7 (WrappingInt32.mk 4294967295)) (wrap 9 (WrappingInt32.mk 4294967295)) = true
   <-> 7 = 9).
Proof. apply wrapping_operators; unfold WrappingInt32.ok; simpl; lia. Defined.
