(* ===== verification/Streams.v ===== *)
(** * Streams.v: the in-order byte stream

    Models [libsponge/byte_stream.hh] and [libsponge/byte_stream.cc]: the private
    ring buffer and the flow-controlled [ByteStream] built on it.  The abstract
    specification is a bounded FIFO queue of bytes; the ring buffer is proved to
    implement it and the stream to deliver exactly the bytes it accepted. *)

From S2P Require Import Prelude.

(** [std::string::max_size()] of the 64-bit standard library: a longer string
    cannot be constructed. *)
Definition string_max_size : Z := two63 - 1.

(** ** The ring buffer *)

Module RingBuffer.

Record t := mk {
  front_ : Z;
  size_ : Z;
  capacity_ : Z;
  queue : list byte
}.

(** [RingBuffer(k)]: [queue] is initialised with [k] zero bytes. *)
Definition make (k : Z) : outcome t :=
  if string_max_size <? k then Throw (length_error "basic_string::_M_create")
  else Ok (mk 0 0 k (replicate (Z.to_nat k) Byte.x00)).

(** [std::string::reserve], of which only the failure shows. *)
Definition reserve (n : Z) : outcome unit :=
  if string_max_size <? n then Throw (length_error "basic_string::_M_create") else Ok tt.

Definition push_back_n (b : t) (s : list byte) (length : Z) : outcome t :=
  if capacity_ b =? 0 then Undefined
  else
    let start := u64 (front_ b + size_ b) mod capacity_ b in
    let len_to_end := Z.min length (u64 (capacity_ b - start)) in
    let rest := u64 (length - len_to_end) in
    q1 ← str_replace (queue b) start len_to_end s 0 len_to_end;
    q2 ← str_replace q1 0 rest s len_to_end rest;
    Ok (mk (front_ b) (u64 (size_ b + length)) (capacity_ b) q2).

Definition pop_front_n (b : t) (n : Z) : outcome t :=
  if capacity_ b =? 0 then Undefined
  else Ok (mk (u64 (front_ b + n) mod capacity_ b) (u64 (size_ b - n)) (capacity_ b) (queue b)).

Definition peek_front_n (b : t) (length : Z) : outcome (list byte) :=
  let len_to_end := Z.min length (u64 (capacity_ b - front_ b)) in
  s ← substr (queue b) (front_ b) len_to_end;
  _ ← reserve length;
  s' ← substr (queue b) 0 (u64 (length - len_to_end));
  Ok (s ++ s').

Definition empty (b : t) : bool := size_ b =? 0.
Definition full (b : t) : bool := size_ b =? capacity_ b.
Definition size (b : t) : Z := size_ b.
Definition remaining_capacity (b : t) : Z := u64 (capacity_ b - size_ b).
Definition capacity (b : t) : Z := capacity_ b.

(** The representation invariant of a buffer of positive capacity. *)
Record wf (b : t) : Prop := {
  wf_capacity : 0 < capacity_ b <= string_max_size;
  wf_queue : zlen (queue b) = capacity_ b;
  wf_front : 0 <= front_ b < capacity_ b;
  wf_size : 0 <= size_ b <= capacity_ b
}.

(** The bytes a buffer holds, oldest first. *)
Definition contents (b : t) : list byte :=
  ztake (size_ b) (zdrop (front_ b) (queue b) ++ ztake (front_ b) (queue b)).

End RingBuffer.

Section ring_buffer.

Import RingBuffer.

(** A position that has gone at most once around the ring. *)
Lemma ring_mod x c : 0 <= x < 2 * c -> x mod c = if x <? c then x else x - c.
Proof.
  intros. destruct (Z.ltb_spec x c).
  - apply Z.mod_small. lia.
  - symmetry. apply (Z.mod_unique x c 1); lia.
Qed.

Lemma rb_zlen_contents b : wf b -> zlen (contents b) = size_ b.
Proof.
  intros []. unfold contents. rewrite zlen_ztake, zlen_app, zlen_zdrop, zlen_ztake. lia.
Qed.

Lemma rb_zget_contents b i :
  wf b -> 0 <= i < size_ b ->
  zget (contents b) i = zget (queue b) ((front_ b + i) mod capacity_ b).
Proof.
  intros [? Hq ? ?] Hi. unfold contents.
  rewrite zget_ztake, zget_app, zlen_zdrop, ring_mod, Hq by lia.
  ztests; rewrite ?zget_zdrop, ?zget_ztake by lia; ztests; f_equal; lia.
Qed.

Lemma str_replace_overwrite q pos n s pos2 :
  0 <= pos -> 0 <= n -> 0 <= pos2 -> pos + n <= zlen q -> pos2 + n <= zlen s ->
  str_replace q pos n s pos2 n = Ok (overwrite pos (ztake n (zdrop pos2 s)) q).
Proof.
  intros. unfold str_replace, overwrite. ztests. do 4 f_equal.
  rewrite zlen_ztake, zlen_zdrop. lia.
Qed.

Lemma rb_make_wf k b : 0 < k -> make k = Ok b -> wf b /\ contents b = [] /\ capacity_ b = k.
Proof.
  unfold make, string_max_size. intros Hk. ztests; intros [= <-].
  split; [|split; [|done]].
  - split; simpl; unfold string_max_size; rewrite ?length_replicate; lia.
  - unfold contents; simpl. apply ztake_le0. lia.
Qed.

(** Pushing appends the given prefix of the string, wrapping around the end of the
    storage where it must. *)
Lemma rb_push_spec b s n :
  wf b -> 0 <= n <= zlen s -> size_ b + n <= capacity_ b ->
  exists b', push_back_n b s n = Ok b' /\ wf b' /\
    contents b' = contents b ++ ztake n s /\
    capacity_ b' = capacity_ b /\ size_ b' = size_ b + n.
Proof.
  intros Hwf Hn Hfit. pose proof Hwf as [Hc Hq Hf Hs].
  unfold string_max_size in Hc. unfold push_back_n. ztests. cbv zeta.
  rewrite (u64_small (front_ b + size_ b)) by lia.
  set (start := (front_ b + size_ b) mod capacity_ b).
  assert (Hst : start = if front_ b + size_ b <? capacity_ b then front_ b + size_ b
                        else front_ b + size_ b - capacity_ b)
    by (apply ring_mod; lia).
  assert (0 <= start < capacity_ b) by (apply Z.mod_pos_bound; lia). clearbody start.
  rewrite (u64_small (capacity_ b - start)) by lia.
  set (m := Z.min n (capacity_ b - start)). assert (Hm : 0 <= m <= n) by lia.
  rewrite (u64_small (n - m)), (u64_small (size_ b + n)) by lia.
  rewrite str_replace_overwrite, zdrop_le0 by lia. simpl.
  set (q1 := overwrite start (ztake m s) (queue b)).
  assert (Hq1 : zlen q1 = capacity_ b)
    by (unfold q1; rewrite zlen_overwrite; rewrite ?zlen_ztake; lia).
  assert (Hn1 : n - m <= front_ b)
    by (revert Hst; destruct (Z.ltb_spec (front_ b + size_ b) (capacity_ b)); lia).
  rewrite str_replace_overwrite by lia. simpl.
  set (q2 := overwrite 0 (ztake (n - m) (zdrop m s)) q1).
  assert (Hq2 : zlen q2 = capacity_ b).
  { unfold q2. rewrite zlen_overwrite; rewrite ?zlen_ztake, ?zlen_zdrop; lia. }
  eexists. split; [reflexivity|].
  assert (Hwf' : wf (mk (front_ b) (size_ b + n) (capacity_ b) q2))
    by (split; simpl; unfold string_max_size; lia).
  split; [done|]. split; [|done].
  apply zget_ext; [rewrite zlen_app, !rb_zlen_contents by done; simpl; rewrite zlen_ztake; lia|].
  intros i Hi. rewrite rb_zlen_contents in Hi by done. simpl in Hi.
  rewrite rb_zget_contents by done. simpl.
  rewrite zget_app, rb_zlen_contents by done. rewrite ring_mod by lia.
  assert (Hl1 : zlen (ztake m s) = m) by (rewrite zlen_ztake; lia).
  assert (Hl2 : zlen (ztake (n - m) (zdrop m s)) = n - m)
    by (rewrite zlen_ztake, zlen_zdrop; lia).
  set (x := if front_ b + i <? capacity_ b then _ else _).
  assert (Hx : 0 <= x) by (unfold x; ztests).
  unfold q2. rewrite zget_overwrite, Hl2 by lia.
  unfold q1. rewrite zget_overwrite, Hl1 by lia. unfold x; clear x Hx.
  destruct (Z.ltb_spec i (size_ b)).
  - rewrite rb_zget_contents, ring_mod by (done || lia).
    revert Hst. ztests; intros; done.
  - rewrite !zget_ztake. revert Hst. ztests; intros; ztests;
      rewrite ?zget_zdrop by lia; f_equal; lia.
Qed.

Lemma rb_pop_spec b n :
  wf b -> 0 <= n <= size_ b ->
  exists b', pop_front_n b n = Ok b' /\ wf b' /\
    contents b' = zdrop n (contents b) /\
    capacity_ b' = capacity_ b /\ size_ b' = size_ b - n.
Proof.
  intros Hwf Hn. pose proof Hwf as [Hc Hq Hf Hs]. unfold string_max_size in Hc.
  unfold pop_front_n. ztests.
  rewrite (u64_small (front_ b + n)), (u64_small (size_ b - n)) by lia.
  eexists. split; [reflexivity|].
  assert (Hfm : 0 <= (front_ b + n) mod capacity_ b < capacity_ b)
    by (apply Z.mod_pos_bound; lia).
  assert (Hwf' : wf (mk ((front_ b + n) mod capacity_ b) (size_ b - n) (capacity_ b) (queue b)))
    by (split; simpl; unfold string_max_size; lia).
  split; [done|]. split; [|done].
  apply zget_ext.
  { rewrite zlen_zdrop, !rb_zlen_contents by done. simpl. lia. }
  intros i Hi. rewrite rb_zlen_contents in Hi by done. simpl in Hi.
  rewrite zget_zdrop, !rb_zget_contents by (done || simpl; lia). simpl.
  rewrite Zplus_mod_idemp_l. f_equal. f_equal. lia.
Qed.

Lemma rb_peek_spec b n :
  wf b -> 0 <= n <= size_ b -> peek_front_n b n = Ok (ztake n (contents b)).
Proof.
  intros [Hc Hq Hf Hs] Hn. unfold string_max_size in Hc.
  unfold peek_front_n, reserve, string_max_size, substr, contents. cbv zeta.
  rewrite (u64_small (capacity_ b - front_ b)) by lia.
  set (m := Z.min n (capacity_ b - front_ b)). rewrite (u64_small (n - m)) by lia.
  ztests. f_equal. rewrite ztake_ztake, ztake_app, zlen_zdrop, ztake_ztake.
  rewrite (zdrop_le0 0) by lia.
  destruct (Z.leb_spec n (capacity_ b - front_ b)); f_equal.
  - f_equal. lia.
  - by rewrite !ztake_le0 by lia.
  - by rewrite !ztake_ge; rewrite ?zlen_zdrop; try lia.
  - f_equal. lia.
Qed.

End ring_buffer.

(** ** The byte stream *)

Module ByteStream.

Record t := mk {
  rb_ : RingBuffer.t;
  total_read_ : Z;
  total_write_ : Z;
  error_ : bool;
  eof_input_ : bool
}.

Definition make (capacity : Z) : outcome t :=
  rb ← RingBuffer.make capacity;
  Ok (mk rb 0 0 false false).

Definition remaining_capacity (s : t) : Z := RingBuffer.remaining_capacity (rb_ s).

Definition write (s : t) (data : list byte) : outcome (t * Z) :=
  let size := Z.min (zlen data) (RingBuffer.remaining_capacity (rb_ s)) in
  rb ← RingBuffer.push_back_n (rb_ s) data size;
  Ok (mk rb (total_read_ s) (u64 (total_write_ s + size)) (error_ s) (eof_input_ s), size).

Definition peek_output (s : t) (len : Z) : outcome (list byte) :=
  RingBuffer.peek_front_n (rb_ s) len.

Definition pop_output (s : t) (len : Z) : outcome t :=
  rb ← RingBuffer.pop_front_n (rb_ s) len;
  Ok (mk rb (u64 (total_read_ s + len)) (total_write_ s) (error_ s) (eof_input_ s)).

Definition read (s : t) (len : Z) : outcome (t * list byte) :=
  ans ← peek_output s len;
  s' ← pop_output s len;
  Ok (s', ans).

Definition end_input (s : t) : t :=
  mk (rb_ s) (total_read_ s) (total_write_ s) (error_ s) true.

Definition set_error (s : t) : t :=
  mk (rb_ s) (total_read_ s) (total_write_ s) true (eof_input_ s).

Definition input_ended (s : t) : bool := eof_input_ s.
Definition error (s : t) : bool := error_ s.
Definition buffer_size (s : t) : Z := RingBuffer.size (rb_ s).
Definition buffer_empty (s : t) : bool := RingBuffer.empty (rb_ s).
Definition eof (s : t) : bool := input_ended s && (total_read_ s =? total_write_ s).
Definition bytes_written (s : t) : Z := total_write_ s.
Definition bytes_read (s : t) : Z := total_read_ s.

(** What the stream still holds for its reader, and its fixed capacity. *)
Definition contents (s : t) : list byte := RingBuffer.contents (rb_ s).
Definition capacity (s : t) : Z := RingBuffer.capacity (rb_ s).

(** The counters agree with the buffer, also after they wrapped around. *)
Record wf (s : t) : Prop := {
  wf_rb : RingBuffer.wf (rb_ s);
  wf_read : 0 <= total_read_ s < two64;
  wf_write : total_write_ s = u64 (total_read_ s + RingBuffer.size_ (rb_ s))
}.

End ByteStream.

(** ** Abstract specification: a bounded queue of bytes *)

Module Fifo.

Record t := mk {
  bound : Z;
  held : list byte;
  reads : Z;
  writes : Z;
  failed : bool;
  ended : bool
}.

Definition empty (k : Z) : t := mk k [] 0 0 false false.

(** As many bytes as fit are accepted. *)
Definition accepted (q : t) (data : list byte) : list byte :=
  ztake (bound q - zlen (held q)) data.

Definition write (q : t) (data : list byte) : t * Z :=
  let d := accepted q data in
  (mk (bound q) (held q ++ d) (reads q) (u64 (writes q + zlen d)) (failed q) (ended q), zlen d).

Definition read (q : t) (len : Z) : t * list byte :=
  (mk (bound q) (zdrop len (held q)) (u64 (reads q + len)) (writes q) (failed q) (ended q),
   ztake len (held q)).

Definition end_input (q : t) : t :=
  mk (bound q) (held q) (reads q) (writes q) (failed q) true.

Definition set_error (q : t) : t :=
  mk (bound q) (held q) (reads q) (writes q) true (ended q).

(** The abstraction function. *)
Definition abs (s : ByteStream.t) : t :=
  mk (ByteStream.capacity s) (ByteStream.contents s) (ByteStream.bytes_read s)
     (ByteStream.bytes_written s) (ByteStream.error s) (ByteStream.input_ended s).

End Fifo.

Section byte_stream.

Import ByteStream.

Implicit Types s : ByteStream.t.

Lemma bs_buffer_size s : wf s -> buffer_size s = zlen (contents s).
Proof. intros []. symmetry. by apply rb_zlen_contents. Qed.

Lemma bs_remaining s : wf s -> remaining_capacity s = capacity s - zlen (contents s).
Proof.
  intros Hwf. rewrite <- bs_buffer_size by done. destruct Hwf as [[] ? ?].
  unfold string_max_size in *.
  unfold remaining_capacity, RingBuffer.remaining_capacity, capacity, RingBuffer.capacity,
    buffer_size, RingBuffer.size. apply u64_small. lia.
Qed.

Lemma bs_bounds s : wf s -> 0 <= zlen (contents s) <= capacity s /\ 0 < capacity s < two63.
Proof.
  intros Hwf. rewrite <- bs_buffer_size by done. destruct Hwf as [[] ? ?].
  unfold string_max_size in *. unfold capacity, RingBuffer.capacity, buffer_size, RingBuffer.size.
  lia.
Qed.

Lemma bs_buffer_empty s : wf s -> buffer_empty s = bool_decide (contents s = []).
Proof.
  intros Hwf. pose proof (bs_buffer_size s Hwf) as Hs.
  change (buffer_empty s) with (buffer_size s =? 0). rewrite Hs.
  by destruct (contents s).
Qed.

(** The reader is at the end exactly when the input ended and nothing is held. *)
Lemma bs_eof s : wf s -> eof s = input_ended s && bool_decide (contents s = []).
Proof.
  intros Hwf. rewrite <- bs_buffer_empty by done. destruct Hwf as [[] ? Hw].
  unfold eof, buffer_empty, RingBuffer.empty. f_equal. rewrite Hw.
  unfold string_max_size in *. ztests; mlia.
Qed.

Lemma bs_make_spec k :
  0 < k <= string_max_size ->
  exists s, make k = Ok s /\ wf s /\ contents s = [] /\ capacity s = k /\
    total_read_ s = 0 /\ total_write_ s = 0 /\ error s = false /\ input_ended s = false.
Proof.
  intros Hk. unfold make.
  destruct (RingBuffer.make k) as [b| | |] eqn:E;
    try (unfold RingBuffer.make in E; revert E; ztests; done).
  destruct (rb_make_wf k b ltac:(lia) E) as (Hwf & Hc & Hcap).
  simpl. eexists. split; [done|]. split; [|by rewrite <- Hcap].
  split; simpl; [done|lia|]. rewrite <- rb_zlen_contents, Hc by done. done.
Qed.

Lemma bs_write_spec s data :
  wf s ->
  let d := ztake (capacity s - zlen (contents s)) data in
  exists s', write s data = Ok (s', zlen d) /\ wf s' /\
    contents s' = contents s ++ d /\ capacity s' = capacity s /\
    total_read_ s' = total_read_ s /\ total_write_ s' = u64 (total_write_ s + zlen d) /\
    error s' = error s /\ input_ended s' = input_ended s.
Proof.
  intros Hwf d. pose proof (bs_remaining s Hwf) as Hrem. pose proof (bs_bounds s Hwf).
  pose proof Hwf as [Hrb Hr Hw]. pose proof (bs_buffer_size s Hwf) as Hsz.
  unfold write. fold (remaining_capacity s). rewrite Hrem.
  set (n := Z.min (zlen data) (capacity s - zlen (contents s))).
  assert (Hd : d = ztake n data).
  { unfold d, n. destruct (Z.le_ge_cases (zlen data) (capacity s - zlen (contents s))).
    - rewrite !ztake_ge by lia. done.
    - f_equal. lia. }
  assert (Hn : zlen d = n) by (rewrite Hd, zlen_ztake; lia).
  destruct (rb_push_spec (rb_ s) data n) as (b & -> & Hb & Hc & Hcap & Hbs);
    [done|lia|unfold buffer_size, RingBuffer.size, capacity, RingBuffer.capacity in *; lia|].
  simpl. rewrite Hn. eexists. split; [done|]. split; [|split; [|split; [exact Hcap|done]]].
  - split; simpl; [done..|]. rewrite Hbs, Hw. mlia.
  - rewrite Hd. exact Hc.
Qed.

Lemma bs_peek_spec s len :
  wf s -> 0 <= len <= zlen (contents s) ->
  peek_output s len = Ok (ztake len (contents s)).
Proof.
  intros Hwf Hl. pose proof (bs_buffer_size s Hwf). destruct Hwf.
  apply rb_peek_spec; [done|]. unfold buffer_size, RingBuffer.size in *. lia.
Qed.

Lemma bs_pop_spec s len :
  wf s -> 0 <= len <= zlen (contents s) ->
  exists s', pop_output s len = Ok s' /\ wf s' /\
    contents s' = zdrop len (contents s) /\ capacity s' = capacity s /\
    total_read_ s' = u64 (total_read_ s + len) /\ total_write_ s' = total_write_ s /\
    error s' = error s /\ input_ended s' = input_ended s.
Proof.
  intros Hwf Hl. pose proof (bs_buffer_size s Hwf). pose proof Hwf as [Hrb Hr Hw].
  unfold pop_output.
  destruct (rb_pop_spec (rb_ s) len) as (b & -> & Hb & Hc & Hcap & Hbs);
    [done|unfold buffer_size, RingBuffer.size in *; lia|].
  simpl. eexists. split; [done|]. split; [|split; [exact Hc|split; [exact Hcap|done]]].
  split; simpl; [done|apply u64_range|]. rewrite Hbs, Hw. mlia.
Qed.

Lemma bs_read_spec s len :
  wf s -> 0 <= len <= zlen (contents s) ->
  exists s', read s len = Ok (s', ztake len (contents s)) /\ wf s' /\
    contents s' = zdrop len (contents s) /\ capacity s' = capacity s /\
    total_read_ s' = u64 (total_read_ s + len) /\ total_write_ s' = total_write_ s /\
    error s' = error s /\ input_ended s' = input_ended s.
Proof.
  intros Hwf Hl. unfold read. rewrite bs_peek_spec by done. simpl.
  destruct (bs_pop_spec s len Hwf Hl) as (s' & -> & H). simpl. eauto.
Qed.

Lemma bs_end_input_wf s : wf s -> wf (end_input s).
Proof. by intros []. Qed.

Lemma bs_set_error_wf s : wf s -> wf (set_error s).
Proof. by intros []. Qed.

End byte_stream.

#[export] Hint Resolve bs_end_input_wf bs_set_error_wf : sponge.

(** ** Properties *)

(** C18. Refinement: on every well-formed stream each operation of [ByteStream]
    terminates without an exception, keeps the stream well formed, and acts on the
    bytes held as the bounded queue does: [write] accepts the longest prefix that fits
    and reports its length, [read] of at most [buffer_size] bytes returns the oldest
    ones and removes them, and the observers report the queue.  [end_input] only sets the
    flag that [eof] reads: a stream whose input has ended accepts and counts bytes like any
    other, although the documentation of the class says that none can be written any more. *)
Theorem bytestream_refines_fifo s data len :
  ByteStream.wf s -> 0 <= len <= ByteStream.buffer_size s ->
  (exists s' n, ByteStream.write s data = Ok (s', n) /\ ByteStream.wf s' /\
     Fifo.write (Fifo.abs s) data = (Fifo.abs s', n)) /\
  (exists s' out, ByteStream.read s len = Ok (s', out) /\ ByteStream.wf s' /\
     Fifo.read (Fifo.abs s) len = (Fifo.abs s', out)) /\
  (ByteStream.wf (ByteStream.end_input s) /\
     Fifo.abs (ByteStream.end_input s) = Fifo.end_input (Fifo.abs s)) /\
  (ByteStream.wf (ByteStream.set_error s) /\
     Fifo.abs (ByteStream.set_error s) = Fifo.set_error (Fifo.abs s)) /\
  ByteStream.buffer_size s = zlen (Fifo.held (Fifo.abs s)) /\
  ByteStream.remaining_capacity s = Fifo.bound (Fifo.abs s) - zlen (Fifo.held (Fifo.abs s)) /\
  (ByteStream.eof s = true <->
     Fifo.ended (Fifo.abs s) = true /\ Fifo.held (Fifo.abs s) = []).
Proof.
  intros Hwf Hlen. rewrite bs_buffer_size in Hlen by done.
  split; [|split; [|split; [|split; [|split; [|split]]]]].
  - destruct (bs_write_spec s data Hwf) as (s' & Hw & Hwf' & Hc & Hcap & Hr & Ht & He & Hi).
    do 2 eexists. split; [exact Hw|]. split; [done|].
    unfold Fifo.write, Fifo.accepted, Fifo.abs, ByteStream.bytes_read, ByteStream.bytes_written.
    simpl. by rewrite Hc, Hcap, Hr, Ht, He, Hi.
  - destruct (bs_read_spec s len Hwf Hlen) as (s' & Hw & Hwf' & Hc & Hcap & Hr & Ht & He & Hi).
    do 2 eexists. split; [exact Hw|]. split; [done|].
    unfold Fifo.read, Fifo.abs, ByteStream.bytes_read, ByteStream.bytes_written.
    simpl. by rewrite Hc, Hcap, Hr, Ht, He, Hi.
  - auto with sponge.
  - auto with sponge.
  - by apply bs_buffer_size.
  - by apply bs_remaining.
  - rewrite bs_eof by done. simpl. rewrite andb_true_iff, bool_decide_eq_true. done.
Qed.

(** A stream of capacity 4 that has wrapped around: ["cd"] at the end of the storage
    and ["e"] at its start. *)
Definition wrapped_stream : ByteStream.t :=
  ByteStream.mk (RingBuffer.mk 2 3 4 [Byte.x65; Byte.x62; Byte.x63; Byte.x64]) 2 5 false false.

Lemma wrapped_stream_wf : ByteStream.wf wrapped_stream.
Proof. split; [split|..]; simpl; unfold string_max_size; done || lia. Qed.

Lemma bytestream_refines_fifo_witness :
  exists s' out, ByteStream.read wrapped_stream 3 = Ok (s', out) /\ ByteStream.wf s' /\
    Fifo.read (Fifo.abs wrapped_stream) 3 = (Fifo.abs s', out).
Proof.
  destruct (bytestream_refines_fifo wrapped_stream [Byte.x66] 3 wrapped_stream_wf)
    as (_ & H & _); [unfold ByteStream.buffer_size; simpl; lia | exact H].
Defined.

(** ** Traces *)

(** The operations of a stream's two sides.  Readers of this code base ask for at
    most what the stream holds, so a read is clipped to [buffer_size]. *)
Inductive stream_op :=
  | OpWrite (data : list byte)
  | OpRead (len : Z)
  | OpEndInput
  | OpSetError.

(** One operation, with the bytes accepted from the writer and those handed to the
    reader. *)
Definition stream_step (s : ByteStream.t) (op : stream_op)
  : outcome (ByteStream.t * list byte * list byte) :=
  match op with
  | OpWrite data =>
      '(s', n) ← ByteStream.write s data; Ok (s', ztake n data, [])
  | OpRead len =>
      '(s', out) ← ByteStream.read s (Z.min (Z.max 0 len) (ByteStream.buffer_size s));
      Ok (s', [], out)
  | OpEndInput => Ok (ByteStream.end_input s, [], [])
  | OpSetError => Ok (ByteStream.set_error s, [], [])
  end.

Fixpoint stream_run (s : ByteStream.t) (ops : list stream_op)
  : outcome (ByteStream.t * list byte * list byte) :=
  match ops with
  | [] => Ok (s, [], [])
  | op :: ops' =>
      '(s1, w1, r1) ← stream_step s op;
      '(s2, w2, r2) ← stream_run s1 ops';
      Ok (s2, w1 ++ w2, r1 ++ r2)
  end.

Lemma stream_step_spec s op :
  ByteStream.wf s ->
  exists s' w r, stream_step s op = Ok (s', w, r) /\ ByteStream.wf s' /\
    ByteStream.contents s ++ w = r ++ ByteStream.contents s' /\
    ByteStream.capacity s' = ByteStream.capacity s.
Proof.
  intros Hwf. destruct op as [data|len| |]; simpl.
  - destruct (bs_write_spec s data Hwf) as (s' & -> & Hwf' & Hc & Hcap & _). simpl.
    do 3 eexists. split; [done|]. split; [done|]. split; [|done]. simpl. rewrite Hc. f_equal.
    rewrite zlen_ztake. pose proof (bs_bounds s Hwf).
    destruct (Z.le_ge_cases (zlen data) (ByteStream.capacity s - zlen (ByteStream.contents s))).
    + rewrite !ztake_ge by lia. done.
    + f_equal. lia.
  - rewrite bs_buffer_size by done.
    destruct (bs_read_spec s (Z.min (Z.max 0 len) (zlen (ByteStream.contents s))) Hwf)
      as (s' & -> & Hwf' & Hc & Hcap & _); [lia|]. simpl.
    do 3 eexists. split; [done|]. split; [done|]. split; [|done].
    by rewrite Hc, ztake_zdrop, app_nil_r.
  - do 3 eexists. split; [done|]. split; [by apply bs_end_input_wf|].
    by rewrite app_nil_r.
  - do 3 eexists. split; [done|]. split; [by apply bs_set_error_wf|].
    by rewrite app_nil_r.
Qed.

Lemma stream_run_spec s ops :
  ByteStream.wf s ->
  exists s' w r, stream_run s ops = Ok (s', w, r) /\ ByteStream.wf s' /\
    ByteStream.contents s ++ w = r ++ ByteStream.contents s' /\
    ByteStream.capacity s' = ByteStream.capacity s.
Proof.
  revert s. induction ops as [|op ops IH]; intros s Hwf; simpl.
  { do 3 eexists. split; [done|]. by rewrite app_nil_r. }
  destruct (stream_step_spec s op Hwf) as (s1 & w1 & r1 & -> & Hwf1 & Hc1 & Hcap1). simpl.
  destruct (IH s1 Hwf1) as (s2 & w2 & r2 & -> & Hwf2 & Hc2 & Hcap2). simpl.
  do 3 eexists. split; [done|]. split; [done|]. split; [|congruence].
  by rewrite app_assoc, Hc1, <- app_assoc, Hc2, app_assoc.
Qed.

(** Streams are reliable and bounded: from a fresh stream of any legal capacity,
    every sequence of operations runs without an exception, never holds more than the
    capacity, and the bytes handed to the reader followed by the bytes still held are
    exactly the bytes accepted from the writer, in order. *)
Theorem bytestream_fifo_trace k ops :
  0 < k <= string_max_size ->
  exists s0 s w r, ByteStream.make k = Ok s0 /\ stream_run s0 ops = Ok (s, w, r) /\
    w = r ++ ByteStream.contents s /\ 0 <= ByteStream.buffer_size s <= k.
Proof.
  intros Hk. destruct (bs_make_spec k Hk) as (s0 & Hs0 & Hwf & Hc & Hcap & _).
  destruct (stream_run_spec s0 ops Hwf) as (s & w & r & Hrun & Hwf' & Hfifo & Hcap').
  rewrite Hc in Hfifo. exists s0, s, w, r. split; [done|]. split; [done|]. split; [done|].
  rewrite bs_buffer_size by done. pose proof (bs_bounds s Hwf'). lia.
Qed.

Lemma bytestream_fifo_trace_witness :
  exists s0 s w r, ByteStream.make 3 = Ok s0 /\
    stream_run s0 [OpWrite [Byte.x61; Byte.x62]; OpRead 1; OpWrite [Byte.x63; Byte.x64; Byte.x65]]
      = Ok (s, w, r) /\
    w = r ++ ByteStream.contents s /\ 0 <= ByteStream.buffer_size s <= 3.
Proof. apply bytestream_fifo_trace. unfold string_max_size. lia. Defined.

(** Reading past the end is not clipped: popping more than the stream holds
    succeeds and leaves a buffer size far beyond the capacity (the counter wraps
    below zero), so callers must ask for at most [buffer_size] bytes. *)
Theorem pop_output_past_end s len :
  ByteStream.wf s -> ByteStream.buffer_size s < len < two63 ->
  exists s', ByteStream.pop_output s len = Ok s' /\
    ByteStream.buffer_size s' = two64 + ByteStream.buffer_size s - len /\
    ByteStream.capacity s' < ByteStream.buffer_size s'.
Proof.
  intros [Hrb Hr Hw] Hlen. pose proof Hrb as [Hc _ _ Hs]. unfold string_max_size in Hc.
  unfold ByteStream.buffer_size, RingBuffer.size in *.
  unfold ByteStream.pop_output, RingBuffer.pop_front_n. ztests.
  eexists. split; [done|].
  unfold ByteStream.capacity, RingBuffer.capacity; simpl. mlia.
Qed.

Lemma pop_output_past_end_witness :
  exists s', ByteStream.pop_output wrapped_stream 4 = Ok s' /\
    ByteStream.buffer_size s' = two64 + ByteStream.buffer_size wrapped_stream - 4 /\
    ByteStream.capacity s' < ByteStream.buffer_size s'.
Proof.
  apply pop_output_past_end; [exact wrapped_stream_wf|].
  unfold ByteStream.buffer_size; simpl. lia.
Defined.
