(* ===== verification/Reassembler.v ===== *)
(** * Reassembler.v: putting out-of-order substrings back into a stream

    Models [libsponge/stream_reassembler.hh] and [libsponge/stream_reassembler.cc].
    The pending substrings are a [std::forward_list] of [<[start, end), string>]
    pairs; here it is a list, and the iterators [prev] and [it] become the split of
    that list into the entries passed and the entries from [it] on. *)

From S2P Require Import Prelude Streams.

Module StreamReassembler.

(** [std::pair<std::pair<size_t, size_t>, std::string>]: a range and its bytes. *)
Definition entry : Type := (Z * Z) * list byte.
Definition e_start (e : entry) : Z := e.1.1.
Definition e_end (e : entry) : Z := e.1.2.
Definition e_str (e : entry) : list byte := e.2.

Record t := mk {
  capacity_ : Z;
  output_ : ByteStream.t;
  data_ : list entry;
  size_ : Z;
  next_ : Z;
  eof_num_ : Z;
  eof_ : bool
}.

Definition make (capacity : Z) : outcome t :=
  out ← ByteStream.make capacity;
  Ok (mk capacity out [] 0 0 0 false).

(** The first loop of [assemble]: skip the entries that end before the range starts.
    Returns the entries skipped (the last of them is [prev]) and those from [it] on. *)
Fixpoint advance (first : Z) (l : list entry) : list entry * list entry :=
  match l with
  | [] => ([], [])
  | e :: l' =>
      if e_end e <? first then let '(p, r) := advance first l' in (e :: p, r) else ([], l)
  end.

(** Merging the new range into the entry [it] that it overlaps or touches; also
    returns [keep], the number of new bytes. *)
Definition merge_entry (input : list byte) (offset len first second : Z) (it : entry)
  : outcome (entry * Z) :=
  let mini := Z.min (e_start it) first in
  let maxj := Z.max (e_end it) second in
  '(s, keep) ←
    (if mini =? e_start it then
       if negb (maxj =? e_end it) then
         let bypass := u64 (e_end it - first) in
         let keep := u64 (len - bypass) in
         d ← substr input (u64 (offset + bypass)) keep;
         Ok (e_str it ++ d, keep)
       else Ok (e_str it, 0)
     else if maxj =? e_end it then
       let keep := u64 (e_start it - first) in
       d ← substr input offset keep;
       Ok (d ++ e_str it, keep)
     else
       d ← substr input offset len;
       Ok (d, u64 (len - zlen (e_str it))));
  Ok ((mini, maxj, s), keep).

(** The erasing loop: entries that end within [prev] are dropped. *)
Fixpoint erase_covered (prev_end : Z) (l : list entry) (size : Z) : list entry * Z :=
  match l with
  | [] => ([], size)
  | e :: l' =>
      if e_end e <=? prev_end then erase_covered prev_end l' (u64 (size - zlen (e_str e)))
      else (l, size)
  end.

(** The end of [assemble]: the entry after [prev] is joined to it when it starts
    within (or right after) it. *)
Definition join_next (prev : entry) (l : list entry) (size : Z) : outcome (list entry * Z) :=
  match l with
  | [] => Ok ([prev], size)
  | e :: l' =>
      if e_start e <=? e_end prev then
        let bypass := u64 (e_end prev - e_start e) in
        d ← substr (e_str e) bypass (zlen (e_str e));
        Ok ((e_start prev, e_end e, e_str prev ++ d) :: l', u64 (size - bypass))
      else Ok (prev :: l, size)
  end.

Definition set_data (s : t) (data : list entry) (size : Z) : t :=
  mk (capacity_ s) (output_ s) data size (next_ s) (eof_num_ s) (eof_ s).

(** [upper]: the first index that does not fit. *)
Definition upper (s : t) : Z :=
  u64 (next_ s + u64 (capacity_ s - ByteStream.buffer_size (output_ s))).

Definition assemble (s : t) (input : list byte) (index : Z) : outcome t :=
  let up := upper s in
  if (zlen input =? 0) || (u64 (index + zlen input) <=? next_ s) || (up <=? index) then Ok s
  else
    let start := Z.max (next_ s) index in
    let offset := u64 (start - index) in
    let len := Z.min (u64 (zlen input - offset)) (u64 (up - start)) in
    let first := start in
    let second := u64 (start + len) in
    let '(passed, rest) := advance first (data_ s) in
    match rest with
    | [] =>
        d ← substr input offset len;
        Ok (set_data s (passed ++ [(first, second, d)]) (u64 (size_ s + len)))
    | it :: after =>
        if second <? e_start it then
          d ← substr input offset len;
          Ok (set_data s (passed ++ (first, second, d) :: rest) (u64 (size_ s + len)))
        else
          '(it', keep) ← merge_entry input offset len first second it;
          let '(after', size') := erase_covered (e_end it') after (u64 (size_ s + keep)) in
          '(rest', size'') ← join_next it' after' size';
          Ok (set_data s (passed ++ rest') size'')
    end.

Definition check_end_input (s : t) (index : Z) (eof : bool) : t :=
  let s1 := if eof then mk (capacity_ s) (output_ s) (data_ s) (size_ s) (next_ s) index true
            else s in
  if eof_ s1 && (eof_num_ s1 =? next_ s1)
  then mk (capacity_ s1) (ByteStream.end_input (output_ s1)) (data_ s1) (size_ s1) (next_ s1)
          (eof_num_ s1) (eof_ s1)
  else s1.

Definition output (s : t) : outcome t :=
  match data_ s with
  | [] => Ok s
  | e :: l' =>
      if negb (next_ s =? e_start e) then Ok s
      else
        '(out, _) ← ByteStream.write (output_ s) (e_str e);
        Ok (mk (capacity_ s) out l' (u64 (size_ s - zlen (e_str e))) (e_end e)
               (eof_num_ s) (eof_ s))
  end.

Definition push_substring (s : t) (data : list byte) (index : Z) (eof : bool) : outcome t :=
  s1 ← assemble s data index;
  s2 ← output s1;
  Ok (check_end_input s2 (u64 (index + zlen data)) eof).

Definition stream_out (s : t) : ByteStream.t := output_ s.
Definition unassembled_bytes (s : t) : Z := size_ s.
Definition empty (s : t) : bool := eof_ s && (eof_num_ s =? next_ s).

(** Writing back the stream the owner got by reference from [stream_out()]. *)
Definition set_stream_out (s : t) (out : ByteStream.t) : t :=
  mk (capacity_ s) out (data_ s) (size_ s) (next_ s) (eof_num_ s) (eof_ s).

(** The indices held in pending entries, and the bytes they hold. *)
Definition covers (l : list entry) (i : Z) : Prop :=
  Exists (fun e => e_start e <= i < e_end e) l.

Definition held (l : list entry) : Z := foldr (fun e n => zlen (e_str e) + n) 0 l.

(** An index is known when its byte was written out or is pending. *)
Definition known (s : t) (i : Z) : Prop := i < next_ s \/ covers (data_ s) i.

End StreamReassembler.


(** ** Invariant *)

Section reassembler_inv.

Import StreamReassembler.

(** [P i c]: byte [c] is admissible at stream index [i].  Taking [P] to be the bytes
    of a reference stream gives correctness of the contents, and the trivial [P] the
    structure alone. *)
Variable P : Z -> byte -> Prop.

(** [E n]: the stream may end at index [n]. *)
Variable E : Z -> Prop.

Definition bytes_ok (start : Z) (s : list byte) : Prop :=
  forall k c, zget s k = Some c -> P (start + k) c.

Record entry_ok (e : entry) : Prop := {
  entry_nonempty : e_start e < e_end e;
  entry_length : zlen (e_str e) = e_end e - e_start e;
  entry_bytes : bytes_ok (e_start e) (e_str e)
}.

(** Entries from [lo] on, in order, with a gap between neighbours, up to [hi]. *)
Fixpoint sorted_from (lo hi : Z) (l : list entry) : Prop :=
  match l with
  | [] => True
  | e :: l' => lo <= e_start e /\ e_end e <= hi /\ entry_ok e /\ sorted_from (e_end e + 1) hi l'
  end.

(** The invariant of a reassembler between calls: its data, *)
Record sr_core (s : t) : Prop := {
  sr_out : ByteStream.wf (output_ s);
  sr_capacity : capacity_ s = ByteStream.capacity (output_ s);
  sr_next : 0 <= next_ s < two64;
  sr_room : next_ s + (capacity_ s - zlen (ByteStream.contents (output_ s))) < two64;
  sr_sorted : sorted_from (next_ s + 1)
                (next_ s + (capacity_ s - zlen (ByteStream.contents (output_ s)))) (data_ s);
  sr_size : size_ s = held (data_ s);
  sr_written : ByteStream.bytes_written (output_ s) = next_ s;
  sr_held : zlen (ByteStream.contents (output_ s)) <= next_ s;
  sr_bytes : bytes_ok (next_ s - zlen (ByteStream.contents (output_ s)))
               (ByteStream.contents (output_ s))
}.

(** and its end-of-stream marker. *)
Record sr_wf (s : t) : Prop := {
  sr_is_core : sr_core s;
  sr_eof : eof_ s = true -> E (eof_num_ s);
  sr_ended : ByteStream.input_ended (output_ s) = true -> exists n, E n /\ n <= next_ s;
  sr_ends : eof_ s = true -> eof_num_ s = next_ s -> ByteStream.input_ended (output_ s) = true
}.

(** Projections of an explicit entry. *)
Ltac entry_simpl :=
  repeat match goal with
  | |- context [e_start (?a, ?b, ?s)] => change (e_start (a, b, s)) with a
  | |- context [e_end (?a, ?b, ?s)] => change (e_end (a, b, s)) with b
  | |- context [e_str (?a, ?b, ?s)] => change (e_str (a, b, s)) with s
  end.

(** *** Byte strings at an index *)

Lemma bytes_ok_app a s1 s2 :
  bytes_ok a s1 -> bytes_ok (a + zlen s1) s2 -> bytes_ok a (s1 ++ s2).
Proof.
  intros H1 H2 k c. rewrite zget_app. destruct (Z.ltb_spec k (zlen s1)); [apply H1|].
  intros Hk. replace (a + k) with (a + zlen s1 + (k - zlen s1)) by lia. by apply H2.
Qed.

Lemma bytes_ok_slice a s pos n :
  0 <= pos -> bytes_ok a s -> bytes_ok (a + pos) (ztake n (zdrop pos s)).
Proof.
  intros Hpos H k c Hk. pose proof (zget_Some_range _ _ _ Hk) as Hr.
  rewrite zget_ztake in Hk. destruct (Z.ltb_spec k n); [|done].
  rewrite zget_zdrop in Hk by lia. rewrite <- Z.add_assoc. by apply H.
Qed.

Lemma bytes_ok_zdrop a s pos :
  0 <= pos <= zlen s -> bytes_ok a s -> bytes_ok (a + pos) (zdrop pos s).
Proof.
  intros Hpos H k c Hk. pose proof (zget_Some_range _ _ _ Hk) as Hr.
  rewrite zget_zdrop in Hk by lia. rewrite <- Z.add_assoc. by apply H.
Qed.

(** The substring of the input that an entry takes is always in range. *)
Lemma substr_slice (s : list byte) pos n :
  0 <= pos <= zlen s -> substr s pos n = Ok (ztake n (zdrop pos s)).
Proof. intros. unfold substr. by ztests. Qed.

(** *** Sorted lists of entries *)

Lemma sorted_from_weaken lo lo' hi hi' l :
  lo' <= lo -> hi <= hi' -> sorted_from lo hi l -> sorted_from lo' hi' l.
Proof.
  revert lo lo'. induction l as [|e l IH]; simpl; [done|].
  intros lo lo' Hlo Hhi (? & ? & ? & Hl). split_and!; try lia; try done.
  by apply (IH (e_end e + 1)); [lia|..].
Qed.

Lemma held_bound lo hi l :
  lo <= hi -> sorted_from lo hi l -> 0 <= held l <= hi - lo.
Proof.
  revert lo. induction l as [|e l IH]; intros lo Hlo; simpl; [lia|].
  intros (? & ? & [Hne Hlen _] & Hl). rewrite Hlen.
  destruct (Z.le_gt_cases (e_end e + 1) hi) as [Hle|Hgt].
  - specialize (IH _ Hle Hl). lia.
  - destruct l as [|e' l']; simpl in *; [lia|]. destruct Hl as (? & ? & [? _ _] & _). lia.
Qed.

Lemma held_nonneg l : 0 <= held l.
Proof. induction l as [|e l IH]; simpl; lia. Qed.

Lemma covers_cons e l i :
  covers (e :: l) i <-> e_start e <= i < e_end e \/ covers l i.
Proof. unfold covers. by rewrite Exists_cons. Qed.

Lemma covers_app l k i : covers (l ++ k) i <-> covers l i \/ covers k i.
Proof. unfold covers. by rewrite Exists_app. Qed.

Lemma held_app l k : held (l ++ k) = held l + held k.
Proof. induction l as [|e l IH]; simpl; [lia|]. rewrite IH. lia. Qed.

Lemma sorted_covers lo hi l i : sorted_from lo hi l -> covers l i -> lo <= i < hi.
Proof.
  revert lo. induction l as [|e l IH]; intros lo; simpl.
  { intros _ H. by inversion H. }
  intros (? & ? & [? _ _] & Hl) [Hi|Hi]%covers_cons; [lia|].
  specialize (IH _ Hl Hi). lia.
Qed.

(** What [advance] leaves: the rest is sorted from a position not after [first], and
    any other sorted rest may take its place. *)
Lemma advance_spec first lo hi l p r :
  advance first l = (p, r) -> lo <= first -> sorted_from lo hi l ->
  l = p ++ r /\
  exists lo', lo <= lo' <= first /\ sorted_from lo' hi r /\
    (forall r', sorted_from lo' hi r' -> sorted_from lo hi (p ++ r')) /\
    match r with [] => True | e :: _ => first <= e_end e end.
Proof.
  revert lo p r. induction l as [|e l IH]; intros lo p r; simpl.
  { intros [= <- <-] Hlo _. split; [done|]. exists lo. split_and!; done || lia. }
  intros Ha Hlo (H1 & H2 & H3 & Hl). destruct (Z.ltb_spec (e_end e) first).
  - destruct (advance first l) as [p' r'] eqn:Ea. injection Ha as <- <-.
    destruct (IH (e_end e + 1) p' r') as (-> & lo' & Hlo' & Hr & Hput & Hhd); [done|lia|done|].
    destruct H3 as [? ? ?].
    split; [done|]. exists lo'. split; [lia|]. split; [done|]. split; [|done].
    intros r'' Hr''. simpl. split_and!; try done. by apply Hput.
  - injection Ha as <- <-. split; [done|]. exists lo. simpl. split_and!; done || lia.
Qed.

(** *** The steps of [assemble] *)

(** Merging keeps the range [[mini, maxj)] and the bytes of the two; [keep] counts the
    bytes added. *)
Lemma merge_entry_spec input index offset len first second it :
  bytes_ok index input -> entry_ok it ->
  0 <= offset -> first = index + offset -> second = first + len -> 0 < len ->
  offset + len <= zlen input -> zlen input < two64 -> 0 <= first -> second < two64 ->
  0 <= e_start it -> e_end it < two64 -> first <= e_end it -> e_start it <= second ->
  exists it' keep,
    merge_entry input offset len first second it = Ok (it', keep) /\ entry_ok it' /\
    e_start it' = Z.min (e_start it) first /\ e_end it' = Z.max (e_end it) second /\
    zlen (e_str it') = zlen (e_str it) + keep /\ 0 <= keep <= len.
Proof.
  intros Hin [Hne Hlen Hb] Ho Hf Hs Hl Hfit Hbig Hf0 Hs64 Hs0 He64 Ht1 Ht2.
  unfold merge_entry. cbv zeta.
  destruct (Z.eqb_spec (Z.min (e_start it) first) (e_start it)) as [Hmin|Hmin].
  - destruct (Z.eqb_spec (Z.max (e_end it) second) (e_end it)) as [Hmax|Hmax]; simpl.
    + do 2 eexists. split; [done|]. entry_simpl.
      rewrite Hmin, Hmax. split_and!; try lia. by split.
    + rewrite (u64_small (e_end it - first)), (u64_small (offset + _)) by lia.
      rewrite (u64_small (len - _)) by lia.
      rewrite substr_slice by lia. simpl.
      set (d := ztake _ _).
      assert (Hd : zlen d = len - (e_end it - first))
        by (unfold d; rewrite zlen_ztake, zlen_zdrop; lia).
      do 2 eexists. split; [done|].
      entry_simpl.
      rewrite zlen_app, Hd. split_and!; try lia.
      split; entry_simpl; [lia|rewrite zlen_app; lia|].
      rewrite Hmin. apply bytes_ok_app; [done|]. rewrite Hlen.
      replace (e_start it + (e_end it - e_start it)) with (index + (offset + (e_end it - first)))
        by lia.
      apply bytes_ok_slice; [lia|done].
  - destruct (Z.eqb_spec (Z.max (e_end it) second) (e_end it)) as [Hmax|Hmax]; simpl.
    + rewrite (u64_small (e_start it - first)) by lia. rewrite substr_slice by lia. simpl.
      set (d := ztake _ _).
      assert (Hd : zlen d = e_start it - first)
        by (unfold d; rewrite zlen_ztake, zlen_zdrop; lia).
      do 2 eexists. split; [done|].
      entry_simpl.
      rewrite zlen_app, Hd. split_and!; try lia.
      split; entry_simpl; [lia|rewrite zlen_app; lia|].
      replace (Z.min (e_start it) first) with first by lia.
      apply bytes_ok_app; [rewrite Hf; apply bytes_ok_slice; [lia|done]|].
      rewrite Hd. by replace (first + (e_start it - first)) with (e_start it) by lia.
    + rewrite substr_slice by lia. simpl. rewrite (u64_small (len - _)) by lia.
      set (d := ztake _ _).
      assert (Hd : zlen d = len) by (unfold d; rewrite zlen_ztake, zlen_zdrop; lia).
      do 2 eexists. split; [done|].
      entry_simpl. split_and!; try lia.
      split; entry_simpl; [lia|lia|].
      replace (Z.min (e_start it) first) with (index + offset) by lia.
      apply bytes_ok_slice; [lia|done].
Qed.

Lemma erase_covered_spec prev lo hi l size l' size' :
  erase_covered (e_end prev) l size = (l', size') ->
  sorted_from lo hi l -> e_start prev < lo ->
  0 <= size - held l -> size < two64 ->
  exists lo', lo <= lo' /\ sorted_from lo' hi l' /\
    size' - held l' = size - held l /\ size' <= size /\
    (forall i, covers (prev :: l') i <-> covers (prev :: l) i) /\
    match l' with [] => True | e :: _ => e_end prev < e_end e end.
Proof.
  revert lo size. induction l as [|e l IH]; intros lo size; simpl.
  { intros [= <- <-] _ ? ? ?. exists lo. split_and!; done || lia. }
  intros Hr (H1 & H2 & [Hne Hlen Hb] & Hl) Hp Hsz Hbig.
  destruct (Z.leb_spec (e_end e) (e_end prev)).
  - pose proof (held_nonneg l).
    rewrite u64_small in Hr by lia.
    destruct (IH (e_end e + 1) _ Hr Hl) as (lo' & Hlo & Hs & Hh & Hle & Hc & Hhd);
      [lia..|].
    exists lo'. split_and!; try done; try lia.
    intros i. rewrite Hc, !covers_cons. intuition lia.
  - injection Hr as <- <-. exists lo. simpl. split_and!; try done; lia.
Qed.

Lemma join_next_spec prev lo hi l size :
  entry_ok prev -> sorted_from lo hi l -> e_start prev < lo -> e_end prev <= hi ->
  0 <= e_start prev -> hi < two64 ->
  0 <= size - held l - zlen (e_str prev) -> size < two64 ->
  match l with [] => True | e :: _ => e_end prev < e_end e end ->
  exists l' size', join_next prev l size = Ok (l', size') /\
    sorted_from (e_start prev) hi l' /\
    size' - held l' = size - held l - zlen (e_str prev) /\
    forall i, covers l' i <-> covers (prev :: l) i.
Proof.
  intros [Hne Hlen Hb] Hl Hlo Hhi H0 H64 Hsz Hbig Hhd. destruct l as [|e l]; simpl.
  { do 2 eexists. split; [done|]. simpl. split_and!; try done; lia. }
  destruct Hl as (H1 & H2 & [Hne' Hlen' Hb'] & Hl).
  destruct (Z.leb_spec (e_start e) (e_end prev)).
  - rewrite (u64_small (e_end prev - e_start e)) by lia.
    rewrite substr_slice by lia. rewrite ztake_ge by (rewrite zlen_zdrop; lia). simpl.
    assert (Hd : zlen (zdrop (e_end prev - e_start e) (e_str e)) = e_end e - e_end prev)
      by (rewrite zlen_zdrop; lia).
    pose proof (held_nonneg l).
    simpl in Hsz. rewrite (u64_small (size - _)) by lia.
    do 2 eexists. split; [done|]. simpl.
    entry_simpl. rewrite zlen_app, Hd.
    split_and!; try done; try lia.
    + split; entry_simpl; [lia|rewrite zlen_app; lia|].
      apply bytes_ok_app; [done|]. rewrite Hlen.
      replace (e_start prev + (e_end prev - e_start prev))
        with (e_start e + (e_end prev - e_start e)) by lia.
      apply bytes_ok_zdrop; [lia|done].
    + intros i. rewrite !covers_cons. entry_simpl. intuition lia.
  - do 2 eexists. split; [done|]. simpl. split_and!; try done; try lia.
Qed.

(** The state between the steps of [push_substring]: like [sr_wf] but the first entry
    may start at [next_]. *)
Lemma assemble_spec s data index :
  sr_core s -> 0 <= index < two64 -> bytes_ok index data ->
  let up := next_ s + (capacity_ s - zlen (ByteStream.contents (output_ s))) in
  next_ s < up -> up + zlen data < two64 ->
  exists data' size',
    assemble s data index = Ok (set_data s data' size') /\
    sorted_from (next_ s) up data' /\ size' = held data' /\
    forall i, next_ s <= i ->
      covers data' i <-> covers (data_ s) i \/ (index <= i < index + zlen data /\ i < up).
Proof.
  intros [Hout Hcap Hn Hroom Hsort Hsize _ _ _] Hi Hd up Hopen Hup.
  pose proof (bs_bounds _ Hout) as [Hb1 Hb2].
  assert (Hu : upper s = up).
  { unfold upper, up. rewrite bs_buffer_size by done. unwrap_ints. done. }
  assert (Hself : s = set_data s (data_ s) (size_ s)) by (by destruct s).
  assert (Hsort0 : sorted_from (next_ s) up (data_ s))
    by (by apply (sorted_from_weaken (next_ s + 1) _ up); [lia..|]).
  unfold assemble. rewrite Hu. cbv zeta.
  destruct (_ || _) eqn:Eg.
  { exists (data_ s), (size_ s). split; [by rewrite Hself|]. split_and!; try done.
    intros i Hin. split; [by left|]. intros [?|[? ?]]; [done|exfalso].
    rewrite !orb_true_iff, Z.eqb_eq, !Z.leb_le in Eg. unwrap_ints. lia. }
  rewrite !orb_false_iff, Z.eqb_neq, !Z.leb_gt in Eg. destruct Eg as [[Hne Hend] Hidx].
  rewrite (u64_small (index + _)) in Hend by lia.
  set (first := Z.max (next_ s) index) in *. rewrite (u64_small (first - index)) by lia.
  set (offset := first - index) in *. rewrite (u64_small (zlen data - offset)) by lia.
  rewrite (u64_small (up - first)) by lia.
  set (len := Z.min (zlen data - offset) (up - first)) in *.
  rewrite (u64_small (first + len)) by lia.
  assert (Hrange : forall i, next_ s <= i ->
    index <= i < index + zlen data /\ i < up <-> first <= i < first + len) by (intros; lia).
  assert (Hnew : entry_ok (first, first + len, ztake len (zdrop offset data))).
  { split; entry_simpl; [lia|rewrite zlen_ztake, zlen_zdrop; lia|].
    replace first with (index + offset) by lia. apply bytes_ok_slice; [lia|done]. }
  assert (Hheld : held (data_ s) <= up - next_ s) by (apply (held_bound (next_ s)); [lia|done]).
  pose proof (held_nonneg (data_ s)).
  destruct (advance first (data_ s)) as [p r] eqn:Ea.
  destruct (advance_spec first (next_ s) up _ p r Ea ltac:(lia) Hsort0)
    as (Hpr & lo' & Hlo' & Hr & Hput & Hhd).
  assert (Hnewlen : zlen (ztake len (zdrop offset data)) = len)
    by (rewrite zlen_ztake, zlen_zdrop; lia).
  destruct r as [|it after].
  { rewrite substr_slice by lia. simpl. rewrite (u64_small (size_ s + len)) by lia.
    do 2 eexists. split; [done|]. split; [|split].
    - apply Hput. simpl. entry_simpl. split_and!; done || lia.
    - rewrite Hsize, Hpr, !held_app. simpl. entry_simpl. lia.
    - intros i Hin. rewrite Hrange, Hpr, !covers_app, covers_cons by done. entry_simpl.
      unfold covers at 2 4. rewrite !Exists_nil. tauto. }
  destruct (Z.ltb_spec (first + len) (e_start it)) as [Hgap|Hgap].
  { rewrite substr_slice by lia. simpl. rewrite (u64_small (size_ s + len)) by lia.
    do 2 eexists. split; [done|]. split; [|split].
    - apply Hput. destruct Hr as (? & ? & ? & ?). simpl. entry_simpl. split_and!; done || lia.
    - rewrite Hsize, Hpr, !held_app. simpl. entry_simpl. lia.
    - intros i Hin. rewrite Hrange, Hpr, !covers_app, !covers_cons by done. entry_simpl.
      tauto. }
  destruct Hr as (Hi1 & Hi2 & Hit & Hafter). pose proof Hit as [Hine Hilen _].
  destruct (merge_entry_spec data index offset len first (first + len) it)
    as (it' & keep & -> & Hit' & Hst & Hen & Hl' & Hkeep); [done|done|lia..|].
  simpl. rewrite Hpr, held_app in Hheld, Hsize. simpl in Hheld, Hsize.
  pose proof (held_nonneg p). pose proof (held_nonneg after).
  rewrite (u64_small (size_ s + keep)) by lia.
  destruct (erase_covered (e_end it') after (size_ s + keep)) as [after' size'] eqn:Ee.
  destruct (erase_covered_spec it' _ up _ _ _ _ Ee Hafter)
    as (lo2 & Hlo2 & Haf' & Hh' & Hsz' & Hc' & Hhd'); [lia..|].
  destruct (join_next_spec it' lo2 up after' size') as (rest' & size'' & -> & Hrest & Hsz'' & Hcov);
    [done|done|lia..|done|].
  simpl. do 2 eexists. split; [done|]. split; [|split].
  - apply Hput. apply (sorted_from_weaken (e_start it') _ up); [lia..|done].
  - rewrite held_app. lia.
  - intros i Hin. rewrite Hrange, Hpr, !covers_app, Hcov, Hc', !covers_cons by done.
    rewrite Hst, Hen. intuition lia.
Qed.

(** With a full output stream nothing is pending and nothing can be added; a substring
    that spans [next_] leaves an empty entry for [output] to remove. *)
Lemma assemble_full s data index :
  sr_core s -> 0 <= index < two64 ->
  zlen (ByteStream.contents (output_ s)) = capacity_ s -> next_ s + zlen data < two64 ->
  data_ s = [] /\ size_ s = 0 /\
  (assemble s data index = Ok s \/
   assemble s data index = Ok (set_data s [(next_ s, next_ s, [])] 0)).
Proof.
  intros [Hout Hcap Hn Hroom Hsort Hsize _ _ _] Hi Hfull Hup.
  pose proof (bs_bounds _ Hout) as [Hb1 Hb2].
  assert (Hdata : data_ s = []).
  { rewrite Hfull in Hsort. destruct (data_ s) as [|e l]; [done|].
    destruct Hsort as (? & ? & [? _ _] & _). lia. }
  rewrite Hdata in Hsize. split; [done|]. split; [done|].
  assert (Hu : upper s = next_ s).
  { unfold upper. rewrite bs_buffer_size, Hfull, Z.sub_diag by done. unwrap_ints. lia. }
  unfold assemble. rewrite Hu, Hdata. cbv zeta. simpl advance.
  destruct (_ || _) eqn:Eg; [by left|right].
  rewrite !orb_false_iff, Z.eqb_neq, !Z.leb_gt in Eg. destruct Eg as [[Hne Hend] Hidx].
  rewrite (u64_small (index + _)) in Hend by lia.
  replace (Z.max (next_ s) index) with (next_ s) by lia. rewrite Z.sub_diag.
  rewrite (u64_small (next_ s - index)), (u64_small (zlen data - _)), (u64_small 0) by lia.
  replace (Z.min _ 0) with 0 by lia.
  rewrite substr_slice, ztake_le0 by lia. simpl. unwrap_ints.
  by rewrite Z.add_0_r, Hsize.
Qed.

(** [output] moves the first entry to the stream when it starts at [next_]. *)
Lemma output_spec s data size :
  sr_core s ->
  sorted_from (next_ s) (next_ s + (capacity_ s - zlen (ByteStream.contents (output_ s)))) data ->
  size = held data ->
  exists s' d, output (set_data s data size) = Ok s' /\ sr_core s' /\
    capacity_ s' = capacity_ s /\ next_ s' = next_ s + zlen d /\
    eof_ s' = eof_ s /\ eof_num_ s' = eof_num_ s /\
    ByteStream.input_ended (output_ s') = ByteStream.input_ended (output_ s) /\
    ByteStream.error (output_ s') = ByteStream.error (output_ s) /\
    ByteStream.contents (output_ s') = ByteStream.contents (output_ s) ++ d /\
    (forall i, known s' i <-> i < next_ s \/ covers data i).
Proof.
  intros [Hout Hcap Hn Hroom Hsort Hsize Hw Hh Hb] Hs ->.
  pose proof (bs_bounds _ Hout) as [Hb1 Hb2].
  unfold output, known. simpl. destruct data as [|e l]; simpl.
  { eexists _, []. split; [done|]. simpl. rewrite app_nil_r, Z.add_0_r.
    split_and!; try done. }
  destruct Hs as (H1 & H2 & He & Hl). pose proof He as [Hne Hlen Hby].
  pose proof (held_nonneg l).
  destruct (Z.eqb_spec (next_ s) (e_start e)) as [Heq|Hneq]; simpl.
  2:{ eexists _, []. split; [done|]. simpl. rewrite app_nil_r, Z.add_0_r.
      split_and!; try done. split; simpl; try done. split_and!; done || lia. }
  destruct (bs_write_spec (output_ s) (e_str e) Hout) as
    (out & -> & Hout' & Hc & Hcap' & Hr & Hw' & Her & Hin).
  rewrite ztake_ge in Hc, Hw' by lia. simpl.
  rewrite (u64_small (zlen (e_str e) + held l - zlen (e_str e)))
    by (assert (0 <= zlen (e_str e) + held l <= next_ s + (capacity_ s - zlen (ByteStream.contents (output_ s))) - next_ s)
          by (apply (held_bound (next_ s) _ (e :: l)); [lia|simpl; split_and!; done || lia]); lia).
  eexists _, (e_str e). split; [done|]. simpl.
  split; [|split_and!; try done; try lia].
  - unfold ByteStream.bytes_written in *.
    split; simpl; rewrite ?Hc, ?zlen_app; try done; try lia.
    + eapply sorted_from_weaken; [| |exact Hl]; lia.
    + unfold ByteStream.bytes_written. rewrite Hw', Hw, u64_small; lia.
    + replace (e_end e - _) with (next_ s - zlen (ByteStream.contents (output_ s))) by lia.
      apply bytes_ok_app; [done|]. by replace (_ + zlen _) with (e_start e) by lia.
  - intros i. rewrite covers_cons. intuition lia.
Qed.

(** The core of the invariant does not depend on the end-of-stream marker. *)
Lemma sr_core_marker s num eof :
  sr_core s ->
  sr_core (mk (capacity_ s) (output_ s) (data_ s) (size_ s) (next_ s) num eof).
Proof. by intros []. Qed.

Lemma sr_core_end_input s num eof :
  sr_core s ->
  sr_core (mk (capacity_ s) (ByteStream.end_input (output_ s)) (data_ s) (size_ s) (next_ s)
              num eof).
Proof. intros []. split; simpl; try done. by apply bs_end_input_wf. Qed.

Lemma check_end_input_wf s index eof :
  sr_core s ->
  (eof_ s = true -> E (eof_num_ s)) ->
  (ByteStream.input_ended (output_ s) = true -> exists n, E n /\ n <= next_ s) ->
  (eof = true -> E index) ->
  sr_wf (check_end_input s index eof).
Proof.
  intros Hc He Hend Hidx. unfold check_end_input. destruct eof; simpl.
  - destruct (Z.eqb_spec index (next_ s)) as [->|Hne]; simpl.
    + split; simpl; auto using sr_core_end_input.
      intros _. exists (next_ s). split; [auto|lia].
    + split; simpl; auto using sr_core_marker.
  - destruct (eof_ s && (eof_num_ s =? next_ s)) eqn:Eb.
    + rewrite andb_true_iff, Z.eqb_eq in Eb. destruct Eb as [Eb1 Eb2].
      split; simpl; auto using sr_core_end_input.
      intros _. exists (eof_num_ s). split; [auto|lia].
    + rewrite andb_false_iff, Z.eqb_neq in Eb.
      split; try done. intros H1 H2. destruct Eb; congruence.
Qed.

(** Waiting and pending bytes fit in the capacity. *)
Lemma sr_capacity_bound s :
  sr_core s -> size_ s + zlen (ByteStream.contents (output_ s)) <= capacity_ s.
Proof.
  intros [Hout Hcap _ _ Hso Hsz _ _ _]. pose proof (bs_bounds _ Hout).
  destruct (decide (zlen (ByteStream.contents (output_ s)) = capacity_ s)) as [Hf|Hf].
  - rewrite Hf in Hso. destruct (data_ s) as [|e l]; [simpl in Hsz; lia|].
    destruct Hso as (? & ? & [? _ _] & _). lia.
  - apply held_bound in Hso; lia.
Qed.

(** *** The operations *)

Lemma check_end_input_fields s index eof :
  let s' := check_end_input s index eof in
  capacity_ s' = capacity_ s /\ data_ s' = data_ s /\ next_ s' = next_ s /\
  eof_ s' = (eof_ s || eof) /\ eof_num_ s' = (if eof then index else eof_num_ s) /\
  ByteStream.contents (output_ s') = ByteStream.contents (output_ s) /\
  ByteStream.error (output_ s') = ByteStream.error (output_ s) /\
  ByteStream.input_ended (output_ s') =
    (ByteStream.input_ended (output_ s) || (eof_ s' && (eof_num_ s' =? next_ s'))).
Proof.
  unfold check_end_input. cbv zeta. destruct eof; simpl.
  - rewrite orb_true_r. destruct (Z.eqb_spec index (next_ s)); simpl; split_and!; try done.
    + by destruct (Z.eqb_spec index (next_ s)); [rewrite orb_true_r|].
    + by destruct (Z.eqb_spec index (next_ s)); [|rewrite orb_false_r].
  - rewrite orb_false_r. destruct (eof_ s && _) eqn:Eb; simpl; split_and!; try done.
    + by rewrite Eb, orb_true_r.
    + by rewrite Eb, orb_false_r.
Qed.

Lemma sr_push_spec s data index eof :
  sr_wf s -> 0 <= index < two64 -> bytes_ok index data ->
  (eof = true -> E (u64 (index + zlen data))) ->
  let up := next_ s + (capacity_ s - zlen (ByteStream.contents (output_ s))) in
  up + zlen data < two64 ->
  exists s' d, push_substring s data index eof = Ok s' /\ sr_wf s' /\
    capacity_ s' = capacity_ s /\ next_ s' = next_ s + zlen d /\
    ByteStream.contents (output_ s') = ByteStream.contents (output_ s) ++ d /\
    ByteStream.error (output_ s') = ByteStream.error (output_ s) /\
    eof_ s' = (eof_ s || eof) /\
    eof_num_ s' = (if eof then u64 (index + zlen data) else eof_num_ s) /\
    ByteStream.input_ended (output_ s') =
      (ByteStream.input_ended (output_ s) || (eof_ s' && (eof_num_ s' =? next_ s'))) /\
    (forall i, known s' i <-> known s i \/ (index <= i < index + zlen data /\ i < up)).
Proof.
  intros [Hcore He Hend Hends] Hi Hd Heof up Hup.
  pose proof Hcore as [Hout Hcap Hn Hroom _ _ _ _ _].
  pose proof (bs_bounds _ Hout) as [Hb1 Hb2].
  assert (Hmid : exists s1 s2 d, assemble s data index = Ok s1 /\ output s1 = Ok s2 /\
    sr_core s2 /\ capacity_ s2 = capacity_ s /\ next_ s2 = next_ s + zlen d /\
    eof_ s2 = eof_ s /\ eof_num_ s2 = eof_num_ s /\
    ByteStream.input_ended (output_ s2) = ByteStream.input_ended (output_ s) /\
    ByteStream.error (output_ s2) = ByteStream.error (output_ s) /\
    ByteStream.contents (output_ s2) = ByteStream.contents (output_ s) ++ d /\
    (forall i, known s2 i <-> known s i \/ (index <= i < index + zlen data /\ i < up))).
  { destruct (Z.eq_dec (next_ s) up) as [Hfull|Hopen].
    - destruct (assemble_full s data index Hcore Hi) as (Hnil & Hsz & [-> | ->]); [lia..| |].
      + destruct (output_spec s [] 0 Hcore I eq_refl) as (s2 & d & Ho & H).
        exists s, s2, d.
        assert (Hself : set_data s [] 0 = s) by (rewrite <- Hnil, <- Hsz; by destruct s).
        rewrite Hself in Ho.
        destruct H as (?&?&?&?&?&?&?&?&Hk). split_and!; try done. intros i. rewrite Hk.
        unfold known. rewrite Hnil. intuition lia.
      + exists (set_data s [(next_ s, next_ s, [])] 0).
        destruct (bs_write_spec (output_ s) [] Hout) as
          (out & Hw & Hout' & Hc & Hcap' & Hr & Hw' & Her & Hin).
        exists (set_stream_out s out), []. split; [done|].
        unfold output; simpl. entry_simpl. rewrite Z.eqb_refl. simpl. rewrite Hw. simpl.
        rewrite ztake_ge in Hc, Hw' by (simpl; lia). rewrite app_nil_r in Hc.
        split. { unfold set_stream_out. by rewrite Hnil, Hsz. }
        split. { destruct Hcore. split; simpl; rewrite ?Hc; try done; [congruence|].
          unfold ByteStream.bytes_written in *. rewrite Hw'. simpl. unwrap_ints. lia. }
        rewrite app_nil_r. simpl. split_and!; try done; try lia.
        intros i. unfold known. simpl. intuition lia.
    - destruct (assemble_spec s data index Hcore Hi Hd) as (data' & size' & -> & Hso & Hsz & Hcov);
        [lia..|].
      destruct (output_spec s data' size' Hcore Hso Hsz) as (s2 & d & Ho & H).
      exists (set_data s data' size'), s2, d.
      destruct H as (?&?&?&?&?&?&?&?&Hk). split_and!; try done. intros i. rewrite Hk.
      unfold known. destruct (Z.lt_ge_cases i (next_ s)) as [?|Hin]; [tauto|].
      rewrite Hcov by done. tauto. }
  destruct Hmid as (s1 & s2 & d & Ha & Ho & Hc2 & Hcap2 & Hn2 & He2 & Hnum2 & Hie2 & Her2 & Hct2 & Hk2).
  unfold push_substring. rewrite Ha. simpl. rewrite Ho. simpl.
  pose proof (check_end_input_fields s2 (u64 (index + zlen data)) eof) as
    (F1 & F2 & F3 & F4 & F5 & F6 & F7 & F8).
  eexists _, d. split; [done|]. split.
  { apply check_end_input_wf; [done|by rewrite He2, Hnum2| |done].
    rewrite Hie2. intros [n [? ?]]%Hend. exists n. split; [done|]. lia. }
  rewrite F8, F4, F5, F3, F1, F6, F7, He2, Hnum2, Hie2.
  split_and!; try done. intros i. unfold known in *. rewrite F2, F3. apply Hk2.
Qed.

Lemma sr_make_spec k :
  0 < k <= string_max_size ->
  exists s, make k = Ok s /\ sr_wf s /\ capacity_ s = k /\ next_ s = 0 /\ data_ s = [] /\
    ByteStream.contents (output_ s) = [] /\ ByteStream.input_ended (output_ s) = false /\
    ByteStream.error (output_ s) = false /\ eof_ s = false.
Proof.
  intros Hk. unfold make.
  destruct (bs_make_spec k Hk) as (out & -> & Hwf & Hc & Hcap & Hr & Hw & He & Hi). simpl.
  eexists. split; [done|]. simpl. split_and!; try done.
  unfold string_max_size in Hk.
  split; simpl; try done; [|by rewrite Hi].
  split; simpl; rewrite ?Hc; simpl; try done; try lia.
  intros j c Hj%zget_Some_range. simpl in Hj. lia.
Qed.

(** Reading from the stream leaves the reassembler well formed. *)
Lemma sr_pop_spec s n :
  sr_wf s -> 0 <= n <= zlen (ByteStream.contents (output_ s)) ->
  next_ s + capacity_ s < two64 ->
  exists out, ByteStream.pop_output (output_ s) n = Ok out /\ sr_wf (set_stream_out s out) /\
    ByteStream.contents out = zdrop n (ByteStream.contents (output_ s)).
Proof.
  intros [[Hout Hcap Hn Hroom Hsort Hsize Hw Hh Hb] He Hend Hends] Hpop Hbig.
  destruct (bs_pop_spec (output_ s) n Hout Hpop) as
    (out & -> & Hout' & Hc & Hcap' & Hr & Hw' & Her & Hin).
  exists out. split; [done|]. split; [|done].
  assert (Hl : zlen (ByteStream.contents out) = zlen (ByteStream.contents (output_ s)) - n)
    by (rewrite Hc, zlen_zdrop; lia).
  pose proof (bs_bounds _ Hout) as [? ?].
  split; simpl; rewrite ?Hin; try done.
  split; simpl; rewrite ?Hl; try done; try lia.
  - eapply sorted_from_weaken; [| |exact Hsort]; lia.
  - unfold ByteStream.bytes_written in *. congruence.
  - rewrite Hc. replace (next_ s - (zlen (ByteStream.contents (output_ s)) - n))
      with (next_ s - zlen (ByteStream.contents (output_ s)) + n) by lia.
    by apply bytes_ok_zdrop.
Qed.

End reassembler_inv.

(** ** Reassembling a reference stream *)

(** The invariant is monotone in the admissible bytes; before any end is announced the
    admissible ends do not matter. *)
Section reassembler_mono.

Import StreamReassembler.

Variables P Q : Z -> byte -> Prop.
Hypothesis HPQ : forall i c, P i c -> Q i c.

Lemma sorted_from_mono lo hi l : sorted_from P lo hi l -> sorted_from Q lo hi l.
Proof.
  revert lo. induction l as [|e l IH]; intros lo; simpl; [done|].
  intros (Hlo & Hhi & [? ? Hb] & Hl). split_and!; try done; [|by apply IH].
  split; try done. intros k c Hk. by apply HPQ, Hb.
Qed.

Lemma sr_wf_mono E F s :
  eof_ s = false -> ByteStream.input_ended (output_ s) = false ->
  sr_wf P E s -> sr_wf Q F s.
Proof.
  intros He Hi [[? ? ? ? Hso ? ? ? Hb] _ _ Hends].
  split; [|by rewrite He|by rewrite Hi|done].
  split; try done; [by apply sorted_from_mono|]. intros k c Hk. by apply HPQ, Hb.
Qed.

End reassembler_mono.

Section reference_stream.

Import StreamReassembler.

(** The bytes the peer sends. *)
Variable S : list byte.

Definition from_stream (i : Z) (c : byte) : Prop := zget S i = Some c.
Definition at_end (n : Z) : Prop := n = zlen S.

(** [data] is the part of the stream that starts at [index]; the end marker is only
    given with the last part. *)
Definition substring_of (data : list byte) (index : Z) (eof : bool) : Prop :=
  0 <= index /\ index + zlen data <= zlen S /\
  ztake (zlen data) (zdrop index S) = data /\ (eof = true -> index + zlen data = zlen S).

(** A well-formed reassembler that has only seen parts of the stream. *)
Record tracks (s : t) : Prop := {
  tracks_wf : sr_wf from_stream at_end s;
  tracks_next : next_ s <= zlen S;
  tracks_fits : zlen S + capacity_ s + zlen S < two64
}.

Lemma substring_bytes data index eof :
  substring_of data index eof -> bytes_ok from_stream index data.
Proof.
  intros (H0 & H1 & Hd & _) k c Hk. unfold from_stream.
  pose proof (zget_Some_range _ _ _ Hk). rewrite <- Hd, zget_ztake, zget_zdrop in Hk by lia.
  revert Hk. by ztests.
Qed.

(** What the output stream holds is the stream's text before [next_]. *)
Lemma tracks_contents s :
  tracks s ->
  ByteStream.contents (output_ s) =
    ztake (zlen (ByteStream.contents (output_ s)))
      (zdrop (next_ s - zlen (ByteStream.contents (output_ s))) S).
Proof.
  intros [[[_ _ _ _ _ _ _ Hh Hb] _ _ _] Hn _].
  set (c := ByteStream.contents (output_ s)) in *.
  assert (Hlen : zlen (ztake (zlen c) (zdrop (next_ s - zlen c) S)) = zlen c)
    by (rewrite zlen_ztake, zlen_zdrop; lia).
  apply zget_ext; [done|]. intros i Hi.
  destruct (zget_is_Some c i Hi) as [x Hx]. rewrite Hx.
  rewrite zget_ztake, zget_zdrop by lia. ztests. symmetry. by apply Hb.
Qed.

(** Everything written so far, had nobody read it, is a prefix of the stream. *)
Lemma tracks_prefix s :
  tracks s ->
  ztake (next_ s - zlen (ByteStream.contents (output_ s))) S ++ ByteStream.contents (output_ s)
  = ztake (next_ s) S.
Proof.
  intros Ht. rewrite (tracks_contents s Ht) at 2.
  destruct Ht as [[[_ _ _ _ _ _ _ Hh Hb] _ _ _] Hn _].
  set (m := zlen (ByteStream.contents (output_ s))) in *.
  apply zget_ext; [rewrite zlen_app, !zlen_ztake, zlen_zdrop; lia|]. intros i Hi.
  rewrite zget_app, !zget_ztake, zlen_ztake.
  rewrite zlen_app, !zlen_ztake, zlen_zdrop in Hi.
  ztests; try done; rewrite zget_zdrop by lia; f_equal; lia.
Qed.

Lemma tracks_push s data index eof :
  tracks s -> substring_of data index eof ->
  exists s', push_substring s data index eof = Ok s' /\ tracks s' /\
    capacity_ s' = capacity_ s /\
    (exists d, ByteStream.contents (output_ s') = ByteStream.contents (output_ s) ++ d /\
               next_ s' = next_ s + zlen d) /\
    (ByteStream.input_ended (output_ s') = true <->
       ByteStream.input_ended (output_ s) = true \/
       ((eof_ s = true \/ eof = true) /\ next_ s' = zlen S)) /\
    (forall i, known s' i <-> known s i \/
       (index <= i < index + zlen data /\
        i < next_ s + (capacity_ s - zlen (ByteStream.contents (output_ s))))).
Proof.
  intros Ht Hsub. pose proof Ht as [Hwf Hn Hf].
  pose proof Hwf as [[Hout Hcap _ _ _ _ _ _ _] He _ _]. pose proof (bs_bounds _ Hout).
  pose proof (substring_bytes _ _ _ Hsub) as Hd. pose proof Hsub as (Hi & Hl & Hdata & Heof).
  assert (Hu : u64 (index + zlen data) = index + zlen data) by (apply u64_small; lia).
  destruct (sr_push_spec from_stream at_end s data index eof Hwf) as
    (s' & d & Hp & Hwf' & Hcap' & Hn' & Hc' & _ & He' & Hnum' & Hend' & Hk');
    [lia|done|unfold at_end; rewrite Hu; done|lia|].
  exists s'. split; [done|].
  assert (Hn2 : next_ s' <= zlen S).
  { destruct (decide (zlen d = 0)) as [Hz|Hz]; [lia|].
    destruct Hwf' as [[_ _ _ _ _ _ _ _ Hb] _ _ _].
    destruct (zget_is_Some (ByteStream.contents (output_ s'))
      (zlen (ByteStream.contents (output_ s')) - 1)) as [x Hx].
    { rewrite Hc', zlen_app. lia. }
    apply Hb, zget_Some_range in Hx. lia. }
  split; [split; [done|done|lia]|]. split; [done|]. split; [eauto|]. split; [|done].
  rewrite Hend', orb_true_iff, andb_true_iff, Z.eqb_eq, He', orb_true_iff, Hnum', Hu.
  split; (intros [?|[[?|?] Heq]]; [by left|right..]); (split; [tauto|]).
  - specialize (He ltac:(done)). unfold at_end in He. destruct eof; [specialize (Heof eq_refl)|]; lia.
  - destruct eof; [specialize (Heof eq_refl)|]; (done || lia).
  - specialize (He ltac:(done)). unfold at_end in He. destruct eof; [specialize (Heof eq_refl)|]; lia.
  - destruct eof; [specialize (Heof eq_refl)|]; (done || lia).
Qed.

End reference_stream.

(** ** Properties *)

(** C7. One push, in full: given a reassembler that has only seen parts of a stream [S]
    and another part of it, [push_substring] succeeds, keeps the invariant (pending
    entries sorted, separated by gaps, inside the window, byte counts exact), writes a
    prefix of [S], and afterwards knows exactly the indices it knew before plus those of
    the new part below the end of the window; [next_] is the first unknown index, so
    every byte that can be delivered has been, and the input ends exactly when the last
    byte is out. *)
Theorem reassembler_push_correct S s data index eof :
  tracks S s -> substring_of S data index eof ->
  exists s', StreamReassembler.push_substring s data index eof = Ok s' /\ tracks S s' /\
    (exists d, ByteStream.contents (StreamReassembler.stream_out s')
                 = ByteStream.contents (StreamReassembler.stream_out s) ++ d /\
               StreamReassembler.next_ s' = StreamReassembler.next_ s + zlen d) /\
    ztake (StreamReassembler.next_ s' - ByteStream.buffer_size (StreamReassembler.stream_out s')) S
      ++ ByteStream.contents (StreamReassembler.stream_out s')
      = ztake (StreamReassembler.next_ s') S /\
    (forall i, StreamReassembler.known s' i <->
       StreamReassembler.known s i \/
       (index <= i < index + zlen data /\
        i < StreamReassembler.next_ s +
            (StreamReassembler.capacity_ s -
             ByteStream.buffer_size (StreamReassembler.stream_out s)))) /\
    ~ StreamReassembler.known s' (StreamReassembler.next_ s') /\
    (ByteStream.input_ended (StreamReassembler.stream_out s') = true <->
       ByteStream.input_ended (StreamReassembler.stream_out s) = true \/
       ((StreamReassembler.eof_ s = true \/ eof = true) /\
        StreamReassembler.next_ s' = zlen S)).
Proof.
  intros Ht Hsub. unfold StreamReassembler.stream_out.
  destruct (tracks_push S s data index eof Ht Hsub) as (s' & Hp & Ht' & Hcap & Hd & Hend & Hk).
  exists s'.
  assert (Hout : ByteStream.wf (StreamReassembler.output_ s)) by apply Ht.
  assert (Hout' : ByteStream.wf (StreamReassembler.output_ s')) by apply Ht'.
  rewrite !bs_buffer_size by done. split_and!; try done.
  - by apply tracks_prefix.
  - destruct Ht' as [[[_ _ _ _ Hso _ _ _ _] _ _ _] _ _].
    intros [?|Hc]; [lia|]. pose proof (sorted_covers _ _ _ _ _ Hso Hc). lia.
Qed.

(** A reassembler of capacity 8 for the stream "hello", freshly made. *)
Definition hello : list byte := [Byte.x68; Byte.x65; Byte.x6c; Byte.x6c; Byte.x6f].

Definition fresh_reassembler (k : Z) : StreamReassembler.t :=
  match StreamReassembler.make k with
  | Ok s => s
  | _ => StreamReassembler.mk 0 wrapped_stream [] 0 0 0 false
  end.

Lemma fresh_tracks S k :
  0 < k <= string_max_size -> zlen S + k + zlen S < two64 -> tracks S (fresh_reassembler k).
Proof.
  intros Hk Hf. unfold fresh_reassembler.
  destruct (sr_make_spec (from_stream S) (at_end S) k Hk) as (s & -> & Hwf & Hcap & Hn & _).
  split; [done|lia|lia].
Qed.

Lemma reassembler_push_correct_witness :
  exists s', StreamReassembler.push_substring (fresh_reassembler 8) [Byte.x6c; Byte.x6f] 3 true = Ok s' /\
    tracks hello s' /\ StreamReassembler.unassembled_bytes s' = 2.
Proof.
  destruct (reassembler_push_correct hello (fresh_reassembler 8) [Byte.x6c; Byte.x6f] 3 true)
    as (s' & Hp & Ht & _).
  - apply fresh_tracks; unfold string_max_size; simpl; lia.
  - unfold substring_of. simpl. split_and!; done || lia.
  - exists s'. split; [exact Hp|]. split; [exact Ht|].
    vm_compute in Hp. injection Hp as <-. reflexivity.
Defined.

(** *** Traces of pushes and reads *)

Inductive reassembler_op :=
  | RPush (data : list byte) (index : Z) (eof : bool)
  | RRead (len : Z).

Definition reassembler_step (s : StreamReassembler.t) (op : reassembler_op)
  : outcome (StreamReassembler.t * list byte) :=
  match op with
  | RPush data index eof =>
      s' ← StreamReassembler.push_substring s data index eof; Ok (s', [])
  | RRead len =>
      let out := StreamReassembler.stream_out s in
      '(out', d) ← ByteStream.read out (Z.min (Z.max 0 len) (ByteStream.buffer_size out));
      Ok (StreamReassembler.set_stream_out s out', d)
  end.

Fixpoint reassembler_run (s : StreamReassembler.t) (ops : list reassembler_op)
  : outcome (StreamReassembler.t * list byte) :=
  match ops with
  | [] => Ok (s, [])
  | op :: ops' =>
      '(s1, d1) ← reassembler_step s op;
      '(s2, d2) ← reassembler_run s1 ops';
      Ok (s2, d1 ++ d2)
  end.

Definition valid_op (S : list byte) (op : reassembler_op) : Prop :=
  match op with RPush data index eof => substring_of S data index eof | RRead _ => True end.

Lemma reassembler_step_spec S s op :
  tracks S s -> valid_op S op ->
  exists s' d, reassembler_step s op = Ok (s', d) /\ tracks S s' /\
    StreamReassembler.capacity_ s' = StreamReassembler.capacity_ s /\
    ztake (StreamReassembler.next_ s - zlen (ByteStream.contents (StreamReassembler.output_ s))) S ++ d
    = ztake (StreamReassembler.next_ s' - zlen (ByteStream.contents (StreamReassembler.output_ s'))) S.
Proof.
  intros Ht Hv. pose proof Ht as [Hwf Hn Hf].
  pose proof Hwf as [[Hout _ _ _ _ _ _ Hh _] _ _ _].
  destruct op as [data index eof|len]; simpl.
  - destruct (tracks_push S s data index eof Ht Hv) as (s' & -> & Ht' & Hcap & (d & Hc & Hn') & _).
    exists s', []. split; [done|]. split; [done|]. split; [done|].
    rewrite app_nil_r, Hc, Hn', zlen_app. f_equal. lia.
  - unfold StreamReassembler.stream_out. rewrite bs_buffer_size by done.
    set (n := Z.min (Z.max 0 len) (zlen (ByteStream.contents (StreamReassembler.output_ s)))).
    destruct (sr_pop_spec (from_stream S) (at_end S) s n Hwf) as (out' & Hp & Hwf' & Hc);
      [lia|lia|].
    unfold ByteStream.read. rewrite bs_peek_spec by (done || lia). simpl. 
    rewrite Hp. simpl. do 2 eexists. split; [done|]. simpl. split; [done|]. split; [done|].
    rewrite Hc. rewrite (tracks_contents S s Ht) at 2.
    assert (Hd : zlen (zdrop n (ByteStream.contents (StreamReassembler.output_ s))) = zlen (ByteStream.contents (StreamReassembler.output_ s)) - n)
      by (rewrite zlen_zdrop; lia).
    rewrite Hd, ztake_ztake. set (m := zlen (ByteStream.contents (StreamReassembler.output_ s))) in *.
    apply zget_ext; [rewrite zlen_app, !zlen_ztake, zlen_zdrop; lia|]. intros i Hi.
    rewrite zlen_app, !zlen_ztake, zlen_zdrop in Hi.
    rewrite zget_app, !zget_ztake, zlen_ztake. ztests; try done; rewrite zget_zdrop by lia; f_equal; lia.
Qed.

Lemma reassembler_run_spec S s ops :
  tracks S s -> Forall (valid_op S) ops ->
  exists s' d, reassembler_run s ops = Ok (s', d) /\ tracks S s' /\
    StreamReassembler.capacity_ s' = StreamReassembler.capacity_ s /\
    ztake (StreamReassembler.next_ s - zlen (ByteStream.contents (StreamReassembler.output_ s))) S ++ d
    = ztake (StreamReassembler.next_ s' - zlen (ByteStream.contents (StreamReassembler.output_ s'))) S.
Proof.
  intros Ht Hops. revert s Ht. induction Hops as [|op ops Hop _ IH]; intros s Ht; simpl.
  { exists s, []. rewrite app_nil_r. done. }
  destruct (reassembler_step_spec S s op Ht Hop) as (s1 & d1 & -> & Ht1 & Hc1 & Hd1). simpl.
  destruct (IH s1 Ht1) as (s2 & d2 & -> & Ht2 & Hc2 & Hd2). simpl.
  do 2 eexists. split; [done|]. split; [done|]. split; [congruence|].
  by rewrite app_assoc, Hd1.
Qed.

(** C8. Whole runs: whatever parts of a stream arrive, in any order, repeated or
    overlapping, interleaved with reads of any size, a fresh reassembler never fails;
    the bytes handed to the reader followed by those waiting for it are a prefix of the
    stream, pending and waiting bytes together never exceed the capacity, and the
    output only ends when the whole stream is out. *)
Theorem reassembler_run_correct S k ops :
  0 < k <= string_max_size -> zlen S + k + zlen S < two64 -> Forall (valid_op S) ops ->
  exists s0 s d, StreamReassembler.make k = Ok s0 /\ reassembler_run s0 ops = Ok (s, d) /\
    d ++ ByteStream.contents (StreamReassembler.stream_out s)
      = ztake (StreamReassembler.next_ s) S /\
    StreamReassembler.unassembled_bytes s
      + ByteStream.buffer_size (StreamReassembler.stream_out s) <= k /\
    (ByteStream.input_ended (StreamReassembler.stream_out s) = true ->
       StreamReassembler.next_ s = zlen S).
Proof.
  intros Hk Hf Hops.
  destruct (sr_make_spec (from_stream S) (at_end S) k Hk)
    as (s0 & Hs0 & Hwf & Hcap & Hn & _ & Hc & _).
  destruct (reassembler_run_spec S s0 ops) as (s & d & Hrun & Ht & Hcap' & Hd);
    [split; [done|lia|lia]|done|].
  exists s0, s, d. split; [done|]. split; [done|].
  rewrite Hc, Hn in Hd. simpl in Hd. rewrite ztake_le0 in Hd by lia. simpl in Hd.
  unfold StreamReassembler.stream_out, StreamReassembler.unassembled_bytes.
  pose proof (tracks_prefix S s Ht) as Hpre. rewrite <- Hd in Hpre.
  destruct Ht as [[Hcore _ Hend _] Hle _].
  pose proof (sr_capacity_bound _ _ Hcore). destruct Hcore as [Hout _ _ _ _ _ _ _ _].
  rewrite bs_buffer_size by done. split_and!.
  - done.
  - lia.
  - intros [n [Hn1 Hn2]]%Hend. unfold at_end in Hn1. lia.
Qed.

Lemma reassembler_run_correct_witness :
  exists s0 s d, StreamReassembler.make 4 = Ok s0 /\
    reassembler_run s0 [RPush [Byte.x6c; Byte.x6f] 3 true; RPush [Byte.x68; Byte.x65; Byte.x6c] 0 false;
                        RRead 2; RPush [Byte.x6c; Byte.x6c; Byte.x6f] 2 true] = Ok (s, d) /\
    d ++ ByteStream.contents (StreamReassembler.stream_out s)
      = ztake (StreamReassembler.next_ s) hello /\
    StreamReassembler.unassembled_bytes s
      + ByteStream.buffer_size (StreamReassembler.stream_out s) <= 4 /\
    (ByteStream.input_ended (StreamReassembler.stream_out s) = true ->
       StreamReassembler.next_ s = zlen hello).
Proof.
  apply reassembler_run_correct; [unfold string_max_size; lia | simpl; lia |].
  repeat constructor; unfold substring_of; simpl; split_and?; done || lia.
Defined.
