(* ===== verification/Buffers.v ===== *)
(** * Buffers.v: byte strings that shed bytes from the front

    Models [libsponge/util/buffer.hh] and [libsponge/util/buffer.cc]: [Buffer] (a shared
    immutable string with a starting offset), [BufferList] (a deque of buffers, so
    headers can be prepended without copying) and [BufferViewList] (non-owning views).
    The shared storage is never written, so sharing it is not observable and a buffer is
    modelled by the string its [shared_ptr] points to. *)

From S2P Require Import Prelude.

(** ** The interface

    All three classes promise the same thing to their clients: a byte string, its
    size, and [remove_prefix], which drops bytes from the front or throws. *)

Class Sheddable (T : Type) := {
  shed_wf : T -> Prop;
  shed_bytes : T -> list byte;
  shed_size : T -> Z;
  shed_remove : T -> Z -> outcome T;
  shed_size_spec : forall x, shed_wf x -> shed_size x = zlen (shed_bytes x);
  shed_remove_ok : forall x n, shed_wf x -> 0 <= n <= zlen (shed_bytes x) ->
    exists y, shed_remove x n = Ok y /\ shed_wf y /\ shed_bytes y = zdrop n (shed_bytes x);
  shed_remove_throws : forall x n, shed_wf x -> zlen (shed_bytes x) < n < two64 ->
    exists e, shed_remove x n = Throw (out_of_range e)
}.

(** ** Buffer *)

Module Buffer.

Record t := mk {
  _storage : option (list byte);
  _starting_offset : Z
}.

(** The default constructor, and the one that takes a string over. *)
Definition empty : t := mk None 0.
Definition of_string (s : list byte) : t := mk (Some s) 0.

Definition str (b : t) : list byte :=
  match _storage b with
  | None => []
  | Some s => ztake (u64 (zlen s - _starting_offset b)) (zdrop (_starting_offset b) s)
  end.

Definition at_ (b : t) (n : Z) : outcome Z :=
  match zget (str b) n with
  | Some c => Ok (Z_of_byte c)
  | None => Throw (out_of_range "basic_string_view::at")
  end.

Definition size (b : t) : Z := zlen (str b).

Definition copy (b : t) : list byte := str b.

Definition remove_prefix (b : t) (n : Z) : outcome t :=
  if zlen (str b) <? n then Throw (out_of_range "Buffer::remove_prefix")
  else
    let off := u64 (_starting_offset b + n) in
    match _storage b with
    | Some s => if off =? zlen s then Ok (mk None off) else Ok (mk (Some s) off)
    | None => Ok (mk None off)
    end.

(** The offset lies inside the storage, whose length a [size_t] can hold. *)
Definition wf (b : t) : Prop :=
  match _storage b with
  | None => True
  | Some s => 0 <= _starting_offset b <= zlen s /\ zlen s < two64
  end.

End Buffer.

Lemma buffer_str_some s off :
  0 <= off <= zlen s /\ zlen s < two64 -> Buffer.str (Buffer.mk (Some s) off) = zdrop off s.
Proof.
  intros. unfold Buffer.str; simpl. rewrite ztake_ge; [done|].
  rewrite zlen_zdrop, u64_small; lia.
Qed.

Lemma buffer_of_string_str s : zlen s < two64 -> Buffer.str (Buffer.of_string s) = s.
Proof. intros. unfold Buffer.of_string. rewrite buffer_str_some by lia. by apply zdrop_le0. Qed.

Lemma buffer_of_string_wf s : zlen s < two64 -> Buffer.wf (Buffer.of_string s).
Proof. intros. unfold Buffer.wf. simpl. lia. Qed.

Lemma buffer_remove_ok b n :
  Buffer.wf b -> 0 <= n <= zlen (Buffer.str b) ->
  exists b', Buffer.remove_prefix b n = Ok b' /\ Buffer.wf b' /\
    Buffer.str b' = zdrop n (Buffer.str b).
Proof.
  destruct b as [[s|] off]; unfold Buffer.wf; simpl; intros Hwf Hn.
  - rewrite buffer_str_some in Hn by done. pose proof Hn as Hn'. rewrite zlen_zdrop in Hn'.
    unfold Buffer.remove_prefix. rewrite !buffer_str_some by done.
    destruct (Z.ltb_spec (zlen (zdrop off s)) n); [lia|]. simpl.
    rewrite (u64_small (off + n)) by lia. rewrite zdrop_zdrop by lia.
    destruct (Z.eqb_spec (off + n) (zlen s)).
    + eexists. split; [done|]. split; [done|]. unfold Buffer.str; simpl.
      rewrite zdrop_ge by lia. done.
    + eexists. split; [done|]. split; [simpl; lia|]. rewrite buffer_str_some by lia. f_equal. lia.
  - unfold Buffer.str in Hn; simpl in Hn. unfold Buffer.remove_prefix, Buffer.str; simpl.
    replace n with 0 by lia. simpl. eauto.
Qed.

#[export] Program Instance buffer_sheddable : Sheddable Buffer.t := {|
  shed_wf := Buffer.wf;
  shed_bytes := Buffer.str;
  shed_size := Buffer.size;
  shed_remove := Buffer.remove_prefix
|}.
Next Obligation. done. Qed.
Next Obligation. exact buffer_remove_ok. Qed.
Next Obligation.
  intros b n _ Hn. unfold Buffer.remove_prefix. ztests. eauto.
Qed.

(** ** BufferList *)

Module BufferList.

(** [std::deque<Buffer> _buffers]. *)
Definition t : Type := list Buffer.t.

Definition of_buffer (b : Buffer.t) : t := [b].

(** [append(other)]: copies the other list's buffers to the end. *)
Definition append (l other : t) : t := l ++ other.

Definition of_string (s : list byte) : t := append [] (of_buffer (Buffer.of_string s)).

Definition buffers (l : t) : list Buffer.t := l.

(** [operator Buffer()]: only a list of at most one buffer is contiguous. *)
Definition to_buffer (l : t) : outcome Buffer.t :=
  match l with
  | [] => Ok Buffer.empty
  | [b] => Ok b
  | _ => Throw (runtime_error "BufferList: please use concatenate() to combine a multi-Buffer BufferList into one Buffer")
  end.

Definition concatenate (l : t) : list byte :=
  fold_left (fun ret b => ret ++ Buffer.str b) l [].

Definition size (l : t) : Z := fold_left (fun ret b => u64 (ret + Buffer.size b)) l 0.

Fixpoint remove_prefix (l : t) (n : Z) : outcome t :=
  if 0 <? n then
    match l with
    | [] => Throw (out_of_range "BufferList::remove_prefix")
    | b :: l' =>
        if n <? zlen (Buffer.str b) then b' ← Buffer.remove_prefix b n; Ok (b' :: l')
        else remove_prefix l' (u64 (n - zlen (Buffer.str b)))
    end
  else Ok l.

Definition wf (l : t) : Prop :=
  Forall Buffer.wf l /\ zlen (concatenate l) < two64.

End BufferList.

(** Concatenation of the parts, as a right fold. *)
Definition all_bytes (l : list (list byte)) : list byte := concat l.

Lemma bufferlist_concat_acc l acc :
  fold_left (fun ret b => ret ++ Buffer.str b) l acc = acc ++ all_bytes (Buffer.str <$> l).
Proof.
  revert acc. induction l as [|b l IH]; intros acc; simpl; [by rewrite app_nil_r|].
  by rewrite IH, <- app_assoc.
Qed.

Lemma bufferlist_concatenate l : BufferList.concatenate l = all_bytes (Buffer.str <$> l).
Proof. apply bufferlist_concat_acc. Qed.

Lemma bufferlist_concatenate_cons b l :
  BufferList.concatenate (b :: l) = Buffer.str b ++ BufferList.concatenate l.
Proof. by rewrite !bufferlist_concatenate. Qed.

Lemma bufferlist_concatenate_app l k :
  BufferList.concatenate (BufferList.append l k) =
  BufferList.concatenate l ++ BufferList.concatenate k.
Proof.
  rewrite !bufferlist_concatenate. unfold BufferList.append, all_bytes.
  by rewrite fmap_app, concat_app.
Qed.

Lemma bufferlist_of_string s :
  zlen s < two64 -> BufferList.concatenate (BufferList.of_string s) = s.
Proof.
  intros. rewrite bufferlist_concatenate. unfold all_bytes. simpl.
  by rewrite buffer_of_string_str, app_nil_r.
Qed.

Lemma bufferlist_size_acc l acc :
  0 <= acc -> acc + zlen (BufferList.concatenate l) < two64 ->
  fold_left (fun ret b => u64 (ret + Buffer.size b)) l acc = acc + zlen (BufferList.concatenate l).
Proof.
  revert acc. induction l as [|b l IH]; intros acc Ha; [simpl; lia|].
  rewrite bufferlist_concatenate_cons, zlen_app. intros Hb. simpl. unfold Buffer.size at 2.
  rewrite u64_small by lia. rewrite IH by lia. lia.
Qed.

Lemma bufferlist_size l :
  zlen (BufferList.concatenate l) < two64 -> BufferList.size l = zlen (BufferList.concatenate l).
Proof. intros. unfold BufferList.size. rewrite bufferlist_size_acc; lia. Qed.

Lemma bufferlist_wf_cons b l :
  BufferList.wf (b :: l) -> Buffer.wf b /\ BufferList.wf l.
Proof.
  intros [Hf Hl]. inversion Hf; subst. rewrite bufferlist_concatenate_cons, zlen_app in Hl.
  split; [done|]. split; [done|lia].
Qed.

Lemma bufferlist_remove_ok l n :
  BufferList.wf l -> 0 <= n <= zlen (BufferList.concatenate l) ->
  exists l', BufferList.remove_prefix l n = Ok l' /\ BufferList.wf l' /\
    BufferList.concatenate l' = zdrop n (BufferList.concatenate l).
Proof.
  revert n. induction l as [|b l IH]; intros n Hwf Hn.
  { simpl in *. replace n with 0 by lia. simpl. eauto. }
  pose proof (bufferlist_wf_cons _ _ Hwf) as [Hb Hl].
  rewrite bufferlist_concatenate_cons in *. pose proof Hn as Hn'. rewrite zlen_app in Hn'.
  simpl. destruct (Z.ltb_spec 0 n).
  - destruct (Z.ltb_spec n (zlen (Buffer.str b))) as [Hlt|Hge].
    + destruct (buffer_remove_ok b n Hb) as (b' & -> & Hb' & Hs); [lia|]. simpl.
      eexists. split; [done|]. rewrite bufferlist_concatenate_cons, Hs, zdrop_app.
      rewrite (zdrop_le0 (n - _)) by lia. split; [|done].
      destruct Hl as [Hl1 Hl2]. destruct Hwf as [_ Hwf].
      rewrite bufferlist_concatenate_cons, zlen_app in Hwf.
      split; [by constructor|].
      rewrite bufferlist_concatenate_cons, Hs, zlen_app, zlen_zdrop. lia.
    + destruct Hwf as [_ Hwf]. rewrite bufferlist_concatenate_cons, zlen_app in Hwf.
      rewrite u64_small by lia.
      destruct (IH (n - zlen (Buffer.str b)) Hl) as (l' & -> & Hl' & Hs); [lia|].
      eexists. split; [done|]. split; [done|].
      by rewrite Hs, zdrop_app, (zdrop_ge n) by lia.
  - replace n with 0 by lia. eexists. split; [done|]. split; [done|].
    by rewrite bufferlist_concatenate_cons, zdrop_le0 by lia.
Qed.

Lemma bufferlist_remove_throws l n :
  BufferList.wf l -> zlen (BufferList.concatenate l) < n < two64 ->
  exists e, BufferList.remove_prefix l n = Throw (out_of_range e).
Proof.
  revert n. induction l as [|b l IH]; intros n Hwf Hn; simpl.
  { simpl in Hn. ztests. eauto. }
  pose proof (bufferlist_wf_cons _ _ Hwf) as [Hb Hl].
  rewrite bufferlist_concatenate_cons, zlen_app in Hn. ztests.
  rewrite u64_small by lia. apply IH; [done|lia].
Qed.

#[export] Program Instance bufferlist_sheddable : Sheddable BufferList.t := {|
  shed_wf := BufferList.wf;
  shed_bytes := BufferList.concatenate;
  shed_size := BufferList.size;
  shed_remove := BufferList.remove_prefix
|}.
Next Obligation. intros l [_ ?]. by apply bufferlist_size. Qed.
Next Obligation. exact bufferlist_remove_ok. Qed.
Next Obligation. exact bufferlist_remove_throws. Qed.

(** ** BufferViewList *)

Module BufferViewList.

(** [std::deque<std::string_view> _views]. *)
Definition t : Type := list (list byte).

Definition of_string (s : list byte) : t := [s].
Definition of_bufferlist (l : BufferList.t) : t :=
  fold_left (fun views x => views ++ [Buffer.str x]) (BufferList.buffers l) [].

Fixpoint remove_prefix (l : t) (n : Z) : outcome t :=
  if 0 <? n then
    match l with
    | [] => Throw (out_of_range "BufferListView::remove_prefix")
    | v :: l' =>
        if n <? zlen v then Ok (zdrop n v :: l')
        else remove_prefix l' (u64 (n - zlen v))
    end
  else Ok l.

Definition size (l : t) : Z := fold_left (fun ret v => u64 (ret + zlen v)) l 0.

(** [as_iovecs()]: one base/length pair per view. *)
Definition as_iovecs (l : t) : list (list byte * Z) :=
  fold_left (fun ret x => ret ++ [(x, zlen x)]) l [].

Definition wf (l : t) : Prop := zlen (all_bytes l) < two64.

End BufferViewList.

Lemma viewlist_size_acc l acc :
  0 <= acc -> acc + zlen (all_bytes l) < two64 ->
  fold_left (fun ret v => u64 (ret + zlen v)) l acc = acc + zlen (all_bytes l).
Proof.
  unfold all_bytes. revert acc. induction l as [|v l IH]; intros acc Ha; [simpl; lia|].
  simpl. rewrite zlen_app. intros Hb. rewrite u64_small by lia. rewrite IH by lia. lia.
Qed.

Lemma viewlist_remove_bytes l n : 0 <= n <= zlen (all_bytes l) -> n < two64 ->
  exists l', BufferViewList.remove_prefix l n = Ok l' /\ all_bytes l' = zdrop n (all_bytes l).
Proof.
  unfold all_bytes. revert n. induction l as [|v l IH]; intros n Hn H64.
  { simpl in *. replace n with 0 by lia. simpl. eauto. }
  simpl in *. rewrite zlen_app in *. destruct (Z.ltb_spec 0 n).
  - destruct (Z.ltb_spec n (zlen v)).
    + eexists. split; [done|]. simpl. by rewrite zdrop_app, (zdrop_le0 (n - _)) by lia.
    + rewrite u64_small by lia. destruct (IH (n - zlen v)) as (l' & -> & Hs); [lia|lia|].
      eexists. split; [done|]. by rewrite Hs, zdrop_app, (zdrop_ge n) by lia.
  - replace n with 0 by lia. eexists. split; [done|]. by rewrite zdrop_le0 by lia.
Qed.

Lemma viewlist_remove_ok l n :
  BufferViewList.wf l -> 0 <= n <= zlen (all_bytes l) ->
  exists l', BufferViewList.remove_prefix l n = Ok l' /\ BufferViewList.wf l' /\
    all_bytes l' = zdrop n (all_bytes l).
Proof.
  unfold BufferViewList.wf. intros Hwf Hn. destruct (viewlist_remove_bytes l n) as (l' & Hr & Hb); [lia|lia|].
  exists l'. split; [done|]. split; [|done]. rewrite Hb, zlen_zdrop. lia.
Qed.

Lemma viewlist_remove_throws l n :
  BufferViewList.wf l -> zlen (all_bytes l) < n < two64 ->
  exists e, BufferViewList.remove_prefix l n = Throw (out_of_range e).
Proof.
  unfold BufferViewList.wf, all_bytes. revert n.
  induction l as [|v l IH]; intros n Hwf Hn; simpl in *.
  { ztests. eauto. }
  rewrite zlen_app in *. ztests. rewrite u64_small by lia. apply IH; lia.
Qed.

#[export] Program Instance viewlist_sheddable : Sheddable BufferViewList.t := {|
  shed_wf := BufferViewList.wf;
  shed_bytes := all_bytes;
  shed_size := BufferViewList.size;
  shed_remove := BufferViewList.remove_prefix
|}.
Next Obligation. intros l Hl. unfold BufferViewList.size. rewrite viewlist_size_acc; done || lia. Qed.
Next Obligation. exact viewlist_remove_ok. Qed.
Next Obligation. exact viewlist_remove_throws. Qed.

(** ** Properties *)

Section shedding.

Context {T : Type} `{Sheddable T}.

(** Clients reason with the interface alone: two removals are one. *)
Lemma shed_twice (x : T) n m :
  shed_wf x -> 0 <= n -> 0 <= m -> n + m <= zlen (shed_bytes x) ->
  exists y z w, shed_remove x n = Ok y /\ shed_remove y m = Ok z /\
    shed_remove x (n + m) = Ok w /\ shed_bytes z = shed_bytes w.
Proof.
  intros Hx Hn Hm Hnm.
  destruct (shed_remove_ok x n Hx) as (y & Hy & Hwy & Hby); [lia|].
  destruct (shed_remove_ok y m Hwy) as (z & Hz & Hwz & Hbz); [rewrite Hby, zlen_zdrop; lia|].
  destruct (shed_remove_ok x (n + m) Hx) as (w & Hw & Hww & Hbw); [lia|].
  exists y, z, w. split_and!; try done. rewrite Hbz, Hby, Hbw, zdrop_zdrop by lia. f_equal. lia.
Qed.

End shedding.

(** [Buffer], [BufferList] and [BufferViewList] all shed bytes alike: for any count up
    to the size, [remove_prefix] succeeds and leaves exactly the remaining bytes of the
    concatenation (across buffer boundaries), and for any larger count it throws
    [out_of_range]. *)
Theorem buffers_remove_prefix (b : Buffer.t) (l : BufferList.t) (v : BufferViewList.t) n :
  Buffer.wf b -> BufferList.wf l -> BufferViewList.wf v -> 0 <= n < two64 ->
  (if n <=? Buffer.size b
   then exists b', Buffer.remove_prefix b n = Ok b' /\ Buffer.wf b' /\
          Buffer.str b' = zdrop n (Buffer.str b)
   else exists e, Buffer.remove_prefix b n = Throw (out_of_range e)) /\
  (if n <=? BufferList.size l
   then exists l', BufferList.remove_prefix l n = Ok l' /\ BufferList.wf l' /\
          BufferList.concatenate l' = zdrop n (BufferList.concatenate l)
   else exists e, BufferList.remove_prefix l n = Throw (out_of_range e)) /\
  (if n <=? BufferViewList.size v
   then exists v', BufferViewList.remove_prefix v n = Ok v' /\ BufferViewList.wf v' /\
          all_bytes v' = zdrop n (all_bytes v)
   else exists e, BufferViewList.remove_prefix v n = Throw (out_of_range e)).
Proof.
  intros Hb Hl Hv Hn.
  assert (G : forall (T : Type) (HT : Sheddable T) (x : T), shed_wf x ->
    if n <=? shed_size x
    then exists y, shed_remove x n = Ok y /\ shed_wf y /\ shed_bytes y = zdrop n (shed_bytes x)
    else exists e, shed_remove x n = Throw (out_of_range e)).
  { intros T HT x Hx. rewrite shed_size_spec by done.
    ztests; [apply shed_remove_ok | apply shed_remove_throws]; done || lia. }
  split_and!; [exact (G _ _ b Hb) | exact (G _ _ l Hl) | exact (G _ _ v Hv)].
Qed.

Lemma buffers_remove_prefix_witness :
  exists l', BufferList.remove_prefix
      [Buffer.of_string [Byte.x61; Byte.x62]; Buffer.of_string [Byte.x63; Byte.x64]] 3 = Ok l' /\
    BufferList.concatenate l' = [Byte.x64].
Proof.
  destruct (buffers_remove_prefix (Buffer.of_string [])
    [Buffer.of_string [Byte.x61; Byte.x62]; Buffer.of_string [Byte.x63; Byte.x64]]
    [[Byte.x61]] 3) as (_ & H & _).
  - unfold Buffer.wf. simpl. lia.
  - split; [repeat apply Forall_cons_2; try apply Forall_nil_2; unfold Buffer.wf; simpl; lia
           | vm_compute; reflexivity].
  - unfold BufferViewList.wf. simpl. lia.
  - lia.
  - match type of H with context [?a <=? ?b] =>
      replace (a <=? b) with true in H by (vm_compute; reflexivity) end.
    destruct H as (l' & H1 & _ & H2). exists l'. split; [exact H1|].
    rewrite H2. vm_compute. reflexivity.
Defined.
