(* ===== verification/Parsing.v ===== *)
(** * Parsing.v: network-order integers and the Internet checksum

    Models [libsponge/util/parser.hh], [libsponge/util/parser.cc] ([ParseResult],
    [NetParser], [NetUnparser]) and the [InternetChecksum] class of
    [libsponge/util/util.hh] and [libsponge/util/util.cc]. *)

From S2P Require Import Prelude Buffers.

(** ** Results *)

Inductive ParseResult :=
  | NoError
  | BadChecksum
  | PacketTooShort
  | WrongIPVersion
  | HeaderTooShort
  | TruncatedPacket
  | Unsupported.

#[export] Instance ParseResult_eq_dec : EqDecision ParseResult.
Proof. solve_decision. Defined.

(** The enumerators' values. *)
Definition ParseResult_index (r : ParseResult) : Z :=
  match r with
  | NoError => 0
  | BadChecksum => 1
  | PacketTooShort => 2
  | WrongIPVersion => 3
  | HeaderTooShort => 4
  | TruncatedPacket => 5
  | Unsupported => 6
  end.

(** [as_string] indexes a table of six names; an index past its end is undefined. *)
Definition as_string (r : ParseResult) : outcome string :=
  let _names : list string :=
    ["NoError"; "BadChecksum"; "PacketTooShort"; "WrongIPVersion"; "HeaderTooShort";
     "TruncatedPacket"]%string in
  match zget _names (ParseResult_index r) with
  | Some s => Ok s
  | None => Undefined
  end.

(** ** Big-endian integers

    [be_decode w] is the value read from the front byte by byte into a [w]-bit
    integer, [be_encode n v] the [n] bytes of [v] from the most significant one. *)

Definition uw (w z : Z) : Z := z mod 2 ^ w.

Definition be_decode (w : Z) (l : list byte) : Z :=
  fold_left (fun ret c => uw w (uw w (Z.shiftl ret 8) + Z_of_byte c)) l 0.

Fixpoint be_encode (n : nat) (v : Z) : list byte :=
  match n with
  | O => []
  | S n' => byte_of_Z (Z.land (Z.shiftr v (Z.of_nat n' * 8)) 255) :: be_encode n' v
  end.

(** ** NetParser *)

Module NetParser.

Record t := mk {
  _buffer : Buffer.t;
  _error : ParseResult
}.

Definition make (buffer : Buffer.t) : t := mk buffer NoError.

Definition buffer (p : t) : Buffer.t := _buffer p.
Definition get_error (p : t) : ParseResult := _error p.
Definition set_error (p : t) (res : ParseResult) : t := mk (_buffer p) res.
Definition error (p : t) : bool := negb (bool_decide (get_error p = NoError)).

Definition _check_size (p : t) (size : Z) : t :=
  if Buffer.size (_buffer p) <? size then set_error p PacketTooShort else p.

(** The loop of [_parse_int]: byte [i] is shifted into the result. *)
Fixpoint parse_loop (w : Z) (b : Buffer.t) (n : nat) (i ret : Z) : outcome Z :=
  match n with
  | O => Ok ret
  | S n' =>
      c ← Buffer.at_ b i;
      parse_loop w b n' (i + 1) (uw w (uw w (Z.shiftl ret 8) + c))
  end.

(** [_parse_int<T>] for a type of [len] bytes. *)
Definition _parse_int (len : nat) (p : t) : outcome (Z * t) :=
  let p := _check_size p (Z.of_nat len) in
  if error p then Ok (0, p)
  else
    ret ← parse_loop (Z.of_nat len * 8) (_buffer p) len 0 0;
    b ← Buffer.remove_prefix (_buffer p) (Z.of_nat len);
    Ok (ret, mk b (_error p)).

Definition u32 (p : t) : outcome (Z * t) := _parse_int 4 p.
Definition u16 (p : t) : outcome (Z * t) := _parse_int 2 p.
Definition u8 (p : t) : outcome (Z * t) := _parse_int 1 p.

Definition remove_prefix (p : t) (n : Z) : outcome t :=
  let p := _check_size p n in
  if error p then Ok p
  else b ← Buffer.remove_prefix (_buffer p) n; Ok (mk b (_error p)).

(** The parser's unread bytes. *)
Definition rest (p : t) : list byte := Buffer.str (_buffer p).

(** A parser without an error whose buffer is well formed. *)
Definition ready (p : t) : Prop := Buffer.wf (_buffer p) /\ _error p = NoError.

End NetParser.

(** ** NetUnparser *)

Module NetUnparser.

(** [_unparse_int<T>]: pushes the bytes of the value, most significant first. *)
Definition _unparse_int (len : nat) (s : list byte) (val : Z) : list byte := s ++ be_encode len val.

Definition u32 (s : list byte) (val : Z) : list byte := _unparse_int 4 s val.
Definition u16 (s : list byte) (val : Z) : list byte := _unparse_int 2 s val.
Definition u8 (s : list byte) (val : Z) : list byte := _unparse_int 1 s val.

End NetUnparser.

(** ** InternetChecksum *)

Module InternetChecksum.

Record t := mk {
  _sum : Z;
  _parity : bool
}.

Definition make (initial_sum : Z) : t := mk initial_sum false.

(** One byte: the first of a pair is the high half of a 16-bit word. *)
Definition add_byte (c : t) (b : byte) : t :=
  let val := if _parity c then Z_of_byte b else u16 (Z.shiftl (Z_of_byte b) 8) in
  mk (Prelude.u32 (_sum c + val)) (negb (_parity c)).

Definition add (c : t) (data : list byte) : t := fold_left add_byte data c.

(** The folding loop of [value].  Four rounds are more than a 32-bit sum ever needs
    (see [fold_carry_enough]). *)
Fixpoint fold_carry (fuel : nat) (ret : Z) : outcome Z :=
  if 65535 <? ret then
    match fuel with
    | O => OutOfFuel
    | S fuel' => fold_carry fuel' (Prelude.u32 (Z.shiftr ret 16 + Z.land ret 65535))
    end
  else Ok ret.

Definition value (c : t) : outcome Z :=
  ret ← fold_carry 4 (_sum c);
  Ok (u16 (Z.lnot ret)).

End InternetChecksum.

(** ** Lemmas: integers *)

Lemma uw_range w z : 0 <= w -> 0 <= uw w z < 2 ^ w.
Proof. intros. apply Z.mod_pos_bound. lia. Qed.

Lemma be_encode_length n v : length (be_encode n v) = n.
Proof. induction n; simpl; congruence. Qed.

Lemma be_encode_byte v k :
  0 <= k -> Z_of_byte (byte_of_Z (Z.land (Z.shiftr v k) 255)) = (v / 2 ^ k) mod 256.
Proof.
  intros. rewrite Z_of_byte_of_Z. change 255 with (Z.ones 8).
  rewrite Z.land_ones, Z.shiftr_div_pow2 by lia. unfold u8. by rewrite Z.mod_mod by lia.
Qed.

(** The value of a byte string as a number in base 256. *)
Definition be_val (l : list byte) (acc : Z) : Z :=
  fold_left (fun r c => r * 256 + Z_of_byte c) l acc.

Lemma be_decode_val w l : 0 <= w -> be_decode w l = uw w (be_val l 0).
Proof.
  intros Hw. unfold be_decode, be_val.
  assert (H : forall acc,
    fold_left (fun ret c => uw w (uw w (Z.shiftl ret 8) + Z_of_byte c)) l (uw w acc)
    = uw w (fold_left (fun r c => r * 256 + Z_of_byte c) l acc)).
  { induction l as [|c l IH]; intros acc; [done|]. simpl. rewrite <- IH. f_equal.
    rewrite Z.shiftl_mul_pow2 by lia. change (2 ^ 8) with 256. unfold uw.
    by rewrite Zmult_mod_idemp_l, Zplus_mod_idemp_l. }
  specialize (H 0). replace (uw w 0) with 0 in H; [done|].
  unfold uw. symmetry. apply Z.mod_0_l. lia.
Qed.

Lemma be_val_encode n v acc :
  be_val (be_encode n v) acc = acc * 256 ^ Z.of_nat n + v mod 256 ^ Z.of_nat n.
Proof.
  revert acc. induction n as [|n IH]; intros acc; [simpl; rewrite Z.mod_1_r; lia|].
  unfold be_val in *. simpl fold_left. rewrite IH, be_encode_byte by lia.
  replace (2 ^ (Z.of_nat n * 8)) with (256 ^ Z.of_nat n)
    by (rewrite Z.mul_comm, Z.pow_mul_r by lia; done).
  replace (Z.of_nat (S n)) with (Z.of_nat n + 1) by lia. rewrite Z.pow_add_r by lia.
  change (256 ^ 1) with 256. rewrite Z.rem_mul_r by lia. lia.
Qed.

(** Encoding then decoding is the identity on values that fit. *)
Lemma be_decode_encode n v :
  0 <= v < 2 ^ (Z.of_nat n * 8) -> be_decode (Z.of_nat n * 8) (be_encode n v) = v.
Proof.
  intros Hv. rewrite be_decode_val, be_val_encode by lia.
  replace (256 ^ Z.of_nat n) with (2 ^ (Z.of_nat n * 8))
    by (rewrite Z.mul_comm, Z.pow_mul_r by lia; done).
  unfold uw. rewrite Z.mul_0_l, Z.add_0_l, Z.mod_mod by lia. by apply Z.mod_small.
Qed.

Lemma be_encode_val l acc :
  0 <= acc -> be_encode (length l) (be_val l acc) = l.
Proof.
  revert acc. induction l as [|c l IH]; intros acc Hacc; [done|].
  pose proof (Z_of_byte_range c). unfold be_val in *. simpl. rewrite IH by lia. f_equal.
  apply (inj Z_of_byte). rewrite be_encode_byte by lia.
  replace (2 ^ (zlen l * 8)) with (256 ^ zlen l)
    by (rewrite Z.mul_comm, Z.pow_mul_r by lia; done).
  assert (Hd : forall l acc, 0 <= acc ->
    fold_left (fun r c => r * 256 + Z_of_byte c) l acc / 256 ^ zlen l = acc).
  { clear. induction l as [|c l IH]; intros acc Hacc; [simpl; apply Z.div_1_r|].
    pose proof (Z_of_byte_range c). simpl fold_left.
    replace (zlen (c :: l)) with (zlen l + 1) by (simpl; lia).
    rewrite Z.pow_add_r, <- Z.div_div by lia. rewrite IH by lia.
    change (256 ^ 1) with 256. mlia. }
  rewrite Hd by lia. mlia.
Qed.

(** Decoding then encoding is the identity on byte strings. *)
Lemma be_encode_decode l :
  be_encode (length l) (be_decode (zlen l * 8) l) = l.
Proof.
  rewrite be_decode_val by lia.
  assert (H : forall n m v, (n <= m)%nat -> be_encode n (uw (Z.of_nat m * 8) v) = be_encode n v).
  { clear. induction n as [|n IH]; intros m v Hnm; simpl; [done|].
    rewrite IH by lia. f_equal. apply (inj Z_of_byte). rewrite !be_encode_byte by lia.
    unfold uw. replace (Z.of_nat m * 8) with (Z.of_nat n * 8 + (Z.of_nat m - Z.of_nat n) * 8) by lia.
    rewrite Z.pow_add_r, Z.rem_mul_r by lia.
    rewrite (Z.mul_comm (2 ^ (Z.of_nat n * 8))), Z.div_add by lia.
    rewrite Z.div_small by (apply Z.mod_pos_bound; lia). rewrite Z.add_0_l.
    replace ((Z.of_nat m - Z.of_nat n) * 8) with (8 + (Z.of_nat m - Z.of_nat n - 1) * 8) by lia.
    rewrite Z.pow_add_r, Z.rem_mul_r by lia. change (2 ^ 8) with 256.
    rewrite (Z.mul_comm 256), Z.mod_add, Z.mod_mod by lia. done. }
  rewrite H by done. by apply be_encode_val.
Qed.

(** ** Lemmas: parsing *)

Lemma parse_loop_spec w b n i ret :
  0 <= i -> i + Z.of_nat n <= zlen (Buffer.str b) ->
  NetParser.parse_loop w b n i ret =
  Ok (fold_left (fun ret c => uw w (uw w (Z.shiftl ret 8) + Z_of_byte c))
        (ztake (Z.of_nat n) (zdrop i (Buffer.str b))) ret).
Proof.
  revert i ret. induction n as [|n IH]; intros i ret Hi Hn.
  { rewrite ztake_le0 by lia. done. }
  cbn [NetParser.parse_loop]. unfold Buffer.at_.
  destruct (zget_is_Some (Buffer.str b) i ltac:(lia)) as [c Hc]. rewrite Hc. simpl.
  rewrite IH by lia. f_equal.
  assert (Hz : zdrop i (Buffer.str b) = c :: zdrop (i + 1) (Buffer.str b)).
  { rewrite !zdrop_drop. unfold zget in Hc. destruct (Z.ltb_spec i 0); [done|].
    rewrite (drop_S _ c) by done. f_equal. f_equal. lia. }
  rewrite Hz. rewrite !ztake_take. replace (Z.to_nat (Z.of_nat (S n))) with (S n) by lia.
  rewrite Nat2Z.id. done.
Qed.

(** Reading an integer from a parser in good order that has enough bytes. *)
Lemma parse_int_ok len p (s t : list byte) :
  NetParser.ready p -> NetParser.rest p = s ++ t -> length s = len ->
  exists p', NetParser._parse_int len p = Ok (be_decode (Z.of_nat len * 8) s, p') /\
    NetParser.ready p' /\ NetParser.rest p' = t.
Proof.
  intros [Hwf Herr] Hrest Hlen. unfold NetParser._parse_int, NetParser._check_size.
  unfold NetParser.rest in *. unfold Buffer.size. rewrite Hrest, zlen_app.
  destruct (Z.ltb_spec (zlen s + zlen t) (Z.of_nat len)); [lia|].
  unfold NetParser.error, NetParser.get_error. rewrite Herr. simpl.
  rewrite parse_loop_spec by (rewrite ?Hrest, ?zlen_app; lia).
  rewrite Hrest, zdrop_le0, ztake_app_exact by lia. simpl.
  destruct (buffer_remove_ok (NetParser._buffer p) (Z.of_nat len) Hwf) as (b' & -> & Hb' & Hs);
    [rewrite Hrest, zlen_app; lia|].
  simpl. eexists. split; [done|]. split; [by split|].
  unfold NetParser.rest. simpl. rewrite Hs, Hrest. apply zdrop_app_exact. lia.
Qed.

(** A parser that runs short stops with an error and consumes nothing. *)
Lemma parse_int_short len p :
  NetParser.error p = true \/ Buffer.size (NetParser._buffer p) < Z.of_nat len ->
  exists p', NetParser._parse_int len p = Ok (0, p') /\ NetParser.error p' = true /\
    NetParser._buffer p' = NetParser._buffer p.
Proof.
  intros H. unfold NetParser._parse_int, NetParser._check_size.
  destruct (Z.ltb_spec (Buffer.size (NetParser._buffer p)) (Z.of_nat len)); [simpl; eauto|].
  destruct H as [H|?]; [|lia]. rewrite H. eauto.
Qed.

(** No call on a well-formed parser throws, whatever the bytes. *)
Lemma parse_int_total len p :
  Buffer.wf (NetParser._buffer p) ->
  exists v p', NetParser._parse_int len p = Ok (v, p') /\ Buffer.wf (NetParser._buffer p').
Proof.
  intros Hwf.
  destruct (decide (NetParser.error p = true)) as [He|He];
    [destruct (parse_int_short len p (or_introl He)) as (p' & -> & _ & Hb); rewrite <- Hb in Hwf; eauto|].
  destruct (decide (Buffer.size (NetParser._buffer p) < Z.of_nat len)) as [Hs|Hs];
    [destruct (parse_int_short len p (or_intror Hs)) as (p' & -> & _ & Hb); rewrite <- Hb in Hwf; eauto|].
  destruct (parse_int_ok len p (ztake (Z.of_nat len) (NetParser.rest p))
    (zdrop (Z.of_nat len) (NetParser.rest p))) as (p' & -> & [Hp' _] & _); [|by rewrite ztake_zdrop| |eauto].
  - split; [done|]. unfold NetParser.error, NetParser.get_error in He.
    by destruct (NetParser._error p).
  - unfold NetParser.rest, Buffer.size in *. rewrite ztake_take, length_take. lia.
Qed.

Lemma parser_remove_ok p (s t : list byte) n :
  NetParser.ready p -> NetParser.rest p = s ++ t -> zlen s = n ->
  exists p', NetParser.remove_prefix p n = Ok p' /\ NetParser.ready p' /\ NetParser.rest p' = t.
Proof.
  intros [Hwf Herr] Hrest Hlen. unfold NetParser.remove_prefix, NetParser._check_size.
  unfold NetParser.rest in *. unfold Buffer.size. rewrite Hrest, zlen_app.
  destruct (Z.ltb_spec (zlen s + zlen t) n); [lia|].
  unfold NetParser.error, NetParser.get_error. rewrite Herr. simpl.
  destruct (buffer_remove_ok (NetParser._buffer p) n Hwf) as (b' & -> & Hb' & Hs);
    [rewrite Hrest, zlen_app; lia|].
  simpl. eexists. split; [done|]. split; [by split|].
  unfold NetParser.rest. simpl. rewrite Hs, Hrest. by apply zdrop_app_exact.
Qed.

Lemma parser_remove_total p n :
  Buffer.wf (NetParser._buffer p) -> 0 <= n ->
  exists p', NetParser.remove_prefix p n = Ok p' /\ Buffer.wf (NetParser._buffer p').
Proof.
  intros Hwf Hn. unfold NetParser.remove_prefix, NetParser._check_size, Buffer.size.
  destruct (Z.ltb_spec (zlen (Buffer.str (NetParser._buffer p))) n); [simpl; eauto|].
  destruct (NetParser.error p); [eauto|].
  destruct (buffer_remove_ok (NetParser._buffer p) n Hwf) as (b' & -> & Hb' & _); [lia|].
  simpl. eauto.
Qed.

(** ** Lemmas: checksum *)

(** The sum of the 16-bit words of a byte string; [odd] tells whether the first byte is
    the low half of a word. *)
Fixpoint word_sum (odd : bool) (l : list byte) : Z :=
  match l with
  | [] => 0
  | c :: l' => (if odd then Z_of_byte c else 256 * Z_of_byte c) + word_sum (negb odd) l'
  end.

(** The ones' complement sum that folding the carries of [s] leaves. *)
Definition oc_fold (s : Z) : Z := if s =? 0 then 0 else (s - 1) mod 65535 + 1.

Definition odd_len (l : list byte) : bool := Nat.odd (length l).

Lemma word_sum_bound l :
  0 <= 2 * word_sum false l <= 65535 * (zlen l + 1) /\
  0 <= 2 * word_sum true l <= 65535 * zlen l + 510.
Proof.
  induction l as [|c l IH]; [simpl; lia|]. pose proof (Z_of_byte_range c).
  simpl word_sum. replace (zlen (c :: l)) with (zlen l + 1) by (simpl; lia). lia.
Qed.

Lemma word_sum_app odd l k :
  word_sum odd (l ++ k) = word_sum odd l + word_sum (xorb odd (odd_len l)) k.
Proof.
  unfold odd_len. revert odd. induction l as [|c l IH]; intros odd; simpl; [by destruct odd|].
  rewrite IH. rewrite Nat.odd_succ, <- Nat.negb_odd.
  destruct odd, (Nat.odd (length l)); simpl; lia.
Qed.

Lemma checksum_add_spec c data :
  0 <= InternetChecksum._sum c ->
  InternetChecksum._sum c + word_sum (InternetChecksum._parity c) data < two32 ->
  InternetChecksum.add c data =
  InternetChecksum.mk (InternetChecksum._sum c + word_sum (InternetChecksum._parity c) data)
    (xorb (InternetChecksum._parity c) (odd_len data)).
Proof.
  unfold odd_len, InternetChecksum.add. revert c.
  induction data as [|b l IH]; intros [s odd]; simpl; intros Hs Hb.
  { by rewrite Z.add_0_r, xorb_false_r. }
  pose proof (Z_of_byte_range b). pose proof (word_sum_bound l) as [H1 H2].
  assert (0 <= word_sum (negb odd) l) by (destruct odd; simpl; lia).
  unfold InternetChecksum.add_byte at 2; simpl.
  assert (Hv : (if odd then Z_of_byte b else u16 (Z.shiftl (Z_of_byte b) 8)) =
               if odd then Z_of_byte b else 256 * Z_of_byte b).
  { destruct odd; [done|]. rewrite Z.shiftl_mul_pow2 by lia. rewrite u16_small; lia. }
  rewrite Hv. rewrite u32_small by (destruct odd; lia).
  rewrite IH; simpl; [|destruct odd; lia|destruct odd; simpl in *; lia].
  f_equal; [lia|]. rewrite Nat.odd_succ, <- Nat.negb_odd.
  by destruct odd, (Nat.odd (length l)).
Qed.

(** At most two rounds of carry folding are ever needed, so the fuel suffices. *)
Lemma fold_carry_enough fuel s :
  (2 <= fuel)%nat -> 0 <= s < two32 -> InternetChecksum.fold_carry fuel s = Ok (oc_fold s).
Proof.
  intros Hf Hs. unfold oc_fold.
  assert (Hstep : forall r, u32 (Z.shiftr r 16 + Z.land r 65535) = u32 (r / 65536 + r mod 65536)).
  { intros r. change 65535 with (Z.ones 16). by rewrite Z.land_ones, Z.shiftr_div_pow2 by lia. }
  destruct fuel as [|[|fuel]]; [lia..|]. cbn [InternetChecksum.fold_carry].
  rewrite !Hstep. destruct (Z.ltb_spec 65535 s).
  - rewrite (u32_small (s / 65536 + s mod 65536)) by mlia.
    set (s1 := s / 65536 + s mod 65536).
    assert (H1 : 0 < s1 <= 131070) by (unfold s1; mlia).
    destruct (ex_intro (fun k => s = s1 + k * 65535) (s / 65536)) as [k H2].
    { unfold s1. pose proof (Z.div_mod s 65536 ltac:(lia)). lia. }
    clearbody s1. destruct (Z.ltb_spec 65535 s1).
    + rewrite (u32_small (s1 / 65536 + s1 mod 65536)) by mlia.
      set (s2 := s1 / 65536 + s1 mod 65536).
      assert (s2 = s1 - 65535) by (unfold s2; mlia). clearbody s2.
      destruct fuel; cbn [InternetChecksum.fold_carry]; ztests; f_equal; mlia.
    + ztests. f_equal. mlia.
  - ztests; f_equal; mlia.
Qed.

Lemma oc_fold_range s : 0 <= s -> 0 <= oc_fold s <= 65535.
Proof. intros. unfold oc_fold. ztests; mlia. Qed.

Lemma checksum_value_spec c :
  0 <= InternetChecksum._sum c < two32 ->
  InternetChecksum.value c = Ok (65535 - oc_fold (InternetChecksum._sum c)).
Proof.
  intros Hs. unfold InternetChecksum.value. rewrite fold_carry_enough by (lia || done). simpl.
  pose proof (oc_fold_range (InternetChecksum._sum c) ltac:(lia)).
  f_equal. unfold Z.lnot. mlia.
Qed.

(** The checksum of a whole byte string, from an initial sum. *)
Lemma checksum_of init data :
  0 <= init -> init + word_sum false data < two32 ->
  InternetChecksum.value (InternetChecksum.add (InternetChecksum.make init) data)
  = Ok (65535 - oc_fold (init + word_sum false data)).
Proof.
  intros Hi Hb. pose proof (word_sum_bound data).
  rewrite checksum_add_spec by (simpl; lia). apply checksum_value_spec. simpl. lia.
Qed.

(** A 16-bit word at an even offset contributes its value. *)
Lemma word_sum_word a v b :
  odd_len a = false -> 0 <= v < two16 ->
  word_sum false (a ++ be_encode 2 v ++ b) = word_sum false a + v + word_sum false b.
Proof.
  intros Ha Hv. rewrite !word_sum_app, Ha. cbn [xorb].
  assert (Hw : word_sum false (be_encode 2 v) = v).
  { cbn [be_encode word_sum negb]. rewrite !be_encode_byte by lia.
    change (2 ^ (Z.of_nat 1 * 8)) with 256. change (2 ^ (Z.of_nat 0 * 8)) with 1.
    rewrite Z.div_1_r. mlia. }
  rewrite Hw. unfold odd_len. rewrite be_encode_length. cbn. lia.
Qed.

(** Inserting the checksum of the text makes the whole verify. *)
Lemma oc_fold_complement s :
  0 <= s -> oc_fold (s + (65535 - oc_fold s)) = 65535.
Proof. intros Hs. unfold oc_fold. ztests; mlia. Qed.

(** Two sums fold to the same word exactly when they are congruent modulo 65535 (zero apart). *)
Lemma oc_fold_congruent s s' :
  0 < s -> 0 < s' -> oc_fold s = oc_fold s' -> (s - s') mod 65535 = 0.
Proof. intros ??. unfold oc_fold. ztests; mlia. Qed.

(** Storing the checksum of a text in its zeroed field makes the whole text verify. *)
Lemma checksum_insert init a b :
  odd_len a = false -> 0 <= init < two31 -> zlen a + zlen b + 2 <= 65535 ->
  let v := 65535 - oc_fold (init + word_sum false a + word_sum false b) in
  0 <= v < two16 /\
  InternetChecksum.value
    (InternetChecksum.add (InternetChecksum.make init) (a ++ be_encode 2 0 ++ b)) = Ok v /\
  InternetChecksum.value
    (InternetChecksum.add (InternetChecksum.make init) (a ++ be_encode 2 v ++ b)) = Ok 0.
Proof.
  intros Ha Hi Hlen v.
  pose proof (word_sum_bound a) as [Ba _]. pose proof (word_sum_bound b) as [Bb _].
  pose proof (oc_fold_range (init + word_sum false a + word_sum false b) ltac:(lia)) as Hr.
  split; [lia|]. split.
  - rewrite checksum_of by (rewrite ?word_sum_word by (done || lia); lia).
    rewrite word_sum_word by (done || lia). unfold v. do 3 f_equal. lia.
  - rewrite checksum_of by (rewrite ?word_sum_word by (done || lia); lia).
    rewrite word_sum_word by (done || lia).
    replace (init + (word_sum false a + v + word_sum false b)) with
      (init + word_sum false a + word_sum false b +
       (65535 - oc_fold (init + word_sum false a + word_sum false b))) by lia.
    rewrite oc_fold_complement by lia. done.
Qed.

(** ** Reading fields at offsets

    The field of [n] bytes at an offset of a byte string, and what a parser that has
    consumed [off] bytes of [b] looks like: in good order at that offset, or stopped
    with [PacketTooShort] because [b] is shorter than that. *)
Definition field (b : list byte) (off : Z) (n : nat) : Z :=
  be_decode (Z.of_nat n * 8) (ztake (Z.of_nat n) (zdrop off b)).

Definition parsed (b : list byte) (off : Z) (p : NetParser.t) : Prop :=
  0 <= off /\ Buffer.wf (NetParser._buffer p) /\
  if off <=? zlen b then NetParser._error p = NoError /\ NetParser.rest p = zdrop off b
  else NetParser._error p = PacketTooShort.

Lemma parsed_make b :
  Buffer.wf b -> parsed (Buffer.str b) 0 (NetParser.make b).
Proof.
  intros Hb. split; [lia|]. split; [done|]. ztests. split; [done|]. by rewrite zdrop_le0 by lia.
Qed.

Lemma parsed_error b off p :
  parsed b off p -> NetParser.get_error p = if off <=? zlen b then NoError else PacketTooShort.
Proof. intros (_ & _ & H). unfold NetParser.get_error. destruct (off <=? zlen b); [apply H|done]. Qed.

Lemma field_range b off n : 0 <= field b off n < 2 ^ (Z.of_nat n * 8).
Proof. unfold field. rewrite be_decode_val by lia. apply uw_range. lia. Qed.

Lemma parse_step n b off p :
  parsed b off p ->
  exists v p', NetParser._parse_int n p = Ok (v, p') /\ parsed b (off + Z.of_nat n) p' /\
    0 <= v < 2 ^ (Z.of_nat n * 8) /\ (off + Z.of_nat n <= zlen b -> v = field b off n).
Proof.
  intros (Hoff & Hwf & Hp). destruct (Z.leb_spec (off + Z.of_nat n) (zlen b)) as [Hle|Hgt].
  - revert Hp. ztests. intros [He Hr].
    destruct (parse_int_ok n p (ztake (Z.of_nat n) (zdrop off b))
      (zdrop (off + Z.of_nat n) b)) as (p' & E & [Hw' He'] & Hr'); [done| | |].
    { rewrite Hr, (Z.add_comm off), <- zdrop_zdrop by lia. by rewrite ztake_zdrop. }
    { apply Nat2Z.inj. rewrite zlen_ztake, zlen_zdrop. lia. }
    eexists _, p'. split; [exact E|]. split; [|split; [apply field_range|done]].
    split; [lia|]. split; [done|]. ztests. done.
  - destruct (parse_int_short n p) as (p' & E & He' & Hb').
    { revert Hp. unfold NetParser.error, NetParser.get_error, Buffer.size. ztests; intros Hp.
      - right. destruct Hp as [_ Hr]. unfold NetParser.rest in Hr. rewrite Hr, zlen_zdrop. lia.
      - left. rewrite Hp. done. }
    exists 0, p'. split; [done|]. split; [|split; lia]. split; [lia|]. split; [by rewrite Hb'|].
    ztests. revert E He'. unfold NetParser._parse_int, NetParser._check_size.
    unfold NetParser.error, NetParser.get_error, NetParser.set_error.
    destruct (Z.ltb_spec (Buffer.size (NetParser._buffer p)) (Z.of_nat n)) as [Hs|Hs]; simpl.
    + intros [= <-] _. done.
    + revert Hp. ztests; intros Hp; [|rewrite Hp; simpl; by intros [= <-]].
      destruct Hp as [_ Hr]. unfold NetParser.rest, Buffer.size in *. rewrite Hr, zlen_zdrop in Hs. lia.
Qed.

Lemma remove_step b off n p :
  parsed b off p -> 0 <= n ->
  exists p', NetParser.remove_prefix p n = Ok p' /\ parsed b (off + n) p'.
Proof.
  intros (Hoff & Hwf & Hp) Hn. destruct (Z.leb_spec (off + n) (zlen b)) as [Hle|Hgt].
  - revert Hp. ztests. intros [He Hr].
    destruct (parser_remove_ok p (ztake n (zdrop off b)) (zdrop (off + n) b) n)
      as (p' & E & [Hw' He'] & Hr'); [done| |rewrite zlen_ztake, zlen_zdrop; lia|].
    { rewrite Hr, (Z.add_comm off), <- zdrop_zdrop by lia. by rewrite ztake_zdrop. }
    exists p'. split; [done|]. split; [lia|]. split; [done|]. ztests. done.
  - unfold NetParser.remove_prefix, NetParser._check_size, Buffer.size.
    unfold NetParser.error, NetParser.get_error, NetParser.set_error.
    destruct (Z.ltb_spec (zlen (Buffer.str (NetParser._buffer p))) n) as [Hs|Hs]; simpl.
    + eexists. split; [done|]. split; [lia|]. split; [done|]. by ztests.
    + revert Hp. ztests; intros Hp.
      * destruct Hp as [_ Hr]. unfold NetParser.rest in Hr. rewrite Hr, zlen_zdrop in Hs. lia.
      * rewrite Hp. simpl. eexists. split; [done|]. split; [lia|]. split; [done|]. by ztests.
Qed.

(** Fields of a text that starts with encoded values. *)
Lemma field_here n v t :
  0 <= v < 2 ^ (Z.of_nat n * 8) -> field (be_encode n v ++ t) 0 n = v.
Proof.
  intros Hv. unfold field. rewrite zdrop_le0 by lia.
  rewrite ztake_app_exact by (by rewrite be_encode_length). by apply be_decode_encode.
Qed.

Lemma field_skip n m v t off :
  Z.of_nat m <= off -> field (be_encode m v ++ t) off n = field t (off - Z.of_nat m) n.
Proof.
  intros. unfold field. rewrite zdrop_app, be_encode_length.
  rewrite (zdrop_ge off) by (rewrite be_encode_length; lia). done.
Qed.

(** Evaluates the fields of such texts at literal offsets. *)
Ltac read_fields :=
  repeat match goal with
  | |- context [field (be_encode ?m ?v ++ ?t) Z0 ?n] =>
      rewrite (field_here n v t) by (cbn; lia)
  | |- context [field (be_encode ?m ?v ++ ?t) (Zpos ?p) ?n] =>
      let o := eval vm_compute in (Zpos p - Z.of_nat m) in
      rewrite (field_skip n m v t (Zpos p)) by (cbn; lia);
      change (Zpos p - Z.of_nat m) with o
  end.

(** Runs the next read of the goal against a [parsed] hypothesis. *)
Ltac parse_next :=
  unfold NetParser.u32, NetParser.u16, NetParser.u8;
  match goal with
  | Hp : parsed ?b ?off ?p |- context [NetParser._parse_int ?n ?p] =>
      let v := fresh "v" in let q := fresh "q" in let E := fresh "E" in
      let Hq := fresh "Hq" in let Hv := fresh "Hv" in let Hr := fresh "Hr" in
      destruct (parse_step n b off p Hp) as (v & q & E & Hq & Hr & Hv);
      let r := eval vm_compute in (2 ^ (Z.of_nat n * 8)) in
      change (2 ^ (Z.of_nat n * 8)) with r in Hr;
      let o := eval vm_compute in (off + Z.of_nat n) in
      change (off + Z.of_nat n) with o in Hq, Hv;
      rewrite E; clear Hp E; cbn [mbind outcome_bind]
  end.

(** ** Properties *)

(** Integers survive the wire: what [NetUnparser] appends for a value of [len] bytes,
    [NetParser] reads back as that value, leaving exactly the bytes behind it; reading and
    unparsing any [len] bytes gives those bytes back; and a parser with fewer than [len]
    bytes reports [PacketTooShort], returns 0 and consumes nothing. *)
Theorem parse_unparse_roundtrip (len : nat) (p : NetParser.t) (Hp : NetParser.ready p) :
  (forall v t, 0 <= v < 2 ^ (Z.of_nat len * 8) ->
     NetParser.rest p = NetUnparser._unparse_int len [] v ++ t ->
     exists p', NetParser._parse_int len p = Ok (v, p') /\
       NetParser.ready p' /\ NetParser.rest p' = t) /\
  (forall s t, length s = len -> NetParser.rest p = s ++ t ->
     exists v p', NetParser._parse_int len p = Ok (v, p') /\
       NetUnparser._unparse_int len [] v = s /\ NetParser.rest p' = t) /\
  (zlen (NetParser.rest p) < Z.of_nat len ->
     exists p', NetParser._parse_int len p = Ok (0, p') /\
       NetParser.get_error p' = PacketTooShort /\ NetParser.rest p' = NetParser.rest p).
Proof.
  unfold NetUnparser._unparse_int. simpl. split; [|split].
  - intros v t Hv Hrest.
    destruct (parse_int_ok len p _ t Hp Hrest (be_encode_length len v)) as (p' & -> & Hp' & Ht).
    rewrite be_decode_encode by done. eauto.
  - intros s t Hs Hrest.
    destruct (parse_int_ok len p s t Hp Hrest Hs) as (p' & -> & _ & Ht).
    eexists _, p'. split; [done|]. split; [|done]. rewrite <- Hs. apply be_encode_decode.
  - intros Hlt. unfold NetParser._parse_int, NetParser._check_size, Buffer.size.
    unfold NetParser.rest in *. destruct (Z.ltb_spec (zlen (Buffer.str (NetParser._buffer p)))
      (Z.of_nat len)); [|lia]. simpl. eauto.
Qed.

Lemma parse_unparse_roundtrip_witness :
  exists p', NetParser._parse_int 2
    (NetParser.make (Buffer.of_string [Byte.x12; Byte.x34; Byte.x56])) = Ok (4660, p') /\
    NetParser.ready p' /\ NetParser.rest p' = [Byte.x56].
Proof.
  eapply (proj1 (parse_unparse_roundtrip 2 _ _)); [lia|vm_compute; reflexivity].
  Unshelve. split; [split; simpl; lia|reflexivity].
Defined.

(** C35. The Internet checksum of a text of at most 65535 bytes, started from a sum below [2^31]: when
    the text is checksummed with its 16-bit checksum field (at an even offset) zeroed, and the
    value is then stored in that field, the whole text verifies, i.e. its checksum is 0.  Once
    that holds, replacing any one aligned 16-bit word by a different one makes the verification
    fail, unless the two words are the two ones' complement zeros (0x0000 and 0xffff). *)
Theorem checksum_correct (init : Z) (a b : list byte)
  (Ha : odd_len a = false) (Hi : 0 <= init < two31)
  (Hlen : zlen a + zlen b + 2 <= 65535) :
  exists v, 0 <= v < two16 /\
    InternetChecksum.value
      (InternetChecksum.add (InternetChecksum.make init) (a ++ be_encode 2 0 ++ b)) = Ok v /\
    InternetChecksum.value
      (InternetChecksum.add (InternetChecksum.make init) (a ++ be_encode 2 v ++ b)) = Ok 0 /\
    forall x y w w', a ++ be_encode 2 v ++ b = x ++ be_encode 2 w ++ y ->
      odd_len x = false -> 0 <= w < two16 -> 0 <= w' < two16 -> w <> w' ->
      InternetChecksum.value
        (InternetChecksum.add (InternetChecksum.make init) (x ++ be_encode 2 w' ++ y)) = Ok 0 ->
      (w = 0 /\ w' = 65535) \/ (w = 65535 /\ w' = 0).
Proof.
  destruct (checksum_insert init a b Ha Hi Hlen) as (Hv & H0 & H1).
  eexists. split; [exact Hv|]. split; [exact H0|]. split; [exact H1|].
  intros x y w w' Heq Hx Hw Hw' Hne.
  assert (Hlen' := f_equal (fun l => zlen l) Heq). cbn beta in Hlen'.
  rewrite !zlen_app, !be_encode_length in Hlen'. rewrite Heq in H1. revert H1.
  pose proof (word_sum_bound x) as [Bx _]. pose proof (word_sum_bound y) as [By _].
  rewrite !checksum_of by (rewrite ?word_sum_word by (done || lia); lia).
  rewrite !word_sum_word by (done || lia). intros [= Hz] [= Hz'].
  assert (Hnz : forall r, oc_fold r = 65535 -> r <> 0) by (intros r Hr0 ->; done).
  pose proof (Hnz (init + (word_sum false x + w + word_sum false y)) ltac:(lia)).
  pose proof (Hnz (init + (word_sum false x + w' + word_sum false y)) ltac:(lia)).
  assert (Hcong := oc_fold_congruent (init + (word_sum false x + w + word_sum false y))
    (init + (word_sum false x + w' + word_sum false y)) ltac:(lia) ltac:(lia) ltac:(lia)).
  replace (init + _ - _) with (w - w') in Hcong by lia. mlia.
Qed.

Lemma checksum_correct_witness :
  InternetChecksum.value (InternetChecksum.add (InternetChecksum.make 0)
    [Byte.x45; Byte.x00; Byte.xb3; Byte.xff; Byte.x07]) = Ok 0.
Proof.
  destruct (checksum_correct 0 [Byte.x45; Byte.x00] [Byte.x07]) as (v & Hv & H0 & H1 & _);
    [reflexivity|lia|simpl; lia|].
  vm_compute in H0. injection H0 as <-. exact H1.
Defined.

(** [as_string] names every result but the last: the table has no entry for
    [Unsupported], so printing that result reads past the end of the table. *)
Theorem as_string_unsupported (r : ParseResult) :
  as_string r = Undefined <-> r = Unsupported.
Proof. destruct r; vm_compute; naive_solver. Qed.
