(* ===== verification/TcpWire.v ===== *)
(** * TcpWire.v: TCP headers and segments on the wire

    Models [libsponge/tcp_helpers/tcp_header.hh], [tcp_header.cc], [tcp_segment.hh] and
    [tcp_segment.cc]: the fields, parsing, serialization with the checksum, and the length
    of a segment in sequence space. *)

From S2P Require Import Prelude Wrapping Buffers Parsing.

(** ** TCPHeader *)

Module TCPHeader.

Definition LENGTH : Z := 20.

Record t := mk {
  sport : Z;
  dport : Z;
  seqno : WrappingInt32.t;
  ackno : WrappingInt32.t;
  doff : Z;
  urg : bool;
  ack : bool;
  psh : bool;
  rst : bool;
  syn : bool;
  fin : bool;
  win : Z;
  cksum : Z;
  uptr : Z
}.

(** A default-initialised header. *)
Definition make : t :=
  mk 0 0 (WrappingInt32.mk 0) (WrappingInt32.mk 0) (LENGTH / 4)
    false false false false false false 0 0 0.

(** Assignments to the fields the stack sets. *)
Definition set_sport (h : t) (v : Z) : t :=
  mk v (dport h) (seqno h) (ackno h) (doff h) (urg h) (ack h) (psh h) (rst h) (syn h) (fin h)
    (win h) (cksum h) (uptr h).
Definition set_dport (h : t) (v : Z) : t :=
  mk (sport h) v (seqno h) (ackno h) (doff h) (urg h) (ack h) (psh h) (rst h) (syn h) (fin h)
    (win h) (cksum h) (uptr h).
Definition set_seqno (h : t) (v : WrappingInt32.t) : t :=
  mk (sport h) (dport h) v (ackno h) (doff h) (urg h) (ack h) (psh h) (rst h) (syn h) (fin h)
    (win h) (cksum h) (uptr h).
Definition set_ackno (h : t) (v : WrappingInt32.t) : t :=
  mk (sport h) (dport h) (seqno h) v (doff h) (urg h) (ack h) (psh h) (rst h) (syn h) (fin h)
    (win h) (cksum h) (uptr h).
Definition set_ack (h : t) (v : bool) : t :=
  mk (sport h) (dport h) (seqno h) (ackno h) (doff h) (urg h) v (psh h) (rst h) (syn h) (fin h)
    (win h) (cksum h) (uptr h).
Definition set_rst (h : t) (v : bool) : t :=
  mk (sport h) (dport h) (seqno h) (ackno h) (doff h) (urg h) (ack h) (psh h) v (syn h) (fin h)
    (win h) (cksum h) (uptr h).
Definition set_syn (h : t) (v : bool) : t :=
  mk (sport h) (dport h) (seqno h) (ackno h) (doff h) (urg h) (ack h) (psh h) (rst h) v (fin h)
    (win h) (cksum h) (uptr h).
Definition set_fin (h : t) (v : bool) : t :=
  mk (sport h) (dport h) (seqno h) (ackno h) (doff h) (urg h) (ack h) (psh h) (rst h) (syn h) v
    (win h) (cksum h) (uptr h).
Definition set_win (h : t) (v : Z) : t :=
  mk (sport h) (dport h) (seqno h) (ackno h) (doff h) (urg h) (ack h) (psh h) (rst h) (syn h)
    (fin h) v (cksum h) (uptr h).
Definition set_cksum (h : t) (v : Z) : t :=
  mk (sport h) (dport h) (seqno h) (ackno h) (doff h) (urg h) (ack h) (psh h) (rst h) (syn h)
    (fin h) (win h) v (uptr h).

(** [parse]: assigns every field, then skips the options. *)
Definition parse (p : NetParser.t) : outcome (ParseResult * t * NetParser.t) :=
  '(sport, p) ← NetParser.u16 p;
  '(dport, p) ← NetParser.u16 p;
  '(seqno, p) ← NetParser.u32 p;
  '(ackno, p) ← NetParser.u32 p;
  '(b, p) ← NetParser.u8 p;
  let doff := Z.shiftr b 4 in
  '(fl_b, p) ← NetParser.u8 p;
  let flag m := negb (Z.land fl_b m =? 0) in
  '(win, p) ← NetParser.u16 p;
  '(cksum, p) ← NetParser.u16 p;
  '(uptr, p) ← NetParser.u16 p;
  let h := mk sport dport (WrappingInt32.mk seqno) (WrappingInt32.mk ackno) doff
    (flag 32) (flag 16) (flag 8) (flag 4) (flag 2) (flag 1) win cksum uptr in
  if doff <? 5 then Ok (HeaderTooShort, h, p)
  else
    p ← NetParser.remove_prefix p (doff * 4 - LENGTH);
    if NetParser.error p then Ok (NetParser.get_error p, h, p)
    else Ok (NoError, h, p).

(** The flag byte. *)
Definition flags (h : t) : Z :=
  Z.lor (Z.lor (Z.lor (Z.lor (Z.lor (if urg h then 32 else 0) (if ack h then 16 else 0))
    (if psh h then 8 else 0)) (if rst h then 4 else 0)) (if syn h then 2 else 0))
    (if fin h then 1 else 0).

Definition serialize (h : t) : outcome (list byte) :=
  if doff h <? 5 then Throw (runtime_error "TCP header too short")
  else
    let ret := [] in
    let ret := NetUnparser.u16 ret (sport h) in
    let ret := NetUnparser.u16 ret (dport h) in
    let ret := NetUnparser.u32 ret (WrappingInt32.raw_value (seqno h)) in
    let ret := NetUnparser.u32 ret (WrappingInt32.raw_value (ackno h)) in
    let ret := NetUnparser.u8 ret (u8 (Z.shiftl (doff h) 4)) in
    let fl_b := flags h in
    let ret := NetUnparser.u8 ret fl_b in
    let ret := NetUnparser.u16 ret (win h) in
    let ret := NetUnparser.u16 ret (cksum h) in
    let ret := NetUnparser.u16 ret (uptr h) in
    Ok (str_resize ret (4 * doff h)).

(** [operator==]: ports and checksum are not compared. *)
Definition eqb (h o : t) : bool :=
  WrappingInt32.eqb (seqno h) (seqno o) && WrappingInt32.eqb (ackno h) (ackno o) &&
  (doff h =? doff o) && Bool.eqb (urg h) (urg o) && Bool.eqb (ack h) (ack o) &&
  Bool.eqb (psh h) (psh o) && Bool.eqb (rst h) (rst o) && Bool.eqb (syn h) (syn o) &&
  Bool.eqb (fin h) (fin o) && (win h =? win o) && (uptr h =? uptr o).

(** Every field is in the range of its type; [doff] is in addition a 4-bit field that
    allows for the fixed header. *)
Definition ok (h : t) : Prop :=
  0 <= sport h < two16 /\ 0 <= dport h < two16 /\ WrappingInt32.ok (seqno h) /\
  WrappingInt32.ok (ackno h) /\ 5 <= doff h <= 15 /\ 0 <= win h < two16 /\
  0 <= cksum h < two16 /\ 0 <= uptr h < two16.

End TCPHeader.

(** ** TCPSegment *)

Module TCPSegment.

Record t := mk {
  _header : TCPHeader.t;
  _payload : Buffer.t
}.

Definition make : t := mk TCPHeader.make Buffer.empty.

Definition header (s : t) : TCPHeader.t := _header s.
Definition payload (s : t) : Buffer.t := _payload s.
Definition set_header (s : t) (h : TCPHeader.t) : t := mk h (_payload s).
Definition set_payload (s : t) (b : Buffer.t) : t := mk (_header s) b.

(** [parse]: the result of the header's own [parse] is dropped, as in the source; only
    the parser's error is returned. *)
Definition parse (s : t) (buffer : Buffer.t) (datagram_layer_checksum : Z)
  : outcome (ParseResult * t) :=
  let check := InternetChecksum.make datagram_layer_checksum in
  let check := InternetChecksum.add check (Buffer.str buffer) in
  v ← InternetChecksum.value check;
  if negb (v =? 0) then Ok (BadChecksum, s)
  else
    let p := NetParser.make buffer in
    '(_, h, p) ← TCPHeader.parse p;
    Ok (NetParser.get_error p, mk h (NetParser.buffer p)).

Definition length_in_sequence_space (s : t) : Z :=
  u64 (zlen (Buffer.str (payload s)) + (if TCPHeader.syn (header s) then 1 else 0) +
       (if TCPHeader.fin (header s) then 1 else 0)).

Definition serialize (s : t) (datagram_layer_checksum : Z) : outcome BufferList.t :=
  let header_out := TCPHeader.set_cksum (_header s) 0 in
  let check := InternetChecksum.make datagram_layer_checksum in
  h ← TCPHeader.serialize header_out;
  let check := InternetChecksum.add check h in
  let check := InternetChecksum.add check (Buffer.str (_payload s)) in
  v ← InternetChecksum.value check;
  let header_out := TCPHeader.set_cksum header_out v in
  h ← TCPHeader.serialize header_out;
  Ok (BufferList.append (BufferList.append [] (BufferList.of_string h))
       (BufferList.of_buffer (_payload s))).

(** A segment whose fields fit and that fits a datagram. *)
Definition ok (s : t) : Prop :=
  TCPHeader.ok (_header s) /\ Buffer.wf (_payload s) /\
  4 * TCPHeader.doff (_header s) + zlen (Buffer.str (_payload s)) <= 65535.

End TCPSegment.

(** ** Lemmas: the header *)

(** The header whose fields stand at their offsets in [b]. *)
Definition header_of (b : list byte) : TCPHeader.t :=
  let flag m := negb (Z.land (field b 13 1) m =? 0) in
  TCPHeader.mk (field b 0 2) (field b 2 2) (WrappingInt32.mk (field b 4 4))
    (WrappingInt32.mk (field b 8 4)) (Z.shiftr (field b 12 1) 4)
    (flag 32) (flag 16) (flag 8) (flag 4) (flag 2) (flag 1)
    (field b 14 2) (field b 16 2) (field b 18 2).

(** Where the payload starts for a data offset: the options are skipped only when the
    offset allows for the fixed header. *)
Definition data_start (doff : Z) : Z := if doff <? 5 then 20 else 4 * doff.

Lemma data_start_short d : d < 5 -> data_start d = 20.
Proof. intros. unfold data_start. by ztests. Qed.

Lemma data_start_long d : 5 <= d -> data_start d = 4 * d.
Proof. intros. unfold data_start. by ztests. Qed.

Lemma header_parse_spec buf :
  Buffer.wf buf ->
  exists r h p, TCPHeader.parse (NetParser.make buf) = Ok (r, h, p) /\
    parsed (Buffer.str buf) (data_start (TCPHeader.doff h)) p /\
    0 <= TCPHeader.doff h < 16 /\
    (20 <= zlen (Buffer.str buf) -> h = header_of (Buffer.str buf)).
Proof.
  intros Hb. apply parsed_make in Hb. unfold TCPHeader.parse. do 9 parse_next.
  assert (Hd : 0 <= Z.shiftr v3 4 < 16) by (rewrite Z.shiftr_div_pow2 by lia; mlia).
  assert (Hh : 20 <= zlen (Buffer.str buf) -> TCPHeader.mk v v0 (WrappingInt32.mk v1)
    (WrappingInt32.mk v2) (Z.shiftr v3 4) (negb (Z.land v4 32 =? 0)) (negb (Z.land v4 16 =? 0))
    (negb (Z.land v4 8 =? 0)) (negb (Z.land v4 4 =? 0)) (negb (Z.land v4 2 =? 0))
    (negb (Z.land v4 1 =? 0)) v5 v6 v7 = header_of (Buffer.str buf)).
  { intros. unfold header_of. by rewrite Hv, Hv0, Hv1, Hv2, Hv3, Hv4, Hv5, Hv6, Hv7 by lia. }
  destruct (Z.ltb_spec (Z.shiftr v3 4) 5) as [Hlt|Hge].
  - eexists _, _, _. split; [done|]. cbn [TCPHeader.doff]. rewrite data_start_short by done. done.
  - destruct (remove_step _ _ (Z.shiftr v3 4 * 4 - TCPHeader.LENGTH) _ Hq) as (p' & -> & Hp');
      [unfold TCPHeader.LENGTH; lia|]. unfold TCPHeader.LENGTH in Hp'.
    cbn [mbind outcome_bind].
    replace (20 + (Z.shiftr v3 4 * 4 - 20)) with (4 * Z.shiftr v3 4) in Hp' by lia.
    destruct (NetParser.error p'); eexists _, _, _; (split; [done|]);
      cbn [TCPHeader.doff]; rewrite data_start_long by done; done.
Qed.

(** The bytes before the checksum field and after it. *)
Definition header_front (h : TCPHeader.t) : list byte :=
  be_encode 2 (TCPHeader.sport h) ++ be_encode 2 (TCPHeader.dport h) ++
  be_encode 4 (WrappingInt32.raw_value (TCPHeader.seqno h)) ++
  be_encode 4 (WrappingInt32.raw_value (TCPHeader.ackno h)) ++
  be_encode 1 (u8 (Z.shiftl (TCPHeader.doff h) 4)) ++ be_encode 1 (TCPHeader.flags h) ++
  be_encode 2 (TCPHeader.win h).

Definition header_back (h : TCPHeader.t) : list byte :=
  be_encode 2 (TCPHeader.uptr h) ++ replicate (Z.to_nat (4 * TCPHeader.doff h - 20)) Byte.x00.

Lemma header_front_len h : zlen (header_front h) = 16.
Proof. done. Qed.

Lemma header_back_len h : 5 <= TCPHeader.doff h -> zlen (header_back h) = 4 * TCPHeader.doff h - 18.
Proof.
  intros. unfold header_back. rewrite zlen_app, be_encode_length, length_replicate. lia.
Qed.

Lemma header_serialize_spec h :
  5 <= TCPHeader.doff h ->
  TCPHeader.serialize h =
  Ok (header_front h ++ be_encode 2 (TCPHeader.cksum h) ++ header_back h).
Proof.
  intros Hd. unfold TCPHeader.serialize. ztests. f_equal.
  unfold str_resize, NetUnparser.u16, NetUnparser.u32, NetUnparser.u8.
  unfold NetUnparser._unparse_int.
  rewrite ztake_ge; [|rewrite !zlen_app, !be_encode_length; simpl; lia].
  unfold header_front, header_back. rewrite <- !app_assoc. simpl app at 1.
  by do 9 f_equal.
Qed.

Lemma flags_range h : 0 <= TCPHeader.flags h < 64.
Proof.
  unfold TCPHeader.flags. destruct (TCPHeader.urg h), (TCPHeader.ack h), (TCPHeader.psh h),
    (TCPHeader.rst h), (TCPHeader.syn h), (TCPHeader.fin h); vm_compute; split; congruence.
Qed.

Lemma header_of_bytes h t :
  TCPHeader.ok h ->
  header_of (header_front h ++ be_encode 2 (TCPHeader.cksum h) ++ header_back h ++ t) = h.
Proof.
  intros (Hsp & Hdp & Hseq & Hack & Hd & Hw & Hc & Hu). unfold WrappingInt32.ok in *.
  pose proof (flags_range h).
  assert (Hdb : u8 (Z.shiftl (TCPHeader.doff h) 4) = 16 * TCPHeader.doff h).
  { rewrite Z.shiftl_mul_pow2 by lia. rewrite u8_small; lia. }
  unfold header_of, header_front, header_back. rewrite Hdb, <- !app_assoc.
  read_fields. rewrite Z.shiftr_div_pow2 by lia.
  replace (16 * TCPHeader.doff h / 2 ^ 4) with (TCPHeader.doff h) by (change (2 ^ 4) with 16; mlia).
  destruct h as [sp dp [sq] [ak] d [] [] [] [] [] [] w c u]; reflexivity.
Qed.

(** ** Lemmas: the segment *)

(** [serialize] writes the header with the checksum in place, then the payload. *)
Lemma segment_serialize_spec s init :
  TCPSegment.ok s -> 0 <= init < two31 ->
  exists v out, 0 <= v < two16 /\
    TCPSegment.serialize s init = Ok out /\
    BufferList.concatenate out =
      header_front (TCPSegment.header s) ++ be_encode 2 v ++
      header_back (TCPSegment.header s) ++ Buffer.str (TCPSegment.payload s) /\
    InternetChecksum.value (InternetChecksum.add (InternetChecksum.make init)
      (BufferList.concatenate out)) = Ok 0.
Proof.
  intros (Hh & Hp & Hlen) Hi. destruct s as [h pl]; simpl in *.
  assert (Hd : 5 <= TCPHeader.doff h) by apply Hh.
  destruct (checksum_insert init (header_front h) (header_back h ++ Buffer.str pl))
    as (Hv & H0 & H1); [done|done| |].
  { rewrite zlen_app, header_front_len, header_back_len by done. lia. }
  set (v := 65535 - _) in *. unfold TCPSegment.serialize.
  cbn [TCPSegment._header TCPSegment._payload].
  rewrite header_serialize_spec by done. cbn [mbind outcome_bind].
  unfold InternetChecksum.add in *. rewrite <- fold_left_app.
  change (header_front (TCPHeader.set_cksum h 0)) with (header_front h).
  change (header_back (TCPHeader.set_cksum h 0)) with (header_back h).
  change (TCPHeader.cksum (TCPHeader.set_cksum h 0)) with 0.
  rewrite <- !app_assoc, H0. cbn [mbind outcome_bind].
  rewrite header_serialize_spec by done. cbn [mbind outcome_bind].
  change (header_front (TCPHeader.set_cksum (TCPHeader.set_cksum h 0) v)) with (header_front h).
  change (header_back (TCPHeader.set_cksum (TCPHeader.set_cksum h 0) v)) with (header_back h).
  change (TCPHeader.cksum (TCPHeader.set_cksum (TCPHeader.set_cksum h 0) v)) with v.
  eexists v, _. split; [done|]. split; [done|].
  rewrite !bufferlist_concatenate_app, bufferlist_of_string;
    [|rewrite !zlen_app, header_front_len, header_back_len, be_encode_length by done; lia].
  unfold BufferList.of_buffer. rewrite bufferlist_concatenate_cons.
  change (BufferList.concatenate []) with (@nil byte). rewrite app_nil_r. simpl app at 1.
  rewrite <- !app_assoc. done.
Qed.

Lemma segment_serialize_wf s init out :
  TCPSegment.ok s -> TCPSegment.serialize s init = Ok out -> BufferList.wf out.
Proof.
  intros (Hh & Hp & Hl). assert (Hd : 5 <= TCPHeader.doff (TCPSegment._header s)) by apply Hh.
  unfold TCPSegment.serialize. rewrite !header_serialize_spec by done. cbn [mbind outcome_bind].
  destruct (InternetChecksum.value _) as [v| | |]; cbn [mbind outcome_bind]; [|done..].
  rewrite header_serialize_spec by done. cbn [mbind outcome_bind]. set (b := header_front _ ++ _).
  assert (Hb : zlen b = 4 * TCPHeader.doff (TCPSegment._header s)).
  { unfold b. rewrite !zlen_app, header_front_len, be_encode_length, header_back_len by done. simpl. lia. }
  clearbody b. intros [= <-]. split.
  - simpl. constructor; [apply buffer_of_string_wf; lia|]. by constructor.
  - change (zlen (BufferList.concatenate [Buffer.of_string b; TCPSegment._payload s]) < two64).
    rewrite bufferlist_concatenate_cons, bufferlist_concatenate_cons, buffer_of_string_str by lia.
    change (BufferList.concatenate []) with (@nil byte). rewrite !zlen_app. simpl. lia.
Qed.

(** Any buffer with the serialized bytes reads back. *)
Lemma segment_reads_back s s0 init :
  TCPSegment.ok s -> 0 <= init < two31 ->
  exists v out, 0 <= v < two16 /\ TCPSegment.serialize s init = Ok out /\
    zlen (BufferList.concatenate out) =
      4 * TCPHeader.doff (TCPSegment.header s) + zlen (Buffer.str (TCPSegment.payload s)) /\
    forall buf, Buffer.wf buf -> Buffer.str buf = BufferList.concatenate out ->
      exists s', TCPSegment.parse s0 buf init = Ok (NoError, s') /\
        TCPSegment.header s' = TCPHeader.set_cksum (TCPSegment.header s) v /\
        Buffer.str (TCPSegment.payload s') = Buffer.str (TCPSegment.payload s).
Proof.
  intros Hs Hinit.
  destruct (segment_serialize_spec s init Hs Hinit) as (v & out & Hv & Hout & Hbytes & Hck).
  destruct Hs as (Hh & Hwf & Hlen). destruct s as [h pl].
  unfold TCPSegment.header, TCPSegment.payload in *.
  cbn [TCPSegment._header TCPSegment._payload] in *.
  set (b := BufferList.concatenate out) in *.
  assert (Hbl : zlen b = 4 * TCPHeader.doff h + zlen (Buffer.str pl)).
  { rewrite Hbytes, !zlen_app, header_front_len, be_encode_length, header_back_len; [lia|apply Hh]. }
  exists v, out. do 3 (split; [done|]). intros buf Hbw Hstr. fold b in Hstr.
  destruct (header_parse_spec buf Hbw) as (r & h' & p & Hparse & Hp & _ & Hh').
  rewrite Hstr in Hp, Hh'.
  assert (Hd : 5 <= TCPHeader.doff h) by apply Hh.
  assert (Hhv : h' = TCPHeader.set_cksum h v).
  { rewrite Hh', Hbytes by lia. apply (header_of_bytes (TCPHeader.set_cksum h v)).
    unfold TCPHeader.ok in *. simpl. tauto. }
  subst h'. simpl in Hp. rewrite data_start_long in Hp by done.
  assert (He := parsed_error _ _ _ Hp). destruct Hp as (_ & _ & Hp).
  revert Hp He. ztests. intros [_ Hrest] He.
  eexists. unfold TCPSegment.parse. rewrite Hstr, Hck.
  cbn [mbind outcome_bind]. simpl negb. cbv iota. rewrite Hparse. cbn [mbind outcome_bind].
  rewrite He. split; [done|]. split; [done|]. simpl. unfold NetParser.rest in Hrest.
  unfold NetParser.buffer. rewrite Hrest, Hbytes, !app_assoc. apply zdrop_app_exact.
  rewrite !zlen_app, header_front_len, be_encode_length, header_back_len by done. lia.
Qed.

(** ** Properties *)

(** C33. Parsing a TCP segment is total and decides every case: on any byte string of at most 65535
    bytes, the most an IPv4 datagram holds, and any pseudo-header sum below [2^31], [parse]
    returns without throwing; it reports [BadChecksum] (and leaves the segment alone) when
    the checksum over the bytes and the pseudo-header is not zero; otherwise the fields are
    those at the header's offsets, [PacketTooShort] is reported exactly when the bytes do
    not cover the fixed header and the options, and the payload is what follows them. A
    data offset below 5 is not reported: the payload then starts at byte 20. *)
Theorem segment_parse_correct (s : TCPSegment.t) (buf : Buffer.t) (init : Z)
  (Hbuf : Buffer.wf buf) (Hinit : 0 <= init < two31)
  (Hlen : zlen (Buffer.str buf) <= 65535) :
  exists r s', TCPSegment.parse s buf init = Ok (r, s') /\
    let b := Buffer.str buf in
    let start := data_start (TCPHeader.doff (TCPSegment.header s')) in
    (r = BadChecksum <->
       InternetChecksum.value (InternetChecksum.add (InternetChecksum.make init) b) <> Ok 0) /\
    (r = BadChecksum -> s' = s) /\
    (r <> BadChecksum -> r = if start <=? zlen b then NoError else PacketTooShort) /\
    (r = NoError ->
       TCPSegment.header s' = header_of b /\
       Buffer.str (TCPSegment.payload s') = zdrop start b).
Proof.
  pose proof (word_sum_bound (Buffer.str buf)) as [Hw _].
  unfold TCPSegment.parse. rewrite checksum_of by lia.
  set (v := 65535 - _). cbn [mbind outcome_bind]. destruct (Z.eqb_spec v 0) as [Hv|Hv]; simpl.
  - destruct (header_parse_spec buf Hbuf) as (r & h & p & -> & Hp & Hd & Hh).
    cbn [mbind outcome_bind]. eexists _, _. split; [done|]. simpl.
    rewrite (parsed_error _ _ _ Hp).
    destruct Hp as (_ & _ & Hp). revert Hp. ztests; intros Hp; rewrite ?Hv;
      (split; [split; [done|by intros []]|]);
      (split; [done|]); (split; [done|]); [|done]. intros _.
    split; [|apply Hp]. apply Hh. revert H. unfold data_start. ztests.
  - eexists _, _. split; [done|]. split; [|done]. split; [|done]. intros _ [=]. done.
Qed.

Lemma segment_parse_correct_witness :
  exists r s', TCPSegment.parse TCPSegment.make (Buffer.of_string [Byte.xff; Byte.xff]) 0 = Ok (r, s') /\
    r = PacketTooShort.
Proof.
  destruct (segment_parse_correct TCPSegment.make (Buffer.of_string [Byte.xff; Byte.xff]) 0)
    as (r & s' & E & _); [vm_compute; intuition congruence|lia|vm_compute; congruence|].
  exists r, s'. split; [exact E|]. vm_compute in E. injection E as <- _. reflexivity.
Defined.

(** C34. Round trip of a segment: serializing a well-formed segment with a pseudo-header sum
    and parsing the bytes with the same sum gives [NoError], the same header (with the
    checksum filled in) and the same payload. *)
Theorem segment_roundtrip (s s0 : TCPSegment.t) (init : Z)
  (Hs : TCPSegment.ok s) (Hinit : 0 <= init < two31) :
  exists v out s', TCPSegment.serialize s init = Ok out /\
    TCPSegment.parse s0 (Buffer.of_string (BufferList.concatenate out)) init = Ok (NoError, s') /\
    TCPSegment.header s' = TCPHeader.set_cksum (TCPSegment.header s) v /\
    Buffer.str (TCPSegment.payload s') = Buffer.str (TCPSegment.payload s).
Proof.
  destruct (segment_reads_back s s0 init Hs Hinit) as (v & out & Hv & Hout & Hlen & Hread).
  destruct Hs as (_ & _ & Hfit). change (TCPSegment._header s) with (TCPSegment.header s) in Hfit.
  change (TCPSegment._payload s) with (TCPSegment.payload s) in Hfit.
  destruct (Hread (Buffer.of_string (BufferList.concatenate out))) as (s' & Hp & Hh & Hpl);
    [apply buffer_of_string_wf; lia|apply buffer_of_string_str; lia|].
  by exists v, out, s'.
Qed.

(** A SYN carrying two bytes. *)
Definition syn_segment : TCPSegment.t :=
  TCPSegment.mk (TCPHeader.set_syn TCPHeader.make true)
    (Buffer.of_string [Byte.x68; Byte.x69]).

Lemma segment_roundtrip_witness :
  exists v out s', TCPSegment.serialize syn_segment 11 = Ok out /\
    TCPSegment.parse TCPSegment.make (Buffer.of_string (BufferList.concatenate out)) 11
      = Ok (NoError, s') /\
    TCPSegment.header s' = TCPHeader.set_cksum (TCPSegment.header syn_segment) v /\
    Buffer.str (TCPSegment.payload s') = [Byte.x68; Byte.x69].
Proof.
  apply (segment_roundtrip syn_segment TCPSegment.make 11); [|lia].
  unfold TCPSegment.ok, TCPHeader.ok, WrappingInt32.ok. vm_compute. intuition congruence.
Defined.
