(* ===== verification/Receiver.v ===== *)
(** * Receiver.v: the receiving half of a connection

    Models [libsponge/tcp_receiver.hh] and [libsponge/tcp_receiver.cc]: [TCPReceiver] turns
    inbound segments into pushes to its [StreamReassembler] and computes the
    acknowledgment number and the window to advertise. *)

From S2P Require Import Prelude Wrapping Streams Reassembler Buffers TcpWire.

Module TCPReceiver.

Record t := mk {
  capacity_ : Z;
  reassembler_ : StreamReassembler.t;
  isn_ : WrappingInt32.t;
  ackno_ : Z;
  has_isn_ : bool;
  has_fin_ : bool;
  sent_fin_ : bool
}.

Definition make (capacity : Z) : outcome t :=
  r ← StreamReassembler.make capacity;
  Ok (mk capacity r (WrappingInt32.mk 0) 1 false false false).

Definition stream_out (r : t) : ByteStream.t := StreamReassembler.stream_out (reassembler_ r).

(** Writing back the stream a client got by reference from [stream_out()]. *)
Definition set_stream_out (r : t) (out : ByteStream.t) : t :=
  mk (capacity_ r) (StreamReassembler.set_stream_out (reassembler_ r) out) (isn_ r) (ackno_ r)
    (has_isn_ r) (has_fin_ r) (sent_fin_ r).

Definition segment_received (r : t) (seg : TCPSegment.t) : outcome t :=
  let header := TCPSegment.header seg in
  let payload := TCPSegment.payload seg in
  let isn := if TCPHeader.syn header then TCPHeader.seqno header else isn_ r in
  let has_isn := if TCPHeader.syn header then true else has_isn_ r in
  if negb has_isn then Ok r
  else
    let has_fin := if TCPHeader.fin header && negb (sent_fin_ r) then true else has_fin_ r in
    let start :=
      if TCPHeader.syn header
      then unwrap (WrappingInt32.add (TCPHeader.seqno header) 1) isn (ackno_ r)
      else unwrap (TCPHeader.seqno header) isn (ackno_ r) in
    let before_assemble := ByteStream.buffer_size (stream_out r) in
    reas ← StreamReassembler.push_substring (reassembler_ r) (Buffer.copy payload)
             (u64 (start - 1)) (TCPHeader.fin header);
    let out := StreamReassembler.stream_out reas in
    let ackno := u64 (ackno_ r + u64 (ByteStream.buffer_size out - before_assemble)) in
    if has_fin && negb (sent_fin_ r) && ByteStream.input_ended out
    then Ok (mk (capacity_ r) reas isn (u64 (ackno + 1)) has_isn has_fin true)
    else Ok (mk (capacity_ r) reas isn ackno has_isn has_fin (sent_fin_ r)).

Definition ackno (r : t) : option WrappingInt32.t :=
  if has_isn_ r then Some (wrap (ackno_ r) (isn_ r)) else None.

Definition window_size (r : t) : Z :=
  u64 (capacity_ r - ByteStream.buffer_size (stream_out r)).

Definition unassembled_bytes (r : t) : Z := StreamReassembler.unassembled_bytes (reassembler_ r).

(** How many bytes have been put in order, and whether the FIN has been passed. *)
Definition assembled (r : t) : Z := StreamReassembler.next_ (reassembler_ r).
Definition fin_count (r : t) : Z := if sent_fin_ r then 1 else 0.

End TCPReceiver.

(** ** Invariant

    [P] and [E] say which bytes and which end the peer's stream admits, as in the
    reassembler's invariant. *)

Section receiver_inv.

Import TCPReceiver.

Variable P : Z -> byte -> Prop.
Variable E : Z -> Prop.

Record rc_wf (r : t) : Prop := {
  rc_reassembler : sr_wf P E (reassembler_ r);
  rc_capacity : capacity_ r = StreamReassembler.capacity_ (reassembler_ r);
  rc_ackno : ackno_ r = 1 + assembled r + fin_count r;
  rc_isn : WrappingInt32.ok (isn_ r);
  rc_ended : sent_fin_ r = true <-> ByteStream.input_ended (stream_out r) = true;
  rc_fin : StreamReassembler.eof_ (reassembler_ r) = true \/ sent_fin_ r = true -> has_fin_ r = true
}.

(** The stream index of a segment's first byte. *)
Definition seg_index (r : t) (seg : TCPSegment.t) : Z :=
  let h := TCPSegment.header seg in
  let isn := if TCPHeader.syn h then TCPHeader.seqno h else isn_ r in
  u64 (unwrap (if TCPHeader.syn h then WrappingInt32.add (TCPHeader.seqno h) 1
               else TCPHeader.seqno h) isn (ackno_ r) - 1).

(** Whether the receiver knows the peer's initial sequence number after the segment. *)
Definition synced (r : t) (seg : TCPSegment.t) : bool :=
  TCPHeader.syn (TCPSegment.header seg) || has_isn_ r.

Lemma unsynced_received r seg : synced r seg = false -> segment_received r seg = Ok r.
Proof.
  unfold synced, segment_received. destruct (TCPHeader.syn _), (has_isn_ r); done.
Qed.

(** A segment after synchronisation, given what its push does. *)
Lemma received_spec r seg :
  let h := TCPSegment.header seg in
  let data := Buffer.str (TCPSegment.payload seg) in
  let index := seg_index r seg in
  rc_wf r -> synced r seg = true -> WrappingInt32.ok (TCPHeader.seqno h) ->
  bytes_ok P index data ->
  (TCPHeader.fin h = true -> E (u64 (index + zlen data))) ->
  assembled r + capacity_ r + zlen data + 2 < two64 ->
  exists r' d, segment_received r seg = Ok r' /\ rc_wf r' /\
    StreamReassembler.push_substring (reassembler_ r) data index (TCPHeader.fin h)
      = Ok (reassembler_ r') /\
    capacity_ r' = capacity_ r /\ has_isn_ r' = true /\
    isn_ r' = (if TCPHeader.syn h then TCPHeader.seqno h else isn_ r) /\
    assembled r' = assembled r + zlen d /\
    ByteStream.contents (stream_out r') = ByteStream.contents (stream_out r) ++ d /\
    ackno_ r <= ackno_ r' /\ (sent_fin_ r = true -> sent_fin_ r' = true) /\
    StreamReassembler.eof_ (reassembler_ r') =
      StreamReassembler.eof_ (reassembler_ r) || TCPHeader.fin h /\
    (ByteStream.input_ended (stream_out r') = true ->
     ByteStream.input_ended (stream_out r) = true \/
     StreamReassembler.eof_ (reassembler_ r') = true).
Proof.
  intros h data index [Hsr Hcap Hack Hisn Hend Hfin] Hsync Hseq Hdata HE Hfit.
  pose proof Hsr as [[Hout Hcap' Hn _ _ _ _ _ _] _ _ _]. pose proof (bs_bounds _ Hout).
  unfold assembled, fin_count in *.
  assert (Hidx : 0 <= index < two64) by apply u64_range.
  destruct (sr_push_spec P E (reassembler_ r) data index (TCPHeader.fin h) Hsr Hidx Hdata HE)
    as (s' & d & Hp & Hsr' & Hc' & Hn' & Hct & _ & Heof & _ & Hin & _); [lia|].
  pose proof Hsr' as [[Hout' Hcap2 Hn2 _ _ _ _ _ _] _ _ _]. pose proof (bs_bounds _ Hout').
  assert (Hd : zlen d <= capacity_ r).
  { rewrite Hct, zlen_app in *. lia. }
  unfold segment_received, Buffer.copy. fold h data.
  assert (Hhi : (if TCPHeader.syn h then true else has_isn_ r) = true)
    by (unfold synced in Hsync; fold h in Hsync; by destruct (TCPHeader.syn h)).
  rewrite Hhi. simpl negb. cbv iota.
  replace (if TCPHeader.syn h then unwrap _ _ _ else _) with
    (unwrap (if TCPHeader.syn h then WrappingInt32.add (TCPHeader.seqno h) 1 else TCPHeader.seqno h)
       (if TCPHeader.syn h then TCPHeader.seqno h else isn_ r) (ackno_ r))
    by (by destruct (TCPHeader.syn h)).
  change (u64 (unwrap _ _ _ - 1)) with index. rewrite Hp. cbn [mbind outcome_bind].
  unfold stream_out, StreamReassembler.stream_out in *.
  rewrite !bs_buffer_size, Hct, zlen_app by done.
  replace (zlen _ + zlen d - zlen _) with (zlen d) by lia. rewrite (u64_small (zlen d)) by lia.
  rewrite Hack.
  assert (Hb : 0 <= (if sent_fin_ r then 1 else 0) <= 1) by (destruct (sent_fin_ r); lia).
  rewrite (u64_small (1 + _ + _ + zlen d)) by lia.
  set (has_fin := if TCPHeader.fin h && negb (sent_fin_ r) then true else has_fin_ r).
  assert (Hok : WrappingInt32.ok (if TCPHeader.syn h then TCPHeader.seqno h else isn_ r))
    by (by destruct (TCPHeader.syn h)).
  assert (Hend' : ByteStream.input_ended (StreamReassembler.output_ s') = true ->
    ByteStream.input_ended (StreamReassembler.output_ (reassembler_ r)) = true \/
    StreamReassembler.eof_ s' = true).
  { rewrite Hin. intros [?|[? _]%andb_prop]%orb_prop; auto. }
  assert (Hmark : StreamReassembler.eof_ s' = true \/ sent_fin_ r = true -> has_fin = true).
  { rewrite Heof. unfold has_fin. destruct (sent_fin_ r); [rewrite andb_false_r; auto|].
    destruct (TCPHeader.fin h); simpl; auto. rewrite orb_false_r. auto. }
  destruct (has_fin && negb (sent_fin_ r) && ByteStream.input_ended (StreamReassembler.output_ s'))
    eqn:Ef.
  - apply andb_prop in Ef as [[Ef1 Ef2]%andb_prop Ef3]. apply negb_true_iff in Ef2.
    rewrite Ef2 in *. rewrite u64_small by lia.
    eexists _, d. split; [done|]. simpl. split; [|split_and!; try done; lia].
    split; simpl; unfold assembled, fin_count; simpl; try done; try lia; try congruence.
  - eexists _, d. split; [done|]. simpl. split; [|split_and!; try done; lia].
    split; simpl; unfold assembled, fin_count; simpl; try done; try lia; try congruence.
    unfold stream_out, StreamReassembler.stream_out in *; simpl. split.
    + intros Hs. apply Hend in Hs. by rewrite Hin, Hs.
    + intros Hi'. destruct (sent_fin_ r); [done|]. rewrite Hi', !andb_true_r in Ef.
      rewrite Hin in Hi'. apply orb_prop in Hi' as [Hi'|Hi']; [by apply Hend|].
      apply andb_prop in Hi' as [Hi' _]. rewrite Hmark in Ef by auto. done.
Qed.

Lemma rc_make_spec k :
  0 < k <= string_max_size ->
  exists r, make k = Ok r /\ rc_wf r /\ capacity_ r = k /\ assembled r = 0 /\
    has_isn_ r = false /\ sent_fin_ r = false /\ ByteStream.contents (stream_out r) = [].
Proof.
  intros Hk. unfold make.
  destruct (sr_make_spec P E k Hk) as (s & -> & Hwf & Hc & Hn & Hd & Hct & Hie & Her & He).
  simpl. eexists. split; [done|]. simpl. split; [|done].
  split; simpl; try done; unfold stream_out, assembled, fin_count, StreamReassembler.stream_out;
    simpl; rewrite ?Hn, ?Hie, ?He; try done. by intros [].
Qed.

(** Reading from the inbound stream keeps the invariant. *)
Lemma rc_pop_spec r n :
  rc_wf r -> 0 <= n <= zlen (ByteStream.contents (stream_out r)) ->
  assembled r + capacity_ r < two64 ->
  exists out, ByteStream.read (stream_out r) n
      = Ok (out, ztake n (ByteStream.contents (stream_out r))) /\
    rc_wf (set_stream_out r out) /\
    ByteStream.contents out = zdrop n (ByteStream.contents (stream_out r)).
Proof.
  intros [Hsr Hcap Hack Hisn Hend Hfin] Hn Hfit.
  pose proof Hsr as [[Hout _ _ _ _ _ _ _ _] _ _ _].
  destruct (sr_pop_spec P E (reassembler_ r) n Hsr) as (out & Hp & Hwf & Hc);
    [done|unfold assembled in *; lia|].
  unfold stream_out, StreamReassembler.stream_out in *.
  unfold ByteStream.read. rewrite bs_peek_spec by done. simpl. rewrite Hp. simpl.
  exists out. split; [done|]. split; [|done].
  destruct (bs_pop_spec _ n Hout Hn) as (out2 & Hp2 & _ & _ & _ & _ & _ & _ & Hin).
  rewrite Hp in Hp2. injection Hp2 as <-.
  split; simpl; try done. unfold stream_out; simpl. by rewrite Hin.
Qed.

(** Flagging an error on the inbound stream keeps it too. *)
Lemma rc_set_error r :
  rc_wf r -> rc_wf (set_stream_out r (ByteStream.set_error (stream_out r))).
Proof.
  intros [[[Hout ? ? ? ? ? ? ? ?] ? ? ?] ? ? ? ? ?]. split; try done. split; try done.
  split; try done. by apply bs_set_error_wf.
Qed.

(** The window never exceeds the capacity, and the buffers never hold more than it. *)
Lemma rc_window r :
  rc_wf r ->
  window_size r = capacity_ r - zlen (ByteStream.contents (stream_out r)) /\
  0 <= window_size r <= capacity_ r /\
  unassembled_bytes r + ByteStream.buffer_size (stream_out r) <= capacity_ r.
Proof.
  intros [Hsr Hcap _ _ _ _]. pose proof Hsr as [Hcore _ _ _].
  pose proof (sr_capacity_bound P _ Hcore) as Hb.
  destruct Hcore as [Hout Hcap' _ _ _ _ _ _ _]. pose proof (bs_bounds _ Hout).
  unfold window_size, unassembled_bytes, stream_out, StreamReassembler.unassembled_bytes,
    StreamReassembler.stream_out in *.
  rewrite bs_buffer_size by done. rewrite u64_small by lia. lia.
Qed.

End receiver_inv.

(** ** A receiver fed from one stream *)

Section one_stream.

Import TCPReceiver.

Variable S : list byte.
Variable isn : WrappingInt32.t.

(** Segment number [n] (its absolute sequence number) of the connection that sends [S]
    from [isn]: a SYN comes first, and its payload is the part of [S] that belongs
    there, with FIN only at the end; a segment without payload and FIN carries nothing. *)
Record carries (n : Z) (seg : TCPSegment.t) : Prop := {
  carries_seqno : TCPHeader.seqno (TCPSegment.header seg) = wrap n isn;
  carries_syn : TCPHeader.syn (TCPSegment.header seg) = true -> n = 0;
  carries_data :
    (Buffer.str (TCPSegment.payload seg) = [] /\ TCPHeader.fin (TCPSegment.header seg) = false) \/
    substring_of S (Buffer.str (TCPSegment.payload seg))
      (n + (if TCPHeader.syn (TCPSegment.header seg) then 1 else 0) - 1)
      (TCPHeader.fin (TCPSegment.header seg))
}.

(** A receiver that has only seen segments of this connection. *)
Record rc_tracks (r : t) : Prop := {
  rt_wf : rc_wf (from_stream S) (at_end S) r;
  rt_isn : has_isn_ r = true -> isn_ r = isn;
  rt_ok : WrappingInt32.ok isn;
  rt_next : assembled r <= zlen S;
  rt_fits : zlen S + capacity_ r + zlen S + 2 < two64
}.

Lemma rt_tracks r : rc_tracks r -> tracks S (reassembler_ r).
Proof.
  intros [[Hsr Hcap _ _ _ _] _ _ Hn Hf]. split; [done|done|].
  unfold assembled in *. rewrite <- Hcap. lia.
Qed.

(** The first byte a tracking reassembler does not know is the one at [next_]. *)
Lemma next_unknown s : tracks S s -> ~ StreamReassembler.known s (StreamReassembler.next_ s).
Proof.
  intros [[[_ _ _ _ Hso _ _ _ _] _ _ _] _ _] [?|Hc]; [lia|].
  pose proof (sorted_covers _ _ _ _ _ Hso Hc). lia.
Qed.

(** Bytes just written belong to the stream, so they end inside it. *)
Lemma sr_next_le s c d :
  sr_wf (from_stream S) (at_end S) s ->
  ByteStream.contents (StreamReassembler.output_ s) = c ++ d -> 0 < zlen d ->
  StreamReassembler.next_ s <= zlen S.
Proof.
  intros [[_ _ _ _ _ _ _ _ Hb] _ _ _] Hc Hd.
  destruct (zget_is_Some (ByteStream.contents (StreamReassembler.output_ s))
    (zlen (ByteStream.contents (StreamReassembler.output_ s)) - 1)) as [x Hx].
  { rewrite Hc, zlen_app. lia. }
  apply Hb, zget_Some_range in Hx. lia.
Qed.

(** The sequence number of a carried segment unwraps to its absolute number. *)
Lemma carried_index r n seg :
  let n' := n + (if TCPHeader.syn (TCPSegment.header seg) then 1 else 0) in
  rc_tracks r -> carries n seg -> synced r seg = true ->
  1 <= n' < two64 -> - two31 < n' - ackno_ r <= two31 ->
  seg_index r seg = n' - 1.
Proof.
  intros n' [[Hsr Hcap Hack Hisn _ _] Hi Hok Hn Hf] [Hseq Hsyn _] Hs Hn' Hnear.
  pose proof Hsr as [[_ _ Hnx _ _ _ _ _ _] _ _ _].
  assert (Ha : 0 <= ackno_ r < two64).
  { unfold assembled, fin_count in *. rewrite Hack. pose proof (zlen_nonneg S).
    assert (0 < capacity_ r). { rewrite Hcap. destruct Hsr as [[Ho Hc _ _ _ _ _ _ _] _ _ _].
      rewrite Hc. apply (bs_bounds _ Ho). }
    destruct (sent_fin_ r); lia. }
  unfold seg_index. unfold n' in *. destruct (TCPHeader.syn (TCPSegment.header seg)) eqn:Es.
  - rewrite (Hsyn eq_refl) in *. rewrite Hseq, wrap_add.
    rewrite wrap_0, unwrap_wrap_near by (done || lia). by rewrite u64_small by lia.
  - unfold synced in Hs. rewrite Es in Hs. simpl in Hs. rewrite (Hi Hs), Hseq.
    rewrite unwrap_wrap_near by (done || lia). rewrite u64_small; lia.
Qed.

(** Everything one segment of the connection does to the receiver. *)
Lemma carried_received r n seg :
  let h := TCPSegment.header seg in
  let n' := n + (if TCPHeader.syn h then 1 else 0) in
  let data := Buffer.str (TCPSegment.payload seg) in
  rc_tracks r -> carries n seg ->
  (data <> [] \/ TCPHeader.fin h = true ->
   1 <= n' < two64 /\ - two31 < n' - ackno_ r <= two31) ->
  exists r' d, segment_received r seg = Ok r' /\ rc_tracks r' /\
    capacity_ r' = capacity_ r /\ has_isn_ r' = synced r seg /\
    assembled r' = assembled r + zlen d /\ ackno_ r <= ackno_ r' /\
    ByteStream.contents (stream_out r') = ByteStream.contents (stream_out r) ++ d /\
    (StreamReassembler.eof_ (reassembler_ r') = true \/
     ByteStream.input_ended (stream_out r') = true ->
     StreamReassembler.eof_ (reassembler_ r) = true \/
     ByteStream.input_ended (stream_out r) = true \/ TCPHeader.fin h = true) /\
    (synced r seg = true -> data <> [] \/ TCPHeader.fin h = true ->
     (n' - 1 <= assembled r ->
      Z.min (n' - 1 + zlen data) (assembled r + window_size r) <= assembled r') /\
     (TCPHeader.fin h = true -> assembled r' = zlen S -> sent_fin_ r' = true)).
Proof.
  intros h n' data Ht Hc Hnear. destruct (synced r seg) eqn:Hs; cycle 1.
  { exists r, []. rewrite unsynced_received by done. split; [done|]. split; [done|].
    rewrite app_nil_r. unfold synced in Hs. apply orb_false_iff in Hs as [_ ->].
    split_and!; try done; simpl; try lia. intros [?|?]; auto. }
  pose proof Ht as [Hwf Hi Hok Hn Hf].
  assert (Hseqok : WrappingInt32.ok (TCPHeader.seqno h)) 
    by (unfold h; rewrite (carries_seqno _ _ Hc); apply wrap_ok).
  pose proof Hwf as [Hsr Hcap Hack _ _ _].
  destruct (rc_window _ _ r Hwf) as (Hw & Hw0 & _).
  assert (Hcarry : (data = [] /\ TCPHeader.fin h = false) \/
    (substring_of S data (n' - 1) (TCPHeader.fin h) /\ (data <> [] \/ TCPHeader.fin h = true))).
  { destruct (carries_data _ _ Hc) as [?|Hsub]; [by left|]. fold h data n' in Hsub.
    destruct data, (TCPHeader.fin h); auto; right; (split; [exact Hsub|]); auto. }
  assert (Hidx : data <> [] \/ TCPHeader.fin h = true -> seg_index r seg = n' - 1).
  { intros Hd. destruct (Hnear Hd). by apply carried_index. }
  assert (Hlen : zlen data <= zlen S).
  { destruct Hcarry as [[-> _]|[(? & ? & _) _]]; [simpl|]; lia. }
  destruct (received_spec (from_stream S) (at_end S) r seg Hwf Hs Hseqok)
    as (r' & d & Hr & Hwf' & Hp & Hcap' & Hhas & Hisn' & Hn' & Hct & Hmono & _ & Heof & Hended).
  { fold data. destruct Hcarry as [[-> _]|[Hsub Hd]]; [by intros k c []%zget_nil_Some|].
    rewrite Hidx by done. by eapply substring_bytes. }
  { fold h data. intros Hfin. destruct Hcarry as [[_ ?]|[Hsub Hd]]; [congruence|].
    rewrite Hidx by done. destruct Hsub as (? & ? & _ & He). unfold at_end.
    rewrite u64_small by lia. auto. }
  { fold data. unfold assembled in *. lia. }
  fold h data in Hp.
  assert (Ht' : rc_tracks r').
  { split; [done| |done| |lia].
    - intros _. rewrite Hisn'. fold h. destruct (TCPHeader.syn h) eqn:Es.
      + unfold h. rewrite (carries_seqno _ _ Hc).
        assert (n = 0) as -> by (by apply (carries_syn _ _ Hc)). by apply wrap_0.
      + apply Hi. unfold synced in Hs. fold h in Hs. by rewrite Es in Hs.
    - destruct (decide (zlen d = 0)); [lia|]. unfold assembled in *.
      eapply sr_next_le; [apply Hwf'|exact Hct|lia]. }
  exists r', d. split; [done|]. split; [done|]. split; [done|]. split; [done|].
  split; [done|]. split; [done|]. split; [done|].
  split. { rewrite Heof in *. intros [[?|?]%orb_prop|[?|[?|?]%orb_prop]%Hended]; auto. }
  intros _ Hd.
  destruct Hcarry as [[Hnil Hf']|[Hsub _]]; [rewrite Hnil, Hf' in Hd; by destruct Hd|].
  rewrite Hidx in Hp by done.
  destruct (tracks_push S _ _ _ _ (rt_tracks r Ht) Hsub) as (s' & Hp2 & _ & _ & _ & Hend & Hk).
  rewrite Hp in Hp2. injection Hp2 as <-. split.
  - intros Hle. apply Z.nlt_ge. intros Hlt. apply (next_unknown _ (rt_tracks r' Ht')).
    apply Hk. right. 
    unfold assembled, stream_out, StreamReassembler.stream_out in *. rewrite Hcap in Hw. lia.
  - intros Hfin Hall. destruct Hwf' as [_ _ _ _ Hfinal _]. apply Hfinal.
    unfold stream_out, StreamReassembler.stream_out. apply Hend. right. unfold assembled in Hall. auto.
Qed.

End one_stream.

(** ** Properties *)

(** C10. Whatever segment arrives, genuine or not, the receiver accepts it without throwing
    and stays well formed: its acknowledgment number is always one past the SYN, the bytes
    put in order and (once passed) the FIN, it never goes back, the advertised window is the
    free part of the stream's capacity, and the bytes held in both buffers never exceed
    that capacity; before a SYN nothing is accepted and nothing acknowledged. *)
Theorem receiver_any_segment (r : TCPReceiver.t) (seg : TCPSegment.t)
  (Hr : rc_wf (fun _ _ => True) (fun _ => True) r)
  (Hseq : WrappingInt32.ok (TCPHeader.seqno (TCPSegment.header seg)))
  (Hfit : TCPReceiver.assembled r + TCPReceiver.capacity_ r
          + zlen (Buffer.str (TCPSegment.payload seg)) + 2 < two64) :
  exists r', TCPReceiver.segment_received r seg = Ok r' /\
    rc_wf (fun _ _ => True) (fun _ => True) r' /\
    TCPReceiver.ackno r' =
      (if synced r seg
       then Some (wrap (1 + TCPReceiver.assembled r' + TCPReceiver.fin_count r') (TCPReceiver.isn_ r'))
       else None) /\
    TCPReceiver.ackno_ r <= TCPReceiver.ackno_ r' /\
    TCPReceiver.window_size r' =
      TCPReceiver.capacity_ r - ByteStream.buffer_size (TCPReceiver.stream_out r') /\
    TCPReceiver.unassembled_bytes r' + ByteStream.buffer_size (TCPReceiver.stream_out r')
      <= TCPReceiver.capacity_ r /\
    (synced r seg = false -> r' = r).
Proof.
  destruct (synced r seg) eqn:Hs.
  - destruct (received_spec _ _ r seg Hr Hs Hseq) as
      (r' & d & Hrecv & Hr' & _ & Hcap & Hhas & _ & _ & _ & Hmono & _); [done|done|done|].
    exists r'. destruct (rc_window _ _ r' Hr') as (Hw & _ & Hb).
    unfold TCPReceiver.ackno. rewrite Hhas, (rc_ackno _ _ _ Hr'), <- Hcap.
    rewrite <- bs_buffer_size in Hw by apply Hr'. split_and!; try done.
    by rewrite <- (rc_ackno _ _ _ Hr').
  - exists r. rewrite unsynced_received by done.
    destruct (rc_window _ _ r Hr) as (Hw & _ & Hb).
    rewrite <- bs_buffer_size in Hw by apply Hr.
    unfold TCPReceiver.ackno, synced in *. apply orb_false_iff in Hs as [_ ->].
    split_and!; try done.
Qed.

(** A receiver of capacity 8, freshly made. *)
Definition fresh_receiver (k : Z) : TCPReceiver.t :=
  TCPReceiver.mk k (fresh_reassembler k) (WrappingInt32.mk 0) 1 false false false.

Lemma fresh_receiver_wf P E k :
  0 < k <= string_max_size ->
  TCPReceiver.make k = Ok (fresh_receiver k) /\ rc_wf P E (fresh_receiver k).
Proof.
  intros Hk. destruct (rc_make_spec P E k Hk) as (r & Hm & Hwf & _).
  assert (Hr : r = fresh_receiver k).
  { unfold TCPReceiver.make in Hm. unfold fresh_receiver, fresh_reassembler.
    destruct (StreamReassembler.make k); simpl in Hm; try done. by injection Hm. }
  subst r. done.
Qed.

Lemma receiver_any_segment_witness :
  exists r', TCPReceiver.segment_received (fresh_receiver 8) syn_segment = Ok r' /\
    rc_wf (fun _ _ => True) (fun _ => True) r' /\
    TCPReceiver.ackno r' =
      Some (wrap (1 + TCPReceiver.assembled r' + TCPReceiver.fin_count r') (TCPReceiver.isn_ r')).
Proof.
  destruct (receiver_any_segment (fresh_receiver 8) syn_segment) as (r' & H1 & H2 & H3 & _).
  - apply fresh_receiver_wf. unfold string_max_size. lia.
  - unfold WrappingInt32.ok. simpl. lia.
  - vm_compute. congruence.
  - exists r'. auto.
Defined.

(** C9. A receiver fed segments of one connection delivers the peer's stream: given a
    segment of the connection that sends [S] (with any numbering that is less than [2^31]
    from the receiver's position), [segment_received] succeeds; what the application has
    read plus what waits to be read is again exactly a prefix of [S]; the acknowledgment
    number is that prefix's length plus one for the SYN and one for the FIN, the FIN being
    passed only when all of [S] is in; and a segment that starts at or before the first
    missing byte moves that point to the segment's end or the end of the window. *)
Theorem receiver_delivers_stream (S : list byte) (isn : WrappingInt32.t)
  (r : TCPReceiver.t) (n : Z) (seg : TCPSegment.t)
  (Hr : rc_tracks S isn r) (Hc : carries S isn n seg) :
  let h := TCPSegment.header seg in
  let n' := n + (if TCPHeader.syn h then 1 else 0) in
  let data := Buffer.str (TCPSegment.payload seg) in
  (data <> [] \/ TCPHeader.fin h = true ->
   1 <= n' < two64 /\ - two31 < n' - TCPReceiver.ackno_ r <= two31) ->
  exists r', TCPReceiver.segment_received r seg = Ok r' /\ rc_tracks S isn r' /\
    (let got := ByteStream.contents (TCPReceiver.stream_out r') in
     ztake (TCPReceiver.assembled r' - zlen got) S ++ got = ztake (TCPReceiver.assembled r') S) /\
    (synced r seg = true ->
     TCPReceiver.ackno r' =
       Some (wrap (1 + TCPReceiver.assembled r' + TCPReceiver.fin_count r') isn)) /\
    (TCPReceiver.sent_fin_ r' = true -> TCPReceiver.assembled r' = zlen S) /\
    (synced r seg = true -> data <> [] \/ TCPHeader.fin h = true ->
     (n' - 1 <= TCPReceiver.assembled r ->
      Z.min (n' - 1 + zlen data) (TCPReceiver.assembled r + TCPReceiver.window_size r)
        <= TCPReceiver.assembled r') /\
     (TCPHeader.fin h = true -> TCPReceiver.assembled r' = zlen S ->
      TCPReceiver.sent_fin_ r' = true)).
Proof.
  intros h n' data Hnear.
  destruct (carried_received S isn r n seg Hr Hc Hnear) as
    (r' & d & Hrecv & Ht & _ & Hhas & _ & _ & _ & _ & Hprog).
  exists r'. split; [done|]. split; [done|].
  split; [apply (tracks_prefix S), (rt_tracks _ _ _ Ht)|].
  pose proof Ht as [Hwf Hi _ Hle _]. split; [|split; [|done]].
  - intros Hs. rewrite Hs in Hhas. unfold TCPReceiver.ackno.
    rewrite Hhas, (rc_ackno _ _ _ Hwf), (Hi Hhas). done.
  - intros [n0 [He Hn0]]%(rc_ended _ _ _ Hwf)%(sr_ended _ _ _ (rc_reassembler _ _ _ Hwf)).
    unfold at_end in He. unfold TCPReceiver.assembled in *. lia.
Qed.

Lemma receiver_delivers_stream_witness :
  exists r', TCPReceiver.segment_received (fresh_receiver 8) syn_segment = Ok r' /\
    rc_tracks [Byte.x68; Byte.x69] (WrappingInt32.mk 0) r' /\
    TCPReceiver.ackno r' =
      Some (wrap (1 + TCPReceiver.assembled r' + TCPReceiver.fin_count r') (WrappingInt32.mk 0)).
Proof.
  destruct (receiver_delivers_stream [Byte.x68; Byte.x69] (WrappingInt32.mk 0)
    (fresh_receiver 8) 0 syn_segment) as (r' & H1 & H2 & _ & H3 & _).
  - split; [apply fresh_receiver_wf; unfold string_max_size; lia|done| |vm_compute; congruence|].
    + unfold WrappingInt32.ok. simpl. lia.
    + vm_compute. reflexivity.
  - split; [reflexivity|reflexivity|]. right. split; [vm_compute; congruence|].
    split; [vm_compute; congruence|]. split; [reflexivity|]. vm_compute. congruence.
  - intros _. vm_compute. intuition congruence.
  - exists r'. auto.
Defined.
