(* ===== verification/Sender.v ===== *)
(** * Sender.v: the sending half of a connection

    Models [libsponge/tcp_sender.hh], [libsponge/tcp_sender.cc] and the constants of
    [libsponge/tcp_helpers/tcp_config.hh]: [TCPSender] cuts the outbound stream into
    segments that fit the peer's window, keeps them until they are acknowledged and
    retransmits the oldest one when its timer expires. *)

From S2P Require Import Prelude Wrapping Streams Reassembler Buffers TcpWire Receiver.

(** ** TCPConfig *)

Module TCPConfig.

Definition DEFAULT_CAPACITY : Z := 64000.
Definition MAX_PAYLOAD_SIZE : Z := 1000.
Definition TIMEOUT_DFLT : Z := 1000.
Definition MAX_RETX_ATTEMPTS : Z := 8.

Record t := mk {
  rt_timeout : Z;
  recv_capacity : Z;
  send_capacity : Z;
  fixed_isn : option WrappingInt32.t
}.

Definition make : t := mk TIMEOUT_DFLT DEFAULT_CAPACITY DEFAULT_CAPACITY None.

End TCPConfig.

(** ** RetransmissionTimer *)

Module RetransmissionTimer.

Record t := mk {
  initial_rto_ : Z;
  rto_ : Z;
  time_waitied_ : Z;
  running_ : bool
}.

Definition make (initial_rto : Z) : t := mk initial_rto 0 0 false.

Definition running (m : t) : bool := running_ m.
Definition expire (m : t) : bool := running_ m && (rto_ m <=? time_waitied_ m).
Definition reset (m : t) : t := mk (initial_rto_ m) (initial_rto_ m) (time_waitied_ m) (running_ m).
Definition twice (m : t) : t := mk (initial_rto_ m) (u64 (rto_ m * 2)) (time_waitied_ m) (running_ m).
Definition start (m : t) : t := mk (initial_rto_ m) (rto_ m) 0 true.
Definition stop (m : t) : t := mk (initial_rto_ m) (rto_ m) (time_waitied_ m) false.
Definition tick (m : t) (ms : Z) : t :=
  mk (initial_rto_ m) (rto_ m) (u64 (time_waitied_ m + ms)) (running_ m).

End RetransmissionTimer.

(** ** TCPSender *)

Module TCPSender.

Record t := mk {
  isn_ : WrappingInt32.t;
  segments_out_ : list TCPSegment.t;
  buffer_ : list (Z * TCPSegment.t);
  timer_ : RetransmissionTimer.t;
  consecutive_retransmissions_ : Z;
  stream_ : ByteStream.t;
  next_seqno_ : Z;
  seqno_acked_ : Z;
  window_size_ : Z;
  sent_fin_ : bool
}.

(** Assignments to the fields. *)
Definition set_segments_out (s : t) v : t :=
  mk (isn_ s) v (buffer_ s) (timer_ s) (consecutive_retransmissions_ s) (stream_ s)
    (next_seqno_ s) (seqno_acked_ s) (window_size_ s) (sent_fin_ s).
Definition set_buffer (s : t) v : t :=
  mk (isn_ s) (segments_out_ s) v (timer_ s) (consecutive_retransmissions_ s) (stream_ s)
    (next_seqno_ s) (seqno_acked_ s) (window_size_ s) (sent_fin_ s).
Definition set_timer (s : t) v : t :=
  mk (isn_ s) (segments_out_ s) (buffer_ s) v (consecutive_retransmissions_ s) (stream_ s)
    (next_seqno_ s) (seqno_acked_ s) (window_size_ s) (sent_fin_ s).
Definition set_consecutive (s : t) v : t :=
  mk (isn_ s) (segments_out_ s) (buffer_ s) (timer_ s) v (stream_ s)
    (next_seqno_ s) (seqno_acked_ s) (window_size_ s) (sent_fin_ s).
Definition set_stream_in (s : t) v : t :=
  mk (isn_ s) (segments_out_ s) (buffer_ s) (timer_ s) (consecutive_retransmissions_ s) v
    (next_seqno_ s) (seqno_acked_ s) (window_size_ s) (sent_fin_ s).
Definition set_next_seqno (s : t) v : t :=
  mk (isn_ s) (segments_out_ s) (buffer_ s) (timer_ s) (consecutive_retransmissions_ s) (stream_ s)
    v (seqno_acked_ s) (window_size_ s) (sent_fin_ s).
Definition set_seqno_acked (s : t) v : t :=
  mk (isn_ s) (segments_out_ s) (buffer_ s) (timer_ s) (consecutive_retransmissions_ s) (stream_ s)
    (next_seqno_ s) v (window_size_ s) (sent_fin_ s).
Definition set_window_size (s : t) v : t :=
  mk (isn_ s) (segments_out_ s) (buffer_ s) (timer_ s) (consecutive_retransmissions_ s) (stream_ s)
    (next_seqno_ s) (seqno_acked_ s) v (sent_fin_ s).
Definition set_sent_fin (s : t) v : t :=
  mk (isn_ s) (segments_out_ s) (buffer_ s) (timer_ s) (consecutive_retransmissions_ s) (stream_ s)
    (next_seqno_ s) (seqno_acked_ s) (window_size_ s) v.

(** The constructor; [random] is what [random_device] returns. *)
Definition make (capacity retx_timeout : Z) (fixed_isn : option WrappingInt32.t) (random : Z)
  : outcome t :=
  stream ← ByteStream.make capacity;
  Ok (mk (default (WrappingInt32.mk random) fixed_isn) [] []
        (RetransmissionTimer.make retx_timeout) 0 stream 0 0 1 false).

Definition stream_in (s : t) : ByteStream.t := stream_ s.
Definition bytes_in_flight (s : t) : Z := u64 (next_seqno_ s - seqno_acked_ s).
Definition consecutive_retransmissions (s : t) : Z := consecutive_retransmissions_ s.
Definition segments_out (s : t) : list TCPSegment.t := segments_out_ s.
Definition next_seqno_absolute (s : t) : Z := next_seqno_ s.
Definition next_seqno (s : t) : WrappingInt32.t := wrap (next_seqno_ s) (isn_ s).

Definition push_segment (s : t) (seg : TCPSegment.t) (start : Z) : t :=
  set_buffer (set_segments_out s (segments_out_ s ++ [seg])) (buffer_ s ++ [(start, seg)]).

Definition assemble_segment (s : t) (start : Z) : outcome (t * Z) :=
  let header := TCPHeader.set_seqno TCPHeader.make (wrap start (isn_ s)) in
  let max_segment_size := u64 (Z.max 1 (window_size_ s) - u64 (start - seqno_acked_ s)) in
  let '(header, max_segment_size) :=
    if start =? 0 then (TCPHeader.set_syn header true, u64 (max_segment_size - 1))
    else (header, max_segment_size) in
  let payload_size_with_fin := Z.min (u64 (max_segment_size - 1)) TCPConfig.MAX_PAYLOAD_SIZE in
  let buffer_size := ByteStream.buffer_size (stream_ s) in
  let '(header, max_segment_size, s) :=
    if negb (sent_fin_ s) && ByteStream.input_ended (stream_ s)
         && (buffer_size <=? payload_size_with_fin)
    then (TCPHeader.set_fin header true, u64 (max_segment_size - 1), set_sent_fin s true)
    else (header, max_segment_size, s) in
  let max_segment_size :=
    Z.min (Z.min max_segment_size buffer_size) TCPConfig.MAX_PAYLOAD_SIZE in
  '(stream, data) ← ByteStream.read (stream_ s) max_segment_size;
  let s := set_stream_in s stream in
  let seg := TCPSegment.mk header (Buffer.of_string data) in
  let max_segment_size := TCPSegment.length_in_sequence_space seg in
  let s := if negb (max_segment_size =? 0) then push_segment s seg start else s in
  Ok (s, u64 (start + max_segment_size)).

(** The loop of [fill_window]. *)
Fixpoint fill_loop (fuel : nat) (right : Z) (s : t) : outcome t :=
  if next_seqno_ s <? right then
    match fuel with
    | O => OutOfFuel
    | S fuel' =>
        '(s, next) ← assemble_segment s (next_seqno_ s);
        let s := set_next_seqno s next in
        if ByteStream.buffer_empty (stream_ s) then Ok s else fill_loop fuel' right s
    end
  else Ok s.

(** Every iteration but the last sends at least one sequence number, so the distance to
    the right edge bounds the iterations (see [fill_loop_spec]). *)
Definition fill_window (s : t) : outcome t :=
  let right := u64 (seqno_acked_ s + Z.max 1 (window_size_ s)) in
  s ← fill_loop (Z.to_nat (right - next_seqno_ s)) right s;
  if negb (RetransmissionTimer.running (timer_ s)) && negb (bool_decide (buffer_ s = []))
  then Ok (set_timer s (RetransmissionTimer.start (RetransmissionTimer.reset (timer_ s))))
  else Ok s.

(** The loop of [clear_buffer]. *)
Fixpoint drop_acked (acked : Z) (l : list (Z * TCPSegment.t)) : list (Z * TCPSegment.t) :=
  match l with
  | [] => []
  | (start, seg) :: l' =>
      if u64 (start + TCPSegment.length_in_sequence_space seg) <=? acked
      then drop_acked acked l' else l
  end.

Definition clear_buffer (s : t) : t :=
  let s := set_buffer s (drop_acked (seqno_acked_ s) (buffer_ s)) in
  if bool_decide (buffer_ s = []) then set_timer s (RetransmissionTimer.stop (timer_ s)) else s.

Definition ack_received (s : t) (ackno : WrappingInt32.t) (window_size : Z) : t :=
  let abs_ackno := unwrap ackno (isn_ s) (seqno_acked_ s) in
  if next_seqno_ s <? abs_ackno then s
  else
    let s :=
      if seqno_acked_ s <? abs_ackno then
        let s := set_seqno_acked s abs_ackno in
        let s := set_consecutive s 0 in
        set_timer s (RetransmissionTimer.start (RetransmissionTimer.reset (timer_ s)))
      else s in
    let s := set_window_size s window_size in
    clear_buffer s.

(** [retransmit]; the front of an empty buffer is undefined. *)
Definition retransmit (s : t) : outcome t :=
  let s :=
    if negb (window_size_ s =? 0) then
      set_consecutive (set_timer s (RetransmissionTimer.twice (timer_ s)))
        (u32 (consecutive_retransmissions_ s + 1))
    else s in
  let s := set_timer s (RetransmissionTimer.start (timer_ s)) in
  match buffer_ s with
  | [] => Undefined
  | (_, seg) :: _ => Ok (set_segments_out s (segments_out_ s ++ [seg]))
  end.

Definition tick (s : t) (ms_since_last_tick : Z) : outcome t :=
  let s := set_timer s (RetransmissionTimer.tick (timer_ s) ms_since_last_tick) in
  if RetransmissionTimer.expire (timer_ s) then retransmit s else Ok s.

Definition send_empty_segment (s : t) : t :=
  let seg := TCPSegment.set_header TCPSegment.make
    (TCPHeader.set_seqno TCPHeader.make (wrap (next_seqno_ s) (isn_ s))) in
  set_segments_out s (segments_out_ s ++ [seg]).

End TCPSender.

(** ** Invariant *)

Section sender_inv.

Import TCPSender.

(** All bytes written to the outbound stream so far. *)
Variable S : list byte.

Definition seg_len (seg : TCPSegment.t) : Z := TCPSegment.length_in_sequence_space seg.

(** Segment [n] of the connection, of a size that may be sent, inside what was sent. *)
Record sent_ok (isn : WrappingInt32.t) (next n : Z) (seg : TCPSegment.t) : Prop := {
  so_carries : carries S isn n seg;
  so_range : 0 <= n /\ n + seg_len seg <= next;
  so_syn : n = 0 -> seg_len seg <> 0 -> TCPHeader.syn (TCPSegment.header seg) = true;
  so_payload : zlen (Buffer.str (TCPSegment.payload seg)) <= TCPConfig.MAX_PAYLOAD_SIZE;
  so_win : 0 <= TCPHeader.win (TCPSegment.header seg) < two16
}.

(** Outstanding segments follow each other without a gap from [lo] to [next]. *)
Fixpoint chain (isn : WrappingInt32.t) (lo next : Z) (l : list (Z * TCPSegment.t)) : Prop :=
  match l with
  | [] => lo = next
  | (start, seg) :: l' =>
      start = lo /\ sent_ok isn next start seg /\ 0 < seg_len seg /\
      chain isn (lo + seg_len seg) next l'
  end.

(** The first outstanding segment is not fully acknowledged. *)
Definition outstanding (acked : Z) (l : list (Z * TCPSegment.t)) : Prop :=
  match l with [] => True | (start, seg) :: _ => acked < start + seg_len seg end.

Definition fin_num (b : bool) : Z := if b then 1 else 0.

Lemma fin_num_range b : 0 <= fin_num b <= 1.
Proof. destruct b; simpl; lia. Qed.

(** The invariant without the timer, which holds also inside [fill_window]. *)
Record sd_core (s : t) : Prop := {
  sd_stream : ByteStream.wf (stream_ s);
  sd_isn : WrappingInt32.ok (isn_ s);
  sd_contents : ByteStream.contents (stream_ s) = zdrop (ByteStream.bytes_read (stream_ s)) S;
  sd_read : ByteStream.bytes_read (stream_ s) + zlen (ByteStream.contents (stream_ s)) = zlen S;
  sd_next : (next_seqno_ s = 0 /\ ByteStream.bytes_read (stream_ s) = 0 /\ sent_fin_ s = false) \/
            next_seqno_ s = 1 + ByteStream.bytes_read (stream_ s) + fin_num (sent_fin_ s);
  sd_fin : sent_fin_ s = true -> ByteStream.input_ended (stream_ s) = true /\
             ByteStream.contents (stream_ s) = [];
  sd_acked : 0 <= seqno_acked_ s <= next_seqno_ s;
  sd_window : 0 <= window_size_ s < two16;
  sd_chain : exists lo, lo <= seqno_acked_ s /\ chain (isn_ s) lo (next_seqno_ s) (buffer_ s);
  sd_outstanding : outstanding (seqno_acked_ s) (buffer_ s);
  sd_out : Forall (fun seg => exists n, sent_ok (isn_ s) (next_seqno_ s) n seg) (segments_out_ s);
  sd_small : zlen S < two63
}.

(** The timer runs exactly while segments are outstanding; its timeout is the initial one
    doubled once per counted retransmission. *)
Record sd_wf (s : t) : Prop := {
  sd_is_core : sd_core s;
  sd_timer : RetransmissionTimer.running (timer_ s) = negb (bool_decide (buffer_ s = []));
  sd_backoff : exists k, 0 <= k /\ consecutive_retransmissions_ s = u32 k /\
    if RetransmissionTimer.running (timer_ s)
    then RetransmissionTimer.rto_ (timer_ s) =
         u64 (RetransmissionTimer.initial_rto_ (timer_ s) * 2 ^ k)
    else k = 0;
  sd_initial : 0 <= RetransmissionTimer.initial_rto_ (timer_ s) < two32
}.

(** ** Lemmas: segments and chains *)

Lemma seg_len_eq seg :
  zlen (Buffer.str (TCPSegment.payload seg)) <= TCPConfig.MAX_PAYLOAD_SIZE ->
  seg_len seg = zlen (Buffer.str (TCPSegment.payload seg)) +
    fin_num (TCPHeader.syn (TCPSegment.header seg)) + fin_num (TCPHeader.fin (TCPSegment.header seg)).
Proof.
  unfold seg_len, TCPSegment.length_in_sequence_space, fin_num, TCPConfig.MAX_PAYLOAD_SIZE.
  intros. destruct (TCPHeader.syn _), (TCPHeader.fin _); apply u64_small; lia.
Qed.

Lemma seg_len_nonneg seg : 0 <= seg_len seg.
Proof. apply u64_range. Qed.

Lemma sent_ok_mono isn next next' n seg :
  next <= next' -> sent_ok isn next n seg -> sent_ok isn next' n seg.
Proof. intros Hle [? [??] ? ? ?]. split; try done. lia. Qed.

Lemma chain_mono isn lo next l :
  chain isn lo next l -> lo <= next.
Proof.
  revert lo. induction l as [|[st seg] l IH]; intros lo; simpl; [lia|].
  intros (-> & _ & Hl & Hc). specialize (IH _ Hc). lia.
Qed.

Lemma chain_snoc isn lo next l seg :
  chain isn lo next l -> 0 < seg_len seg ->
  sent_ok isn (next + seg_len seg) next seg ->
  chain isn lo (next + seg_len seg) (l ++ [(next, seg)]).
Proof.
  intros Hc Hl Hs. revert lo Hc. induction l as [|[st sg] l IH]; intros lo; simpl.
  - intros ->. done.
  - intros (-> & Hok & Hpos & Hc). split_and!; try done; [|by apply IH].
    eapply sent_ok_mono; [|done]. lia.
Qed.

Lemma drop_acked_chain isn lo next acked l :
  chain isn lo next l -> lo <= acked -> acked <= next -> next < two64 ->
  exists lo', lo' <= acked /\ chain isn lo' next (drop_acked acked l) /\
    outstanding acked (drop_acked acked l).
Proof.
  revert lo. induction l as [|[st seg] l IH]; intros lo Hc Hlo Ha Hn; simpl.
  { exists lo. done. }
  pose proof Hc as (-> & [_ [??] _ _ _] & Hl & Hc').
  change (TCPSegment.length_in_sequence_space seg) with (seg_len seg).
  rewrite u64_small by lia.
  destruct (Z.leb_spec (lo + seg_len seg) acked).
  - eapply IH; [exact Hc'|lia..].
  - exists lo. done.
Qed.

(** ** Lemmas: assembling one segment *)

(** What [assemble_segment] decides to send next: the room left in the window after a SYN,
    whether the FIN goes out and how many bytes do. *)
Definition room (s : t) : Z :=
  Z.max 1 (window_size_ s) - (next_seqno_ s - seqno_acked_ s) - fin_num (next_seqno_ s =? 0).

Definition plan_fin (s : t) : bool :=
  negb (sent_fin_ s) && ByteStream.input_ended (stream_ s) &&
  (zlen (ByteStream.contents (stream_ s)) <=?
   (if room s =? 0 then 1000 else Z.min (room s - 1) 1000)).

Definition plan_len (s : t) : Z :=
  let b := zlen (ByteStream.contents (stream_ s)) in
  if plan_fin s then b else Z.min (Z.min (room s) b) 1000.

Definition plan_seg (s : t) : TCPSegment.t :=
  TCPSegment.mk
    (TCPHeader.mk 0 0 (wrap (next_seqno_ s) (isn_ s)) (WrappingInt32.mk 0) 5
       false false false false (next_seqno_ s =? 0) (plan_fin s) 0 0 0)
    (Buffer.of_string (ztake (plan_len s) (ByteStream.contents (stream_ s)))).

Definition plan_next (s : t) : Z :=
  next_seqno_ s + plan_len s + fin_num (next_seqno_ s =? 0) + fin_num (plan_fin s).

Lemma plan_bounds s :
  seqno_acked_ s <= next_seqno_ s < seqno_acked_ s + Z.max 1 (window_size_ s) ->
  0 <= room s /\ 0 <= plan_len s <= zlen (ByteStream.contents (stream_ s)) /\ plan_len s <= 1000 /\
  (plan_fin s = true -> plan_len s = zlen (ByteStream.contents (stream_ s))) /\
  (room s = 0 -> next_seqno_ s = 0).
Proof.
  intros Hr. unfold plan_len. destruct (plan_fin s) eqn:Ep.
  - unfold plan_fin in Ep. apply andb_prop in Ep as [_ Hb%Z.leb_le]. revert Hb.
    unfold room, fin_num. ztests; lia.
  - unfold room, fin_num. ztests; lia.
Qed.

Lemma assemble_eval s :
  sd_core s -> seqno_acked_ s <= next_seqno_ s < seqno_acked_ s + Z.max 1 (window_size_ s) ->
  exists stream',
    ByteStream.read (stream_ s) (plan_len s)
      = Ok (stream', ztake (plan_len s) (ByteStream.contents (stream_ s))) /\
    assemble_segment s (next_seqno_ s) =
    Ok (let s1 := set_stream_in (set_sent_fin s (sent_fin_ s || plan_fin s)) stream' in
        if negb (seg_len (plan_seg s) =? 0) then push_segment s1 (plan_seg s) (next_seqno_ s) else s1,
        u64 (next_seqno_ s + seg_len (plan_seg s))).
Proof.
  intros Hcore Hr. pose proof Hcore as [Hst _ _ _ _ _ Hack Hwin _ _ _ _].
  destruct (plan_bounds s Hr) as (Hroom & Hlen & Hmax & Hfin & Hzero).
  destruct (bs_read_spec (stream_ s) (plan_len s) Hst Hlen) as (st' & Hread & _).
  exists st'. split; [done|]. unfold assemble_segment.
  rewrite (u64_small (next_seqno_ s - seqno_acked_ s)) by lia.
  rewrite (u64_small (Z.max 1 _ - _)) by lia.
  set (hdr := TCPHeader.set_seqno _ _).
  replace (if next_seqno_ s =? 0 then (TCPHeader.set_syn hdr true, _) else (hdr, _))
    with (TCPHeader.set_syn hdr (next_seqno_ s =? 0), room s).
  2: { unfold room, fin_num in *. destruct (next_seqno_ s =? 0).
       - rewrite u64_small by lia. done.
       - f_equal. lia. }
  rewrite bs_buffer_size by done.
  assert (Hpf : Z.min (u64 (room s - 1)) TCPConfig.MAX_PAYLOAD_SIZE
                = if room s =? 0 then 1000 else Z.min (room s - 1) 1000).
  { unfold TCPConfig.MAX_PAYLOAD_SIZE. destruct (Z.eqb_spec (room s) 0) as [->|]; [done|].
    rewrite u64_small; [done|]. unfold room, fin_num in *. destruct (next_seqno_ s =? 0); lia. }
  rewrite Hpf. fold (plan_fin s).
  replace (if plan_fin s then (TCPHeader.set_fin _ true, u64 (room s - 1), set_sent_fin s true)
           else _)
    with (TCPHeader.set_fin (TCPHeader.set_syn hdr (next_seqno_ s =? 0)) (plan_fin s),
          if plan_fin s then u64 (room s - 1) else room s,
          set_sent_fin s (sent_fin_ s || plan_fin s)).
  2: { destruct (plan_fin s); [by rewrite orb_true_r|]. rewrite orb_false_r. by destruct s. }
  change (stream_ (set_sent_fin s _)) with (stream_ s).
  replace (Z.min (Z.min (if plan_fin s then _ else _) _) TCPConfig.MAX_PAYLOAD_SIZE) with (plan_len s).
  2: { unfold plan_len, TCPConfig.MAX_PAYLOAD_SIZE in *. destruct (plan_fin s) eqn:Ep; [|done].
       unfold plan_fin in Ep. apply andb_prop in Ep as [_ Hb%Z.leb_le]. revert Hb.
       destruct (Z.eqb_spec (room s) 0) as [->|]; [change (u64 (0 - 1)) with (two64 - 1); lia|].
       rewrite u64_small; [lia|]. unfold room, fin_num in *. destruct (next_seqno_ s =? 0); lia. }
  rewrite Hread. cbn [mbind outcome_bind]. reflexivity.
Qed.

Lemma plan_seg_ok s :
  sd_core s -> seqno_acked_ s <= next_seqno_ s < seqno_acked_ s + Z.max 1 (window_size_ s) ->
  seg_len (plan_seg s) = plan_len s + fin_num (next_seqno_ s =? 0) + fin_num (plan_fin s) /\
  sent_ok (isn_ s) (next_seqno_ s + seg_len (plan_seg s)) (next_seqno_ s) (plan_seg s).
Proof.
  intros [Hst Hisn Hct Hrd Hnx Hfin Hack Hwin _ _ _ Hsmall] Hr.
  destruct (plan_bounds s Hr) as (Hroom & Hlen & Hmax & Hpf & Hzero).
  assert (Hd : zlen (ztake (plan_len s) (ByteStream.contents (stream_ s))) = plan_len s)
    by (rewrite zlen_ztake; lia).
  assert (Hbuf : Buffer.str (TCPSegment.payload (plan_seg s)) =
                 ztake (plan_len s) (ByteStream.contents (stream_ s)))
    by (apply buffer_of_string_str; lia).
  assert (Hsl : seg_len (plan_seg s) =
                plan_len s + fin_num (next_seqno_ s =? 0) + fin_num (plan_fin s)).
  { rewrite seg_len_eq, Hbuf by (rewrite Hbuf; unfold TCPConfig.MAX_PAYLOAD_SIZE; lia).
    rewrite Hd. done. }
  split; [done|].
  split; [|lia| |rewrite Hbuf; unfold TCPConfig.MAX_PAYLOAD_SIZE; lia|simpl; lia].
  2: { intros Hz _. simpl. by apply Z.eqb_eq. }
  split; [done|simpl; by intros ?%Z.eqb_eq|]. rewrite Hbuf.
  cbn [TCPSegment.header plan_seg TCPSegment._header TCPHeader.syn TCPHeader.fin].
  pose proof (ByteStream.wf_read _ Hst) as Hrange. unfold ByteStream.bytes_read in *.
  destruct (sent_fin_ s) eqn:Esf.
  { left. destruct (Hfin eq_refl) as [_ ->]. split; [done|]. unfold plan_fin. by rewrite Esf. }
  right. assert (Hidx : next_seqno_ s + (if next_seqno_ s =? 0 then 1 else 0) - 1 =
    ByteStream.total_read_ (stream_ s)).
  { unfold fin_num in Hnx. destruct (Z.eqb_spec (next_seqno_ s) 0); lia. }
  rewrite Hidx. split; [lia|]. rewrite Hd. split; [lia|]. split.
  - by rewrite Hct.
  - intros Hf. specialize (Hpf Hf). lia.
Qed.

Lemma plan_mono s :
  seqno_acked_ s <= next_seqno_ s < seqno_acked_ s + Z.max 1 (window_size_ s) ->
  next_seqno_ s <= plan_next s.
Proof.
  intros Hr. destruct (plan_bounds s Hr) as (_ & Hlen & _). unfold plan_next.
  pose proof (fin_num_range (next_seqno_ s =? 0)). pose proof (fin_num_range (plan_fin s)). lia.
Qed.

(** The segment to push, if it occupies any sequence number. *)
Definition plan_new (s : t) : list (Z * TCPSegment.t) :=
  if seg_len (plan_seg s) =? 0 then [] else [(next_seqno_ s, plan_seg s)].

(** The state after the planned segment. *)
Definition planned (s : t) (stream' : ByteStream.t) : t :=
  mk (isn_ s) (segments_out_ s ++ (snd <$> plan_new s)) (buffer_ s ++ plan_new s) (timer_ s)
    (consecutive_retransmissions_ s) stream' (plan_next s) (seqno_acked_ s) (window_size_ s)
    (sent_fin_ s || plan_fin s).

Lemma planned_core s stream' :
  sd_core s -> seqno_acked_ s <= next_seqno_ s < seqno_acked_ s + Z.max 1 (window_size_ s) ->
  ByteStream.read (stream_ s) (plan_len s)
      = Ok (stream', ztake (plan_len s) (ByteStream.contents (stream_ s))) ->
  sd_core (planned s stream').
Proof.
  intros Hcore Hr Hread. destruct (plan_seg_ok s Hcore Hr) as [Hsl Hok].
  destruct (plan_bounds s Hr) as (Hroom & Hlen & Hmax & Hpf & Hzero).
  pose proof Hcore as [Hst Hisn Hct Hrd Hnx Hfin Hack Hwin (lo & Hlo & Hchain) Hfirst Hout Hsmall].
  destruct (bs_read_spec (stream_ s) (plan_len s) Hst Hlen) as
    (st2 & Hread2 & Hst' & Hct' & _ & Hrd' & _ & _ & Hin').
  rewrite Hread in Hread2. injection Hread2 as <-.
  pose proof (ByteStream.wf_read _ Hst) as Hrange. unfold ByteStream.bytes_read in *.
  pose proof (fin_num_range (next_seqno_ s =? 0)). pose proof (fin_num_range (plan_fin s)).
  rewrite u64_small in Hrd' by lia.
  assert (Hnext : next_seqno_ s + seg_len (plan_seg s) = plan_next s) by (unfold plan_next; lia).
  rewrite Hnext in Hok.
  assert (Hmono : next_seqno_ s <= plan_next s) by (unfold plan_next; lia).
  split; simpl; unfold ByteStream.bytes_read; rewrite ?Hrd', ?Hct', ?Hin'; try done; try lia.
  - rewrite Hct, zdrop_zdrop by lia. f_equal. lia.
  - rewrite zlen_zdrop. lia.
  - right. unfold plan_next. unfold fin_num in Hnx.
    destruct (Z.eqb_spec (next_seqno_ s) 0) as [Hz|Hz].
    + destruct Hnx as [(_ & Hb & ->)|Hnx]; [simpl; lia|destruct (sent_fin_ s); lia].
    + destruct Hnx as [?|Hnx]; [lia|]. unfold plan_fin, plan_len in *.
      destruct (sent_fin_ s) eqn:Esf; simpl in *; [|lia].
      destruct (Hfin eq_refl) as [_ Hnil]. rewrite Hnil in *. unfold plan_fin. rewrite Esf. simpl in *. lia.
  - intros Hs. apply orb_prop in Hs as [Hs|Hs].
    + destruct (Hfin Hs) as [? ->]. done.
    + split; [|apply zdrop_ge; rewrite (Hpf Hs); lia]. unfold plan_fin in Hs.
      by apply andb_prop in Hs as [[_ ?]%andb_prop _].
  - exists lo. split; [done|]. unfold plan_new. destruct (Z.eqb_spec (seg_len (plan_seg s)) 0).
    + rewrite app_nil_r. by replace (plan_next s) with (next_seqno_ s) by lia.
    + pose proof (seg_len_nonneg (plan_seg s)). rewrite <- Hnext. apply chain_snoc; [done|lia|].
      by rewrite Hnext.
  - unfold plan_new. destruct (buffer_ s) as [|[st sg] bl] eqn:Eb; [|done]. simpl.
    destruct (Z.eqb_spec (seg_len (plan_seg s)) 0); [done|]. simpl.
    pose proof (seg_len_nonneg (plan_seg s)). lia.
  - apply Forall_app. split.
    + eapply Forall_impl; [exact Hout|]. intros seg [n Hn]. exists n. by eapply sent_ok_mono.
    + unfold plan_new. destruct (seg_len (plan_seg s) =? 0); simpl; [constructor|].
      repeat constructor. eauto.
Qed.

(** One call of [assemble_segment] at the next sequence number. *)
Lemma assemble_segment_spec s :
  sd_core s -> seqno_acked_ s <= next_seqno_ s < seqno_acked_ s + Z.max 1 (window_size_ s) ->
  exists s1 stream', assemble_segment s (next_seqno_ s) = Ok (s1, plan_next s) /\
    set_next_seqno s1 (plan_next s) = planned s stream' /\ sd_core (planned s stream') /\
    ByteStream.contents stream' = zdrop (plan_len s) (ByteStream.contents (stream_ s)) /\
    ByteStream.input_ended stream' = ByteStream.input_ended (stream_ s).
Proof.
  intros Hcore Hr. destruct (assemble_eval s Hcore Hr) as (st' & Hread & ->).
  destruct (plan_seg_ok s Hcore Hr) as [Hsl _].
  destruct (plan_bounds s Hr) as (Hroom & Hlen & Hmax & _).
  pose proof (planned_core s st' Hcore Hr Hread) as Hcore'.
  pose proof Hcore as [Hst _ _ Hrd Hnx _ Hack _ _ _ _ Hsmall].
  destruct (bs_read_spec (stream_ s) (plan_len s) Hst Hlen) as
    (st2 & Hread2 & _ & Hct' & _ & _ & _ & _ & Hin').
  rewrite Hread in Hread2. injection Hread2 as <-.
  pose proof (fin_num_range (next_seqno_ s =? 0)). pose proof (fin_num_range (plan_fin s)).
  pose proof (fin_num_range (sent_fin_ s)). pose proof (ByteStream.wf_read _ Hst).
  unfold ByteStream.bytes_read in *.
  replace (u64 _) with (plan_next s) by (unfold plan_next; rewrite u64_small; lia).
  do 2 eexists. split; [done|]. split; [|done]. cbv zeta.
  unfold planned, plan_new. destruct (seg_len (plan_seg s) =? 0); simpl; [by rewrite !app_nil_r|done].
Qed.

(** ** Lemmas: filling the window *)

Definition right_edge (s : t) : Z := seqno_acked_ s + Z.max 1 (window_size_ s).

(** The one situation in which more is sent than the window allows: the SYN fills it, but
    the stream has already ended with little enough in it. *)
Definition overrun (s : t) : Prop :=
  next_seqno_ s = 0 /\ right_edge s = 1 /\ ByteStream.input_ended (stream_ s) = true /\
  zlen (ByteStream.contents (stream_ s)) <= 1000.

(** Nothing is left to send: the stream is drained, and its end sent if there is one. *)
Definition drained (s : t) : Prop :=
  ByteStream.contents (stream_ s) = [] /\
  (ByteStream.input_ended (stream_ s) = true -> sent_fin_ s = true).

Lemma plan_fin_true s :
  plan_fin s = true ->
  sent_fin_ s = false /\ ByteStream.input_ended (stream_ s) = true /\
  zlen (ByteStream.contents (stream_ s)) <= (if room s =? 0 then 1000 else Z.min (room s - 1) 1000).
Proof.
  unfold plan_fin. intros [[H1%negb_true_iff H2]%andb_prop H3%Z.leb_le]%andb_prop. done.
Qed.

Lemma plan_step s :
  seqno_acked_ s <= next_seqno_ s < right_edge s -> 0 <= seqno_acked_ s ->
  (plan_next s <= right_edge s \/ overrun s) /\
  (zdrop (plan_len s) (ByteStream.contents (stream_ s)) <> [] -> next_seqno_ s < plan_next s) /\
  (zdrop (plan_len s) (ByteStream.contents (stream_ s)) = [] ->
   right_edge s <= plan_next s \/
   (ByteStream.input_ended (stream_ s) = true -> sent_fin_ s || plan_fin s = true)).
Proof.
  intros Hr Ha. destruct (plan_bounds s Hr) as (Hroom & Hlen & Hmax & Hpf & Hzero).
  assert (Hre : right_edge s = next_seqno_ s + room s + fin_num (next_seqno_ s =? 0))
    by (unfold right_edge, room; lia).
  set (b := zlen (ByteStream.contents (stream_ s))) in *.
  assert (Hdrop : zlen (zdrop (plan_len s) (ByteStream.contents (stream_ s))) = b - plan_len s)
    by (rewrite zlen_zdrop; fold b; lia).
  pose proof (fin_num_range (next_seqno_ s =? 0)). unfold plan_next, overrun.
  destruct (plan_fin s) eqn:Ep.
  - destruct (plan_fin_true s Ep) as (Hsf & Hie & Hb). fold b in Hb.
    specialize (Hpf eq_refl). rewrite orb_true_r. split_and!.
    + destruct (Z.eqb_spec (room s) 0); [right|left; simpl fin_num; lia].
      specialize (Hzero ltac:(done)). rewrite Hzero in *. simpl fin_num in *. split_and!; try done; lia.
    + intros Hne. simpl fin_num. lia.
    + auto.
  - assert (Hk : plan_len s = Z.min (Z.min (room s) b) 1000) by (unfold plan_len; by rewrite Ep).
    simpl fin_num. rewrite orb_false_r. split_and!.
    + left. lia.
    + intros Hne. assert (zlen (zdrop (plan_len s) (ByteStream.contents (stream_ s))) <> 0)
        by (intros ?%zlen_0; done).
      destruct (Z.eqb_spec (room s) 0) as [Hz|]; [|lia]. rewrite (Hzero Hz). simpl. lia.
    + intros Hnil. rewrite Hnil in Hdrop. simpl in Hdrop.
      destruct (sent_fin_ s) eqn:Esf; [auto|].
      destruct (ByteStream.input_ended (stream_ s)) eqn:Eie; [left|auto].
      unfold plan_fin in Ep. rewrite Esf, Eie in Ep. simpl in Ep. apply Z.leb_gt in Ep. fold b in Ep.
      destruct (Z.eqb_spec (room s) 0); lia.
Qed.

Lemma fill_loop_spec fuel s :
  sd_core s -> right_edge s < two64 -> right_edge s - next_seqno_ s <= Z.of_nat fuel ->
  exists s' new, fill_loop fuel (right_edge s) s = Ok s' /\ sd_core s' /\
    isn_ s' = isn_ s /\ timer_ s' = timer_ s /\
    consecutive_retransmissions_ s' = consecutive_retransmissions_ s /\
    right_edge s' = right_edge s /\ seqno_acked_ s' = seqno_acked_ s /\
    segments_out_ s' = segments_out_ s ++ (snd <$> new) /\ buffer_ s' = buffer_ s ++ new /\
    next_seqno_ s <= next_seqno_ s' /\
    ByteStream.input_ended (stream_ s') = ByteStream.input_ended (stream_ s) /\
    (next_seqno_ s' <= Z.max (next_seqno_ s) (right_edge s) \/ overrun s) /\
    (right_edge s <= next_seqno_ s' \/ drained s').
Proof.
  revert s. induction fuel as [|fuel IH]; intros s Hcore Hedge Hfuel; cbn [fill_loop];
    destruct (Z.ltb_spec (next_seqno_ s) (right_edge s)) as [Hlt|Hge]; try lia.
  1, 3: exists s, []; rewrite !app_nil_r; split_and!; try done; lia.
  assert (Hr : seqno_acked_ s <= next_seqno_ s < right_edge s) by (destruct Hcore; lia).
  destruct (assemble_segment_spec s Hcore Hr) as (s1 & st' & -> & Hs1 & Hcore' & Hct & Hin).
  cbn [mbind outcome_bind]. rewrite Hs1.
  destruct (plan_step s Hr) as (Hwin & Hprog & Hdone); [apply Hcore|]. rewrite <- Hct in Hprog, Hdone.
  assert (Hmono : next_seqno_ s <= plan_next s) by apply (plan_mono s Hr).
  change (stream_ (planned s st')) with st'.
  rewrite bs_buffer_empty by apply Hcore'. destruct (bool_decide_reflect (ByteStream.contents st' = [])) as [Hnil|Hne].
  - exists (planned s st'), (plan_new s). split_and!; try done.
    + destruct Hwin; [left; simpl; lia|by right].
    + destruct (Hdone Hnil); [by left|right]. split; [done|]. simpl. by rewrite Hin.
  - specialize (Hprog Hne).
    destruct (IH (planned s st') Hcore') as
      (s' & new & Hl & Hc & Hi & Ht & Hk & He & Ha & Ho & Hb & Hn & Hie & Hw & Hd);
      [done|unfold right_edge in *; simpl; lia|].
    change (right_edge (planned s st')) with (right_edge s) in *. rewrite Hl.
    exists s', (plan_new s ++ new). rewrite fmap_app, !app_assoc.
    simpl in *. split_and!; try done; [lia|congruence|].
    destruct Hw as [Hw|(Hz & _)]; [|simpl in Hz; pose proof (sd_acked _ Hcore); lia].
    destruct Hwin as [Hwin|?]; [left; lia|by right].
Qed.

Lemma sd_next_bound s : sd_core s -> 0 <= next_seqno_ s <= zlen S + 2.
Proof.
  intros [Hst _ _ Hrd Hnx _ _ _ _ _ _ _]. pose proof (ByteStream.wf_read _ Hst).
  unfold ByteStream.bytes_read in *. pose proof (fin_num_range (sent_fin_ s)). lia.
Qed.

Lemma sd_right_bound s : sd_core s -> right_edge s < two64.
Proof.
  intros Hc. pose proof (sd_next_bound s Hc). destruct Hc. unfold right_edge. lia.
Qed.

Lemma fill_window_spec s :
  sd_wf s ->
  exists s' new, fill_window s = Ok s' /\ sd_wf s' /\
    isn_ s' = isn_ s /\ consecutive_retransmissions_ s' = consecutive_retransmissions_ s /\
    seqno_acked_ s' = seqno_acked_ s /\ right_edge s' = right_edge s /\
    segments_out_ s' = segments_out_ s ++ (snd <$> new) /\ buffer_ s' = buffer_ s ++ new /\
    next_seqno_ s <= next_seqno_ s' /\
    ByteStream.input_ended (stream_ s') = ByteStream.input_ended (stream_ s) /\
    (next_seqno_ s' <= Z.max (next_seqno_ s) (right_edge s) \/ overrun s) /\
    (right_edge s <= next_seqno_ s' \/ drained s').
Proof.
  intros [Hcore Htim (k & Hk & Hcons & Hrto) Hini]. pose proof (sd_right_bound s Hcore) as Hedge.
  unfold fill_window. destruct Hcore as [? ? ? ? ? ? Hack Hwin ? ? ? ?] eqn:Ec.
  rewrite (u64_small (seqno_acked_ s + _)) by (unfold right_edge in Hedge; lia).
  change (seqno_acked_ s + Z.max 1 (window_size_ s)) with (right_edge s). clear Ec.
  destruct (fill_loop_spec (Z.to_nat (right_edge s - next_seqno_ s)) s Hcore Hedge) as
    (s' & new & -> & Hc & Hi & Ht & Hco & He & Ha & Ho & Hb & Hn & Hie & Hw & Hd); [lia|].
  cbn [mbind outcome_bind]. rewrite Ht.
  destruct (negb (RetransmissionTimer.running (timer_ s)) && negb (bool_decide (buffer_ s' = []))) eqn:Et.
  - apply andb_prop in Et as [Hnr%negb_true_iff Hne].
    eexists _, new. split; [done|]. split; [|split_and!; try done].
    split; [by destruct Hc|simpl; by rewrite Hne| |done].
    exists 0. rewrite Hnr in Hrto. subst k. simpl. rewrite Hco. split_and!; try done.
    rewrite Z.mul_1_r. symmetry. apply u64_small. lia.
  - exists s', new. split; [done|]. split; [|split_and!; done].
    split; [done| | |by rewrite Ht].
    + rewrite Ht. destruct (RetransmissionTimer.running (timer_ s)) eqn:Er; simpl in Et.
      * rewrite Hb. symmetry in Htim. apply negb_true_iff, bool_decide_eq_false in Htim.
        symmetry. apply negb_true_iff, bool_decide_eq_false. by destruct (buffer_ s).
      * done.
    + exists k. rewrite Hco, Ht. done.
Qed.

(** An acknowledgment inside what was sent but not acknowledged yet. *)
Definition fresh_ack (s : t) (ackno : WrappingInt32.t) : bool :=
  let n := unwrap ackno (isn_ s) (seqno_acked_ s) in
  (seqno_acked_ s <? n) && (n <=? next_seqno_ s).

(** An acknowledgment the sender ignores: it is beyond what was sent. *)
Definition bogus_ack (s : t) (ackno : WrappingInt32.t) : bool :=
  next_seqno_ s <? unwrap ackno (isn_ s) (seqno_acked_ s).

Lemma drop_acked_none isn lo next acked l :
  chain isn lo next l -> lo <= acked -> acked <= next -> next < two64 ->
  outstanding acked l -> drop_acked acked l = l.
Proof.
  destruct l as [|[st seg] l]; simpl; [done|].
  intros (-> & [_ [??] _ _ _] & _) ? ? ? ?.
  change (TCPSegment.length_in_sequence_space seg) with (seg_len seg).
  rewrite u64_small by lia. ztests. done.
Qed.

Lemma ack_received_spec s ackno win :
  sd_wf s -> 0 <= win < two16 ->
  let s' := ack_received s ackno win in
  sd_wf s' /\ isn_ s' = isn_ s /\ segments_out_ s' = segments_out_ s /\
  next_seqno_ s' = next_seqno_ s /\ stream_ s' = stream_ s /\ sent_fin_ s' = sent_fin_ s /\
  (bogus_ack s ackno = true -> s' = s) /\
  (bogus_ack s ackno = false ->
     window_size_ s' = win /\
     seqno_acked_ s' = (if fresh_ack s ackno then unwrap ackno (isn_ s) (seqno_acked_ s)
                        else seqno_acked_ s) /\
     buffer_ s' = drop_acked (seqno_acked_ s') (buffer_ s) /\
     consecutive_retransmissions_ s' =
       (if fresh_ack s ackno then 0 else consecutive_retransmissions_ s)).
Proof.
  intros Hwf Hwin. unfold ack_received, bogus_ack, fresh_ack.
  set (n := unwrap ackno (isn_ s) (seqno_acked_ s)).
  destruct (Z.ltb_spec (next_seqno_ s) n) as [Hb|Hle]; [simpl; split_and!; done|].
  rewrite (proj2 (Z.leb_le _ _) Hle), andb_true_r.
  destruct Hwf as [Hcore Htim (k & Hk & Hcons & Hrto) Hini].
  pose proof (sd_next_bound s Hcore) as Hnb.
  pose proof Hcore as [Hst Hisn Hct Hrd Hnx Hfin Hack Hw (lo & Hlo & Hchain) Hfirst Hout Hsmall].
  destruct (Z.ltb_spec (seqno_acked_ s) n) as [Hnew|Hold]; simpl.
  - destruct (drop_acked_chain (isn_ s) lo (next_seqno_ s) n (buffer_ s) Hchain) as
      (lo' & Hlo' & Hchain' & Hfirst'); [lia..|].
    unfold clear_buffer; simpl.
    assert (Hcore' : forall m, sd_core (mk (isn_ s) (segments_out_ s) (drop_acked n (buffer_ s)) m 0
      (stream_ s) (next_seqno_ s) n win (sent_fin_ s))).
    { intros m. split; simpl; try done; [lia|]. eauto. }
    destruct (bool_decide_reflect (drop_acked n (buffer_ s) = [])) as [Hnil|Hne]; simpl;
      (split; [|split_and!; done]); (split; simpl; [apply Hcore'| |exists 0; simpl|done]).
    + by rewrite Hnil.
    + done.
    + by rewrite bool_decide_eq_false_2.
    + split_and!; try done. rewrite Z.mul_1_r. symmetry. apply u64_small. lia.
  - unfold clear_buffer; simpl.
    assert (Hd : drop_acked (seqno_acked_ s) (buffer_ s) = buffer_ s)
      by (apply (drop_acked_none (isn_ s) lo (next_seqno_ s)); done || lia).
    assert (Hcore' : forall m, sd_core (mk (isn_ s) (segments_out_ s) (buffer_ s) m
      (consecutive_retransmissions_ s) (stream_ s) (next_seqno_ s) (seqno_acked_ s) win (sent_fin_ s))).
    { intros m. split; simpl; try done. eauto. }
    rewrite Hd. destruct (bool_decide_reflect (buffer_ s = [])) as [Hnil|Hne]; simpl; rewrite Hd;
      (split; [|split_and!; done]); (split; simpl; [apply Hcore'| |exists k; simpl|done]).
    + by rewrite Hnil.
    + simpl in Htim. rewrite Htim in Hrto. done.
    + by rewrite bool_decide_eq_false_2.
    + done.
Qed.

(** Retransmission: the oldest outstanding segment goes out again, once the timer has
    waited long enough. *)
Definition timed_out (s : t) (ms : Z) : bool :=
  RetransmissionTimer.running (timer_ s) &&
  (RetransmissionTimer.rto_ (timer_ s) <=? u64 (RetransmissionTimer.time_waitied_ (timer_ s) + ms)).

Lemma rto_twice init k :
  0 <= k -> u64 (u64 (init * 2 ^ k) * 2) = u64 (init * 2 ^ (k + 1)).
Proof.
  intros. unfold u64. rewrite Zmult_mod_idemp_l, Z.pow_add_r by lia. f_equal. lia.
Qed.

Lemma tick_spec s ms :
  sd_wf s ->
  exists s', tick s ms = Ok s' /\ sd_wf s' /\
    isn_ s' = isn_ s /\ buffer_ s' = buffer_ s /\ next_seqno_ s' = next_seqno_ s /\
    seqno_acked_ s' = seqno_acked_ s /\ window_size_ s' = window_size_ s /\
    stream_ s' = stream_ s /\ sent_fin_ s' = sent_fin_ s /\
    segments_out_ s' = segments_out_ s ++
      (if timed_out s ms then match buffer_ s with [] => [] | e :: _ => [e.2] end else []) /\
    consecutive_retransmissions_ s' =
      (if timed_out s ms && negb (window_size_ s =? 0)
       then u32 (consecutive_retransmissions_ s + 1) else consecutive_retransmissions_ s) /\
    RetransmissionTimer.rto_ (timer_ s') =
      (if timed_out s ms && negb (window_size_ s =? 0)
       then u64 (RetransmissionTimer.rto_ (timer_ s) * 2) else RetransmissionTimer.rto_ (timer_ s)).
Proof.
  intros [Hcore Htim (k & Hk & Hcons & Hrto) Hini]. unfold tick.
  change (RetransmissionTimer.expire _) with (timed_out s ms).
  destruct (timed_out s ms) eqn:Et; cycle 1.
  { eexists. split; [done|]. rewrite app_nil_r. split; [|done].
    split; [by destruct Hcore|done|by exists k|done]. }
  apply andb_prop in Et as [Hrun Hexp]. unfold RetransmissionTimer.running in *.
  rewrite Hrun in Htim, Hrto.
  pose proof Hcore as [Hst Hisn Hct Hrd Hnx Hfin Hack Hw Hchain Hfirst Hout Hsmall].
  destruct (buffer_ s) as [|[st seg] l] eqn:Eb; [done|].
  assert (Hseg : Forall (fun seg => exists n, sent_ok (isn_ s) (next_seqno_ s) n seg)
    (segments_out_ s ++ [seg])).
  { apply Forall_app. split; [done|]. constructor; [|done].
    destruct Hchain as (lo & _ & (-> & ? & _)). eauto. }
  unfold retransmit. simpl. destruct (negb (window_size_ s =? 0)) eqn:Ew; simpl; rewrite Eb;
    (eexists; split; [done|]); (split; [|split_and!; try done]).
  - split; simpl; [|by rewrite Eb| |done]; [split; simpl; rewrite ?Eb; done|].
    exists (k + 1). split; [lia|]. split; [rewrite Hcons; mlia|]. rewrite Hrto. by apply rto_twice.
  - split; simpl; [|by rewrite Eb| |done]; [split; simpl; rewrite ?Eb; done|]. by exists k.
Qed.

Lemma send_empty_spec s :
  sd_wf s ->
  let s' := send_empty_segment s in
  sd_wf s' /\ exists seg, s' = set_segments_out s (segments_out_ s ++ [seg]) /\
    seg_len seg = 0 /\ TCPHeader.seqno (TCPSegment.header seg) = next_seqno s.
Proof.
  intros [Hcore Htim Hback Hini]. split; [|by eexists].
  split; [|done|done|done]. pose proof (sd_next_bound s Hcore).
  destruct Hcore as [Hst Hisn Hct Hrd Hnx Hfin Hack Hw Hchain Hfirst Hout Hsmall].
  split; simpl; try done. apply Forall_app. split; [done|]. constructor; [|done].
  exists (next_seqno_ s). split; [split; [done|done|by left]|vm_compute seg_len|done|simpl; done|simpl; lia].
  unfold seg_len. simpl. split; [lia|]. unfold TCPSegment.length_in_sequence_space. simpl.
  change (u64 0) with 0. lia.
Qed.

(** Taking segments off the outbound queue. *)
Lemma dequeue_spec s l :
  sd_wf s -> (forall seg, In seg l -> In seg (segments_out_ s)) -> sd_wf (set_segments_out s l).
Proof.
  intros [[] ? ? ?] Hin. split; try done. split; try done. simpl.
  apply List.Forall_forall. intros seg Hseg.
  by apply (proj1 (List.Forall_forall _ _) sd_out0), Hin.
Qed.

Lemma sender_end_input s :
  sd_wf s -> sd_wf (set_stream_in s (ByteStream.end_input (stream_ s))).
Proof.
  intros [[Hst ? ? ? ? Hfin ? ? ? ? ? ?] ? ? ?]. split; try done.
  split; try done; [by apply bs_end_input_wf|]. simpl. intros Hf. split; [done|by apply Hfin].
Qed.

Lemma sender_set_error s :
  sd_wf s -> sd_wf (set_stream_in s (ByteStream.set_error (stream_ s))).
Proof. intros [[Hst] ? ? ?]. split; try done. split; try done. by apply bs_set_error_wf. Qed.

End sender_inv.

(** ** Writing and making *)

Section sender_writes.

Import TCPSender.

Lemma substring_extend S d data index :
  substring_of S data index false -> substring_of (S ++ d) data index false.
Proof.
  intros (Hi & Hl & Hd & _). split; [done|]. rewrite zlen_app. split; [lia|]. split; [|done].
  rewrite zdrop_app, ztake_app. rewrite Hd at 1.
  rewrite (ztake_le0 (zlen data - _)), app_nil_r; [done|]. rewrite zlen_zdrop. lia.
Qed.

Lemma sent_ok_extend S d isn next n seg :
  TCPHeader.fin (TCPSegment.header seg) = false ->
  sent_ok S isn next n seg -> sent_ok (S ++ d) isn next n seg.
Proof.
  intros Hf [[Hseq Hsyn Hdata] ? ? ? ?]. split; try done. split; try done.
  rewrite Hf in *. destruct Hdata as [?|?]; [by left|right]. by apply substring_extend.
Qed.

(** No segment carries the FIN before the sender says so. *)
Lemma fin_not_sent S s n seg :
  sd_core S s -> sent_fin_ s = false -> sent_ok S (isn_ s) (next_seqno_ s) n seg ->
  TCPHeader.fin (TCPSegment.header seg) = false.
Proof.
  intros [Hst _ _ Hrd Hnx _ _ _ _ _ _ _] Hsf [[_ Hsyn Hdata] [Hn Hr] Hs Hp _].
  rewrite (seg_len_eq _ Hp) in Hr. rewrite Hsf in Hnx. simpl in Hnx.
  destruct (TCPHeader.fin (TCPSegment.header seg)) eqn:Ef; [|done]. exfalso.
  destruct Hdata as [[_ ?]|(Hi & Hl & _ & He)]; [congruence|]. specialize (He eq_refl).
  simpl fin_num in Hr. unfold fin_num in *.
  destruct (TCPHeader.syn (TCPSegment.header seg)); lia.
Qed.

Lemma history_extend S d s (l : list TCPSegment.t) :
  sd_core S s -> sent_fin_ s = false ->
  Forall (fun seg => exists n, sent_ok S (isn_ s) (next_seqno_ s) n seg) l ->
  Forall (fun seg => exists n, sent_ok (S ++ d) (isn_ s) (next_seqno_ s) n seg) l.
Proof.
  intros Hc Hsf Hl. eapply Forall_impl; [exact Hl|]. intros seg [n Hn]. exists n.
  apply sent_ok_extend; [|done]. by eapply fin_not_sent.
Qed.

Lemma chain_extend S d s lo l :
  sd_core S s -> sent_fin_ s = false ->
  chain S (isn_ s) lo (next_seqno_ s) l -> chain (S ++ d) (isn_ s) lo (next_seqno_ s) l.
Proof.
  intros Hc Hsf. revert lo. induction l as [|[st seg] l IH]; intros lo; simpl; [done|].
  intros (-> & Hok & Hl & Hch). split_and!; try done; [|by apply IH].
  apply sent_ok_extend; [|done]. by eapply fin_not_sent.
Qed.

(** Writing to the outbound stream before its end. *)
Lemma sender_write S s data :
  sd_wf S s -> ByteStream.input_ended (stream_ s) = false ->
  zlen S + zlen data < two63 ->
  exists stream' d, ByteStream.write (stream_ s) data = Ok (stream', zlen d) /\
    d = ztake (zlen d) data /\ zlen d = Z.min (zlen data) (ByteStream.remaining_capacity (stream_ s)) /\
    ByteStream.input_ended stream' = false /\ sd_wf (S ++ d) (set_stream_in s stream').
Proof.
  intros [Hcore Htim Hback Hini] Hie Hfit.
  pose proof Hcore as [Hst Hisn Hct Hrd Hnx Hfin Hack Hw (lo & Hlo & Hchain) Hfirst Hout Hsmall].
  pose proof (ByteStream.wf_read _ Hst) as Hr. unfold ByteStream.bytes_read in *.
  pose proof (bs_bounds _ Hst) as [Hb1 Hb2].
  destruct (bs_write_spec (stream_ s) data Hst) as (st' & Hwr & Hst' & Hct' & _ & Hrd' & _ & _ & Hie').
  set (d := ztake _ data) in *.
  assert (Hdl : zlen d = Z.min (zlen data) (ByteStream.capacity (stream_ s) - zlen (ByteStream.contents (stream_ s))))
    by (unfold d; rewrite zlen_ztake; lia).
  exists st', d. split; [done|]. split. { rewrite Hdl. unfold d. rewrite ztake_take, ztake_take.
    destruct (Z.le_ge_cases (zlen data) (ByteStream.capacity (stream_ s) - zlen (ByteStream.contents (stream_ s)))).
    - rewrite !take_ge by lia. done.
    - f_equal. lia. }
  split; [by rewrite bs_remaining|]. split; [congruence|].
  assert (Hsf : sent_fin_ s = false).
  { destruct (sent_fin_ s) eqn:E; [|done]. destruct (Hfin eq_refl). congruence. }
  split; [|done|done|done].
  split; simpl; unfold ByteStream.bytes_read; rewrite ?Hrd', ?Hct', ?zlen_app; try done; try lia.
  - rewrite zdrop_app, Hct. f_equal. rewrite zdrop_le0; [done|]. lia.
  - rewrite Hsf. done.
  - exists lo. split; [done|]. by apply chain_extend.
  - by apply history_extend.
Qed.

Lemma sd_make_spec k rto isn random :
  0 < k <= string_max_size -> 0 <= rto < two16 ->
  WrappingInt32.ok (default (WrappingInt32.mk random) isn) ->
  exists s, make k rto isn random = Ok s /\ sd_wf [] s /\ next_seqno_ s = 0 /\
    isn_ s = default (WrappingInt32.mk random) isn /\
    segments_out_ s = [] /\ ByteStream.input_ended (stream_ s) = false.
Proof.
  intros Hk Hrto Hisn. unfold make.
  destruct (bs_make_spec k Hk) as (st & -> & Hst & Hct & Hcap & Hr & Hw & He & Hi). simpl.
  eexists. split; [done|]. simpl. split; [|done].
  split; simpl; [|done|by exists 0|lia].
  split; simpl; unfold ByteStream.bytes_read; rewrite ?Hct, ?Hr; try done; try lia.
  by exists 0.
Qed.

End sender_writes.

(** ** Runs of a sender *)

(** What its owner may do with a sender. *)
Inductive sender_op :=
  | SWrite (data : list byte)
  | SEnd
  | SFill
  | SAck (ackno : WrappingInt32.t) (win : Z)
  | STick (ms : Z)
  | SEmpty
  | SDequeue.

(** One step, with the bytes accepted and the segments handed to the network. *)
Definition sender_step (s : TCPSender.t) (op : sender_op)
  : outcome (TCPSender.t * list byte * list TCPSegment.t) :=
  match op with
  | SWrite data =>
      '(st, n) ← ByteStream.write (TCPSender.stream_in s) data;
      Ok (TCPSender.set_stream_in s st, ztake n data, [])
  | SEnd => Ok (TCPSender.set_stream_in s (ByteStream.end_input (TCPSender.stream_in s)), [], [])
  | SFill => s' ← TCPSender.fill_window s; Ok (s', [], [])
  | SAck ackno win => Ok (TCPSender.ack_received s ackno win, [], [])
  | STick ms => s' ← TCPSender.tick s ms; Ok (s', [], [])
  | SEmpty => Ok (TCPSender.send_empty_segment s, [], [])
  | SDequeue =>
      match TCPSender.segments_out s with
      | [] => Ok (s, [], [])
      | seg :: l => Ok (TCPSender.set_segments_out s l, [], [seg])
      end
  end.

Fixpoint sender_run (s : TCPSender.t) (ops : list sender_op)
  : outcome (TCPSender.t * list byte * list TCPSegment.t) :=
  match ops with
  | [] => Ok (s, [], [])
  | op :: ops' =>
      '(s1, d1, o1) ← sender_step s op;
      '(s2, d2, o2) ← sender_run s1 ops';
      Ok (s2, d1 ++ d2, o1 ++ o2)
  end.

(** Windows are 16-bit, and nothing is written after the end. *)
Definition op_ok (ended : bool) (op : sender_op) : Prop :=
  match op with
  | SWrite _ => ended = false
  | SAck _ win => 0 <= win < two16
  | _ => True
  end.

Fixpoint ops_ok (ended : bool) (ops : list sender_op) : Prop :=
  match ops with
  | [] => True
  | op :: ops' => op_ok ended op /\ ops_ok (ended || match op with SEnd => true | _ => false end) ops'
  end.

Definition op_bytes (op : sender_op) : Z := match op with SWrite d => zlen d | _ => 0 end.
Definition ops_bytes (ops : list sender_op) : Z := foldr (fun op n => op_bytes op + n) 0 ops.

(** All segments of a list belong to the connection and were sent. *)
Definition all_sent (S : list byte) (s : TCPSender.t) (l : list TCPSegment.t) : Prop :=
  Forall (fun seg => exists n, sent_ok S (TCPSender.isn_ s) (TCPSender.next_seqno_ s) n seg) l.

Lemma all_sent_mono S s s' l :
  TCPSender.isn_ s' = TCPSender.isn_ s -> TCPSender.next_seqno_ s <= TCPSender.next_seqno_ s' ->
  all_sent S s l -> all_sent S s' l.
Proof.
  intros Hi Hn Hl. eapply Forall_impl; [exact Hl|]. intros seg [n ?]. exists n. rewrite Hi.
  by eapply sent_ok_mono.
Qed.

Lemma sender_step_spec S s hist op :
  sd_wf S s -> all_sent S s hist -> op_ok (ByteStream.input_ended (TCPSender.stream_ s)) op ->
  zlen S + op_bytes op < two63 ->
  exists s' d o, sender_step s op = Ok (s', d, o) /\ sd_wf (S ++ d) s' /\
    zlen d <= op_bytes op /\
    all_sent (S ++ d) s' (hist ++ o) /\ TCPSender.isn_ s' = TCPSender.isn_ s /\
    ByteStream.input_ended (TCPSender.stream_ s') =
      ByteStream.input_ended (TCPSender.stream_ s) || match op with SEnd => true | _ => false end.
Proof.
  intros Hwf Hh Hop Hfit. unfold sender_step, TCPSender.stream_in.
  destruct op as [data| | |ackno win|ms| |]; simpl in *.
  - destruct (sender_write S s data Hwf Hop) as (st' & d & -> & Hd & Hl & Hie & Hwf'); [lia|].
    simpl. do 3 eexists. split; [done|]. rewrite <- Hd, app_nil_r.
    split; [done|]. split. { rewrite Hd, zlen_ztake. lia. } split; [|split; [done|by rewrite Hop; simpl]].
    apply (history_extend S d s); [apply Hwf| |done].
    destruct (TCPSender.sent_fin_ s) eqn:E; [|done].
    destruct (sd_fin _ _ (sd_is_core _ _ Hwf) E). congruence.
  - do 3 eexists. split; [done|]. rewrite !app_nil_r, orb_true_r. split; [by apply sender_end_input|done].
  - destruct (fill_window_spec S s Hwf) as (s' & new & -> & Hwf' & Hi & _ & _ & _ & _ & _ & Hn & Hie & _).
    simpl. do 3 eexists. split; [done|]. rewrite !app_nil_r, orb_false_r.
    split; [done|]. split; [done|]. split; [by eapply all_sent_mono|]. done.
  - destruct (ack_received_spec S s ackno win Hwf Hop) as (Hwf' & Hi & _ & Hn & Hst & _).
    do 3 eexists. split; [done|]. rewrite !app_nil_r, orb_false_r, Hst. split; [done|].
    split; [done|]. split; [|done]. eapply all_sent_mono; [done|lia|done].
  - destruct (tick_spec S s ms Hwf) as (s' & -> & Hwf' & Hi & _ & Hn & _ & _ & Hst & _). simpl.
    do 3 eexists. split; [done|]. rewrite !app_nil_r, orb_false_r, Hst. split; [done|].
    split; [done|]. split; [|done]. eapply all_sent_mono; [done|lia|done].
  - destruct (send_empty_spec S s Hwf) as [Hwf' _].
    do 3 eexists. split; [done|]. by rewrite !app_nil_r, orb_false_r.
  - unfold TCPSender.segments_out. destruct (TCPSender.segments_out_ s) as [|seg l] eqn:E;
      (do 3 eexists; split; [done|]); rewrite !app_nil_r, orb_false_r; [done|].
    split. { apply dequeue_spec; [done|]. rewrite E. simpl. auto. }
    split; [done|]. split; [|done]. apply Forall_app. split; [done|].
    pose proof (sd_out _ _ (sd_is_core _ _ Hwf)) as Ho. rewrite E in Ho.
    inversion Ho; subst. by constructor.
Qed.

Lemma sender_run_spec S s hist ops :
  sd_wf S s -> all_sent S s hist -> ops_ok (ByteStream.input_ended (TCPSender.stream_ s)) ops ->
  zlen S + ops_bytes ops < two63 ->
  exists s' d o, sender_run s ops = Ok (s', d, o) /\ sd_wf (S ++ d) s' /\
    all_sent (S ++ d) s' (hist ++ o) /\ TCPSender.isn_ s' = TCPSender.isn_ s.
Proof.
  revert S s hist. induction ops as [|op ops IH]; intros S s hist Hwf Hh Hok Hfit.
  { exists s, [], []. by rewrite !app_nil_r. }
  destruct Hok as [Hop Hops]. simpl in Hfit.
  assert (0 <= ops_bytes ops).
  { clear. induction ops as [|o l IH]; simpl; [lia|]. destruct o; simpl; lia. }
  destruct (sender_step_spec S s hist op Hwf Hh Hop) as
    (s1 & d1 & o1 & E1 & Hwf1 & Hd1 & Hh1 & Hi1 & Hie1); [lia|].
  rewrite <- Hie1 in Hops.
  destruct (IH (S ++ d1) s1 (hist ++ o1) Hwf1 Hh1 Hops) as (s2 & d2 & o2 & E2 & Hwf2 & Hh2 & Hi2);
    [rewrite zlen_app; lia|].
  exists s2, (d1 ++ d2), (o1 ++ o2). simpl. rewrite E1. simpl. rewrite E2. simpl.
  rewrite !app_assoc. split_and!; try done. congruence.
Qed.

(** ** Properties *)

(** C11. An owner who writes nothing after [end_input] can otherwise write, end the stream, fill the
    window, let time pass and take segments in any order, and whatever acknowledgments arrive, no
    operation throws, reads an empty queue or loops, and the sender stays well formed:
    every segment ever handed to the network is a piece of the bytes written, at the
    sequence number that belongs to it, of at most [MAX_PAYLOAD_SIZE] bytes, with SYN on
    the first and FIN only at the end; the segments kept for retransmission follow each
    other without a gap up to the next sequence number.  The condition on the owner is
    needed: a byte written after the FIN was sent goes out behind it. *)
Theorem sender_run_correct (k rto random : Z) (isn : option WrappingInt32.t) (ops : list sender_op)
  (Hk : 0 < k <= string_max_size) (Hrto : 0 <= rto < two16)
  (Hisn : WrappingInt32.ok (default (WrappingInt32.mk random) isn))
  (Hops : ops_ok false ops) (Hfit : ops_bytes ops < two63) :
  exists s0 s written out,
    TCPSender.make k rto isn random = Ok s0 /\ sender_run s0 ops = Ok (s, written, out) /\
    sd_wf written s /\
    Forall (fun seg => exists n,
      sent_ok written (TCPSender.isn_ s0) (TCPSender.next_seqno_ s) n seg) out.
Proof.
  destruct (sd_make_spec k rto isn random Hk Hrto Hisn) as (s0 & Hm & Hwf & Hn & Hi & Ho & Hie).
  rewrite <- Hie in Hops.
  destruct (sender_run_spec [] s0 [] ops Hwf (Forall_nil_2 _) Hops) as
    (s & d & o & Hrun & Hwf' & Hall & Hi'); [simpl; lia|].
  exists s0, s, d, o. rewrite <- Hi'. done.
Qed.

(** A connection attempt whose SYN is acknowledged, then data. *)
Definition sample_ops : list sender_op :=
  [SFill; SDequeue; SWrite hello; SAck (WrappingInt32.mk 8) 3; SFill; STick 1000; SDequeue].

Lemma sender_run_correct_witness :
  exists s0 s written out,
    TCPSender.make 100 1000 (Some (WrappingInt32.mk 7)) 0 = Ok s0 /\
    sender_run s0 sample_ops = Ok (s, written, out) /\ sd_wf written s /\ written = hello.
Proof.
  destruct (sender_run_correct 100 1000 0 (Some (WrappingInt32.mk 7)) sample_ops) as
    (s0 & s & w & o & Hm & Hr & Hwf & _).
  - unfold string_max_size. lia.
  - lia.
  - unfold WrappingInt32.ok. simpl. lia.
  - simpl. lia.
  - vm_compute. reflexivity.
  - exists s0, s, w, o. split; [exact Hm|]. split; [exact Hr|]. split; [exact Hwf|].
    vm_compute in Hm. injection Hm as <-. vm_compute in Hr. injection Hr as _ <- _. reflexivity.
Defined.

(** The stream is ended and its FIN sent; then the owner writes one more byte, which the stream
    accepts and [fill_window] sends. *)
Definition late_write : list sender_op :=
  [SFill; SDequeue; SAck (WrappingInt32.mk 8) 10; SEnd; SFill; SDequeue; SWrite [Byte.x41]; SFill; SDequeue].

(** What shows of a segment: sequence number, FIN and payload. *)
Definition seen (seg : TCPSegment.t) : Z * bool * list byte :=
  (WrappingInt32.raw_value (TCPHeader.seqno (TCPSegment.header seg)), TCPHeader.fin (TCPSegment.header seg),
   Buffer.str (TCPSegment.payload seg)).

Definition sent_in_run (ops : list sender_op) : outcome (list (Z * bool * list byte)) :=
  s0 ← TCPSender.make 100 1000 (Some (WrappingInt32.mk 7)) 0;
  '(_, _, out) ← sender_run s0 ops;
  Ok (map seen out).

Lemma write_after_fin_is_sent :
  sent_in_run late_write = Ok [(7, false, []); (8, true, []); (9, false, [Byte.x41])].
Proof. vm_compute. reflexivity. Qed.

(** C12. [fill_window] terminates and fills the window: it only appends segments, keeps the
    invariant, sends nothing past the right edge of the window the peer advertised (a zero
    window counting as one), and stops only when the window is full or the stream is
    drained and its FIN sent; the timer runs afterwards exactly if anything is outstanding.
    The one exception to the right edge is a SYN on an already ended short stream. *)
Theorem fill_window_correct (S : list byte) (s : TCPSender.t) (Hs : sd_wf S s) :
  exists s' new, TCPSender.fill_window s = Ok s' /\ sd_wf S s' /\
    TCPSender.segments_out_ s' = TCPSender.segments_out_ s ++ (snd <$> new) /\
    TCPSender.buffer_ s' = TCPSender.buffer_ s ++ new /\
    (TCPSender.next_seqno_ s' <= Z.max (TCPSender.next_seqno_ s) (right_edge s) \/ overrun s) /\
    (right_edge s <= TCPSender.next_seqno_ s' \/ drained s') /\
    RetransmissionTimer.running (TCPSender.timer_ s') =
      negb (bool_decide (TCPSender.buffer_ s' = [])).
Proof.
  destruct (fill_window_spec S s Hs) as (s' & new & Hf & Hwf & _ & _ & _ & _ & Ho & Hb & _ & _ & Hw & Hd).
  exists s', new. split_and!; try done. apply Hwf.
Qed.

(** A sender that was just made. *)
Definition fresh_sender : TCPSender.t :=
  match TCPSender.make 100 1000 (Some (WrappingInt32.mk 7)) 0 with
  | Ok s => s
  | _ => TCPSender.mk (WrappingInt32.mk 0) [] [] (RetransmissionTimer.make 0) 0 wrapped_stream 0 0 0 false
  end.

Lemma fresh_sender_wf : sd_wf [] fresh_sender.
Proof.
  destruct (sd_make_spec 100 1000 (Some (WrappingInt32.mk 7)) 0) as (s & Hm & Hwf & _);
    [unfold string_max_size; lia|lia|unfold WrappingInt32.ok; simpl; lia|].
  unfold fresh_sender. by rewrite Hm.
Qed.

Lemma fill_window_correct_witness :
  exists s' (new : list (Z * TCPSegment.t)), TCPSender.fill_window fresh_sender = Ok s' /\
    sd_wf [] s' /\ TCPSender.segments_out_ s' = TCPSender.segments_out_ fresh_sender ++ (snd <$> new).
Proof.
  destruct (fill_window_correct [] fresh_sender fresh_sender_wf) as (s' & new & H1 & H2 & H3 & _).
  exists s', new. auto.
Defined.

(** C13. Acknowledgments: one beyond what was sent changes nothing at all; any other sets the
    window, and if it is new advances the left edge to it, drops exactly the segments that
    are acknowledged in full and restarts the backoff; the left edge never moves back and
    never passes the next sequence number. *)
Theorem ack_received_correct (S : list byte) (s : TCPSender.t) (ackno : WrappingInt32.t) (win : Z)
  (Hs : sd_wf S s) (Hwin : 0 <= win < two16) :
  let s' := TCPSender.ack_received s ackno win in
  let abs := unwrap ackno (TCPSender.isn_ s) (TCPSender.seqno_acked_ s) in
  sd_wf S s' /\
  (TCPSender.next_seqno_ s < abs -> s' = s) /\
  (abs <= TCPSender.next_seqno_ s ->
     TCPSender.window_size_ s' = win /\
     TCPSender.seqno_acked_ s' = Z.max (TCPSender.seqno_acked_ s) abs /\
     TCPSender.buffer_ s' = TCPSender.drop_acked (TCPSender.seqno_acked_ s') (TCPSender.buffer_ s) /\
     (TCPSender.seqno_acked_ s < abs -> TCPSender.consecutive_retransmissions s' = 0) /\
     TCPSender.bytes_in_flight s' = TCPSender.next_seqno_ s - TCPSender.seqno_acked_ s').
Proof.
  intros s' abs. destruct (ack_received_spec S s ackno win Hs Hwin) as
    (Hwf & Hi & _ & Hn & _ & _ & Hbog & Hreal). fold s' in Hwf, Hi, Hn, Hbog, Hreal.
  unfold bogus_ack, fresh_ack in *. fold abs in Hbog, Hreal.
  split; [done|]. split; [intros ?; apply Hbog; by apply Z.ltb_lt|]. intros Hle.
  destruct Hreal as (Hw & Ha & Hb & Hc); [by apply Z.ltb_ge|].
  rewrite (proj2 (Z.leb_le _ _) Hle), andb_true_r in Ha, Hc.
  split; [done|]. split; [rewrite Ha; ztests|]. split; [done|]. split.
  - intros Hlt%Z.ltb_lt. unfold TCPSender.consecutive_retransmissions. by rewrite Hc, Hlt.
  - pose proof (sd_is_core _ _ Hwf) as Hcore. pose proof (sd_next_bound _ _ Hcore) as Hnb.
    pose proof (sd_acked _ _ Hcore). pose proof (sd_small _ _ Hcore).
    unfold TCPSender.bytes_in_flight. rewrite u64_small; lia.
Qed.

(** The same sender after it sent its SYN. *)
Definition syn_sender : TCPSender.t :=
  match TCPSender.fill_window fresh_sender with Ok s => s | _ => fresh_sender end.

Lemma syn_sender_wf : sd_wf [] syn_sender.
Proof.
  destruct (fill_window_spec [] fresh_sender fresh_sender_wf) as (s' & new & Hf & Hwf & _).
  unfold syn_sender. by rewrite Hf.
Qed.

(** An acknowledgment beyond what was sent, and the one of the SYN. *)
Lemma ack_received_correct_witness :
  TCPSender.ack_received syn_sender (WrappingInt32.mk 900) 5 = syn_sender /\
  let s' := TCPSender.ack_received syn_sender (WrappingInt32.mk 8) 5 in
  sd_wf [] s' /\ TCPSender.window_size_ s' = 5 /\ TCPSender.seqno_acked_ s' = 1 /\ TCPSender.buffer_ s' = [] /\
  TCPSender.bytes_in_flight s' = 0.
Proof.
  split.
  - destruct (ack_received_correct [] syn_sender (WrappingInt32.mk 900) 5 syn_sender_wf) as (_ & H & _);
      [lia|]. apply H. vm_compute. reflexivity.
  - destruct (ack_received_correct [] syn_sender (WrappingInt32.mk 8) 5 syn_sender_wf) as (H1 & _ & H); [lia|].
    destruct H as (H2 & H3 & H4 & _ & H5); [vm_compute; discriminate|].
    split; [exact H1|]. split; [exact H2|]. split; [rewrite H3; vm_compute; reflexivity|].
    split; [rewrite H4; vm_compute; reflexivity|rewrite H5; vm_compute; reflexivity].
Defined.

(** C14. The retransmission timer: [tick] resends exactly the oldest outstanding segment and
    does so exactly when the timer runs and has waited its timeout; each such expiry with a
    non-zero window counts one retransmission and doubles the timeout, so that while
    anything is outstanding the timeout is the initial one times two to the number of
    consecutive retransmissions; with a zero window the timeout stays. *)
Theorem tick_correct (S : list byte) (s : TCPSender.t) (ms : Z) (Hs : sd_wf S s) :
  exists s', TCPSender.tick s ms = Ok s' /\ sd_wf S s' /\
    TCPSender.segments_out_ s' = TCPSender.segments_out_ s ++
      (if timed_out s ms
       then match TCPSender.buffer_ s with [] => [] | e :: _ => [e.2] end else []) /\
    (timed_out s ms = true -> TCPSender.buffer_ s <> []) /\
    RetransmissionTimer.rto_ (TCPSender.timer_ s') =
      (if timed_out s ms && negb (TCPSender.window_size_ s =? 0)
       then u64 (RetransmissionTimer.rto_ (TCPSender.timer_ s) * 2)
       else RetransmissionTimer.rto_ (TCPSender.timer_ s)) /\
    (exists k, 0 <= k /\ TCPSender.consecutive_retransmissions s' = u32 k /\
       (TCPSender.buffer_ s' <> [] ->
        RetransmissionTimer.rto_ (TCPSender.timer_ s') =
        u64 (RetransmissionTimer.initial_rto_ (TCPSender.timer_ s') * 2 ^ k))).
Proof.
  destruct (tick_spec S s ms Hs) as (s' & Ht & Hwf & _ & _ & _ & _ & _ & _ & _ & Ho & _ & Hr).
  exists s'. split_and!; try done.
  - unfold timed_out. rewrite (sd_timer _ _ Hs). intros [H _]%andb_prop.
    apply negb_true_iff, bool_decide_eq_false in H. done.
  - destruct Hwf as [_ Htim (k & Hk & Hc & Hrto) _]. exists k. split_and!; try done.
    intros Hne. rewrite Htim in Hrto. by rewrite bool_decide_eq_false_2 in Hrto.
Qed.

(** The SYN is resent when its timeout of one second is over, and the timeout doubles. *)
Lemma tick_correct_witness :
  exists s', TCPSender.tick syn_sender 1000 = Ok s' /\ sd_wf [] s' /\
    length (TCPSender.segments_out_ s') = 2%nat /\ RetransmissionTimer.rto_ (TCPSender.timer_ s') = 2000.
Proof.
  destruct (tick_correct [] syn_sender 1000 syn_sender_wf) as (s' & H1 & H2 & H3 & _ & H4 & _).
  exists s'. split; [exact H1|]. split; [exact H2|]. rewrite H3, H4. vm_compute. split; reflexivity.
Defined.

(** One segment does it all when the stream has ended before the SYN is sent. *)
Lemma overrun_fill (S : list byte) (s : TCPSender.t) :
  sd_wf S s -> overrun s ->
  exists s', TCPSender.fill_window s = Ok s' /\ plan_fin s = true /\ TCPSender.sent_fin_ s' = true /\
    TCPSender.next_seqno_ s' = 2 + zlen S /\
    TCPSender.buffer_ s' = TCPSender.buffer_ s ++ [(0, plan_seg s)].
Proof.
  intros Hs Ho.
  pose proof (sd_is_core _ _ Hs) as Hcore. pose proof (sd_right_bound _ _ Hcore) as Hedge.
  destruct Ho as (Hn & Hre & Hie & Hb). pose proof (sd_acked _ _ Hcore).
  assert (Hr : TCPSender.seqno_acked_ s <= TCPSender.next_seqno_ s < right_edge s) by lia.
  destruct (assemble_segment_spec S s Hcore Hr) as (s1 & st' & He & Hs1 & Hcore' & Hct & Hin).
  assert (Hroom : room s = 0). { unfold right_edge, room in *. rewrite Hn in *. simpl fin_num. lia. }
  assert (Hsf : TCPSender.sent_fin_ s = false /\ ByteStream.bytes_read (TCPSender.stream_ s) = 0).
  { pose proof (ByteStream.wf_read _ (sd_stream _ _ Hcore)). unfold ByteStream.bytes_read.
    pose proof (fin_num_range (TCPSender.sent_fin_ s)).
    destruct (sd_next _ _ Hcore) as [(_ & ? & ?)|?]; [done|]. unfold ByteStream.bytes_read in *. lia. }
  destruct Hsf as [Hsf Hrd]. pose proof (sd_read _ _ Hcore) as HS. rewrite Hrd in HS.
  assert (Hpf : plan_fin s = true).
  { unfold plan_fin. rewrite Hsf, Hie, Hroom. simpl. by apply Z.leb_le. }
  assert (Hpn : plan_next s = 2 + zlen S).
  { unfold plan_next, plan_len. rewrite Hpf, Hn. simpl fin_num. lia. }
  assert (Hnil : ByteStream.contents st' = []).
  { rewrite Hct. apply zdrop_ge. unfold plan_len. rewrite Hpf. lia. }
  unfold TCPSender.fill_window.
  rewrite (u64_small (TCPSender.seqno_acked_ s + _)) by (unfold right_edge in *; lia).
  change (TCPSender.seqno_acked_ s + Z.max 1 (TCPSender.window_size_ s)) with (right_edge s).
  rewrite Hre, Hn. change (Z.to_nat (1 - 0)) with 1%nat. cbn [TCPSender.fill_loop].
  rewrite Hn. change (0 <? 1) with true. cbv iota. rewrite <- Hn, He. cbn [mbind outcome_bind].
  rewrite Hs1. change (TCPSender.stream_ (planned s st')) with st'.
  rewrite bs_buffer_empty by apply Hcore'. rewrite Hnil. rewrite bool_decide_eq_true_2 by done.
  cbv iota. cbn [mbind outcome_bind].
  assert (Hnew : plan_new s = [(0, plan_seg s)]).
  { unfold plan_new. destruct (plan_seg_ok S s Hcore Hr) as [-> _]. rewrite Hpf, Hn. simpl fin_num.
    destruct (plan_bounds s Hr) as (_ & Hl & _). ztests. done. }
  destruct (_ && _); (eexists; split; [done|]); simpl; rewrite ?Hpf, ?Hpn, ?Hnew, ?orb_true_r;
    split_and!; try done; by rewrite Hn.
Qed.

(** The right edge is overrun in the exceptional case: when the stream has ended with at
    most [MAX_PAYLOAD_SIZE] bytes before the SYN is sent, the room left after the SYN is
    zero, the subtraction for the FIN wraps around, and SYN, data and FIN go out at once
    into a window of one. *)
Theorem syn_fin_overrun (S : list byte) (s : TCPSender.t) (Hs : sd_wf S s) (Ho : overrun s) :
  exists s', TCPSender.fill_window s = Ok s' /\ TCPSender.sent_fin_ s' = true /\
    TCPSender.next_seqno_ s' = 2 + zlen S /\ right_edge s < TCPSender.next_seqno_ s'.
Proof.
  destruct (overrun_fill S s Hs Ho) as (s' & Hf & _ & Hsf & Hn & _). exists s'.
  destruct Ho as (_ & Hre & _). pose proof (zlen_nonneg S). split_and!; (done || lia).
Qed.

(** The same sender with a closed stream. *)
Definition closed_sender : TCPSender.t :=
  TCPSender.set_stream_in fresh_sender (ByteStream.end_input (TCPSender.stream_ fresh_sender)).

Lemma syn_fin_overrun_witness :
  exists s', TCPSender.fill_window closed_sender = Ok s' /\ TCPSender.sent_fin_ s' = true /\
    TCPSender.next_seqno_ s' = 2 /\ right_edge closed_sender < TCPSender.next_seqno_ s'.
Proof.
  apply (syn_fin_overrun [] closed_sender).
  - apply sender_end_input, fresh_sender_wf.
  - repeat split; vm_compute; congruence.
Defined.
