(* ===== verification/Connection.v ===== *)
(** * Connection.v: one endpoint of a TCP connection

    Models [libsponge/tcp_connection.hh] and [libsponge/tcp_connection.cc]: [TCPConnection]
    joins a [TCPSender] and a [TCPReceiver], stamps outgoing segments with the
    acknowledgment and the window, and decides when the connection is over. *)

From S2P Require Import Prelude Wrapping Streams Reassembler Buffers TcpWire Receiver Sender.

Module TCPConnection.

Record t := mk {
  cfg_ : TCPConfig.t;
  receiver_ : TCPReceiver.t;
  sender_ : TCPSender.t;
  segments_out_ : list TCPSegment.t;
  time_passed : Z;
  linger_after_streams_finish_ : bool
}.

(** Assignments to the fields. *)
Definition set_receiver (c : t) v : t :=
  mk (cfg_ c) v (sender_ c) (segments_out_ c) (time_passed c) (linger_after_streams_finish_ c).
Definition set_sender (c : t) v : t :=
  mk (cfg_ c) (receiver_ c) v (segments_out_ c) (time_passed c) (linger_after_streams_finish_ c).
Definition set_segments_out (c : t) v : t :=
  mk (cfg_ c) (receiver_ c) (sender_ c) v (time_passed c) (linger_after_streams_finish_ c).
Definition set_time_passed (c : t) v : t :=
  mk (cfg_ c) (receiver_ c) (sender_ c) (segments_out_ c) v (linger_after_streams_finish_ c).
Definition set_linger (c : t) v : t :=
  mk (cfg_ c) (receiver_ c) (sender_ c) (segments_out_ c) (time_passed c) v.

(** The constructor; [random] is the sender's random initial sequence number. *)
Definition make (cfg : TCPConfig.t) (random : Z) : outcome t :=
  receiver ← TCPReceiver.make (TCPConfig.recv_capacity cfg);
  sender ← TCPSender.make (TCPConfig.send_capacity cfg) (TCPConfig.rt_timeout cfg)
             (TCPConfig.fixed_isn cfg) random;
  Ok (mk cfg receiver sender [] 0 true).

Definition segments_out (c : t) : list TCPSegment.t := segments_out_ c.
Definition inbound_stream (c : t) : ByteStream.t := TCPReceiver.stream_out (receiver_ c).

(** The body of the loop of [send_segment_with_info]; [header.win] is a [uint16_t]. *)
Definition stamp (r : TCPReceiver.t) (seg : TCPSegment.t) : TCPSegment.t :=
  let header := TCPSegment.header seg in
  let header :=
    match TCPReceiver.ackno r with
    | Some ackno => TCPHeader.set_ackno (TCPHeader.set_ack header true) ackno
    | None => header
    end in
  TCPSegment.set_header seg (TCPHeader.set_win header (u16 (TCPReceiver.window_size r))).

Definition send_segment_with_info (c : t) : t :=
  let out := TCPSender.segments_out (sender_ c) in
  set_segments_out (set_sender c (TCPSender.set_segments_out (sender_ c) []))
    (segments_out_ c ++ (stamp (receiver_ c) <$> out)).

(** [sender_.segments_out().back().header().rst = true]. *)
Definition set_back_rst (l : list TCPSegment.t) : outcome (list TCPSegment.t) :=
  match last l with
  | None => Undefined
  | Some seg =>
      Ok (take (length l - 1) l ++
          [TCPSegment.set_header seg (TCPHeader.set_rst (TCPSegment.header seg) true)])
  end.

Definition send_rst (c : t) : outcome t :=
  let sender := TCPSender.send_empty_segment (sender_ c) in
  out ← set_back_rst (TCPSender.segments_out sender);
  Ok (send_segment_with_info (set_sender c (TCPSender.set_segments_out sender out))).

Definition dirty_abort (c : t) : t :=
  let sender := TCPSender.set_stream_in (sender_ c)
    (ByteStream.set_error (TCPSender.stream_in (sender_ c))) in
  let receiver := TCPReceiver.set_stream_out (receiver_ c)
    (ByteStream.set_error (TCPReceiver.stream_out (receiver_ c))) in
  set_linger (set_receiver (set_sender c sender) receiver) false.

Definition abort (c : t) : t := set_linger c false.

Definition remaining_outbound_capacity (c : t) : Z :=
  ByteStream.remaining_capacity (TCPSender.stream_in (sender_ c)).
Definition bytes_in_flight (c : t) : Z := TCPSender.bytes_in_flight (sender_ c).
Definition unassembled_bytes (c : t) : Z := TCPReceiver.unassembled_bytes (receiver_ c).
Definition time_since_last_segment_received (c : t) : Z := time_passed c.

Definition segment_received (c : t) (seg : TCPSegment.t) : outcome t :=
  let header := TCPSegment.header seg in
  if TCPHeader.rst header then Ok (dirty_abort c)
  else
    receiver ← TCPReceiver.segment_received (receiver_ c) seg;
    let c := set_receiver c receiver in
    match TCPReceiver.ackno (receiver_ c) with
    | None => Ok c
    | Some ackno =>
        sender ←
          (if TCPHeader.ack header then
             TCPSender.fill_window
               (TCPSender.ack_received (sender_ c) (TCPHeader.ackno header) (TCPHeader.win header))
           else if TCPHeader.syn header then TCPSender.fill_window (sender_ c)
           else Ok (sender_ c));
        let c := set_sender c sender in
        let c :=
          if TCPHeader.fin header then
            if negb (ByteStream.eof (TCPSender.stream_in (sender_ c))) then set_linger c false else c
          else c in
        let seg_length := TCPSegment.length_in_sequence_space seg in
        let c :=
          if (seg_length =? 0) &&
             WrappingInt32.eqb (TCPHeader.seqno header) (WrappingInt32.sub ackno 1)
          then set_sender c (TCPSender.send_empty_segment (sender_ c)) else c in
        let c :=
          if negb (seg_length =? 0) &&
             bool_decide (TCPSender.segments_out (sender_ c) = [])
          then set_sender c (TCPSender.send_empty_segment (sender_ c)) else c in
        let c := send_segment_with_info c in
        Ok (set_time_passed c 0)
    end.

Definition active (c : t) : bool :=
  let out := TCPSender.stream_in (sender_ c) in
  let inb := TCPReceiver.stream_out (receiver_ c) in
  linger_after_streams_finish_ c ||
  ((negb (TCPSender.bytes_in_flight (sender_ c) =? 0) || negb (ByteStream.eof out))
     && negb (ByteStream.error out)) ||
  (negb (ByteStream.eof inb) && negb (ByteStream.error inb)).

Definition write (c : t) (data : list byte) : outcome (t * Z) :=
  if ByteStream.input_ended (TCPSender.stream_in (sender_ c)) then Ok (c, 0)
  else
    let send_successfully :=
      Z.min (ByteStream.remaining_capacity (TCPSender.stream_in (sender_ c))) (zlen data) in
    '(stream, _) ← ByteStream.write (TCPSender.stream_in (sender_ c)) data;
    sender ← TCPSender.fill_window (TCPSender.set_stream_in (sender_ c) stream);
    Ok (send_segment_with_info (set_sender c sender), send_successfully).

Definition tick (c : t) (ms_since_last_tick : Z) : outcome t :=
  let c := set_time_passed c (u64 (time_passed c + ms_since_last_tick)) in
  sender ← TCPSender.tick (sender_ c) ms_since_last_tick;
  let c := set_sender c sender in
  c ←
    (if TCPConfig.MAX_RETX_ATTEMPTS <? TCPSender.consecutive_retransmissions (sender_ c) then
       let c := set_sender c (TCPSender.set_segments_out (sender_ c) []) in
       c ← send_rst c;
       Ok (dirty_abort c)
     else Ok c);
  let c :=
    if ByteStream.eof (TCPSender.stream_in (sender_ c)) &&
       ByteStream.eof (TCPReceiver.stream_out (receiver_ c)) &&
       linger_after_streams_finish_ c &&
       (10 * TCPConfig.rt_timeout (cfg_ c) <=? time_passed c)
    then abort c else c in
  Ok (send_segment_with_info c).

Definition end_input_stream (c : t) : outcome t :=
  if ByteStream.input_ended (TCPSender.stream_in (sender_ c)) then Ok c
  else
    let sender := TCPSender.set_stream_in (sender_ c)
      (ByteStream.end_input (TCPSender.stream_in (sender_ c))) in
    sender ← TCPSender.fill_window sender;
    Ok (send_segment_with_info (set_sender c sender)).

Definition connect (c : t) : outcome t :=
  sender ← TCPSender.fill_window (sender_ c);
  Ok (send_segment_with_info (set_sender c sender)).

(** The destructor's effect on the queues; it catches any exception. *)
Definition destroy (c : t) : outcome t :=
  if active c then
    match send_rst c with
    | Ok c' => Ok (dirty_abort c')
    | Throw _ => Ok c
    | Undefined => Undefined
    | OutOfFuel => OutOfFuel
    end
  else Ok c.

End TCPConnection.

(** ** Invariant *)

(** A later state of the same sender: as much or more has been sent. *)
Definition later (s s' : TCPSender.t) : Prop :=
  TCPSender.isn_ s' = TCPSender.isn_ s /\ TCPSender.next_seqno_ s <= TCPSender.next_seqno_ s'.

#[export] Instance later_preorder : PreOrder later.
Proof. split; [intros s; split; [done|lia]|intros s1 s2 s3 [? ?] [? ?]; split; [congruence|lia]]. Qed.

Lemma later_empty s : later s (TCPSender.send_empty_segment s).
Proof. split; simpl; [done|lia]. Qed.

Lemma later_queue s l : later s (TCPSender.set_segments_out s l).
Proof. split; simpl; [done|lia]. Qed.

Lemma later_stream s st : later s (TCPSender.set_stream_in s st).
Proof. split; simpl; [done|lia]. Qed.

#[export] Hint Resolve later_empty later_queue later_stream : sponge.

Section connection_inv.

Import TCPConnection.

(** The bytes written to the outbound stream so far. *)
Variable S : list byte.

(** The state of a connection with respect to its own stream, while segments may wait in
    the sender's queue, and between calls, when that queue is empty. *)
Record cn_pre (c : t) : Prop := {
  cn_sender : sd_wf S (sender_ c);
  cn_out : all_sent S (sender_ c) (segments_out_ c)
}.

Record cn_wf (c : t) : Prop := {
  cn_is_pre : cn_pre c;
  cn_flushed : TCPSender.segments_out_ (sender_ c) = []
}.

(** What stamping changes does not matter to the peer's receiver. *)
Lemma sent_ok_header isn next n seg h :
  TCPHeader.seqno h = TCPHeader.seqno (TCPSegment.header seg) ->
  TCPHeader.syn h = TCPHeader.syn (TCPSegment.header seg) ->
  TCPHeader.fin h = TCPHeader.fin (TCPSegment.header seg) ->
  0 <= TCPHeader.win h < two16 ->
  sent_ok S isn next n seg -> sent_ok S isn next n (TCPSegment.set_header seg h).
Proof.
  destruct seg as [hd pl]. unfold TCPSegment.set_header, TCPSegment.header; simpl.
  intros Hq Hs Hf Hwin [[Hseq Hsyn Hdata] Hr Hz Hp _].
  unfold seg_len, TCPSegment.length_in_sequence_space, TCPSegment.header, TCPSegment.payload in *.
  simpl in *. split; [split|..]; unfold TCPSegment.header, TCPSegment.payload; simpl;
    rewrite ?Hq, ?Hs, ?Hf; try done;
    unfold seg_len, TCPSegment.length_in_sequence_space, TCPSegment.header, TCPSegment.payload; simpl;
    rewrite ?Hs, ?Hf; done.
Qed.

Lemma sent_ok_stamp isn next n r seg :
  sent_ok S isn next n seg -> sent_ok S isn next n (stamp r seg).
Proof.
  intros H. unfold stamp.
  apply sent_ok_header; [..|done]; destruct (TCPReceiver.ackno r); try done; apply u16_range.
Qed.

Lemma all_sent_stamp s r l : all_sent S s l -> all_sent S s (stamp r <$> l).
Proof.
  intros Hl. apply Forall_fmap. eapply Forall_impl; [exact Hl|].
  intros seg [n Hn]. exists n. by apply sent_ok_stamp.
Qed.

Lemma sd_set_out s l :
  sd_wf S s -> all_sent S s l -> sd_wf S (TCPSender.set_segments_out s l).
Proof. intros [[] ? ? ?] Hl. by split. Qed.

Lemma flush_wf c : cn_pre c -> cn_wf (send_segment_with_info c).
Proof.
  intros [Hs Ho]. split; [|done]. split; simpl.
  - apply sd_set_out; [done|constructor].
  - apply Forall_app. split; [done|].
    apply (all_sent_stamp (sender_ c)). apply (sd_out _ _ (sd_is_core _ _ Hs)).
Qed.

(** Replacing the sender by one that has sent at least as much. *)
Lemma set_sender_pre c s :
  cn_pre c -> sd_wf S s -> later (sender_ c) s -> cn_pre (set_sender c s).
Proof. intros [Hs Ho] Hwf [Hi Hn]. split; [done|]. by eapply all_sent_mono. Qed.

Lemma fill_pre c :
  cn_pre c ->
  exists s, TCPSender.fill_window (sender_ c) = Ok s /\ cn_pre (set_sender c s) /\ later (sender_ c) s.
Proof.
  intros Hc. destruct (fill_window_spec S (sender_ c)) as
    (s & new & Hf & Hwf & Hi & _ & _ & _ & _ & _ & Hn & _); [apply Hc|].
  assert (later (sender_ c) s) by done.
  exists s. split; [done|]. split; [by apply set_sender_pre|done].
Qed.

Lemma ack_pre c ackno win :
  cn_pre c -> 0 <= win < two16 ->
  cn_pre (set_sender c (TCPSender.ack_received (sender_ c) ackno win)) /\
  later (sender_ c) (TCPSender.ack_received (sender_ c) ackno win).
Proof.
  intros Hc Hw. destruct (ack_received_spec S (sender_ c) ackno win) as (Hwf & Hi & _ & Hn & _);
    [apply Hc|done|].
  assert (later (sender_ c) (TCPSender.ack_received (sender_ c) ackno win)) by (split; [done|lia]).
  split; [by apply set_sender_pre|done].
Qed.

Lemma empty_pre c :
  cn_pre c -> cn_pre (set_sender c (TCPSender.send_empty_segment (sender_ c))).
Proof.
  intros Hc. destruct (send_empty_spec S (sender_ c)) as [Hwf _]; [apply Hc|].
  apply set_sender_pre; try done.
Qed.

Lemma tick_pre c ms :
  cn_pre c ->
  exists s, TCPSender.tick (sender_ c) ms = Ok s /\ cn_pre (set_sender c s) /\ later (sender_ c) s.
Proof.
  intros Hc. destruct (tick_spec S (sender_ c) ms) as (s & Ht & Hwf & Hi & _ & Hn & _); [apply Hc|].
  assert (later (sender_ c) s) by (split; [done|lia]).
  exists s. split; [done|]. split; [by apply set_sender_pre|done].
Qed.

Lemma set_back_rst_snoc l x :
  set_back_rst (l ++ [x]) =
  Ok (l ++ [TCPSegment.set_header x (TCPHeader.set_rst (TCPSegment.header x) true)]).
Proof.
  unfold set_back_rst. rewrite last_snoc. do 2 f_equal.
  rewrite length_app. simpl. rewrite Nat.add_sub. by rewrite take_app_length.
Qed.

Lemma send_rst_spec c :
  cn_pre c ->
  exists c' seg, send_rst c = Ok c' /\ cn_wf c' /\ receiver_ c' = receiver_ c /\
    later (sender_ c) (sender_ c') /\
    TCPSender.stream_ (sender_ c') = TCPSender.stream_ (sender_ c) /\
    linger_after_streams_finish_ c' = linger_after_streams_finish_ c /\ cfg_ c' = cfg_ c /\
    time_passed c' = time_passed c /\
    segments_out_ c' = segments_out_ c
      ++ (stamp (receiver_ c) <$> TCPSender.segments_out_ (sender_ c)) ++ [seg] /\
    TCPHeader.rst (TCPSegment.header seg) = true.
Proof.
  intros Hc. pose proof (empty_pre c Hc) as He. destruct He as [Hs Ho]. simpl in Hs, Ho.
  unfold send_rst, TCPSender.segments_out.
  pose proof (sd_out _ _ (sd_is_core _ _ Hs)) as Hq.
  set (s := TCPSender.send_empty_segment (sender_ c)) in *.
  assert (Hl : TCPSender.segments_out_ s = TCPSender.segments_out_ (sender_ c) ++
    [TCPSegment.set_header TCPSegment.make
      (TCPHeader.set_seqno TCPHeader.make (TCPSender.next_seqno (sender_ c)))]) by done.
  rewrite Hl in *. rewrite set_back_rst_snoc. cbn [mbind outcome_bind].
  set (x := TCPSegment.set_header TCPSegment.make _) in *.
  set (y := TCPSegment.set_header x _).
  assert (Hpre : cn_pre (set_sender c (TCPSender.set_segments_out s
    (TCPSender.segments_out_ (sender_ c) ++ [y])))).
  { split; [apply sd_set_out; [done|]|done]. apply Forall_app in Hq as [H1 H2].
    apply Forall_app. split; [done|]. inversion H2 as [|? ? [n Hn] _]; subst.
    constructor; [|done]. exists n. by apply sent_ok_header. }
  eexists _, (stamp (receiver_ c) y). split; [done|]. split; [by apply flush_wf|].
  split_and!; try done.
  - unfold send_segment_with_info; simpl. unfold TCPSender.segments_out; simpl.
    by rewrite fmap_app.
  - unfold stamp. by destruct (TCPReceiver.ackno (receiver_ c)).
Qed.

Lemma dirty_abort_wf c : cn_wf c -> cn_wf (dirty_abort c).
Proof.
  intros [[Hs Ho] Hf]. split; [|done]. split; simpl; [by apply sender_set_error|done].
Qed.

(** ** Lemmas: segments in *)

(** The sender's part of [segment_received]: acknowledge and fill. *)
Lemma respond_pre c h :
  cn_pre c -> 0 <= TCPHeader.win h < two16 ->
  exists s,
    (if TCPHeader.ack h then
       TCPSender.fill_window (TCPSender.ack_received (sender_ c) (TCPHeader.ackno h) (TCPHeader.win h))
     else if TCPHeader.syn h then TCPSender.fill_window (sender_ c) else Ok (sender_ c)) = Ok s /\
    cn_pre (set_sender c s) /\ later (sender_ c) s.
Proof.
  intros Hc Hw. destruct (TCPHeader.ack h).
  - destruct (ack_pre c (TCPHeader.ackno h) (TCPHeader.win h) Hc Hw) as [Hc1 Hl1].
    destruct (fill_pre _ Hc1) as (s & Hf & Hc2 & Hl2). exists s. split; [done|]. split; [done|].
    by etrans.
  - destruct (TCPHeader.syn h).
    + destruct (fill_pre c Hc) as (s & Hf & Hc2 & Hl2). eauto.
    + exists (sender_ c). split; [done|]. split; [by destruct c|done].
Qed.

(** What a segment does to the connection, given what it does to its receiver. *)
Lemma segment_received_spec c seg r' :
  cn_wf c -> 0 <= TCPHeader.win (TCPSegment.header seg) < two16 ->
  TCPHeader.rst (TCPSegment.header seg) = false ->
  TCPReceiver.segment_received (receiver_ c) seg = Ok r' ->
  exists c' new, segment_received c seg = Ok c' /\ cn_wf c' /\ receiver_ c' = r' /\
    later (sender_ c) (sender_ c') /\ cfg_ c' = cfg_ c /\
    segments_out_ c' = segments_out_ c ++ (stamp r' <$> new) /\
    (TCPReceiver.ackno r' <> None -> seg_len seg <> 0 -> new <> []) /\
    (TCPReceiver.ackno r' <> None -> time_passed c' = 0).
Proof.
  intros Hc Hw Hr Hrecv. pose proof Hc as [[Hs Ho] Hf]. unfold segment_received. rewrite Hr, Hrecv.
  cbn [mbind outcome_bind]. simpl receiver_.
  destruct (TCPReceiver.ackno r') as [ackno|] eqn:Ea; cycle 1.
  { exists (set_receiver c r'), []. simpl. rewrite app_nil_r. by split_and!. }
  assert (Hc0 : cn_pre (set_receiver c r')) by done.
  destruct (respond_pre _ (TCPSegment.header seg) Hc0 Hw) as (s & -> & Hc1 & Hl).
  cbn [mbind outcome_bind]. set (c1 := set_sender _ s) in *.
  set (c2 := if TCPHeader.fin _ then _ else c1).
  assert (H2 : cn_pre c2 /\ sender_ c2 = s /\ receiver_ c2 = r' /\ cfg_ c2 = cfg_ c /\
    segments_out_ c2 = segments_out_ c).
  { unfold c2. destruct (TCPHeader.fin _); [|done]. destruct (negb _); [|done].
    split; [by destruct Hc1|done]. }
  clearbody c2. clear Hc0 Hc1. destruct H2 as (Hc2 & Hs2 & Hr2 & Hg2 & Ho2).
  change (TCPSegment.length_in_sequence_space seg) with (seg_len seg).
  set (c3 := if (seg_len seg =? 0) && _ then _ else c2).
  assert (H3 : cn_pre c3 /\ later s (sender_ c3) /\ receiver_ c3 = r' /\ cfg_ c3 = cfg_ c /\
    segments_out_ c3 = segments_out_ c).
  { rewrite <- Hs2. unfold c3. destruct (_ && _); [|done].
    split; [by apply empty_pre|]. split_and!; auto with sponge. }
  clearbody c3. clear Hc2. destruct H3 as (Hc3 & Hl3 & Hr3 & Hg3 & Ho3).
  set (c4 := if negb (seg_len seg =? 0) && _ then _ else c3).
  assert (H4 : cn_pre c4 /\ later (sender_ c3) (sender_ c4) /\ receiver_ c4 = r' /\ cfg_ c4 = cfg_ c /\
    segments_out_ c4 = segments_out_ c /\
    (seg_len seg <> 0 -> TCPSender.segments_out_ (sender_ c4) <> [])).
  { unfold c4, TCPSender.segments_out. destruct (Z.eqb_spec (seg_len seg) 0); simpl; [by split_and!|].
    destruct (bool_decide_reflect (TCPSender.segments_out_ (sender_ c3) = [])) as [E|E]; [|done].
    split; [by apply empty_pre|]. split_and!; auto with sponge. simpl. by rewrite E. }
  clearbody c4. destruct H4 as (Hc4 & Hl4 & Hr4 & Hg4 & Ho4 & Hne).
  destruct (flush_wf c4 Hc4) as [Hp5 Hf5].
  exists (set_time_passed (send_segment_with_info c4) 0), (TCPSender.segments_out_ (sender_ c4)).
  split; [done|]. split; [split; [by destruct Hp5|done]|]. simpl. rewrite Hr4, Ho4.
  split_and!; auto.
  etrans; [exact Hl|]. etrans; [exact Hl3|]. etrans; [exact Hl4|]. apply later_queue.
Qed.

(** ** Lemmas: time *)

Lemma tick_wf c ms :
  cn_wf c ->
  exists c' new, tick c ms = Ok c' /\ cn_wf c' /\ later (sender_ c) (sender_ c') /\ cfg_ c' = cfg_ c /\
    segments_out_ c' = segments_out_ c ++ new /\
    (receiver_ c' = receiver_ c \/
     receiver_ c' = TCPReceiver.set_stream_out (receiver_ c)
       (ByteStream.set_error (TCPReceiver.stream_out (receiver_ c)))).
Proof.
  intros [Hc Hf]. unfold tick.
  assert (Hc0 : cn_pre (set_time_passed c (u64 (time_passed c + ms)))) by (by destruct Hc).
  set (c0 := set_time_passed c _) in *.
  destruct (tick_pre c0 ms Hc0) as (s & -> & Hc1 & Hl). cbn [mbind outcome_bind].
  set (c1 := set_sender c0 s) in *.
  assert (H2 : exists c2 new, (if TCPConfig.MAX_RETX_ATTEMPTS <? TCPSender.consecutive_retransmissions (sender_ c1)
     then c ← send_rst (set_sender c1 (TCPSender.set_segments_out (sender_ c1) []));
          Ok (dirty_abort c) else Ok c1) = Ok c2 /\ cn_pre c2 /\ later s (sender_ c2) /\ cfg_ c2 = cfg_ c /\
     segments_out_ c2 = segments_out_ c ++ new /\
     (receiver_ c2 = receiver_ c \/
      receiver_ c2 = TCPReceiver.set_stream_out (receiver_ c)
       (ByteStream.set_error (TCPReceiver.stream_out (receiver_ c))))).
  { destruct (_ <? _).
    - destruct (send_rst_spec (set_sender c1 (TCPSender.set_segments_out (sender_ c1) [])))
        as (c2 & seg & -> & Hwf2 & Hr2 & Hl2 & _ & _ & Hg2 & _ & Ho2 & _).
      { destruct Hc1 as [Hs1 Ho1]. split; [apply sd_set_out; [done|constructor]|done]. }
      simpl. eexists _, [seg]. split; [done|].
      split; [by destruct (dirty_abort_wf c2 Hwf2)|]. simpl. rewrite Hr2.
      split_and!; try done. by right.
    - exists c1, []. rewrite app_nil_r. split_and!; try done. by left. }
  destruct H2 as (c2 & new & -> & Hc2 & Hl2 & Hg2 & Ho2 & Hr2). cbn [mbind outcome_bind].
  set (c3 := if _ && _ then abort c2 else c2).
  assert (H3 : cn_pre c3 /\ sender_ c3 = sender_ c2 /\ receiver_ c3 = receiver_ c2 /\ cfg_ c3 = cfg_ c /\
    segments_out_ c3 = segments_out_ c2).
  { unfold c3. destruct (_ && _); [|done]. split; [by destruct Hc2|done]. }
  clearbody c3. destruct H3 as (Hc3 & Hs3 & Hr3 & Hg3 & Ho3).
  eexists _, _. split; [done|]. split; [by apply flush_wf|]. simpl. rewrite Hr3, Hs3, Ho3, Ho2.
  rewrite <- app_assoc. split_and!; try done. etrans; [exact Hl|]. done.
Qed.

Lemma connect_wf c :
  cn_wf c ->
  exists c' new, connect c = Ok c' /\ cn_wf c' /\ later (sender_ c) (sender_ c') /\
    cfg_ c' = cfg_ c /\ receiver_ c' = receiver_ c /\ segments_out_ c' = segments_out_ c ++ new.
Proof.
  intros [Hc Hf]. unfold connect. destruct (fill_pre c Hc) as (s & -> & Hc1 & Hl).
  cbn [mbind outcome_bind]. eexists _, _. split; [done|]. split; [by apply flush_wf|]. done.
Qed.

Lemma end_input_wf c :
  cn_wf c ->
  exists c' new, end_input_stream c = Ok c' /\ cn_wf c' /\ later (sender_ c) (sender_ c') /\
    cfg_ c' = cfg_ c /\ receiver_ c' = receiver_ c /\ segments_out_ c' = segments_out_ c ++ new.
Proof.
  intros Hwf. pose proof Hwf as [[Hs Ho] Hf]. unfold end_input_stream.
  destruct (ByteStream.input_ended _).
  { exists c, []. rewrite app_nil_r. by split_and!. }
  assert (Hc0 : cn_pre (set_sender c (TCPSender.set_stream_in (sender_ c)
    (ByteStream.end_input (TCPSender.stream_in (sender_ c)))))).
  { apply set_sender_pre; [done|by apply sender_end_input|done]. }
  destruct (fill_pre _ Hc0) as (s & Hfill & Hc1 & Hl). simpl in Hfill. rewrite Hfill.
  cbn [mbind outcome_bind]. eexists _, _. split; [done|]. split; [by apply (flush_wf (set_sender c s))|]. done.
Qed.

Lemma destroy_wf c :
  cn_wf c -> exists c' new, destroy c = Ok c' /\ cn_wf c' /\ segments_out_ c' = segments_out_ c ++ new.
Proof.
  intros Hwf. pose proof Hwf as [Hc Hf]. unfold destroy. destruct (active c).
  - destruct (send_rst_spec c Hc) as (c2 & seg & -> & Hwf2 & _ & _ & _ & _ & _ & _ & Ho2 & _).
    eexists _, _. split; [done|]. split; [by apply dirty_abort_wf|exact Ho2].
  - exists c, []. by rewrite app_nil_r.
Qed.

End connection_inv.

(** ** Writing and making *)

Section connection_writes.

Import TCPConnection.

Lemma all_sent_extend S d s l :
  sd_wf S s -> TCPSender.sent_fin_ s = false -> all_sent S s l -> all_sent (S ++ d) s l.
Proof. intros Hs Hf Hl. apply history_extend; [apply Hs|done|done]. Qed.

(** Bytes are accepted only while the outbound stream is open, so before the FIN. *)
Lemma write_wf S c data :
  cn_wf S c -> zlen S + zlen data < two63 ->
  exists c' d new, write c data = Ok (c', zlen d) /\ d = ztake (zlen d) data /\
    cn_wf (S ++ d) c' /\ later (sender_ c) (sender_ c') /\ cfg_ c' = cfg_ c /\
    receiver_ c' = receiver_ c /\ segments_out_ c' = segments_out_ c ++ new /\
    (d <> [] -> TCPSender.sent_fin_ (sender_ c) = false).
Proof.
  intros Hwf Hfit. pose proof Hwf as [[Hs Ho] Hf]. unfold write, TCPSender.stream_in.
  destruct (ByteStream.input_ended (TCPSender.stream_ (sender_ c))) eqn:Eie.
  { exists c, [], []. rewrite !app_nil_r. split_and!; try done. by rewrite ztake_le0. }
  destruct (sender_write S (sender_ c) data Hs Eie Hfit) as (st' & d & -> & Hd & Hl & Hie & Hs').
  cbn [mbind outcome_bind].
  assert (Hsf : TCPSender.sent_fin_ (sender_ c) = false).
  { destruct (TCPSender.sent_fin_ (sender_ c)) eqn:E; [|done].
    destruct (sd_fin _ _ (sd_is_core _ _ Hs) E). congruence. }
  assert (Hc0 : cn_pre (S ++ d) (set_sender c (TCPSender.set_stream_in (sender_ c) st'))).
  { split; [done|]. simpl. by apply (all_sent_extend S d (sender_ c)). }
  destruct (fill_pre (S ++ d) _ Hc0) as (s & Hfill & Hc1 & Hlt). simpl in Hfill. rewrite Hfill.
  cbn [mbind outcome_bind].
  replace (Z.min (ByteStream.remaining_capacity _) _) with (zlen d) by lia.
  eexists _, d, _. split; [done|]. split; [done|].
  split; [by apply (flush_wf (S ++ d) (set_sender c s))|]. done.
Qed.

Lemma cn_make_spec cfg random P E :
  0 < TCPConfig.recv_capacity cfg <= string_max_size ->
  0 < TCPConfig.send_capacity cfg <= string_max_size ->
  0 <= TCPConfig.rt_timeout cfg < two16 ->
  WrappingInt32.ok (default (WrappingInt32.mk random) (TCPConfig.fixed_isn cfg)) ->
  exists c, make cfg random = Ok c /\ cn_wf [] c /\ rc_wf P E (receiver_ c) /\
    TCPReceiver.make (TCPConfig.recv_capacity cfg) = Ok (receiver_ c) /\
    TCPSender.isn_ (sender_ c) = default (WrappingInt32.mk random) (TCPConfig.fixed_isn cfg) /\
    TCPReceiver.has_isn_ (receiver_ c) = false /\ TCPReceiver.assembled (receiver_ c) = 0 /\
    TCPReceiver.capacity_ (receiver_ c) = TCPConfig.recv_capacity cfg /\
    segments_out_ c = [] /\ cfg_ c = cfg.
Proof.
  intros Hr Hs Ht Hi. unfold make.
  destruct (rc_make_spec P E _ Hr) as (r & Hm & Hwf & Hcap & Ha & Hh & _). rewrite Hm.
  destruct (sd_make_spec _ _ _ random Hs Ht Hi) as (s & -> & Hsw & Hn & His & Hq & _). simpl.
  eexists. split; [done|]. split; [|done]. split; [|done]. split; [done|]. constructor.
Qed.

End connection_writes.

(** ** Properties *)

(** The fields the receiver contributes to an outgoing segment. *)
Definition stamped (r : TCPReceiver.t) (seg : TCPSegment.t) : Prop :=
  (match TCPReceiver.ackno r with
   | Some a => TCPHeader.ack (TCPSegment.header seg) = true /\
               TCPHeader.ackno (TCPSegment.header seg) = a
   | None => True
   end) /\
  TCPHeader.win (TCPSegment.header seg) = u16 (TCPReceiver.window_size r).

Lemma stamp_stamped r seg : stamped r (TCPConnection.stamp r seg).
Proof. unfold stamped, TCPConnection.stamp. by destruct (TCPReceiver.ackno r). Qed.

Lemma dirty_abort_inactive c :
  TCPConnection.active (TCPConnection.dirty_abort c) = false /\
  ByteStream.error (TCPConnection.inbound_stream (TCPConnection.dirty_abort c)) = true /\
  ByteStream.error (TCPSender.stream_in (TCPConnection.sender_ (TCPConnection.dirty_abort c))) = true.
Proof.
  split; [|done]. unfold TCPConnection.active, TCPConnection.dirty_abort. simpl.
  unfold TCPSender.stream_in, TCPReceiver.stream_out. simpl.
  unfold ByteStream.error. simpl. by rewrite !andb_false_r.
Qed.

(** C15. Whatever segment the network delivers to a connection, the call succeeds and both
    halves stay well formed.  A RST kills the connection: both streams have an error, it is
    no longer active, and nothing is sent.  Otherwise every segment put out carries the
    receiver's acknowledgment number and window as they are after the segment, and a
    segment that occupies sequence numbers is always answered once the peer's SYN is in. *)
Theorem connection_any_segment (S : list byte) (c : TCPConnection.t) (seg : TCPSegment.t)
  (Hc : cn_wf S c) (Hr : rc_wf (fun _ _ => True) (fun _ => True) (TCPConnection.receiver_ c))
  (Hwin : 0 <= TCPHeader.win (TCPSegment.header seg) < two16)
  (Hseq : WrappingInt32.ok (TCPHeader.seqno (TCPSegment.header seg)))
  (Hfit : TCPReceiver.assembled (TCPConnection.receiver_ c)
          + TCPReceiver.capacity_ (TCPConnection.receiver_ c)
          + zlen (Buffer.str (TCPSegment.payload seg)) + 2 < two64) :
  exists c' new, TCPConnection.segment_received c seg = Ok c' /\ cn_wf S c' /\
    rc_wf (fun _ _ => True) (fun _ => True) (TCPConnection.receiver_ c') /\
    TCPConnection.segments_out c' = TCPConnection.segments_out c ++ new /\
    Forall (stamped (TCPConnection.receiver_ c')) new /\
    (TCPHeader.rst (TCPSegment.header seg) = true ->
       new = [] /\ TCPConnection.active c' = false /\
       ByteStream.error (TCPConnection.inbound_stream c') = true /\
       ByteStream.error (TCPSender.stream_in (TCPConnection.sender_ c')) = true) /\
    (TCPHeader.rst (TCPSegment.header seg) = false ->
       TCPSegment.length_in_sequence_space seg <> 0 ->
       TCPReceiver.ackno (TCPConnection.receiver_ c') <> None -> new <> []).
Proof.
  destruct (TCPHeader.rst (TCPSegment.header seg)) eqn:Er.
  - exists (TCPConnection.dirty_abort c), []. unfold TCPConnection.segment_received. rewrite Er.
    split; [done|]. split; [by apply dirty_abort_wf|]. split; [by apply rc_set_error|].
    rewrite app_nil_r. split; [done|]. split; [constructor|]. split; [|done]. intros _.
    split; [done|]. apply dirty_abort_inactive.
  - assert (Hrecv : exists r', TCPReceiver.segment_received (TCPConnection.receiver_ c) seg = Ok r' /\
      rc_wf (fun _ _ => True) (fun _ => True) r').
    { destruct (synced (TCPConnection.receiver_ c) seg) eqn:Es;
        [|rewrite unsynced_received by done; eauto].
      destruct (received_spec _ _ _ seg Hr Es Hseq) as (r' & d & ? & ? & _); try done. eauto. }
    destruct Hrecv as (r' & Hrecv & Hr').
    destruct (segment_received_spec S c seg r' Hc Hwin Er Hrecv) as
      (c' & new & Hs & Hc' & Hrc & _ & _ & Ho & Hne & _).
    exists c', (TCPConnection.stamp r' <$> new). rewrite Hrc. split_and!; try done.
    + apply Forall_fmap, Forall_true. intros x. apply stamp_stamped.
    + intros _ Hl Ha. specialize (Hne Ha Hl). by destruct new.
Qed.

(** A connection for the given receive capacity that was just made. *)
Definition fresh_connection (k : Z) : TCPConnection.t :=
  TCPConnection.mk (TCPConfig.mk 1000 k 100 (Some (WrappingInt32.mk 7)))
    (fresh_receiver k) fresh_sender [] 0 true.

Lemma fresh_connection_wf k P E :
  0 < k <= string_max_size ->
  cn_wf [] (fresh_connection k) /\ rc_wf P E (TCPConnection.receiver_ (fresh_connection k)).
Proof.
  intros Hk. split; [|by apply fresh_receiver_wf]. split; [|done].
  split; [apply fresh_sender_wf|constructor].
Qed.

Lemma connection_any_segment_witness :
  exists c' new, TCPConnection.segment_received (fresh_connection 8) syn_segment = Ok c' /\
    cn_wf [] c' /\ TCPConnection.segments_out c' = [] ++ new /\ new <> [].
Proof.
  destruct (connection_any_segment [] (fresh_connection 8) syn_segment) as
    (c' & new & H1 & H2 & _ & H4 & _ & _ & H5).
  - apply (fresh_connection_wf 8 (fun _ _ => True) (fun _ => True)). unfold string_max_size. lia.
  - apply fresh_connection_wf. unfold string_max_size. lia.
  - simpl. lia.
  - unfold WrappingInt32.ok. simpl. lia.
  - vm_compute. reflexivity.
  - exists c', new. split; [exact H1|]. split; [exact H2|]. split; [exact H4|].
    apply H5; [reflexivity|vm_compute; congruence|].
    vm_compute in H1. injection H1 as <-. vm_compute. congruence.
Defined.

(** C16. Giving up: [tick] lets the sender retransmit; as long as at most
    [MAX_RETX_ATTEMPTS] retransmissions have happened in a row, what goes out is at most the
    oldest outstanding segment and the connection goes on, and beyond that exactly one
    segment goes out, a RST, both streams get an error and the connection is dead. *)
Theorem connection_retx_limit (S : list byte) (c : TCPConnection.t) (ms : Z) (Hc : cn_wf S c) :
  exists c' new, TCPConnection.tick c ms = Ok c' /\ cn_wf S c' /\
    TCPConnection.segments_out c' = TCPConnection.segments_out c ++ new /\
    (exists s, TCPSender.tick (TCPConnection.sender_ c) ms = Ok s /\
       if TCPConfig.MAX_RETX_ATTEMPTS <? TCPSender.consecutive_retransmissions s
       then (exists seg, new = [seg] /\ TCPHeader.rst (TCPSegment.header seg) = true) /\
            TCPConnection.active c' = false /\
            ByteStream.error (TCPConnection.inbound_stream c') = true
       else new = TCPConnection.stamp (TCPConnection.receiver_ c) <$>
                    (if timed_out (TCPConnection.sender_ c) ms
                     then match TCPSender.buffer_ (TCPConnection.sender_ c) with
                          | [] => [] | e :: _ => [e.2] end else []) /\
            TCPConnection.sender_ c' = TCPSender.set_segments_out s [] /\
            TCPConnection.receiver_ c' = TCPConnection.receiver_ c).
Proof.
  pose proof Hc as [[Hs Ho] Hf].
  destruct (tick_spec S (TCPConnection.sender_ c) ms Hs) as
    (s & Ht & Hs' & Hi & _ & Hn & _ & _ & _ & _ & Hq & _).
  unfold TCPConnection.tick.
  change (TCPConnection.sender_ (TCPConnection.set_time_passed c _)) with (TCPConnection.sender_ c).
  rewrite Ht. cbn [mbind outcome_bind].
  set (c0 := TCPConnection.set_sender
    (TCPConnection.set_time_passed c (u64 (TCPConnection.time_passed c + ms))) s).
  assert (Hc0 : cn_pre S c0).
  { split; [done|]. apply (all_sent_mono S (TCPConnection.sender_ c)); [exact Hi|simpl; lia|done]. }
  change (TCPSender.consecutive_retransmissions (TCPConnection.sender_ c0))
    with (TCPSender.consecutive_retransmissions s).
  destruct (TCPConfig.MAX_RETX_ATTEMPTS <? TCPSender.consecutive_retransmissions s) eqn:El.
  - destruct (send_rst_spec S (TCPConnection.set_sender c0
      (TCPSender.set_segments_out (TCPConnection.sender_ c0) [])))
      as (c1 & seg & -> & Hwf1 & _ & _ & _ & _ & _ & _ & Ho1 & Hrst).
    { split; [apply sd_set_out; [done|constructor]|apply Hc0]. }
    cbn [mbind outcome_bind].
    change (TCPConnection.linger_after_streams_finish_ (TCPConnection.dirty_abort c1)) with false.
    rewrite andb_false_r. simpl andb. cbv iota.
    pose proof (dirty_abort_wf S c1 Hwf1) as Hwf2. pose proof Hwf2 as [Hp2 Hf2].
    exists (TCPConnection.send_segment_with_info (TCPConnection.dirty_abort c1)), [seg].
    split; [done|]. split; [by apply flush_wf|]. split.
    { simpl in Hf2 |- *. unfold TCPSender.segments_out. simpl. rewrite Hf2, Ho1. simpl. by rewrite app_nil_r. }
    exists s. split; [done|]. rewrite El. split; [eauto|].
    destruct (dirty_abort_inactive c1) as (Ha & Hin & _). split; [|exact Hin]. exact Ha.
  - cbn [mbind outcome_bind]. set (c1 := if _ && _ then TCPConnection.abort c0 else c0).
    assert (H1 : cn_pre S c1 /\ TCPConnection.sender_ c1 = s /\
      TCPConnection.receiver_ c1 = TCPConnection.receiver_ c /\
      TCPConnection.segments_out_ c1 = TCPConnection.segments_out_ c).
    { unfold c1. destruct (_ && _); [|done]. split; [by destruct Hc0|done]. }
    clearbody c1. destruct H1 as (Hp1 & Hs1 & Hr1 & Ho1).
    eexists _, _. split; [done|]. split; [by apply flush_wf|]. split; [simpl; by rewrite Ho1|].
    exists s. split; [done|]. rewrite El. unfold TCPSender.segments_out.
    rewrite Hr1, Hs1, Hq, Hf. simpl. by rewrite Hs1, Hr1.
Qed.

Lemma connection_retx_limit_witness :
  exists c' new, TCPConnection.tick (fresh_connection 8) 20 = Ok c' /\ cn_wf [] c' /\
    TCPConnection.segments_out c' = TCPConnection.segments_out (fresh_connection 8) ++ new.
Proof.
  destruct (connection_retx_limit [] (fresh_connection 8) 20) as (c' & new & H1 & H2 & H3 & _).
  - apply (fresh_connection_wf 8 (fun _ _ => True) (fun _ => True)). unfold string_max_size. lia.
  - exists c', new. auto.
Defined.

(** With nothing in flight, nothing is outstanding and the backoff is at its start. *)
Lemma idle_sender S s :
  sd_wf S s -> TCPSender.bytes_in_flight s = 0 ->
  TCPSender.buffer_ s = [] /\ RetransmissionTimer.running (TCPSender.timer_ s) = false /\
  TCPSender.consecutive_retransmissions_ s = 0.
Proof.
  intros [Hcore Htim (k & _ & Hk & Hr) _] Hb. pose proof (sd_next_bound _ _ Hcore) as Hn.
  pose proof (sd_acked _ _ Hcore). pose proof (sd_small _ _ Hcore).
  unfold TCPSender.bytes_in_flight in Hb. rewrite u64_small in Hb by lia.
  assert (Hbuf : TCPSender.buffer_ s = []).
  { destruct (sd_chain _ _ Hcore) as (lo & Hlo & Hch).
    pose proof (sd_outstanding _ _ Hcore) as Ho.
    destruct (TCPSender.buffer_ s) as [|[st seg] l]; [done|]. simpl in *.
    destruct Hch as (-> & [_ [_ Hle] _ _ _] & _). lia. }
  rewrite Hbuf in Htim. simpl in Htim. rewrite Htim in Hr. subst k. done.
Qed.

(** C17. Lingering: once both streams are over and everything sent is acknowledged, the
    connection stays active exactly if it lingers; while it lingers nothing is sent, and it
    ends with the first [tick] at which ten initial timeouts have passed since the last
    segment came in. *)
Theorem connection_linger (S : list byte) (c : TCPConnection.t) (ms : Z) (Hc : cn_wf S c)
  (Hout : ByteStream.eof (TCPSender.stream_in (TCPConnection.sender_ c)) = true)
  (Hin : ByteStream.eof (TCPConnection.inbound_stream c) = true)
  (Hflight : TCPConnection.bytes_in_flight c = 0)
  (Hms : 0 <= TCPConnection.time_passed c + ms < two64) :
  TCPConnection.active c = TCPConnection.linger_after_streams_finish_ c /\
  exists c', TCPConnection.tick c ms = Ok c' /\ cn_wf S c' /\
    TCPConnection.segments_out c' = TCPConnection.segments_out c /\
    TCPConnection.active c' =
      (TCPConnection.linger_after_streams_finish_ c &&
       (TCPConnection.time_passed c + ms <? 10 * TCPConfig.rt_timeout (TCPConnection.cfg_ c))).
Proof.
  pose proof Hc as [[Hs Ho] Hf]. unfold TCPConnection.bytes_in_flight in Hflight.
  destruct (idle_sender S _ Hs Hflight) as (Hb & Hrun & Hcons).
  assert (Hact : forall c1, TCPSender.stream_in (TCPConnection.sender_ c1)
      = TCPSender.stream_in (TCPConnection.sender_ c) ->
    TCPSender.bytes_in_flight (TCPConnection.sender_ c1) = 0 ->
    TCPConnection.receiver_ c1 = TCPConnection.receiver_ c ->
    TCPConnection.active c1 = TCPConnection.linger_after_streams_finish_ c1).
  { intros c1 H1 H2 H3. unfold TCPConnection.active, TCPConnection.inbound_stream in *.
    rewrite H1, H2, H3, Hout, Hin. simpl. by rewrite !orb_false_r. }
  split; [by apply Hact|].
  destruct (tick_spec S (TCPConnection.sender_ c) ms Hs) as
    (s & Ht & Hs' & Hi & _ & Hn & Ha & _ & Hst & _ & Hq & Hco & _).
  assert (Hto : timed_out (TCPConnection.sender_ c) ms = false) by (unfold timed_out; by rewrite Hrun).
  rewrite Hto in Hq, Hco. rewrite Hf in Hq. simpl in Hq, Hco.
  unfold TCPConnection.tick.
  change (TCPConnection.sender_ (TCPConnection.set_time_passed c _)) with (TCPConnection.sender_ c).
  rewrite Ht. cbn [mbind outcome_bind].
  set (c0 := TCPConnection.set_sender
    (TCPConnection.set_time_passed c (u64 (TCPConnection.time_passed c + ms))) s).
  unfold TCPSender.consecutive_retransmissions, TCPConfig.MAX_RETX_ATTEMPTS.
  simpl TCPSender.consecutive_retransmissions_. rewrite Hco, Hcons.
  change (8 <? 0) with false. cbv iota. cbn [mbind outcome_bind].
  assert (Hc0 : cn_pre S c0).
  { split; [done|]. apply (all_sent_mono S (TCPConnection.sender_ c)); [exact Hi|simpl; lia|done]. }
  set (c1 := if _ && _ then TCPConnection.abort c0 else c0).
  assert (H1 : cn_pre S c1 /\ TCPConnection.sender_ c1 = s /\
    TCPConnection.receiver_ c1 = TCPConnection.receiver_ c /\
    TCPConnection.segments_out_ c1 = TCPConnection.segments_out_ c /\
    TCPConnection.linger_after_streams_finish_ c1 =
      (TCPConnection.linger_after_streams_finish_ c &&
       (TCPConnection.time_passed c + ms <? 10 * TCPConfig.rt_timeout (TCPConnection.cfg_ c)))).
  { unfold c1, TCPConnection.inbound_stream, TCPSender.stream_in in *. simpl. rewrite Hst, Hout, Hin.
    rewrite (u64_small _ Hms). simpl. rewrite Z.leb_antisym.
    destruct (_ <? _), (TCPConnection.linger_after_streams_finish_ c) eqn:El; simpl;
      (split; [by destruct Hc0|]); simpl; rewrite ?El; done. }
  clearbody c1. destruct H1 as (Hp1 & Hs1 & Hr1 & Ho1 & Hl1).
  eexists. split; [done|]. split; [by apply flush_wf|]. split.
  { simpl. unfold TCPSender.segments_out. rewrite Hs1, Hq, Ho1. simpl. by rewrite app_nil_r. }
  rewrite (Hact (TCPConnection.send_segment_with_info c1));
    [exact Hl1|unfold TCPSender.stream_in; simpl; by rewrite Hs1| |done].
  unfold TCPSender.bytes_in_flight in *. simpl. by rewrite Hs1, Hn, Ha.
Qed.

(** A connection over with its peer's stream: both sides closed at once. *)
Definition ended_connection : TCPConnection.t :=
  TCPConnection.mk (TCPConfig.mk 1000 8 100 (Some (WrappingInt32.mk 7)))
    (TCPReceiver.set_stream_out (fresh_receiver 8)
       (ByteStream.end_input (TCPReceiver.stream_out (fresh_receiver 8))))
    closed_sender [] 9000 true.

Lemma connection_linger_witness :
  TCPConnection.active ended_connection = true /\
  exists c', TCPConnection.tick ended_connection 1000 = Ok c' /\ cn_wf [] c' /\
    TCPConnection.segments_out c' = [] /\ TCPConnection.active c' = false.
Proof.
  apply (connection_linger [] ended_connection 1000); try reflexivity; [|vm_compute; intuition congruence].
  split; [|reflexivity]. split; [|constructor]. apply sender_end_input, fresh_sender_wf.
Defined.
