(* ===== verification/Transfer.v ===== *)
(** * Transfer.v: two connections over an unreliable network

    The promise the whole stack makes to applications: two [TCPConnection] endpoints that
    exchange segments over a network that loses, duplicates, delays and reorders them
    deliver to each application a prefix of the bytes the other one wrote, in order, and
    the end of a stream is seen only after all of it.  The network of
    [libsponge/tcp_helpers] adapters is abstracted to the segments ever sent; the endpoints
    are the operations of [libsponge/tcp_connection.cc] unchanged. *)

From stdpp Require Import relations.
From S2P Require Import Prelude Wrapping Streams Reassembler Buffers TcpWire Receiver Sender Connection.

(** ** Lemmas: a receiver while the peer's stream grows *)

Section growing.

Import TCPReceiver.

Lemma from_stream_app S d i c : from_stream S i c -> from_stream (S ++ d) i c.
Proof.
  unfold from_stream. intros H. rewrite zget_app.
  pose proof (zget_Some_range _ _ _ H). ztests. done.
Qed.

Lemma rc_tracks_extend S d isn r :
  rc_tracks S isn r ->
  StreamReassembler.eof_ (reassembler_ r) = false -> ByteStream.input_ended (stream_out r) = false ->
  zlen (S ++ d) + capacity_ r + zlen (S ++ d) + 2 < two64 ->
  rc_tracks (S ++ d) isn r.
Proof.
  intros [[Hsr ? ? ? ? ?] ? ? Hn ?] He Hi Hfit. split; try done.
  - split; try done. eapply sr_wf_mono; [by apply from_stream_app|done|done|done].
  - rewrite zlen_app. lia.
Qed.

Lemma rc_tracks_error S isn r :
  rc_tracks S isn r -> rc_tracks S isn (set_stream_out r (ByteStream.set_error (stream_out r))).
Proof. intros []. split; try done. by apply rc_set_error. Qed.

Lemma rc_tracks_read S isn r n :
  rc_tracks S isn r -> 0 <= n <= zlen (ByteStream.contents (stream_out r)) ->
  exists out, ByteStream.read (stream_out r) n
      = Ok (out, ztake n (ByteStream.contents (stream_out r))) /\
    rc_tracks S isn (set_stream_out r out) /\
    ByteStream.contents out = zdrop n (ByteStream.contents (stream_out r)) /\
    ByteStream.input_ended out = ByteStream.input_ended (stream_out r).
Proof.
  intros [Hwf ? ? ? ?] Hn.
  destruct (rc_pop_spec _ _ r n Hwf Hn) as (out & Hr & Hwf' & Hc); [pose proof (zlen_nonneg S); lia|].
  exists out. split; [done|]. split; [by split|]. split; [done|].
  destruct (bs_read_spec (stream_out r) n) as (o2 & Hr2 & _ & _ & _ & _ & _ & _ & Hi); [apply Hwf|done|].
  rewrite Hr in Hr2. by injection Hr2 as <-.
Qed.

End growing.

(** ** Endpoints and the system *)

(** A connection, the bytes its application has written to it and those it has read. *)
Record endpoint := Endpoint {
  conn : TCPConnection.t;
  written : list byte;
  delivered : list byte
}.

Definition send_side (e : endpoint) : TCPSender.t := TCPConnection.sender_ (conn e).
Definition recv_side (e : endpoint) : TCPReceiver.t := TCPConnection.receiver_ (conn e).

(** What an application and its operating system do with an endpoint; the last component
    is what goes to the network. *)
Inductive local_step : endpoint -> endpoint -> list TCPSegment.t -> Prop :=
  | local_connect c c' w d :
      TCPConnection.connect c = Ok c' ->
      local_step (Endpoint c w d) (Endpoint c' w d) []
  | local_write c c' w d data n :
      zlen w + zlen data < 2 ^ 61 ->
      TCPConnection.write c data = Ok (c', n) ->
      local_step (Endpoint c w d) (Endpoint c' (w ++ ztake n data) d) []
  | local_end c c' w d :
      TCPConnection.end_input_stream c = Ok c' ->
      local_step (Endpoint c w d) (Endpoint c' w d) []
  | local_tick c c' w d ms :
      TCPConnection.tick c ms = Ok c' ->
      local_step (Endpoint c w d) (Endpoint c' w d) []
  | local_read c w d n out data :
      0 <= n <= ByteStream.buffer_size (TCPConnection.inbound_stream c) ->
      ByteStream.read (TCPConnection.inbound_stream c) n = Ok (out, data) ->
      local_step (Endpoint c w d)
        (Endpoint (TCPConnection.set_receiver c
           (TCPReceiver.set_stream_out (TCPConnection.receiver_ c) out)) w (d ++ data)) []
  | local_emit c w d gone rest :
      TCPConnection.segments_out c = gone ++ rest ->
      local_step (Endpoint c w d) (Endpoint (TCPConnection.set_segments_out c rest) w d) gone.

(** A segment's number is less than [2^31] from the receiver's position: no segment
    survives in the network while 2 GiB of the stream go by. *)
Definition timely (src dst : endpoint) (seg : TCPSegment.t) : Prop :=
  forall n, sent_ok (written src) (TCPSender.isn_ (send_side src))
              (TCPSender.next_seqno_ (send_side src)) n seg ->
    let n' := n + fin_num (TCPHeader.syn (TCPSegment.header seg)) in
    - two31 < n' - TCPReceiver.ackno_ (recv_side dst) <= two31.

(** Two endpoints and, per direction, every segment ever sent: a segment may be delivered
    any number of times, in any order, or never. *)
Record system := System {
  left : endpoint;
  right : endpoint;
  to_right : list TCPSegment.t;
  to_left : list TCPSegment.t
}.

Definition receives (e : endpoint) (seg : TCPSegment.t) (e' : endpoint) : Prop :=
  TCPConnection.segment_received (conn e) seg = Ok (conn e') /\
  written e' = written e /\ delivered e' = delivered e.

Inductive step : system -> system -> Prop :=
  | step_left l l' r nr nl out :
      local_step l l' out -> step (System l r nr nl) (System l' r (nr ++ out) nl)
  | step_right l r r' nr nl out :
      local_step r r' out -> step (System l r nr nl) (System l r' nr (nl ++ out))
  | step_deliver_right l r r' nr nl seg :
      In seg nr -> timely l r seg -> receives r seg r' ->
      step (System l r nr nl) (System l r' nr nl)
  | step_deliver_left l l' r nr nl seg :
      In seg nl -> timely r l seg -> receives l seg l' ->
      step (System l r nr nl) (System l' r nr nl).

(** ** Invariant: one direction of the transfer *)

Record flow (src dst : endpoint) (net : list TCPSegment.t) : Prop := {
  fl_conn : cn_wf (written src) (conn src);
  fl_net : all_sent (written src) (send_side src) net;
  fl_tracks : rc_tracks (written src) (TCPSender.isn_ (send_side src)) (recv_side dst);
  fl_delivered : delivered dst ++ ByteStream.contents (TCPReceiver.stream_out (recv_side dst))
                 = ztake (TCPReceiver.assembled (recv_side dst)) (written src);
  fl_fin : StreamReassembler.eof_ (TCPReceiver.reassembler_ (recv_side dst)) = true \/
           ByteStream.input_ended (TCPReceiver.stream_out (recv_side dst)) = true ->
           TCPSender.next_seqno_ (send_side src) = zlen (written src) + 2;
  fl_small : zlen (written src) < 2 ^ 61;
  fl_capacity : TCPReceiver.capacity_ (recv_side dst) <= 2 ^ 62
}.

Definition sys_inv (s : system) : Prop :=
  flow (left s) (right s) (to_right s) /\ flow (right s) (left s) (to_left s).

(** ** Lemmas: what a step of either endpoint does to a flow *)

(** The source moves on: it may have accepted more bytes and sent more. *)
Lemma flow_src src src' dst net out d :
  flow src dst net -> cn_wf (written src') (conn src') ->
  written src' = written src ++ d -> zlen (written src') < 2 ^ 61 ->
  (d <> [] -> TCPSender.sent_fin_ (send_side src) = false) ->
  later (send_side src) (send_side src') ->
  all_sent (written src') (send_side src') out ->
  flow src' dst (net ++ out).
Proof.
  intros [Hc Hnet Ht Hd Hf Hs Hcap] Hc' Hw Hs' Hgrow Hlater Hout.
  pose proof Hlater as [Hi Hn]. pose proof (cn_sender _ _ (cn_is_pre _ _ Hc)) as Hsd.
  pose proof (sd_next_bound _ _ (sd_is_core _ _ (cn_sender _ _ (cn_is_pre _ _ Hc')))) as Hb'.
  pose proof (rt_fits _ _ _ Ht) as Hfits.
  assert (Hopen : d <> [] ->
    StreamReassembler.eof_ (TCPReceiver.reassembler_ (recv_side dst)) = false /\
    ByteStream.input_ended (TCPReceiver.stream_out (recv_side dst)) = false).
  { intros Hne. specialize (Hgrow Hne).
    assert (Hlt : TCPSender.next_seqno_ (send_side src) <> zlen (written src) + 2).
    { pose proof (sd_is_core _ _ Hsd) as Hcore. pose proof (sd_read _ _ Hcore) as Hrd.
      destruct (sd_next _ _ Hcore) as [(Hz & _)|Hz]; fold (send_side src) in *;
        rewrite ?Hgrow in Hz; simpl in Hz; lia. }
    destruct (StreamReassembler.eof_ _), (ByteStream.input_ended _); auto; exfalso; auto. }
  assert (Ht' : rc_tracks (written src') (TCPSender.isn_ (send_side src')) (recv_side dst)).
  { rewrite Hi, Hw. destruct (decide (d = [])) as [->|Hne]; [by rewrite app_nil_r|].
    destruct (Hopen Hne). apply rc_tracks_extend; try done. rewrite <- Hw. lia. }
  assert (Hnet' : all_sent (written src') (send_side src) net).
  { rewrite Hw. destruct (decide (d = [])) as [->|Hne]; [by rewrite app_nil_r|].
    apply all_sent_extend; auto. }
  split; try done.
  - apply Forall_app. split; [|done]. by eapply all_sent_mono.
  - rewrite Hd, Hw, ztake_app.
    rewrite (ztake_le0 (_ - zlen (written src))), app_nil_r; [done|].
    pose proof (rt_next _ _ _ Ht). lia.
  - intros He. specialize (Hf He). destruct (decide (d = [])) as [->|Hne].
    + rewrite app_nil_r in Hw. rewrite Hw in *. fold (send_side src') in Hb'. lia.
    + destruct (Hopen Hne) as [E1 E2]. rewrite E1, E2 in He. by destruct He.
Qed.

(** The destination reads, flags an error, or does nothing to its receiver. *)
Lemma flow_dst src dst dst' net :
  flow src dst net ->
  rc_tracks (written src) (TCPSender.isn_ (send_side src)) (recv_side dst') ->
  TCPReceiver.reassembler_ (recv_side dst') =
    StreamReassembler.set_stream_out (TCPReceiver.reassembler_ (recv_side dst))
      (TCPReceiver.stream_out (recv_side dst')) ->
  ByteStream.input_ended (TCPReceiver.stream_out (recv_side dst')) =
    ByteStream.input_ended (TCPReceiver.stream_out (recv_side dst)) ->
  delivered dst' ++ ByteStream.contents (TCPReceiver.stream_out (recv_side dst')) =
    delivered dst ++ ByteStream.contents (TCPReceiver.stream_out (recv_side dst)) ->
  TCPReceiver.capacity_ (recv_side dst') = TCPReceiver.capacity_ (recv_side dst) ->
  flow src dst' net.
Proof.
  intros [Hc Hnet Ht Hd Hf Hs Hcap] Ht' Hreas Hie Hdel Hcp.
  split; try done.
  - rewrite Hdel, Hd. unfold TCPReceiver.assembled. by rewrite Hreas.
  - rewrite Hie, Hreas. done.
  - by rewrite Hcp.
Qed.

Lemma sent_seg_start S isn next n seg :
  sent_ok S isn next n seg -> next < two64 ->
  Buffer.str (TCPSegment.payload seg) <> [] \/ TCPHeader.fin (TCPSegment.header seg) = true ->
  1 <= n + fin_num (TCPHeader.syn (TCPSegment.header seg)) < two64.
Proof.
  intros [_ [Hn Hr] Hs Hp _] Hb Hne. pose proof (seg_len_eq seg Hp) as Hl.
  pose proof (fin_num_range (TCPHeader.syn (TCPSegment.header seg))).
  pose proof (fin_num_range (TCPHeader.fin (TCPSegment.header seg))).
  assert (0 < zlen (Buffer.str (TCPSegment.payload seg)) + fin_num (TCPHeader.fin (TCPSegment.header seg))).
  { destruct Hne as [Hne| ->]; [|simpl; lia].
    assert (zlen (Buffer.str (TCPSegment.payload seg)) <> 0) by (intros ?%zlen_0; done). lia. }
  destruct (decide (n = 0)) as [->|]; [|lia]. rewrite Hs by lia. simpl fin_num in *. lia.
Qed.

(** The end of a segment with FIN is the end of the stream. *)
Lemma sent_fin_end S isn next n seg :
  sent_ok S isn next n seg -> TCPHeader.fin (TCPSegment.header seg) = true -> zlen S + 2 <= next.
Proof.
  intros [[_ _ Hdata] [Hn Hr] _ Hp _] Hf. rewrite (seg_len_eq _ Hp), Hf in Hr. rewrite Hf in Hdata.
  simpl fin_num in Hr. unfold fin_num in Hr.
  destruct Hdata as [[_ ?]|(_ & _ & _ & He)]; [done|]. specialize (He eq_refl). lia.
Qed.

(** What was delivered before the waiting bytes. *)
Lemma tracked_prefix S isn r del :
  rc_tracks S isn r ->
  del ++ ByteStream.contents (TCPReceiver.stream_out r) = ztake (TCPReceiver.assembled r) S <->
  del = ztake (TCPReceiver.assembled r - zlen (ByteStream.contents (TCPReceiver.stream_out r))) S.
Proof.
  intros Ht. pose proof (tracks_prefix S _ (rt_tracks _ _ _ Ht)) as Hp.
  unfold TCPReceiver.assembled, TCPReceiver.stream_out, StreamReassembler.stream_out in *.
  rewrite <- Hp at 1. split; [apply app_inv_tail|by intros ->].
Qed.

(** A segment of the flow arrives. *)
Lemma flow_deliver src dst dst' net seg :
  flow src dst net -> In seg net -> timely src dst seg ->
  cn_wf (written dst) (conn dst) -> receives dst seg dst' ->
  flow src dst' net.
Proof.
  intros Hfl Hin Htim Hcd (Hrecv & Hw & Hdel). pose proof Hfl as [Hc Hnet Ht Hd Hf Hs Hcap].
  apply (proj1 (List.Forall_forall _ _)) with (x := seg) in Hnet as [n Hn]; [|done].
  destruct (TCPHeader.rst (TCPSegment.header seg)) eqn:Er.
  { unfold TCPConnection.segment_received in Hrecv. rewrite Er in Hrecv. injection Hrecv as Hc'.
    apply (flow_dst src dst); unfold recv_side; rewrite <- ?Hc'; try done; [by apply rc_tracks_error|].
    by rewrite Hdel. }
  pose proof (sd_next_bound _ _ (sd_is_core _ _ (cn_sender _ _ (cn_is_pre _ _ Hc)))) as Hb.
  destruct (carried_received _ _ (recv_side dst) n seg Ht (so_carries _ _ _ _ _ Hn)) as
    (r' & d & Hr & Ht' & Hcap' & _ & Hasm & _ & Hct & Hend & _).
  { intros Hne. split; [|by apply Htim].
    eapply sent_seg_start; [done| |done]. unfold send_side in *. lia. }
  destruct (segment_received_spec _ (conn dst) seg r' Hcd (so_win _ _ _ _ _ Hn) Er Hr) as
    (c' & new & Hrecv' & _ & Hrc & _). rewrite Hrecv in Hrecv'. injection Hrecv' as <-.
  fold (recv_side dst') in Hrc. rewrite <- Hrc in *. clear Hrc r'.
  split; try done.
  - apply Hfl.
  - rewrite Hdel. apply (tracked_prefix _ (TCPSender.isn_ (send_side src))); [done|].
    apply (tracked_prefix _ (TCPSender.isn_ (send_side src))) in Hd; [|done].
    rewrite Hd, Hasm, Hct, zlen_app. f_equal. lia.
  - intros He. destruct (Hend He) as [?|[?|Hfin]]; [auto..|].
    pose proof (sent_fin_end _ _ _ _ _ Hn Hfin). fold (send_side src) in *. lia.
  - by rewrite Hcap'.
Qed.

(** What a local step does to the sending side. *)
Lemma local_step_source e e' out :
  cn_wf (written e) (conn e) -> zlen (written e) < 2 ^ 61 -> local_step e e' out ->
  exists d, cn_wf (written e') (conn e') /\ written e' = written e ++ d /\
    zlen (written e') < 2 ^ 61 /\ (d <> [] -> TCPSender.sent_fin_ (send_side e) = false) /\
    later (send_side e) (send_side e') /\ all_sent (written e') (send_side e') out.
Proof.
  intros Hc Hs Hstep. unfold send_side.
  destruct Hstep as [c c' w dl Hop|c c' w dl data n Hfit Hop|c c' w dl Hop|c c' w dl ms Hop|
    c w dl n o data Hn Hop|c w dl gone rest Hq]; simpl in *.
  - destruct (connect_wf w c Hc) as (c2 & new & E & ? & ? & _). rewrite E in Hop. injection Hop as ->.
    exists []. rewrite app_nil_r. split_and!; try done. constructor.
  - destruct (write_wf w c data Hc) as (c2 & d & new & E & Hd & Hc2 & Hl & _ & _ & _ & Hsf); [lia|].
    rewrite E in Hop. injection Hop as -> <-. rewrite <- Hd. exists d. split_and!; try done; [|constructor].
    rewrite zlen_app. assert (zlen d <= zlen data) by (rewrite Hd, zlen_ztake; lia). lia.
  - destruct (end_input_wf w c Hc) as (c2 & new & E & ? & ? & _). rewrite E in Hop. injection Hop as ->.
    exists []. rewrite app_nil_r. split_and!; try done. constructor.
  - destruct (tick_wf w c ms Hc) as (c2 & new & E & ? & ? & _). rewrite E in Hop. injection Hop as ->.
    exists []. rewrite app_nil_r. split_and!; try done. constructor.
  - exists []. rewrite app_nil_r. split_and!; try done; [|constructor].
    by destruct Hc as [[] ?].
  - exists []. rewrite app_nil_r. destruct Hc as [[Hs1 Ho1] Hf1].
    unfold TCPConnection.segments_out in Hq. unfold all_sent in Ho1. rewrite Hq in Ho1. apply Forall_app in Ho1 as [H1 H2].
    split_and!; try done.
Qed.

(** A local step seen as a step of the source. *)
Lemma flow_local_src src src' dst net out :
  flow src dst net -> local_step src src' out -> flow src' dst (net ++ out).
Proof.
  intros Hfl Hstep. pose proof Hfl as [Hc _ _ _ _ Hs _].
  destruct (local_step_source _ _ _ Hc Hs Hstep) as (d & H1 & H2 & H3 & H4 & H5 & H6). by eapply flow_src.
Qed.

Lemma recv_same S isn r :
  rc_tracks S isn r ->
  TCPReceiver.reassembler_ r =
  StreamReassembler.set_stream_out (TCPReceiver.reassembler_ r) (TCPReceiver.stream_out r).
Proof. intros _. by destruct r as [? [] ? ? ? ? ?]. Qed.

(** A local step seen as a step of the destination. *)
Lemma flow_local_dst src dst dst' net out :
  flow src dst net -> cn_wf (written dst) (conn dst) -> local_step dst dst' out ->
  flow src dst' net.
Proof.
  intros Hfl Hc Hstep. pose proof Hfl as [_ _ Ht _ _ _ _].
  pose proof (recv_same _ _ _ Ht) as Hsame.
  destruct Hstep as [c c' w dl Hop|c c' w dl data n Hfit Hop|c c' w dl Hop|c c' w dl ms Hop|
    c w dl n o data Hn Hop|c w dl gone rest Hq]; simpl in *.
  - destruct (connect_wf w c Hc) as (c2 & new & E & _ & _ & _ & Hr & _).
    rewrite E in Hop. injection Hop as ->.
    eapply flow_dst; [done|..]; unfold recv_side in *; simpl in *; rewrite ?Hr; done.
  - destruct (Z.le_gt_cases (zlen w + zlen data) (two63 - 1)) as [Hle|]; [|lia].
    destruct (write_wf w c data Hc) as (c2 & d & new & E & _ & _ & _ & _ & Hr & _); [lia|].
    rewrite E in Hop. injection Hop as -> _.
    eapply flow_dst; [done|..]; unfold recv_side in *; simpl in *; rewrite ?Hr; done.
  - destruct (end_input_wf w c Hc) as (c2 & new & E & _ & _ & _ & Hr & _).
    rewrite E in Hop. injection Hop as ->.
    eapply flow_dst; [done|..]; unfold recv_side in *; simpl in *; rewrite ?Hr; done.
  - destruct (tick_wf w c ms Hc) as (c2 & new & E & _ & _ & _ & _ & [Hr|Hr]);
      rewrite E in Hop; injection Hop as ->;
      eapply flow_dst; try done; unfold recv_side in *; simpl in *; rewrite ?Hr; try done.
    by apply rc_tracks_error.
  - unfold TCPConnection.inbound_stream in *. unfold recv_side in *; simpl in *.
    rewrite bs_buffer_size in Hn by apply Ht.
    destruct (rc_tracks_read _ _ _ n Ht Hn) as (o2 & E & Ht2 & Hct & Hie).
    rewrite E in Hop. injection Hop as -> <-.
    eapply flow_dst; unfold recv_side in *; simpl in *; try done.
    change (TCPReceiver.stream_out (TCPReceiver.set_stream_out _ o)) with o.
    rewrite Hct, <- app_assoc, ztake_zdrop. done.
  - eapply flow_dst; try done.
Qed.

(** A delivery seen as a step of the receiving endpoint's own outbound flow. *)
Lemma flow_receives src src' dst net seg S isn next n :
  flow src dst net -> receives src seg src' -> sent_ok S isn next n seg ->
  rc_tracks S isn (recv_side src) -> next < two64 ->
  - two31 < n + fin_num (TCPHeader.syn (TCPSegment.header seg)) - TCPReceiver.ackno_ (recv_side src) <= two31 ->
  flow src' dst net.
Proof.
  intros Hfl (Hrecv & Hw & Hdel) Hn Ht Hnext Hnear. rewrite <- (app_nil_r net).
  pose proof (fl_conn _ _ _ Hfl) as Hc.
  assert (H : cn_wf (written src) (conn src') /\ later (send_side src) (send_side src')).
  { unfold send_side. destruct (TCPHeader.rst (TCPSegment.header seg)) eqn:Er.
    - unfold TCPConnection.segment_received in Hrecv. rewrite Er in Hrecv. injection Hrecv as <-.
      split; [by apply dirty_abort_wf|]. apply later_stream.
    - destruct (carried_received _ _ (recv_side src) n seg Ht (so_carries _ _ _ _ _ Hn)) as (r' & d & Hr & _).
      { intros Hne. split; [|done]. by eapply sent_seg_start. }
      destruct (segment_received_spec _ (conn src) seg r' Hc (so_win _ _ _ _ _ Hn) Er Hr) as
        (c' & new & Hrecv' & Hc' & _ & Hl & _). rewrite Hrecv in Hrecv'. by injection Hrecv' as <-. }
  destruct H as [Hc' Hl].
  eapply (flow_src src src' dst net [] []); try done; rewrite ?Hw, ?app_nil_r; try done.
  - apply Hfl.
  - constructor.
Qed.

Lemma step_inv s s' : sys_inv s -> step s s' -> sys_inv s'.
Proof.
  intros [Hlr Hrl] Hstep. destruct Hstep as
    [l l' r nr nl out Hl|l r r' nr nl out Hr|l r r' nr nl seg Hin Htim Hrecv|l l' r nr nl seg Hin Htim Hrecv];
    simpl in *; split; simpl.
  - by eapply flow_local_src.
  - eapply flow_local_dst; [done|apply Hlr|done].
  - eapply flow_local_dst; [done|apply Hrl|done].
  - by eapply flow_local_src.
  - eapply flow_deliver; try done. apply Hrl.
  - pose proof (fl_net _ _ _ Hlr) as Hnet.
    apply (proj1 (List.Forall_forall _ _)) with (x := seg) in Hnet as [n Hn]; [|done].
    eapply flow_receives; [done|done|exact Hn|apply Hlr| |by apply Htim].
    pose proof (sd_next_bound _ _ (sd_is_core _ _ (cn_sender _ _ (cn_is_pre _ _ (fl_conn _ _ _ Hlr))))).
    pose proof (fl_small _ _ _ Hlr). unfold send_side. lia.
  - pose proof (fl_net _ _ _ Hrl) as Hnet.
    apply (proj1 (List.Forall_forall _ _)) with (x := seg) in Hnet as [n Hn]; [|done].
    eapply flow_receives; [done|done|exact Hn|apply Hrl| |by apply Htim].
    pose proof (sd_next_bound _ _ (sd_is_core _ _ (cn_sender _ _ (cn_is_pre _ _ (fl_conn _ _ _ Hrl))))).
    pose proof (fl_small _ _ _ Hrl). unfold send_side. lia.
  - eapply flow_deliver; try done. apply Hlr.
Qed.

(** ** Starting, and executing concrete runs *)

Definition start (cl cr : TCPConnection.t) : system :=
  System (Endpoint cl [] []) (Endpoint cr [] []) [] [].

(** A configuration with streams of a size the allocator can give. *)
Record config_ok (cfg : TCPConfig.t) (random : Z) : Prop := {
  co_recv : 0 < TCPConfig.recv_capacity cfg <= 2 ^ 62;
  co_send : 0 < TCPConfig.send_capacity cfg <= 2 ^ 62;
  co_rto : 0 <= TCPConfig.rt_timeout cfg < two16;
  co_isn : WrappingInt32.ok (default (WrappingInt32.mk random) (TCPConfig.fixed_isn cfg))
}.

Lemma start_flow cfg cfg' rnd rnd' cl cr :
  config_ok cfg rnd -> config_ok cfg' rnd' ->
  TCPConnection.make cfg rnd = Ok cl -> TCPConnection.make cfg' rnd' = Ok cr ->
  flow (Endpoint cl [] []) (Endpoint cr [] []) [].
Proof.
  intros [H1 H2 H3 H4] [G1 G2 G3 G4] Hl Hr.
  destruct (cn_make_spec cfg rnd (from_stream []) (at_end [])) as (c & E & Hc & _ & _ & Hi & _);
    [unfold string_max_size; lia..|done|]. rewrite Hl in E. injection E as <-.
  destruct (cn_make_spec cfg' rnd' (from_stream []) (at_end [])) as
    (c & E & _ & Hrc & Hm & _ & Hh & Ha & Hcap & _); [unfold string_max_size; lia..|done|].
  rewrite Hr in E. injection E as <-.
  destruct (rc_make_spec (from_stream []) (at_end []) (TCPConfig.recv_capacity cfg')) as
    (r & Em & _ & _ & _ & _ & Hsf & Hct); [unfold string_max_size; lia|].
  rewrite Hm in Em. injection Em as <-.
  assert (Heof : StreamReassembler.eof_ (TCPReceiver.reassembler_ (TCPConnection.receiver_ cr)) = false).
  { unfold TCPReceiver.make in Hm.
    destruct (sr_make_spec (from_stream []) (at_end []) (TCPConfig.recv_capacity cfg')) as
      (s & Es & _ & _ & _ & _ & _ & _ & _ & He); [unfold string_max_size; lia|].
    rewrite Es in Hm. simpl in Hm. injection Hm as Hm. rewrite <- Hm. exact He. }
  split; unfold send_side, recv_side; simpl.
  - done.
  - apply Forall_nil_2.
  - split; [done|by rewrite Hh|by rewrite Hi|rewrite Ha; simpl; lia|rewrite Hcap; simpl; lia].
  - by rewrite Hct.
  - rewrite Heof. intros [?|Hie]; [done|]. apply (rc_ended _ _ _ Hrc) in Hie. congruence.
  - lia.
  - lia.
Qed.

(** Below 2 GiB every segment is timely. *)
Lemma short_timely src dst net seg :
  flow src dst net -> zlen (written src) + 2 < two31 -> timely src dst seg.
Proof.
  intros [Hc _ Ht _ _ _ _] Hshort n [_ [Hn Hr] _ Hp _] n'. unfold n'.
  pose proof (sd_next_bound _ _ (sd_is_core _ _ (cn_sender _ _ (cn_is_pre _ _ Hc)))) as Hb.
  fold (send_side src) in Hb. rewrite (seg_len_eq _ Hp) in Hr.
  pose proof (rc_ackno _ _ _ (rt_wf _ _ _ Ht)) as Ha. pose proof (rt_next _ _ _ Ht) as Hnx.
  pose proof (fin_num_range (TCPHeader.syn (TCPSegment.header seg))).
  pose proof (fin_num_range (TCPHeader.fin (TCPSegment.header seg))).
  assert (0 <= TCPReceiver.fin_count (recv_side dst) <= 1)
    by (unfold TCPReceiver.fin_count; destruct (TCPReceiver.sent_fin_ _); lia).
  assert (0 <= TCPReceiver.assembled (recv_side dst)).
  { unfold TCPReceiver.assembled.
    pose proof (sr_next _ _ (sr_is_core _ _ _ (rc_reassembler _ _ _ (rt_wf _ _ _ Ht)))). lia. }
  rewrite Ha. lia.
Qed.

(** Executable steps. *)
Inductive local_op :=
  | LConnect | LWrite (data : list byte) | LEnd | LTick (ms : Z) | LRead (n : Z) | LEmit.

Definition local_exec (e : endpoint) (op : local_op) : option (endpoint * list TCPSegment.t) :=
  let '(Endpoint c w d) := e in
  match op with
  | LConnect =>
      match TCPConnection.connect c with Ok c' => Some (Endpoint c' w d, []) | _ => None end
  | LWrite data =>
      if zlen w + zlen data <? 2 ^ 61 then
        match TCPConnection.write c data with
        | Ok (c', n) => Some (Endpoint c' (w ++ ztake n data) d, []) | _ => None end
      else None
  | LEnd =>
      match TCPConnection.end_input_stream c with
      | Ok c' => Some (Endpoint c' w d, []) | _ => None end
  | LTick ms =>
      match TCPConnection.tick c ms with Ok c' => Some (Endpoint c' w d, []) | _ => None end
  | LRead n =>
      if (0 <=? n) && (n <=? ByteStream.buffer_size (TCPConnection.inbound_stream c)) then
        match ByteStream.read (TCPConnection.inbound_stream c) n with
        | Ok (out, data) =>
            Some (Endpoint (TCPConnection.set_receiver c
              (TCPReceiver.set_stream_out (TCPConnection.receiver_ c) out)) w (d ++ data), [])
        | _ => None end
      else None
  | LEmit => Some (Endpoint (TCPConnection.set_segments_out c []) w d, TCPConnection.segments_out c)
  end.

Inductive action :=
  | ALeft (op : local_op) | ARight (op : local_op) | ADeliverRight (i : nat) | ADeliverLeft (i : nat).

Definition receive_exec (e : endpoint) (seg : TCPSegment.t) : option endpoint :=
  match TCPConnection.segment_received (conn e) seg with
  | Ok c' => Some (Endpoint c' (written e) (delivered e)) | _ => None end.

Definition sys_exec (s : system) (a : action) : option system :=
  let '(System l r nr nl) := s in
  match a with
  | ALeft op => match local_exec l op with
                | Some (l', out) => Some (System l' r (nr ++ out) nl) | None => None end
  | ARight op => match local_exec r op with
                 | Some (r', out) => Some (System l r' nr (nl ++ out)) | None => None end
  | ADeliverRight i =>
      if zlen (written l) + 2 <? two31 then
        match nth_error nr i with
        | Some seg => match receive_exec r seg with Some r' => Some (System l r' nr nl) | None => None end
        | None => None end
      else None
  | ADeliverLeft i =>
      if zlen (written r) + 2 <? two31 then
        match nth_error nl i with
        | Some seg => match receive_exec l seg with Some l' => Some (System l' r nr nl) | None => None end
        | None => None end
      else None
  end.

Fixpoint sys_run (s : system) (acts : list action) : option system :=
  match acts with
  | [] => Some s
  | a :: acts' => match sys_exec s a with Some s' => sys_run s' acts' | None => None end
  end.

Lemma local_exec_sound e op e' out : local_exec e op = Some (e', out) -> local_step e e' out.
Proof.
  destruct e as [c w d], op; simpl; repeat case_match; intros [= <- <-];
    repeat match goal with
    | H : (_ <? _) = true |- _ => apply Z.ltb_lt in H
    | H : _ && _ = true |- _ => apply andb_prop in H as [?%Z.leb_le ?%Z.leb_le]
    end; first [by econstructor | apply local_emit; by rewrite app_nil_r].
Qed.

Lemma receive_exec_sound e seg e' : receive_exec e seg = Some e' -> receives e seg e'.
Proof. unfold receive_exec, receives. case_match; by intros [= <-]. Qed.

Lemma sys_exec_sound s a s' : sys_inv s -> sys_exec s a = Some s' -> step s s'.
Proof.
  intros [Hlr Hrl]. destruct s as [l r nr nl], a as [op|op|i|i]; simpl in *; repeat case_match;
    intros [= <-].
  - by apply step_left, (local_exec_sound _ op).
  - by apply step_right, (local_exec_sound _ op).
  - eapply step_deliver_right; [by eapply nth_error_In| |by apply receive_exec_sound].
    eapply short_timely; [done|]. by apply Z.ltb_lt.
  - eapply step_deliver_left; [by eapply nth_error_In| |by apply receive_exec_sound].
    eapply short_timely; [done|]. by apply Z.ltb_lt.
Qed.

Lemma sys_run_sound s acts s' : sys_inv s -> sys_run s acts = Some s' -> rtc step s s'.
Proof.
  revert s. induction acts as [|a acts IH]; intros s Hs; simpl; [by intros [= <-]|].
  destruct (sys_exec s a) as [s1|] eqn:E; [|done]. intros Hr.
  pose proof (sys_exec_sound s a s1 Hs E) as Hst.
  eapply rtc_l; [exact Hst|]. apply IH; [|done]. by eapply step_inv.
Qed.

Lemma rtc_inv s s' : sys_inv s -> rtc step s s' -> sys_inv s'.
Proof. intros Hs Hr. induction Hr; [done|]. eauto using step_inv. Qed.

Lemma start_inv cfg cfg' rnd rnd' cl cr :
  config_ok cfg rnd -> config_ok cfg' rnd' ->
  TCPConnection.make cfg rnd = Ok cl -> TCPConnection.make cfg' rnd' = Ok cr ->
  sys_inv (start cl cr).
Proof.
  intros ????.
  split; [apply (start_flow cfg cfg' rnd rnd')|apply (start_flow cfg' cfg rnd' rnd)]; done.
Qed.

(** ** Properties *)

(** What one side's application has and will next read of the other's stream. *)
Definition received (e : endpoint) : list byte :=
  delivered e ++ ByteStream.contents (TCPConnection.inbound_stream (conn e)).

Lemma flow_received src dst net :
  flow src dst net ->
  (exists rest, written src = received dst ++ rest) /\
  (ByteStream.input_ended (TCPConnection.inbound_stream (conn dst)) = true -> received dst = written src).
Proof.
  intros [_ _ Ht Hd _ _ _]. unfold received, TCPConnection.inbound_stream, recv_side in *. rewrite Hd. split.
  - exists (zdrop (TCPReceiver.assembled (TCPConnection.receiver_ (conn dst))) (written src)).
    by rewrite ztake_zdrop.
  - intros Hie. destruct (sr_ended _ _ _ (rc_reassembler _ _ _ (rt_wf _ _ _ Ht)) Hie) as (n & Hn & Hle).
    unfold at_end in Hn. apply ztake_ge. unfold TCPReceiver.assembled. lia.
Qed.

(** C1. End-to-end correctness: from two fresh connections, after any interleaving of
    application calls, ticks and deliveries by a network that may lose, duplicate, delay
    and reorder segments, what each application has read (with what waits for it) is a
    prefix of what the other one wrote; and if a side has seen the end of the stream, it
    has received all that was written. *)
Theorem transfer_correct (cfg cfg' : TCPConfig.t) (rnd rnd' : Z) (cl cr : TCPConnection.t) (s : system)
  (Hl : config_ok cfg rnd) (Hr : config_ok cfg' rnd')
  (Hcl : TCPConnection.make cfg rnd = Ok cl) (Hcr : TCPConnection.make cfg' rnd' = Ok cr)
  (Hrun : rtc step (start cl cr) s) :
  (exists rest, written (left s) = received (right s) ++ rest) /\
  (exists rest, written (right s) = received (left s) ++ rest) /\
  (ByteStream.input_ended (TCPConnection.inbound_stream (conn (right s))) = true ->
   received (right s) = written (left s)) /\
  (ByteStream.input_ended (TCPConnection.inbound_stream (conn (left s))) = true ->
   received (left s) = written (right s)).
Proof.
  destruct (rtc_inv _ _ (start_inv _ _ _ _ _ _ Hl Hr Hcl Hcr) Hrun) as [Hlr Hrl].
  destruct (flow_received _ _ _ Hlr), (flow_received _ _ _ Hrl). done.
Qed.

(** A run: handshake, "hello" and FIN sent out of order and once too often. *)
Definition sample_config : TCPConfig.t := TCPConfig.mk 1000 64 64 (Some (WrappingInt32.mk 4294967294)).

Definition sample_run : list action :=
  [ALeft LConnect; ALeft LEmit; ADeliverRight 0; ARight LEmit; ADeliverLeft 0; ALeft LEmit;
   ADeliverRight 1; ALeft (LWrite (take 2 hello)); ALeft (LWrite (drop 2 hello)); ALeft LEnd; ALeft LEmit;
   ADeliverRight 4; ADeliverRight 3; ADeliverRight 3; ADeliverRight 2; ARight (LRead 5)].

Definition sample_conn : TCPConnection.t :=
  match TCPConnection.make sample_config 0 with Ok c => c | _ => fresh_connection 8 end.

Definition sample_end : system :=
  match sys_run (start sample_conn sample_conn) sample_run with
  | Some s => s
  | None => start sample_conn sample_conn
  end.

Lemma sample_config_ok : config_ok sample_config 0.
Proof. split; simpl; try lia. unfold WrappingInt32.ok. simpl. lia. Qed.

Lemma transfer_correct_witness :
  delivered (right sample_end) = hello /\ received (right sample_end) = written (left sample_end).
Proof.
  assert (Hc : TCPConnection.make sample_config 0 = Ok sample_conn) by (vm_compute; reflexivity).
  assert (Hs : sys_run (start sample_conn sample_conn) sample_run = Some sample_end)
    by (vm_compute; reflexivity).
  split; [vm_compute; reflexivity|].
  apply (transfer_correct sample_config sample_config 0 0 sample_conn sample_conn sample_end
    sample_config_ok sample_config_ok Hc Hc); [|vm_compute; reflexivity].
  apply (sys_run_sound _ sample_run); [|exact Hs].
  apply (start_inv sample_config sample_config 0 0); auto using sample_config_ok.
Defined.

Lemma flow_deliverable src dst net seg :
  flow src dst net -> cn_wf (written dst) (conn dst) -> In seg net -> timely src dst seg ->
  exists dst', receives dst seg dst'.
Proof.
  intros [Hc Hnet Ht Hd Hf Hs Hcap] Hcd Hin Htim.
  apply (proj1 (List.Forall_forall _ _)) with (x := seg) in Hnet as [n Hn]; [|done].
  destruct (TCPHeader.rst (TCPSegment.header seg)) eqn:Er.
  { exists (Endpoint (TCPConnection.dirty_abort (conn dst)) (written dst) (delivered dst)).
    unfold receives, TCPConnection.segment_received. by rewrite Er. }
  pose proof (sd_next_bound _ _ (sd_is_core _ _ (cn_sender _ _ (cn_is_pre _ _ Hc)))) as Hb.
  destruct (carried_received _ _ (recv_side dst) n seg Ht (so_carries _ _ _ _ _ Hn)) as (r' & d & Hr & _).
  { intros Hne. split; [|by apply Htim].
    eapply sent_seg_start; [done| |done]. unfold send_side in *. lia. }
  destruct (segment_received_spec _ (conn dst) seg r' Hcd (so_win _ _ _ _ _ Hn) Er Hr) as (c' & new & E & _).
  by exists (Endpoint c' (written dst) (delivered dst)).
Qed.

(** Every local call on an endpoint of a flow returns. *)
Lemma flow_local_total src dst net :
  flow src dst net ->
  (exists c, TCPConnection.connect (conn src) = Ok c) /\
  (exists c, TCPConnection.end_input_stream (conn src) = Ok c) /\
  (forall ms, exists c, TCPConnection.tick (conn src) ms = Ok c) /\
  (forall data, zlen (written src) + zlen data < 2 ^ 61 ->
     exists c n, TCPConnection.write (conn src) data = Ok (c, n)) /\
  (forall n, 0 <= n <= ByteStream.buffer_size (TCPConnection.inbound_stream (conn dst)) ->
     exists out data, ByteStream.read (TCPConnection.inbound_stream (conn dst)) n = Ok (out, data)).
Proof.
  intros [Hc _ Ht _ _ _ _]. split_and!.
  - destruct (connect_wf _ _ Hc) as (c & _ & ? & _). eauto.
  - destruct (end_input_wf _ _ Hc) as (c & _ & ? & _). eauto.
  - intros ms. destruct (tick_wf _ _ ms Hc) as (c & _ & ? & _). eauto.
  - intros data Hfit. destruct (write_wf _ _ data Hc) as (c & d & _ & ? & _); [lia|]. eauto.
  - intros n Hn. unfold TCPConnection.inbound_stream in *. rewrite bs_buffer_size in Hn by apply Ht.
    destruct (rc_tracks_read _ _ _ n Ht Hn) as (out & ? & _). eauto.
Qed.

(** C4. Nothing ever fails: in every reachable state of the system every call an application
    or its operating system may make, and the arrival of every segment the network may
    deliver, returns normally: no exception, no undefined access, no endless loop.  Below
    2 GiB per direction any segment ever sent may arrive at any time. *)
Theorem transfer_no_failure (cfg cfg' : TCPConfig.t) (rnd rnd' : Z) (cl cr : TCPConnection.t) (s : system)
  (Hl : config_ok cfg rnd) (Hr : config_ok cfg' rnd')
  (Hcl : TCPConnection.make cfg rnd = Ok cl) (Hcr : TCPConnection.make cfg' rnd' = Ok cr)
  (Hrun : rtc step (start cl cr) s) :
  (exists c, TCPConnection.connect (conn (left s)) = Ok c) /\
  (exists c, TCPConnection.end_input_stream (conn (left s)) = Ok c) /\
  (forall ms, exists c, TCPConnection.tick (conn (left s)) ms = Ok c) /\
  (forall data, zlen (written (left s)) + zlen data < 2 ^ 61 ->
     exists c n, TCPConnection.write (conn (left s)) data = Ok (c, n)) /\
  (forall n, 0 <= n <= ByteStream.buffer_size (TCPConnection.inbound_stream (conn (left s))) ->
     exists out data, ByteStream.read (TCPConnection.inbound_stream (conn (left s))) n = Ok (out, data)) /\
  (forall seg, In seg (to_left s) ->
     timely (right s) (left s) seg \/ zlen (written (right s)) + 2 < two31 ->
     exists c, TCPConnection.segment_received (conn (left s)) seg = Ok c).
Proof.
  destruct (rtc_inv _ _ (start_inv _ _ _ _ _ _ Hl Hr Hcl Hcr) Hrun) as [Hlr Hrl].
  destruct (flow_local_total _ _ _ Hlr) as (H1 & H2 & H3 & H4 & _).
  destruct (flow_local_total _ _ _ Hrl) as (_ & _ & _ & _ & H5).
  split_and!; try done. intros seg Hin Htim.
  assert (Ht : timely (right s) (left s) seg) by (destruct Htim; [done|by eapply short_timely]).
  destruct (flow_deliverable _ _ _ seg Hrl (fl_conn _ _ _ Hlr) Hin Ht) as (e & E & _). eauto.
Qed.

Lemma transfer_no_failure_witness :
  exists c, TCPConnection.tick (conn (left sample_end)) 1000 = Ok c.
Proof.
  assert (Hc : TCPConnection.make sample_config 0 = Ok sample_conn) by (vm_compute; reflexivity).
  assert (Hs : sys_run (start sample_conn sample_conn) sample_run = Some sample_end)
    by (vm_compute; reflexivity).
  assert (Hrun : rtc step (start sample_conn sample_conn) sample_end).
  { apply (sys_run_sound _ sample_run); [|exact Hs].
    apply (start_inv sample_config sample_config 0 0); auto using sample_config_ok. }
  destruct (transfer_no_failure sample_config sample_config 0 0 sample_conn sample_conn sample_end
    sample_config_ok sample_config_ok Hc Hc Hrun) as (_ & _ & H & _).
  exact (H 1000).
Defined.
