(* ===== verification/Endpoint.v ===== *)
(** * Endpoint.v: what a TCP endpoint is allowed to do

    The specification of a whole socket: a path of an endpoint is a sequence of the calls of
    [libsponge/tcp_connection.hh] that Transfer.v allows an endpoint, with the segments it
    received and those it sent on the way.  Two endpoints that take such paths, one of which
    hears nothing but what the other one sent, transfer bytes correctly, however their paths
    are interleaved. *)

From stdpp Require Import relations.
From S2P Require Import Prelude Wrapping Streams Reassembler Buffers TcpWire Receiver Sender Connection Transfer.

(** ** Paths *)

Inductive path (e0 : endpoint) : list TCPSegment.t -> list TCPSegment.t -> endpoint -> Prop :=
  | path_start : path e0 [] [] e0
  | path_local heard said e e' out :
      path e0 heard said e -> local_step e e' out -> path e0 heard (said ++ out) e'
  | path_receive heard said e e' seg :
      path e0 heard said e -> receives e seg e' -> path e0 (heard ++ [seg]) said e'.

(** The fields of a segment have the size they have on the wire. *)
Definition seg_fine (seg : TCPSegment.t) : Prop :=
  0 <= TCPHeader.win (TCPSegment.header seg) < two16 /\
  WrappingInt32.ok (TCPHeader.seqno (TCPSegment.header seg)) /\
  zlen (Buffer.str (TCPSegment.payload seg)) < two32.

(** An endpoint that has heard anything. *)
Record ep_wf (e : endpoint) : Prop := {
  ep_conn : cn_wf (written e) (conn e);
  ep_written : zlen (written e) < 2 ^ 61;
  ep_recv : rc_wf (fun _ _ => True) (fun _ => True) (recv_side e);
  ep_count : TCPReceiver.assembled (recv_side e) =
    zlen (delivered e) + zlen (ByteStream.contents (TCPReceiver.stream_out (recv_side e)));
  ep_capacity : TCPReceiver.capacity_ (recv_side e) <= 2 ^ 62
}.

(** ** Lemmas: one step *)

Lemma ep_fits e : ep_wf e -> zlen (delivered e) < 2 ^ 61 ->
  TCPReceiver.assembled (recv_side e) + TCPReceiver.capacity_ (recv_side e) + two32 + 2 < two64.
Proof.
  intros [_ _ Hr Hcount Hcap] Hd. pose proof (rc_reassembler _ _ _ Hr) as Hs.
  pose proof (rc_capacity _ _ _ Hr) as Hc. destruct Hs as [[Hout Hc2 _ _ _ _ _ _ _] _ _ _].
  pose proof (bs_bounds _ Hout). unfold TCPReceiver.stream_out, StreamReassembler.stream_out in *. lia.
Qed.

(** The receiving side is as it was, or has an error flagged. *)
Lemma ep_same_recv e e' :
  ep_wf e -> cn_wf (written e') (conn e') -> zlen (written e') < 2 ^ 61 -> delivered e' = delivered e ->
  recv_side e' = recv_side e \/
  recv_side e' = TCPReceiver.set_stream_out (recv_side e) (ByteStream.set_error (TCPReceiver.stream_out (recv_side e))) ->
  ep_wf e'.
Proof.
  intros [Hc Hw Hr Hcount Hcap] Hc' Hw' Hd [Hs|Hs]; split; try done; rewrite ?Hs, ?Hd; try done.
  by apply rc_set_error.
Qed.

Lemma local_step_recv e e' out : ep_wf e -> local_step e e' out ->
  (delivered e' = delivered e /\
   (recv_side e' = recv_side e \/
    recv_side e' = TCPReceiver.set_stream_out (recv_side e) (ByteStream.set_error (TCPReceiver.stream_out (recv_side e))))) \/
  exists n st data, 0 <= n <= ByteStream.buffer_size (TCPReceiver.stream_out (recv_side e)) /\
    ByteStream.read (TCPReceiver.stream_out (recv_side e)) n = Ok (st, data) /\
    recv_side e' = TCPReceiver.set_stream_out (recv_side e) st /\ delivered e' = delivered e ++ data.
Proof.
  intros [Hc Hw _ _ _] Hstep. unfold recv_side.
  destruct Hstep as [c c' w dl Hop|c c' w dl data n Hfit Hop|c c' w dl Hop|c c' w dl ms Hop|
    c w dl n o data Hn Hop|c w dl gone rest Hq]; simpl in *.
  - destruct (connect_wf w c Hc) as (c2 & new & E & _ & _ & _ & Hr & _). rewrite E in Hop. injection Hop as ->. auto.
  - destruct (write_wf w c data Hc) as (c2 & d & new & E & _ & _ & _ & _ & Hr & _); [lia|].
    rewrite E in Hop. injection Hop as -> _. auto.
  - destruct (end_input_wf w c Hc) as (c2 & new & E & _ & _ & _ & Hr & _). rewrite E in Hop. injection Hop as ->. auto.
  - destruct (tick_wf w c ms Hc) as (c2 & new & E & _ & _ & _ & _ & Hr). rewrite E in Hop. injection Hop as ->. auto.
  - right. by exists n, o, data.
  - auto.
Qed.

Lemma local_step_wf e e' out : ep_wf e -> zlen (delivered e) < 2 ^ 61 -> local_step e e' out -> ep_wf e'.
Proof.
  intros He Hd Hstep. pose proof (ep_fits _ He Hd) as Hfit. pose proof He as [Hc Hw Hr Hcount Hcap].
  destruct (local_step_source _ _ _ Hc Hw Hstep) as (d & Hc' & _ & Hw' & _).
  destruct (local_step_recv _ _ _ He Hstep) as [[Hdl Hs]|(n & st & data & Hn & Hrd & Hs & Hdl)]; [by eapply ep_same_recv|].
  rewrite bs_buffer_size in Hn by apply Hr.
  destruct (rc_pop_spec _ _ (recv_side e) n Hr Hn) as (out' & Hrd' & Hr' & Hct); [lia|].
  rewrite Hrd in Hrd'. injection Hrd' as -> ->. split; try done; rewrite Hs; try done.
  change (TCPReceiver.stream_out (TCPReceiver.set_stream_out _ out')) with out'.
  change (TCPReceiver.assembled (TCPReceiver.set_stream_out _ out')) with (TCPReceiver.assembled (recv_side e)).
  rewrite Hct, Hdl, zlen_app, zlen_ztake, zlen_zdrop. lia.
Qed.

(** What a segment of the right size does to the receiver: bytes are put in order, and every byte
    of it that the window has room for is kept. *)
Lemma arrival e seg : ep_wf e -> zlen (delivered e) < 2 ^ 61 -> seg_fine seg ->
  exists r' d, TCPReceiver.segment_received (recv_side e) seg = Ok r' /\
    rc_wf (fun _ _ => True) (fun _ => True) r' /\ TCPReceiver.capacity_ r' = TCPReceiver.capacity_ (recv_side e) /\
    TCPReceiver.assembled r' = TCPReceiver.assembled (recv_side e) + zlen d /\
    ByteStream.contents (TCPReceiver.stream_out r') = ByteStream.contents (TCPReceiver.stream_out (recv_side e)) ++ d /\
    (synced (recv_side e) seg = true -> forall j,
       seg_index (recv_side e) seg <= j < seg_index (recv_side e) seg + zlen (Buffer.str (TCPSegment.payload seg)) ->
       j < TCPReceiver.assembled (recv_side e) + TCPReceiver.window_size (recv_side e) ->
       StreamReassembler.known (TCPReceiver.reassembler_ r') j).
Proof.
  intros He Hd (Hwin & Hseq & Hlen). pose proof (ep_fits _ He Hd) as Hfit. pose proof He as [Hc Hw Hr Hcount Hcap].
  destruct (synced (recv_side e) seg) eqn:Es; cycle 1.
  { exists (recv_side e), []. rewrite unsynced_received, app_nil_r by done. split_and!; try done. simpl. lia. }
  destruct (received_spec _ _ _ seg Hr Es Hseq) as (r' & d & H1 & H2 & Hp & H3 & _ & _ & H4 & H5 & _); try done; [lia|].
  exists r', d. split_and!; try done. intros _ j Hj Hroom.
  destruct (rc_window _ _ _ Hr) as (Hws & _). pose proof (rc_capacity _ _ _ Hr) as Hc2.
  pose proof (rc_reassembler _ _ _ Hr) as Hsr. pose proof Hsr as [[Hout _ _ _ _ _ _ _ _] _ _ _]. pose proof (bs_bounds _ Hout).
  unfold TCPReceiver.assembled, TCPReceiver.stream_out, StreamReassembler.stream_out in *.
  edestruct (sr_push_spec (fun _ _ => True) (fun _ => True) (TCPReceiver.reassembler_ (recv_side e))
    (Buffer.str (TCPSegment.payload seg)) (seg_index (recv_side e) seg) (TCPHeader.fin (TCPSegment.header seg)) Hsr)
    as (s' & d' & Hp' & _ & _ & _ & _ & _ & _ & _ & _ & Hk); [apply u64_range|done|done|lia|].
  rewrite Hp in Hp'. injection Hp' as <-. apply Hk. right. split; [done|]. lia.
Qed.

(** Any segment of the right size can arrive. *)
Lemma receives_wf e seg : ep_wf e -> zlen (delivered e) < 2 ^ 61 -> seg_fine seg ->
  exists c', TCPConnection.segment_received (conn e) seg = Ok c' /\
    ep_wf (Endpoint c' (written e) (delivered e)) /\ later (send_side e) (TCPConnection.sender_ c').
Proof.
  intros He Hd Hfine. pose proof Hfine as (Hwin & Hseq & Hlen). pose proof He as [Hc Hw Hr Hcount Hcap].
  destruct (TCPHeader.rst (TCPSegment.header seg)) eqn:Er.
  { exists (TCPConnection.dirty_abort (conn e)). unfold TCPConnection.segment_received. rewrite Er. split; [done|].
    split; [|apply later_stream]. eapply ep_same_recv; [done|by apply dirty_abort_wf|done|done|by right]. }
  destruct (arrival e seg He Hd Hfine) as (r' & d & H1 & H2 & H3 & H4 & H5 & _).
  destruct (segment_received_spec _ (conn e) seg r' Hc Hwin Er H1) as (c' & new & E & Hc' & Hrc & Hl & _).
  exists c'. split; [done|]. split; [|done]. split; unfold recv_side; simpl; rewrite ?Hrc; try done; [|lia].
  rewrite H4, H5, zlen_app. lia.
Qed.

(** ** Lemmas: only [end_input_stream] ends the outbound stream *)

Definition ended (c : TCPConnection.t) : bool := ByteStream.input_ended (TCPSender.stream_in (TCPConnection.sender_ c)).

Lemma read_ended s n s' data : ByteStream.read s n = Ok (s', data) -> ByteStream.input_ended s' = ByteStream.input_ended s.
Proof. unfold ByteStream.read, ByteStream.pop_output. intros H. inv_ok. by destruct (RingBuffer.pop_front_n _ _); simplify_eq/=. Qed.

Lemma assemble_ended s start s' next : TCPSender.assemble_segment s start = Ok (s', next) ->
  ByteStream.input_ended (TCPSender.stream_ s') = ByteStream.input_ended (TCPSender.stream_ s).
Proof.
  unfold TCPSender.assemble_segment. intros H. destruct (start =? 0); cbv beta iota zeta in H;
    destruct (negb _ && _ && _); cbv beta iota zeta in H; inv_ok;
    match goal with a : (ByteStream.t * list byte)%type |- _ => destruct a as [st data] end; simplify_eq/=;
    destruct (negb _); simpl; by eapply read_ended.
Qed.

Lemma fill_loop_ended fuel right : forall s s', TCPSender.fill_loop fuel right s = Ok s' ->
  ByteStream.input_ended (TCPSender.stream_ s') = ByteStream.input_ended (TCPSender.stream_ s).
Proof.
  induction fuel as [|fuel IH]; intros s s'; simpl; destruct (_ <? right); try done; try by intros [= <-].
  intros H. inv_ok. match goal with a : (TCPSender.t * Z)%type |- _ => destruct a as [s1 next] end.
  match goal with E : TCPSender.assemble_segment _ _ = _ |- _ => apply assemble_ended in E; rewrite <- E end.
  destruct (ByteStream.buffer_empty _); [by simplify_eq|]. by apply IH in H.
Qed.

Lemma fill_window_ended s s' : TCPSender.fill_window s = Ok s' ->
  ByteStream.input_ended (TCPSender.stream_ s') = ByteStream.input_ended (TCPSender.stream_ s).
Proof.
  unfold TCPSender.fill_window. intros H. inv_ok.
  match goal with E : TCPSender.fill_loop _ _ _ = _ |- _ => apply fill_loop_ended in E; rewrite <- E end.
  destruct (_ && _); by simplify_eq.
Qed.

Lemma ack_received_ended s a n : TCPSender.stream_ (TCPSender.ack_received s a n) = TCPSender.stream_ s.
Proof.
  unfold TCPSender.ack_received, TCPSender.clear_buffer. destruct (_ <? _); [done|].
  destruct (_ <? _); simpl; by case_bool_decide.
Qed.

Lemma received_ended c seg c' : TCPConnection.segment_received c seg = Ok c' -> ended c' = ended c.
Proof.
  unfold TCPConnection.segment_received, ended, TCPSender.stream_in. destruct (TCPHeader.rst _); [by intros [= <-]|].
  intros H. inv_ok. destruct (TCPReceiver.ackno _); [|by simplify_eq]. inv_ok. simplify_eq/=.
  match goal with E : (if TCPHeader.ack _ then _ else _) = Ok ?s |- _ =>
    assert (Hs : ByteStream.input_ended (TCPSender.stream_ s) = ByteStream.input_ended (TCPSender.stream_ (TCPConnection.sender_ c))) end.
  { destruct (TCPHeader.ack _); [|destruct (TCPHeader.syn _); [|by simplify_eq]];
      match goal with E : TCPSender.fill_window _ = _ |- _ => apply fill_window_ended in E; rewrite E end;
      [by rewrite ack_received_ended|done]. }
  rewrite <- Hs.
  destruct (TCPHeader.fin _); [destruct (negb (ByteStream.eof _))|]; simpl;
    destruct (_ =? 0); simpl; try destruct (WrappingInt32.eqb _ _); simpl; try case_bool_decide; done.
Qed.

Lemma sender_tick_stream s ms s' : TCPSender.tick s ms = Ok s' -> TCPSender.stream_ s' = TCPSender.stream_ s.
Proof.
  unfold TCPSender.tick, TCPSender.retransmit. destruct (RetransmissionTimer.expire _); [|by intros [= <-]].
  destruct (negb (_ =? 0)); simpl; destruct (TCPSender.buffer_ _) as [|[? ?] ?]; by intros [= <-].
Qed.

Lemma tick_ended c ms c' : TCPConnection.tick c ms = Ok c' -> ended c' = ended c.
Proof.
  unfold TCPConnection.tick, ended, TCPSender.stream_in. intros (s & Hs%sender_tick_stream & H)%bind_Ok_inv.
  apply bind_Ok_inv in H as (c1 & H1 & [= <-]).
  assert (Hc1 : ByteStream.input_ended (TCPSender.stream_ (TCPConnection.sender_ c1)) =
    ByteStream.input_ended (TCPSender.stream_ s)).
  { destruct (_ <? _); [|by injection H1 as <-]. apply bind_Ok_inv in H1 as (c2 & H1 & [= <-]).
    by apply bind_Ok_inv in H1 as (out & _ & [= <-]). }
  rewrite Hs in Hc1. etrans; [|exact Hc1]. by destruct (_ && _ && _ && _).
Qed.

(** ** Lemmas: paths *)

Lemma step_delivered e e' out : local_step e e' out -> delivered e `prefix_of` delivered e'.
Proof. destruct 1; simpl; try done. by eexists. Qed.

Lemma path_wf e0 heard said e :
  ep_wf e0 -> Forall seg_fine heard -> path e0 heard said e -> zlen (delivered e) < 2 ^ 61 -> ep_wf e.
Proof.
  intros H0 Hf Hp. induction Hp as [|heard said e e' out Hp IH Hs|heard said e e' seg Hp IH (Hs & Hw & Hd)]; intros Hsmall; [done|..].
  - destruct (step_delivered _ _ _ Hs) as [x Hx]. rewrite Hx, zlen_app in Hsmall. pose proof (zlen_nonneg x).
    eapply local_step_wf; [|..|done]; [apply IH; [done|]|]; lia.
  - apply Forall_app in Hf as [Hf Hseg]. rewrite Hd in Hsmall.
    destruct (receives_wf e seg) as (c' & Hc' & Hwf & _); [by apply IH|done|by apply Forall_singleton|].
    rewrite Hs in Hc'. injection Hc' as <-. destruct e'; simpl in *. by subst.
Qed.

(** The side that sends goes its way; the other one has not moved. *)
Lemma path_flow_src e0 heard said e dst :
  ep_wf e0 -> Forall seg_fine heard -> path e0 heard said e -> zlen (delivered e) < 2 ^ 61 ->
  flow e0 dst [] -> flow e dst said.
Proof.
  intros H0 Hf Hp. induction Hp as [|heard said e e' out Hp IH Hs|heard said e e' seg Hp IH (Hs & Hw & Hd)]; intros Hsmall Hfl; [done|..].
  - destruct (step_delivered _ _ _ Hs) as [x Hx]. rewrite Hx, zlen_app in Hsmall. pose proof (zlen_nonneg x).
    eapply flow_local_src; [|done]. apply IH; [done|lia|done].
  - apply Forall_app in Hf as [Hf Hseg]. rewrite Hd in Hsmall. specialize (IH Hf Hsmall Hfl).
    destruct (receives_wf e seg) as (c' & Hc' & Hwf & Hl); [by apply (path_wf e0 heard said)|done|by apply Forall_singleton|].
    rewrite Hs in Hc'. injection Hc' as <-. rewrite <- (app_nil_r said).
    eapply (flow_src e e' dst said [] []); try done; rewrite ?Hw, ?app_nil_r; try done.
    + apply (ep_conn _ Hwf).
    + apply (ep_written _ Hwf).
    + constructor.
Qed.

(** The side that receives goes its way, and hears only what the other one has sent. *)
Lemma path_flow_dst src e0 heard said e net :
  ep_wf e0 -> Forall seg_fine heard -> path e0 heard said e -> zlen (delivered e) < 2 ^ 61 ->
  (forall seg, seg ∈ heard -> seg ∈ net) -> zlen (written src) + 2 < two31 ->
  flow src e0 net -> flow src e net.
Proof.
  intros H0 Hf Hp. induction Hp as [|heard said e e' out Hp IH Hs|heard said e e' seg Hp IH Hs]; intros Hsmall Hnet Hshort Hfl; [done|..].
  - destruct (step_delivered _ _ _ Hs) as [x Hx]. rewrite Hx, zlen_app in Hsmall. pose proof (zlen_nonneg x).
    assert (Hd : zlen (delivered e) < 2 ^ 61) by lia.
    eapply flow_local_dst; [by apply IH|apply (ep_conn e); by apply (path_wf e0 heard said)|done].
  - apply Forall_app in Hf as [Hf Hseg]. pose proof Hs as (_ & _ & Hd). rewrite Hd in Hsmall.
    assert (Hfl' : flow src e net) by (apply IH; try done; set_solver).
    eapply flow_deliver; [done| | |apply (ep_conn e); by apply (path_wf e0 heard said)|done].
    + apply list_elem_of_In, Hnet. set_solver.
    + by eapply short_timely.
Qed.

(** Segments that differ at most in their ports, checksums and buffers: what the layers below
    TCP make of a segment on its way. *)
Definition seg_equiv (seg seg' : TCPSegment.t) : Prop :=
  TCPHeader.eqb (TCPSegment.header seg) (TCPSegment.header seg') = true /\
  Buffer.str (TCPSegment.payload seg) = Buffer.str (TCPSegment.payload seg').

Lemma seg_equiv_fields seg seg' : seg_equiv seg seg' ->
  TCPHeader.seqno (TCPSegment.header seg) = TCPHeader.seqno (TCPSegment.header seg') /\
  TCPHeader.syn (TCPSegment.header seg) = TCPHeader.syn (TCPSegment.header seg') /\
  TCPHeader.fin (TCPSegment.header seg) = TCPHeader.fin (TCPSegment.header seg') /\
  TCPHeader.win (TCPSegment.header seg) = TCPHeader.win (TCPSegment.header seg').
Proof.
  intros [H _]. unfold TCPHeader.eqb in H. repeat (apply andb_prop in H as [H ?]).
  repeat match goal with
  | E : Bool.eqb _ _ = true |- _ => apply Bool.eqb_prop in E
  | E : (_ =? _) = true |- _ => apply Z.eqb_eq in E
  | E : WrappingInt32.eqb _ _ = true |- _ => apply Z.eqb_eq in E
  end. split_and!; try done.
  destruct (TCPHeader.seqno (TCPSegment.header seg)), (TCPHeader.seqno (TCPSegment.header seg')). simpl in *. congruence.
Qed.

Lemma sent_ok_equiv S isn next n seg seg' : seg_equiv seg seg' -> sent_ok S isn next n seg' -> sent_ok S isn next n seg.
Proof.
  intros He. destruct (seg_equiv_fields _ _ He) as (E1 & E2 & E3 & E4). destruct He as [_ E5].
  assert (El : seg_len seg = seg_len seg') by (unfold seg_len, TCPSegment.length_in_sequence_space; by rewrite E2, E3, E5).
  intros [[Hseq Hsyn Hdata] Hr Hz Hp Hw]. split; [split|..]; rewrite ?El, ?E1, ?E2, ?E3, ?E4, ?E5; done.
Qed.

(** The segments a network has may be those sent, as they look when they arrive. *)
Lemma flow_equiv src dst net net' :
  (forall seg, seg ∈ net' -> exists seg', seg' ∈ net /\ seg_equiv seg seg') -> flow src dst net -> flow src dst net'.
Proof.
  intros Hnet [Hc Hn Ht Hd Hf Hs Hcap]. split; try done. apply Forall_forall. intros seg (seg' & Hin & He)%Hnet.
  unfold all_sent in Hn. rewrite Forall_forall in Hn. destruct (Hn _ Hin) as [n Hok]. exists n. by eapply sent_ok_equiv.
Qed.

(** A fresh endpoint. *)
Lemma fresh_endpoint cfg random c : config_ok cfg random -> TCPConnection.make cfg random = Ok c -> ep_wf (Endpoint c [] []).
Proof.
  intros Hcfg Hm. pose proof Hcfg as [H1 H2 H3 H4].
  destruct (cn_make_spec cfg random (fun _ _ => True) (fun _ => True)) as (c' & E & Hc & Hrc & Hm' & Hi & Hh & Ha & Hcap & _);
    [unfold string_max_size; lia..|done|]. rewrite Hm in E. injection E as <-.
  destruct (rc_make_spec (fun _ _ => True) (fun _ => True) (TCPConfig.recv_capacity cfg)) as
    (r & Em & _ & _ & _ & _ & _ & Hct); [unfold string_max_size; lia|]. rewrite Hm' in Em. injection Em as <-.
  split; unfold recv_side; simpl; try done; [by rewrite Ha, Hct|rewrite Hcap; lia].
Qed.

(** Two endpoints, each on a path of its own from a fresh connection: if the second one heard
    only what the first one said, what it has received is a prefix of what the first one was
    given, and all of it once the stream has ended. *)
Lemma paths_transfer cfg cfg' random random' c c' heard said e heard' said' e' :
  config_ok cfg random -> config_ok cfg' random' ->
  TCPConnection.make cfg random = Ok c -> TCPConnection.make cfg' random' = Ok c' ->
  path (Endpoint c [] []) heard said e -> path (Endpoint c' [] []) heard' said' e' ->
  Forall seg_fine heard -> Forall seg_fine heard' ->
  zlen (delivered e) < 2 ^ 61 -> zlen (delivered e') < 2 ^ 61 -> zlen (written e) + 2 < two31 ->
  (forall seg, seg ∈ heard' -> exists seg', seg' ∈ said /\ seg_equiv seg seg') ->
  (exists rest, written e = received e' ++ rest) /\
  (ByteStream.input_ended (TCPConnection.inbound_stream (conn e')) = true -> received e' = written e).
Proof.
  intros Hg Hg' Hm Hm' Hp Hp' Hf Hf' Hd Hd' Hshort Hnet. apply (flow_received e e' heard').
  eapply (path_flow_dst e (Endpoint c' [] []) heard'); try done; [by apply (fresh_endpoint cfg' random')|].
  eapply flow_equiv; [exact Hnet|].
  eapply (path_flow_src (Endpoint c [] []) heard); try done; [by apply (fresh_endpoint cfg random)|].
  by apply (start_flow cfg cfg' random random').
Qed.
