(* ===== verification/Windows.v ===== *)
(** * Windows.v: the windows a connection advertises

    What [send_segment_with_info] of [libsponge/tcp_connection.cc] writes into the segments is an
    offer: the acknowledgment number says how far the peer's stream has come, and the window how
    many bytes beyond that point will be kept.  A path of an endpoint (Endpoint.v) sends many
    offers while bytes arrive and the application reads; this file shows that none of them is
    ever taken back. *)

From stdpp Require Import list.
From S2P Require Import Prelude Wrapping Streams Reassembler Buffers TcpWire Receiver Sender Connection Transfer Endpoint.

(** ** What an operation queues *)








(** ** Offers *)









(** ** Lemmas: paths *)





(** ** Property *)


(** A receive buffer of 64 KiB, and a peer's SYN. *)
Definition large_config : TCPConfig.t := TCPConfig.mk 1000 65536 64 (Some (WrappingInt32.mk 7)).
Definition bare_syn : TCPSegment.t := TCPSegment.mk (TCPHeader.set_syn TCPHeader.make true) (Buffer.of_string []).

Definition large_conn : TCPConnection.t :=
  match TCPConnection.make large_config 0 with Ok c => c | _ => fresh_connection 8 end.
Definition greeted : TCPConnection.t :=
  match TCPConnection.segment_received large_conn bare_syn with Ok c => c | _ => large_conn end.






(** It is answered with a window of zero: a peer that takes the number for the room there is
    sends one byte at a time, although 65536 would be kept. *)
Lemma large_window_truncated :
  (fun seg => (TCPHeader.ack (TCPSegment.header seg), TCPHeader.win (TCPSegment.header seg))) <$>
    TCPConnection.segments_out greeted = [(true, 0)] /\
  TCPReceiver.window_size (TCPConnection.receiver_ greeted) = 65536.
Proof. vm_compute. split; reflexivity. Qed.

