(* ===== verification/Progress.v ===== *)
(** * Progress.v: what moves a transfer forward

    The other half of [Transfer]: there, nothing wrong is ever delivered; here, a segment
    that carries the first missing byte moves the receiver forward and is answered, the
    answer moves the sender forward, and a timer that was restarted by it resends the next
    outstanding segment. *)

From S2P Require Import Prelude Wrapping Streams Reassembler Buffers TcpWire Receiver Sender Connection Transfer.

(** ** A sender between two acknowledgments *)

Section sender_progress.

Import TCPSender.

Variable S : list byte.

(** No retransmission has happened since the last progress, and the timer has just been
    restarted if it runs. *)
Definition rested (s : t) : Prop :=
  consecutive_retransmissions_ s = 0 /\
  (buffer_ s <> [] ->
   RetransmissionTimer.rto_ (timer_ s) = RetransmissionTimer.initial_rto_ (timer_ s) /\
   RetransmissionTimer.time_waitied_ (timer_ s) = 0).

(** The window is full or nothing is left to send. *)
Definition settled (s : t) : Prop := right_edge s <= next_seqno_ s \/ drained s.

Definition initial_rto (s : t) : Z := RetransmissionTimer.initial_rto_ (timer_ s).

Lemma fill_timer s s' :
  sd_wf S s -> fill_window s = Ok s' ->
  timer_ s' = if negb (RetransmissionTimer.running (timer_ s)) && negb (bool_decide (buffer_ s' = []))
              then RetransmissionTimer.start (RetransmissionTimer.reset (timer_ s)) else timer_ s.
Proof.
  intros [Hcore _ _ _]. pose proof (sd_right_bound S s Hcore) as Hedge.
  unfold fill_window. pose proof (sd_acked _ _ Hcore). pose proof (sd_window _ _ Hcore).
  rewrite (u64_small (seqno_acked_ s + _)) by (unfold right_edge in Hedge; lia).
  change (seqno_acked_ s + Z.max 1 (window_size_ s)) with (right_edge s).
  destruct (fill_loop_spec S (Z.to_nat (right_edge s - next_seqno_ s)) s Hcore Hedge) as
    (s1 & new & -> & _ & _ & Ht & _); [lia|].
  cbn [mbind outcome_bind]. rewrite Ht.
  destruct (negb _ && _) eqn:E; intros [= <-]; simpl; rewrite E; done.
Qed.

Lemma fill_progress s :
  sd_wf S s ->
  exists s' new, fill_window s = Ok s' /\ sd_wf S s' /\ later s s' /\
    seqno_acked_ s' = seqno_acked_ s /\ segments_out_ s' = segments_out_ s ++ (snd <$> new) /\
    buffer_ s' = buffer_ s ++ new /\
    ByteStream.input_ended (stream_ s') = ByteStream.input_ended (stream_ s) /\
    consecutive_retransmissions_ s' = consecutive_retransmissions_ s /\
    initial_rto s' = initial_rto s /\ settled s' /\ (rested s -> rested s').
Proof.
  intros Hs. destruct (fill_window_spec S s Hs) as
    (s' & new & Hf & Hs' & Hi & Hc & Ha & He & Ho & Hb & Hn & Hie & _ & Hset).
  pose proof (fill_timer s s' Hs Hf) as Ht. exists s', new. unfold initial_rto, rested.
  rewrite Ht, Hc. split_and!; try done.
  - by destruct (_ && _).
  - unfold settled. by rewrite He.
  - intros [H0 Hr]. split; [done|]. intros Hne. pose proof (sd_timer _ _ Hs) as Hrun. rewrite Hrun.
    rewrite (bool_decide_eq_false_2 _ Hne). destruct (bool_decide_reflect (buffer_ s = [])); simpl; auto.
Qed.

(** The sender's part of [segment_received]. *)
Definition respond (s : t) (h : TCPHeader.t) : outcome t :=
  if TCPHeader.ack h then fill_window (ack_received s (TCPHeader.ackno h) (TCPHeader.win h))
  else if TCPHeader.syn h then fill_window s else Ok s.

Lemma fresh_rested s ackno win :
  fresh_ack s ackno = true -> rested (ack_received s ackno win).
Proof.
  unfold fresh_ack, ack_received. intros [H1 H2%Z.leb_le]%andb_prop. rewrite H1.
  rewrite (proj2 (Z.ltb_ge _ _) H2). unfold clear_buffer, rested; simpl.
  by destruct (bool_decide _).
Qed.

Lemma ack_initial s ackno win : initial_rto (ack_received s ackno win) = initial_rto s.
Proof.
  unfold ack_received, clear_buffer, initial_rto. destruct (_ <? _); [done|].
  destruct (_ <? _); simpl; by destruct (bool_decide _).
Qed.

(** A stale acknowledgment leaves the timer alone. *)
Lemma ack_rested s ackno win :
  sd_wf S s -> rested s -> rested (ack_received s ackno win).
Proof.
  intros Hs Hr. destruct (fresh_ack s ackno) eqn:Ef; [by apply fresh_rested|].
  unfold ack_received. unfold fresh_ack in Ef. destruct (Z.ltb_spec (next_seqno_ s) (unwrap ackno (isn_ s) (seqno_acked_ s))); [done|].
  rewrite (proj2 (Z.leb_le _ _)), andb_true_r in Ef by done. rewrite Ef.
  pose proof (sd_is_core _ _ Hs) as Hcore. destruct (sd_chain _ _ Hcore) as (lo & Hlo & Hch).
  pose proof (sd_next_bound _ _ Hcore). pose proof (sd_acked _ _ Hcore). pose proof (sd_small _ _ Hcore).
  unfold clear_buffer; simpl.
  rewrite (drop_acked_none S (isn_ s) lo (next_seqno_ s)) by (try apply Hcore; done || lia).
  destruct Hr as [Hz Hr]. by destruct (bool_decide _); split.
Qed.

Lemma respond_spec s h a :
  sd_wf S s -> 0 <= TCPHeader.win h < two16 -> next_seqno_ s < two31 ->
  (TCPHeader.ack h = true -> TCPHeader.ackno h = wrap a (isn_ s) /\ 0 <= a <= next_seqno_ s) ->
  exists s' old new, respond s h = Ok s' /\ sd_wf S s' /\ later s s' /\
    seqno_acked_ s' = (if TCPHeader.ack h then Z.max (seqno_acked_ s) a else seqno_acked_ s) /\
    segments_out_ s' = segments_out_ s ++ (snd <$> new) /\ buffer_ s' = old ++ new /\
    (seqno_acked_ s' = seqno_acked_ s -> old = buffer_ s) /\
    ByteStream.input_ended (stream_ s') = ByteStream.input_ended (stream_ s) /\
    consecutive_retransmissions_ s' <= consecutive_retransmissions_ s /\
    initial_rto s' = initial_rto s /\ (settled s -> settled s') /\
    (rested s \/ seqno_acked_ s < seqno_acked_ s' -> rested s').
Proof.
  intros Hs Hw Hn Ha. unfold respond.
  assert (Hc0 : 0 <= consecutive_retransmissions_ s).
  { destruct (sd_backoff _ _ Hs) as (k & _ & -> & _). apply u32_range. }
  destruct (TCPHeader.ack h).
  - destruct (Ha eq_refl) as [-> Hr]. pose proof (sd_is_core _ _ Hs) as Hcore.
    pose proof (sd_acked _ _ Hcore) as Hacked. pose proof (sd_isn _ _ Hcore).
    assert (Hu : unwrap (wrap a (isn_ s)) (isn_ s) (seqno_acked_ s) = a)
      by (apply unwrap_wrap_near; done || lia).
    destruct (ack_received_spec S s (wrap a (isn_ s)) (TCPHeader.win h) Hs Hw) as
      (Hs1 & Hi1 & Ho1 & Hn1 & Hst1 & _ & _ & H1).
    destruct H1 as (_ & Ha1 & Hb1 & Hc1).
    { unfold bogus_ack. rewrite Hu. apply Z.ltb_ge. lia. }
    pose proof (fresh_rested s (wrap a (isn_ s)) (TCPHeader.win h)) as Hfr.
    pose proof (ack_rested s (wrap a (isn_ s)) (TCPHeader.win h) Hs) as Har.
    pose proof (ack_initial s (wrap a (isn_ s)) (TCPHeader.win h)) as Hini.
    set (s1 := ack_received _ _ _) in *. unfold fresh_ack in *. rewrite Hu in *.
    rewrite (proj2 (Z.leb_le a _)), andb_true_r in * by lia.
    assert (Ham : seqno_acked_ s1 = Z.max (seqno_acked_ s) a) by (rewrite Ha1; ztests).
    destruct (fill_progress s1 Hs1) as (s' & new & Hf & Hs' & [Hi' Hn'] & Ha' & Ho' & Hb' & Hie & Hc' & Hin' & Hset & Hres).
    exists s', (buffer_ s1), new. rewrite Ha', Ham, Hst1 in *. split_and!; try done.
    + split; [congruence|lia].
    + by rewrite Ho', Ho1.
    + intros Heq. rewrite Hb1. destruct (sd_chain _ _ Hcore) as (lo & Hlo & Hch).
      pose proof (sd_next_bound _ _ Hcore). pose proof (sd_small _ _ Hcore). rewrite Heq.
      apply (drop_acked_none S (isn_ s) lo (next_seqno_ s)); try apply Hcore; done || lia.
    + rewrite Hc', Hc1. case_match; lia.
    + by rewrite Hin'.
    + intros [Hr'|Hlt]; apply Hres; [by apply Har|]. apply Hfr. apply Z.ltb_lt. lia.
  - destruct (TCPHeader.syn h).
    + destruct (fill_progress s Hs) as (s' & new & Hf & Hs' & Hl & Ha' & Ho' & Hb' & Hie & Hc' & Hin' & Hset & Hres).
      exists s', (buffer_ s), new. rewrite Ha', Hc'. split_and!; try done. intros [?|?]; [auto|lia].
    + exists s, (buffer_ s), []. rewrite !app_nil_r. split_and!; try done. intros [?|?]; [auto|lia].
Qed.

(** Once all of the stream and its FIN are sent, nothing more follows. *)
Lemma all_sent_state s :
  sd_wf S s -> next_seqno_ s = zlen S + 2 ->
  sent_fin_ s = true /\ ByteStream.input_ended (stream_ s) = true /\
  ByteStream.contents (stream_ s) = [] /\ ByteStream.eof (stream_ s) = true.
Proof.
  intros [Hcore _ _ _] Hn. pose proof (sd_stream _ _ Hcore) as Hst.
  pose proof (sd_read _ _ Hcore). pose proof (zlen_nonneg (ByteStream.contents (stream_ s))).
  pose proof (zlen_nonneg S).
  assert (Hf : sent_fin_ s = true).
  { destruct (sd_next _ _ Hcore) as [?|Hnx]; [lia|]. destruct (sent_fin_ s); [done|simpl in Hnx; lia]. }
  destruct (sd_fin _ _ Hcore Hf) as [Hie Hct]. split_and!; try done.
  rewrite bs_eof by done. by rewrite Hie, Hct.
Qed.

Lemma acked_idle s :
  sd_wf S s -> seqno_acked_ s = next_seqno_ s ->
  bytes_in_flight s = 0 /\ buffer_ s = [] /\ RetransmissionTimer.running (timer_ s) = false.
Proof.
  intros Hs Ha. assert (Hb : bytes_in_flight s = 0) by (unfold bytes_in_flight; by rewrite Ha, Z.sub_diag).
  destruct (idle_sender S s Hs Hb) as (? & ? & _). done.
Qed.

(** Whatever is not acknowledged yet is in the buffer, first things first. *)
Lemma unacked_front s :
  sd_wf S s -> seqno_acked_ s < next_seqno_ s ->
  exists n seg l, buffer_ s = (n, seg) :: l /\ sent_ok S (isn_ s) (next_seqno_ s) n seg /\
    n <= seqno_acked_ s < n + seg_len seg.
Proof.
  intros [Hcore _ _ _] Hlt. destruct (sd_chain _ _ Hcore) as (lo & Hlo & Hch).
  pose proof (sd_outstanding _ _ Hcore) as Ho.
  destruct (buffer_ s) as [|[n seg] l]; simpl in *; [lia|].
  destruct Hch as (-> & Hok & _). exists lo, seg, l. done.
Qed.

(** Settled and nothing outstanding: the stream is empty, and over if it has ended. *)
Lemma settled_idle s :
  sd_wf S s -> settled s -> seqno_acked_ s = next_seqno_ s ->
  ByteStream.contents (stream_ s) = [] /\
  (ByteStream.input_ended (stream_ s) = true -> next_seqno_ s = zlen S + 2).
Proof.
  intros [Hcore _ _ _] Hset Ha. destruct Hset as [Hr|[Hct Hd]]; [unfold right_edge in Hr; lia|].
  split; [done|]. intros Hie. specialize (Hd Hie). pose proof (sd_read _ _ Hcore) as Hrd.
  rewrite Hct in Hrd. simpl in Hrd.
  destruct (sd_next _ _ Hcore) as [(_ & _ & ?)|Hn]; [congruence|]. rewrite Hd in Hn. simpl in Hn. lia.
Qed.

End sender_progress.

(** ** A connection that gets a segment or a tick *)

Section connection_progress.

Import TCPConnection.

Definition empty_seg (s : TCPSender.t) : TCPSegment.t :=
  TCPSegment.set_header TCPSegment.make
    (TCPHeader.set_seqno TCPHeader.make (TCPSender.next_seqno s)).

(** The state after a segment, given what it does to the receiver and the sender: all the
    sender has queued goes out, and empty segments where an answer is due. *)
Lemma segment_received_eval c seg r' a s :
  TCPHeader.rst (TCPSegment.header seg) = false ->
  TCPReceiver.segment_received (receiver_ c) seg = Ok r' -> TCPReceiver.ackno r' = Some a ->
  respond (sender_ c) (TCPSegment.header seg) = Ok s ->
  exists extra linger,
    segment_received c seg = Ok (mk (cfg_ c) r' (TCPSender.set_segments_out s [])
      (segments_out_ c ++ (stamp r' <$> (TCPSender.segments_out_ s ++ extra))) 0 linger) /\
    Forall (eq (empty_seg s)) extra /\
    (seg_len seg <> 0 -> TCPSender.segments_out_ s ++ extra <> []) /\
    (seg_len seg = 0 -> TCPHeader.seqno (TCPSegment.header seg) <> WrappingInt32.sub a 1 -> extra = []).
Proof.
  intros Hr Hrecv Ha Hs. unfold segment_received. rewrite Hr, Hrecv. cbn [mbind outcome_bind].
  simpl receiver_. rewrite Ha. unfold respond in Hs. simpl sender_. rewrite Hs.
  cbn [mbind outcome_bind]. set (c2 := if TCPHeader.fin _ then _ else _).
  assert (H2 : exists l, c2 = mk (cfg_ c) r' s (segments_out_ c) (time_passed c) l).
  { unfold c2. destruct (TCPHeader.fin _); [destruct (negb _)|]; by eexists. }
  destruct H2 as [l ->].
  change (TCPSegment.length_in_sequence_space seg) with (seg_len seg).
  unfold TCPSender.segments_out. destruct (Z.eqb_spec (seg_len seg) 0) as [Hz|Hz]; simpl.
  - destruct (WrappingInt32.eqb _ _) eqn:Eq.
    + exists [empty_seg s], l. split; [done|]. split; [by repeat constructor|]. split; [done|].
      intros _ Hne. exfalso. apply Hne. unfold WrappingInt32.eqb in Eq.
      apply Z.eqb_eq in Eq. destruct (TCPHeader.seqno _), (WrappingInt32.sub a 1); simpl in *. by subst.
    + exists [], l. rewrite app_nil_r. split; [done|]. split; [constructor|]. done.
  - destruct (bool_decide_reflect (TCPSender.segments_out_ s = [])) as [E|E].
    + exists [empty_seg s], l. split; [done|]. split; [by repeat constructor|]. rewrite E. done.
    + exists [], l. rewrite app_nil_r. split; [done|]. split; [constructor|]. done.
Qed.

(** Before the retransmission limit a tick only lets the sender resend its oldest segment
    and may end the lingering. *)
Lemma tick_calm S c ms :
  cn_wf S c -> 0 <= TCPSender.consecutive_retransmissions_ (sender_ c) <= 7 ->
  exists s, TCPSender.tick (sender_ c) ms = Ok s /\
    tick c ms = Ok (mk (cfg_ c) (receiver_ c) (TCPSender.set_segments_out s [])
      (segments_out_ c ++ (stamp (receiver_ c) <$> TCPSender.segments_out_ s))
      (u64 (time_passed c + ms))
      (linger_after_streams_finish_ c &&
       negb (ByteStream.eof (TCPSender.stream_ (sender_ c)) &&
             ByteStream.eof (TCPReceiver.stream_out (receiver_ c)) &&
             (10 * TCPConfig.rt_timeout (cfg_ c) <=? u64 (time_passed c + ms))))).
Proof.
  intros [[Hs Ho] Hf] Hc. destruct (tick_spec S (sender_ c) ms Hs) as
    (s & Ht & Hs' & _ & _ & _ & _ & _ & Hst & _ & _ & Hco & _).
  exists s. split; [done|]. unfold tick. simpl sender_. rewrite Ht. cbn [mbind outcome_bind].
  assert (Hlow : (TCPConfig.MAX_RETX_ATTEMPTS <? TCPSender.consecutive_retransmissions_ s) = false).
  { apply Z.ltb_ge. unfold TCPConfig.MAX_RETX_ATTEMPTS. rewrite Hco. destruct (_ && _); [|lia].
    rewrite u32_small; lia. }
  unfold TCPSender.consecutive_retransmissions. simpl sender_. rewrite Hlow. cbn [mbind outcome_bind].
  unfold TCPSender.stream_in, send_segment_with_info, TCPSender.segments_out. simpl. rewrite Hst.
  destruct (linger_after_streams_finish_ c) eqn:El, (ByteStream.eof _), (ByteStream.eof _), (_ <=? _);
    unfold set_segments_out, set_sender, set_time_passed, abort; simpl; rewrite ?El; done.
Qed.

End connection_progress.

(** ** Segments as the sender makes them *)

(** Neither RST nor ACK; only [send_segment_with_info] adds an acknowledgment. *)
Definition plain (seg : TCPSegment.t) : Prop :=
  TCPHeader.rst (TCPSegment.header seg) = false /\ TCPHeader.ack (TCPSegment.header seg) = false.

Section plain_segments.

Import TCPSender.

Definition plain_buffer (s : t) : Prop := Forall (fun e => plain (snd e)) (buffer_ s).

Lemma assemble_plain s start s' n :
  plain_buffer s -> assemble_segment s start = Ok (s', n) -> plain_buffer s'.
Proof.
  intros Hp. unfold assemble_segment, plain_buffer. destruct (start =? 0); destruct (_ && _);
    (destruct (ByteStream.read _ _) as [[st d]| | |]; [|done..]); cbn [mbind outcome_bind];
    destruct (negb _); intros [= <- _]; simpl; try done;
    (apply Forall_app; split; [done|]; by repeat constructor).
Qed.

Lemma fill_plain s s' : plain_buffer s -> fill_window s = Ok s' -> plain_buffer s'.
Proof.
  intros Hp. unfold fill_window. generalize (u64 (seqno_acked_ s + Z.max 1 (window_size_ s))).
  intros right. generalize (Z.to_nat (right - next_seqno_ s)). intros fuel. assert (Hl : forall s1, fill_loop fuel right s = Ok s1 -> plain_buffer s1).
  { revert s Hp. induction fuel as [|fuel IH]; intros s Hp s1; cbn [fill_loop];
      (destruct (_ <? _); [|by intros [= <-]]); [done|].
    destruct (assemble_segment s _) as [[s2 n]| | |] eqn:E; [|done..]. cbn [mbind outcome_bind].
    pose proof (assemble_plain _ _ _ _ Hp E) as Hp2. destruct (ByteStream.buffer_empty _).
    - by intros [= <-].
    - by apply IH. }
  destruct (fill_loop fuel right s) as [s1| | |] eqn:E; [|done..]. cbn [mbind outcome_bind].
  specialize (Hl s1 eq_refl). destruct (_ && _); by intros [= <-].
Qed.

Lemma drop_acked_plain acked l :
  Forall (fun e => plain (snd e)) l -> Forall (fun e => plain (snd e)) (drop_acked acked l).
Proof.
  induction l as [|[st seg] l IH]; simpl; [done|]. intros H. inversion H; subst.
  destruct (_ <=? _); auto.
Qed.

Lemma ack_plain s ackno win : plain_buffer s -> plain_buffer (ack_received s ackno win).
Proof.
  unfold plain_buffer, ack_received, clear_buffer. intros Hp. destruct (_ <? _); [done|].
  destruct (_ <? _); simpl; destruct (bool_decide _); simpl; by apply drop_acked_plain.
Qed.

Lemma respond_plain s h s' : plain_buffer s -> respond s h = Ok s' -> plain_buffer s'.
Proof.
  intros Hp. unfold respond. destruct (TCPHeader.ack h); [by apply fill_plain, ack_plain|].
  destruct (TCPHeader.syn h); [by apply fill_plain|]. by intros [= <-].
Qed.

End plain_segments.

(** ** The part of a stream that has been sent *)

Definition sent_bytes (w : list byte) (s : TCPSender.t) : list byte := ztake (TCPSender.next_seqno_ s - 1) w.

Lemma sent_carries w isn next n seg :
  sent_ok w isn next n seg -> carries (ztake (next - 1) w) isn n seg.
Proof.
  intros [[Hq Hsyn Hdata] [Hn Hr] Hs Hp _]. rewrite (seg_len_eq _ Hp) in Hr. split; [done|done|].
  destruct Hdata as [?|(Hi & Hl & Hd & He)]; [by left|right].
  fold (fin_num (TCPHeader.syn (TCPSegment.header seg))) in *.
  pose proof (fin_num_range (TCPHeader.fin (TCPSegment.header seg))).
  split; [done|]. rewrite zlen_ztake. split; [lia|]. split.
  - rewrite <- Hd at 2. rewrite !ztake_take, !zdrop_drop. rewrite skipn_firstn_comm, take_take.
    f_equal. lia.
  - intros Hf. specialize (He Hf). rewrite Hf in Hr. simpl fin_num in Hr. lia.
Qed.

Lemma sent_bytes_grow w d s s' :
  TCPSender.next_seqno_ s - 1 <= zlen w \/ d = [] -> TCPSender.next_seqno_ s <= TCPSender.next_seqno_ s' ->
  exists e, sent_bytes (w ++ d) s' = sent_bytes w s ++ e.
Proof.
  intros Hd Hn. unfold sent_bytes. set (a := TCPSender.next_seqno_ s - 1) in *.
  set (b := TCPSender.next_seqno_ s' - 1). assert (Hab : a <= b) by lia.
  exists (zdrop a (ztake b (w ++ d))).
  rewrite <- (ztake_zdrop a (ztake b (w ++ d))) at 1. f_equal. rewrite ztake_ztake, Z.min_l by lia.
  destruct Hd as [Hd| ->]; [|by rewrite app_nil_r]. rewrite ztake_app.
  by rewrite (ztake_le0 (a - zlen w)), app_nil_r by lia.
Qed.

(** ** One direction between two connections *)

(** [seg] acknowledges everything before number [a]. *)
Definition acks (isn : WrappingInt32.t) (seg : TCPSegment.t) (a : Z) : Prop :=
  TCPHeader.ack (TCPSegment.header seg) = true /\ TCPHeader.ackno (TCPSegment.header seg) = wrap a isn.

(** An acknowledgment, if any, of something the receiver has. *)
Definition good_ack (isn : WrappingInt32.t) (r : TCPReceiver.t) (seg : TCPSegment.t) : Prop :=
  TCPHeader.rst (TCPSegment.header seg) = false /\
  (TCPHeader.ack (TCPSegment.header seg) = true ->
   TCPReceiver.has_isn_ r = true /\ exists a, acks isn seg a /\ 1 <= a <= TCPReceiver.ackno_ r).

Section links.

Import TCPConnection.

(** [src] has accepted [w] from its application, [dst]'s application has read [del]; the
    receiver of [dst] is ahead of the sender of [src] by what waits in the queue of
    acknowledgments. *)
Record link (w del : list byte) (src dst : t) : Prop := {
  lk_conn : cn_wf w src;
  lk_plain : plain_buffer (sender_ src);
  lk_small : zlen w + 2 < two31;
  lk_tracks : rc_tracks (sent_bytes w (sender_ src)) (TCPSender.isn_ (sender_ src)) (receiver_ dst);
  lk_fin : StreamReassembler.eof_ (TCPReceiver.reassembler_ (receiver_ dst)) = true \/
           ByteStream.input_ended (TCPReceiver.stream_out (receiver_ dst)) = true ->
           TCPSender.next_seqno_ (sender_ src) = zlen w + 2;
  lk_isn : TCPReceiver.has_isn_ (receiver_ dst) = true -> 1 <= TCPSender.next_seqno_ (sender_ src);
  lk_acked : TCPSender.seqno_acked_ (sender_ src) <> 0 ->
             TCPReceiver.has_isn_ (receiver_ dst) = true /\
             TCPSender.seqno_acked_ (sender_ src) <= TCPReceiver.ackno_ (receiver_ dst);
  lk_acks : Forall (good_ack (TCPSender.isn_ (sender_ src)) (receiver_ dst)) (segments_out_ dst);
  lk_del : del ++ ByteStream.contents (TCPReceiver.stream_out (receiver_ dst))
           = ztake (TCPReceiver.assembled (receiver_ dst)) w;
  lk_capacity : TCPReceiver.capacity_ (receiver_ dst) <= 2 ^ 62
}.

Lemma link_core w del src dst : link w del src dst -> sd_core w (sender_ src).
Proof. intros [[[[Hc _ _ _] _] _]]. done. Qed.

Lemma link_sender w del src dst : link w del src dst -> sd_wf w (sender_ src).
Proof. intros [[[Hc _] _]]. done. Qed.

Lemma link_bound w del src dst :
  link w del src dst -> 0 <= TCPSender.next_seqno_ (sender_ src) <= zlen w + 2.
Proof. intros Hl. eapply sd_next_bound, link_core, Hl. Qed.

(** The receiver's position: it acknowledges only what was sent, all of it only with the
    FIN. *)
Lemma link_position w del src dst (r := receiver_ dst) :
  link w del src dst ->
  TCPReceiver.ackno_ r = 1 + TCPReceiver.assembled r + TCPReceiver.fin_count r /\
  0 <= TCPReceiver.assembled r /\
  TCPReceiver.assembled r <= zlen (sent_bytes w (sender_ src)) /\
  (TCPReceiver.sent_fin_ r = true ->
   TCPReceiver.assembled r = zlen w /\ TCPSender.next_seqno_ (sender_ src) = zlen w + 2) /\
  (TCPReceiver.has_isn_ r = true -> TCPReceiver.ackno_ r <= TCPSender.next_seqno_ (sender_ src)).
Proof.
  intros Hl. subst r. pose proof (lk_tracks _ _ _ _ Hl) as [Hwf _ _ Hn _].
  pose proof (rc_ackno _ _ _ Hwf) as Ha.
  assert (Hfin : TCPReceiver.sent_fin_ (receiver_ dst) = true ->
    TCPReceiver.assembled (receiver_ dst) = zlen w /\ TCPSender.next_seqno_ (sender_ src) = zlen w + 2).
  { intros Hs%(rc_ended _ _ _ Hwf). pose proof (lk_fin _ _ _ _ Hl (or_intror Hs)) as Hnx.
    split; [|done]. destruct (sr_ended _ _ _ (rc_reassembler _ _ _ Hwf) Hs) as (m & Hm & Hle).
    unfold at_end in Hm. unfold TCPReceiver.assembled in *.
    assert (zlen (sent_bytes w (sender_ src)) = zlen w); [|lia].
    unfold sent_bytes. rewrite Hnx, ztake_ge by lia. done. }
  split; [done|]. split; [apply Hwf|]. split; [done|]. split; [done|].
  intros Hi. pose proof (lk_isn _ _ _ _ Hl Hi). rewrite Ha.
  unfold TCPReceiver.fin_count. destruct (TCPReceiver.sent_fin_ (receiver_ dst)).
  - destruct (Hfin eq_refl) as [-> ->]. lia.
  - unfold sent_bytes in Hn. rewrite zlen_ztake in Hn. lia.
Qed.

Lemma acks_unique isn seg a b :
  acks isn seg a -> acks isn seg b -> 0 <= a < two31 -> 0 <= b < two31 -> a = b.
Proof.
  intros [_ Ha] [_ Hb] ? ?. rewrite Ha in Hb. apply wrap_eq_iff in Hb.
  rewrite !Z.mod_small in Hb by lia. done.
Qed.

Lemma good_ack_mono isn r r' seg :
  TCPReceiver.ackno_ r <= TCPReceiver.ackno_ r' ->
  (TCPReceiver.has_isn_ r = true -> TCPReceiver.has_isn_ r' = true) ->
  good_ack isn r seg -> good_ack isn r' seg.
Proof.
  intros Ha Hi [Hr Hg]. split; [done|]. intros Hk. destruct (Hg Hk) as (H1 & a & H2 & H3).
  split; [auto|]. exists a. split; [done|lia].
Qed.

(** What [send_segment_with_info] puts out. *)
Lemma stamp_good S isn r l :
  rc_tracks S isn r -> Forall plain l -> Forall (good_ack isn r) (stamp r <$> l).
Proof.
  intros [Hwf Hi _ _ _] Hl. apply Forall_fmap. eapply Forall_impl; [exact Hl|]. intros seg [Hr Ha].
  pose proof (rc_ackno _ _ _ Hwf). assert (0 <= TCPReceiver.assembled r) by apply Hwf.
  assert (1 <= TCPReceiver.ackno_ r) by (unfold TCPReceiver.fin_count in *; destruct (TCPReceiver.sent_fin_ r); lia).
  unfold good_ack, acks, stamp, TCPReceiver.ackno; simpl. destruct (TCPReceiver.has_isn_ r); simpl.
  - split; [done|]. intros _. split; [done|]. exists (TCPReceiver.ackno_ r).
    rewrite Hi by done. split; [done|lia].
  - split; [done|congruence].
Qed.

Lemma stamp_acks S isn r seg :
  rc_tracks S isn r -> TCPReceiver.has_isn_ r = true -> acks isn (stamp r seg) (TCPReceiver.ackno_ r).
Proof.
  intros [_ Hi _ _ _] Hh. unfold acks, stamp, TCPReceiver.ackno. rewrite Hh; simpl.
  by rewrite Hi.
Qed.

(** The source moves on by itself. *)
Lemma link_src w d del src src' dst :
  link w del src dst -> cn_wf (w ++ d) src' -> plain_buffer (sender_ src') ->
  zlen (w ++ d) + 2 < two31 ->
  (d <> [] -> TCPSender.sent_fin_ (sender_ src) = false) -> later (sender_ src) (sender_ src') ->
  (TCPSender.seqno_acked_ (sender_ src') <> 0 ->
   TCPReceiver.has_isn_ (receiver_ dst) = true /\
   TCPSender.seqno_acked_ (sender_ src') <= TCPReceiver.ackno_ (receiver_ dst)) ->
  link (w ++ d) del src' dst.
Proof.
  intros Hl Hc Hp Hs Hd [Hi Hn] Ha. pose proof (link_bound _ _ _ _ Hl) as Hb.
  pose proof (sd_next_bound _ _ (sd_is_core _ _ (cn_sender _ _ (cn_is_pre _ _ Hc)))) as Hb'.
  pose proof (link_core _ _ _ _ Hl) as Hcore. pose proof (link_position _ _ _ _ Hl) as (_ & Hp0 & Hp1 & _).
  destruct Hl as [_ _ _ Ht Hf Hisn _ Hk Hdel Hcap].
  assert (Hend : d = [] \/ TCPSender.next_seqno_ (sender_ src) - 1 <= zlen w).
  { destruct (decide (d = [])) as [|Hne]; [by left|right]. specialize (Hd Hne).
    pose proof (sd_read _ _ Hcore). pose proof (zlen_nonneg (ByteStream.contents (TCPSender.stream_ (sender_ src)))).
    destruct (sd_next _ _ Hcore) as [?|Hx]; [|rewrite Hd in Hx; simpl in Hx]; lia. }
  assert (Hsame : TCPSender.next_seqno_ (sender_ src) = zlen w + 2 -> d = [] /\
    TCPSender.next_seqno_ (sender_ src') = zlen (w ++ d) + 2).
  { intros Hx. destruct Hend as [-> |]; [|lia]. rewrite app_nil_r in *. split; [done|lia]. }
  split; try done.
  - rewrite Hi. destruct (sent_bytes_grow w d (sender_ src) (sender_ src')) as [e He]; [tauto|done|].
    destruct (decide (e = [])) as [->|Hne]; [by rewrite He, app_nil_r|].
    assert (Hx : TCPSender.next_seqno_ (sender_ src) <> zlen w + 2).
    { intros Hx. destruct (Hsame Hx) as [-> Hx']. rewrite app_nil_r in *. unfold sent_bytes in He.
      rewrite Hx, Hx' in He. rewrite <- (app_nil_r (ztake _ _)) in He at 1.
      by apply app_inv_head in He. }
    rewrite He. apply rc_tracks_extend; [done|destruct (StreamReassembler.eof_ _); tauto|
      destruct (ByteStream.input_ended _); tauto|].
    rewrite <- He. unfold sent_bytes. rewrite zlen_ztake. lia.
  - intros He. by apply Hsame, Hf.
  - intros He. specialize (Hisn He). lia.
  - by rewrite Hi.
  - rewrite Hdel, ztake_app, (ztake_le0 (_ - zlen w)), app_nil_r; [done|].
    unfold sent_bytes in Hp1. rewrite zlen_ztake in Hp1. lia.
Qed.

(** The destination does something else than receive or read. *)
Lemma link_dst w del src dst dst' :
  link w del src dst -> receiver_ dst' = receiver_ dst ->
  Forall (good_ack (TCPSender.isn_ (sender_ src)) (receiver_ dst)) (segments_out_ dst') ->
  link w del src dst'.
Proof. intros [] Hr Hk. split; rewrite ?Hr; done. Qed.

(** A segment that starts at or before number [a] and reaches past it. *)
Definition spans (n : Z) (seg : TCPSegment.t) (a : Z) : Prop := n <= a < n + seg_len seg.

Lemma spans_nonempty w isn next n seg a :
  sent_ok w isn next n seg -> spans n seg a -> 1 <= a ->
  Buffer.str (TCPSegment.payload seg) <> [] \/ TCPHeader.fin (TCPSegment.header seg) = true.
Proof.
  intros [[_ Hsyn _] _ _ Hp _] [H1 H2] Ha. rewrite (seg_len_eq _ Hp) in H2.
  destruct (Buffer.str (TCPSegment.payload seg)) as [|x l]; [|by left]. right.
  destruct (TCPHeader.fin _); [done|]. destruct (TCPHeader.syn _); simpl in *; [|lia].
  rewrite Hsyn in * by done. lia.
Qed.

Lemma sent_take w s k : k <= zlen (sent_bytes w s) -> ztake k (sent_bytes w s) = ztake k w.
Proof.
  unfold sent_bytes. rewrite zlen_ztake. intros Hk. rewrite ztake_ztake.
  destruct (Z.le_gt_cases k (TCPSender.next_seqno_ s - 1)); [by rewrite Z.min_l by lia|].
  rewrite !ztake_le0 by lia. done.
Qed.

(** Where a segment of the source belongs, seen from the destination. *)
Lemma link_near w del src dst n seg :
  link w del src dst ->
  sent_ok w (TCPSender.isn_ (sender_ src)) (TCPSender.next_seqno_ (sender_ src)) n seg ->
  Buffer.str (TCPSegment.payload seg) <> [] \/ TCPHeader.fin (TCPSegment.header seg) = true ->
  let n' := n + (if TCPHeader.syn (TCPSegment.header seg) then 1 else 0) in
  1 <= n' < two64 /\ - two31 < n' - TCPReceiver.ackno_ (receiver_ dst) <= two31.
Proof.
  intros Hl Hn Hne n'. pose proof (link_position _ _ _ _ Hl) as (Hpa & Hp0 & Hp1 & _).
  pose proof (link_bound _ _ _ _ Hl) as Hb. pose proof (lk_small _ _ _ _ Hl) as Hsm.
  pose proof (sent_seg_start _ _ _ _ _ Hn ltac:(lia) Hne) as Hst. split; [done|].
  destruct Hn as [_ [? Hle] _ Hp _]. rewrite (seg_len_eq _ Hp) in Hle.
  pose proof (fin_num_range (TCPHeader.fin (TCPSegment.header seg))).
  pose proof (zlen_nonneg (Buffer.str (TCPSegment.payload seg))).
  unfold sent_bytes in Hp1. rewrite zlen_ztake in Hp1.
  unfold n'. fold (fin_num (TCPHeader.syn (TCPSegment.header seg))).
  unfold TCPReceiver.fin_count in *. destruct (TCPReceiver.sent_fin_ (receiver_ dst)); lia.
Qed.

(** A segment that spans the receiver's position moves it on, if nothing waits to be read. *)
Lemma front_moves w isn next n seg r r'
  (n' := n + (if TCPHeader.syn (TCPSegment.header seg) then 1 else 0))
  (data := Buffer.str (TCPSegment.payload seg)) (P := ztake (next - 1) w) :
  sent_ok w isn next n seg -> rc_tracks P isn r -> rc_tracks P isn r' ->
  spans n seg (TCPReceiver.ackno_ r) -> TCPReceiver.sent_fin_ r = false ->
  TCPReceiver.assembled r <= TCPReceiver.assembled r' ->
  ByteStream.contents (TCPReceiver.stream_out r) = [] ->
  (n' - 1 <= TCPReceiver.assembled r ->
   Z.min (n' - 1 + zlen data) (TCPReceiver.assembled r + TCPReceiver.window_size r)
     <= TCPReceiver.assembled r') /\
  (TCPHeader.fin (TCPSegment.header seg) = true -> TCPReceiver.assembled r' = zlen P ->
   TCPReceiver.sent_fin_ r' = true) ->
  TCPReceiver.ackno_ r < TCPReceiver.ackno_ r'.
Proof.
  intros Hn Ht Ht' [Hs1 Hs2] Hf Hmono Hnil [H1 H2]. unfold n', data in *. clear n' data.
  pose proof (rc_ackno _ _ _ (rt_wf _ _ _ Ht)) as Ha. pose proof (rc_ackno _ _ _ (rt_wf _ _ _ Ht')) as Ha'.
  destruct (rc_window _ _ r (rt_wf _ _ _ Ht)) as (Hw & _). rewrite Hnil in Hw. simpl in Hw.
  assert (Hcap : 0 < TCPReceiver.capacity_ r).
  { destruct (rt_wf _ _ _ Ht) as [[[Ho Hc _ _ _ _ _ _ _] _ _ _] -> _ _ _ _]. rewrite Hc. apply (bs_bounds _ Ho). }
  assert (0 <= TCPReceiver.assembled r) by apply (rt_wf _ _ _ Ht).
  pose proof (sent_carries _ _ _ _ _ Hn) as Hcar. fold P in Hcar.
  unfold TCPReceiver.fin_count in *. rewrite Hf in Ha.
  pose proof (seg_len_eq seg (so_payload _ _ _ _ _ Hn)) as Hl. rewrite Hl in Hs2.
  fold (fin_num (TCPHeader.syn (TCPSegment.header seg))) in *.
  assert (Hsyn : TCPHeader.syn (TCPSegment.header seg) = true -> n = 0) by apply Hcar.
  set (k := zlen (Buffer.str (TCPSegment.payload seg))) in *.
  assert (Hle : n + fin_num (TCPHeader.syn (TCPSegment.header seg)) - 1 <= TCPReceiver.assembled r).
  { destruct (TCPHeader.syn _); simpl in *; [rewrite Hsyn by done|]; lia. }
  specialize (H1 Hle). destruct (TCPReceiver.sent_fin_ r') eqn:Ef'; [lia|].
  destruct (Z.lt_ge_cases (TCPReceiver.assembled r) (TCPReceiver.assembled r')) as [|Hge]; [lia|].
  exfalso. destruct (TCPHeader.fin (TCPSegment.header seg)) eqn:Ef; simpl fin_num in *; [|lia].
  destruct (carries_data _ _ _ _ Hcar) as [[_ ?]|(_ & _ & _ & He)]; [congruence|].
  specialize (He Ef). fold (fin_num (TCPHeader.syn (TCPSegment.header seg))) k in He.
  pose proof (rt_next _ _ _ Ht'). discriminate H2; [done|lia].
Qed.

(** What a segment of the source does to the receiver of the destination. *)
Lemma link_receives w del src dst n seg (s := sender_ src) (r := receiver_ dst) :
  link w del src dst -> sent_ok w (TCPSender.isn_ s) (TCPSender.next_seqno_ s) n seg ->
  exists r', TCPReceiver.segment_received r seg = Ok r' /\
    rc_tracks (sent_bytes w s) (TCPSender.isn_ s) r' /\
    TCPReceiver.has_isn_ r' = synced r seg /\ TCPReceiver.ackno_ r <= TCPReceiver.ackno_ r' /\
    (ByteStream.contents (TCPReceiver.stream_out r) = [] ->
     ByteStream.contents (TCPReceiver.stream_out r') = [] \/ TCPReceiver.ackno_ r < TCPReceiver.ackno_ r') /\
    (forall a, spans n seg a -> a <= TCPReceiver.ackno_ r -> (a <> 0 -> synced r seg = true) ->
     ByteStream.contents (TCPReceiver.stream_out r) = [] \/ a < TCPReceiver.ackno_ r ->
     TCPReceiver.has_isn_ r' = true /\ a < TCPReceiver.ackno_ r') /\
    (forall dst', receiver_ dst' = r' ->
       Forall (good_ack (TCPSender.isn_ s) r') (segments_out_ dst') -> link w del src dst').
Proof.
  intros Hl Hn. subst s r. pose proof (link_position _ _ _ _ Hl) as (Hpa & Hp0 & Hp1 & Hpf & Hpi).
  pose proof (lk_tracks _ _ _ _ Hl) as Ht.
  destruct (carried_received _ _ (receiver_ dst) n seg Ht (sent_carries _ _ _ _ _ Hn)) as
    (r' & d & Hr & Ht' & Hcap & Hhas & Hasm & Hmono & Hct & Hend & Hprog).
  { intros Hne. by eapply link_near. }
  fold (sent_bytes w (sender_ src)) in *.
  assert (Hlk : forall dst', receiver_ dst' = r' ->
    Forall (good_ack (TCPSender.isn_ (sender_ src)) r') (segments_out_ dst') -> link w del src dst').
  { intros dst' Hr' Hk. destruct Hl as [Hl1 Hl2 Hl3 Hl4 Hl5 Hl6 Hl7 Hl8 Hl9 Hl10].
    split; rewrite ?Hr'; try done.
    - intros [?|[?|Hfin]]%Hend; [auto..|]. pose proof (sent_fin_end _ _ _ _ _ Hn Hfin).
      pose proof (sd_next_bound _ _ (sd_is_core _ _ (cn_sender _ _ (cn_is_pre _ _ Hl1)))). lia.
    - rewrite Hhas. unfold synced. intros [Hs|?]%orb_prop; [|auto].
      destruct Hn as [_ [? Hle] _ Hp _]. rewrite (seg_len_eq _ Hp), Hs in Hle. simpl in Hle.
      pose proof (fin_num_range (TCPHeader.fin (TCPSegment.header seg))).
      pose proof (zlen_nonneg (Buffer.str (TCPSegment.payload seg))). lia.
    - intros Hz. destruct (Hl7 Hz) as [Hi Ha]. split; [|lia]. rewrite Hhas. unfold synced. by rewrite Hi, orb_true_r.
    - rewrite <- (sent_take w (sender_ src)) in Hl9 |- * by (lia || apply Ht').
      apply (tracked_prefix _ (TCPSender.isn_ (sender_ src))); [done|].
      apply (tracked_prefix _ (TCPSender.isn_ (sender_ src))) in Hl9; [|done].
      rewrite Hl9, Hasm, Hct, zlen_app. f_equal. lia.
    - by rewrite Hcap. }
  assert (Hpos : TCPReceiver.ackno_ r' = 1 + TCPReceiver.assembled r' + TCPReceiver.fin_count r') by apply Ht'.
  pose proof (zlen_nonneg d).
  assert (1 <= TCPReceiver.ackno_ (receiver_ dst))
    by (unfold TCPReceiver.fin_count in *; destruct (TCPReceiver.sent_fin_ (receiver_ dst)); lia).
  exists r'. split; [done|]. split; [done|]. split; [done|]. split; [done|]. split; [|split; [|done]].
  - intros Hnil. rewrite Hct, Hnil. destruct (decide (d = [])) as [->|Hne]; [by left|right].
    assert (zlen d <> 0) by (intros ?%zlen_0; done). pose proof (rt_next _ _ _ Ht').
    unfold TCPReceiver.fin_count in *. destruct (TCPReceiver.sent_fin_ (receiver_ dst)).
    + destruct (Hpf eq_refl). unfold sent_bytes in *. rewrite zlen_ztake in *. lia.
    + destruct (TCPReceiver.sent_fin_ r'); lia.
  - intros a Hsp Ha Hsy Hwin.
    assert (Hs : synced (receiver_ dst) seg = true).
    { destruct (decide (a = 0)) as [->|]; [|auto]. unfold synced. apply orb_true_intro. left.
      apply (so_syn _ _ _ _ _ Hn); unfold spans in Hsp; pose proof (so_range _ _ _ _ _ Hn); lia. }
    split; [by rewrite Hhas|].
    destruct (Z.lt_ge_cases a (TCPReceiver.ackno_ (receiver_ dst))) as [|Hge]; [lia|].
    destruct Hwin as [Hnil|]; [|lia]. replace a with (TCPReceiver.ackno_ (receiver_ dst)) in * by lia.
    eapply front_moves; try done; [|lia|apply Hprog; [done|by eapply spans_nonempty]].
    pose proof (so_range _ _ _ _ _ Hn). unfold spans, TCPReceiver.fin_count in *.
    destruct (TCPReceiver.sent_fin_ (receiver_ dst)); [|done]. destruct (Hpf eq_refl) as [Hz1 Hz2]. lia.
Qed.

(** ** Delivering segments *)

(** What receiving segments does to a connection, in whatever order they come. *)
Record advance (c c' : t) : Prop := {
  av_ackno : TCPReceiver.ackno_ (receiver_ c) <= TCPReceiver.ackno_ (receiver_ c');
  av_isn : TCPReceiver.has_isn_ (receiver_ c) = true -> TCPReceiver.has_isn_ (receiver_ c') = true;
  av_unread : ByteStream.contents (TCPReceiver.stream_out (receiver_ c)) = [] ->
    ByteStream.contents (TCPReceiver.stream_out (receiver_ c')) = [] \/
    TCPReceiver.ackno_ (receiver_ c) < TCPReceiver.ackno_ (receiver_ c');
  av_later : later (sender_ c) (sender_ c');
  av_acked : TCPSender.seqno_acked_ (sender_ c) <= TCPSender.seqno_acked_ (sender_ c');
  av_count : TCPSender.consecutive_retransmissions_ (sender_ c')
             <= TCPSender.consecutive_retransmissions_ (sender_ c);
  av_rto : initial_rto (sender_ c') = initial_rto (sender_ c);
  av_settled : settled (sender_ c) -> settled (sender_ c');
  av_rested : rested (sender_ c) \/
    TCPSender.seqno_acked_ (sender_ c) < TCPSender.seqno_acked_ (sender_ c') -> rested (sender_ c');
  av_ended : ByteStream.input_ended (TCPSender.stream_ (sender_ c'))
             = ByteStream.input_ended (TCPSender.stream_ (sender_ c));
  av_queue : exists new, segments_out_ c' = segments_out_ c ++ new;
  av_cfg : cfg_ c' = cfg_ c;
  av_time : time_passed c' = time_passed c \/ time_passed c' = 0
}.

#[export] Instance advance_preorder : PreOrder advance.
Proof.
  split.
  - intros c. split; try done; try lia; auto; [intros [?|?]; [done|lia]|]. exists []. by rewrite app_nil_r.
  - intros c1 c2 c3 [] []. split; try lia; try congruence; try tauto.
    + intros Hnil. destruct (av_unread0 Hnil) as [Hn2|]; [|right; lia].
      destruct (av_unread1 Hn2); [by left|right; lia].
    + by etrans.
    + intros [?|?]; apply av_rested1; [left; auto|].
      destruct (Z.lt_ge_cases (TCPSender.seqno_acked_ (sender_ c2)) (TCPSender.seqno_acked_ (sender_ c3)));
        [by right|left; apply av_rested0; right; lia].
    + destruct av_queue0 as [n1 H1], av_queue1 as [n2 H2]. exists (n1 ++ n2).
      by rewrite H2, H1, app_assoc.
Qed.

Lemma empty_seg_plain s : plain (empty_seg s).
Proof. done. Qed.

(** A segment as it goes from [x] to [y]: part of the stream of [x], an acknowledgment of
    the stream of [y]. *)
Definition proper (w : list byte) (x y : t) (seg : TCPSegment.t) : Prop :=
  (exists n, sent_ok w (TCPSender.isn_ (sender_ x)) (TCPSender.next_seqno_ (sender_ x)) n seg) /\
  good_ack (TCPSender.isn_ (sender_ y)) (receiver_ x) seg.

(** A segment without sequence numbers, at the given one. *)
Definition pure_ack (seqno : WrappingInt32.t) (seg : TCPSegment.t) : Prop :=
  seg_len seg = 0 /\ TCPHeader.seqno (TCPSegment.header seg) = seqno.

Lemma seg_len_stamp r seg : seg_len (stamp r seg) = seg_len seg.
Proof.
  unfold seg_len, TCPSegment.length_in_sequence_space, stamp. simpl.
  by destruct (TCPReceiver.ackno r).
Qed.

(** The sender of [y] gets a segment that acknowledges what [x] has. *)
Lemma respond_link wy dx x y seg :
  link wy dx y x -> good_ack (TCPSender.isn_ (sender_ y)) (receiver_ x) seg ->
  0 <= TCPHeader.win (TCPSegment.header seg) < two16 ->
  exists s, respond (sender_ y) (TCPSegment.header seg) = Ok s /\ sd_wf wy s /\ plain_buffer s /\
    Forall plain (TCPSender.segments_out_ s) /\ later (sender_ y) s /\
    TCPSender.seqno_acked_ (sender_ y) <= TCPSender.seqno_acked_ s /\
    (TCPSender.seqno_acked_ s <> 0 -> TCPReceiver.has_isn_ (receiver_ x) = true /\
       TCPSender.seqno_acked_ s <= TCPReceiver.ackno_ (receiver_ x)) /\
    (forall a, acks (TCPSender.isn_ (sender_ y)) seg a -> 0 <= a < two31 -> a <= TCPSender.seqno_acked_ s) /\
    (TCPSender.seqno_acked_ (sender_ y) = zlen wy + 2 -> TCPSender.segments_out_ s = []) /\
    ByteStream.input_ended (TCPSender.stream_ s) = ByteStream.input_ended (TCPSender.stream_ (sender_ y)) /\
    TCPSender.consecutive_retransmissions_ s <= TCPSender.consecutive_retransmissions_ (sender_ y) /\
    initial_rto s = initial_rto (sender_ y) /\ (settled (sender_ y) -> settled s) /\
    (rested (sender_ y) \/ TCPSender.seqno_acked_ (sender_ y) < TCPSender.seqno_acked_ s -> rested s).
Proof.
  intros Hyx [Hrst Hack] Hwin.
  pose proof (link_sender _ _ _ _ Hyx) as Hsy. pose proof (link_bound _ _ _ _ Hyx) as Hby.
  pose proof (lk_small _ _ _ _ Hyx) as Hsmy.
  assert (Ha : exists a, TCPHeader.ack (TCPSegment.header seg) = true ->
    acks (TCPSender.isn_ (sender_ y)) seg a /\ 1 <= a <= TCPReceiver.ackno_ (receiver_ x) /\
    TCPReceiver.has_isn_ (receiver_ x) = true /\ a <= TCPSender.next_seqno_ (sender_ y)).
  { destruct (TCPHeader.ack _); [|by exists 0]. destruct (Hack eq_refl) as (Hi & a & Ha1 & Ha2). exists a.
    intros _. pose proof (link_position _ _ _ _ Hyx) as (_ & _ & _ & _ & Hle). specialize (Hle Hi).
    split_and!; try done; lia. }
  destruct Ha as [a Ha].
  destruct (respond_spec wy (sender_ y) (TCPSegment.header seg) a Hsy Hwin ltac:(lia)) as
    (s & old & new & Hrs & Hs' & Hlat & Hacked & Hout & Hbuf & _ & Hie & Hco & Hini & Hset & Hrest).
  { intros Hk. destruct (Ha Hk) as ([_ ?] & ? & ? & ?). split; [done|lia]. }
  pose proof (respond_plain _ _ _ (lk_plain _ _ _ _ Hyx) Hrs) as Hpb.
  rewrite (cn_flushed _ _ (lk_conn _ _ _ _ Hyx)) in Hout. simpl in Hout.
  exists s. split; [done|]. split; [done|]. split; [done|]. split.
  { rewrite Hout. apply Forall_fmap. unfold plain_buffer in Hpb. rewrite Hbuf in Hpb.
    by apply Forall_app in Hpb as [_ ?]. }
  split; [done|]. split; [rewrite Hacked; destruct (TCPHeader.ack _); lia|]. split; [|split; [|split; [|done]]].
  - rewrite Hacked. pose proof (lk_acked _ _ _ _ Hyx) as Hz. destruct (TCPHeader.ack _); [|done].
    destruct (Ha eq_refl) as (_ & ? & ? & _). intros _. split; [done|].
    destruct (decide (TCPSender.seqno_acked_ (sender_ y) = 0)); [lia|]. destruct Hz; [done|lia].
  - intros b Hb Hb2. rewrite Hacked. pose proof Hb as [Hk _]. rewrite Hk.
    destruct (Ha Hk) as (Ha1 & ? & _ & ?). assert (a = b) as -> by (eapply acks_unique; done || lia). lia.
  - intros Hd. pose proof (sd_acked _ _ (sd_is_core _ _ Hs')). pose proof (sd_next_bound _ _ (sd_is_core _ _ Hs')).
    destruct (acked_idle wy s Hs') as (_ & Hnil & _); [rewrite Hacked in *; destruct (TCPHeader.ack _); lia|].
    rewrite Hnil in Hbuf. symmetry in Hbuf. apply app_eq_nil in Hbuf as [_ ->]. done.
Qed.

Lemma deliver wx wy dx dy x y seg :
  link wx dy x y -> link wy dx y x -> proper wx x y seg ->
  exists y', segment_received y seg = Ok y' /\ link wx dy x y' /\ link wy dx y' x /\ advance y y' /\
    TCPReceiver.has_isn_ (receiver_ y') = synced (receiver_ y) seg /\
    (synced (receiver_ y) seg = true ->
       time_passed y' = 0 /\
       (forall a, acks (TCPSender.isn_ (sender_ y)) seg a -> 0 <= a < two31 ->
          a <= TCPSender.seqno_acked_ (sender_ y')) /\
       (seg_len seg <> 0 -> exists m, In m (segments_out_ y') /\
          acks (TCPSender.isn_ (sender_ x)) m (TCPReceiver.ackno_ (receiver_ y'))) /\
       (TCPSender.seqno_acked_ (sender_ y) = zlen wy + 2 ->
        exists extra, segments_out_ y' = segments_out_ y ++ extra /\
          Forall (pure_ack (wrap (zlen wy + 2) (TCPSender.isn_ (sender_ y)))) extra /\
          (seg_len seg = 0 -> TCPHeader.seqno (TCPSegment.header seg) <>
             WrappingInt32.sub (wrap (TCPReceiver.ackno_ (receiver_ y')) (TCPSender.isn_ (sender_ x))) 1 ->
           extra = []))) /\
    (forall n a, sent_ok wx (TCPSender.isn_ (sender_ x)) (TCPSender.next_seqno_ (sender_ x)) n seg ->
       spans n seg a -> a <= TCPReceiver.ackno_ (receiver_ y) ->
       (a <> 0 -> synced (receiver_ y) seg = true) ->
       ByteStream.contents (TCPReceiver.stream_out (receiver_ y)) = [] \/
         a < TCPReceiver.ackno_ (receiver_ y) ->
       TCPReceiver.has_isn_ (receiver_ y') = true /\ a < TCPReceiver.ackno_ (receiver_ y')).
Proof.
  intros Hxy Hyx [[n Hn] [Hrst Hack]].
  destruct (link_receives _ _ _ _ _ _ Hxy Hn) as (r' & Hr & Ht' & Hhas & Hmono & Hunread & _ & Hlk).
  assert (Hspan : forall m a, sent_ok wx (TCPSender.isn_ (sender_ x)) (TCPSender.next_seqno_ (sender_ x)) m seg ->
    spans m seg a -> a <= TCPReceiver.ackno_ (receiver_ y) ->
    (a <> 0 -> synced (receiver_ y) seg = true) ->
    ByteStream.contents (TCPReceiver.stream_out (receiver_ y)) = [] \/
      a < TCPReceiver.ackno_ (receiver_ y) ->
    TCPReceiver.has_isn_ r' = true /\ a < TCPReceiver.ackno_ r').
  { intros m a Hm. destruct (link_receives _ _ _ _ _ _ Hxy Hm) as (r2 & Hr2 & _ & _ & _ & _ & Hp & _).
    rewrite Hr in Hr2. injection Hr2 as <-. apply Hp. }
  assert (Hold : Forall (good_ack (TCPSender.isn_ (sender_ x)) r') (segments_out_ y)).
  { eapply Forall_impl; [apply (lk_acks _ _ _ _ Hxy)|]. intros m. apply good_ack_mono; [done|].
    intros Hi. rewrite Hhas. unfold synced. by rewrite Hi, orb_true_r. }
  destruct (synced (receiver_ y) seg) eqn:Hs; cycle 1.
  { exists (set_receiver y r'). assert (Hrr : r' = receiver_ y) by (rewrite unsynced_received in Hr by done; congruence).
    split. { unfold segment_received. rewrite Hrst, Hr. cbn [mbind outcome_bind]. simpl receiver_.
      unfold TCPReceiver.ackno. by rewrite Hhas. }
    split; [by apply Hlk|]. subst r'. replace (set_receiver y (receiver_ y)) with y by (by destruct y).
    split; [done|]. split; [done|]. done. }
  pose proof (so_win _ _ _ _ _ Hn) as Hwin.
  destruct (respond_link wy dx x y seg Hyx (conj Hrst Hack) Hwin) as
    (s & Hrs & Hs' & Hpb & Hplain & Hlat & Hacked & Hack' & Hacks & Hidle & Hie & Hco & Hini & Hset & Hrest).
  assert (Hak : TCPReceiver.ackno r' = Some (wrap (TCPReceiver.ackno_ r') (TCPReceiver.isn_ r')))
    by (unfold TCPReceiver.ackno; by rewrite Hhas).
  destruct (segment_received_eval y seg r' _ s Hrst Hr Hak Hrs) as (extra & linger & He & Hex & Hne & Hnone).
  set (y' := mk _ _ _ _ _ _) in He. exists y'. split; [done|].
  destruct (segment_received_spec wy y seg r' (lk_conn _ _ _ _ Hyx) Hwin Hrst Hr) as
    (y2 & q & He2 & Hwf & _). rewrite He in He2. injection He2 as <-.
  split. { apply Hlk; [done|]. simpl. apply Forall_app. split; [done|]. eapply stamp_good; [done|].
    apply Forall_app. split; [done|]. eapply Forall_impl; [exact Hex|]. intros m <-. apply empty_seg_plain. }
  split. { rewrite <- (app_nil_r wy). apply (link_src _ [] _ y); rewrite ?app_nil_r; try done. apply Hyx. }
  split. { split; simpl; try done; [by eexists|by right]. }
  split; [done|]. split; [|done]. intros _. split; [done|]. split; [done|]. split.
  - intros Hl. specialize (Hne Hl). destruct (TCPSender.segments_out_ s ++ extra) as [|m l] eqn:Eq; [done|].
    exists (stamp r' m). split; [|by eapply stamp_acks]. simpl. apply in_or_app. right. by left.
  - intros Hd. exists (stamp r' <$> extra). simpl. rewrite Hidle by done. split; [done|]. split.
    + apply Forall_fmap. eapply Forall_impl; [exact Hex|]. intros m <-. unfold compose, pure_ack. rewrite seg_len_stamp.
      split; [done|]. destruct Hlat as [Hi Hle].
      pose proof (sd_next_bound _ _ (sd_is_core _ _ Hs')). pose proof (sd_acked _ _ (sd_is_core _ _ Hs')).
      unfold stamp, TCPReceiver.ackno. rewrite Hhas. simpl. unfold TCPSender.next_seqno. rewrite Hi. f_equal. lia.
    + intros Hz Hq. rewrite Hnone; [done|done|]. rewrite (rt_isn _ _ _ Ht') by done. exact Hq.
Qed.

(** ** Calls of the application *)

(** The oldest outstanding segment is on its way. *)
Definition ready (c : t) : Prop :=
  forall e l, TCPSender.buffer_ (sender_ c) = e :: l -> exists r, In (stamp r (snd e)) (segments_out_ c).

(** What writing to, ending and connecting leave as it is. *)
Record kept (c c' : t) : Prop := {
  kp_receiver : receiver_ c' = receiver_ c;
  kp_cfg : cfg_ c' = cfg_ c;
  kp_time : time_passed c' = time_passed c;
  kp_later : later (sender_ c) (sender_ c');
  kp_acked : TCPSender.seqno_acked_ (sender_ c') = TCPSender.seqno_acked_ (sender_ c);
  kp_count : TCPSender.consecutive_retransmissions_ (sender_ c')
             = TCPSender.consecutive_retransmissions_ (sender_ c);
  kp_rto : initial_rto (sender_ c') = initial_rto (sender_ c);
  kp_ready : ready c -> ready c';
  kp_queue : exists new, Forall plain new /\
    segments_out_ c' = segments_out_ c ++ (stamp (receiver_ c) <$> new)
}.

#[export] Instance kept_preorder : PreOrder kept.
Proof.
  split.
  - intros c. split; try done. exists []. split; [constructor|]. by rewrite app_nil_r.
  - intros c1 c2 c3 [] []. split; try congruence; [by etrans|tauto|].
    destruct kp_queue0 as (n1 & Hp1 & H1), kp_queue1 as (n2 & Hp2 & H2). exists (n1 ++ n2).
    split; [by apply Forall_app|]. by rewrite H2, H1, kp_receiver0, fmap_app, app_assoc.
Qed.

(** Filling the window from a changed outbound stream and sending the result. *)
Lemma fill_send w c st (s0 := TCPSender.set_stream_in (sender_ c) st) :
  sd_wf w s0 -> TCPSender.segments_out_ (sender_ c) = [] -> plain_buffer (sender_ c) ->
  exists s, TCPSender.fill_window s0 = Ok s /\ kept c (send_segment_with_info (set_sender c s)) /\
    settled s /\ plain_buffer s /\
    ByteStream.input_ended (TCPSender.stream_ s) = ByteStream.input_ended st.
Proof.
  intros Hs Hf Hp. destruct (fill_progress w s0 Hs) as
    (s & new & Hfill & Hs' & Hl & Ha & Ho & Hb & Hie & Hc & Hini & Hset & _).
  assert (Hp' : plain_buffer s) by (by apply (fill_plain s0)).
  exists s. split; [done|]. split; [|done].
  change (TCPSender.segments_out_ s0) with (TCPSender.segments_out_ (sender_ c)) in Ho.
  change (TCPSender.buffer_ s0) with (TCPSender.buffer_ (sender_ c)) in Hb. rewrite Hf in Ho. simpl in Ho.
  split; try done.
  - intros Hr e l. simpl. rewrite Hb. setoid_rewrite in_app_iff.
    unfold TCPSender.segments_out. simpl. rewrite Ho.
    destruct (TCPSender.buffer_ (sender_ c)) as [|e0 l0] eqn:Eb; simpl.
    + intros ->. exists (receiver_ c). right. by left.
    + intros [= <- _]. destruct (Hr e0 l0 Eb) as [r Hin]. exists r. by left.
  - exists (snd <$> new). unfold send_segment_with_info, TCPSender.segments_out. simpl. rewrite Ho.
    split; [|done]. apply Forall_fmap. unfold plain_buffer in Hp'. rewrite Hb in Hp'.
    by apply Forall_app in Hp' as [_ ?].
Qed.

Lemma connect_progress w c :
  cn_wf w c -> plain_buffer (sender_ c) ->
  exists c', connect c = Ok c' /\ cn_wf w c' /\ kept c c' /\ settled (sender_ c') /\
    plain_buffer (sender_ c') /\
    ByteStream.input_ended (TCPSender.stream_ (sender_ c')) =
    ByteStream.input_ended (TCPSender.stream_ (sender_ c)).
Proof.
  intros Hc Hp. destruct (connect_wf w c Hc) as (c' & new & E & Hc' & _).
  assert (Hsame : TCPSender.set_stream_in (sender_ c) (TCPSender.stream_ (sender_ c)) = sender_ c)
    by (by destruct (sender_ c)).
  destruct (fill_send w c (TCPSender.stream_ (sender_ c))) as (s & Hf & Hk & Hset & Hp' & Hie);
    [rewrite Hsame; apply Hc|apply Hc|done|].
  rewrite Hsame in Hf. unfold connect in E |- *. rewrite Hf in E |- *. simpl in E |- *.
  injection E as <-. eexists. split; [done|]. done.
Qed.

Lemma end_progress w c :
  cn_wf w c -> plain_buffer (sender_ c) ->
  ByteStream.input_ended (TCPSender.stream_ (sender_ c)) = false ->
  exists c', end_input_stream c = Ok c' /\ cn_wf w c' /\ kept c c' /\ settled (sender_ c') /\
    plain_buffer (sender_ c') /\ ByteStream.input_ended (TCPSender.stream_ (sender_ c')) = true.
Proof.
  intros Hc Hp Hie. destruct (end_input_wf w c Hc) as (c' & new & E & Hc' & _).
  destruct (fill_send w c (ByteStream.end_input (TCPSender.stream_ (sender_ c)))) as
    (s & Hf & Hk & Hset & Hp' & Hie'); [apply sender_end_input; apply Hc|apply Hc|done|].
  unfold end_input_stream, TCPSender.stream_in in E |- *. rewrite Hie, Hf in E |- *. simpl in E |- *.
  injection E as <-. eexists. split; [done|]. done.
Qed.

Lemma write_progress w c data :
  cn_wf w c -> plain_buffer (sender_ c) -> zlen w + zlen data < two63 ->
  ByteStream.input_ended (TCPSender.stream_ (sender_ c)) = false ->
  exists c' d, write c data = Ok (c', zlen d) /\ d = ztake (zlen d) data /\
    zlen d = Z.min (remaining_outbound_capacity c) (zlen data) /\ cn_wf (w ++ d) c' /\ kept c c' /\
    settled (sender_ c') /\ plain_buffer (sender_ c') /\
    ByteStream.input_ended (TCPSender.stream_ (sender_ c')) = false.
Proof.
  intros Hc Hp Hfit Hie. destruct (write_wf w c data Hc Hfit) as (c' & d & new & E & Hd & Hc' & _).
  destruct (sender_write w (sender_ c) data) as (st & d2 & Hw & Hd2 & Hlen & Hie2 & Hs2);
    [apply Hc|done|done|].
  destruct (fill_send (w ++ d2) c st) as (s & Hf & Hk & Hset & Hp' & Hie'); [done|apply Hc|done|].
  unfold write, TCPSender.stream_in in E |- *. rewrite Hie, Hw in E |- *. cbn [mbind outcome_bind] in E |- *.
  rewrite Hf in E |- *. cbn [mbind outcome_bind] in E |- *.
  injection E as <- Hz. unfold remaining_outbound_capacity, TCPSender.stream_in.
  eexists _, d. split; [by rewrite Hz|]. split; [done|]. split; [lia|]. split; [done|]. split; [done|].
  split; [done|]. split; [done|]. simpl. congruence.
Qed.

Lemma kept_links w d wy dx dy x x' y :
  link w dy x y -> link wy dx y x -> kept x x' -> cn_wf (w ++ d) x' -> plain_buffer (sender_ x') ->
  zlen (w ++ d) + 2 < two31 -> (d <> [] -> TCPSender.sent_fin_ (sender_ x) = false) ->
  link (w ++ d) dy x' y /\ link wy dx y x'.
Proof.
  intros Hxy Hyx [] Hc Hp Hs Hd. split.
  - eapply link_src; try done. rewrite kp_acked0. apply Hxy.
  - apply (link_dst _ _ _ x); [done|done|]. destruct kp_queue0 as (new & Hn & ->).
    apply Forall_app. split; [apply Hyx|]. eapply stamp_good; [apply Hyx|done].
Qed.

(** ** Time and reading *)

(** What a tick before the retransmission limit leaves as it is. *)
Record ticked (c c' : t) : Prop := {
  tk_receiver : receiver_ c' = receiver_ c;
  tk_cfg : cfg_ c' = cfg_ c;
  tk_isn : TCPSender.isn_ (sender_ c') = TCPSender.isn_ (sender_ c);
  tk_next : TCPSender.next_seqno_ (sender_ c') = TCPSender.next_seqno_ (sender_ c);
  tk_acked : TCPSender.seqno_acked_ (sender_ c') = TCPSender.seqno_acked_ (sender_ c);
  tk_stream : TCPSender.stream_ (sender_ c') = TCPSender.stream_ (sender_ c);
  tk_rto : initial_rto (sender_ c') = initial_rto (sender_ c);
  tk_settled : settled (sender_ c) -> settled (sender_ c');
  tk_count : TCPSender.consecutive_retransmissions_ (sender_ c')
             <= TCPSender.consecutive_retransmissions_ (sender_ c) + 1;
  tk_queue : exists new, Forall plain new /\
    segments_out_ c' = segments_out_ c ++ (stamp (receiver_ c) <$> new)
}.

Lemma tick_initial s ms s' : TCPSender.tick s ms = Ok s' -> initial_rto s' = initial_rto s.
Proof.
  unfold TCPSender.tick. destruct (RetransmissionTimer.expire _); [|by intros [= <-]].
  unfold TCPSender.retransmit. destruct (negb (_ =? 0)); simpl;
    (destruct (TCPSender.buffer_ s) as [|[n seg] l]; [done|]); by intros [= <-].
Qed.

Lemma tick_progress w c ms :
  cn_wf w c -> plain_buffer (sender_ c) -> 0 <= TCPSender.consecutive_retransmissions_ (sender_ c) <= 7 ->
  0 <= time_passed c + ms < two64 ->
  exists c', tick c ms = Ok c' /\ cn_wf w c' /\ plain_buffer (sender_ c') /\ ticked c c' /\
    time_passed c' = time_passed c + ms /\
    linger_after_streams_finish_ c' = linger_after_streams_finish_ c &&
      negb (ByteStream.eof (TCPSender.stream_ (sender_ c)) &&
            ByteStream.eof (TCPReceiver.stream_out (receiver_ c)) &&
            (10 * TCPConfig.rt_timeout (cfg_ c) <=? time_passed c + ms)) /\
    (rested (sender_ c) -> initial_rto (sender_ c) <= ms < two64 -> ready c') /\
    (TCPSender.buffer_ (sender_ c) = [] ->
       segments_out_ c' = segments_out_ c /\
       TCPSender.consecutive_retransmissions_ (sender_ c') = TCPSender.consecutive_retransmissions_ (sender_ c)).
Proof.
  intros Hc Hp Hco Htm. pose proof Hc as [[Hs Ho] Hf].
  destruct (tick_calm w c ms Hc Hco) as (s & Ht & Htick).
  destruct (tick_spec w (sender_ c) ms Hs) as
    (s2 & Ht2 & Hs' & Hi & Hb & Hn & Ha & Hwin & Hst & Hsf & Hq & Hcs & _).
  rewrite Ht in Ht2. injection Ht2 as <-. rewrite Hf in Hq. simpl in Hq.
  destruct (tick_wf w c ms Hc) as (c' & new & E & Hc' & _). rewrite Htick in E. injection E as <-.
  rewrite u64_small in * by done. eexists. split; [done|]. split; [done|]. simpl.
  assert (Hplain : Forall plain (TCPSender.segments_out_ s)).
  { rewrite Hq. unfold plain_buffer in Hp. destruct (timed_out _ _); [|constructor].
    destruct (TCPSender.buffer_ (sender_ c)); [constructor|]. inversion Hp; subst. constructor; [done|constructor]. }
  assert (Hto : TCPSender.buffer_ (sender_ c) = [] -> timed_out (sender_ c) ms = false).
  { intros Hnil. unfold timed_out. rewrite (sd_timer _ _ Hs), Hnil. done. }
  split. { unfold plain_buffer in *. simpl. by rewrite Hb. }
  split. { split; simpl; try done.
    - by apply (tick_initial (sender_ c) ms s).
    - unfold settled, drained, right_edge. simpl. by rewrite Ha, Hwin, Hn, Hst, Hsf.
    - rewrite Hcs, u32_small by lia. destruct (timed_out (sender_ c) ms), (_ =? 0); simpl; lia.
    - eauto. }
  split; [done|]. split; [done|]. split.
  - intros [_ Hr] Hini e l. simpl. rewrite Hb. intros Hbuf. destruct Hr as [Hr1 Hr2]; [by rewrite Hbuf|].
    exists (receiver_ c). apply in_or_app. right. rewrite Hq, Hbuf.
    assert (Hexp : timed_out (sender_ c) ms = true).
    { unfold timed_out. rewrite (sd_timer _ _ Hs), Hbuf, Hr1, Hr2. simpl. unfold initial_rto in Hini.
      pose proof (sd_initial _ _ Hs). apply Z.leb_le. rewrite u64_small; lia. }
    rewrite Hexp. simpl. by left.
  - intros Hnil. specialize (Hto Hnil). rewrite Hq, Hcs, Hto. simpl. by rewrite app_nil_r.
Qed.

Lemma ticked_links w wy dx dy x x' y :
  link w dy x y -> link wy dx y x -> ticked x x' -> cn_wf w x' -> plain_buffer (sender_ x') ->
  link w dy x' y /\ link wy dx y x'.
Proof.
  intros Hxy Hyx [] Hc Hp. split.
  - rewrite <- (app_nil_r w). eapply link_src; rewrite ?app_nil_r; try done; [apply Hxy|split; [done|lia]|].
    rewrite tk_acked0. apply Hxy.
  - apply (link_dst _ _ _ x); [done|done|]. destruct tk_queue0 as (new & Hn & ->).
    apply Forall_app. split; [apply Hyx|]. eapply stamp_good; [apply Hyx|done].
Qed.

(** Taking all segments off the queue. *)
Lemma emit_links w wy dx dy x y :
  link w dy x y -> link wy dx y x ->
  link w dy (set_segments_out x []) y /\ link wy dx y (set_segments_out x []) /\
  Forall (proper w (set_segments_out x []) y) (segments_out_ x).
Proof.
  intros Hxy Hyx. pose proof (lk_conn _ _ _ _ Hxy) as [[Hs Ho] Hf]. split_and!.
  - destruct Hxy. split; try done. split; [|done]. split; [done|constructor].
  - apply (link_dst _ _ _ x); [done|done|constructor].
  - pose proof (lk_acks _ _ _ _ Hyx) as Hk. unfold all_sent in Ho.
    apply (Forall_and (fun _ => _)). done.
Qed.

(** The application of [y] reads all there is. *)
Lemma read_links w wy dx dy x y (st := inbound_stream y) :
  link w dy x y -> link wy dx y x ->
  exists out, ByteStream.read st (ByteStream.buffer_size st) = Ok (out, ByteStream.contents st) /\
    let y' := set_receiver y (TCPReceiver.set_stream_out (receiver_ y) out) in
    link w (dy ++ ByteStream.contents st) x y' /\ link wy dx y' x /\ ByteStream.contents out = [] /\
    ByteStream.input_ended out = ByteStream.input_ended st.
Proof.
  intros Hxy Hyx. pose proof (lk_tracks _ _ _ _ Hxy) as Ht. subst st. unfold inbound_stream.
  rewrite bs_buffer_size by apply Ht. set (ct := ByteStream.contents _).
  destruct (rc_tracks_read _ _ _ (zlen ct) Ht) as (out & Hr & Ht' & Hct & Hie).
  { pose proof (zlen_nonneg ct). fold ct. lia. }
  fold ct in Hr, Hct. rewrite ztake_ge in Hr by lia. rewrite zdrop_ge in Hct by lia.
  exists out. split; [done|]. split.
  - destruct Hxy as [H1 H2 H3 H4 H5 H6 H7 H8 H9 H10]. split; try done.
    + intros He. apply H5. unfold TCPReceiver.stream_out, StreamReassembler.stream_out in *. simpl in He.
      by rewrite Hie in He.
    + unfold TCPReceiver.stream_out. simpl. unfold StreamReassembler.stream_out. simpl.
      rewrite Hct, app_nil_r. exact H9.
  - split; [|done]. destruct Hyx. split; try done. destruct lk_conn0 as [[? ?] ?]. split; [|done]. by split.
Qed.

End links.
