(* ===== verification/Benchmark.v ===== *)
(** * Benchmark.v: a whole transfer in memory

    Models [apps/tcp_benchmark.cc]: two connections that exchange segments directly, with or
    without reordering, until all bytes have arrived and both are closed.  Random bytes and
    initial sequence numbers are arguments; timing and output are left out. *)

From stdpp Require Import pretty.
From S2P Require Import Prelude Wrapping Streams Reassembler Buffers TcpWire Receiver Sender Connection Transfer Progress.

Module TcpBenchmark.

(** The local variables of [main_loop] that its [loop] changes. *)
Record t := mk {
  x : TCPConnection.t;
  y : TCPConnection.t;
  bytes_to_send : Buffer.t;
  x_closed : bool;
  string_received : list byte
}.

(** The loops over the vector of segments. *)
Fixpoint receive_each (c : TCPConnection.t) (segments : list TCPSegment.t) : outcome TCPConnection.t :=
  match segments with
  | [] => Ok c
  | seg :: rest => c ← TCPConnection.segment_received c seg; receive_each c rest
  end.

(** [segments] comes empty and is cleared, so it is local here. *)
Definition move_segments (x y : TCPConnection.t) (reorder : bool) : outcome (TCPConnection.t * TCPConnection.t) :=
  let segments := TCPConnection.segments_out x in
  let x := TCPConnection.set_segments_out x [] in
  y ← receive_each y (if reorder then rev segments else segments);
  Ok (x, y).

(** The loop that writes input into [x]. *)
Fixpoint write_input (fuel : nat) (x : TCPConnection.t) (bytes_to_send : Buffer.t)
  : outcome (TCPConnection.t * Buffer.t) :=
  if negb (Buffer.size bytes_to_send =? 0) && negb (TCPConnection.remaining_outbound_capacity x =? 0) then
    match fuel with
    | O => OutOfFuel
    | S fuel =>
        let want := Z.min (TCPConnection.remaining_outbound_capacity x) (Buffer.size bytes_to_send) in
        '(x, written) ← TCPConnection.write x (ztake want (Buffer.str bytes_to_send));
        if negb (want =? written) then
          Throw (runtime_error (String.append "want = " (String.append (pretty want)
            (String.append ", written = " (pretty written)))))
        else
          bytes_to_send ← Buffer.remove_prefix bytes_to_send written;
          write_input fuel x bytes_to_send
    end
  else Ok (x, bytes_to_send).

(** The lambda [loop]; every round of [write_input] takes a byte. *)
Definition loop (reorder : bool) (st : t) : outcome t :=
  '(x, bytes_to_send) ← write_input (S (Z.to_nat (Buffer.size (bytes_to_send st)))) (x st) (bytes_to_send st);
  '(x, x_closed) ←
    (if (Buffer.size bytes_to_send =? 0) && negb (x_closed st)
     then x ← TCPConnection.end_input_stream x; Ok (x, true) else Ok (x, x_closed st));
  '(x, y) ← move_segments x (y st) reorder;
  '(y, x) ← move_segments y x false;
  let available_output := ByteStream.buffer_size (TCPConnection.inbound_stream y) in
  '(y, string_received) ←
    (if 0 <? available_output then
       '(out, data) ← ByteStream.read (TCPConnection.inbound_stream y) available_output;
       Ok (TCPConnection.set_receiver y (TCPReceiver.set_stream_out (TCPConnection.receiver_ y) out),
           string_received st ++ data)
     else Ok (y, string_received st));
  x ← TCPConnection.tick x 1000;
  y ← TCPConnection.tick y 1000;
  Ok (mk x y bytes_to_send x_closed string_received).

(** [while (cond) loop();], for at most [fuel] rounds. *)
Fixpoint while_loop (fuel : nat) (cond : t -> bool) (reorder : bool) (st : t) : outcome t :=
  if cond st then
    match fuel with
    | O => OutOfFuel
    | S fuel => st ← loop reorder st; while_loop fuel cond reorder st
    end
  else Ok st.

Definition receiving (st : t) : bool := negb (ByteStream.eof (TCPConnection.inbound_stream (y st))).
Definition alive (st : t) : bool := TCPConnection.active (x st) || TCPConnection.active (y st).

(** What [main_loop] does before its loops. *)
Definition start (string_to_send : list byte) (random_x random_y : Z) : outcome t :=
  let config := TCPConfig.make in
  x ← TCPConnection.make config random_x;
  y ← TCPConnection.make config random_y;
  let bytes_to_send := Buffer.of_string string_to_send in
  x ← TCPConnection.connect x;
  y ← TCPConnection.end_input_stream y;
  Ok (mk x y bytes_to_send false []).

Definition main_loop (fuel : nat) (reorder : bool) (string_to_send : list byte) (random_x random_y : Z) : outcome t :=
  st ← start string_to_send random_x random_y;
  st ← while_loop fuel receiving reorder st;
  if negb (bool_decide (string_received st = string_to_send))
  then Throw (runtime_error "strings sent vs. received don't match")
  else while_loop fuel alive reorder st.

End TcpBenchmark.

(** ** Lemmas: moving segments *)

Section moving.

Import TCPConnection.

Lemma link_acked_le w del src dst :
  link w del src dst ->
  TCPSender.seqno_acked_ (sender_ src) <= TCPReceiver.ackno_ (receiver_ dst) /\
  1 <= TCPReceiver.ackno_ (receiver_ dst).
Proof.
  intros Hl. pose proof (link_position _ _ _ _ Hl) as (Ha & H0 & _).
  assert (1 <= TCPReceiver.ackno_ (receiver_ dst))
    by (unfold TCPReceiver.fin_count in *; destruct (TCPReceiver.sent_fin_ (receiver_ dst)); lia).
  split; [|done]. destruct (decide (TCPSender.seqno_acked_ (sender_ src) = 0)); [lia|].
  by apply (lk_acked _ _ _ _ Hl).
Qed.

(** Some segment in the queue of [y] acknowledges number [b] of [x]. *)
Definition fresh_reply (b : Z) (x y : t) : Prop :=
  TCPReceiver.has_isn_ (receiver_ y) = true /\
  exists m a, In m (segments_out_ y) /\ acks (TCPSender.isn_ (sender_ x)) m a /\
    b < a <= TCPReceiver.ackno_ (receiver_ y).

Lemma fresh_reply_mono b x y y' : fresh_reply b x y -> advance y y' -> fresh_reply b x y'.
Proof.
  intros (Hi & m & a & Hin & Ha & Hr) []. split; [auto|]. exists m, a.
  destruct av_queue as [new ->]. split; [apply in_or_app; by left|]. split; [done|lia].
Qed.

Lemma receive_each_spec wx wy dx dy x y l :
  link wx dy x y -> link wy dx y x -> Forall (proper wx x y) l ->
  exists y', TcpBenchmark.receive_each y l = Ok y' /\ link wx dy x y' /\ link wy dx y' x /\ advance y y' /\
    (TCPReceiver.has_isn_ (receiver_ y) = true \/
       (exists h t, l = h :: t /\ TCPHeader.syn (TCPSegment.header h) = true) ->
     (l <> [] -> TCPReceiver.has_isn_ (receiver_ y') = true /\ time_passed y' = 0) /\
     (forall m a, In m l -> acks (TCPSender.isn_ (sender_ y)) m a -> 0 <= a < two31 ->
        a <= TCPSender.seqno_acked_ (sender_ y'))) /\
    (forall m n b, In m l ->
       sent_ok wx (TCPSender.isn_ (sender_ x)) (TCPSender.next_seqno_ (sender_ x)) n m ->
       spans n m b -> b <= TCPReceiver.ackno_ (receiver_ y) ->
       (b <> 0 -> synced (receiver_ y) m = true) ->
       ByteStream.contents (TCPReceiver.stream_out (receiver_ y)) = [] \/
         b < TCPReceiver.ackno_ (receiver_ y) ->
       fresh_reply b x y').
Proof.
  revert y. induction l as [|seg l IH]; intros y Hxy Hyx Hl.
  { exists y. split; [done|]. split; [done|]. split; [done|]. split; [done|]. split; [|done].
    intros _. split; [done|]. by intros ? ? []. }
  inversion Hl as [|? ? Hseg Hrest]; subst.
  destruct (deliver _ _ _ _ _ _ _ Hxy Hyx Hseg) as (y1 & E1 & Hxy1 & Hyx1 & Hav1 & Hhas1 & Hsync & Hspan).
  assert (Hisn : TCPSender.isn_ (sender_ y1) = TCPSender.isn_ (sender_ y)) by apply (av_later _ _ Hav1).
  destruct (IH y1 Hxy1 Hyx1) as (y' & E' & Hxy' & Hyx' & Hav' & Hsync' & Hspan').
  { eapply Forall_impl; [exact Hrest|]. unfold proper. by rewrite Hisn. }
  exists y'. simpl. rewrite E1. cbn [mbind outcome_bind]. split; [done|]. split; [done|]. split; [done|].
  split; [by etrans|]. split.
  - intros Hs. assert (Hsy : synced (receiver_ y) seg = true).
    { unfold synced. destruct Hs as [->|(h & t & [= <- _] & ->)]; [apply orb_true_r|done]. }
    rewrite Hsy in Hhas1. destruct (Hsync Hsy) as (Htime & Hacked & _).
    destruct (Hsync' (or_introl Hhas1)) as [Ht' Ha']. split.
    + intros _. destruct (decide (l = [])) as [->|Hne]; [|auto]. simpl in E'. injection E' as <-. done.
    + intros m a [<-|Hin] Hk Hr; [|apply (Ha' m); [done|by rewrite Hisn|done]].
      specialize (Hacked a Hk Hr). pose proof (av_acked _ _ Hav'). lia.
  - intros m n b [<-|Hin] Hok Hsp Hle Hsy Hpre.
    + destruct (Hspan n b Hok Hsp Hle Hsy Hpre) as [Hi Hlt]. rewrite Hhas1 in Hi.
      destruct (Hsync Hi) as (_ & _ & Hreply & _). destruct Hreply as (q & Hq & Hk); [unfold spans in Hsp; lia|].
      eapply fresh_reply_mono; [|exact Hav']. split; [congruence|]. exists q, (TCPReceiver.ackno_ (receiver_ y1)).
      split; [done|]. split; [done|lia].
    + pose proof (av_ackno _ _ Hav1). apply (Hspan' m n); try done; [lia| |].
      * intros Hb. specialize (Hsy Hb). unfold synced in *. apply orb_prop in Hsy as [->|Hi]; [done|].
        by rewrite (av_isn _ _ Hav1 Hi), orb_true_r.
      * destruct Hpre as [Hnil|]; [|right; lia]. destruct (av_unread _ _ Hav1 Hnil); [by left|right; lia].
Qed.

(** ** Lemmas: writing input *)

(** What [loop] knows of [x] with respect to its own outbound stream. *)
Lemma write_input_spec fuel w wy dx dy x y b :
  link w dy x y -> link wy dx y x -> Buffer.wf b -> zlen w + zlen (Buffer.str b) + 2 < two31 ->
  (Buffer.str b <> [] -> ByteStream.input_ended (TCPSender.stream_ (sender_ x)) = false) ->
  settled (sender_ x) -> zlen (Buffer.str b) <= Z.of_nat fuel ->
  exists x' b' d, TcpBenchmark.write_input fuel x b = Ok (x', b') /\ Buffer.str b = d ++ Buffer.str b' /\
    Buffer.wf b' /\ link (w ++ d) dy x' y /\ link wy dx y x' /\ kept x x' /\ settled (sender_ x') /\
    ByteStream.input_ended (TCPSender.stream_ (sender_ x'))
      = ByteStream.input_ended (TCPSender.stream_ (sender_ x)) /\
    (Buffer.str b' = [] \/ remaining_outbound_capacity x' = 0).
Proof.
  revert w x b. induction fuel as [|fuel IH]; intros w x b Hxy Hyx Hb Hfit Hopen Hset Hfuel;
    cbn [TcpBenchmark.write_input]; unfold Buffer.size;
    destruct (Z.eqb_spec (zlen (Buffer.str b)) 0) as [Hz|Hz]; try (pose proof (zlen_nonneg (Buffer.str b)); lia);
    cbn [negb andb].
  1, 2: exists x, b, []; rewrite app_nil_r; split_and!; try done; left; by apply zlen_0.
  destruct (Z.eqb_spec (remaining_outbound_capacity x) 0) as [Hr|Hr]; cbn [negb andb].
  { exists x, b, []. rewrite app_nil_r. split_and!; try done. by right. }
  assert (Hne : Buffer.str b <> []) by (intros E; by rewrite E in Hz). specialize (Hopen Hne).
  pose proof (lk_conn _ _ _ _ Hxy) as Hc. pose proof (zlen_nonneg w).
  assert (Hrem : 0 < remaining_outbound_capacity x).
  { unfold remaining_outbound_capacity, TCPSender.stream_in in *.
    pose proof (sd_stream _ _ (link_core _ _ _ _ Hxy)) as Hst. rewrite bs_remaining in * by done.
    pose proof (bs_bounds _ Hst). lia. }
  set (want := Z.min _ _). assert (Hw : 0 < want <= zlen (Buffer.str b)) by (pose proof (zlen_nonneg (Buffer.str b)); lia).
  assert (Hlen : zlen (ztake want (Buffer.str b)) = want) by (rewrite zlen_ztake; lia).
  destruct (write_progress w x (ztake want (Buffer.str b)) Hc) as
    (x1 & d & -> & Hd & Hdl & Hc1 & Hk1 & Hset1 & Hp1 & Hie1); [apply Hxy|lia|done|].
  assert (Hdw : zlen d = want) by lia. rewrite Hdw, ztake_ztake, Z.min_id in Hd.
  cbn [mbind outcome_bind]. rewrite Hdw, Z.eqb_refl. cbn [negb].
  destruct (buffer_remove_ok b want Hb ltac:(lia)) as (b1 & -> & Hb1 & Hs1). cbn [mbind outcome_bind].
  assert (Hsplit : Buffer.str b = d ++ Buffer.str b1) by (rewrite Hs1, Hd; symmetry; apply ztake_zdrop).
  assert (Hbl : zlen (Buffer.str b) = zlen d + zlen (Buffer.str b1)) by (rewrite Hsplit at 1; apply zlen_app).
  destruct (kept_links w d wy dx dy x x1 y Hxy Hyx Hk1 Hc1 Hp1) as [Hxy1 Hyx1].
  { rewrite zlen_app. pose proof (zlen_nonneg (Buffer.str b1)). lia. }
  { intros _. destruct (TCPSender.sent_fin_ (sender_ x)) eqn:Ef; [|done].
    destruct (sd_fin _ _ (link_core _ _ _ _ Hxy) Ef). congruence. }
  destruct (IH (w ++ d) x1 b1 Hxy1 Hyx1 Hb1) as (x' & b' & d' & -> & Hs' & Hb' & Hxy' & Hyx' & Hk' & Hset' & Hie' & Hend);
    [rewrite zlen_app; lia|done|done|lia|].
  exists x', b', (d ++ d'). split; [done|]. split; [by rewrite Hsplit, Hs', app_assoc|].
  rewrite app_assoc. split_and!; try done; [by etrans|congruence].
Qed.

(** ** Lemmas: one exchange *)

Lemma move_spec wx wy dx dy x y reorder :
  link wx dy x y -> link wy dx y x ->
  exists y' (x' := set_segments_out x []),
    TcpBenchmark.move_segments x y reorder = Ok (x', y') /\
    link wx dy x' y' /\ link wy dx y' x' /\ advance y y' /\
    (TCPReceiver.has_isn_ (receiver_ y) = true \/ (reorder = false /\
       exists h t, segments_out_ x = h :: t /\ TCPHeader.syn (TCPSegment.header h) = true) ->
     (segments_out_ x <> [] -> TCPReceiver.has_isn_ (receiver_ y') = true /\ time_passed y' = 0) /\
     (forall m a, In m (segments_out_ x) -> acks (TCPSender.isn_ (sender_ y)) m a -> 0 <= a < two31 ->
        a <= TCPSender.seqno_acked_ (sender_ y'))) /\
    (forall m n b, In m (segments_out_ x) ->
       sent_ok wx (TCPSender.isn_ (sender_ x)) (TCPSender.next_seqno_ (sender_ x)) n m ->
       spans n m b -> b <= TCPReceiver.ackno_ (receiver_ y) ->
       (b <> 0 -> synced (receiver_ y) m = true) ->
       ByteStream.contents (TCPReceiver.stream_out (receiver_ y)) = [] \/
         b < TCPReceiver.ackno_ (receiver_ y) ->
       fresh_reply b x y').
Proof.
  intros Hxy Hyx. destruct (emit_links _ _ _ _ _ _ Hxy Hyx) as (Hxy1 & Hyx1 & Hpr).
  unfold TcpBenchmark.move_segments, segments_out.
  set (l := if reorder then rev (segments_out_ x) else segments_out_ x).
  assert (Hin : forall m, In m (segments_out_ x) <-> In m l).
  { intros m. unfold l. destruct reorder; [apply in_rev|done]. }
  destruct (receive_each_spec wx wy dx dy (set_segments_out x []) y l Hxy1 Hyx1) as
    (y' & -> & Hxy' & Hyx' & Hav & Hsync & Hspan).
  { apply List.Forall_forall. intros m Hm. apply Hin in Hm. by apply (proj1 (List.Forall_forall _ _) Hpr). }
  cbn [mbind outcome_bind]. exists y'. split; [done|]. split; [done|]. split; [done|]. split; [done|]. split.
  - intros Hs. assert (Hs' : TCPReceiver.has_isn_ (receiver_ y) = true \/
      (exists h t, l = h :: t /\ TCPHeader.syn (TCPSegment.header h) = true)).
    { destruct Hs as [?|[-> ?]]; [by left|by right]. }
    destruct (Hsync Hs') as [H1 H2]. split.
    + intros Hne. apply H1. intros Hl. destruct (segments_out_ x) as [|m q]; [done|].
      assert (Hm : In m l) by (apply Hin; by left). by rewrite Hl in Hm.
    + intros m a Hm. apply H2. by apply Hin.
  - intros m n b Hm. apply (Hspan m n b). by apply Hin.
Qed.

(** While anything is outstanding, the oldest segment is in the queue. *)
Lemma ready_front w del x y :
  link w del x y -> ready x -> TCPSender.seqno_acked_ (sender_ x) < TCPSender.next_seqno_ (sender_ x) ->
  exists m n, In m (segments_out_ x) /\
    sent_ok w (TCPSender.isn_ (sender_ x)) (TCPSender.next_seqno_ (sender_ x)) n m /\
    spans n m (TCPSender.seqno_acked_ (sender_ x)).
Proof.
  intros Hl Hr Hlt. destruct (unacked_front w (sender_ x) (link_sender _ _ _ _ Hl) Hlt) as
    (n & seg & l & Hb & Hok & Hsp).
  destruct (Hr _ _ Hb) as [r Hin]. exists (stamp r seg), n. split; [done|]. split.
  - by apply sent_ok_stamp.
  - unfold spans. by rewrite seg_len_stamp.
Qed.

(** There and back: if anything is outstanding, the sender moves forward. *)
Lemma exchange_spec w wy dx dy x y reorder :
  link w dy x y -> link wy dx y x -> ready x ->
  ByteStream.contents (TCPReceiver.stream_out (receiver_ y)) = [] ->
  TCPReceiver.has_isn_ (receiver_ x) = true \/
    (exists h t, segments_out_ y = h :: t /\ TCPHeader.syn (TCPSegment.header h) = true) ->
  exists y1 x' y',
    TcpBenchmark.move_segments x y reorder = Ok (set_segments_out x [], y1) /\
    TcpBenchmark.move_segments y1 (set_segments_out x []) false = Ok (y', x') /\
    link w dy x' y' /\ link wy dx y' x' /\ advance y y1 /\ y' = set_segments_out y1 [] /\
    advance (set_segments_out x []) x' /\
    (TCPSender.seqno_acked_ (sender_ x) < TCPSender.next_seqno_ (sender_ x) ->
     TCPSender.seqno_acked_ (sender_ x) < TCPSender.seqno_acked_ (sender_ x') /\
     TCPReceiver.has_isn_ (receiver_ y1) = true /\ TCPReceiver.has_isn_ (receiver_ x') = true /\
     time_passed x' = 0) /\
    (TCPReceiver.has_isn_ (receiver_ y) = true ->
     (segments_out_ x <> [] -> time_passed y' = 0) /\
     forall m a, In m (segments_out_ x) -> acks (TCPSender.isn_ (sender_ y)) m a -> 0 <= a < two31 ->
       a <= TCPSender.seqno_acked_ (sender_ y')) /\
    (forall m n b, In m (segments_out_ y) ->
       sent_ok wy (TCPSender.isn_ (sender_ y)) (TCPSender.next_seqno_ (sender_ y)) n m ->
       spans n m b -> b <= TCPReceiver.ackno_ (receiver_ x) ->
       (b <> 0 -> synced (receiver_ x) m = true) ->
       ByteStream.contents (TCPReceiver.stream_out (receiver_ x)) = [] \/
         b < TCPReceiver.ackno_ (receiver_ x) ->
       fresh_reply b y x').
Proof.
  intros Hxy Hyx Hr Hnil Hx.
  destruct (move_spec w wy dx dy x y reorder Hxy Hyx) as (y1 & E1 & Hxy1 & Hyx1 & Hav1 & Hsync1 & Hspan1).
  destruct (move_spec wy w dy dx y1 (set_segments_out x []) false Hyx1 Hxy1) as
    (x' & E2 & Hyx2 & Hxy2 & Hav2 & Hsync2 & Hspan2).
  destruct (av_queue _ _ Hav1) as [new Hq]. destruct (av_later _ _ Hav1) as [Hisn Hnx].
  exists y1, x', (set_segments_out y1 []). split; [done|]. split; [done|].
  do 5 (split; [done|]). split; [|split].
  - intros Hlt. destruct (ready_front _ _ _ _ Hxy Hr Hlt) as (m & n & Hm & Hok & Hsp).
    destruct (link_acked_le _ _ _ _ Hxy) as [Hle _].
    destruct (Hspan1 m n _ Hm Hok Hsp Hle) as (Hi & q & a & Hq1 & Ha & Hlt1).
    { intros Hz. unfold synced. destruct (lk_acked _ _ _ _ Hxy Hz) as [-> _]. apply orb_true_r. }
    { by left. }
    pose proof (link_position _ _ _ _ Hxy1) as (_ & _ & _ & _ & Hpos). specialize (Hpos Hi).
    pose proof (link_bound _ _ _ _ Hxy1) as Hb. pose proof (lk_small _ _ _ _ Hxy1) as Hsm.
    pose proof (sd_acked _ _ (link_core _ _ _ _ Hxy)) as Hac.
    destruct Hsync2 as [Hs2 Ha2].
    { destruct Hx as [?|(h & t & Hh & Hsyn)]; [by left|right]. split; [done|].
      exists h, (t ++ new). by rewrite Hq, Hh. }
    destruct Hs2 as [Hi2 Ht2]; [by intros E; rewrite E in Hq1|].
    split; [|done]. simpl in Hpos, Hb. specialize (Ha2 q a Hq1 Ha ltac:(lia)). lia.
  - intros Hi. destruct (Hsync1 (or_introl Hi)) as [H1 H2]. split; [|done]. intros Hne. by apply H1.
  - unfold fresh_reply. rewrite <- Hisn. intros m n b Hm Hok. apply (Hspan2 m n b).
    + rewrite Hq. apply in_or_app. by left.
    + by eapply sent_ok_mono.
Qed.

(** ** Lemmas: nothing left to send *)

Lemma sub_wrap n isn : wrap n isn <> WrappingInt32.sub (wrap n isn) 1.
Proof. unfold WrappingInt32.sub, wrap. simpl. intros [= H]. mlia. Qed.

(** A connection that is done with its own stream only acknowledges, and does not even
    acknowledge acknowledgments. *)
Lemma receive_each_idle wx wy dx dy x y l y' :
  link wx dy x y -> link wy dx y x -> Forall (proper wx x y) l ->
  TCPReceiver.has_isn_ (receiver_ y) = true -> TCPSender.seqno_acked_ (sender_ y) = zlen wy + 2 ->
  TcpBenchmark.receive_each y l = Ok y' ->
  exists extra, segments_out_ y' = segments_out_ y ++ extra /\
    Forall (pure_ack (wrap (zlen wy + 2) (TCPSender.isn_ (sender_ y)))) extra /\
    (TCPReceiver.ackno_ (receiver_ y) = TCPSender.next_seqno_ (sender_ x) ->
     Forall (pure_ack (wrap (TCPSender.next_seqno_ (sender_ x)) (TCPSender.isn_ (sender_ x)))) l -> extra = []).
Proof.
  revert y. induction l as [|seg l IH]; intros y Hxy Hyx Hl Hi Hd; simpl.
  { intros [= <-]. exists []. by rewrite app_nil_r. }
  inversion Hl as [|? ? Hseg Hrest]; subst.
  destruct (deliver _ _ _ _ _ _ _ Hxy Hyx Hseg) as (y1 & -> & Hxy1 & Hyx1 & Hav1 & Hhas1 & Hsync & _).
  assert (Hsy : synced (receiver_ y) seg = true) by (unfold synced; by rewrite Hi, orb_true_r).
  destruct (Hsync Hsy) as (_ & _ & _ & Hidle). destruct (Hidle Hd) as (e1 & Hq1 & Hp1 & Hn1).
  destruct (av_later _ _ Hav1) as [Hisn _]. rewrite Hsy in Hhas1. cbn [mbind outcome_bind]. intros E.
  pose proof (av_acked _ _ Hav1). pose proof (sd_acked _ _ (link_core _ _ _ _ Hyx1)).
  pose proof (link_bound _ _ _ _ Hyx1).
  destruct (IH y1 Hxy1 Hyx1) as (e2 & Hq2 & Hp2 & Hn2); [|done|lia|done|].
  { eapply Forall_impl; [exact Hrest|]. unfold proper. by rewrite Hisn. }
  exists (e1 ++ e2). rewrite Hq2, Hq1, app_assoc. split; [done|]. split.
  { apply Forall_app. split; [done|]. by rewrite <- Hisn. }
  intros Heq Hpure. inversion Hpure as [|? ? [Hz Hs] Hpl]; subst.
  pose proof (link_position _ _ _ _ Hxy1) as (_ & _ & _ & _ & Hpos). specialize (Hpos Hhas1).
  pose proof (av_ackno _ _ Hav1).
  assert (Heq1 : TCPReceiver.ackno_ (receiver_ y1) = TCPSender.next_seqno_ (sender_ x)) by lia.
  rewrite Hn1, Hn2; try done. rewrite Heq1, Hs. apply sub_wrap.
Qed.

Lemma move_idle wx wy dx dy x y reorder x' y' :
  link wx dy x y -> link wy dx y x ->
  TCPReceiver.has_isn_ (receiver_ y) = true -> TCPSender.seqno_acked_ (sender_ y) = zlen wy + 2 ->
  TcpBenchmark.move_segments x y reorder = Ok (x', y') ->
  exists extra, segments_out_ y' = segments_out_ y ++ extra /\
    Forall (pure_ack (wrap (zlen wy + 2) (TCPSender.isn_ (sender_ y)))) extra /\
    (TCPReceiver.ackno_ (receiver_ y) = TCPSender.next_seqno_ (sender_ x) ->
     Forall (pure_ack (wrap (TCPSender.next_seqno_ (sender_ x)) (TCPSender.isn_ (sender_ x)))) (segments_out_ x) ->
     extra = []).
Proof.
  intros Hxy Hyx Hi Hd. destruct (emit_links _ _ _ _ _ _ Hxy Hyx) as (Hxy1 & Hyx1 & Hpr).
  unfold TcpBenchmark.move_segments, segments_out.
  set (l := if reorder then rev (segments_out_ x) else segments_out_ x).
  assert (Hall : forall P : TCPSegment.t -> Prop, Forall P (segments_out_ x) -> Forall P l).
  { intros P. unfold l. destruct reorder; [apply Forall_rev|done]. }
  destruct (TcpBenchmark.receive_each y l) as [y1| | |] eqn:E; [|done..]. intros [= <- <-].
  destruct (receive_each_idle wx wy dx dy (set_segments_out x []) y l y1 Hxy1 Hyx1 (Hall _ Hpr) Hi Hd E)
    as (extra & Hq & Hp & Hn). exists extra. split; [done|]. split; [done|]. intros Heq Hpure. apply Hn; auto.
Qed.

End moving.

(** ** The loop's invariant *)

Section loops.

Import TCPConnection.

(** The bytes to send. *)
Variable S : list byte.
Hypothesis short : zlen S + 2 < two31.

(** How far the other direction is, in which [y] sends its SYN and FIN at once: [x] has not
    seen them yet; or it has, and [y] knows, or is about to. *)
Definition phase (x y : t) : Prop :=
  (TCPReceiver.has_isn_ (receiver_ x) = false /\ TCPSender.seqno_acked_ (sender_ x) = 0 /\
   TCPSender.consecutive_retransmissions_ (sender_ y) <= 0 /\ time_passed y <= 0 /\
   exists h q, segments_out_ y = h :: q /\ TCPHeader.syn (TCPSegment.header h) = true /\
     TCPHeader.fin (TCPSegment.header h) = true) \/
  (TCPReceiver.has_isn_ (receiver_ x) = true /\ TCPReceiver.has_isn_ (receiver_ y) = true /\
   TCPReceiver.ackno_ (receiver_ x) = 2 /\
   ((TCPSender.seqno_acked_ (sender_ y) = 2 /\ segments_out_ y = []) \/
    exists m, In m (segments_out_ x) /\ acks (TCPSender.isn_ (sender_ y)) m 2)).

(** Between two rounds of [loop]; [w] has been written to [x]. *)
Record running (w : list byte) (st : TcpBenchmark.t) (x := TcpBenchmark.x st) (y := TcpBenchmark.y st)
  (b := TcpBenchmark.bytes_to_send st) : Prop := {
  rn_xy : link w (TcpBenchmark.string_received st) x y;
  rn_yx : link [] [] y x;
  rn_text : S = w ++ Buffer.str b;
  rn_buffer : Buffer.wf b;
  rn_closed : ByteStream.input_ended (TCPSender.stream_ (sender_ x)) = TcpBenchmark.x_closed st;
  rn_empty : TcpBenchmark.x_closed st = true -> Buffer.str b = [];
  rn_read : ByteStream.contents (TCPReceiver.stream_out (receiver_ y)) = [];
  rn_settled : settled (sender_ x);
  rn_ready : ready x;
  rn_timer : initial_rto (sender_ x) = 1000;
  rn_count : TCPSender.consecutive_retransmissions_ (sender_ x) <= 1 /\
             TCPSender.consecutive_retransmissions_ (sender_ y) <= 1;
  rn_cfg : TCPConfig.rt_timeout (cfg_ x) = 1000 /\ TCPConfig.rt_timeout (cfg_ y) = 1000;
  rn_time : 0 <= time_passed x <= 1000 /\ 0 <= time_passed y <= 1000;
  rn_next : TCPSender.next_seqno_ (sender_ y) = 2;
  rn_phase : phase x y
}.

Lemma count_nonneg w s : sd_wf w s -> 0 <= TCPSender.consecutive_retransmissions_ s.
Proof. intros [_ _ (k & _ & -> & _) _]. apply u32_range. Qed.

Lemma capacity_drained w s :
  sd_wf w s -> ByteStream.contents (TCPSender.stream_ s) = [] ->
  0 < ByteStream.remaining_capacity (TCPSender.stream_in s).
Proof.
  intros [[Hst] _ _ _] Hct. unfold TCPSender.stream_in. rewrite bs_remaining by done.
  rewrite Hct. simpl. pose proof (bs_bounds _ Hst). lia.
Qed.

(** The first part of [loop]: whatever can be written is, and the stream is ended after the
    last byte; if nothing is outstanding then, all has been sent and acknowledged. *)
Lemma feed_spec w st :
  running w st ->
  exists x1 b1 x2 closed d,
    TcpBenchmark.write_input (Datatypes.S (Z.to_nat (Buffer.size (TcpBenchmark.bytes_to_send st))))
      (TcpBenchmark.x st) (TcpBenchmark.bytes_to_send st) = Ok (x1, b1) /\
    (if (Buffer.size b1 =? 0) && negb (TcpBenchmark.x_closed st)
     then x ← end_input_stream x1; Ok (x, true) else Ok (x1, TcpBenchmark.x_closed st)) = Ok (x2, closed) /\
    S = (w ++ d) ++ Buffer.str b1 /\ Buffer.wf b1 /\
    link (w ++ d) (TcpBenchmark.string_received st) x2 (TcpBenchmark.y st) /\
    link [] [] (TcpBenchmark.y st) x2 /\ kept (TcpBenchmark.x st) x2 /\ settled (sender_ x2) /\
    ByteStream.input_ended (TCPSender.stream_ (sender_ x2)) = closed /\
    (closed = true -> Buffer.str b1 = []) /\
    (TCPSender.seqno_acked_ (sender_ x2) = TCPSender.next_seqno_ (sender_ x2) ->
     TCPSender.seqno_acked_ (sender_ x2) = zlen S + 2).
Proof.
  intros []. assert (HS : zlen S = zlen w + zlen (Buffer.str (TcpBenchmark.bytes_to_send st)))
    by (rewrite rn_text0 at 1; apply zlen_app).
  destruct (write_input_spec (Datatypes.S (Z.to_nat (Buffer.size (TcpBenchmark.bytes_to_send st)))) w [] []
    (TcpBenchmark.string_received st) (TcpBenchmark.x st) (TcpBenchmark.y st) (TcpBenchmark.bytes_to_send st)) as
    (x1 & b1 & d & E1 & Htext & Hb1 & Hxy1 & Hyx1 & Hk1 & Hset1 & Hie1 & Hend); try done.
  { lia. }
  { rewrite rn_closed0. intros Hne. destruct (TcpBenchmark.x_closed st); [by specialize (rn_empty0 eq_refl)|done]. }
  { unfold Buffer.size. lia. }
  exists x1, b1. rewrite Htext, app_assoc in rn_text0.
  assert (HS1 : zlen S = zlen (w ++ d) + zlen (Buffer.str b1)) by (rewrite rn_text0 at 1; apply zlen_app).
  pose proof (zlen_nonneg (Buffer.str b1)).
  assert (Hcap : forall x2, link (w ++ d) (TcpBenchmark.string_received st) x2 (TcpBenchmark.y st) ->
    settled (sender_ x2) -> ByteStream.input_ended (TCPSender.stream_ (sender_ x2)) = true ->
    Buffer.str b1 = [] -> TCPSender.seqno_acked_ (sender_ x2) = TCPSender.next_seqno_ (sender_ x2) ->
    TCPSender.seqno_acked_ (sender_ x2) = zlen S + 2).
  { intros x2 Hx2 Hs2 Hie2 Hnil Heq.
    destruct (settled_idle _ _ (link_sender _ _ _ _ Hx2) Hs2 Heq) as [_ Hd].
    rewrite Heq, Hd, HS1, Hnil by done. simpl. lia. }
  destruct (Z.eqb_spec (Buffer.size b1) 0) as [Hz|Hz]; [apply zlen_0 in Hz|];
    destruct (TcpBenchmark.x_closed st) eqn:Ecl; cbn [negb andb].
  - exists x1, true, d. split_and!; try done; try congruence. apply Hcap; try done. congruence.
  - destruct (end_progress (w ++ d) x1) as (x2 & -> & Hc2 & Hk2 & Hset2 & Hp2 & Hie2);
      [apply Hxy1|apply Hxy1|congruence|]. cbn [mbind outcome_bind].
    destruct (kept_links (w ++ d) [] [] [] (TcpBenchmark.string_received st) x1 x2 (TcpBenchmark.y st)) as
      [Hxy2 Hyx2]; rewrite ?app_nil_r in *; try done; [lia|].
    exists x2, true, d. split_and!; try done; [by etrans|by apply Hcap].
  - exfalso. apply Hz. unfold Buffer.size. rewrite (rn_empty0 eq_refl) in Htext.
    symmetry in Htext. apply app_eq_nil in Htext as [_ ->]. done.
  - exists x1, false, d. split_and!; try done; [congruence|]. intros Heq. exfalso.
    destruct (settled_idle _ _ (link_sender _ _ _ _ Hxy1) Hset1 Heq) as [Hct _].
    pose proof (capacity_drained _ _ (link_sender _ _ _ _ Hxy1) Hct) as Hr.
    destruct Hend as [Hnil|Hr0]; [unfold Buffer.size in Hz; by rewrite Hnil in Hz|].
    unfold remaining_outbound_capacity in Hr0. lia.
Qed.

(** Everything about a connection but its receiver. *)
Definition same_but_receiver (c c' : t) : Prop :=
  cfg_ c' = cfg_ c /\ sender_ c' = sender_ c /\ segments_out_ c' = segments_out_ c /\
  time_passed c' = time_passed c /\
  linger_after_streams_finish_ c' = linger_after_streams_finish_ c.

(** The part of [loop] that reads output from [y]. *)
Lemma read_output_spec w wy dx received x y :
  link w received x y -> link wy dx y x ->
  exists y' got,
    (if 0 <? ByteStream.buffer_size (inbound_stream y) then
       '(out, data) ← ByteStream.read (inbound_stream y) (ByteStream.buffer_size (inbound_stream y));
       Ok (set_receiver y (TCPReceiver.set_stream_out (receiver_ y) out), received ++ data)
     else Ok (y, received)) = Ok (y', received ++ got) /\
    link w (received ++ got) x y' /\ link wy dx y' x /\ same_but_receiver y y' /\
    ByteStream.contents (TCPReceiver.stream_out (receiver_ y')) = [] /\
    ByteStream.input_ended (TCPReceiver.stream_out (receiver_ y'))
      = ByteStream.input_ended (TCPReceiver.stream_out (receiver_ y)) /\
    TCPReceiver.has_isn_ (receiver_ y') = TCPReceiver.has_isn_ (receiver_ y) /\
    TCPReceiver.ackno_ (receiver_ y') = TCPReceiver.ackno_ (receiver_ y).
Proof.
  intros Hxy Hyx. destruct (Z.ltb_spec 0 (ByteStream.buffer_size (inbound_stream y))) as [Hlt|Hge].
  - destruct (read_links _ _ _ _ _ _ Hxy Hyx) as (out & -> & Hxy' & Hyx' & Hct & Hie).
    cbn [mbind outcome_bind]. eexists _, _. split; [done|]. split; [exact Hxy'|]. split; [exact Hyx'|].
    split; [done|]. split; [exact Hct|]. split; [exact Hie|]. done.
  - exists y, []. rewrite app_nil_r. split; [done|]. do 2 (split; [done|]). split; [done|]. split; [|done].
    unfold inbound_stream in Hge. rewrite bs_buffer_size in Hge by apply Hxy.
    apply zlen_0. pose proof (zlen_nonneg (ByteStream.contents (TCPReceiver.stream_out (receiver_ y)))). lia.
Qed.

(** What the phase before the exchange gives for after it. *)
Lemma phase_exchange w received x y x' y' :
  link w received x y -> link [] [] y x -> link [] [] y' x' -> TCPSender.next_seqno_ (sender_ y) = 2 ->
  phase x y ->
  TCPSender.isn_ (sender_ y') = TCPSender.isn_ (sender_ y) ->
  TCPSender.seqno_acked_ (sender_ y) <= TCPSender.seqno_acked_ (sender_ y') ->
  TCPReceiver.ackno_ (receiver_ x) <= TCPReceiver.ackno_ (receiver_ x') ->
  TCPReceiver.has_isn_ (receiver_ x') = true ->
  (TCPReceiver.has_isn_ (receiver_ y) = true ->
   forall m a, In m (segments_out_ x) -> acks (TCPSender.isn_ (sender_ y)) m a -> 0 <= a < two31 ->
     a <= TCPSender.seqno_acked_ (sender_ y')) ->
  (forall m n b, In m (segments_out_ y) ->
     sent_ok [] (TCPSender.isn_ (sender_ y)) (TCPSender.next_seqno_ (sender_ y)) n m ->
     spans n m b -> b <= TCPReceiver.ackno_ (receiver_ x) ->
     (b <> 0 -> synced (receiver_ x) m = true) ->
     ByteStream.contents (TCPReceiver.stream_out (receiver_ x)) = [] \/
       b < TCPReceiver.ackno_ (receiver_ x) ->
     fresh_reply b y x') ->
  TCPReceiver.ackno_ (receiver_ x') = 2 /\
  (TCPSender.seqno_acked_ (sender_ y') = 2 /\ TCPSender.next_seqno_ (sender_ y') = 2 \/
   TCPSender.consecutive_retransmissions_ (sender_ y) <= 0 /\
   exists m, In m (segments_out_ x') /\ acks (TCPSender.isn_ (sender_ y')) m 2).
Proof.
  intros Hxy Hyx Hyx' Hnx Hph Hisn Hac Hak Hi Hold Hnew.
  pose proof (link_position _ _ _ _ Hyx') as (_ & _ & _ & _ & Hpos). specialize (Hpos Hi).
  pose proof (link_bound _ _ _ _ Hyx') as Hb. simpl in Hb.
  pose proof (sd_acked _ _ (link_core _ _ _ _ Hyx')) as Ha'.
  destruct Hph as [(Hni & _ & Hz & _ & h & q & Hq & Hsyn & Hfin)|(_ & Hiy & Hak2 & [[H2 _]|(m & Hm & Hk)])].
  - pose proof (lk_conn _ _ _ _ Hyx) as [[_ Ho] _]. rewrite Hq in Ho. inversion Ho as [|? ? [n Hn] _]; subst.
    assert (n = 0) as -> by (by apply (carries_syn _ _ _ _ (so_carries _ _ _ _ _ Hn))).
    destruct (Hnew h 0 1) as (_ & m & a & Hm & Hk & Ha); try done.
    + rewrite Hq. by left.
    + unfold spans. rewrite (seg_len_eq _ (so_payload _ _ _ _ _ Hn)), Hsyn, Hfin. simpl fin_num.
      pose proof (zlen_nonneg (Buffer.str (TCPSegment.payload h))). lia.
    + apply (link_acked_le _ _ _ _ Hyx).
    + intros _. unfold synced. by rewrite Hsyn.
    + left. pose proof (lk_del _ _ _ _ Hyx) as Hd. rewrite ztake_ge in Hd; [done|].
      pose proof (link_position _ _ _ _ Hyx) as (_ & H0 & _). done.
    + assert (a = 2) as -> by lia. split; [lia|]. right. split; [done|]. exists m. by rewrite Hisn.
  - split; [lia|]. left. lia.
  - split; [lia|]. left. specialize (Hold Hiy m 2 Hm Hk ltac:(lia)). lia.
Qed.

(** [loop], given its parts. *)
Lemma loop_eval reorder st x1 b1 x2 closed y1 x3 y3 y4 text x5 y5 :
  TcpBenchmark.write_input (Datatypes.S (Z.to_nat (Buffer.size (TcpBenchmark.bytes_to_send st))))
    (TcpBenchmark.x st) (TcpBenchmark.bytes_to_send st) = Ok (x1, b1) ->
  (if (Buffer.size b1 =? 0) && negb (TcpBenchmark.x_closed st)
   then x ← end_input_stream x1; Ok (x, true) else Ok (x1, TcpBenchmark.x_closed st)) = Ok (x2, closed) ->
  TcpBenchmark.move_segments x2 (TcpBenchmark.y st) reorder = Ok (set_segments_out x2 [], y1) ->
  TcpBenchmark.move_segments y1 (set_segments_out x2 []) false = Ok (y3, x3) ->
  (if 0 <? ByteStream.buffer_size (inbound_stream y3) then
     '(out, data) ← ByteStream.read (inbound_stream y3) (ByteStream.buffer_size (inbound_stream y3));
     Ok (set_receiver y3 (TCPReceiver.set_stream_out (receiver_ y3) out), TcpBenchmark.string_received st ++ data)
   else Ok (y3, TcpBenchmark.string_received st)) = Ok (y4, text) ->
  tick x3 1000 = Ok x5 -> tick y4 1000 = Ok y5 ->
  TcpBenchmark.loop reorder st = Ok (TcpBenchmark.mk x5 y5 b1 closed text).
Proof.
  intros E1 E2 E3 E4 E5 E6 E7. unfold TcpBenchmark.loop. rewrite E1. cbn [mbind outcome_bind].
  rewrite E2. cbn [mbind outcome_bind]. rewrite E3. cbn [mbind outcome_bind]. rewrite E4.
  cbn [mbind outcome_bind]. rewrite E5. cbn [mbind outcome_bind]. rewrite E6. cbn [mbind outcome_bind].
  by rewrite E7.
Qed.

(** One round while something is left to acknowledge: the invariant is kept and the sender
    moves forward. *)
Lemma loop_spec reorder w st :
  running w st -> TCPSender.seqno_acked_ (sender_ (TcpBenchmark.x st)) < zlen S + 2 ->
  exists st' d, TcpBenchmark.loop reorder st = Ok st' /\ running (w ++ d) st' /\
    TCPSender.seqno_acked_ (sender_ (TcpBenchmark.x st))
      < TCPSender.seqno_acked_ (sender_ (TcpBenchmark.x st')) /\
    TCPReceiver.ackno_ (receiver_ (TcpBenchmark.y st)) <= TCPReceiver.ackno_ (receiver_ (TcpBenchmark.y st')).
Proof.
  intros Hrun Hmore. destruct (feed_spec w st Hrun) as
    (x1 & b1 & xa & closed & d & E1 & E2 & Htext & Hb1 & Hxy & Hyx & Hk & Hset & Hcl & Hemp & Hidle).
  destruct Hrun as [_ _ _ _ _ _ Hread _ Hready Hrto [Hcx Hcy] [Hgx Hgy] [Htx Hty] Hnx Hph].
  destruct Hk as [Hkr Hkg Hkt _ Hka Hkc Hkrto Hkready (new & Hplain & Hkq)].
  set (x := TcpBenchmark.x st) in *. set (y := TcpBenchmark.y st) in *.
  pose proof (sd_acked _ _ (link_core _ _ _ _ Hxy)) as Hac.
  assert (Hlt : TCPSender.seqno_acked_ (sender_ xa) < TCPSender.next_seqno_ (sender_ xa))
    by (destruct (decide (TCPSender.seqno_acked_ (sender_ xa) = TCPSender.next_seqno_ (sender_ xa))); lia).
  destruct (exchange_spec _ _ _ _ xa y reorder Hxy Hyx (Hkready Hready) Hread) as
    (y1 & xb & yb & E3 & E4 & Hxyb & Hyxb & Hav1 & -> & Hav2 & Hfwd & Hfold & Hfnew).
  { rewrite Hkr. destruct Hph as [(_ & _ & _ & _ & h & q & ? & ? & _)|(? & _)]; [right; eauto|by left]. }
  destruct (Hfwd Hlt) as (Hmove & Hiy & Hix & Htime).
  destruct (read_output_spec _ _ _ _ _ _ Hxyb Hyxb) as
    (yc & got & E5 & Hxyc & Hyxc & (Hg5 & Hs5 & Hq5 & Ht5 & _) & Hnil & _ & Hi5 & Ha5).
  assert (Hph' : TCPReceiver.ackno_ (receiver_ xb) = 2 /\
    (TCPSender.seqno_acked_ (sender_ yc) = 2 /\ TCPSender.next_seqno_ (sender_ yc) = 2 \/
     TCPSender.consecutive_retransmissions_ (sender_ y) <= 0 /\
     exists m, In m (segments_out_ xb) /\ acks (TCPSender.isn_ (sender_ yc)) m 2)).
  { destruct Hav1, Hav2. apply (phase_exchange (w ++ d) (TcpBenchmark.string_received st) xa y xb yc);
      rewrite ?Hs5; try done.
    - destruct Hph as [Hph|(Ha & Hb & Hc & Hd)]; [left|right]; rewrite ?Hkr, ?Hka; [done|].
      split_and!; try done. destruct Hd as [?|(m & Hm & ?)]; [by left|right]. exists m.
      split; [rewrite Hkq; apply in_or_app; by left|done].
    - apply av_later.
    - intros Hi. by apply Hfold. }
  assert (Hrest : rested (sender_ xb)) by (apply (av_rested _ _ Hav2); by right).
  assert (Htyc : 0 <= time_passed yc <= 0).
  { rewrite Ht5. simpl. destruct Hph as [(_ & _ & _ & Ht & _)|(_ & Hi & _)].
    - destruct (av_time _ _ Hav1) as [->| ->]; lia.
    - destruct (Hfold Hi) as [Hz _]. simpl in Hz. rewrite Hz; [lia|].
      intros Hq. destruct (ready_front _ _ _ _ Hxy (Hkready Hready) Hlt) as (m & n & Hm & _). by rewrite Hq in Hm. }
  destruct (tick_progress (w ++ d) xb 1000) as (xc & E6 & Hcn6 & Hp6 & Htk6 & Ht6 & _ & Hr6 & _);
    [apply Hxyc|apply Hxyc|destruct Hrest; lia|lia|].
  destruct (ticked_links _ _ _ _ _ _ _ Hxyc Hyxc Htk6 Hcn6 Hp6) as [Hxy6 Hyx6].
  pose proof (count_nonneg _ _ (link_sender _ _ _ _ Hyxc)) as Hc0.
  assert (Hcyc : TCPSender.consecutive_retransmissions_ (sender_ yc) <= TCPSender.consecutive_retransmissions_ (sender_ y))
    by (rewrite Hs5; apply Hav1).
  destruct (tick_progress [] yc 1000) as (yd & E7 & Hcn7 & Hp7 & Htk7 & Ht7 & _ & _ & Hb7);
    [apply Hyxc|apply Hyxc|lia|lia|].
  destruct (ticked_links _ _ _ _ _ _ _ Hyx6 Hxy6 Htk7 Hcn7 Hp7) as [Hyx7 Hxy7].
  exists (TcpBenchmark.mk xc yd b1 closed (TcpBenchmark.string_received st ++ got)), d.
  split; [by eapply loop_eval|].
  pose proof Htk6 as [Kr6 Kg6 Ki6 Kn6 Ka6 Ks6 Kt6 Kset6 Kc6 (q6 & _ & Kq6)].
  pose proof Htk7 as [Kr7 Kg7 Ki7 Kn7 Ka7 Ks7 Kt7 Kset7 Kc7 (q7 & _ & Kq7)].
  split; [|simpl; rewrite Ka6, Kr7, Ha5; split; [lia|apply Hav1]].
  split; simpl; try done.
  - rewrite Ks6, (av_ended _ _ Hav2). exact Hcl.
  - by rewrite Kr7.
  - apply Kset6, (av_settled _ _ Hav2), Hset.
  - apply Hr6; [done|]. rewrite (av_rto _ _ Hav2). simpl. lia.
  - rewrite Kt6, (av_rto _ _ Hav2). simpl. lia.
  - destruct Hrest as [Hz _]. split; [lia|].
    destruct Hph' as [_ [[H2 H3]|[? _]]]; [|lia]. destruct Hb7 as [_ ->]; [|lia].
    by apply (acked_idle [] (sender_ yc) (link_sender _ _ _ _ Hyxc)); rewrite H2, H3.
  - rewrite Kg6, Kg7, Hg5, (av_cfg _ _ Hav2). simpl. rewrite (av_cfg _ _ Hav1), Hkg. done.
  - lia.
  - rewrite Kn7, Hs5. simpl. pose proof (link_bound _ _ _ _ Hyx7) as Hb. simpl in Hb. rewrite Kn7, Hs5 in Hb. simpl in Hb.
    destruct (av_later _ _ Hav1) as [_ ?]. lia.
  - right. rewrite Kr6, Kr7. split; [done|]. split; [by rewrite Hi5|]. destruct Hph' as [Hak Hd].
    split; [done|]. rewrite Ki7, Ka7. destruct Hd as [[H2 H3]|(_ & m & Hm & Hk)].
    + left. split; [done|]. destruct Hb7 as [-> _]; [|by rewrite Hq5].
      by apply (acked_idle [] (sender_ yc) (link_sender _ _ _ _ Hyxc)); rewrite H2, H3.
    + right. exists m. split; [rewrite Kq6; apply in_or_app; by left|done].
Qed.

(** ** Starting *)

(** A connection as [main_loop] makes it. *)
Record fresh (k : Z) (c : t) : Prop := {
  fr_conn : cn_wf [] c;
  fr_tracks : forall isn, WrappingInt32.ok isn -> rc_tracks [] isn (receiver_ c);
  fr_isn : TCPReceiver.has_isn_ (receiver_ c) = false;
  fr_contents : ByteStream.contents (TCPReceiver.stream_out (receiver_ c)) = [];
  fr_open : StreamReassembler.eof_ (TCPReceiver.reassembler_ (receiver_ c)) = false /\
            ByteStream.input_ended (TCPReceiver.stream_out (receiver_ c)) = false;
  fr_capacity : TCPReceiver.capacity_ (receiver_ c) = k;
  fr_sender : exists isn stream, sender_ c =
    TCPSender.mk isn [] [] (RetransmissionTimer.make 1000) 0 stream 0 0 1 false /\
    ByteStream.contents stream = [] /\ ByteStream.input_ended stream = false;
  fr_queue : segments_out_ c = [];
  fr_time : time_passed c = 0;
  fr_cfg : TCPConfig.rt_timeout (cfg_ c) = 1000
}.

Lemma make_fresh k random :
  0 < k <= 2 ^ 62 -> 0 <= random < two32 ->
  exists c, make (TCPConfig.mk 1000 k k None) random = Ok c /\ fresh k c.
Proof.
  intros Hk Hr. assert (Hk2 : 0 < k <= string_max_size) by (unfold string_max_size; lia).
  destruct (cn_make_spec (TCPConfig.mk 1000 k k None) random (fun _ _ => True) (fun _ => True)) as
    (c & Hm & Hc & _ & Hmr & _); simpl; try done.
  exists c. split; [done|]. simpl in Hmr. unfold make in Hm. simpl in Hm. rewrite Hmr in Hm.
  unfold TCPSender.make in Hm. simpl in Hm.
  destruct (bs_make_spec k Hk2) as (st & Hst & _ & Hct & _ & _ & _ & _ & Hie).
  rewrite Hst in Hm. simpl in Hm. unfold TCPReceiver.make in Hmr.
  destruct (sr_make_spec (from_stream []) (at_end []) k Hk2) as
    (sr & Hsr & Hwf & Hcap & Hn & Hd & Hc2 & Hie2 & Her & He).
  rewrite Hsr in Hmr. simpl in Hmr. injection Hmr as Hrc. rewrite <- Hrc in Hm. injection Hm as <-.
  clear Hrc. split; simpl; try done; [|by do 2 eexists]. intros isn Hi.
  destruct (rc_make_spec (from_stream []) (at_end []) k Hk2) as (r & Hm & Hw & _).
  unfold TCPReceiver.make in Hm. rewrite Hsr in Hm. simpl in Hm. injection Hm as <-.
  split; simpl; try done; [unfold TCPReceiver.assembled; simpl|]; lia.
Qed.

Lemma fresh_link k x y : k <= 2 ^ 62 -> fresh k x -> fresh k y -> link [] [] x y.
Proof.
  intros Hk [Hcx _ _ _ _ _ (isn & st & Hs & Hct & Hie) Hq _ _] [_ Ht Hi Hc Ho Hcap _ Hqy _ _].
  pose proof (sd_isn _ _ (sd_is_core _ _ (cn_sender _ _ (cn_is_pre _ _ Hcx)))) as Hok.
  split; try done.
  - rewrite Hs. constructor.
  - by apply Ht.
  - destruct Ho as [-> ->]. by intros [].
  - by rewrite Hi.
  - by rewrite Hs.
  - rewrite Hqy. constructor.
  - rewrite Hcap. lia.
Qed.

Lemma fresh_plain k c : fresh k c -> plain_buffer (sender_ c) /\ ready c.
Proof.
  intros [_ _ _ _ _ _ (isn & st & Hs & _) _ _ _]. unfold plain_buffer, ready. rewrite Hs. done.
Qed.

(** [y] puts SYN and FIN into its first segment. *)
Lemma fresh_end k c :
  fresh k c ->
  exists c', end_input_stream c = Ok c' /\ cn_wf [] c' /\ kept c c' /\ plain_buffer (sender_ c') /\
    TCPSender.next_seqno_ (sender_ c') = 2 /\
    exists h, segments_out_ c' = [h] /\ TCPHeader.syn (TCPSegment.header h) = true /\
      TCPHeader.fin (TCPSegment.header h) = true.
Proof.
  intros Hfr. pose proof Hfr as [Hc _ _ _ _ _ (isn & st & Hs & Hct & Hie) Hq _ _].
  destruct (fresh_plain k c Hfr) as [Hp _].
  destruct (end_progress [] c Hc Hp) as (c' & E & Hc' & Hk & _ & Hp' & _); [by rewrite Hs|].
  exists c'. do 4 (split; [done|]). unfold end_input_stream, TCPSender.stream_in in E.
  set (s0 := TCPSender.set_stream_in _ _) in E.
  assert (Hs0 : sd_wf [] s0) by (apply sender_end_input, Hc).
  assert (Hov : overrun s0).
  { unfold overrun, right_edge, s0. rewrite Hs. simpl. change (ByteStream.contents (ByteStream.end_input st))
      with (ByteStream.contents st). rewrite Hct. split_and!; simpl; (done || lia). }
  destruct (overrun_fill [] s0 Hs0 Hov) as (s & Hf & Hpf & _ & Hn & Hb).
  destruct (fill_window_spec [] s0 Hs0) as (s2 & new & Hf2 & _ & _ & _ & _ & _ & Ho & Hb2 & _).
  rewrite Hf in Hf2. injection Hf2 as <-. rewrite Hb in Hb2. apply app_inv_head in Hb2 as <-.
  replace (ByteStream.input_ended _) with false in E by (by rewrite Hs).
  rewrite Hf in E. cbn [mbind outcome_bind] in E. injection E as <-. split; [exact Hn|].
  exists (stamp (receiver_ c) (plan_seg s0)). simpl. unfold TCPSender.segments_out; simpl.
  rewrite Ho, Hq. unfold s0 at 1. rewrite Hs. simpl. split; [done|]. unfold stamp.
  assert (Hsyn : (TCPSender.next_seqno_ s0 =? 0) = true) by (unfold s0; simpl; by rewrite Hs).
  destruct (TCPReceiver.ackno _); done.
Qed.

Lemma start_spec random_x random_y :
  0 <= random_x < two32 -> 0 <= random_y < two32 ->
  exists st, TcpBenchmark.start S random_x random_y = Ok st /\ running [] st.
Proof.
  intros Hrx Hry. unfold TcpBenchmark.start.
  change TCPConfig.make with (TCPConfig.mk 1000 64000 64000 None).
  destruct (make_fresh 64000 random_x ltac:(lia) Hrx) as (x0 & -> & Hx0).
  destruct (make_fresh 64000 random_y ltac:(lia) Hry) as (y0 & -> & Hy0). cbn [mbind outcome_bind].
  pose proof (fresh_link 64000 x0 y0 ltac:(lia) Hx0 Hy0) as Hxy.
  pose proof (fresh_link 64000 y0 x0 ltac:(lia) Hy0 Hx0) as Hyx.
  destruct (fresh_plain _ _ Hx0) as [Hpx Hrx0].
  destruct (connect_progress [] x0 (fr_conn _ _ Hx0) Hpx) as (x1 & -> & Hc1 & Hk1 & Hset1 & Hp1 & Hie1).
  cbn [mbind outcome_bind].
  destruct (kept_links [] [] [] [] [] x0 x1 y0 Hxy Hyx Hk1 Hc1 Hp1) as [Hxy1 Hyx1]; [simpl; lia|done|].
  destruct (fresh_end _ _ Hy0) as (y1 & -> & Hc2 & Hk2 & Hp2 & Hn2 & h & Hq & Hsyn & Hfin).
  cbn [mbind outcome_bind]. simpl app in *.
  destruct (kept_links [] [] [] [] [] y0 y1 x1 Hyx1 Hxy1 Hk2 Hc2 Hp2) as [Hyx2 Hxy2]; [simpl; lia|done|].
  simpl app in *. eexists. split; [done|].
  destruct Hk1 as [Kr1 Kg1 Kt1 _ Ka1 Kc1 Ki1 Kready1 _], Hk2 as [Kr2 Kg2 Kt2 _ _ Kc2 _ _ _].
  destruct Hx0 as [_ _ Hix _ _ _ (isnx & stx & Hsx & _ & Hiex) _ Htx Hgx].
  destruct Hy0 as [_ _ _ Hcty _ _ (isny & sty & Hsy & _) _ Hty Hgy].
  rewrite Hsx in *. rewrite Hsy in *. simpl in Hie1, Ka1, Kc1, Kc2, Ki1.
  split; simpl; try done.
  - by rewrite buffer_of_string_str by lia.
  - apply buffer_of_string_wf. lia.
  - by rewrite Hie1.
  - by rewrite Kr2.
  - by apply Kready1.
  - lia.
  - by rewrite Kg1, Kg2.
  - rewrite Kt1, Kt2, Htx, Hty. lia.
  - left. rewrite Kr1, Kt2, Hty. split_and!; try done; [lia|]. by exists h, [].
Qed.

(** ** Receiving everything *)

Lemma running_length w st :
  running w st -> zlen w + zlen (Buffer.str (TcpBenchmark.bytes_to_send st)) = zlen S.
Proof. intros Hr. rewrite (rn_text _ _ Hr), zlen_app. done. Qed.

(** The receiver of [y] is past the FIN: it has passed everything on. *)
Lemma ended_text w st :
  running w st -> ByteStream.input_ended (TCPReceiver.stream_out (receiver_ (TcpBenchmark.y st))) = true ->
  w = S /\ TcpBenchmark.string_received st = S /\ TcpBenchmark.receiving st = false /\
  TCPReceiver.ackno_ (receiver_ (TcpBenchmark.y st)) = zlen S + 2.
Proof.
  intros Hr Hie. pose proof (rn_xy _ _ Hr) as Hxy. pose proof (rt_wf _ _ _ (lk_tracks _ _ _ _ Hxy)) as Hwf.
  pose proof (link_position _ _ _ _ Hxy) as (Ha & _ & _ & Hfin & _).
  pose proof (proj2 (rc_ended _ _ _ Hwf) Hie) as Hsf. destruct (Hfin Hsf) as [Hasm Hnx].
  destruct (all_sent_state w _ (link_sender _ _ _ _ Hxy) Hnx) as (_ & Hx & _).
  rewrite (rn_closed _ _ Hr) in Hx. pose proof (rn_empty _ _ Hr Hx) as Hnil.
  pose proof (rn_text _ _ Hr) as Htext. rewrite Hnil, app_nil_r in Htext. subst w.
  split; [done|]. pose proof (lk_del _ _ _ _ Hxy) as Hd.
  rewrite (rn_read _ _ Hr), app_nil_r, ztake_ge in Hd by lia. split; [done|]. split.
  - unfold TcpBenchmark.receiving, inbound_stream. rewrite bs_eof by apply Hwf.
    rewrite Hie, (rn_read _ _ Hr). done.
  - unfold TCPReceiver.fin_count in Ha. rewrite Hsf in Ha. lia.
Qed.

Lemma receiving_ended w st :
  running w st ->
  TcpBenchmark.receiving st = negb (ByteStream.input_ended (TCPReceiver.stream_out (receiver_ (TcpBenchmark.y st)))).
Proof.
  intros Hr. unfold TcpBenchmark.receiving, inbound_stream.
  rewrite bs_eof by (apply (rt_wf _ _ _ (lk_tracks _ _ _ _ (rn_xy _ _ Hr)))).
  rewrite (rn_read _ _ Hr). by rewrite andb_true_r.
Qed.

(** When its last sequence number is passed, the stream has ended. *)
Lemma position_ended w st :
  running w st -> zlen S + 2 <= TCPReceiver.ackno_ (receiver_ (TcpBenchmark.y st)) ->
  ByteStream.input_ended (TCPReceiver.stream_out (receiver_ (TcpBenchmark.y st))) = true.
Proof.
  intros Hr Hle. pose proof (rn_xy _ _ Hr) as Hxy. pose proof (rt_wf _ _ _ (lk_tracks _ _ _ _ Hxy)) as Hwf.
  apply (rc_ended _ _ _ Hwf). pose proof (link_position _ _ _ _ Hxy) as (Ha & _ & Hb & _).
  pose proof (running_length _ _ Hr). pose proof (zlen_nonneg (Buffer.str (TcpBenchmark.bytes_to_send st))).
  unfold sent_bytes in Hb. rewrite zlen_ztake in Hb. pose proof (zlen_nonneg w).
  unfold TCPReceiver.fin_count in Ha. destruct (TCPReceiver.sent_fin_ _); [done|lia].
Qed.

Lemma receive_loop reorder fuel w st :
  running w st -> zlen S + 2 - TCPSender.seqno_acked_ (sender_ (TcpBenchmark.x st)) <= Z.of_nat fuel ->
  exists w' st', TcpBenchmark.while_loop fuel TcpBenchmark.receiving reorder st = Ok st' /\ running w' st' /\
    TcpBenchmark.receiving st' = false.
Proof.
  revert w st. induction fuel as [|fuel IH]; intros w st Hr Hfuel; cbn [TcpBenchmark.while_loop];
    (destruct (TcpBenchmark.receiving st) eqn:Er; [|by exists w, st]);
    assert (Hmore : TCPSender.seqno_acked_ (sender_ (TcpBenchmark.x st)) < zlen S + 2).
  1, 3: apply Z.nle_gt; intros Hge; pose proof (link_acked_le _ _ _ _ (rn_xy _ _ Hr));
    rewrite (receiving_ended _ _ Hr), (position_ended _ _ Hr) in Er by lia; done.
  - lia.
  - destruct (loop_spec reorder w st Hr Hmore) as (st1 & d & -> & Hr1 & Hlt & _). cbn [mbind outcome_bind].
    apply (IH (w ++ d)); [done|lia].
Qed.

(** ** Closing down *)

(** All bytes and both FINs are acknowledged, at the latest by what is in the queues; the
    connections have waited at most [T]. *)
Record closing (T : Z) (st : TcpBenchmark.t) (x := TcpBenchmark.x st) (y := TcpBenchmark.y st) : Prop := {
  cl_xy : link S (TcpBenchmark.string_received st) x y;
  cl_yx : link [] [] y x;
  cl_acked : TCPSender.seqno_acked_ (sender_ x) = zlen S + 2;
  cl_empty : Buffer.str (TcpBenchmark.bytes_to_send st) = [];
  cl_closed : TcpBenchmark.x_closed st = true;
  cl_read : ByteStream.contents (TCPReceiver.stream_out (receiver_ y)) = [];
  cl_isn : TCPReceiver.has_isn_ (receiver_ x) = true /\ TCPReceiver.has_isn_ (receiver_ y) = true;
  cl_ackno : TCPReceiver.ackno_ (receiver_ x) = 2;
  cl_count : TCPSender.consecutive_retransmissions_ (sender_ x) <= 1 /\
             TCPSender.consecutive_retransmissions_ (sender_ y) <= 1;
  cl_cfg : TCPConfig.rt_timeout (cfg_ x) = 1000 /\ TCPConfig.rt_timeout (cfg_ y) = 1000;
  cl_time : 0 <= time_passed x <= T /\ 0 <= time_passed y <= T;
  cl_phase : (TCPSender.seqno_acked_ (sender_ y) = 2 /\ segments_out_ y = []) \/
    exists m, In m (segments_out_ x) /\ acks (TCPSender.isn_ (sender_ y)) m 2
}.

Lemma running_closing w st :
  running w st -> TCPSender.seqno_acked_ (sender_ (TcpBenchmark.x st)) = zlen S + 2 -> closing 1000 st.
Proof.
  intros Hr Ha. pose proof (link_acked_le _ _ _ _ (rn_xy _ _ Hr)) as [Hle _]. pose proof (zlen_nonneg S).
  destruct (ended_text w st Hr) as (-> & _ & _ & Hak); [apply (position_ended _ _ Hr); lia|].
  pose proof (sd_acked _ _ (link_core _ _ _ _ (rn_xy _ _ Hr))) as Hac.
  pose proof (link_bound _ _ _ _ (rn_xy _ _ Hr)) as Hb.
  destruct (all_sent_state S _ (link_sender _ _ _ _ (rn_xy _ _ Hr))) as (_ & Hx & _); [lia|].
  destruct (lk_acked _ _ _ _ (rn_xy _ _ Hr)) as [Hiy _]; [lia|].
  destruct Hr as [Hxy Hyx _ _ Hcl Hem Hrd _ _ _ Hco Hcf Htm _ Hph]. rewrite Hx in Hcl.
  destruct Hph as [(_ & Hz & _)|(Hi & _ & H2 & Hph)]; [lia|]. split; try done. auto.
Qed.

Lemma feed_idle x b :
  Buffer.str b = [] ->
  TcpBenchmark.write_input (Datatypes.S (Z.to_nat (Buffer.size b))) x b = Ok (x, b) /\ Buffer.size b = 0.
Proof. intros Hb. unfold Buffer.size. rewrite Hb. simpl. unfold Buffer.size. rewrite Hb. done. Qed.

Lemma acked_all w del src dst :
  link w del src dst -> TCPSender.seqno_acked_ (sender_ src) = zlen w + 2 ->
  TCPSender.next_seqno_ (sender_ src) = zlen w + 2 /\ TCPSender.buffer_ (sender_ src) = [] /\ ready src.
Proof.
  intros Hl Ha. pose proof (link_bound _ _ _ _ Hl). pose proof (sd_acked _ _ (link_core _ _ _ _ Hl)).
  destruct (acked_idle w (sender_ src) (link_sender _ _ _ _ Hl)) as (_ & Hb & _); [lia|].
  split; [lia|]. split; [done|]. intros e l. by rewrite Hb.
Qed.

(** Acknowledged to the end, also after more segments. *)
Lemma advance_acked w del src src' dst :
  link w del src' dst -> advance src src' -> TCPSender.seqno_acked_ (sender_ src) = zlen w + 2 ->
  TCPSender.seqno_acked_ (sender_ src') = zlen w + 2.
Proof.
  intros Hl Hav Ha. pose proof (link_bound _ _ _ _ Hl). pose proof (sd_acked _ _ (link_core _ _ _ _ Hl)).
  pose proof (av_acked _ _ Hav). lia.
Qed.

Lemma closing_round reorder T st :
  closing T st -> 0 <= T -> T + 1000 < two64 ->
  exists st', TcpBenchmark.loop reorder st = Ok st' /\ closing (T + 1000) st' /\
    TCPSender.seqno_acked_ (sender_ (TcpBenchmark.y st')) = 2 /\ segments_out_ (TcpBenchmark.y st') = [] /\
    (TCPSender.seqno_acked_ (sender_ (TcpBenchmark.y st)) = 2 -> segments_out_ (TcpBenchmark.y st) = [] ->
     segments_out_ (TcpBenchmark.x st') = []).
Proof.
  intros [Hxy Hyx Ha Hem Hcl Hrd [Hix Hiy] Hak [Hcx Hcy] [Hgx Hgy] [Htx Hty] Hph] HT HT2.
  set (x := TcpBenchmark.x st) in *. set (y := TcpBenchmark.y st) in *.
  destruct (feed_idle x (TcpBenchmark.bytes_to_send st) Hem) as [E1 Hz].
  destruct (acked_all _ _ _ _ Hxy Ha) as (Hnx & _ & Hready).
  destruct (exchange_spec _ _ _ _ x y reorder Hxy Hyx Hready Hrd (or_introl Hix)) as
    (y1 & xb & yb & E3 & E4 & Hxyb & Hyxb & Hav1 & -> & Hav2 & _ & Hfold & _).
  pose proof (move_spec _ _ _ _ x y reorder Hxy Hyx) as (y1' & E3' & Hxy1 & Hyx1 & _).
  rewrite E3 in E3'. injection E3' as <-.
  assert (Hay1 : TCPSender.seqno_acked_ (sender_ y1) = zlen ([] : list byte) + 2).
  { pose proof (link_bound _ _ _ _ Hyx1) as Hb. pose proof (sd_acked _ _ (link_core _ _ _ _ Hyx1)).
    pose proof (av_acked _ _ Hav1). simpl in *.
    destruct Hph as [[? _]|(m & Hm & Hk)]; [lia|]. destruct (Hfold Hiy) as [_ Hf].
    specialize (Hf m 2 Hm Hk ltac:(lia)). simpl in Hf. lia. }
  assert (Hax : TCPSender.seqno_acked_ (sender_ xb) = zlen S + 2) by (by eapply advance_acked).
  assert (Hix' : TCPReceiver.has_isn_ (receiver_ xb) = true) by (by apply (av_isn _ _ Hav2)).
  assert (Hak' : TCPReceiver.ackno_ (receiver_ xb) = 2).
  { pose proof (av_ackno _ _ Hav2). pose proof (link_position _ _ _ _ Hyxb) as (_ & _ & _ & _ & Hpos).
    specialize (Hpos Hix'). pose proof (link_bound _ _ _ _ Hyxb) as Hb. simpl in *. lia. }
  destruct (read_output_spec _ _ _ _ _ _ Hxyb Hyxb) as
    (yc & got & E5 & Hxyc & Hyxc & (Hg5 & Hs5 & Hq5 & Ht5 & _) & Hnil & _ & Hi5 & _).
  simpl in Hs5, Hq5, Ht5, Hg5, Hi5.
  destruct (acked_all _ _ _ _ Hxyc Hax) as (_ & Hbx & _).
  destruct (acked_all [] [] yc xb Hyxc) as (Hnyc & Hby & _); [by rewrite Hs5|].
  pose proof (count_nonneg _ _ (link_sender _ _ _ _ Hxyc)) as Hc0x.
  pose proof (count_nonneg _ _ (link_sender _ _ _ _ Hyxc)) as Hc0y.
  pose proof (av_count _ _ Hav1). pose proof (av_count _ _ Hav2) as Hcc. simpl in Hcc.
  assert (0 <= time_passed xb <= T) by (destruct (av_time _ _ Hav2) as [-> | ->]; simpl; lia).
  assert (0 <= time_passed yc <= T) by (rewrite Ht5; destruct (av_time _ _ Hav1) as [-> | ->]; simpl; lia).
  destruct (tick_progress S xb 1000) as (xc & E6 & Hcn6 & Hp6 & Htk6 & Ht6 & _ & _ & Hb6);
    [apply Hxyc|apply Hxyc|lia|lia|]. destruct (Hb6 Hbx) as [Hq6 Hco6].
  destruct (ticked_links _ _ _ _ _ _ _ Hxyc Hyxc Htk6 Hcn6 Hp6) as [Hxy6 Hyx6].
  destruct (tick_progress [] yc 1000) as (yd & E7 & Hcn7 & Hp7 & Htk7 & Ht7 & _ & _ & Hb7);
    [apply Hyxc|apply Hyxc|rewrite Hs5 in *; lia|lia|]. destruct (Hb7 Hby) as [Hq7 Hco7].
  destruct (ticked_links _ _ _ _ _ _ _ Hyx6 Hxy6 Htk7 Hcn7 Hp7) as [Hyx7 Hxy7].
  exists (TcpBenchmark.mk xc yd (TcpBenchmark.bytes_to_send st) true (TcpBenchmark.string_received st ++ got)).
  split; [eapply loop_eval; try done; by rewrite Hz, Hcl|].
  destruct Htk6 as [Kr6 Kg6 _ _ Ka6 _ _ _ _ _], Htk7 as [Kr7 Kg7 _ _ Ka7 _ _ _ _ _].
  assert (Hay : TCPSender.seqno_acked_ (sender_ yd) = 2 /\ segments_out_ yd = [])
    by (by rewrite Ka7, Hq7, Hq5, Hs5).
  split; [|split; [by apply Hay|split; [by apply Hay|]]].
  - split; simpl; rewrite ?Kr6, ?Kr7, ?Kg6, ?Kg7, ?Ka6, ?Hi5, ?Hg5; try done; try lia.
    + split; [done|]. by apply (av_isn _ _ Hav1).
    + rewrite Hco6, Hco7. rewrite Hs5. lia.
    + rewrite (av_cfg _ _ Hav1), (av_cfg _ _ Hav2). done.
    + by left.
  - intros H2 Hq. simpl. rewrite Hq6.
    destruct (move_idle _ _ _ _ _ _ _ _ _ Hxy Hyx Hiy H2 E3) as (e1 & Hq1 & Hp1 & _).
    destruct (move_idle _ _ _ _ _ _ _ _ _ Hyx1 Hxy1 Hix Ha E4) as (e2 & -> & _ & Hn2). simpl.
    assert (Hny : TCPSender.next_seqno_ (sender_ y1) = 2) by (rewrite Hs5 in Hnyc; done).
    apply Hn2; [simpl; by rewrite Hny|]. rewrite Hq1, Hq, Hny. simpl.
    destruct (av_later _ _ Hav1) as [-> _]. done.
Qed.

(** Both streams are over in both connections. *)
Lemma closing_over T st (x := TcpBenchmark.x st) (y := TcpBenchmark.y st) :
  closing T st -> TCPSender.seqno_acked_ (sender_ y) = 2 ->
  TcpBenchmark.string_received st = S /\
  ByteStream.eof (TCPSender.stream_ (sender_ x)) = true /\ ByteStream.eof (TCPSender.stream_ (sender_ y)) = true /\
  ByteStream.eof (TCPReceiver.stream_out (receiver_ x)) = true /\
  ByteStream.eof (TCPReceiver.stream_out (receiver_ y)) = true.
Proof.
  intros [Hxy Hyx Ha _ _ Hrd _ Hak _ _ _ _] H2. subst x y.
  destruct (acked_all _ _ _ _ Hxy Ha) as (Hnx & _). destruct (acked_all _ _ _ _ Hyx H2) as (Hny & _).
  destruct (all_sent_state _ _ (link_sender _ _ _ _ Hxy) Hnx) as (_ & _ & _ & He1).
  destruct (all_sent_state _ _ (link_sender _ _ _ _ Hyx) Hny) as (_ & _ & _ & He2).
  pose proof (rt_wf _ _ _ (lk_tracks _ _ _ _ Hxy)) as Hwy. pose proof (rt_wf _ _ _ (lk_tracks _ _ _ _ Hyx)) as Hwx.
  pose proof (link_position _ _ _ _ Hxy) as (Hpy & _ & Hly & _). pose proof (link_acked_le _ _ _ _ Hxy) as [Hle _].
  pose proof (link_position _ _ _ _ Hyx) as (Hpx & _ & Hlx & _).
  unfold sent_bytes in Hlx, Hly. rewrite zlen_ztake in Hlx, Hly. simpl in Hlx. pose proof (zlen_nonneg S).
  unfold TCPReceiver.fin_count in *.
  assert (Hfy : TCPReceiver.sent_fin_ (receiver_ (TcpBenchmark.y st)) = true)
    by (destruct (TCPReceiver.sent_fin_ (receiver_ (TcpBenchmark.y st))); [done|lia]).
  assert (Hfx : TCPReceiver.sent_fin_ (receiver_ (TcpBenchmark.x st)) = true).
  { rewrite Hak in Hpx. destruct (TCPReceiver.sent_fin_ (receiver_ (TcpBenchmark.x st))); [done|lia]. }
  rewrite Hfy in Hpy. split.
  - pose proof (lk_del _ _ _ _ Hxy) as Hd. rewrite Hrd, app_nil_r, ztake_ge in Hd by lia. done.
  - split; [done|]. split; [done|]. rewrite !bs_eof by (apply Hwx || apply Hwy).
    apply (rc_ended _ _ _ Hwx) in Hfx. apply (rc_ended _ _ _ Hwy) in Hfy. rewrite Hfx, Hfy, Hrd.
    pose proof (lk_del _ _ _ _ Hyx) as Hd. simpl in Hd. rewrite Hd. done.
Qed.

Lemma over_active c :
  ByteStream.eof (TCPSender.stream_ (sender_ c)) = true ->
  ByteStream.eof (TCPReceiver.stream_out (receiver_ c)) = true ->
  TCPSender.seqno_acked_ (sender_ c) = TCPSender.next_seqno_ (sender_ c) ->
  active c = linger_after_streams_finish_ c.
Proof.
  intros H1 H2 Ha. unfold active, TCPSender.stream_in, TCPSender.bytes_in_flight.
  rewrite H1, H2, Ha, Z.sub_diag. simpl. by rewrite !orb_false_r.
Qed.

Lemma move_nothing x y reorder :
  segments_out_ x = [] -> TcpBenchmark.move_segments x y reorder = Ok (set_segments_out x [], y).
Proof. intros Hq. unfold TcpBenchmark.move_segments, segments_out. rewrite Hq. by destruct reorder. Qed.

(** How long a connection that has nothing left to do may still linger, in rounds. *)
Definition lingers (n : nat) (c : t) : Prop :=
  linger_after_streams_finish_ c = true -> 1 <= Z.of_nat n /\ 10000 <= time_passed c + 1000 * Z.of_nat n.

Lemma tick_lingers w c n :
  cn_wf w c -> plain_buffer (sender_ c) -> 0 <= TCPSender.consecutive_retransmissions_ (sender_ c) <= 7 ->
  0 <= time_passed c + 1000 < two64 -> TCPConfig.rt_timeout (cfg_ c) = 1000 ->
  ByteStream.eof (TCPSender.stream_ (sender_ c)) = true ->
  ByteStream.eof (TCPReceiver.stream_out (receiver_ c)) = true ->
  lingers (Datatypes.S n) c -> exists c', tick c 1000 = Ok c' /\ lingers n c'.
Proof.
  intros Hc Hp Hn Ht Hg He1 He2 Hl.
  destruct (tick_progress w c 1000 Hc Hp Hn Ht) as (c' & E & _ & _ & _ & Ht' & Hl' & _). exists c'.
  split; [done|]. unfold lingers in *. rewrite Hl', Ht', He1, He2, Hg. change (10 * 1000) with 10000.
  destruct (linger_after_streams_finish_ c); [|done]. cbn [andb negb].
  destruct (Z.leb_spec 10000 (time_passed c + 1000)); [done|].
  intros _. destruct (Hl eq_refl). lia.
Qed.

(** Nothing happens but the passing of time. *)
Record idle (T : Z) (n : nat) (st : TcpBenchmark.t) : Prop := {
  id_closing : closing T st;
  id_acked : TCPSender.seqno_acked_ (sender_ (TcpBenchmark.y st)) = 2;
  id_queues : segments_out_ (TcpBenchmark.x st) = [] /\ segments_out_ (TcpBenchmark.y st) = [];
  id_lingers : lingers n (TcpBenchmark.x st) /\ lingers n (TcpBenchmark.y st)
}.

Lemma idle_round reorder T n st :
  idle T (Datatypes.S n) st -> 0 <= T -> T + 1000 < two64 ->
  exists st', TcpBenchmark.loop reorder st = Ok st' /\ idle (T + 1000) n st'.
Proof.
  intros [Hcl H2 [Hqx Hqy] [Hlx Hly]] HT HT2.
  destruct (closing_round reorder T st Hcl HT HT2) as (st' & E & Hcl' & H2' & Hqy' & Hqx').
  destruct (closing_over T st Hcl H2) as (_ & He1 & He2 & He3 & He4).
  exists st'. split; [done|]. split; [done|done|by auto|].
  pose proof Hcl as [Hxy Hyx _ Hem Hc Hrd _ _ [Hcx Hcy] [Hgx Hgy] [Htx Hty] _].
  pose proof (count_nonneg _ _ (link_sender _ _ _ _ Hxy)). pose proof (count_nonneg _ _ (link_sender _ _ _ _ Hyx)).
  destruct (emit_links _ _ _ _ _ _ Hxy Hyx) as (Hxy1 & Hyx1 & _).
  destruct (emit_links _ _ _ _ _ _ Hyx1 Hxy1) as (Hyx2 & Hxy2 & _).
  destruct (tick_lingers S (set_segments_out (TcpBenchmark.x st) []) n) as (xc & E6 & Hl6); try done;
    [apply Hxy1|apply Hxy1|simpl; lia|simpl; lia|].
  destruct (tick_lingers [] (set_segments_out (TcpBenchmark.y st) []) n) as (yc & E7 & Hl7); try done;
    [apply Hyx2|apply Hyx2|simpl; lia|simpl; lia|].
  destruct (feed_idle (TcpBenchmark.x st) _ Hem) as [E1 Hz].
  assert (El : TcpBenchmark.loop reorder st = Ok (TcpBenchmark.mk xc yc (TcpBenchmark.bytes_to_send st) true
    (TcpBenchmark.string_received st))).
  { eapply loop_eval; [exact E1|by rewrite Hz, Hc|by apply move_nothing|by apply move_nothing| |done|exact E7].
    unfold inbound_stream. simpl. rewrite bs_buffer_size by apply (rt_wf _ _ _ (lk_tracks _ _ _ _ Hxy)).
    rewrite Hrd. done. }
  rewrite E in El. injection El as ->. done.
Qed.

(** ** The second loop ends *)

(** It ends with both connections inactive and all bytes received. *)
Definition ends (fuel : nat) (reorder : bool) (st : TcpBenchmark.t) : Prop :=
  exists st', TcpBenchmark.while_loop fuel TcpBenchmark.alive reorder st = Ok st' /\
    TcpBenchmark.alive st' = false /\ TcpBenchmark.string_received st' = S.

Lemma ends_step fuel reorder st :
  TcpBenchmark.string_received st = S ->
  (exists st1, TcpBenchmark.loop reorder st = Ok st1 /\ ends fuel reorder st1) ->
  ends (Datatypes.S fuel) reorder st.
Proof.
  intros Htext (st1 & E & st' & E' & Hd). unfold ends. cbn [TcpBenchmark.while_loop].
  destruct (TcpBenchmark.alive st) eqn:Ea; [|by exists st].
  rewrite E. cbn [mbind outcome_bind]. by exists st'.
Qed.

Lemma idle_ends reorder n T st :
  idle T n st -> 0 <= T -> T + 1000 * Z.of_nat n < two64 -> ends n reorder st.
Proof.
  revert T st. induction n as [|n IH]; intros T st Hi HT HT2;
    destruct (closing_over T st (id_closing _ _ _ Hi) (id_acked _ _ _ Hi)) as (Htext & He1 & He2 & He3 & He4).
  - exists st. pose proof Hi as [[Hxy Hyx Ha _ _ _ _ _ _ _ _ _] H2 _ [Hlx Hly]].
    assert (Hd : TcpBenchmark.alive st = false).
    { unfold TcpBenchmark.alive. destruct (acked_all _ _ _ _ Hxy Ha) as [Hnx _], (acked_all _ _ _ _ Hyx H2) as [Hny _].
      simpl in Hny.
      rewrite (over_active (TcpBenchmark.x st)), (over_active (TcpBenchmark.y st)) by (done || lia).
      unfold lingers in *. apply orb_false_iff.
      split; apply not_true_is_false; intros Hl; [destruct (Hlx Hl)|destruct (Hly Hl)]; lia. }
    simpl. by rewrite Hd.
  - apply ends_step; [done|]. destruct (idle_round reorder T n st Hi HT ltac:(lia)) as (st1 & E & Hi1).
    exists st1. split; [done|]. apply (IH (T + 1000)); [done|lia|lia].
Qed.

Lemma closing_ends reorder T st :
  closing T st -> TcpBenchmark.string_received st = S -> 0 <= T <= 2000 -> ends 12 reorder st.
Proof.
  intros Hc Htext HT. apply ends_step; [done|].
  destruct (closing_round reorder T st Hc) as (st1 & E1 & Hc1 & H1 & Hq1 & _); [lia|lia|].
  exists st1. split; [done|]. destruct (closing_over _ st1 Hc1 H1) as (Htext1 & _). apply ends_step; [done|].
  destruct (closing_round reorder (T + 1000) st1 Hc1) as (st2 & E2 & Hc2 & H2 & Hq2 & Hqx2); [lia|lia|].
  exists st2. split; [done|]. apply (idle_ends reorder 10 (T + 1000 + 1000)); [|lia|lia].
  split; [done|done|by auto|]. pose proof (cl_time _ _ Hc2). unfold lingers. lia.
Qed.

Lemma ends_mono fuel fuel' reorder st : (fuel <= fuel')%nat -> ends fuel reorder st -> ends fuel' reorder st.
Proof.
  intros Hle (st' & E & Hd). exists st'. split; [|done]. clear Hd. revert fuel' st Hle E.
  induction fuel as [|fuel IH]; intros [|fuel'] st Hle; cbn [TcpBenchmark.while_loop]; try lia; try done;
    (destruct (TcpBenchmark.alive st); [|done]); try done.
  intros (st1 & E1 & E2)%bind_Ok_inv. rewrite E1. cbn [mbind outcome_bind]. apply IH; [lia|done].
Qed.

Lemma running_ends reorder n w st :
  running w st -> TcpBenchmark.receiving st = false ->
  zlen S + 2 - TCPSender.seqno_acked_ (sender_ (TcpBenchmark.x st)) <= Z.of_nat n ->
  ends (n + 12) reorder st.
Proof.
  revert w st. induction n as [|n IH]; intros w st Hr Hrec Hn;
    rewrite (receiving_ended _ _ Hr) in Hrec; apply negb_false_iff in Hrec;
    destruct (ended_text w st Hr Hrec) as (_ & Htext & _ & Hak);
    pose proof (link_bound _ _ _ _ (rn_xy _ _ Hr)); pose proof (sd_acked _ _ (link_core _ _ _ _ (rn_xy _ _ Hr)));
    pose proof (running_length _ _ Hr); pose proof (zlen_nonneg (Buffer.str (TcpBenchmark.bytes_to_send st))).
  - apply (closing_ends reorder 1000); [|done|lia]. eapply running_closing; [done|lia].
  - destruct (Z.lt_ge_cases (TCPSender.seqno_acked_ (sender_ (TcpBenchmark.x st))) (zlen S + 2)) as [Hlt|Hge].
    + apply ends_step; [done|]. destruct (loop_spec reorder w st Hr Hlt) as (st1 & d & E & Hr1 & Hlt1 & Hak1).
      exists st1. split; [done|]. apply (IH (w ++ d)); [done| |lia].
      rewrite (receiving_ended _ _ Hr1), (position_ended _ _ Hr1) by lia. done.
    + apply (ends_mono 12); [lia|]. apply (closing_ends reorder 1000); [|done|lia].
      eapply running_closing; [done|lia].
Qed.

End loops.

(** ** Properties *)

(** C5. The benchmark terminates and is correct, with and without reordering: for every string
    shorter than 2 GiB and any two initial sequence numbers, each of the two loops ends within
    the length of the string plus 14 rounds, no call throws or runs into undefined behaviour on
    the way, exactly the string is received, and at the end both connections are closed down. *)
Theorem benchmark_terminates (reorder : bool) (string_to_send : list byte) (random_x random_y : Z) (fuel : nat)
  (Hshort : zlen string_to_send + 2 < two31)
  (Hx : 0 <= random_x < two32) (Hy : 0 <= random_y < two32)
  (Hfuel : zlen string_to_send + 14 <= Z.of_nat fuel) :
  exists st, TcpBenchmark.main_loop fuel reorder string_to_send random_x random_y = Ok st /\
    TcpBenchmark.string_received st = string_to_send /\
    TCPConnection.active (TcpBenchmark.x st) = false /\ TCPConnection.active (TcpBenchmark.y st) = false.
Proof.
  destruct (start_spec string_to_send Hshort random_x random_y Hx Hy) as (st0 & E0 & Hr0).
  pose proof (sd_acked _ _ (link_core _ _ _ _ (rn_xy _ _ _ Hr0))) as Ha0. pose proof (zlen_nonneg string_to_send).
  destruct (receive_loop string_to_send Hshort reorder fuel [] st0 Hr0) as (w & st1 & E1 & Hr1 & Hd1); [lia|].
  pose proof (sd_acked _ _ (link_core _ _ _ _ (rn_xy _ _ _ Hr1))) as Ha1.
  destruct (running_ends string_to_send Hshort reorder (Z.to_nat (zlen string_to_send + 2)) w st1 Hr1 Hd1) as
    (st2 & E2 & Hd2 & Htext); [lia|].
  destruct (ends_mono string_to_send (Z.to_nat (zlen string_to_send + 2) + 12) fuel reorder st1) as
    (st' & E' & Hd' & Htext'); [lia|by exists st2|].
  pose proof Hd1 as Hie. rewrite (receiving_ended _ _ _ Hr1) in Hie. apply negb_false_iff in Hie.
  destruct (ended_text string_to_send w st1 Hr1 Hie) as (_ & Ht1 & _).
  exists st'. unfold TcpBenchmark.main_loop. rewrite E0. cbn [mbind outcome_bind]. rewrite E1.
  cbn [mbind outcome_bind]. rewrite Ht1, bool_decide_eq_true_2 by done. cbn [negb].
  split; [done|]. split; [done|]. by apply orb_false_iff.
Qed.

Lemma benchmark_terminates_witness :
  exists st, TcpBenchmark.main_loop 19 true hello 4294967295 7 = Ok st /\
    TcpBenchmark.string_received st = hello /\
    TCPConnection.active (TcpBenchmark.x st) = false /\ TCPConnection.active (TcpBenchmark.y st) = false.
Proof.
  apply (benchmark_terminates true hello 4294967295 7 19); [vm_compute; reflexivity|lia|lia|vm_compute; congruence].
Defined.
