(* ===== verification/TcpState.v ===== *)
(** * TcpState.v: the names of TCP's states

    Models [libsponge/tcp_helpers/tcp_state.hh] and [libsponge/tcp_helpers/tcp_state.cc]:
    [TCPState] summarises the sender, the receiver and two bits of a connection in strings,
    and gives the same summary for each of the specification's state names. *)

From S2P Require Import Prelude Wrapping Streams Reassembler TcpWire Receiver Sender Connection.

Module TCPReceiverStateSummary.
Definition ERROR : string := "error (connection was reset)".
Definition LISTEN : string := "waiting for SYN: ackno is empty".
Definition SYN_RECV : string := "SYN received (ackno exists), and input to stream hasn't ended".
Definition FIN_RECV : string := "input to stream has ended".
End TCPReceiverStateSummary.

Module TCPSenderStateSummary.
Definition ERROR : string := "error (connection was reset)".
Definition CLOSED : string := "waiting for stream to begin (no SYN sent)".
Definition SYN_SENT : string := "stream started but nothing acknowledged".
Definition SYN_ACKED : string := "stream ongoing".
Definition FIN_SENT : string := "stream finished (FIN sent) but not fully acknowledged".
Definition FIN_ACKED : string := "stream finished and fully acknowledged".
End TCPSenderStateSummary.

Module TCPState.

Inductive State :=
  | LISTEN | SYN_RCVD | SYN_SENT | ESTABLISHED | CLOSE_WAIT | LAST_ACK | FIN_WAIT_1
  | FIN_WAIT_2 | CLOSING | TIME_WAIT | CLOSED | RESET.

Record t := mk {
  _sender : string;
  _receiver : string;
  _active : bool;
  _linger_after_streams_finish : bool
}.

Definition eqb (a b : t) : bool :=
  Bool.eqb (_active a) (_active b) &&
  Bool.eqb (_linger_after_streams_finish a) (_linger_after_streams_finish b) &&
  bool_decide (_sender a = _sender b) && bool_decide (_receiver a = _receiver b).

(** [std::to_string(bool)]. *)
Definition string_of_bool (b : bool) : string := if b then "1" else "0".

Definition name (a : t) : string :=
  ("sender=`" ++ _sender a ++ "`, receiver=`" ++ _receiver a ++ "`, active=" ++
   string_of_bool (_active a) ++ ", linger_after_streams_finish=" ++
   string_of_bool (_linger_after_streams_finish a))%string.

(** The constructor from a state's name. *)
Definition of_state (state : State) : t :=
  match state with
  | LISTEN => mk TCPSenderStateSummary.CLOSED TCPReceiverStateSummary.LISTEN true true
  | SYN_RCVD => mk TCPSenderStateSummary.SYN_SENT TCPReceiverStateSummary.SYN_RECV true true
  | SYN_SENT => mk TCPSenderStateSummary.SYN_SENT TCPReceiverStateSummary.LISTEN true true
  | ESTABLISHED => mk TCPSenderStateSummary.SYN_ACKED TCPReceiverStateSummary.SYN_RECV true true
  | CLOSE_WAIT => mk TCPSenderStateSummary.SYN_ACKED TCPReceiverStateSummary.FIN_RECV true false
  | LAST_ACK => mk TCPSenderStateSummary.FIN_SENT TCPReceiverStateSummary.FIN_RECV true false
  | CLOSING => mk TCPSenderStateSummary.FIN_SENT TCPReceiverStateSummary.FIN_RECV true true
  | FIN_WAIT_1 => mk TCPSenderStateSummary.FIN_SENT TCPReceiverStateSummary.SYN_RECV true true
  | FIN_WAIT_2 => mk TCPSenderStateSummary.FIN_ACKED TCPReceiverStateSummary.SYN_RECV true true
  | TIME_WAIT => mk TCPSenderStateSummary.FIN_ACKED TCPReceiverStateSummary.FIN_RECV true true
  | RESET => mk TCPSenderStateSummary.ERROR TCPReceiverStateSummary.ERROR false false
  | CLOSED => mk TCPSenderStateSummary.FIN_ACKED TCPReceiverStateSummary.FIN_RECV false false
  end.

Definition receiver_summary (receiver : TCPReceiver.t) : string :=
  if ByteStream.error (TCPReceiver.stream_out receiver) then TCPReceiverStateSummary.ERROR
  else match TCPReceiver.ackno receiver with
       | None => TCPReceiverStateSummary.LISTEN
       | Some _ =>
           if ByteStream.input_ended (TCPReceiver.stream_out receiver)
           then TCPReceiverStateSummary.FIN_RECV else TCPReceiverStateSummary.SYN_RECV
       end.

Definition sender_summary (sender : TCPSender.t) : string :=
  if ByteStream.error (TCPSender.stream_in sender) then TCPSenderStateSummary.ERROR
  else if TCPSender.next_seqno_absolute sender =? 0 then TCPSenderStateSummary.CLOSED
  else if TCPSender.next_seqno_absolute sender =? TCPSender.bytes_in_flight sender
  then TCPSenderStateSummary.SYN_SENT
  else if negb (ByteStream.eof (TCPSender.stream_in sender)) then TCPSenderStateSummary.SYN_ACKED
  else if TCPSender.next_seqno_absolute sender
            <? u64 (ByteStream.bytes_written (TCPSender.stream_in sender) + 2)
  then TCPSenderStateSummary.SYN_ACKED
  else if negb (TCPSender.bytes_in_flight sender =? 0) then TCPSenderStateSummary.FIN_SENT
  else TCPSenderStateSummary.FIN_ACKED.

(** The constructor from the parts of a connection. *)
Definition of_parts (sender : TCPSender.t) (receiver : TCPReceiver.t) (active linger : bool) : t :=
  mk (sender_summary sender) (receiver_summary receiver) active (if active then linger else false).

End TCPState.

(** [TCPConnection::state]. *)
Definition state (c : TCPConnection.t) : TCPState.t :=
  TCPState.of_parts (TCPConnection.sender_ c) (TCPConnection.receiver_ c) (TCPConnection.active c)
    (TCPConnection.linger_after_streams_finish_ c).

(** ** What the summary of the sender means *)

(** The stage of the sender by what it sent and what was acknowledged. *)
Definition sender_phase (s : TCPSender.t) : string :=
  if ByteStream.error (TCPSender.stream_in s) then TCPSenderStateSummary.ERROR
  else if TCPSender.next_seqno_ s =? 0 then TCPSenderStateSummary.CLOSED
  else if TCPSender.seqno_acked_ s =? 0 then TCPSenderStateSummary.SYN_SENT
  else if negb (TCPSender.sent_fin_ s) then TCPSenderStateSummary.SYN_ACKED
  else if TCPSender.seqno_acked_ s <? TCPSender.next_seqno_ s then TCPSenderStateSummary.FIN_SENT
  else TCPSenderStateSummary.FIN_ACKED.

(** In a well-formed sender the number of bytes written is the length of its stream, and the
    stream is at its end exactly if the input has ended and everything was read. *)
Lemma sender_stream_counts S s :
  sd_core S s ->
  ByteStream.bytes_written (TCPSender.stream_in s) = zlen S /\
  ByteStream.eof (TCPSender.stream_in s) =
    ByteStream.input_ended (TCPSender.stream_ s) && (ByteStream.bytes_read (TCPSender.stream_ s) =? zlen S).
Proof.
  intros Hc. destruct Hc as [Hst _ _ Hrd _ _ _ _ _ _ _ Hsm].
  unfold ByteStream.contents in Hrd. rewrite rb_zlen_contents in Hrd by apply Hst.
  pose proof (ByteStream.wf_read _ Hst). unfold ByteStream.bytes_read in Hrd.
  assert (Hw : ByteStream.total_write_ (TCPSender.stream_ s) = zlen S).
  { rewrite (ByteStream.wf_write _ Hst), Hrd. apply u64_small. lia. }
  unfold ByteStream.eof, ByteStream.bytes_written, ByteStream.bytes_read, TCPSender.stream_in.
  by rewrite Hw.
Qed.

Lemma sender_summary_phase S s : sd_wf S s -> TCPState.sender_summary s = sender_phase s.
Proof.
  intros [Hc _ _ _]. destruct (sender_stream_counts S s Hc) as [Hw He].
  pose proof (sd_next_bound _ _ Hc) as Hn. pose proof (sd_acked _ _ Hc) as Ha.
  pose proof (sd_small _ _ Hc) as Hsm. pose proof (sd_read _ _ Hc) as Hr.
  pose proof (sd_next _ _ Hc) as Hnx. pose proof (sd_fin _ _ Hc) as Hfin.
  unfold TCPState.sender_summary, sender_phase. rewrite Hw, He.
  unfold TCPSender.next_seqno_absolute, TCPSender.bytes_in_flight.
  rewrite !u64_small by lia.
  destruct (ByteStream.error _); [done|].
  destruct (Z.eqb_spec (TCPSender.next_seqno_ s) 0) as [|Hn0]; [done|].
  destruct Hnx as [[? _]|Hnx]; [done|].
  destruct (Z.eqb_spec (TCPSender.next_seqno_ s) (TCPSender.next_seqno_ s - TCPSender.seqno_acked_ s)),
    (Z.eqb_spec (TCPSender.seqno_acked_ s) 0); try lia; [done|].
  destruct (TCPSender.sent_fin_ s); simpl negb; cbv iota; simpl fin_num in Hnx.
  - destruct (Hfin eq_refl) as [-> Hempty]. rewrite Hempty in Hr. simpl in Hr.
    replace (ByteStream.bytes_read (TCPSender.stream_ s)) with (zlen S) by lia.
    rewrite Z.eqb_refl. simpl. ztests; done.
  - destruct (ByteStream.input_ended _ && _); simpl; [|done]. ztests; done.
Qed.

(** ** Properties *)

(** The sender's summary says what it should: computed from the sequence numbers and the
    outbound stream alone, it is CLOSED before the SYN was sent, SYN_SENT until it is
    acknowledged, SYN_ACKED until the FIN is sent, FIN_SENT until everything including the FIN
    is acknowledged, FIN_ACKED afterwards, and the error once the stream has failed. *)
Theorem sender_summary_correct (S : list byte) (s : TCPSender.t) (Hs : sd_wf S s) :
  TCPState.sender_summary s = sender_phase s.
Proof. by apply (sender_summary_phase S). Qed.

Lemma sender_summary_correct_witness :
  TCPState.sender_summary (TCPConnection.sender_ (fresh_connection 8)) = TCPSenderStateSummary.CLOSED.
Proof.
  rewrite (sender_summary_correct [] (TCPConnection.sender_ (fresh_connection 8))).
  - reflexivity.
  - apply (fresh_connection_wf 8 (fun _ _ => True) (fun _ => True)). unfold string_max_size. lia.
Defined.

Lemma dirty_abort_state c : state (TCPConnection.dirty_abort c) = TCPState.of_state TCPState.RESET.
Proof.
  destruct (dirty_abort_inactive c) as (Ha & Hi & Ho). unfold state, TCPState.of_parts.
  rewrite Ha. unfold TCPState.sender_summary, TCPState.receiver_summary.
  change (TCPReceiver.stream_out (TCPConnection.receiver_ (TCPConnection.dirty_abort c)))
    with (TCPConnection.inbound_stream (TCPConnection.dirty_abort c)).
  by rewrite Ho, Hi.
Qed.

(** The state names are told apart by their summaries, and every way to reset a connection
    ends in RESET: a received RST, and the destruction of a connection that is still active. *)
Theorem reset_state_reported (S : list byte) (c : TCPConnection.t) (seg : TCPSegment.t) (Hc : cn_wf S c)
  (Hrst : TCPHeader.rst (TCPSegment.header seg) = true) :
  (forall a b, TCPState.eqb (TCPState.of_state a) (TCPState.of_state b) = true <-> a = b) /\
  (exists c', TCPConnection.segment_received c seg = Ok c' /\ state c' = TCPState.of_state TCPState.RESET) /\
  (TCPConnection.active c = true ->
   exists c', TCPConnection.destroy c = Ok c' /\ state c' = TCPState.of_state TCPState.RESET).
Proof.
  split; [|split].
  - intros a b. split; [|intros ->; by destruct b]. by destruct a, b.
  - unfold TCPConnection.segment_received. rewrite Hrst. eexists. split; [done|]. apply dirty_abort_state.
  - intros Ha. unfold TCPConnection.destroy. rewrite Ha.
    destruct (send_rst_spec S c (cn_is_pre _ _ Hc)) as (c1 & sg & -> & _).
    eexists. split; [done|]. apply dirty_abort_state.
Qed.

Definition rst_segment : TCPSegment.t :=
  TCPSegment.mk (TCPHeader.set_rst TCPHeader.make true) Buffers.Buffer.empty.

Lemma reset_state_reported_witness :
  exists c', TCPConnection.destroy (fresh_connection 8) = Ok c' /\ state c' = TCPState.of_state TCPState.RESET.
Proof.
  apply (reset_state_reported [] (fresh_connection 8) rst_segment).
  - apply (fresh_connection_wf 8 (fun _ _ => True) (fun _ => True)). unfold string_max_size. lia.
  - reflexivity.
  - reflexivity.
Defined.

(** ** A connection's life, evaluated: the handshake and the closing of both streams. *)

Definition receive_all (c : TCPConnection.t) (l : list TCPSegment.t) : outcome TCPConnection.t :=
  foldl (fun c seg => c ← c; TCPConnection.segment_received c seg) (Ok c) l.

(** Hands the segments [a] has queued to [b]. *)
Definition deliver (a b : TCPConnection.t) : outcome (TCPConnection.t * TCPConnection.t) :=
  b ← receive_all b (TCPConnection.segments_out a);
  Ok (TCPConnection.set_segments_out a [], b).

Definition lifecycle : outcome (list (TCPState.t * TCPState.t)) :=
  let a := fresh_connection 8 in
  let b := fresh_connection 8 in
  let s0 := (state a, state b) in
  a ← TCPConnection.connect a;
  '(a, b) ← deliver a b;
  let s1 := (state a, state b) in
  '(b, a) ← deliver b a;
  '(a, b) ← deliver a b;
  let s2 := (state a, state b) in
  a ← TCPConnection.end_input_stream a;
  let s3 := (state a, state b) in
  '(a, b) ← deliver a b;
  '(b, a) ← deliver b a;
  let s4 := (state a, state b) in
  b ← TCPConnection.end_input_stream b;
  let s5 := (state a, state b) in
  '(b, a) ← deliver b a;
  '(a, b) ← deliver a b;
  let s6 := (state a, state b) in
  a ← TCPConnection.tick a 10000;
  Ok [s0; s1; s2; s3; s4; s5; s6; (state a, state b)].

Example lifecycle_states :
  lifecycle = Ok (prod_map TCPState.of_state TCPState.of_state <$>
    [(TCPState.LISTEN, TCPState.LISTEN); (TCPState.SYN_SENT, TCPState.SYN_RCVD); (TCPState.ESTABLISHED, TCPState.ESTABLISHED);
     (TCPState.FIN_WAIT_1, TCPState.ESTABLISHED); (TCPState.FIN_WAIT_2, TCPState.CLOSE_WAIT); (TCPState.FIN_WAIT_2, TCPState.LAST_ACK);
     (TCPState.TIME_WAIT, TCPState.CLOSED); (TCPState.CLOSED, TCPState.CLOSED)]).
Proof. vm_compute. reflexivity. Qed.
