(* ===== verification/IpWire.v ===== *)
(** * IpWire.v: IPv4 headers and datagrams on the wire

    Models [libsponge/tcp_helpers/ipv4_header.hh], [ipv4_header.cc], [ipv4_datagram.hh] and
    [ipv4_datagram.cc]: the fields, parsing with its checks, serialization with the header
    checksum, and the pseudo-header sum for TCP. *)

From S2P Require Import Prelude Buffers Parsing.

(** ** IPv4Header *)

Module IPv4Header.

Definition LENGTH : Z := 20.
Definition DEFAULT_TTL : Z := 128.
Definition PROTO_TCP : Z := 6.

Record t := mk {
  ver : Z;
  hlen : Z;
  tos : Z;
  len : Z;
  id : Z;
  df : bool;
  mf : bool;
  offset : Z;
  ttl : Z;
  proto : Z;
  cksum : Z;
  src : Z;
  dst : Z
}.

(** A default-initialised header. *)
Definition make : t := mk 4 (LENGTH / 4) 0 0 0 true false 0 DEFAULT_TTL PROTO_TCP 0 0 0.

Definition set_cksum (h : t) (v : Z) : t :=
  mk (ver h) (hlen h) (tos h) (len h) (id h) (df h) (mf h) (offset h) (ttl h) (proto h) v
    (src h) (dst h).
Definition set_ttl (h : t) (v : Z) : t :=
  mk (ver h) (hlen h) (tos h) (len h) (id h) (df h) (mf h) (offset h) v (proto h) (cksum h)
    (src h) (dst h).
Definition set_len (h : t) (v : Z) : t :=
  mk (ver h) (hlen h) (tos h) v (id h) (df h) (mf h) (offset h) (ttl h) (proto h) (cksum h)
    (src h) (dst h).
Definition set_src (h : t) (v : Z) : t :=
  mk (ver h) (hlen h) (tos h) (len h) (id h) (df h) (mf h) (offset h) (ttl h) (proto h) (cksum h)
    v (dst h).
Definition set_dst (h : t) (v : Z) : t :=
  mk (ver h) (hlen h) (tos h) (len h) (id h) (df h) (mf h) (offset h) (ttl h) (proto h) (cksum h)
    (src h) v.

(** [parse] on a header [h]: too short a packet leaves it as it was. *)
Definition parse (h : t) (p : NetParser.t) : outcome (ParseResult * t * NetParser.t) :=
  let original_serialized_version := NetParser.buffer p in
  let data_size := Buffer.size (NetParser.buffer p) in
  if data_size <? LENGTH then Ok (PacketTooShort, h, p)
  else
    '(first_byte, p) ← NetParser.u8 p;
    let ver := Z.shiftr first_byte 4 in
    let hlen := Z.land first_byte 15 in
    '(tos, p) ← NetParser.u8 p;
    '(len, p) ← NetParser.u16 p;
    '(id, p) ← NetParser.u16 p;
    '(fo_val, p) ← NetParser.u16 p;
    let df := negb (Z.land fo_val 16384 =? 0) in
    let mf := negb (Z.land fo_val 8192 =? 0) in
    let offset := Z.land fo_val 8191 in
    '(ttl, p) ← NetParser.u8 p;
    '(proto, p) ← NetParser.u8 p;
    '(cksum, p) ← NetParser.u16 p;
    '(src, p) ← NetParser.u32 p;
    '(dst, p) ← NetParser.u32 p;
    let h := mk ver hlen tos len id df mf offset ttl proto cksum src dst in
    if data_size <? 4 * hlen then Ok (PacketTooShort, h, p)
    else if negb (ver =? 4) then Ok (WrongIPVersion, h, p)
    else if hlen <? 5 then Ok (HeaderTooShort, h, p)
    else if negb (data_size =? len) then Ok (TruncatedPacket, h, p)
    else
      p ← NetParser.remove_prefix p (hlen * 4 - LENGTH);
      if NetParser.error p then Ok (NetParser.get_error p, h, p)
      else
        let check := InternetChecksum.make 0 in
        let check := InternetChecksum.add check
          (ztake (4 * hlen) (Buffer.str original_serialized_version)) in
        v ← InternetChecksum.value check;
        if negb (v =? 0) then Ok (BadChecksum, h, p) else Ok (NoError, h, p).

Definition serialize (h : t) : outcome (list byte) :=
  if negb (ver h =? 4) then Throw (runtime_error "wrong IP version")
  else if 4 * hlen h <? LENGTH then Throw (runtime_error "IP header too short")
  else
    let ret := [] in
    let first_byte := u8 (Z.lor (Z.shiftl (ver h) 4) (Z.land (hlen h) 15)) in
    let ret := NetUnparser.u8 ret first_byte in
    let ret := NetUnparser.u8 ret (tos h) in
    let ret := NetUnparser.u16 ret (len h) in
    let ret := NetUnparser.u16 ret (id h) in
    let fo_val := Z.lor (Z.lor (if df h then 16384 else 0) (if mf h then 8192 else 0))
                    (Z.land (offset h) 8191) in
    let ret := NetUnparser.u16 ret fo_val in
    let ret := NetUnparser.u8 ret (ttl h) in
    let ret := NetUnparser.u8 ret (proto h) in
    let ret := NetUnparser.u16 ret (cksum h) in
    let ret := NetUnparser.u32 ret (src h) in
    let ret := NetUnparser.u32 ret (dst h) in
    Ok (str_resize ret (4 * hlen h)).

Definition payload_length (h : t) : Z := u16 (len h - 4 * hlen h).

Definition pseudo_cksum (h : t) : Z :=
  let pcksum := u32 (Z.shiftr (src h) 16 + Z.land (src h) 65535) in
  let pcksum := u32 (pcksum + u32 (Z.shiftr (dst h) 16 + Z.land (dst h) 65535)) in
  let pcksum := u32 (pcksum + proto h) in
  u32 (pcksum + payload_length h).

(** Every field is in the range of its type or bit field. *)
Definition ok (h : t) : Prop :=
  ver h = 4 /\ 5 <= hlen h <= 15 /\ 0 <= tos h < two8 /\ 0 <= len h < two16 /\
  0 <= id h < two16 /\ 0 <= offset h < 8192 /\ 0 <= ttl h < two8 /\ 0 <= proto h < two8 /\
  0 <= cksum h < two16 /\ 0 <= src h < two32 /\ 0 <= dst h < two32.

End IPv4Header.

(** ** IPv4Datagram *)

Module IPv4Datagram.

Record t := mk {
  _header : IPv4Header.t;
  _payload : BufferList.t
}.

Definition make : t := mk IPv4Header.make [].
Definition header (d : t) : IPv4Header.t := _header d.
Definition payload (d : t) : BufferList.t := _payload d.
Definition set_header (d : t) (h : IPv4Header.t) : t := mk h (_payload d).

(** [parse]: the result of the header's own [parse] is dropped, as in the source. *)
Definition parse (d : t) (buffer : Buffer.t) : outcome (ParseResult * t) :=
  let p := NetParser.make buffer in
  '(_, h, p) ← IPv4Header.parse (_header d) p;
  let d := mk h (BufferList.of_buffer (NetParser.buffer p)) in
  if negb (BufferList.size (_payload d) =? IPv4Header.payload_length (_header d))
  then Ok (PacketTooShort, d)
  else Ok (NetParser.get_error p, d).

Definition serialize (d : t) : outcome BufferList.t :=
  if negb (BufferList.size (_payload d) =? IPv4Header.payload_length (_header d))
  then Throw (runtime_error "IPv4Datagram::serialize: payload is wrong size")
  else
    let header_out := IPv4Header.set_cksum (_header d) 0 in
    header_zero_checksum ← IPv4Header.serialize header_out;
    let check := InternetChecksum.make 0 in
    let check := InternetChecksum.add check header_zero_checksum in
    v ← InternetChecksum.value check;
    let header_out := IPv4Header.set_cksum header_out v in
    s ← IPv4Header.serialize header_out;
    Ok (BufferList.append (BufferList.append [] (BufferList.of_string s)) (_payload d)).

(** A datagram whose fields fit and whose length field is right. *)
Definition ok (d : t) : Prop :=
  IPv4Header.ok (_header d) /\ BufferList.wf (_payload d) /\
  IPv4Header.len (_header d) =
    4 * IPv4Header.hlen (_header d) + zlen (BufferList.concatenate (_payload d)).

End IPv4Datagram.

(** ** Lemmas: the header *)

(** The header whose fields stand at their offsets in [b]. *)
Definition ip_header_of (b : list byte) : IPv4Header.t :=
  IPv4Header.mk (Z.shiftr (field b 0 1) 4) (Z.land (field b 0 1) 15) (field b 1 1) (field b 2 2)
    (field b 4 2) (negb (Z.land (field b 6 2) 16384 =? 0)) (negb (Z.land (field b 6 2) 8192 =? 0))
    (Z.land (field b 6 2) 8191) (field b 8 1) (field b 9 1) (field b 10 2) (field b 12 4) (field b 16 4).

(** What [IPv4Header::parse] answers for a byte string. *)
Definition ip_verdict (b : list byte) : ParseResult :=
  let h := ip_header_of b in
  if zlen b <? 20 then PacketTooShort
  else if zlen b <? 4 * IPv4Header.hlen h then PacketTooShort
  else if negb (IPv4Header.ver h =? 4) then WrongIPVersion
  else if IPv4Header.hlen h <? 5 then HeaderTooShort
  else if negb (zlen b =? IPv4Header.len h) then TruncatedPacket
  else match InternetChecksum.value (InternetChecksum.add (InternetChecksum.make 0)
               (ztake (4 * IPv4Header.hlen h) b)) with
       | Ok 0 => NoError
       | _ => BadChecksum
       end.

(** Where the parser stands afterwards. *)
Definition ip_consumed (b : list byte) : Z :=
  if zlen b <? 20 then 0
  else match ip_verdict b with
       | NoError | BadChecksum => 4 * IPv4Header.hlen (ip_header_of b)
       | _ => 20
       end.

Lemma ip_hlen_range b : 0 <= IPv4Header.hlen (ip_header_of b) < 16.
Proof.
  simpl. change 15 with (Z.ones 4). rewrite Z.land_ones by lia.
  apply Z.mod_pos_bound. lia.
Qed.

Lemma ip_header_parse_spec h buf :
  Buffer.wf buf -> zlen (Buffer.str buf) < two16 ->
  exists p, IPv4Header.parse h (NetParser.make buf) =
      Ok (ip_verdict (Buffer.str buf),
          if zlen (Buffer.str buf) <? 20 then h else ip_header_of (Buffer.str buf), p) /\
    parsed (Buffer.str buf) (ip_consumed (Buffer.str buf)) p.
Proof.
  intros Hb Hlen. pose proof (parsed_make buf Hb) as Hp. unfold IPv4Header.parse, Buffer.size.
  change (NetParser.buffer (NetParser.make buf)) with buf. unfold IPv4Header.LENGTH.
  unfold ip_consumed. destruct (Z.ltb_spec (zlen (Buffer.str buf)) 20) as [Hs|Hs].
  { unfold ip_verdict. ztests. eauto. }
  do 10 parse_next. rewrite Hv, Hv0, Hv1, Hv2, Hv3, Hv4, Hv5, Hv6, Hv7, Hv8 by lia.
  fold (ip_header_of (Buffer.str buf)). pose proof (ip_hlen_range (Buffer.str buf)) as Hh.
  change (Z.land (field (Buffer.str buf) 0 1) 15) with (IPv4Header.hlen (ip_header_of (Buffer.str buf))).
  change (Z.shiftr (field (Buffer.str buf) 0 1) 4) with (IPv4Header.ver (ip_header_of (Buffer.str buf))).
  change (field (Buffer.str buf) 2 2) with (IPv4Header.len (ip_header_of (Buffer.str buf))).
  unfold ip_verdict. set (hd := ip_header_of (Buffer.str buf)) in *.
  destruct (Z.ltb_spec (zlen (Buffer.str buf)) 20); [lia|].
  destruct (Z.ltb_spec (zlen (Buffer.str buf)) (4 * IPv4Header.hlen hd)); [eauto|].
  destruct (negb (IPv4Header.ver hd =? 4)); [eauto|].
  destruct (Z.ltb_spec (IPv4Header.hlen hd) 5); [eauto|].
  destruct (negb (zlen (Buffer.str buf) =? IPv4Header.len hd)); [eauto|].
  destruct (remove_step _ _ (IPv4Header.hlen hd * 4 - 20) _ Hq0) as (p' & -> & Hp'); [lia|].
  replace (20 + (IPv4Header.hlen hd * 4 - 20)) with (4 * IPv4Header.hlen hd) in Hp' by lia.
  cbn [mbind outcome_bind]. unfold NetParser.error. rewrite (parsed_error _ _ _ Hp').
  destruct (Z.leb_spec (4 * IPv4Header.hlen hd) (zlen (Buffer.str buf))); [|lia]. simpl negb. cbv iota.
  pose proof (word_sum_bound (ztake (4 * IPv4Header.hlen hd) (Buffer.str buf))) as [Hw _].
  rewrite zlen_ztake in Hw. rewrite checksum_of by lia. cbn [mbind outcome_bind].
  destruct (65535 - _) eqn:E; simpl; eauto.
Qed.

(** Flag bits: testing against a power of two is testing the bit. *)
Lemma land_pow2 x k : 0 <= k -> (Z.land x (2 ^ k) =? 0) = negb (Z.testbit x k).
Proof.
  intros Hk. destruct (Z.testbit x k) eqn:E; simpl.
  - apply Z.eqb_neq. intros H. apply (f_equal (fun z => Z.testbit z k)) in H.
    rewrite Z.land_spec, E, Z.pow2_bits_true, Z.bits_0 in H by done. done.
  - apply Z.eqb_eq. apply Z.bits_inj'. intros i Hi.
    rewrite Z.land_spec, Z.pow2_bits_eqb, Z.bits_0 by done.
    destruct (Z.eqb_spec k i) as [->|]; [by rewrite E|apply andb_false_r].
Qed.

Lemma testbit_small x n k : 0 <= x < 2 ^ n -> n <= k -> 0 <= n -> Z.testbit x k = false.
Proof.
  intros Hx Hk Hn. destruct (decide (x = 0)) as [->|]; [apply Z.bits_0|].
  apply Z.bits_above_log2; [lia|]. apply Z.log2_lt_pow2; [lia|].
  eapply Z.lt_le_trans; [apply Hx|]. apply Z.pow_le_mono_r; lia.
Qed.

(** The flags-and-offset field. *)
Definition fo_field (df mf : bool) (offset : Z) : Z :=
  Z.lor (Z.lor (if df then 16384 else 0) (if mf then 8192 else 0)) (Z.land offset 8191).

Lemma fo_field_spec df mf offset :
  0 <= offset < 8192 ->
  0 <= fo_field df mf offset < 65536 /\
  negb (Z.land (fo_field df mf offset) 16384 =? 0) = df /\
  negb (Z.land (fo_field df mf offset) 8192 =? 0) = mf /\
  Z.land (fo_field df mf offset) 8191 = offset.
Proof.
  intros Ho. unfold fo_field.
  assert (Hoff : Z.land offset 8191 = offset).
  { change 8191 with (Z.ones 13). rewrite Z.land_ones by lia. apply Z.mod_small. lia. }
  rewrite Hoff.
  assert (Hb : forall k, 13 <= k -> Z.testbit offset k = false)
    by (intros; eapply (testbit_small _ 13); lia).
  assert (Hlow : forall c, (c = 0 \/ c = 8192 \/ c = 16384 \/ c = 24576) ->
    Z.land (Z.lor c offset) 8191 = offset /\ 0 <= Z.lor c offset < 65536).
  { intros c Hc. split.
    - rewrite Z.land_lor_distr_l, Hoff.
      destruct Hc as [->|[->|[->| ->]]]; exact (Z.lor_0_l offset).
    - split; [apply Z.lor_nonneg; lia|].
      change 65536 with (2 ^ 16). destruct (decide (Z.lor c offset = 0)) as [->|Hne]; [lia|].
      assert (0 <= Z.lor c offset) by (apply Z.lor_nonneg; lia).
      apply Z.log2_lt_pow2; [lia|].
      rewrite Z.log2_lor by lia. apply Z.max_lub_lt.
      + destruct Hc as [->|[->|[->| ->]]]; reflexivity.
      + destruct (decide (offset = 0)) as [->|]; [reflexivity|].
        apply Z.log2_lt_pow2; [lia|]. change (2 ^ 16) with 65536. lia. }
  assert (Hbit : forall k, 13 <= k -> forall c, Z.testbit (Z.lor c offset) k = Z.testbit c k)
    by (intros k Hk c; rewrite Z.lor_spec, Hb by done; apply orb_false_r).
  destruct (Hlow (Z.lor (if df then 16384 else 0) (if mf then 8192 else 0))) as [H1 H2].
  { destruct df, mf; vm_compute; tauto. }
  split; [done|]. change 16384 with (2 ^ 14). change 8192 with (2 ^ 13).
  rewrite !land_pow2, !negb_involutive, !Hbit by lia.
  split; [by destruct df, mf|]. split; [by destruct df, mf|]. done.
Qed.

Lemma first_byte_spec hlen :
  0 <= hlen < 16 ->
  u8 (Z.lor (Z.shiftl 4 4) (Z.land hlen 15)) = 64 + hlen /\
  Z.shiftr (64 + hlen) 4 = 4 /\ Z.land (64 + hlen) 15 = hlen.
Proof.
  intros H. assert (Hc : hlen = 0 \/ hlen = 1 \/ hlen = 2 \/ hlen = 3 \/ hlen = 4 \/ hlen = 5 \/ hlen = 6 \/
    hlen = 7 \/ hlen = 8 \/ hlen = 9 \/ hlen = 10 \/ hlen = 11 \/ hlen = 12 \/ hlen = 13 \/ hlen = 14 \/
    hlen = 15) by lia.
  repeat (destruct Hc as [->|Hc]; [by vm_compute|]). subst. by vm_compute.
Qed.

(** The bytes before the checksum field and after it. *)
Definition ip_front (h : IPv4Header.t) : list byte :=
  be_encode 1 (64 + IPv4Header.hlen h) ++ be_encode 1 (IPv4Header.tos h) ++
  be_encode 2 (IPv4Header.len h) ++ be_encode 2 (IPv4Header.id h) ++
  be_encode 2 (fo_field (IPv4Header.df h) (IPv4Header.mf h) (IPv4Header.offset h)) ++
  be_encode 1 (IPv4Header.ttl h) ++ be_encode 1 (IPv4Header.proto h).

Definition ip_back (h : IPv4Header.t) : list byte :=
  be_encode 4 (IPv4Header.src h) ++ be_encode 4 (IPv4Header.dst h) ++
  replicate (Z.to_nat (4 * IPv4Header.hlen h - 20)) Byte.x00.

Lemma ip_front_len h : zlen (ip_front h) = 10.
Proof. done. Qed.

Lemma ip_back_len h : 5 <= IPv4Header.hlen h -> zlen (ip_back h) = 4 * IPv4Header.hlen h - 12.
Proof.
  intros. unfold ip_back. rewrite !zlen_app, !be_encode_length, length_replicate. lia.
Qed.

Lemma ip_serialize_spec h :
  IPv4Header.ver h = 4 -> 5 <= IPv4Header.hlen h <= 15 ->
  IPv4Header.serialize h = Ok (ip_front h ++ be_encode 2 (IPv4Header.cksum h) ++ ip_back h).
Proof.
  intros Hv Hh. unfold IPv4Header.serialize, IPv4Header.LENGTH. rewrite Hv.
  destruct (Z.ltb_spec (4 * IPv4Header.hlen h) 20); [lia|]. simpl negb. cbv iota. f_equal.
  destruct (first_byte_spec (IPv4Header.hlen h)) as [-> _]; [lia|].
  unfold str_resize, NetUnparser.u16, NetUnparser.u32, NetUnparser.u8, NetUnparser._unparse_int.
  rewrite ztake_ge; [|rewrite !zlen_app, !be_encode_length; simpl; lia].
  unfold ip_front, ip_back. rewrite <- !app_assoc. simpl app at 1. by do 10 f_equal.
Qed.

Lemma ip_header_of_bytes h t :
  IPv4Header.ok h ->
  ip_header_of (ip_front h ++ be_encode 2 (IPv4Header.cksum h) ++ ip_back h ++ t) = h.
Proof.
  intros (Hv & Hh & Htos & Hlen & Hid & Ho & Httl & Hpr & Hc & Hs & Hd).
  destruct (fo_field_spec (IPv4Header.df h) (IPv4Header.mf h) (IPv4Header.offset h) Ho) as
    (Hfr & Hdf & Hmf & Hoff).
  destruct (first_byte_spec (IPv4Header.hlen h)) as (_ & Hb1 & Hb2); [lia|].
  unfold ip_header_of, ip_front, ip_back. rewrite <- !app_assoc. read_fields.
  rewrite Hb1, Hb2, Hdf, Hmf, Hoff, <- Hv. by destruct h.
Qed.

Lemma ip_header_of_front h h' :
  ip_front (IPv4Header.set_cksum h h') = ip_front h /\ ip_back (IPv4Header.set_cksum h h') = ip_back h.
Proof. done. Qed.

(** [serialize] writes the header with its checksum, then the payload. *)
Lemma datagram_serialize_spec d :
  IPv4Datagram.ok d ->
  exists v out, 0 <= v < two16 /\ IPv4Datagram.serialize d = Ok out /\
    let h := IPv4Datagram.header d in
    BufferList.concatenate out =
      ip_front h ++ be_encode 2 v ++ ip_back h ++ BufferList.concatenate (IPv4Datagram.payload d) /\
    InternetChecksum.value (InternetChecksum.add (InternetChecksum.make 0)
      (ip_front h ++ be_encode 2 v ++ ip_back h)) = Ok 0.
Proof.
  intros (Hh & Hp & Hlen). destruct d as [h pl]. unfold IPv4Datagram.header, IPv4Datagram.payload.
  cbn [IPv4Datagram._header IPv4Datagram._payload] in *.
  pose proof Hh as (Hv & Hhl & _ & Hl & _).
  destruct (checksum_insert 0 (ip_front h) (ip_back h)) as (Hvr & H0 & H1); [done|lia| |].
  { rewrite ip_front_len, ip_back_len by lia. lia. }
  set (v := 65535 - _) in *. unfold IPv4Datagram.serialize.
  cbn [IPv4Datagram._header IPv4Datagram._payload].
  rewrite bufferlist_size by apply Hp. unfold IPv4Header.payload_length. rewrite Hlen.
  rewrite u16_small by lia.
  replace (4 * _ + _ - 4 * _) with (zlen (BufferList.concatenate pl)) by lia.
  rewrite Z.eqb_refl. simpl negb. cbv iota.
  rewrite ip_serialize_spec by done. cbn [mbind outcome_bind].
  change (ip_front (IPv4Header.set_cksum h 0)) with (ip_front h).
  change (ip_back (IPv4Header.set_cksum h 0)) with (ip_back h).
  change (IPv4Header.cksum (IPv4Header.set_cksum h 0)) with 0. rewrite H0. cbn [mbind outcome_bind].
  rewrite ip_serialize_spec by done. cbn [mbind outcome_bind].
  change (ip_front (IPv4Header.set_cksum (IPv4Header.set_cksum h 0) v)) with (ip_front h).
  change (ip_back (IPv4Header.set_cksum (IPv4Header.set_cksum h 0) v)) with (ip_back h).
  change (IPv4Header.cksum (IPv4Header.set_cksum (IPv4Header.set_cksum h 0) v)) with v.
  eexists v, _. split; [done|]. split; [done|]. split; [|done].
  rewrite !bufferlist_concatenate_app, bufferlist_of_string;
    [|rewrite !zlen_app, ip_front_len, ip_back_len, be_encode_length by lia; lia].
  change (BufferList.concatenate []) with (@nil byte). simpl app at 1. rewrite <- ?app_assoc. done.
Qed.

Lemma ip_verdict_lengths b :
  ip_verdict b = BadChecksum \/ ip_verdict b = WrongIPVersion ->
  20 <= zlen b /\ 4 * IPv4Header.hlen (ip_header_of b) <= zlen b /\
  (ip_verdict b = BadChecksum -> IPv4Header.len (ip_header_of b) = zlen b).
Proof.
  unfold ip_verdict. destruct (Z.ltb_spec (zlen b) 20); [by intros []|].
  destruct (Z.ltb_spec (zlen b) (4 * IPv4Header.hlen (ip_header_of b))); [by intros []|].
  intros Hv. split; [done|]. split; [done|]. clear Hv.
  destruct (IPv4Header.ver (ip_header_of b) =? 4); [|intros E; discriminate E]. change (negb true) with false. cbv iota.
  destruct (IPv4Header.hlen (ip_header_of b) <? 5); [intros E; discriminate E|].
  destruct (Z.eqb_spec (zlen b) (IPv4Header.len (ip_header_of b))); [lia|intros E; discriminate E].
Qed.

(** Parsing a datagram always returns. *)
Lemma datagram_parse_total d buf :
  Buffer.wf buf -> zlen (Buffer.str buf) < two16 ->
  exists r d', IPv4Datagram.parse d buf = Ok (r, d').
Proof.
  intros Hb Hl. destruct (ip_header_parse_spec (IPv4Datagram._header d) buf Hb Hl) as (p & Hp & _).
  unfold IPv4Datagram.parse. rewrite Hp. cbn [mbind outcome_bind].
  destruct (negb _); eauto.
Qed.

(** Any buffer with the serialized bytes reads back. *)
Lemma datagram_reads_back d d0 :
  IPv4Datagram.ok d ->
  exists v out, 0 <= v < two16 /\ IPv4Datagram.serialize d = Ok out /\
    zlen (BufferList.concatenate out) = IPv4Header.len (IPv4Datagram.header d) /\
    ip_verdict (BufferList.concatenate out) = NoError /\
    forall buf, Buffer.wf buf -> Buffer.str buf = BufferList.concatenate out ->
      exists b', IPv4Datagram.parse d0 buf =
          Ok (NoError, IPv4Datagram.mk (IPv4Header.set_cksum (IPv4Datagram.header d) v) [b']) /\
        Buffer.wf b' /\ Buffer.str b' = BufferList.concatenate (IPv4Datagram.payload d).
Proof.
  intros Hd. destruct (datagram_serialize_spec d Hd) as (v & out & Hv & Hout & Hbytes & Hck).
  destruct Hd as (Hh & Hwf & Hlen). destruct d as [h pl].
  unfold IPv4Datagram.header, IPv4Datagram.payload in *.
  cbn [IPv4Datagram._header IPv4Datagram._payload] in *. pose proof Hh as (Hver & Hhl & _ & Hl & _).
  set (b := BufferList.concatenate out) in *.
  assert (Hbl : zlen b = IPv4Header.len h).
  { rewrite Hbytes, !zlen_app, ip_front_len, be_encode_length, ip_back_len by lia. lia. }
  assert (Hhb : ip_header_of b = IPv4Header.set_cksum h v).
  { rewrite Hbytes. apply (ip_header_of_bytes (IPv4Header.set_cksum h v)).
    unfold IPv4Header.ok in *. simpl. tauto. }
  assert (Hfront : ip_front h ++ be_encode 2 v ++ ip_back h = ztake (4 * IPv4Header.hlen h) b).
  { rewrite Hbytes, !app_assoc. symmetry. apply ztake_app_exact.
    rewrite !zlen_app, ip_front_len, be_encode_length, ip_back_len by lia. lia. }
  assert (Hverd : ip_verdict b = NoError).
  { unfold ip_verdict. rewrite Hhb. simpl. rewrite Hver, Hbl, <- Hfront, Hck.
    ztests; done. }
  exists v, out. do 4 (split; [done|]). intros buf Hbw Hstr. fold b in Hstr.
  destruct (ip_header_parse_spec (IPv4Datagram._header d0) buf) as (p & Hparse & Hp);
    [done|rewrite Hstr; lia|].
  rewrite Hstr, Hverd, Hhb in Hparse. rewrite Hstr in Hp. unfold ip_consumed in Hp.
  rewrite Hverd, Hhb in Hp. simpl in Hp.
  destruct (Z.ltb_spec (zlen b) 20); [lia|].
  assert (Herr := parsed_error _ _ _ Hp). destruct Hp as (_ & Hready & Hp).
  destruct (Z.leb_spec (4 * IPv4Header.hlen h) (zlen b)); [|lia]. destruct Hp as [_ Hrest].
  assert (Hpb : Buffer.str (NetParser.buffer p) = BufferList.concatenate pl).
  { unfold NetParser.rest in Hrest. unfold NetParser.buffer. rewrite Hrest, Hbytes, !app_assoc.
    apply zdrop_app_exact.
    rewrite !zlen_app, ip_front_len, be_encode_length, ip_back_len by lia. lia. }
  assert (Hpl : BufferList.concatenate (BufferList.of_buffer (NetParser.buffer p)) =
                BufferList.concatenate pl).
  { unfold BufferList.of_buffer. rewrite bufferlist_concatenate_cons.
    change (BufferList.concatenate []) with (@nil byte). by rewrite app_nil_r. }
  exists (NetParser.buffer p). split; [|split; [exact Hready|done]].
  unfold IPv4Datagram.parse. rewrite Hparse.
  cbn [mbind outcome_bind IPv4Datagram._header IPv4Datagram._payload].
  rewrite bufferlist_size by (rewrite Hpl; apply Hwf). rewrite Hpl.
  unfold IPv4Header.payload_length. simpl. rewrite Hlen, u16_small by lia.
  replace (4 * _ + _ - 4 * _) with (zlen (BufferList.concatenate pl)) by lia.
  rewrite Z.eqb_refl. simpl. rewrite Herr. done.
Qed.

(** The pseudo-header sum a segment's checksum starts from is the sum of the 16-bit words
    of the standard's pseudo-header (source, destination, zero, protocol, payload length),
    and it is small enough for the checksum not to overflow. *)
Lemma pseudo_cksum_spec h :
  IPv4Header.ok h ->
  IPv4Header.pseudo_cksum h =
    word_sum false (be_encode 4 (IPv4Header.src h) ++ be_encode 4 (IPv4Header.dst h) ++
      be_encode 1 0 ++ be_encode 1 (IPv4Header.proto h) ++
      be_encode 2 (IPv4Header.payload_length h)) /\
  0 <= IPv4Header.pseudo_cksum h < two31.
Proof.
  intros Hh. destruct Hh as (_ & _ & _ & _ & _ & _ & _ & Hp & _ & Hs & Hd).
  assert (Hpl : 0 <= IPv4Header.payload_length h < 65536) by apply u16_range.
  assert (Hhi : forall x, 0 <= x < two32 ->
    Z.shiftr x 16 + Z.land x 65535 = x / 65536 + x mod 65536 /\ 0 <= x / 65536 < 65536 /\ 0 <= x mod 65536 < 65536).
  { intros x Hx. change 65535 with (Z.ones 16). rewrite Z.land_ones, Z.shiftr_div_pow2 by lia.
    change (2 ^ 16) with 65536. split; [done|]. mlia. }
  destruct (Hhi _ Hs) as (E1 & R1 & R2). destruct (Hhi _ Hd) as (E2 & R3 & R4).
  unfold IPv4Header.pseudo_cksum. rewrite E1, E2.
  rewrite (u32_small (IPv4Header.src h / 65536 + _)) by lia.
  rewrite (u32_small (IPv4Header.dst h / 65536 + _)) by lia.
  rewrite (u32_small (_ + (IPv4Header.dst h / 65536 + _))) by lia.
  rewrite (u32_small (_ + IPv4Header.proto h)) by lia. rewrite u32_small by lia.
  split; [|lia]. rewrite !word_sum_app. unfold odd_len. rewrite !be_encode_length.
  cbn [Nat.odd Nat.even xorb negb be_encode word_sum]. rewrite !be_encode_byte by lia.
  change (Z.of_nat 3 * 8) with 24. change (Z.of_nat 2 * 8) with 16. change (Z.of_nat 1 * 8) with 8.
  change (Z.of_nat 0 * 8) with 0. change (2 ^ 0) with 1. change (2 ^ 8) with 256.
  change (2 ^ 16) with 65536. change (2 ^ 24) with 16777216. rewrite !Z.div_1_r.
  clear E1 E2 R1 R2 R3 R4 Hhi. mlia.
Qed.

(** ** Properties *)

(** Parsing an IPv4 header is total and decides every case in the order of the checks:
    too short for the fixed part, too short for the claimed header, wrong version, header
    length below five words, total length different from the data, header checksum not
    zero; otherwise the header is accepted, its fields are those at the standard's offsets
    and the parser stands at the payload. *)
Theorem ipv4_header_parse_correct (h : IPv4Header.t) (buf : Buffer.t)
  (Hbuf : Buffer.wf buf) (Hlen : zlen (Buffer.str buf) < two16) :
  exists h' p, IPv4Header.parse h (NetParser.make buf) = Ok (ip_verdict (Buffer.str buf), h', p) /\
    (20 <= zlen (Buffer.str buf) -> h' = ip_header_of (Buffer.str buf)) /\
    (zlen (Buffer.str buf) < 20 -> h' = h) /\
    (ip_verdict (Buffer.str buf) = NoError ->
       NetParser.rest p = zdrop (4 * IPv4Header.hlen h') (Buffer.str buf)).
Proof.
  destruct (ip_header_parse_spec h buf Hbuf Hlen) as (p & -> & Hp). eexists _, p. split; [done|].
  destruct (Z.ltb_spec (zlen (Buffer.str buf)) 20) as [Hs|Hs].
  { split; [lia|]. split; [done|]. unfold ip_verdict. ztests. done. }
  split; [done|]. split; [lia|]. intros Hv. unfold ip_consumed in Hp. rewrite Hv in Hp.
  destruct (Z.ltb_spec (zlen (Buffer.str buf)) 20); [lia|]. destruct Hp as (_ & _ & Hp).
  destruct (Z.leb_spec (4 * IPv4Header.hlen (ip_header_of (Buffer.str buf))) (zlen (Buffer.str buf)));
    [apply Hp|].
  unfold ip_verdict in Hv. destruct (Z.ltb_spec (zlen (Buffer.str buf)) 20); [lia|].
  destruct (Z.ltb_spec (zlen (Buffer.str buf)) (4 * IPv4Header.hlen (ip_header_of (Buffer.str buf))));
    [done|lia].
Qed.

Lemma ipv4_header_parse_correct_witness :
  exists h' p, IPv4Header.parse IPv4Header.make (NetParser.make (Buffer.of_string (replicate 20 Byte.x45)))
    = Ok (TruncatedPacket, h', p) /\ IPv4Header.hlen h' = 5.
Proof.
  destruct (ipv4_header_parse_correct IPv4Header.make (Buffer.of_string (replicate 20 Byte.x45)))
    as (h' & p & E & Hh & _).
  - apply buffer_of_string_wf. simpl. lia.
  - vm_compute. reflexivity.
  - exists h', p. split; [rewrite E; vm_compute; reflexivity|].
    rewrite Hh; [|vm_compute; congruence]. vm_compute. reflexivity.
Defined.

(** Round trip of a datagram: serializing a datagram with a right length field and parsing
    the bytes gives [NoError], the same header with the checksum filled in (one that verifies)
    and the same payload. *)
Theorem datagram_roundtrip (d d0 : IPv4Datagram.t) (Hd : IPv4Datagram.ok d) :
  exists v out d', IPv4Datagram.serialize d = Ok out /\
    IPv4Datagram.parse d0 (Buffer.of_string (BufferList.concatenate out)) = Ok (NoError, d') /\
    ip_verdict (BufferList.concatenate out) = NoError /\
    IPv4Datagram.header d' = IPv4Header.set_cksum (IPv4Datagram.header d) v /\
    BufferList.concatenate (IPv4Datagram.payload d') = BufferList.concatenate (IPv4Datagram.payload d).
Proof.
  destruct (datagram_reads_back d d0 Hd) as (v & out & Hv & Hout & Hlen & Hverd & Hread).
  destruct Hd as ((_ & _ & _ & Hl & _) & _ & _). change (IPv4Datagram._header d) with (IPv4Datagram.header d) in Hl.
  destruct (Hread (Buffer.of_string (BufferList.concatenate out))) as (b' & Hp & _ & Hb');
    [apply buffer_of_string_wf; lia|apply buffer_of_string_str; lia|].
  eexists v, out, _. split; [done|]. split; [exact Hp|]. split; [done|]. split; [done|].
  unfold IPv4Datagram.payload at 1. simpl. rewrite bufferlist_concatenate_cons.
  change (BufferList.concatenate []) with (@nil byte). by rewrite app_nil_r.
Qed.

(** A datagram with three bytes of payload in two buffers. *)
Definition sample_datagram : IPv4Datagram.t :=
  IPv4Datagram.mk (IPv4Header.set_len IPv4Header.make 23)
    [Buffer.of_string [Byte.x61]; Buffer.of_string [Byte.x62; Byte.x63]].

Lemma sample_datagram_ok : IPv4Datagram.ok sample_datagram.
Proof.
  split; [vm_compute; intuition congruence|]. split; [|vm_compute; reflexivity].
  split; [repeat constructor; vm_compute; congruence|vm_compute; reflexivity].
Qed.

Lemma datagram_roundtrip_witness :
  exists v out d', IPv4Datagram.serialize sample_datagram = Ok out /\
    IPv4Datagram.parse IPv4Datagram.make (Buffer.of_string (BufferList.concatenate out)) = Ok (NoError, d') /\
    IPv4Datagram.header d' = IPv4Header.set_cksum (IPv4Datagram.header sample_datagram) v.
Proof.
  destruct (datagram_roundtrip sample_datagram IPv4Datagram.make sample_datagram_ok) as
    (v & out & d' & H1 & H2 & _ & H3 & _).
  exists v, out, d'. auto.
Defined.

(** [IPv4Datagram::parse] does not look at the verdict of [IPv4Header::parse]: a datagram
    whose header checksum is wrong is accepted with [NoError], and so is one of another IP
    version with a 20-byte header whose length field is right. *)
Theorem datagram_parse_ignores_verdict (d : IPv4Datagram.t) (buf : Buffer.t)
  (Hbuf : Buffer.wf buf) (Hlen : zlen (Buffer.str buf) < two16)
  (Hverdict : ip_verdict (Buffer.str buf) = BadChecksum \/
     (ip_verdict (Buffer.str buf) = WrongIPVersion /\
      IPv4Header.hlen (ip_header_of (Buffer.str buf)) = 5 /\
      IPv4Header.len (ip_header_of (Buffer.str buf)) = zlen (Buffer.str buf))) :
  exists d', IPv4Datagram.parse d buf = Ok (NoError, d') /\
    IPv4Datagram.header d' = ip_header_of (Buffer.str buf).
Proof.
  destruct (ip_header_parse_spec (IPv4Datagram._header d) buf Hbuf Hlen) as (p & Hparse & Hp).
  set (b := Buffer.str buf) in *. set (h := ip_header_of b) in *.
  assert (Hfacts : 20 <= zlen b /\ ip_consumed b = 4 * IPv4Header.hlen h /\
    4 * IPv4Header.hlen h <= zlen b /\ IPv4Header.len h = zlen b).
  { destruct (ip_verdict_lengths b ltac:(destruct Hverdict as [?|[? _]]; auto)) as (H1 & H2 & H3). fold h in H2, H3.
    unfold ip_consumed. destruct (Z.ltb_spec (zlen b) 20); [lia|].
    destruct Hverdict as [Hv|(Hv & Hh & Hl)]; rewrite Hv; split_and!; (done || lia || auto). }
  destruct Hfacts as (H20 & Hcons & Hfit & Hl). rewrite Hcons in Hp.
  assert (Herr := parsed_error _ _ _ Hp). destruct Hp as (_ & _ & Hp).
  destruct (Z.leb_spec (4 * IPv4Header.hlen h) (zlen b)); [|lia]. destruct Hp as [_ Hrest].
  destruct (Z.ltb_spec (zlen b) 20); [lia|].
  unfold IPv4Datagram.parse. rewrite Hparse.
  cbn [mbind outcome_bind IPv4Datagram._header IPv4Datagram._payload].
  assert (Hpl : BufferList.concatenate (BufferList.of_buffer (NetParser.buffer p)) =
                zdrop (4 * IPv4Header.hlen h) b).
  { unfold BufferList.of_buffer. rewrite bufferlist_concatenate_cons.
    change (BufferList.concatenate []) with (@nil byte). by rewrite app_nil_r. }
  pose proof (ip_hlen_range b) as Hhr. fold h in Hhr.
  rewrite bufferlist_size by (rewrite Hpl, zlen_zdrop; lia). rewrite Hpl, zlen_zdrop.
  unfold IPv4Header.payload_length. rewrite Hl, u16_small by lia.
  destruct (Z.eqb_spec (zlen b - Z.max 0 (Z.min (4 * IPv4Header.hlen h) (zlen b)))
    (zlen b - 4 * IPv4Header.hlen h)); [|lia].
  simpl. rewrite Herr. eauto.
Qed.

(** A header of 20 bytes with a zero checksum field, and so a bad checksum. *)
Definition bad_checksum_packet : list byte :=
  [Byte.x45; Byte.x00; Byte.x00; Byte.x14] ++ replicate 16 Byte.x00.

Lemma datagram_parse_ignores_verdict_witness :
  exists d', IPv4Datagram.parse IPv4Datagram.make (Buffer.of_string bad_checksum_packet) = Ok (NoError, d') /\
    IPv4Datagram.header d' = ip_header_of bad_checksum_packet.
Proof.
  apply (datagram_parse_ignores_verdict IPv4Datagram.make (Buffer.of_string bad_checksum_packet)).
  - apply buffer_of_string_wf. vm_compute. reflexivity.
  - vm_compute. reflexivity.
  - left. vm_compute. reflexivity.
Defined.
