(* ===== verification/EtherWire.v ===== *)
(** * EtherWire.v: Ethernet frames and ARP messages on the wire

    Models [libsponge/tcp_helpers/ethernet_header.hh], [ethernet_header.cc],
    [ethernet_frame.hh], [ethernet_frame.cc], [arp_message.hh] and [arp_message.cc], less the
    functions that print them. *)

From S2P Require Import Prelude Buffers Parsing.

(** ** Ethernet addresses

    [std::array<uint8_t, 6>]: six integers in the range of a byte. *)

Definition EthernetAddress : Type := list Z.

Definition ETHERNET_BROADCAST : EthernetAddress := [255; 255; 255; 255; 255; 255].
Definition EMPTY_ADDRESS : EthernetAddress := [0; 0; 0; 0; 0; 0].

Definition addr_ok (a : EthernetAddress) : Prop := length a = 6%nat /\ Forall (fun z => 0 <= z < two8) a.

(** The loops [for (auto &byte : address) byte = p.u8();] and [NetUnparser::u8(ret, byte);]. *)
Fixpoint read_address (n : nat) (p : NetParser.t) : outcome (EthernetAddress * NetParser.t) :=
  match n with
  | O => Ok ([], p)
  | S n' =>
      '(b, p) ← NetParser.u8 p;
      '(l, p) ← read_address n' p;
      Ok (b :: l, p)
  end.

Definition write_address (ret : list byte) (a : EthernetAddress) : list byte :=
  fold_left (fun ret b => NetUnparser.u8 ret b) a ret.

(** ** EthernetHeader *)

Module EthernetHeader.

Definition LENGTH : Z := 14.
Definition TYPE_IPv4 : Z := 2048.
Definition TYPE_ARP : Z := 2054.

Record t := mk {
  dst : EthernetAddress;
  src : EthernetAddress;
  type : Z
}.

(** A value-initialised header. *)
Definition make : t := mk EMPTY_ADDRESS EMPTY_ADDRESS 0.

Definition parse (h : t) (p : NetParser.t) : outcome (ParseResult * t * NetParser.t) :=
  if Buffer.size (NetParser.buffer p) <? LENGTH then Ok (PacketTooShort, h, p)
  else
    '(dst, p) ← read_address 6 p;
    '(src, p) ← read_address 6 p;
    '(type, p) ← NetParser.u16 p;
    Ok (NetParser.get_error p, mk dst src type, p).

Definition serialize (h : t) : list byte :=
  let ret := [] in
  let ret := write_address ret (dst h) in
  let ret := write_address ret (src h) in
  NetUnparser.u16 ret (type h).

Definition ok (h : t) : Prop := addr_ok (dst h) /\ addr_ok (src h) /\ 0 <= type h < two16.

End EthernetHeader.

(** ** EthernetFrame *)

Module EthernetFrame.

Record t := mk {
  _header : EthernetHeader.t;
  _payload : BufferList.t
}.

Definition make : t := mk EthernetHeader.make [].
Definition header (f : t) : EthernetHeader.t := _header f.
Definition payload (f : t) : BufferList.t := _payload f.

(** [parse]: the result of the header's own [parse] is dropped, as in the source. *)
Definition parse (f : t) (buffer : Buffer.t) : outcome (ParseResult * t) :=
  let p := NetParser.make buffer in
  '(_, h, p) ← EthernetHeader.parse (_header f) p;
  Ok (NetParser.get_error p, mk h (BufferList.of_buffer (NetParser.buffer p))).

Definition serialize (f : t) : BufferList.t :=
  BufferList.append (BufferList.append [] (BufferList.of_string (EthernetHeader.serialize (_header f))))
    (_payload f).

End EthernetFrame.

(** ** ARPMessage *)

Module ARPMessage.

Definition LENGTH : Z := 28.
Definition TYPE_ETHERNET : Z := 1.
Definition OPCODE_REQUEST : Z := 1.
Definition OPCODE_REPLY : Z := 2.

Record t := mk {
  hardware_type : Z;
  protocol_type : Z;
  hardware_address_size : Z;
  protocol_address_size : Z;
  opcode : Z;
  sender_ethernet_address : EthernetAddress;
  sender_ip_address : Z;
  target_ethernet_address : EthernetAddress;
  target_ip_address : Z
}.

(** A default-initialised message. *)
Definition make : t :=
  mk TYPE_ETHERNET EthernetHeader.TYPE_IPv4 6 4 0 EMPTY_ADDRESS 0 EMPTY_ADDRESS 0.

Definition supported (m : t) : bool :=
  (hardware_type m =? TYPE_ETHERNET) && (protocol_type m =? EthernetHeader.TYPE_IPv4) &&
  (hardware_address_size m =? 6) && (protocol_address_size m =? 4) &&
  ((opcode m =? OPCODE_REQUEST) || (opcode m =? OPCODE_REPLY)).

(** [parse] on a message [m]: the fields read before a failure stay assigned. *)
Definition parse (m : t) (buffer : Buffer.t) : outcome (ParseResult * t) :=
  let p := NetParser.make buffer in
  if Buffer.size (NetParser.buffer p) <? LENGTH then Ok (PacketTooShort, m)
  else
    '(hardware_type, p) ← NetParser.u16 p;
    '(protocol_type, p) ← NetParser.u16 p;
    '(hardware_address_size, p) ← NetParser.u8 p;
    '(protocol_address_size, p) ← NetParser.u8 p;
    '(opcode, p) ← NetParser.u16 p;
    let m := mk hardware_type protocol_type hardware_address_size protocol_address_size opcode
      (sender_ethernet_address m) (sender_ip_address m) (target_ethernet_address m)
      (target_ip_address m) in
    if negb (supported m) then Ok (Unsupported, m)
    else
      '(sender_ethernet_address, p) ← read_address 6 p;
      '(sender_ip_address, p) ← NetParser.u32 p;
      '(target_ethernet_address, p) ← read_address 6 p;
      '(target_ip_address, p) ← NetParser.u32 p;
      Ok (NetParser.get_error p,
          mk hardware_type protocol_type hardware_address_size protocol_address_size opcode
            sender_ethernet_address sender_ip_address target_ethernet_address target_ip_address).

Definition serialize (m : t) : outcome (list byte) :=
  if negb (supported m) then
    Throw (runtime_error "ARPMessage::serialize(): unsupported field combination (must be Ethernet/IP, and request or reply)")
  else
    let ret := [] in
    let ret := NetUnparser.u16 ret (hardware_type m) in
    let ret := NetUnparser.u16 ret (protocol_type m) in
    let ret := NetUnparser.u8 ret (hardware_address_size m) in
    let ret := NetUnparser.u8 ret (protocol_address_size m) in
    let ret := NetUnparser.u16 ret (opcode m) in
    let ret := write_address ret (sender_ethernet_address m) in
    let ret := NetUnparser.u32 ret (sender_ip_address m) in
    let ret := write_address ret (target_ethernet_address m) in
    Ok (NetUnparser.u32 ret (target_ip_address m)).

(** A supported message whose addresses fit. *)
Definition ok (m : t) : Prop :=
  supported m = true /\ addr_ok (sender_ethernet_address m) /\ addr_ok (target_ethernet_address m) /\
  0 <= sender_ip_address m < two32 /\ 0 <= target_ip_address m < two32.

End ARPMessage.

(** ** Lemmas: addresses *)

Definition addr_bytes (a : EthernetAddress) : list byte := concat (be_encode 1 <$> a).

Lemma addr_bytes_len a : length (addr_bytes a) = length a.
Proof. unfold addr_bytes. induction a as [|z a IH]; simpl; [done|]. f_equal. exact IH. Qed.

Lemma write_address_spec ret a : write_address ret a = ret ++ addr_bytes a.
Proof.
  unfold write_address, addr_bytes. revert ret.
  induction a as [|z a IH]; intros ret; simpl; [by rewrite app_nil_r|].
  rewrite IH. unfold NetUnparser.u8, NetUnparser._unparse_int. by rewrite <- app_assoc.
Qed.

(** The bytes of an address field. *)
Definition addr_field (b : list byte) (off : Z) : EthernetAddress :=
  (fun i => field b (off + Z.of_nat i) 1) <$> seq 0 6.

Lemma read_address_step n b off p :
  parsed b off p ->
  exists l p', read_address n p = Ok (l, p') /\ parsed b (off + Z.of_nat n) p' /\
    (off + Z.of_nat n <= zlen b -> l = (fun i => field b (off + Z.of_nat i) 1) <$> seq 0 n).
Proof.
  revert off p. induction n as [|n IH]; intros off p Hp; simpl read_address.
  { exists [], p. rewrite Z.add_0_r. done. }
  unfold NetParser.u8.
  destruct (parse_step 1 b off p Hp) as (v & p1 & -> & Hp1 & _ & Hv). cbn [mbind outcome_bind].
  destruct (IH _ _ Hp1) as (l & p2 & -> & Hp2 & Hl). cbn [mbind outcome_bind].
  exists (v :: l), p2. split; [done|].
  replace (off + Z.of_nat 1 + Z.of_nat n) with (off + Z.of_nat (S n)) in Hp2 by lia.
  split; [done|]. intros Hle. rewrite Hv, Hl by lia.
  simpl. rewrite Z.add_0_r. f_equal. rewrite <- fmap_S_seq, <- list_fmap_compose.
  apply list_fmap_ext. intros i x _. simpl. f_equal. lia.
Qed.

Lemma read_address_ok b off p :
  parsed b off p ->
  exists l p', read_address 6 p = Ok (l, p') /\ parsed b (off + 6) p' /\
    (off + 6 <= zlen b -> l = addr_field b off).
Proof. apply (read_address_step 6). Qed.

Lemma addr_field_here a t : addr_ok a -> addr_field (addr_bytes a ++ t) 0 = a.
Proof.
  intros [Hl Ha]. do 6 (destruct a as [|? a]; [done|]). destruct a; [|done].
  repeat match goal with H : Forall _ (_ :: _) |- _ => inversion H; clear H; subst end.
  unfold addr_bytes, addr_field. cbn [fmap list_fmap concat seq].
  rewrite <- !app_assoc.
  change (0 + Z.of_nat 0) with 0. change (0 + Z.of_nat 1) with 1. change (0 + Z.of_nat 2) with 2.
  change (0 + Z.of_nat 3) with 3. change (0 + Z.of_nat 4) with 4. change (0 + Z.of_nat 5) with 5.
  read_fields. done.
Qed.

Lemma addr_field_skip l off b : 0 <= off -> addr_field (l ++ b) (zlen l + off) = addr_field b off.
Proof.
  intros Hoff. unfold addr_field. apply list_fmap_ext. intros i x _. unfold field.
  f_equal. f_equal. rewrite zdrop_app. rewrite zdrop_ge by lia. simpl. f_equal. lia.
Qed.

Lemma field_app l off b n : 0 <= off -> field (l ++ b) (zlen l + off) n = field b off n.
Proof.
  intros Hoff. unfold field. f_equal. f_equal. rewrite zdrop_app, zdrop_ge by lia. simpl. f_equal. lia.
Qed.

(** ** Lemmas: frames *)

Definition eth_header_of (b : list byte) : EthernetHeader.t :=
  EthernetHeader.mk (addr_field b 0) (addr_field b 6) (field b 12 2).

Lemma eth_header_parse_spec h buf :
  Buffer.wf buf ->
  exists p, EthernetHeader.parse h (NetParser.make buf) =
      Ok (if zlen (Buffer.str buf) <? 14 then PacketTooShort else NoError,
          if zlen (Buffer.str buf) <? 14 then h else eth_header_of (Buffer.str buf), p) /\
    parsed (Buffer.str buf) (if zlen (Buffer.str buf) <? 14 then 0 else 14) p.
Proof.
  intros Hb. pose proof (parsed_make buf Hb) as Hp. unfold EthernetHeader.parse, Buffer.size.
  change (NetParser.buffer (NetParser.make buf)) with buf. unfold EthernetHeader.LENGTH.
  destruct (Z.ltb_spec (zlen (Buffer.str buf)) 14) as [Hs|Hs]; [eauto|].
  destruct (read_address_ok _ _ _ Hp) as (d & p1 & -> & Hp1 & Hd). cbn [mbind outcome_bind].
  destruct (read_address_ok _ _ _ Hp1) as (s & p2 & -> & Hp2 & Hsr). cbn [mbind outcome_bind].
  unfold NetParser.u16.
  destruct (parse_step 2 _ _ _ Hp2) as (v & p3 & -> & Hp3 & _ & Hv). cbn [mbind outcome_bind].
  change (0 + 6 + 6 + Z.of_nat 2) with 14 in *. rewrite (parsed_error _ _ _ Hp3).
  rewrite Hd, Hsr, Hv by lia. exists p3. destruct (Z.leb_spec 14 (zlen (Buffer.str buf))); [done|lia].
Qed.

Lemma eth_serialize_spec h :
  EthernetHeader.ok h ->
  EthernetHeader.serialize h =
    addr_bytes (EthernetHeader.dst h) ++ addr_bytes (EthernetHeader.src h) ++
    be_encode 2 (EthernetHeader.type h) /\
  zlen (EthernetHeader.serialize h) = 14.
Proof.
  intros ([Hd _] & [Hs _] & _). unfold EthernetHeader.serialize.
  rewrite !write_address_spec. unfold NetUnparser.u16, NetUnparser._unparse_int.
  rewrite <- app_assoc. simpl app at 1. split; [done|].
  rewrite !zlen_app, !addr_bytes_len, be_encode_length, Hd, Hs. reflexivity.
Qed.

Lemma eth_header_of_bytes h t :
  EthernetHeader.ok h -> eth_header_of (EthernetHeader.serialize h ++ t) = h.
Proof.
  intros Hh. destruct (eth_serialize_spec h Hh) as [-> _]. destruct Hh as (Hd & Hs & Ht).
  assert (Hdl : zlen (addr_bytes (EthernetHeader.dst h)) = 6) by (rewrite addr_bytes_len; destruct Hd; lia).
  assert (Hsl : zlen (addr_bytes (EthernetHeader.src h)) = 6) by (rewrite addr_bytes_len; destruct Hs; lia).
  unfold eth_header_of. rewrite <- !app_assoc. rewrite addr_field_here by done.
  rewrite <- Hdl at 1. rewrite <- (Z.add_0_r (zlen _)), addr_field_skip, addr_field_here by (done || lia).
  replace 12 with (zlen (addr_bytes (EthernetHeader.dst h)) + (zlen (addr_bytes (EthernetHeader.src h)) + 0)) by lia.
  rewrite !field_app by lia. rewrite field_here by (cbn; lia). by destruct h.
Qed.

(** ** Lemmas: ARP *)

Definition arp_of (b : list byte) : ARPMessage.t :=
  ARPMessage.mk (field b 0 2) (field b 2 2) (field b 4 1) (field b 5 1) (field b 6 2)
    (addr_field b 8) (field b 14 4) (addr_field b 18) (field b 24 4).

(** What [ARPMessage::parse] answers. *)
Definition arp_verdict (b : list byte) : ParseResult :=
  if zlen b <? 28 then PacketTooShort
  else if ARPMessage.supported (arp_of b) then NoError else Unsupported.

Lemma arp_parse_spec m buf :
  Buffer.wf buf ->
  exists m', ARPMessage.parse m buf = Ok (arp_verdict (Buffer.str buf), m') /\
    (arp_verdict (Buffer.str buf) = NoError -> m' = arp_of (Buffer.str buf)).
Proof.
  intros Hb. pose proof (parsed_make buf Hb) as Hp. unfold ARPMessage.parse, Buffer.size. cbv zeta.
  change (NetParser.buffer (NetParser.make buf)) with buf. unfold ARPMessage.LENGTH, arp_verdict.
  destruct (Z.ltb_spec (zlen (Buffer.str buf)) 28) as [Hs|Hs]; [by exists m|].
  do 5 parse_next. rewrite Hv, Hv0, Hv1, Hv2, Hv3 by lia.
  set (m1 := ARPMessage.mk _ _ _ _ _ _ _ _ _).
  change (ARPMessage.supported m1) with (ARPMessage.supported (arp_of (Buffer.str buf))).
  destruct (ARPMessage.supported (arp_of (Buffer.str buf))); simpl negb; cbv iota; [|by exists m1].
  destruct (read_address_ok _ _ _ Hq) as (d & p1 & -> & Hp1 & Hd). cbn [mbind outcome_bind].
  change (8 + 6) with 14 in *. parse_next.
  destruct (read_address_ok _ _ _ Hq0) as (s & p2 & -> & Hp2 & Hsr). cbn [mbind outcome_bind].
  change (18 + 6) with 24 in *. parse_next.
  rewrite (parsed_error _ _ _ Hq1). rewrite Hd, Hsr, Hv4, Hv5 by lia.
  destruct (Z.leb_spec 28 (zlen (Buffer.str buf))); [eauto|lia].
Qed.

Lemma arp_serialize_spec m :
  ARPMessage.ok m ->
  exists out, ARPMessage.serialize m = Ok out /\ zlen out = 28 /\ arp_of out = m.
Proof.
  intros (Hsup & Hs & Ht & Hsi & Hti). unfold ARPMessage.serialize. rewrite Hsup. simpl negb. cbv iota.
  eexists. split; [done|].
  assert (Hsl : zlen (addr_bytes (ARPMessage.sender_ethernet_address m)) = 6)
    by (rewrite addr_bytes_len; destruct Hs; lia).
  assert (Htl : zlen (addr_bytes (ARPMessage.target_ethernet_address m)) = 6)
    by (rewrite addr_bytes_len; destruct Ht; lia).
  rewrite !write_address_spec.
  unfold NetUnparser.u8, NetUnparser.u16, NetUnparser.u32, NetUnparser._unparse_int.
  rewrite <- !app_assoc, app_nil_l. split.
  { rewrite !zlen_app, !be_encode_length, Hsl, Htl. reflexivity. }
  unfold ARPMessage.supported in Hsup.
  apply andb_prop in Hsup as [Hsup Hop]. apply andb_prop in Hsup as [Hsup H4%Z.eqb_eq].
  apply andb_prop in Hsup as [Hsup H6%Z.eqb_eq]. apply andb_prop in Hsup as [H1%Z.eqb_eq H2%Z.eqb_eq].
  unfold ARPMessage.TYPE_ETHERNET, EthernetHeader.TYPE_IPv4 in *.
  assert (Hopr : 0 <= ARPMessage.opcode m < 65536).
  { apply orb_prop in Hop as [Hop%Z.eqb_eq|Hop%Z.eqb_eq];
      unfold ARPMessage.OPCODE_REQUEST, ARPMessage.OPCODE_REPLY in Hop; lia. }
  set (se := addr_bytes (ARPMessage.sender_ethernet_address m)) in *.
  set (te := addr_bytes (ARPMessage.target_ethernet_address m)) in *.
  set (hd := be_encode 2 (ARPMessage.hardware_type m) ++ be_encode 2 (ARPMessage.protocol_type m) ++
    be_encode 1 (ARPMessage.hardware_address_size m) ++ be_encode 1 (ARPMessage.protocol_address_size m) ++
    be_encode 2 (ARPMessage.opcode m)).
  set (tl := se ++ be_encode 4 (ARPMessage.sender_ip_address m) ++ te ++
    be_encode 4 (ARPMessage.target_ip_address m)).
  assert (Hhd : zlen hd = 8) by done.
  assert (Hall : be_encode 2 (ARPMessage.hardware_type m) ++ be_encode 2 (ARPMessage.protocol_type m) ++
    be_encode 1 (ARPMessage.hardware_address_size m) ++ be_encode 1 (ARPMessage.protocol_address_size m) ++
    be_encode 2 (ARPMessage.opcode m) ++ tl = hd ++ tl) by (unfold hd; by rewrite <- !app_assoc).
  rewrite Hall. unfold arp_of.
  assert (Hfix : field (hd ++ tl) 0 2 = ARPMessage.hardware_type m /\
    field (hd ++ tl) 2 2 = ARPMessage.protocol_type m /\
    field (hd ++ tl) 4 1 = ARPMessage.hardware_address_size m /\
    field (hd ++ tl) 5 1 = ARPMessage.protocol_address_size m /\
    field (hd ++ tl) 6 2 = ARPMessage.opcode m).
  { rewrite <- Hall. split_and!; read_fields; done. }
  destruct Hfix as (-> & -> & -> & -> & ->).
  assert (Hip : zlen (be_encode 4 (ARPMessage.sender_ip_address m)) = 4) by done.
  assert (E8 : addr_field (hd ++ tl) 8 = ARPMessage.sender_ethernet_address m).
  { replace 8 with (zlen hd + 0) by lia. rewrite addr_field_skip by lia. by apply addr_field_here. }
  assert (E14 : field (hd ++ tl) 14 4 = ARPMessage.sender_ip_address m).
  { replace 14 with (zlen hd + (zlen se + 0)) by lia. unfold tl. rewrite !field_app by lia.
    apply field_here. cbn. lia. }
  assert (E18 : addr_field (hd ++ tl) 18 = ARPMessage.target_ethernet_address m).
  { replace 18 with (zlen hd + (zlen se + (zlen (be_encode 4 (ARPMessage.sender_ip_address m)) + 0))) by lia.
    unfold tl. rewrite !addr_field_skip by lia. by apply addr_field_here. }
  assert (E24 : field (hd ++ tl) 24 4 = ARPMessage.target_ip_address m).
  { replace 24 with (zlen hd + (zlen se + (zlen (be_encode 4 (ARPMessage.sender_ip_address m)) +
      (zlen te + 0)))) by lia.
    unfold tl. rewrite !field_app by lia. rewrite <- (app_nil_r (be_encode 4 _)). apply field_here. cbn. lia. }
  rewrite E8, E14, E18, E24. by destruct m.
Qed.

(** ** Properties *)

(** Round trip of an Ethernet frame: serializing a frame with a well-formed header and
    parsing the bytes gives the same header and payload. *)
Theorem frame_roundtrip (f f0 : EthernetFrame.t)
  (Hh : EthernetHeader.ok (EthernetFrame.header f)) (Hp : BufferList.wf (EthernetFrame.payload f))
  (Hlen : zlen (BufferList.concatenate (EthernetFrame.payload f)) + 14 < two64) :
  exists f', EthernetFrame.parse f0
      (Buffer.of_string (BufferList.concatenate (EthernetFrame.serialize f))) = Ok (NoError, f') /\
    EthernetFrame.header f' = EthernetFrame.header f /\
    BufferList.concatenate (EthernetFrame.payload f') = BufferList.concatenate (EthernetFrame.payload f).
Proof.
  destruct f as [h pl]. unfold EthernetFrame.header, EthernetFrame.payload in *.
  cbn [EthernetFrame._header EthernetFrame._payload] in *.
  destruct (eth_serialize_spec h Hh) as [_ Hl].
  set (b := EthernetHeader.serialize h ++ BufferList.concatenate pl).
  assert (Hb : BufferList.concatenate (EthernetFrame.serialize (EthernetFrame.mk h pl)) = b).
  { unfold EthernetFrame.serialize. cbn [EthernetFrame._header EthernetFrame._payload].
    rewrite !bufferlist_concatenate_app, bufferlist_of_string by lia. done. }
  rewrite Hb. assert (Hbl : zlen b = 14 + zlen (BufferList.concatenate pl)) by (unfold b; rewrite zlen_app; lia).
  assert (Hstr : Buffer.str (Buffer.of_string b) = b) by (apply buffer_of_string_str; lia).
  destruct (eth_header_parse_spec (EthernetFrame._header f0) (Buffer.of_string b)) as (p & Hparse & Hpd);
    [apply buffer_of_string_wf; lia|].
  rewrite Hstr in Hparse, Hpd. destruct (Z.ltb_spec (zlen b) 14); [lia|].
  unfold EthernetFrame.parse. rewrite Hparse. cbn [mbind outcome_bind].
  rewrite (parsed_error _ _ _ Hpd). destruct Hpd as (_ & _ & Hpd).
  destruct (Z.leb_spec 14 (zlen b)); [|lia]. destruct Hpd as [_ Hrest].
  eexists. split; [done|]. cbn [EthernetFrame._header EthernetFrame._payload].
  split; [by apply eth_header_of_bytes|].
  unfold BufferList.of_buffer. rewrite bufferlist_concatenate_cons.
  change (BufferList.concatenate []) with (@nil byte). rewrite app_nil_r.
  unfold NetParser.rest in Hrest. unfold NetParser.buffer. rewrite Hrest. unfold b.
  by apply zdrop_app_exact.
Qed.

(** Concrete addresses are in range. *)
Ltac addr_tac :=
  split; [reflexivity|]; simpl; repeat (apply Forall_cons_2; [lia|]); apply Forall_nil_2.

(** A broadcast frame. *)
Definition sample_frame : EthernetFrame.t :=
  EthernetFrame.mk (EthernetHeader.mk ETHERNET_BROADCAST [2; 0; 0; 0; 0; 1] EthernetHeader.TYPE_IPv4)
    [Buffer.of_string [Byte.x61]; Buffer.of_string [Byte.x62]].

Lemma frame_roundtrip_witness :
  exists f', EthernetFrame.parse EthernetFrame.make
      (Buffer.of_string (BufferList.concatenate (EthernetFrame.serialize sample_frame))) = Ok (NoError, f') /\
    EthernetFrame.header f' = EthernetFrame.header sample_frame.
Proof.
  destruct (frame_roundtrip sample_frame EthernetFrame.make) as (f' & H1 & H2 & _).
  - split; [addr_tac|]. split; [addr_tac|vm_compute; intuition congruence].
  - split; [repeat constructor; vm_compute; congruence|vm_compute; reflexivity].
  - vm_compute. reflexivity.
  - exists f'. auto.
Defined.

(** ARP messages: [parse] never throws; it reports [PacketTooShort] below 28 bytes and
    [Unsupported] for anything but an Ethernet/IPv4 request or reply, and otherwise reads the
    fields at their offsets; serializing a well-formed message and parsing the bytes gives
    the message back, and a message that is not supported cannot be serialized. *)
Theorem arp_roundtrip (m m0 : ARPMessage.t) (buf : Buffer.t) (Hbuf : Buffer.wf buf) :
  (exists m', ARPMessage.parse m0 buf = Ok (arp_verdict (Buffer.str buf), m') /\
     (arp_verdict (Buffer.str buf) = NoError -> m' = arp_of (Buffer.str buf))) /\
  (ARPMessage.ok m ->
     exists out, ARPMessage.serialize m = Ok out /\ zlen out = ARPMessage.LENGTH /\
       ARPMessage.parse m0 (Buffer.of_string out) = Ok (NoError, m)) /\
  (ARPMessage.supported m = false -> exists e, ARPMessage.serialize m = Throw (runtime_error e)).
Proof.
  split; [by apply arp_parse_spec|]. split.
  - intros Hm. destruct (arp_serialize_spec m Hm) as (out & Hs & Hl & Ho).
    exists out. split; [done|]. split; [done|].
    assert (Hstr : Buffer.str (Buffer.of_string out) = out) by (apply buffer_of_string_str; lia).
    destruct (arp_parse_spec m0 (Buffer.of_string out)) as (m' & Hp & Hm');
      [apply buffer_of_string_wf; lia|].
    rewrite Hstr in Hp, Hm'.
    assert (Hv : arp_verdict out = NoError).
    { unfold arp_verdict. rewrite Hl, Ho. destruct Hm as [-> _]. done. }
    rewrite Hv in Hp. by rewrite Hp, (Hm' Hv), Ho.
  - intros Hsup. unfold ARPMessage.serialize. rewrite Hsup. simpl. eauto.
Qed.

(** A request for 10.0.0.2. *)
Definition sample_arp : ARPMessage.t :=
  ARPMessage.mk 1 2048 6 4 1 [2; 0; 0; 0; 0; 1] 167772161 EMPTY_ADDRESS 167772162.

Lemma arp_roundtrip_witness :
  exists out, ARPMessage.serialize sample_arp = Ok out /\
    ARPMessage.parse ARPMessage.make (Buffer.of_string out) = Ok (NoError, sample_arp).
Proof.
  destruct (arp_roundtrip sample_arp ARPMessage.make Buffer.empty) as (_ & H & _); [exact I|].
  destruct H as (out & H1 & _ & H2).
  - split; [reflexivity|]. split; [addr_tac|]. split; [addr_tac|]. simpl. lia.
  - exists out. auto.
Defined.

(** [EthernetFrame::parse] does not look at the result of [EthernetHeader::parse]: fewer
    than 14 bytes give [NoError], the header keeps what it held before and all the bytes
    become the payload. *)
Theorem frame_parse_accepts_short (f : EthernetFrame.t) (buf : Buffer.t)
  (Hbuf : Buffer.wf buf) (Hshort : Buffer.size buf < EthernetHeader.LENGTH) :
  exists f', EthernetFrame.parse f buf = Ok (NoError, f') /\
    EthernetFrame.header f' = EthernetFrame.header f /\
    BufferList.concatenate (EthernetFrame.payload f') = Buffer.str buf.
Proof.
  unfold Buffer.size, EthernetHeader.LENGTH in Hshort.
  destruct (eth_header_parse_spec (EthernetFrame._header f) buf Hbuf) as (p & Hparse & Hp).
  destruct (Z.ltb_spec (zlen (Buffer.str buf)) 14); [|lia].
  unfold EthernetFrame.parse. rewrite Hparse. cbn [mbind outcome_bind].
  rewrite (parsed_error _ _ _ Hp). destruct Hp as (_ & _ & Hp).
  destruct (Z.leb_spec 0 (zlen (Buffer.str buf))); [|lia]. destruct Hp as [_ Hrest].
  eexists. split; [done|]. split; [done|]. simpl. unfold BufferList.of_buffer.
  rewrite bufferlist_concatenate_cons. change (BufferList.concatenate []) with (@nil byte).
  rewrite app_nil_r. unfold NetParser.rest in Hrest. unfold NetParser.buffer.
  rewrite Hrest. by rewrite zdrop_le0 by lia.
Qed.

Lemma frame_parse_accepts_short_witness :
  exists f', EthernetFrame.parse sample_frame (Buffer.of_string [Byte.x00]) = Ok (NoError, f') /\
    EthernetFrame.header f' = EthernetFrame.header sample_frame.
Proof.
  destruct (frame_parse_accepts_short sample_frame (Buffer.of_string [Byte.x00])) as (f' & H1 & H2 & _).
  - apply buffer_of_string_wf. vm_compute. reflexivity.
  - vm_compute. reflexivity.
  - exists f'. auto.
Defined.
