(* ===== verification/Addresses.v ===== *)
(** * Addresses.v: socket addresses

    Models [libsponge/util/address.hh] and [libsponge/util/address.cc]: [Address] wraps the
    bytes of a [sockaddr_storage] (128 bytes, of which an IPv4 [sockaddr_in] uses 16: the
    family in host order, little endian, then the port and the IPv4 address in network
    order).  What the C library does with names is a parameter, a [Resolver]: [getaddrinfo(3)],
    [getnameinfo(3)] and [inet_ntoa(3)]; the class [NumericResolver] states their documented
    behaviour on numeric names. *)

From stdpp Require Import pretty.
From S2P Require Import Prelude Parsing.

(** ** Decimal text

    [std::to_string] of an unsigned number is stdpp's [pretty]; [std::stoi] skips white space,
    takes an optional sign and reads digits. *)

Definition digit_of (c : Ascii.ascii) : option Z :=
  let n := Z.of_N (Ascii.N_of_ascii c) in
  if (48 <=? n) && (n <=? 57) then Some (n - 48) else None.

Definition is_space (c : Ascii.ascii) : bool :=
  let n := Z.of_N (Ascii.N_of_ascii c) in (n =? 32) || ((9 <=? n) && (n <=? 13)).

Fixpoint read_digits (acc : Z) (s : string) : Z :=
  match s with
  | EmptyString => acc
  | String c s' => match digit_of c with Some d => read_digits (10 * acc + d) s' | None => acc end
  end.

Fixpoint skip_spaces (s : string) : string :=
  match s with
  | String c s' => if is_space c then skip_spaces s' else s
  | EmptyString => EmptyString
  end.

(** Digits with nothing before them: at least one is required. *)
Definition read_number (sign : Z) (s : string) : outcome Z :=
  match s with
  | String c _ =>
      match digit_of c with
      | Some _ =>
          let v := sign * read_digits 0 s in
          if (v <? - two31) || (two31 - 1 <? v) then Throw (out_of_range "stoi") else Ok v
      | None => Throw (invalid_argument "stoi")
      end
  | EmptyString => Throw (invalid_argument "stoi")
  end.

Definition stoi (s : string) : outcome Z :=
  match skip_spaces s with
  | String c s' =>
      if Z.of_N (Ascii.N_of_ascii c) =? 45 then read_number (-1) s'
      else if Z.of_N (Ascii.N_of_ascii c) =? 43 then read_number 1 s'
      else read_number 1 (String c s')
  | EmptyString => Throw (invalid_argument "stoi")
  end.

Module Address.

Definition STORAGE_SIZE : Z := 128.
Definition SOCKADDR_IN_SIZE : Z := 16.
Definition AF_INET : Z := 2.
Definition AI_NUMERICHOST : Z := 4.
Definition AI_ALL : Z := 16.
Definition AI_NUMERICSERV : Z := 1024.
Definition NI_NUMERICHOST : Z := 1.
Definition NI_NUMERICSERV : Z := 2.

(** [_size] and the bytes of [_address.storage]. *)
Record t := mk {
  _size : Z;
  _address : list byte
}.

(** [Address(const sockaddr *, size_t)]: copying from fewer bytes than announced reads past
    the end of the argument. *)
Definition of_sockaddr (addr : list byte) (size : Z) : outcome t :=
  if STORAGE_SIZE <? size then Throw (runtime_error "invalid sockaddr size")
  else if zlen addr <? size then Undefined
  else Ok (mk size (ztake size addr ++ replicate (Z.to_nat (STORAGE_SIZE - size)) Byte.x00)).

(** [struct addrinfo] as far as the hints use it. *)
Record addrinfo := Hints {
  ai_flags : Z;
  ai_family : Z
}.

Definition make_hints (flags family : Z) : addrinfo := Hints flags family.

(** The C library's name functions: [getaddrinfo] gives its return value and the first result
    with its length if any; [getnameinfo] takes the bytes of the address, their number and the
    flags and gives its return value, the host and the service; [inet_ntoa] takes the address
    as a number in host order. *)
Record Resolver := {
  getaddrinfo : string -> string -> addrinfo -> Z * option (list byte * Z);
  getnameinfo : list byte -> Z -> Z -> Z * (string * string);
  inet_ntoa : Z -> string
}.

Section resolver.

Variable R : Resolver.

Definition resolve (node service : string) (hints : addrinfo) : outcome t :=
  let '(gai_ret, resolved_address) := getaddrinfo R node service hints in
  if negb (gai_ret =? 0) then
    Throw (tagged_error (String.append "getaddrinfo(" (String.append node
      (String.append ", " (String.append service ")")))) gai_ret)
  else
    match resolved_address with
    | None => Throw (runtime_error "getaddrinfo returned successfully but with no results")
    | Some (ai_addr, ai_addrlen) => of_sockaddr ai_addr ai_addrlen
    end.

Definition of_host (hostname service : string) : outcome t :=
  resolve hostname service (make_hints AI_ALL AF_INET).

Definition of_ip (ip : string) (port : Z) : outcome t :=
  resolve ip (pretty port) (make_hints (Z.lor AI_NUMERICHOST AI_NUMERICSERV) AF_INET).

Definition ip_port (a : t) : outcome (string * Z) :=
  let '(gni_ret, (ip, port)) := getnameinfo R (_address a) (_size a) (Z.lor NI_NUMERICHOST NI_NUMERICSERV) in
  if negb (gni_ret =? 0) then Throw (tagged_error "getnameinfo" gni_ret)
  else p ← stoi port; Ok (ip, u16 p).

Definition ip (a : t) : outcome string := '(s, _) ← ip_port a; Ok s.
Definition port (a : t) : outcome Z := '(_, p) ← ip_port a; Ok p.

Definition to_string (a : t) : outcome string :=
  '(s, p) ← ip_port a; Ok (String.append s (String.append ":" (pretty p))).

End resolver.

(** [ss_family], a 16-bit field in host order. *)
Definition ss_family (a : t) : Z :=
  match _address a with
  | b0 :: b1 :: _ => Z_of_byte b0 + 256 * Z_of_byte b1
  | _ => 0
  end.

Definition ipv4_numeric (a : t) : outcome Z :=
  if negb (ss_family a =? AF_INET) || negb (_size a =? SOCKADDR_IN_SIZE)
  then Throw (runtime_error "ipv4_numeric called on non-IPV4 address")
  else
    let ipv4_addr := ztake (_size a) (_address a) in
    Ok (field ipv4_addr 4 4).

(** The bytes of a [sockaddr_in] with port 0. *)
Definition sockaddr_in (ip_address : Z) : list byte :=
  [Byte.x02; Byte.x00] ++ be_encode 2 0 ++ be_encode 4 ip_address ++ replicate 8 Byte.x00.

Definition from_ipv4_numeric (ip_address : Z) : outcome t :=
  of_sockaddr (sockaddr_in ip_address) SOCKADDR_IN_SIZE.

(** [operator==]: [memcmp] over the bytes in use. *)
Definition eqb (a b : t) : bool :=
  if negb (_size a =? _size b) then false
  else bool_decide (ztake (_size a) (_address a) = ztake (_size a) (_address b)).

End Address.

(** ** Lemmas *)

(** Looking a name up returns or throws. *)
Lemma to_string_defined R a : match Address.to_string R a with Ok _ | Throw _ => True | _ => False end.
Proof.
  unfold Address.to_string, Address.ip_port. destruct (Address.getnameinfo R _ _ _) as [ret [ip port]].
  destruct (negb (ret =? 0)); [done|]. unfold stoi, read_number.
  repeat (case_match; simplify_eq/=; try done).
Qed.

(** [getaddrinfo] gives as many bytes as it says. *)
Class SoundResolver (R : Address.Resolver) : Prop := {
  getaddrinfo_length node service hints r addr len :
    Address.getaddrinfo R node service hints = (r, Some (addr, len)) -> len <= zlen addr
}.

Lemma of_ip_total R `{!SoundResolver R} ip port : concluded (Address.of_ip R ip port).
Proof.
  unfold Address.of_ip, Address.resolve. destruct (Address.getaddrinfo R _ _ _) as [r found] eqn:E.
  destruct (negb _); [done|]. destruct found as [[addr len]|]; [|done]. apply getaddrinfo_length in E.
  unfold Address.of_sockaddr. destruct (_ <? _); [done|]. destruct (Z.ltb_spec (zlen addr) len); [lia|done].
Qed.

Lemma from_ipv4_spec ip :
  Address.from_ipv4_numeric ip =
  Ok (Address.mk 16 (Address.sockaddr_in ip ++ replicate 112 Byte.x00)).
Proof. reflexivity. Qed.

(** The address made from a number. *)
Definition ipv4_address (ip : Z) : Address.t :=
  Address.mk 16 (Address.sockaddr_in ip ++ replicate 112 Byte.x00).

Lemma ipv4_numeric_of ip :
  0 <= ip < two32 -> Address.ipv4_numeric (ipv4_address ip) = Ok ip.
Proof.
  intros Hip. unfold Address.ipv4_numeric.
  change (Address.ss_family (ipv4_address ip)) with 2. cbn [Address._size Address._address ipv4_address].
  unfold Address.AF_INET, Address.SOCKADDR_IN_SIZE. change (negb (2 =? 2) || negb (16 =? 16)) with false.
  cbv iota. f_equal. rewrite ztake_app_exact by done. unfold Address.sockaddr_in.
  change ([Byte.x02; Byte.x00]) with (be_encode 2 512). read_fields. done.
Qed.

(** ** Numeric names *)

(** What starts with a digit. *)
Definition starts_digit (s : string) : Prop :=
  match s with String c _ => is_Some (digit_of c) | EmptyString => False end.

Lemma digit_of_char x : (x < 10)%N -> digit_of (pretty_N_char x) = Some (Z.of_N x).
Proof.
  intros Hx. assert (Hc : x ∈ (0 :: 1 :: 2 :: 3 :: 4 :: 5 :: 6 :: 7 :: 8 :: [9])%N)
    by (rewrite !elem_of_cons; lia).
  rewrite !elem_of_cons, elem_of_nil in Hc. destruct_or! Hc; subst x; reflexivity || done.
Qed.

Lemma read_digits_pretty_go x s : read_digits 0 (pretty_N_go x s) = read_digits (Z.of_N x) s.
Proof.
  revert s. induction (N.lt_wf_0 x) as [x _ IH]; intros s.
  destruct (decide (0 < x)%N) as [Hx|Hx].
  - rewrite pretty_N_go_step by done. rewrite IH by (apply N.div_lt; lia). simpl.
    rewrite digit_of_char by (apply N.mod_lt; lia). f_equal. rewrite N2Z.inj_div, N2Z.inj_mod.
    pose proof (Z.div_mod (Z.of_N x) 10 ltac:(lia)). lia.
  - replace x with 0%N by lia. by rewrite pretty_N_go_0.
Qed.

Lemma pretty_go_digit x s : (0 < x)%N \/ starts_digit s -> starts_digit (pretty_N_go x s).
Proof.
  revert s. induction (N.lt_wf_0 x) as [x _ IH]; intros s Hs.
  destruct (decide (0 < x)%N) as [Hx|Hx].
  - rewrite pretty_N_go_step by done. apply IH; [apply N.div_lt; lia|]. right. simpl.
    rewrite digit_of_char by (apply N.mod_lt; lia). by eexists.
  - replace x with 0%N by lia. rewrite pretty_N_go_0. destruct Hs; [lia|done].
Qed.

Lemma pretty_go_app x s t : (pretty_N_go x s +:+ t = pretty_N_go x (s +:+ t))%string.
Proof.
  revert s. induction (N.lt_wf_0 x) as [x _ IH]; intros s.
  destruct (decide (0 < x)%N) as [Hx|Hx].
  - rewrite !(pretty_N_go_step x) by done. by rewrite IH by (apply N.div_lt; lia).
  - replace x with 0%N by lia. by rewrite !pretty_N_go_0.
Qed.

Lemma pretty_nonneg n : 0 < n -> pretty n = pretty_N_go (Z.to_N n) "".
Proof.
  intros Hn. destruct n as [|p|p]; [lia| |lia].
  unfold pretty, pretty_Z, pretty, pretty_positive, pretty, pretty_N. simpl. done.
Qed.

Lemma stoi_pretty n : 0 <= n < two31 -> stoi (pretty n) = Ok n.
Proof.
  intros Hn. destruct (Z.eq_dec n 0) as [->|Hz]; [reflexivity|].
  rewrite pretty_nonneg by lia. pose proof (pretty_go_digit (Z.to_N n) "" ltac:(left; lia)) as Hd.
  pose proof (read_digits_pretty_go (Z.to_N n) "") as Hv. simpl in Hv. rewrite Z2N.id in Hv by lia.
  destruct (pretty_N_go (Z.to_N n) "") as [|c s]; [done|]. destruct Hd as [d Hd].
  assert (Hc : 48 <= Z.of_N (Ascii.N_of_ascii c) <= 57).
  { unfold digit_of in Hd. destruct (Z.leb_spec 48 (Z.of_N (Ascii.N_of_ascii c))); [|done].
    destruct (Z.leb_spec (Z.of_N (Ascii.N_of_ascii c)) 57); [lia|done]. }
  unfold stoi. cbn [skip_spaces]. assert (Hs : is_space c = false).
  { unfold is_space. ztests; done. }
  rewrite Hs. destruct (Z.eqb_spec (Z.of_N (Ascii.N_of_ascii c)) 45); [lia|].
  destruct (Z.eqb_spec (Z.of_N (Ascii.N_of_ascii c)) 43); [lia|].
  unfold read_number. rewrite Hd, Hv. destruct (Z.ltb_spec (1 * n) (- two31)); [lia|].
  destruct (Z.ltb_spec (two31 - 1) (1 * n)); [lia|]. simpl. f_equal. lia.
Qed.

(** The bytes of a [sockaddr_in] with a port, and the address they make. *)
Definition sockaddr_port (ip port : Z) : list byte :=
  [Byte.x02; Byte.x00] ++ be_encode 2 port ++ be_encode 4 ip ++ replicate 8 Byte.x00.

Definition inet_address (ip port : Z) : Address.t :=
  Address.mk 16 (sockaddr_port ip port ++ replicate 112 Byte.x00).

(** The documented behaviour of the name functions on numeric names: [getnameinfo] with
    numeric flags prints an IPv4 socket address, and [getaddrinfo] reads it back. *)
Class NumericResolver (R : Address.Resolver) : Prop := {
  getnameinfo_numeric ip port : 0 <= ip < two32 -> 0 <= port < two16 ->
    Address.getnameinfo R (Address._address (inet_address ip port)) 16
      (Z.lor Address.NI_NUMERICHOST Address.NI_NUMERICSERV) = (0, (Address.inet_ntoa R ip, pretty port));
  getaddrinfo_numeric ip port : 0 <= ip < two32 -> 0 <= port < two16 ->
    Address.getaddrinfo R (Address.inet_ntoa R ip) (pretty port)
      (Address.make_hints (Z.lor Address.AI_NUMERICHOST Address.AI_NUMERICSERV) Address.AF_INET) =
      (0, Some (sockaddr_port ip port, 16))
}.

Lemma inet_address_numeric ip port :
  0 <= ip < two32 -> 0 <= port < two16 -> Address.ipv4_numeric (inet_address ip port) = Ok ip.
Proof.
  intros Hip Hport. unfold Address.ipv4_numeric.
  change (Address.ss_family (inet_address ip port)) with 2. cbn [Address._size Address._address inet_address].
  unfold Address.AF_INET, Address.SOCKADDR_IN_SIZE. change (negb (2 =? 2) || negb (16 =? 16)) with false.
  cbv iota. f_equal. rewrite ztake_app_exact by done. unfold sockaddr_port.
  change ([Byte.x02; Byte.x00]) with (be_encode 2 512). read_fields. done.
Qed.

Section numeric_resolver.

Context (R : Address.Resolver) `{!NumericResolver R}.

Lemma inet_address_port ip port :
  0 <= ip < two32 -> 0 <= port < two16 -> Address.port R (inet_address ip port) = Ok port.
Proof.
  intros Hip Hp. unfold Address.port, Address.ip_port.
  change (Address._size (inet_address ip port)) with 16.
  rewrite getnameinfo_numeric by done. simpl negb. cbv iota. rewrite stoi_pretty by lia.
  cbn [mbind outcome_bind]. by rewrite u16_small by lia.
Qed.

Lemma of_ip_numeric ip port :
  0 <= ip < two32 -> 0 <= port < two16 ->
  Address.of_ip R (Address.inet_ntoa R ip) port = Ok (inet_address ip port).
Proof.
  intros Hip Hp. unfold Address.of_ip, Address.resolve. rewrite getaddrinfo_numeric by done. reflexivity.
Qed.

End numeric_resolver.

(** A resolver that knows numeric names only: dotted quads and decimal ports. *)
Fixpoint read_quad (acc cur : Z) (s : string) : Z :=
  match s with
  | EmptyString => 256 * acc + cur
  | String c s' =>
      match digit_of c with
      | Some d => read_quad acc (10 * cur + d) s'
      | None => read_quad (256 * acc + cur) 0 s'
      end
  end.

Definition quad (ip k : Z) : Z := Z.shiftr ip (8 * k) mod 256.

Definition dotted (ip : Z) : string :=
  (pretty (quad ip 3) +:+ "." +:+ pretty (quad ip 2) +:+ "." +:+ pretty (quad ip 1) +:+ "." +:+ pretty (quad ip 0))%string.

Definition numeric_resolver : Address.Resolver := {|
  Address.getaddrinfo := fun node service _ => (0, Some (sockaddr_port (read_quad 0 0 node) (read_digits 0 service), 16));
  Address.getnameinfo := fun bytes _ _ => (0, (dotted (field bytes 4 4), pretty (field bytes 2 2)));
  Address.inet_ntoa := dotted
|}.

#[export] Instance numeric_sound : SoundResolver numeric_resolver.
Proof. split. intros node service hints r addr len [= _ <- <-]. reflexivity. Qed.

Lemma read_quad_go acc x s : read_quad acc 0 (pretty_N_go x s) = read_quad acc (Z.of_N x) s.
Proof.
  revert s. induction (N.lt_wf_0 x) as [x _ IH]; intros s.
  destruct (decide (0 < x)%N) as [Hx|Hx].
  - rewrite pretty_N_go_step by done. rewrite IH by (apply N.div_lt; lia). simpl.
    rewrite digit_of_char by (apply N.mod_lt; lia). f_equal. rewrite N2Z.inj_div, N2Z.inj_mod.
    pose proof (Z.div_mod (Z.of_N x) 10 ltac:(lia)). lia.
  - replace x with 0%N by lia. by rewrite pretty_N_go_0.
Qed.

Lemma read_quad_pretty acc n t : 0 <= n -> read_quad acc 0 (pretty n +:+ t)%string = read_quad acc n t.
Proof.
  intros Hn. destruct (Z.eq_dec n 0) as [->|Hz]; [done|].
  rewrite pretty_nonneg, pretty_go_app, read_quad_go by lia. simpl. by rewrite Z2N.id by lia.
Qed.

Lemma read_quad_dot acc cur t : read_quad acc cur ("." +:+ t)%string = read_quad (256 * acc + cur) 0 t.
Proof. reflexivity. Qed.

Lemma string_app_empty (s : string) : (s +:+ "")%string = s.
Proof. induction s as [|c s IH]; [done|]. exact (f_equal (String c) IH). Qed.

#[export] Instance numeric_resolver_ok : NumericResolver numeric_resolver.
Proof.
  split; intros ip port Hip Hp;
    cbn [Address.getnameinfo Address.getaddrinfo Address.inet_ntoa numeric_resolver].
  - cbn [Address._address inet_address]. unfold sockaddr_port. change ([Byte.x02; Byte.x00]) with (be_encode 2 512). rewrite <- !app_assoc.
    read_fields. done.
  - assert (Hq : forall k, 0 <= quad ip k) by (intros k; apply Z.mod_pos_bound; lia).
    assert (Hquad : read_quad 0 0 (dotted ip) = ip).
    { unfold dotted. do 3 (rewrite read_quad_pretty by done; rewrite read_quad_dot).
      rewrite <- (string_app_empty (pretty (quad ip 0))). rewrite read_quad_pretty by done.
      cbn [read_quad]. unfold quad. rewrite !Z.shiftr_div_pow2 by lia.
      change (2 ^ (8 * 3)) with 16777216. change (2 ^ (8 * 2)) with 65536.
      change (2 ^ (8 * 1)) with 256. change (2 ^ (8 * 0)) with 1.
      Z.to_euclidean_division_equations. lia. }
    rewrite Hquad. assert (Hport : read_digits 0 (pretty port) = port).
    { destruct (Z.eq_dec port 0) as [->|]; [done|]. rewrite pretty_nonneg, read_digits_pretty_go by lia. cbn [read_digits]. lia. }
    by rewrite Hport.
Qed.

(** ** Properties *)

(** IPv4 addresses survive the trip through the socket address: the number an address was
    made from is the one it gives back, two such addresses are equal exactly if the numbers
    are, and an address of another family or size is refused instead of misread. *)
Theorem address_roundtrip (ip ip' : Z) (Hip : 0 <= ip < two32) (Hip' : 0 <= ip' < two32) :
  (exists a, Address.from_ipv4_numeric ip = Ok a /\ Address.ipv4_numeric a = Ok ip /\
     forall b, Address.from_ipv4_numeric ip' = Ok b -> Address.eqb a b = (ip =? ip')) /\
  (forall a, Address.ss_family a <> Address.AF_INET \/ Address._size a <> Address.SOCKADDR_IN_SIZE ->
     exists e, Address.ipv4_numeric a = Throw (runtime_error e)).
Proof.
  split.
  - rewrite !from_ipv4_spec. fold (ipv4_address ip). fold (ipv4_address ip').
    exists (ipv4_address ip). split; [done|]. split; [by apply ipv4_numeric_of|].
    intros b [= <-]. unfold Address.eqb. cbn [Address._size Address._address ipv4_address].
    change (negb (16 =? 16)) with false. cbv iota. rewrite !ztake_app_exact by done.
    destruct (Z.eqb_spec ip ip') as [->|Hne]; [by rewrite bool_decide_eq_true_2|].
    apply bool_decide_eq_false_2. intros He. apply Hne.
    apply (f_equal (fun l => field l 4 4)) in He. unfold Address.sockaddr_in in He.
    change ([Byte.x02; Byte.x00]) with (be_encode 2 512) in He. revert He. read_fields. done.
  - intros a Ha. unfold Address.ipv4_numeric.
    destruct Ha as [Ha%Z.eqb_neq|Ha%Z.eqb_neq]; rewrite Ha; simpl; rewrite ?orb_true_r; eauto.
Qed.

Lemma address_roundtrip_witness :
  exists a, Address.from_ipv4_numeric 167772161 = Ok a /\ Address.ipv4_numeric a = Ok 167772161 /\
    forall b, Address.from_ipv4_numeric 167772162 = Ok b -> Address.eqb a b = false.
Proof. apply (address_roundtrip 167772161 167772162); lia. Defined.
