(* ===== verification/Printers.v ===== *)
(** * Printers.v: the texts the program shows

    Models the conversions to text of [libsponge/tcp_helpers] ([to_string] and [summary] of the
    TCP, IPv4 and Ethernet headers, of an Ethernet address and of an ARP message) and [hexdump]
    of [libsponge/util/util.cc].  A formatted output stream is the text it has produced; the
    manipulators in force at an insertion ([hex], [setw], [setfill]) are written at it.  A
    [std::stringstream] that starts with some text keeps its write position at the front, so
    that what is inserted replaces that text. *)

From Stdlib Require Import Ascii.
From stdpp Require Import pretty.
From S2P Require Import Prelude Wrapping Buffers Parsing TcpWire IpWire EtherWire Addresses.

Local Open Scope string_scope.
Local Open Scope Z_scope.

(** ** Numbers *)

Definition hex_digit (d : Z) : Ascii.ascii :=
  Ascii.ascii_of_N (Z.to_N (if d <? 10 then 48 + d else 87 + d)).

Fixpoint hex_go (fuel : nat) (n : Z) (acc : string) : string :=
  match fuel with
  | O => acc
  | S fuel =>
      let acc := String (hex_digit (n mod 16)) acc in
      if n / 16 =? 0 then acc else hex_go fuel (n / 16) acc
  end.

(** An unsigned number of at most 64 bits under [std::hex]. *)
Definition hex (n : Z) : string := hex_go 16 n "".

(** [std::setw] and [std::setfill] on a text, aligned to the right. *)
Fixpoint fill (n : nat) (c : Ascii.ascii) : string :=
  match n with O => "" | S n => String c (fill n c) end.

Definition setw (w : nat) (c : Ascii.ascii) (s : string) : string := fill (w - String.length s) c +:+ s.

(** [std::boolalpha]. *)
Definition boolalpha (b : bool) : string := if b then "true" else "false".

Definition flag (b : bool) (s : string) : string := if b then s else "".

Definition nl : string := String (Ascii.ascii_of_N 10) "".

(** ** Headers *)

Definition tcp_to_string (h : TCPHeader.t) : string :=
  "TCP source port: " +:+ hex (TCPHeader.sport h) +:+ nl +:+
  "TCP dest port: " +:+ hex (TCPHeader.dport h) +:+ nl +:+
  "TCP seqno: " +:+ hex (WrappingInt32.raw_value (TCPHeader.seqno h)) +:+ nl +:+
  "TCP ackno: " +:+ hex (WrappingInt32.raw_value (TCPHeader.ackno h)) +:+ nl +:+
  "TCP doff: " +:+ hex (TCPHeader.doff h) +:+ nl +:+
  "Flags: urg: " +:+ boolalpha (TCPHeader.urg h) +:+ " ack: " +:+ boolalpha (TCPHeader.ack h) +:+
  " psh: " +:+ boolalpha (TCPHeader.psh h) +:+ " rst: " +:+ boolalpha (TCPHeader.rst h) +:+
  " syn: " +:+ boolalpha (TCPHeader.syn h) +:+ " fin: " +:+ boolalpha (TCPHeader.fin h) +:+ nl +:+
  "TCP winsize: " +:+ hex (TCPHeader.win h) +:+ nl +:+
  "TCP cksum: " +:+ hex (TCPHeader.cksum h) +:+ nl +:+
  "TCP uptr: " +:+ hex (TCPHeader.uptr h) +:+ nl.

Definition tcp_summary (h : TCPHeader.t) : string :=
  "Header(flags=" +:+ flag (TCPHeader.syn h) "S" +:+ flag (TCPHeader.ack h) "A" +:+
  flag (TCPHeader.rst h) "R" +:+ flag (TCPHeader.fin h) "F" +:+
  ",seqno=" +:+ pretty (WrappingInt32.raw_value (TCPHeader.seqno h)) +:+
  ",ack=" +:+ pretty (WrappingInt32.raw_value (TCPHeader.ackno h)) +:+
  ",win=" +:+ pretty (TCPHeader.win h) +:+ ")".

Definition ipv4_to_string (h : IPv4Header.t) : string :=
  "IP version: " +:+ hex (IPv4Header.ver h) +:+ nl +:+
  "IP hdr len: " +:+ hex (IPv4Header.hlen h) +:+ nl +:+
  "IP tos: " +:+ hex (IPv4Header.tos h) +:+ nl +:+
  "IP dgram len: " +:+ hex (IPv4Header.len h) +:+ nl +:+
  "IP id: " +:+ hex (IPv4Header.id h) +:+ nl +:+
  "Flags: df: " +:+ boolalpha (IPv4Header.df h) +:+ " mf: " +:+ boolalpha (IPv4Header.mf h) +:+ nl +:+
  "Offset: " +:+ hex (IPv4Header.offset h) +:+ nl +:+
  "TTL: " +:+ hex (IPv4Header.ttl h) +:+ nl +:+
  "Protocol: " +:+ hex (IPv4Header.proto h) +:+ nl +:+
  "Checksum: " +:+ hex (IPv4Header.cksum h) +:+ nl +:+
  "Src addr: " +:+ hex (IPv4Header.src h) +:+ nl +:+
  "Dst addr: " +:+ hex (IPv4Header.dst h) +:+ nl.

(** The texts with an IPv4 address in them, written by the C library's [inet_ntoa]. *)
Section inet.

Context (R : Address.Resolver).

Definition ipv4_summary (h : IPv4Header.t) : string :=
  "IPv" +:+ hex (IPv4Header.ver h) +:+ ", len=" +:+ hex (IPv4Header.len h) +:+
  ", protocol=" +:+ hex (IPv4Header.proto h) +:+ ", " +:+
  (if 10 <=? IPv4Header.ttl h then "" else "ttl=" +:+ pretty (IPv4Header.ttl h) +:+ ", ") +:+
  "src=" +:+ Address.inet_ntoa R (IPv4Header.src h) +:+ ", dst=" +:+
  Address.inet_ntoa R (IPv4Header.dst h).

End inet.

(** [to_string(EthernetAddress)]: the separator follows every byte but the last. *)
Fixpoint eth_to_string (a : EthernetAddress) : string :=
  match a with
  | [] => ""
  | b :: a' =>
      setw 2 "0"%char (hex b) +:+ match a' with [] => "" | _ => ":" end +:+ eth_to_string a'
  end.

Definition ethernet_header_to_string (h : EthernetHeader.t) : string :=
  "dst=" +:+ eth_to_string (EthernetHeader.dst h) +:+
  ", src=" +:+ eth_to_string (EthernetHeader.src h) +:+ ", type=" +:+
  (if EthernetHeader.type h =? EthernetHeader.TYPE_IPv4 then "IPv4"
   else if EthernetHeader.type h =? EthernetHeader.TYPE_ARP then "ARP"
   else "[unknown type " +:+ hex (EthernetHeader.type h) +:+ "!]").

Section inet_arp.

Context (R : Address.Resolver).

Definition arp_to_string (m : ARPMessage.t) : string :=
  let opcode_str := "(unknown type)" in
  let opcode_str :=
    if ARPMessage.opcode m =? ARPMessage.OPCODE_REQUEST then "REQUEST" else opcode_str in
  let opcode_str :=
    if ARPMessage.opcode m =? ARPMessage.OPCODE_REPLY then "REPLY" else opcode_str in
  "opcode=" +:+ opcode_str +:+ ", sender=" +:+ eth_to_string (ARPMessage.sender_ethernet_address m) +:+
  "/" +:+ Address.inet_ntoa R (ARPMessage.sender_ip_address m) +:+
  ", target=" +:+ eth_to_string (ARPMessage.target_ethernet_address m) +:+
  "/" +:+ Address.inet_ntoa R (ARPMessage.target_ip_address m).

End inet_arp.

(** ** [hexdump] *)

(** A [std::stringstream]: its text before and after the write position. *)
Record stringstream := Stream {
  written : string;
  ahead : string
}.

(** The constructor and [str(s)] put the write position at the front. *)
Definition stream_of (s : string) : stringstream := Stream "" s.
Definition put (o : stringstream) (c : Ascii.ascii) : stringstream :=
  Stream (written o +:+ String c "") (match ahead o with EmptyString => "" | String _ s => s end).
Definition str (o : stringstream) : string := written o +:+ ahead o.

(** [isprint(3)] in the C locale. *)
Definition isprint (b : byte) : bool := (32 <=? Z_of_byte b) && (Z_of_byte b <=? 126).

Definition shown (b : byte) : Ascii.ascii :=
  if isprint b then Ascii.ascii_of_N (Z.to_N (Z_of_byte b)) else "."%char.

Record dump := Dump {
  out : string;
  printed : Z;
  pchars : stringstream
}.

(** One turn of the loop: [printed] is an [int]. *)
Definition dump_byte (indent : nat) (d : dump) (b : byte) : outcome dump :=
  let d :=
    if Z.land (printed d) 15 =? 0 then
      let d :=
        if negb (printed d =? 0)
        then Dump (out d +:+ "    " +:+ str (pchars d) +:+ nl) (printed d) (stream_of " ")
        else d in
      Dump (out d +:+ fill indent " "%char +:+ setw 8 "0"%char (hex (printed d)) +:+ ":    ") (printed d) (pchars d)
    else if Z.land (printed d) 1 =? 0 then Dump (out d +:+ " ") (printed d) (pchars d)
    else d in
  let o := out d +:+ setw 2 "0"%char (hex (Z_of_byte b)) in
  let p := put (pchars d) (shown b) in
  if two31 <=? printed d + 1 then Undefined else Ok (Dump o (printed d + 1) p).

Fixpoint dump_loop (indent : nat) (d : dump) (data : list byte) : outcome dump :=
  match data with
  | [] => Ok d
  | b :: data' => d ← dump_byte indent d b; dump_loop indent d data'
  end.

Definition hexdump (data : list byte) (indent : nat) : outcome string :=
  d ← dump_loop indent (Dump "" 0 (stream_of " ")) data;
  let print_rem := Z.rem (16 - Z.land (printed d) 15) 16 in
  Ok (out d +:+ fill (Z.to_nat (2 * print_rem + print_rem ÷ 2 + 4)) " "%char +:+ str (pchars d) +:+
      nl +:+ nl).

(** ** The layout of a dump *)

(** The bytes of a row from column [i] on, in pairs. *)
Fixpoint row_hex (i : Z) (row : list byte) : string :=
  match row with
  | [] => ""
  | b :: row' =>
      (if (0 <? i) && (i mod 2 =? 0) then " " else "") +:+ setw 2 "0"%char (hex (Z_of_byte b)) +:+ row_hex (i + 1) row'
  end.

Fixpoint row_text (row : list byte) : string :=
  match row with [] => "" | b :: row' => String (shown b) (row_text row') end.

Definition row_head (indent : nat) (off : Z) : string :=
  fill indent " "%char +:+ setw 8 "0"%char (hex off) +:+ ":    ".

(** A line: the characters start at the same column in every row. *)
Definition row_line (indent : nat) (off : Z) (row : list byte) : string :=
  row_head indent off +:+ row_hex 0 row +:+ fill (43 - String.length (row_hex 0 row)) " "%char +:+ row_text row +:+ nl.

Fixpoint dump_lines (indent : nat) (fuel : nat) (off : Z) (data : list byte) : string :=
  match fuel with
  | O => ""
  | S fuel =>
      if 16 <? zlen data
      then row_line indent off (take 16 data) +:+ dump_lines indent fuel (off + 16) (drop 16 data)
      else row_line indent off data
  end.

(** The reference: a line per 16 bytes and an empty line. *)
Definition dump_reference (indent : nat) (data : list byte) : string :=
  dump_lines indent (S (length data)) 0 data +:+ nl.

Lemma str_app_cons c (s t : string) : String c s +:+ t = String c (s +:+ t).
Proof. reflexivity. Qed.

Lemma str_nil_app (s : string) : "" +:+ s = s.
Proof. reflexivity. Qed.

Lemma str_app_assoc (s t u : string) : (s +:+ t) +:+ u = s +:+ (t +:+ u).
Proof. induction s as [|c s IH]; [done|]. by rewrite !str_app_cons, IH. Qed.

Lemma str_app_nil (s : string) : s +:+ "" = s.
Proof. induction s as [|c s IH]; [done|]. by rewrite str_app_cons, IH. Qed.

Lemma str_length_app (s t : string) : String.length (s +:+ t) = (String.length s + String.length t)%nat.
Proof. induction s as [|c s IH]; [done|]. rewrite str_app_cons. simpl. by rewrite IH. Qed.

Lemma byte_hex_width b : String.length (setw 2 "0"%char (hex (Z_of_byte b))) = 2%nat.
Proof. by destruct b. Qed.

Lemma row_hex_app i row b :
  row_hex i (row ++ [b]) =
  row_hex i row +:+ ((if (0 <? i + zlen row) && ((i + zlen row) mod 2 =? 0) then " " else "") +:+
    setw 2 "0"%char (hex (Z_of_byte b))).
Proof.
  revert i. induction row as [|a row IH]; intros i; cbn [row_hex app].
  - rewrite Z.add_0_r. by rewrite str_app_nil.
  - rewrite IH, !str_app_assoc. rewrite length_cons, Nat2Z.inj_succ. replace (i + Z.succ (zlen row)) with (i + 1 + zlen row) by lia. done.
Qed.

Lemma row_text_app row b : row_text (row ++ [b]) = row_text row +:+ String (shown b) "".
Proof. induction row as [|a row IH]; simpl; [done|]. by rewrite IH. Qed.

Lemma row_hex_width i row : 0 < i ->
  Z.of_nat (String.length (row_hex i row)) = 2 * zlen row + ((i + zlen row + 1) / 2 - (i + 1) / 2).
Proof.
  revert i. induction row as [|b row IH]; intros i Hi; cbn [row_hex].
  - simpl. rewrite Z.add_0_r. lia.
  - rewrite !str_length_app, byte_hex_width, !Nat2Z.inj_add, IH, length_cons by lia.
    destruct (Z.ltb_spec 0 i); [|lia]. simpl andb.
    destruct (Z.eqb_spec (i mod 2) 0);
      [change (String.length " ") with 1%nat|change (String.length "") with 0%nat]; Z.to_euclidean_division_equations; lia.
Qed.

Lemma row_hex_width0 row : row <> [] ->
  Z.of_nat (String.length (row_hex 0 row)) = 2 * zlen row + (zlen row - 1) / 2.
Proof.
  destruct row as [|b row]; [done|]. intros _. cbn [row_hex].
  rewrite !str_length_app, byte_hex_width, !Nat2Z.inj_add, row_hex_width, length_cons by lia.
  change (String.length (if (0 <? 0) && (0 mod 2 =? 0) then " " else "")) with 0%nat. Z.to_euclidean_division_equations; lia.
Qed.

Lemma land_15 n : Z.land n 15 = n mod 16.
Proof. change 15 with (Z.ones 4). by rewrite Z.land_ones. Qed.

Lemma land_1 n : Z.land n 1 = n mod 2.
Proof. change 1 with (Z.ones 1). by rewrite Z.land_ones. Qed.

(** What the loop has done when [row] is the row it is in. *)
Definition dumping (indent : nat) (acc : string) (off : Z) (row : list byte) : dump :=
  Dump (acc +:+ row_head indent off +:+ row_hex 0 row) (off + zlen row) (Stream (row_text row) "").

Definition finish (d : dump) : string :=
  let print_rem := Z.rem (16 - Z.land (printed d) 15) 16 in
  out d +:+ fill (Z.to_nat (2 * print_rem + print_rem ÷ 2 + 4)) " "%char +:+ str (pchars d) +:+ nl +:+ nl.

Lemma dumping_put indent acc off row b :
  row <> [] -> zlen row < 16 -> off mod 16 = 0 -> 0 <= off -> off + zlen row + 1 < two31 ->
  dump_byte indent (dumping indent acc off row) b = Ok (dumping indent acc off (row ++ [b])).
Proof.
  intros Hne Hlen Hoff H0 Hb. assert (0 < zlen row) by (destruct row; simpl length; [done|lia]).
  unfold dump_byte, dumping. cbn [printed out pchars]. rewrite land_15, land_1.
  replace ((off + zlen row) mod 16 =? 0) with false
    by (symmetry; apply Z.eqb_neq; Z.to_euclidean_division_equations; lia).
  assert (Heven : (off + zlen row) mod 2 = zlen row mod 2)
    by (Z.to_euclidean_division_equations; lia).
  rewrite Heven, row_hex_app, row_text_app, Z.add_0_l, length_app, Nat2Z.inj_add.
  destruct (Z.ltb_spec 0 (zlen row)); [|lia]. simpl andb. change (zlen [b]) with 1.
  destruct (Z.eqb_spec (zlen row mod 2) 0); cbn [printed out pchars];
    (destruct (Z.leb_spec two31 (off + zlen row + 1)); [lia|]); rewrite !str_app_assoc;
    unfold put; cbn [written ahead]; rewrite ?Z.add_assoc; done.
Qed.

Lemma dumping_wrap indent acc off row b :
  zlen row = 16 -> off mod 16 = 0 -> 0 <= off -> off + 17 < two31 ->
  dump_byte indent (dumping indent acc off row) b =
  Ok (dumping indent (acc +:+ row_line indent off row) (off + 16) [b]).
Proof.
  intros Hlen Hoff H0 Hb. unfold dump_byte, dumping. cbn [printed out pchars]. rewrite land_15, Hlen.
  replace ((off + 16) mod 16 =? 0) with true
    by (symmetry; apply Z.eqb_eq; Z.to_euclidean_division_equations; lia).
  destruct (Z.eqb_spec (off + 16) 0); [lia|]. simpl negb. cbn [printed out pchars].
  destruct (Z.leb_spec two31 (off + 16 + 1)); [lia|].
  assert (Hpad : (43 - String.length (row_hex 0 row))%nat = 4%nat).
  { pose proof (row_hex_width0 row) as Hw. rewrite Hlen in Hw.
    assert (row <> []) by (by intros ->). specialize (Hw ltac:(done)). Z.to_euclidean_division_equations; lia. }
  unfold row_line, row_head, str, stream_of, put. cbn [written ahead row_hex row_text]. rewrite Hpad.
  rewrite !str_app_assoc, str_app_nil. done.
Qed.

Lemma dumping_finish indent acc off row :
  row <> [] -> zlen row <= 16 -> off mod 16 = 0 -> 0 <= off ->
  finish (dumping indent acc off row) = acc +:+ row_line indent off row +:+ nl.
Proof.
  intros Hne Hlen Hoff H0. assert (0 < zlen row) by (destruct row; simpl length; [done|lia]).
  unfold finish, dumping, row_line, str. cbn [printed out pchars written ahead].
  rewrite !str_app_assoc, str_nil_app. do 5 f_equal.
  pose proof (row_hex_width0 row Hne) as Hw. rewrite land_15.
  rewrite Z.rem_mod_nonneg by (try lia; Z.to_euclidean_division_equations; lia).
  rewrite Z.quot_div_nonneg by (try lia; Z.to_euclidean_division_equations; lia).
  Z.to_euclidean_division_equations; lia.
Qed.

Lemma dump_loop_spec indent data : forall fuel acc off row,
  row <> [] -> zlen row <= 16 -> off mod 16 = 0 -> 0 <= off -> off + zlen row + zlen data < two31 ->
  (length (row ++ data) <= 16 * S fuel)%nat ->
  exists d, dump_loop indent (dumping indent acc off row) data = Ok d /\
    finish d = acc +:+ dump_lines indent (S fuel) off (row ++ data) +:+ nl.
Proof.
  induction data as [|b data IH]; intros fuel acc off row Hne Hlen Hoff H0 Hb Hf; cbn [dump_loop].
  - eexists. split; [done|]. rewrite app_nil_r, dumping_finish by done. cbn [dump_lines].
    destruct (Z.ltb_spec 16 (zlen row)); [lia|done].
  - rewrite length_app in Hf. simpl length in Hf. cbn [dump_lines]. simpl length in Hb.
    destruct (Z.eq_dec (zlen row) 16) as [Hfull|Hpart].
    + rewrite dumping_wrap by lia. cbn [mbind outcome_bind]. destruct fuel as [|fuel]; [lia|].
      destruct (IH fuel (acc +:+ row_line indent off row) (off + 16) [b]) as (d & -> & Hd); try done;
        simpl length in *; try (Z.to_euclidean_division_equations; lia).
      exists d. split; [done|]. rewrite Hd, length_app. simpl length.
      destruct (Z.ltb_spec 16 (Z.of_nat (length row + S (length data)))); [|lia].
      rewrite take_app_length', drop_app_length' by lia. by rewrite !str_app_assoc.
    + rewrite dumping_put by (try done; lia). cbn [mbind outcome_bind].
      destruct (IH fuel acc off (row ++ [b])%list) as (d & -> & Hd); try done;
        [by intros []%app_nil|rewrite ?length_app; simpl length; lia..|].
      exists d. split; [done|]. by rewrite Hd, <- app_assoc.
Qed.

Lemma dump_first indent b : dump_byte indent (Dump "" 0 (stream_of " ")) b = Ok (dumping indent "" 0 [b]).
Proof.
  unfold dump_byte, dumping, put, stream_of, row_head. cbn [printed out pchars].
  change (Z.land 0 15 =? 0) with true. change (0 =? 0) with true. change (negb true) with false.
  cbv iota. cbn [printed out pchars written ahead row_hex row_text]. by rewrite !str_app_assoc, str_app_nil.
Qed.

Lemma hexdump_rows (data : list byte) (indent : nat) :
  zlen data < two31 -> data <> [] -> hexdump data indent = Ok (dump_reference indent data).
Proof.
  intros Hlen Hne.   destruct data as [|b data]; [done|]. unfold hexdump, dump_reference. cbn [dump_loop].
  rewrite dump_first. cbn [mbind outcome_bind]. simpl length in Hlen.
  destruct (dump_loop_spec indent data (length (b :: data)) "" 0 [b]) as (d & -> & Hd);
    try done; [simpl length; lia..|]. cbn [mbind outcome_bind].
  change (Ok (finish d) = Ok (dump_lines indent (S (length (b :: data))) 0 (b :: data) +:+ nl)).
  f_equal. exact Hd.
Qed.

(** ** Properties *)

(** A dump shows its data row by row: [hexdump] prints a line for every 16 bytes, with the
    offset, the bytes in pairs and, from the same column on in every row, the printable
    characters, and then an empty line.  The characters start where the padding ends: the space
    [pchars] is created with is overwritten by the first of them. *)
Theorem hexdump_layout (data : list byte) (indent : nat) (Hlen : zlen data < two31) (Hne : data <> []) :
  hexdump data indent = Ok (dump_reference indent data).
Proof. by apply hexdump_rows. Qed.

Lemma hexdump_layout_witness :
  hexdump (Byte.x48 :: Byte.x69 :: replicate 15 Byte.x00) 8 =
    Ok (dump_reference 8 (Byte.x48 :: Byte.x69 :: replicate 15 Byte.x00)).
Proof. apply hexdump_layout; [simpl; lia|discriminate]. Defined.
