(* ===== verification/NetIf.v ===== *)
(** * NetIf.v: the network interface between IP and Ethernet

    Models [libsponge/network_interface.hh] and [libsponge/network_interface.cc]:
    [NetworkInterface] wraps datagrams into frames, resolves next hops with ARP, keeps
    datagrams waiting for a resolution, and unwraps received frames.  The maps keyed by IPv4
    address are finite maps; [emplace] on them keeps an existing entry. *)

From stdpp Require Import gmap.
From S2P Require Import Prelude Buffers Parsing IpWire EtherWire Addresses.

(** [std::map::emplace]: inserts only if the key is new. *)
Definition emplace `{Countable K} {A} (m : gmap K A) (k : K) (v : A) : gmap K A :=
  match m !! k with
  | Some _ => m
  | None => <[k := v]> m
  end.

Module NetworkInterface.

Definition ARP_TIME_LIMIT : Z := 5000.
Definition IP_TO_ETHERNET_LIMIT : Z := 30000.

Record t := mk {
  ethernet_address_ : EthernetAddress;
  ip_address_ : Address.t;
  frames_out_ : list EthernetFrame.t;
  map_ : gmap Z (EthernetAddress * Z);
  already_sent_arp_ : gmap Z Z;
  buffer_ : gmap Z (list IPv4Datagram.t);
  ms_since_last_tick_ : Z
}.

Definition make (ethernet_address : EthernetAddress) (ip_address : Address.t) : t :=
  mk ethernet_address ip_address [] ∅ ∅ ∅ 0.

Definition frames_out (n : t) : list EthernetFrame.t := frames_out_ n.

(** Assignments to the fields. *)
Definition set_frames_out (n : t) v : t :=
  mk (ethernet_address_ n) (ip_address_ n) v (map_ n) (already_sent_arp_ n) (buffer_ n)
    (ms_since_last_tick_ n).
Definition set_map (n : t) v : t :=
  mk (ethernet_address_ n) (ip_address_ n) (frames_out_ n) v (already_sent_arp_ n) (buffer_ n)
    (ms_since_last_tick_ n).
Definition set_already_sent (n : t) v : t :=
  mk (ethernet_address_ n) (ip_address_ n) (frames_out_ n) (map_ n) v (buffer_ n)
    (ms_since_last_tick_ n).
Definition set_buffer (n : t) v : t :=
  mk (ethernet_address_ n) (ip_address_ n) (frames_out_ n) (map_ n) (already_sent_arp_ n) v
    (ms_since_last_tick_ n).

Definition push_frame (n : t) (f : EthernetFrame.t) : t := set_frames_out n (frames_out_ n ++ [f]).

Definition generate_ip_frame (n : t) (dst : EthernetAddress) (payload : IPv4Datagram.t)
  : outcome EthernetFrame.t :=
  s ← IPv4Datagram.serialize payload;
  Ok (EthernetFrame.mk (EthernetHeader.mk dst (ethernet_address_ n) EthernetHeader.TYPE_IPv4) s).

Definition generate_arp_frame (n : t) (dst : EthernetAddress) (ip_address opcode : Z)
  : outcome EthernetFrame.t :=
  own ← Address.ipv4_numeric (ip_address_ n);
  let msg := ARPMessage.mk ARPMessage.TYPE_ETHERNET EthernetHeader.TYPE_IPv4 6 4 opcode
    (ethernet_address_ n) own dst ip_address in
  s ← ARPMessage.serialize msg;
  Ok (EthernetFrame.mk
        (EthernetHeader.mk (if bool_decide (dst = EMPTY_ADDRESS) then ETHERNET_BROADCAST else dst)
           (ethernet_address_ n) EthernetHeader.TYPE_ARP)
        (BufferList.of_string s)).

Definition send_datagram (n : t) (dgram : IPv4Datagram.t) (next_hop : Address.t) : outcome t :=
  next_hop_ip ← Address.ipv4_numeric next_hop;
  let direct :=
    match map_ n !! next_hop_ip with
    | Some (eth, since) =>
        if u64 (ms_since_last_tick_ n - since) <? IP_TO_ETHERNET_LIMIT then Some eth else None
    | None => None
    end in
  match direct with
  | Some eth => f ← generate_ip_frame n eth dgram; Ok (push_frame n f)
  | None =>
      let request :=
        match already_sent_arp_ n !! next_hop_ip with
        | None => true
        | Some since => ARP_TIME_LIMIT <=? u64 (ms_since_last_tick_ n - since)
        end in
      n ←
        (if request : bool then
           f ← generate_arp_frame n EMPTY_ADDRESS next_hop_ip ARPMessage.OPCODE_REQUEST;
           let n := push_frame n f in
           Ok (set_already_sent n (emplace (already_sent_arp_ n) next_hop_ip (ms_since_last_tick_ n)))
         else Ok n);
      Ok (set_buffer n (<[next_hop_ip := default [] (buffer_ n !! next_hop_ip) ++ [dgram]]> (buffer_ n)))
  end.

(** The loop over the datagrams that waited for an address. *)
Fixpoint send_buffered (n : t) (eth : EthernetAddress) (l : list IPv4Datagram.t) : outcome t :=
  match l with
  | [] => Ok n
  | dgram :: l' => f ← generate_ip_frame n eth dgram; send_buffered (push_frame n f) eth l'
  end.

Definition recv_frame (n : t) (frame : EthernetFrame.t) : outcome (t * option IPv4Datagram.t) :=
  let header := EthernetFrame.header frame in
  if negb (bool_decide (EthernetHeader.dst header = ethernet_address_ n)) &&
     negb (bool_decide (EthernetHeader.dst header = ETHERNET_BROADCAST))
  then Ok (n, None)
  else if EthernetHeader.type header =? EthernetHeader.TYPE_IPv4 then
    b ← BufferList.to_buffer (EthernetFrame.payload frame);
    '(r, dgram) ← IPv4Datagram.parse IPv4Datagram.make b;
    if bool_decide (r = NoError) then Ok (n, Some dgram) else Ok (n, None)
  else if EthernetHeader.type header =? EthernetHeader.TYPE_ARP then
    b ← BufferList.to_buffer (EthernetFrame.payload frame);
    '(r, msg) ← ARPMessage.parse ARPMessage.make b;
    if bool_decide (r = NoError) then
      let sender := ARPMessage.sender_ip_address msg in
      let n := set_map n (emplace (map_ n) sender
        (ARPMessage.sender_ethernet_address msg, ms_since_last_tick_ n)) in
      n ←
        match buffer_ n !! sender with
        | Some l =>
            n ← send_buffered n (ARPMessage.sender_ethernet_address msg) l;
            Ok (set_buffer n (delete sender (buffer_ n)))
        | None => Ok n
        end;
      (* [msg.target_ethernet_address == EMPTY_ADDRESS && msg.target_ip_address == ...]: the
         address is only converted when the first test succeeds *)
      n ←
        (if bool_decide (ARPMessage.target_ethernet_address msg = EMPTY_ADDRESS) then
           own ← Address.ipv4_numeric (ip_address_ n);
           if ARPMessage.target_ip_address msg =? own then
             f ← generate_arp_frame n (ARPMessage.sender_ethernet_address msg) sender
                   ARPMessage.OPCODE_REPLY;
             Ok (push_frame n f)
           else Ok n
         else Ok n);
      Ok (n, None)
    else Ok (n, None)
  else Ok (n, None).

Definition tick (n : t) (ms_since_last_tick : Z) : t :=
  mk (ethernet_address_ n) (ip_address_ n) (frames_out_ n) (map_ n) (already_sent_arp_ n)
    (buffer_ n) (u64 (ms_since_last_tick_ n + ms_since_last_tick)).

End NetworkInterface.

(** ** Invariant *)

Section interface_inv.

Import NetworkInterface.

(** The interface's own IPv4 address as a number. *)
Variable own : Z.

(** A mapping that has not expired. *)
Definition usable (n : t) (ip : Z) : option EthernetAddress :=
  match map_ n !! ip with
  | Some (eth, since) =>
      if ms_since_last_tick_ n - since <? IP_TO_ETHERNET_LIMIT then Some eth else None
  | None => None
  end.

Record ni_wf (n : t) : Prop := {
  ni_eth : addr_ok (ethernet_address_ n);
  ni_own : Address.ipv4_numeric (ip_address_ n) = Ok own;
  ni_own_range : 0 <= own < two32;
  ni_time : 0 <= ms_since_last_tick_ n < two64;
  ni_map : forall ip eth since, map_ n !! ip = Some (eth, since) -> 0 <= since <= ms_since_last_tick_ n;
  ni_arp : forall ip since, already_sent_arp_ n !! ip = Some since -> 0 <= since <= ms_since_last_tick_ n;
  ni_buffer : forall ip l, buffer_ n !! ip = Some l -> Forall IPv4Datagram.ok l;
  ni_usable : forall ip, usable n ip <> None -> buffer_ n !! ip = None
}.

(** The frame that carries a datagram, and the frames of ARP. *)
Definition ip_frame (n : t) (eth : EthernetAddress) (d : IPv4Datagram.t) (f : EthernetFrame.t) : Prop :=
  exists s, IPv4Datagram.serialize d = Ok s /\
    f = EthernetFrame.mk (EthernetHeader.mk eth (ethernet_address_ n) EthernetHeader.TYPE_IPv4) s.

Definition arp_frame (n : t) (dst target : EthernetAddress) (ip opcode : Z) (f : EthernetFrame.t) : Prop :=
  exists s, ARPMessage.serialize (ARPMessage.mk ARPMessage.TYPE_ETHERNET EthernetHeader.TYPE_IPv4 6 4 opcode
      (ethernet_address_ n) own target ip) = Ok s /\
    f = EthernetFrame.mk (EthernetHeader.mk dst (ethernet_address_ n) EthernetHeader.TYPE_ARP)
          (BufferList.of_string s).

Lemma generate_ip_ok n eth d :
  IPv4Datagram.ok d -> exists f, generate_ip_frame n eth d = Ok f /\ ip_frame n eth d f.
Proof.
  intros Hd. destruct (datagram_serialize_spec d Hd) as (v & out & _ & Hs & _).
  unfold generate_ip_frame. rewrite Hs. simpl. eexists. split; [done|]. by exists out.
Qed.

Lemma generate_arp_ok n dst ip opcode :
  Address.ipv4_numeric (ip_address_ n) = Ok own ->
  opcode = ARPMessage.OPCODE_REQUEST \/ opcode = ARPMessage.OPCODE_REPLY ->
  exists f, generate_arp_frame n dst ip opcode = Ok f /\
    arp_frame n (if bool_decide (dst = EMPTY_ADDRESS) then ETHERNET_BROADCAST else dst) dst ip opcode f.
Proof.
  intros Hown Hop. unfold generate_arp_frame. rewrite Hown. cbn [mbind outcome_bind].
  set (msg := ARPMessage.mk _ _ _ _ _ _ _ _ _).
  assert (Hsup : ARPMessage.supported msg = true) by (by destruct Hop as [->| ->]).
  unfold arp_frame. fold msg. unfold ARPMessage.serialize. rewrite Hsup. simpl negb. cbv iota.
  cbn [mbind outcome_bind]. eexists. split; [done|]. by eexists.
Qed.

(** Whether an ARP request goes out with a datagram for [ip]. *)
Definition requests (n : t) (ip : Z) : bool :=
  match already_sent_arp_ n !! ip with
  | None => true
  | Some since => ARP_TIME_LIMIT <=? ms_since_last_tick_ n - since
  end.

(** Everything [send_datagram] does. *)
Lemma send_spec n d hop ip :
  ni_wf n -> IPv4Datagram.ok d -> Address.ipv4_numeric hop = Ok ip ->
  exists n' new, send_datagram n d hop = Ok n' /\ ni_wf n' /\
    frames_out_ n' = frames_out_ n ++ new /\ ethernet_address_ n' = ethernet_address_ n /\
    map_ n' = map_ n /\ ms_since_last_tick_ n' = ms_since_last_tick_ n /\
    match usable n ip with
    | Some eth => (exists f, new = [f] /\ ip_frame n eth d f) /\ buffer_ n' = buffer_ n /\
        already_sent_arp_ n' = already_sent_arp_ n
    | None =>
        (if requests n ip
         then exists f, new = [f] /\ arp_frame n ETHERNET_BROADCAST EMPTY_ADDRESS ip ARPMessage.OPCODE_REQUEST f
         else new = []) /\
        buffer_ n' = <[ip := default [] (buffer_ n !! ip) ++ [d]]> (buffer_ n) /\
        already_sent_arp_ n' =
          (if requests n ip then emplace (already_sent_arp_ n) ip (ms_since_last_tick_ n)
           else already_sent_arp_ n)
    end.
Proof.
  intros Hn Hd Hhop. pose proof Hn as [He Ho Hor Ht Hm Ha Hb Hu].
  unfold send_datagram. rewrite Hhop. cbn [mbind outcome_bind].
  assert (Hdir : match map_ n !! ip with
    | Some (eth, since) => if u64 (ms_since_last_tick_ n - since) <? IP_TO_ETHERNET_LIMIT then Some eth else None
    | None => None end = usable n ip).
  { unfold usable. destruct (map_ n !! ip) as [[eth since]|] eqn:E; [|done].
    pose proof (Hm _ _ _ E). by rewrite u64_small by lia. }
  assert (Hreq : match already_sent_arp_ n !! ip with
    | None => true | Some since => ARP_TIME_LIMIT <=? u64 (ms_since_last_tick_ n - since) end = requests n ip).
  { unfold requests. destruct (already_sent_arp_ n !! ip) as [since|] eqn:E; [|done].
    pose proof (Ha _ _ E). by rewrite u64_small by lia. }
  cbv zeta. rewrite Hdir, Hreq. clear Hdir Hreq.
  destruct (usable n ip) as [eth|] eqn:Eu.
  - destruct (generate_ip_ok n eth d Hd) as (f & -> & Hf). cbn [mbind outcome_bind].
    eexists _, [f]. split; [done|]. split; [by split|]. split_and!; try done. by exists f.
  - destruct (requests n ip) eqn:Er.
    + destruct (generate_arp_ok n EMPTY_ADDRESS ip ARPMessage.OPCODE_REQUEST Ho) as (f & -> & Hf); [by left|].
      cbn [mbind outcome_bind]. eexists _, [f]. split; [done|]. split; [|split_and!; try done; by exists f].
      split; try done; simpl.
      * intros ip' since. unfold emplace. destruct (already_sent_arp_ n !! ip) eqn:E; [apply Ha|].
        destruct (decide (ip' = ip)) as [->|]; [|rewrite lookup_insert_ne by done; apply Ha].
        rewrite lookup_insert_eq. intros [= <-]. lia.
      * intros ip' l. destruct (decide (ip' = ip)) as [->|]; [|rewrite lookup_insert_ne by done; apply Hb].
        rewrite lookup_insert_eq. intros [= <-]. apply Forall_app. split; [|by constructor].
        destruct (buffer_ n !! ip) eqn:E; [by eapply Hb|constructor].
      * intros ip' Hu'. destruct (decide (ip' = ip)) as [->|]; [|rewrite lookup_insert_ne by done; by apply Hu].
        unfold usable in *. simpl in Hu'. congruence.
    + cbn [mbind outcome_bind]. eexists _, []. rewrite app_nil_r. split; [done|]. split; [|done].
      split; try done; simpl.
      * intros ip' l. destruct (decide (ip' = ip)) as [->|]; [|rewrite lookup_insert_ne by done; apply Hb].
        rewrite lookup_insert_eq. intros [= <-]. apply Forall_app. split; [|by constructor].
        destruct (buffer_ n !! ip) eqn:E; [by eapply Hb|constructor].
      * intros ip' Hu'. destruct (decide (ip' = ip)) as [->|]; [|rewrite lookup_insert_ne by done; by apply Hu].
        unfold usable in *. simpl in Hu'. congruence.
Qed.


(** ** Receiving *)

(** A frame as it comes from [EthernetFrame::parse] of a packet of less than 64 KiB. *)
Definition frame_ok (f : EthernetFrame.t) : Prop :=
  exists b, EthernetFrame.payload f = [b] /\ Buffer.wf b /\ zlen (Buffer.str b) < two16.

Definition frame_bytes (f : EthernetFrame.t) : list byte := BufferList.concatenate (EthernetFrame.payload f).

(** Whether the frame is for this interface. *)
Definition for_us (n : t) (f : EthernetFrame.t) : Prop :=
  EthernetHeader.dst (EthernetFrame.header f) = ethernet_address_ n \/
  EthernetHeader.dst (EthernetFrame.header f) = ETHERNET_BROADCAST.

#[export] Instance for_us_dec n f : Decision (for_us n f).
Proof. unfold for_us. apply _. Defined.

(** The ARP message the interface takes from a frame. *)
Definition arp_in (n : t) (f : EthernetFrame.t) : option ARPMessage.t :=
  if decide (for_us n f) then
    if EthernetHeader.type (EthernetFrame.header f) =? EthernetHeader.TYPE_ARP then
      match arp_verdict (frame_bytes f) with NoError => Some (arp_of (frame_bytes f)) | _ => None end
    else None
  else None.

(** The datagram the interface takes from a frame. *)
Definition dgram_in (n : t) (f : EthernetFrame.t) : option IPv4Datagram.t :=
  if decide (for_us n f) then
    if EthernetHeader.type (EthernetFrame.header f) =? EthernetHeader.TYPE_IPv4 then
      match BufferList.to_buffer (EthernetFrame.payload f) ≫= IPv4Datagram.parse IPv4Datagram.make with
      | Ok (NoError, d) => Some d
      | _ => None
      end
    else None
  else None.

Lemma emplace_lookup `{Countable K} {A} (m : gmap K A) k v k' :
  emplace m k v !! k' = if decide (k' = k) then Some (default v (m !! k)) else m !! k'.
Proof.
  unfold emplace. destruct (m !! k) eqn:E; case_decide; subst; simpl; try done.
  - by rewrite lookup_insert_eq.
  - by rewrite lookup_insert_ne.
Qed.

Lemma send_buffered_ok n eth l :
  Forall IPv4Datagram.ok l ->
  exists fs, send_buffered n eth l = Ok (set_frames_out n (frames_out_ n ++ fs)) /\
    Forall2 (ip_frame n eth) l fs.
Proof.
  intros Hl. revert n. induction Hl as [|d l Hd Hl IH]; intros n; cbn [send_buffered].
  - exists []. rewrite app_nil_r. by destruct n.
  - destruct (generate_ip_ok n eth d Hd) as (f & -> & Hf). cbn [mbind outcome_bind].
    destruct (IH (push_frame n f)) as (fs & -> & Hfs). exists (f :: fs). split; [|by constructor].
    unfold push_frame, set_frames_out. simpl. by rewrite <- app_assoc.
Qed.

(** Learning a mapping and sending what waited for it keeps the invariant. *)
Lemma learn_wf n eth ip fs :
  ni_wf n ->
  ni_wf (mk (ethernet_address_ n) (ip_address_ n) fs
           (emplace (map_ n) ip (eth, ms_since_last_tick_ n)) (already_sent_arp_ n)
           (delete ip (buffer_ n)) (ms_since_last_tick_ n)).
Proof.
  intros [He Ho Hor Ht Hm Ha Hb Hu]. split; simpl; try done.
  - intros ip' eth' since. rewrite emplace_lookup. case_decide as Hip; [subst ip'|by apply Hm].
    destruct (map_ n !! ip) as [[e s]|] eqn:E; simpl; intros [= <- <-]; [by eapply Hm|lia].
  - intros ip' l [_ Hl]%lookup_delete_Some. by eapply Hb.
  - intros ip' Hip. destruct (decide (ip' = ip)) as [->|Hne]; [by rewrite lookup_delete_eq|].
    rewrite lookup_delete_ne by done. apply Hu. unfold usable in *. simpl in Hip.
    rewrite emplace_lookup, decide_False in Hip by done. done.
Qed.

(** What an accepted ARP message does. *)
Definition arp_effect (n : t) (m : ARPMessage.t) (n' : t) : Prop :=
  let eth := ARPMessage.sender_ethernet_address m in
  let ip := ARPMessage.sender_ip_address m in
  exists ips reply,
    n' = mk (ethernet_address_ n) (ip_address_ n) (frames_out_ n ++ ips ++ reply)
           (emplace (map_ n) ip (eth, ms_since_last_tick_ n)) (already_sent_arp_ n)
           (delete ip (buffer_ n)) (ms_since_last_tick_ n) /\
    Forall2 (ip_frame n eth) (default [] (buffer_ n !! ip)) ips /\
    (if bool_decide (ARPMessage.target_ethernet_address m = EMPTY_ADDRESS /\
                     ARPMessage.target_ip_address m = own)
     then exists f, reply = [f] /\
       arp_frame n (if bool_decide (eth = EMPTY_ADDRESS) then ETHERNET_BROADCAST else eth) eth ip
         ARPMessage.OPCODE_REPLY f
     else reply = []).

Lemma recv_arp_ok n b m :
  ni_wf n -> arp_verdict (Buffer.str b) = NoError -> arp_of (Buffer.str b) = m -> Buffer.wf b ->
  forall h, EthernetHeader.type h = EthernetHeader.TYPE_ARP ->
    for_us n (EthernetFrame.mk h [b]) ->
  exists n', recv_frame n (EthernetFrame.mk h [b]) = Ok (n', None) /\ arp_effect n m n'.
Proof.
  intros Hn Hv <- Hb h Ht Hfor. unfold recv_frame. cbv zeta.
  change (EthernetFrame.header (EthernetFrame.mk h [b])) with h.
  assert (Hacc : negb (bool_decide (EthernetHeader.dst h = ethernet_address_ n)) &&
    negb (bool_decide (EthernetHeader.dst h = ETHERNET_BROADCAST)) = false).
  { destruct Hfor as [E|E]; simpl in E; rewrite E; rewrite (bool_decide_eq_true_2 _ eq_refl); simpl; by rewrite ?andb_false_r. }
  rewrite Hacc, Ht. change (EthernetHeader.TYPE_ARP =? EthernetHeader.TYPE_IPv4) with false.
  rewrite Z.eqb_refl. cbv iota.
  change (BufferList.to_buffer (EthernetFrame.payload (EthernetFrame.mk h [b]))) with (Ok b).
  destruct (arp_parse_spec ARPMessage.make b Hb) as (m' & Hp & Hm'). rewrite Hv in Hp.
  specialize (Hm' Hv). subst m'. cbn [mbind outcome_bind]. rewrite Hp. cbn [mbind outcome_bind].
  rewrite (bool_decide_eq_true_2 _ (eq_refl NoError)). cbv zeta.
  set (m := arp_of (Buffer.str b)) in *.
  set (eth := ARPMessage.sender_ethernet_address m). set (ip := ARPMessage.sender_ip_address m).
  set (n1 := set_map n _).
  assert (Hflush : exists fs, match buffer_ n1 !! ip with
      | Some l => send_buffered n1 eth l ≫= fun n0 => Ok (set_buffer n0 (delete ip (buffer_ n0)))
      | None => Ok n1 end =
      Ok (mk (ethernet_address_ n) (ip_address_ n) (frames_out_ n ++ fs)
            (emplace (map_ n) ip (eth, ms_since_last_tick_ n)) (already_sent_arp_ n)
            (delete ip (buffer_ n)) (ms_since_last_tick_ n)) /\
      Forall2 (ip_frame n eth) (default [] (buffer_ n !! ip)) fs).
  { change (buffer_ n1) with (buffer_ n). destruct (buffer_ n !! ip) as [l|] eqn:El; simpl.
    - destruct (send_buffered_ok n1 eth l) as (fs & -> & Hfs); [by eapply ni_buffer|].
      exists fs. by split.
    - exists []. rewrite app_nil_r, delete_id by done. by split. }
  destruct Hflush as (fs & -> & Hfs). cbn [mbind outcome_bind].
  unfold arp_effect. fold eth ip. set (n2 := mk _ _ _ _ _ _ _).
  destruct (decide (ARPMessage.target_ethernet_address m = EMPTY_ADDRESS)) as [Hte|Hte].
  2:{ rewrite bool_decide_eq_false_2 by done. eexists. split; [done|]. exists fs, [].
      rewrite bool_decide_eq_false_2 by tauto. by rewrite app_nil_r. }
  rewrite bool_decide_eq_true_2 by done. change (ip_address_ n2) with (ip_address_ n).
  rewrite (ni_own n Hn). cbn [mbind outcome_bind].
  destruct (Z.eqb_spec (ARPMessage.target_ip_address m) own) as [Hti|Hti].
  2:{ eexists. split; [done|]. exists fs, []. rewrite bool_decide_eq_false_2 by tauto. by rewrite app_nil_r. }
  destruct (generate_arp_ok n2 eth ip ARPMessage.OPCODE_REPLY) as (f & -> & Hf); [apply (ni_own n Hn)|by right|].
  cbn [mbind outcome_bind]. eexists. split; [done|]. exists fs, [f].
  rewrite bool_decide_eq_true_2 by done. split; [|split; [done|by exists f]].
  unfold push_frame, set_frames_out. simpl. by rewrite <- app_assoc.
Qed.

(** Everything [recv_frame] does. *)
Lemma recv_spec n f :
  ni_wf n -> frame_ok f ->
  exists n', recv_frame n f = Ok (n', dgram_in n f) /\ ni_wf n' /\
    match arp_in n f with
    | Some m => arp_effect n m n'
    | None => n' = n
    end.
Proof.
  intros Hn (b & Hpl & Hb & Hlen). destruct f as [h pl]. simpl in Hpl. subst pl.
  unfold arp_in, dgram_in. change (EthernetFrame.header (EthernetFrame.mk h [b])) with h.
  assert (Hbytes : frame_bytes (EthernetFrame.mk h [b]) = Buffer.str b) by done. rewrite Hbytes.
  change (EthernetFrame.payload (EthernetFrame.mk h [b])) with [b].
  change (BufferList.to_buffer [b]) with (Ok b). cbn [mbind outcome_bind].
  destruct (decide (for_us n (EthernetFrame.mk h [b]))) as [Hf|Hf].
  2:{ exists n. split; [|done]. unfold for_us in Hf. simpl in Hf. unfold recv_frame.
      change (EthernetFrame.header (EthernetFrame.mk h [b])) with h. cbv zeta.
      rewrite !bool_decide_eq_false_2 by tauto. done. }
  destruct (Z.eqb_spec (EthernetHeader.type h) EthernetHeader.TYPE_ARP) as [Ht|Ht].
  - rewrite Ht. change (EthernetHeader.TYPE_ARP =? EthernetHeader.TYPE_IPv4) with false. cbv iota.
    destruct (arp_verdict (Buffer.str b)) eqn:Hv;
    [destruct (recv_arp_ok n b _ Hn Hv eq_refl Hb h Ht Hf) as (n' & -> & He); exists n';
      split; [done|]; split; [|done]; destruct He as (ips & rep & -> & _); by apply learn_wf|..].
    all: exists n; split; [|done]; unfold recv_frame; cbv zeta;
      change (EthernetFrame.header (EthernetFrame.mk h [b])) with h;
      destruct (_ && _); [done|]; rewrite Ht;
      change (EthernetHeader.TYPE_ARP =? EthernetHeader.TYPE_IPv4) with false; rewrite Z.eqb_refl; cbv iota;
      change (BufferList.to_buffer (EthernetFrame.payload (EthernetFrame.mk h [b]))) with (Ok b);
      destruct (arp_parse_spec ARPMessage.make b Hb) as (m' & Hp & _); rewrite Hv in Hp;
      cbn [mbind outcome_bind]; rewrite Hp; done.
  - exists n. split; [|done]. unfold recv_frame. cbv zeta.
    change (EthernetFrame.header (EthernetFrame.mk h [b])) with h.
    unfold for_us in Hf. simpl in Hf.
    assert (Hacc : negb (bool_decide (EthernetHeader.dst h = ethernet_address_ n)) &&
      negb (bool_decide (EthernetHeader.dst h = ETHERNET_BROADCAST)) = false).
    { destruct Hf as [E|E]; rewrite E; rewrite (bool_decide_eq_true_2 _ eq_refl); simpl; by rewrite ?andb_false_r. }
    rewrite Hacc. destruct (Z.eqb_spec (EthernetHeader.type h) EthernetHeader.TYPE_IPv4) as [Hi|Hi].
    + change (BufferList.to_buffer (EthernetFrame.payload (EthernetFrame.mk h [b]))) with (Ok b).
      cbn [mbind outcome_bind]. destruct (datagram_parse_total IPv4Datagram.make b Hb Hlen) as (r & d & ->).
      cbn [mbind outcome_bind]. by destruct r.
    + destruct (Z.eqb_spec (EthernetHeader.type h) EthernetHeader.TYPE_ARP); done.
Qed.

End interface_inv.

(** ** Runs of an interface *)

Inductive ni_op :=
  | NSend (d : IPv4Datagram.t) (ip : Z)
  | NRecv (f : EthernetFrame.t)
  | NTick (ms : Z).

Definition ni_step (n : NetworkInterface.t) (op : ni_op) : outcome NetworkInterface.t :=
  match op with
  | NSend d ip => NetworkInterface.send_datagram n d (ipv4_address ip)
  | NRecv f => '(n, _) ← NetworkInterface.recv_frame n f; Ok n
  | NTick ms => Ok (NetworkInterface.tick n ms)
  end.

Fixpoint ni_run (n : NetworkInterface.t) (ops : list ni_op) : outcome NetworkInterface.t :=
  match ops with
  | [] => Ok n
  | op :: ops' => n ← ni_step n op; ni_run n ops'
  end.

Definition ni_op_ok (op : ni_op) : Prop :=
  match op with
  | NSend d ip => IPv4Datagram.ok d /\ 0 <= ip < two32
  | NRecv f => frame_ok f
  | NTick ms => 0 <= ms
  end.

Fixpoint elapsed (ops : list ni_op) : Z :=
  match ops with
  | [] => 0
  | NTick ms :: ops' => ms + elapsed ops'
  | _ :: ops' => elapsed ops'
  end.

(** The datagrams handed to the interface for a next hop, in order. *)
Definition submitted (ip : Z) (ops : list ni_op) : list IPv4Datagram.t :=
  omap (fun op => match op with NSend d ip' => if decide (ip' = ip) then Some d else None | _ => None end) ops.

(** The ARP messages a run brought to an interface with this Ethernet address. *)
Definition heard (n : NetworkInterface.t) (ops : list ni_op) (ip : Z) (eth : EthernetAddress) : Prop :=
  exists f m, NRecv f ∈ ops /\ arp_in n f = Some m /\
    ARPMessage.sender_ip_address m = ip /\ ARPMessage.sender_ethernet_address m = eth.

(** A datagram that left, the next hop it was for and the Ethernet address it was sent to. *)
Definition departure : Type := Z * EthernetAddress * IPv4Datagram.t.

Definition departed_to (ip : Z) (log : list departure) : list IPv4Datagram.t :=
  omap (fun '(ip', _, d) => if decide (ip' = ip) then Some d else None) log.

Definition carries_departure (n : NetworkInterface.t) (x : departure) (f : EthernetFrame.t) : Prop :=
  ip_frame n x.1.2 x.2 f.

Definition ipv4_frames (n : NetworkInterface.t) : list EthernetFrame.t :=
  filter (fun f => EthernetHeader.type (EthernetFrame.header f) = EthernetHeader.TYPE_IPv4)
    (NetworkInterface.frames_out n).

Section interface_runs.

Import NetworkInterface.

Variable own : Z.

(** What the interface has done with the datagrams it was given. *)
Record ni_hist (n0 n : t) (ops : list ni_op) (log : list departure) : Prop := {
  nh_eth : ethernet_address_ n = ethernet_address_ n0;
  nh_frames : Forall2 (carries_departure n0) log (ipv4_frames n);
  nh_fifo : forall ip, submitted ip ops = departed_to ip log ++ default [] (buffer_ n !! ip);
  nh_heard : Forall (fun x => heard n0 ops x.1.1 x.1.2) log;
  nh_known : forall ip eth since, map_ n !! ip = Some (eth, since) -> heard n0 ops ip eth
}.

Lemma heard_mono n ops ops' ip eth : heard n ops ip eth -> heard n (ops ++ ops') ip eth.
Proof. intros (f & m & Hf & H). exists f, m. split; [|done]. apply elem_of_app. by left. Qed.

Lemma arp_in_eth n n' f : ethernet_address_ n = ethernet_address_ n' -> arp_in n f = arp_in n' f.
Proof.
  intros He. unfold arp_in. destruct (decide (for_us n f)) as [H|H], (decide (for_us n' f)) as [H'|H'];
    try done; unfold for_us in *; rewrite He in *; done.
Qed.

Lemma ip_frame_eth n n' eth d f : ethernet_address_ n = ethernet_address_ n' -> ip_frame n eth d f -> ip_frame n' eth d f.
Proof. unfold ip_frame. by intros ->. Qed.

Lemma ip_frame_type n eth d f :
  ip_frame n eth d f -> EthernetHeader.type (EthernetFrame.header f) = EthernetHeader.TYPE_IPv4.
Proof. by intros (s & _ & ->). Qed.

Lemma arp_frame_type n dst tgt ip opc f :
  arp_frame own n dst tgt ip opc f ->
  EthernetHeader.type (EthernetFrame.header f) <> EthernetHeader.TYPE_IPv4.
Proof. by intros (s & _ & ->). Qed.

Lemma ip_frames_filter n eth l fs :
  Forall2 (ip_frame n eth) l fs ->
  filter (fun f => EthernetHeader.type (EthernetFrame.header f) = EthernetHeader.TYPE_IPv4) fs = fs.
Proof.
  induction 1 as [|d f l fs Hf _ IH]; [done|].
  rewrite filter_cons_True by (by eapply ip_frame_type). by rewrite IH.
Qed.

Lemma submitted_app ip ops ops' : submitted ip (ops ++ ops') = submitted ip ops ++ submitted ip ops'.
Proof. apply omap_app. Qed.

Lemma departed_app ip log log' : departed_to ip (log ++ log') = departed_to ip log ++ departed_to ip log'.
Proof. apply omap_app. Qed.

Lemma departed_cons ip ip' eth d log :
  departed_to ip ((ip', eth, d) :: log) = (if decide (ip' = ip) then [d] else []) ++ departed_to ip log.
Proof. unfold departed_to. simpl. by case_decide. Qed.

(** A flush: everything that waited for one next hop leaves, in order. *)
Lemma departed_flush ip ip' eth (l : list IPv4Datagram.t) :
  departed_to ip' ((fun d => (ip, eth, d)) <$> l) = if decide (ip' = ip) then l else [].
Proof.
  induction l as [|d l IH]; [by case_decide|].
  rewrite fmap_cons, departed_cons, IH. destruct (decide (ip = ip')), (decide (ip' = ip)); simpl; congruence.
Qed.

Lemma hist_tick n0 n ops log ms :
  ni_hist n0 n ops log -> ni_hist n0 (tick n ms) (ops ++ [NTick ms]) log.
Proof.
  intros [He Hf Hq Hh Hk]. split; try done.
  - intros ip. rewrite submitted_app. simpl. rewrite app_nil_r. apply Hq.
  - eapply Forall_impl; [done|]. intros x. apply heard_mono.
  - intros. apply heard_mono. eauto.
Qed.

(** The log after a frame was received. *)
Lemma hist_recv n0 n n' ops log f :
  ni_hist n0 n ops log ->
  match arp_in n f with Some m => arp_effect own n m n' | None => n' = n end ->
  exists log', ni_hist n0 n' (ops ++ [NRecv f]) (log ++ log').
Proof.
  intros [He Hf Hq Hh Hk] Heff. rewrite (arp_in_eth n n0) in Heff by done.
  destruct (arp_in n0 f) as [m|] eqn:Em.
  2:{ subst n'. exists []. rewrite app_nil_r. split; try done.
      - intros ip. rewrite submitted_app. simpl. rewrite app_nil_r. apply Hq.
      - eapply Forall_impl; [done|]. intros x. apply heard_mono.
      - intros. apply heard_mono. eauto. }
  assert (Hnew : heard n0 (ops ++ [NRecv f]) (ARPMessage.sender_ip_address m) (ARPMessage.sender_ethernet_address m)).
  { exists f, m. split_and!; try done. apply elem_of_app. right. by constructor. }
  unfold arp_effect in Heff. set (ip := ARPMessage.sender_ip_address m) in *.
  set (eth := ARPMessage.sender_ethernet_address m) in *.
  destruct Heff as (ips & rep & -> & Hips & Hrep).
  exists ((fun d => (ip, eth, d)) <$> default [] (buffer_ n !! ip)). split; simpl; try done.
  - unfold ipv4_frames. simpl. rewrite !filter_app, (ip_frames_filter _ _ _ _ Hips).
    assert (Hr : filter (fun g => EthernetHeader.type (EthernetFrame.header g) = EthernetHeader.TYPE_IPv4) rep = []).
    { destruct (bool_decide _); [destruct Hrep as (g & -> & Hg)|by subst].
      by rewrite filter_cons_False by (by eapply arp_frame_type). }
    rewrite Hr, app_nil_r. apply Forall2_app; [done|]. rewrite Forall2_fmap_l.
    eapply Forall2_impl; [done|]. intros d g Hg. unfold carries_departure. simpl. by eapply ip_frame_eth.
  - intros ip'. rewrite submitted_app, departed_app, departed_flush. simpl. rewrite app_nil_r, Hq.
    destruct (decide (ip' = ip)) as [Hip|Hip]; [by rewrite Hip, lookup_delete_eq, app_nil_r|].
    by rewrite lookup_delete_ne, app_nil_r by done.
  - apply Forall_app. split; [eapply Forall_impl; [done|]; intros x; apply heard_mono|].
    apply Forall_fmap, Forall_true. done.
  - intros ip' eth' since. rewrite emplace_lookup. destruct (decide (ip' = ip)) as [Hip|Hip]; [rewrite Hip|intros; apply heard_mono; eauto].
    destruct (map_ n !! ip) as [[e s]|] eqn:E; simpl; intros [= <- _]; [apply heard_mono; eauto|done].
Qed.

(** The log after a datagram was handed over. *)
Lemma hist_send n0 n ops log d ip :
  ni_wf own n -> IPv4Datagram.ok d -> 0 <= ip < two32 -> ni_hist n0 n ops log ->
  exists n' log', send_datagram n d (ipv4_address ip) = Ok n' /\ ni_wf own n' /\
    ms_since_last_tick_ n' = ms_since_last_tick_ n /\ ni_hist n0 n' (ops ++ [NSend d ip]) (log ++ log').
Proof.
  intros Hn Hd Hip [He Hf Hq Hh Hk].
  destruct (send_spec own n d _ ip Hn Hd (ipv4_numeric_of ip Hip)) as
    (n' & new & Hs & Hn' & Hfr & Heth & Hmap & Htime & Hcase).
  assert (Hh' : Forall (fun x => heard n0 (ops ++ [NSend d ip]) x.1.1 x.1.2) log)
    by (eapply Forall_impl; [done|]; intros x; apply heard_mono).
  assert (Hsub : forall ip', submitted ip' (ops ++ [NSend d ip]) =
      submitted ip' ops ++ if decide (ip = ip') then [d] else []).
  { intros ip'. rewrite submitted_app. f_equal. simpl. by case_decide. }
  destruct (usable n ip) as [eth|] eqn:Eu.
  - destruct Hcase as ((g & -> & Hg) & Hbuf & _). exists n', [(ip, eth, d)].
    assert (Heard : heard n0 ops ip eth).
    { unfold usable in Eu. destruct (map_ n !! ip) as [[e s]|] eqn:E; [|done].
      destruct (_ <? _); [|done]. injection Eu as ->. eauto. }
    do 3 (split; [done|]). split.
    + congruence.
    + unfold ipv4_frames, frames_out. rewrite Hfr, filter_app, filter_cons_True by (by eapply ip_frame_type).
      apply Forall2_app; [done|]. repeat constructor. by eapply ip_frame_eth.
    + intros ip'. rewrite Hsub, departed_app, Hbuf, Hq, departed_cons. change (departed_to ip' []) with (@nil IPv4Datagram.t).
      case_decide; [subst ip'|by rewrite !app_nil_r].
      rewrite (ni_usable own n Hn ip) by (by rewrite Eu). simpl. by rewrite !app_nil_r.
    + apply Forall_app. split; [done|]. repeat constructor. by apply heard_mono.
    + rewrite Hmap. intros. apply heard_mono. eauto.
  - destruct Hcase as (Hnew & Hbuf & _). exists n', []. rewrite app_nil_r.
    do 3 (split; [done|]). split; try done.
    + congruence.
    + assert (Hr : filter (fun g => EthernetHeader.type (EthernetFrame.header g) = EthernetHeader.TYPE_IPv4) new = []).
      { destruct (requests n ip); [destruct Hnew as (g & -> & Hg)|by subst].
        by rewrite filter_cons_False by (by eapply arp_frame_type). }
      unfold ipv4_frames, frames_out. by rewrite Hfr, filter_app, Hr, app_nil_r.
    + intros ip'. rewrite Hsub, Hbuf, Hq, <- app_assoc. f_equal. case_decide as Hi.
      * subst ip'. by rewrite lookup_insert_eq.
      * by rewrite lookup_insert_ne, app_nil_r by done.
    + rewrite Hmap. intros. apply heard_mono. eauto.
Qed.

Lemma ni_tick_wf n ms :
  ni_wf own n -> 0 <= ms -> ms_since_last_tick_ n + ms < two64 ->
  ni_wf own (tick n ms) /\ ms_since_last_tick_ (tick n ms) = ms_since_last_tick_ n + ms.
Proof.
  intros [He Ho Hor Ht Hm Ha Hb Hu] Hms Hlt. unfold tick. rewrite u64_small by lia. split; [|done].
  split; simpl; try done; try lia.
  - intros ip eth since E. specialize (Hm _ _ _ E). lia.
  - intros ip since E. specialize (Ha _ _ E). lia.
  - intros ip Hip. apply Hu. intros E. apply Hip. unfold usable in *. simpl.
    destruct (map_ n !! ip) as [[eth since]|] eqn:Em; [|done]. specialize (Hm _ _ _ Em).
    destruct (Z.ltb_spec (ms_since_last_tick_ n - since) IP_TO_ETHERNET_LIMIT); [done|].
    destruct (Z.ltb_spec (ms_since_last_tick_ n + ms - since) IP_TO_ETHERNET_LIMIT); [lia|done].
Qed.

Lemma elapsed_nonneg ops : Forall ni_op_ok ops -> 0 <= elapsed ops.
Proof. induction 1 as [|op ops Hop _ IH]; [done|]. destruct op; simpl in *; lia. Qed.

Lemma ni_run_hist n0 n ops done_ log :
  ni_wf own n -> ni_hist n0 n done_ log -> Forall ni_op_ok ops ->
  ms_since_last_tick_ n + elapsed ops < two64 ->
  exists n' log', ni_run n ops = Ok n' /\ ni_wf own n' /\ ni_hist n0 n' (done_ ++ ops) log'.
Proof.
  intros Hn Hh Hops. revert n done_ log Hn Hh.
  induction Hops as [|op ops Hop Hops IH]; intros n dn log Hn Hh Hel; cbn [ni_run].
  - exists n, log. by rewrite app_nil_r.
  - replace (dn ++ op :: ops) with ((dn ++ [op]) ++ ops) by (by rewrite <- app_assoc).
    destruct op as [d ip|f|ms]; simpl in Hop; cbn [ni_step elapsed] in *.
    + destruct Hop as [Hd Hip]. destruct (hist_send n0 n dn log d ip Hn Hd Hip Hh) as (n1 & l1 & -> & Hn1 & Ht & Hh1).
      cbn [mbind outcome_bind]. apply (IH n1 _ _ Hn1 Hh1). lia.
    + destruct (recv_spec own n f Hn Hop) as (n1 & -> & Hn1 & He). cbn [mbind outcome_bind].
      destruct (hist_recv n0 n n1 dn log f Hh He) as (l1 & Hh1). apply (IH n1 _ _ Hn1 Hh1).
      destruct (arp_in n f); [destruct He as (? & ? & -> & _)|subst n1]; simpl; lia.
    + pose proof (elapsed_nonneg _ Hops). destruct (ni_tick_wf n ms Hn Hop) as [Hn1 Ht]; [lia|].
      cbn [mbind outcome_bind]. apply (IH _ _ _ Hn1 (hist_tick _ _ _ _ ms Hh)). lia.
Qed.

End interface_runs.

Lemma ni_make_wf eth own :
  addr_ok eth -> 0 <= own < two32 -> ni_wf own (NetworkInterface.make eth (ipv4_address own)).
Proof. intros He Ho. split; simpl; try done. by apply ipv4_numeric_of. Qed.

Lemma ni_make_hist n : NetworkInterface.frames_out n = [] -> NetworkInterface.buffer_ n = ∅ ->
  NetworkInterface.map_ n = ∅ -> ni_hist n n [] [].
Proof.
  intros Hf Hb Hm. split; try done.
  - unfold ipv4_frames. rewrite Hf. constructor.
  - intros ip. by rewrite Hb.
  - intros ip eth s. by rewrite Hm.
Qed.

(** ** Properties *)

(** C31. The interface loses, duplicates and reorders nothing.  Over any run of sends of well-formed
    datagrams (version 4, lengths that agree), received frames of less than 64 KiB with whatever
    content, and ticks of less than [2^64] ms altogether, no operation fails, and for every
    next hop the datagrams handed over are, in order, those that left in IPv4 frames followed
    by those still waiting for ARP.  Each frame that left goes from the interface's own address
    to an Ethernet address some ARP message announced for that next hop, and nothing waits for
    a next hop whose mapping is usable.  A datagram of another version is outside of this:
    it cannot be serialized, and the send or the ARP answer that releases it throws. *)
Theorem interface_no_loss (eth : EthernetAddress) (own : Z) (ops : list ni_op)
  (Heth : addr_ok eth) (Hown : 0 <= own < two32) (Hops : Forall ni_op_ok ops)
  (Htime : elapsed ops < two64) :
  exists n log, ni_run (NetworkInterface.make eth (ipv4_address own)) ops = Ok n /\
    Forall2 (carries_departure n) log (ipv4_frames n) /\
    Forall (fun x => heard n ops x.1.1 x.1.2) log /\
    forall ip,
      submitted ip ops = departed_to ip log ++ default [] (NetworkInterface.buffer_ n !! ip) /\
      (usable n ip <> None -> submitted ip ops = departed_to ip log).
Proof.
  set (n0 := NetworkInterface.make eth (ipv4_address own)).
  destruct (ni_run_hist own n0 n0 ops [] []) as (n & log & Hrun & Hn & [He Hf Hq Hh Hk]);
    [by apply ni_make_wf|by apply ni_make_hist|done|done|].
  exists n, log. split; [done|]. split_and!.
  - eapply Forall2_impl; [done|]. intros x f. by apply ip_frame_eth.
  - eapply Forall_impl; [done|]. intros x (f & m & Hin & Ha & H). exists f, m.
    by rewrite (arp_in_eth n n0).
  - intros ip. split; [apply Hq|]. intros Hu. rewrite (Hq ip : submitted ip ops = _).
    rewrite (ni_usable own n Hn ip Hu). by rewrite app_nil_r.
Qed.

(** An interface 10.0.0.1, a neighbour 10.0.0.2 and its answer to an ARP request. *)
Definition sample_eth : EthernetAddress := [2; 0; 0; 0; 0; 1].
Definition neighbour_eth : EthernetAddress := [2; 0; 0; 0; 0; 2].
Definition sample_ip : Z := 167772161.
Definition neighbour_ip : Z := 167772162.
Definition sample_interface : NetworkInterface.t := NetworkInterface.make sample_eth (ipv4_address sample_ip).
Definition answer_bytes (eth : EthernetAddress) : list byte :=
  match ARPMessage.serialize (ARPMessage.mk 1 2048 6 4 ARPMessage.OPCODE_REPLY eth neighbour_ip
          sample_eth sample_ip) with
  | Ok s => s
  | _ => []
  end.
Definition arp_answer (eth : EthernetAddress) : EthernetFrame.t :=
  EthernetFrame.mk (EthernetHeader.mk sample_eth eth EthernetHeader.TYPE_ARP)
    [Buffer.of_string (answer_bytes eth)].
Definition sample_ops : list ni_op :=
  [NSend sample_datagram neighbour_ip; NTick 10; NSend sample_datagram neighbour_ip;
   NRecv (arp_answer neighbour_eth); NSend sample_datagram neighbour_ip].

Lemma addr_ok_sample : addr_ok sample_eth.
Proof. split; [done|]. repeat constructor; done. Qed.

Lemma arp_answer_ok eth : eth = neighbour_eth \/ eth = sample_eth -> frame_ok (arp_answer eth).
Proof.
  intros [->| ->]; eexists; (split; [done|]); (split; [apply buffer_of_string_wf|]); vm_compute; reflexivity.
Qed.

Lemma interface_no_loss_witness :
  exists n log, ni_run sample_interface sample_ops = Ok n /\
    Forall2 (carries_departure n) log (ipv4_frames n) /\ length (ipv4_frames n) = 3%nat /\
    departed_to neighbour_ip log = [sample_datagram; sample_datagram; sample_datagram].
Proof.
  destruct (interface_no_loss sample_eth sample_ip sample_ops) as (n & log & Hrun & Hf & _ & Hip).
  - apply addr_ok_sample.
  - vm_compute. intuition congruence.
  - repeat (apply Forall_cons; split); try apply Forall_nil, I; simpl; unfold neighbour_ip;
      try (split; [apply sample_datagram_ok|lia]); [lia|apply arp_answer_ok; by left].
  - vm_compute. reflexivity.
  - exists n, log. split; [done|]. split; [done|].
    assert (E : ni_run (NetworkInterface.make sample_eth (ipv4_address sample_ip)) sample_ops = Ok n) by done.
    vm_compute in E. injection E as <-. split; [vm_compute; reflexivity|].
    symmetry. apply (Hip neighbour_ip). vm_compute. congruence.
Defined.

(** [send_datagram] on every branch: with a usable mapping the datagram leaves at once in a
    frame to that address; otherwise it is appended to the datagrams waiting for that next
    hop, and one broadcast ARP request goes out exactly if none was recorded for the next hop
    in the last five seconds.  Nothing else changes, and the state stays well formed. *)
Theorem send_datagram_correct (own : Z) (n : NetworkInterface.t) (d : IPv4Datagram.t) (ip : Z)
  (Hn : ni_wf own n) (Hd : IPv4Datagram.ok d) (Hip : 0 <= ip < two32) :
  exists n' new, NetworkInterface.send_datagram n d (ipv4_address ip) = Ok n' /\ ni_wf own n' /\
    NetworkInterface.frames_out n' = NetworkInterface.frames_out n ++ new /\
    NetworkInterface.map_ n' = NetworkInterface.map_ n /\
    match usable n ip with
    | Some eth => (exists f, new = [f] /\ ip_frame n eth d f) /\
        NetworkInterface.buffer_ n' = NetworkInterface.buffer_ n
    | None =>
        (if requests n ip
         then exists f, new = [f] /\
           arp_frame own n ETHERNET_BROADCAST EMPTY_ADDRESS ip ARPMessage.OPCODE_REQUEST f
         else new = []) /\
        NetworkInterface.buffer_ n' =
          <[ip := default [] (NetworkInterface.buffer_ n !! ip) ++ [d]]> (NetworkInterface.buffer_ n)
    end.
Proof.
  destruct (send_spec own n d _ ip Hn Hd (ipv4_numeric_of ip Hip)) as
    (n' & new & Hs & Hn' & Hfr & _ & Hmap & _ & Hcase).
  exists n', new. do 4 (split; [done|]). destruct (usable n ip); tauto.
Qed.

Lemma send_datagram_correct_witness :
  exists n' f, NetworkInterface.send_datagram sample_interface sample_datagram (ipv4_address neighbour_ip) = Ok n' /\
    NetworkInterface.frames_out n' = [f] /\
    arp_frame sample_ip sample_interface ETHERNET_BROADCAST EMPTY_ADDRESS neighbour_ip ARPMessage.OPCODE_REQUEST f.
Proof.
  destruct (send_datagram_correct sample_ip sample_interface sample_datagram neighbour_ip) as
    (n' & new & Hs & _ & Hfr & _ & (f & -> & Hf) & _).
  - apply ni_make_wf; [apply addr_ok_sample|vm_compute; intuition congruence].
  - apply sample_datagram_ok.
  - vm_compute; intuition congruence.
  - exists n', f. done.
Defined.

(** C32. [recv_frame] on every branch: it returns the datagram exactly if the frame is addressed
    to the interface (or broadcast), carries IPv4 and parses; an accepted ARP message makes
    the interface learn the sender (unless it knew one), send everything that waited for the
    sender, in order, to the announced address, and answer if it asks for the interface's own
    address; every other frame leaves the state unchanged. *)
Theorem recv_frame_correct (own : Z) (n : NetworkInterface.t) (f : EthernetFrame.t)
  (Hn : ni_wf own n) (Hf : frame_ok f) :
  exists n', NetworkInterface.recv_frame n f = Ok (n', dgram_in n f) /\ ni_wf own n' /\
    match arp_in n f with
    | Some m => arp_effect own n m n'
    | None => n' = n
    end.
Proof. by apply recv_spec. Qed.

Lemma recv_frame_correct_witness :
  exists n', NetworkInterface.recv_frame sample_interface (arp_answer neighbour_eth) = Ok (n', None) /\
    usable n' neighbour_ip = Some neighbour_eth.
Proof.
  destruct (recv_frame_correct sample_ip sample_interface (arp_answer neighbour_eth)) as (n' & Hr & _ & He).
  - apply ni_make_wf; [apply addr_ok_sample|vm_compute; intuition congruence].
  - apply arp_answer_ok. by left.
  - exists n'. split; [rewrite Hr; vm_compute; reflexivity|].
    assert (E : NetworkInterface.recv_frame sample_interface (arp_answer neighbour_eth) = Ok (n', None))
      by (rewrite Hr; vm_compute; reflexivity).
    vm_compute in E. injection E as <-. vm_compute. reflexivity.
Defined.

(** A mapping is never refreshed: [emplace] keeps the entry that is there, so when a
    neighbour whose mapping has expired announces its address again, the old entry stays, and
    the next datagram for it waits for ARP instead of leaving. *)
Theorem arp_mapping_never_refreshed (own : Z) (n : NetworkInterface.t) (f : EthernetFrame.t)
  (m : ARPMessage.t) (d : IPv4Datagram.t) (old : EthernetAddress) (since ip : Z)
  (Hn : ni_wf own n) (Hf : frame_ok f) (Hd : IPv4Datagram.ok d) (Hip : 0 <= ip < two32)
  (Hm : arp_in n f = Some m) (Hs : ARPMessage.sender_ip_address m = ip)
  (Hold : NetworkInterface.map_ n !! ip = Some (old, since))
  (Hexp : NetworkInterface.IP_TO_ETHERNET_LIMIT <= NetworkInterface.ms_since_last_tick_ n - since) :
  exists n1 r n2, NetworkInterface.recv_frame n f = Ok (n1, r) /\
    NetworkInterface.map_ n1 !! ip = Some (old, since) /\
    NetworkInterface.send_datagram n1 d (ipv4_address ip) = Ok n2 /\
    NetworkInterface.buffer_ n2 !! ip = Some [d].
Proof.
  destruct (recv_spec own n f Hn Hf) as (n1 & Hr & Hn1 & He). rewrite Hm in He.
  destruct He as (ips & rep & Hn1e & _). rewrite Hs in Hn1e.
  assert (Hmap1 : NetworkInterface.map_ n1 !! ip = Some (old, since)).
  { subst n1. simpl. rewrite emplace_lookup, decide_True by done. by rewrite Hold. }
  destruct (send_spec own n1 d _ ip Hn1 Hd (ipv4_numeric_of ip Hip)) as
    (n2 & new & Hs2 & _ & _ & _ & _ & _ & Hcase).
  assert (Hu : usable n1 ip = None).
  { unfold usable. rewrite Hmap1. replace (NetworkInterface.ms_since_last_tick_ n1)
      with (NetworkInterface.ms_since_last_tick_ n) by (by subst n1).
    destruct (Z.ltb_spec (NetworkInterface.ms_since_last_tick_ n - since) NetworkInterface.IP_TO_ETHERNET_LIMIT); [lia|done]. }
  rewrite Hu in Hcase. destruct Hcase as (_ & Hbuf & _).
  exists n1, (dgram_in n f), n2. do 3 (split; [done|]). rewrite Hbuf, lookup_insert_eq.
  subst n1. simpl. by rewrite lookup_delete_eq.
Qed.

(** The neighbour answered once, 30 seconds ago, and now announces another address. *)
Definition stale_interface : NetworkInterface.t :=
  match ni_run sample_interface [NRecv (arp_answer neighbour_eth); NTick 30000] with
  | Ok n => n
  | _ => sample_interface
  end.

Lemma arp_mapping_never_refreshed_witness :
  exists n1 r n2, NetworkInterface.recv_frame stale_interface (arp_answer sample_eth) = Ok (n1, r) /\
    NetworkInterface.map_ n1 !! neighbour_ip = Some (neighbour_eth, 0) /\
    NetworkInterface.send_datagram n1 sample_datagram (ipv4_address neighbour_ip) = Ok n2 /\
    NetworkInterface.buffer_ n2 !! neighbour_ip = Some [sample_datagram].
Proof.
  apply (arp_mapping_never_refreshed sample_ip stale_interface (arp_answer sample_eth)
    (arp_of (frame_bytes (arp_answer sample_eth))) sample_datagram neighbour_eth 0 neighbour_ip).
  - destruct (ni_run_hist sample_ip sample_interface sample_interface
      [NRecv (arp_answer neighbour_eth); NTick 30000] [] []) as (n & log & Hrun & Hn & _).
    + apply ni_make_wf; [apply addr_ok_sample|vm_compute; intuition congruence].
    + by apply ni_make_hist.
    + repeat (apply Forall_cons; split); try apply Forall_nil, I; simpl; [apply arp_answer_ok; by left|lia].
    + vm_compute. reflexivity.
    + unfold stale_interface. by rewrite Hrun.
  - apply arp_answer_ok. by right.
  - apply sample_datagram_ok.
  - vm_compute; intuition congruence.
  - vm_compute. reflexivity.
  - vm_compute. reflexivity.
  - vm_compute. reflexivity.
  - vm_compute. congruence.
Defined.
