(* ===== verification/Routing.v ===== *)
(** * Routing.v: the router

    Models [libsponge/router.hh] and [libsponge/router.cc]: [AsyncNetworkInterface], which queues
    received datagrams, and [Router] with its table of routes and longest-prefix matching.
    The forwarding of a whole [route()] is stated as runs of the interfaces of NetIf.v. *)

From stdpp Require Import gmap.
From S2P Require Import Prelude Buffers Parsing IpWire EtherWire Addresses NetIf.

Module AsyncNetworkInterface.

Record t := mk {
  base : NetworkInterface.t;
  _datagrams_out : list IPv4Datagram.t
}.

Definition of_interface (interface : NetworkInterface.t) : t := mk interface [].
Definition datagrams_out (i : t) : list IPv4Datagram.t := _datagrams_out i.

Definition recv_frame (i : t) (frame : EthernetFrame.t) : outcome t :=
  '(n, optional_dgram) ← NetworkInterface.recv_frame (base i) frame;
  match optional_dgram with
  | Some d => Ok (mk n (_datagrams_out i ++ [d]))
  | None => Ok (mk n (_datagrams_out i))
  end.

(** Inherited from [NetworkInterface]. *)
Definition send_datagram (i : t) (dgram : IPv4Datagram.t) (next_hop : Address.t) : outcome t :=
  n ← NetworkInterface.send_datagram (base i) dgram next_hop;
  Ok (mk n (_datagrams_out i)).

(** [datagrams_out().pop()]. *)
Definition pop (i : t) : t := mk (base i) (tail (_datagrams_out i)).

End AsyncNetworkInterface.

Module Router.

Record t := mk {
  interfaces_ : list AsyncNetworkInterface.t;
  table_ : gmap (Z * Z) (Z * option Address.t)
}.

Definition make : t := mk [] ∅.

Definition add_interface (r : t) (interface : AsyncNetworkInterface.t) : Z * t :=
  let l := interfaces_ r ++ [interface] in
  (u64 (zlen l - 1), mk l (table_ r)).

Definition interface (r : t) (N : Z) : outcome AsyncNetworkInterface.t :=
  match zget (interfaces_ r) N with
  | Some i => Ok i
  | None => Throw (out_of_range "vector::_M_range_check")
  end.

(** Assignment through the reference [interface(N)] returned. *)
Definition set_interface (r : t) (N : Z) (i : AsyncNetworkInterface.t) : t :=
  mk (<[Z.to_nat N := i]> (interfaces_ r)) (table_ r).

(** [add_route]: a shift by a negative amount is undefined. *)
Definition add_route (r : t) (route_prefix prefix_length : Z) (next_hop : option Address.t)
  (interface_num : Z) : outcome t :=
  if prefix_length =? 0 then
    Ok (mk (interfaces_ r) (emplace (table_ r) (0, 0) (interface_num, next_hop)))
  else if 32 - prefix_length <? 0 then Undefined
  else
    let ip := Z.land (u32 (Z.shiftl (u32 (Z.lnot 0)) (32 - prefix_length))) route_prefix in
    Ok (mk (interfaces_ r) (emplace (table_ r) (ip, prefix_length) (interface_num, next_hop))).

(** The loop over the prefix lengths, from 32 down to 0: the entry it stops at. *)
Fixpoint find_route (fuel : nat) (table : gmap (Z * Z) (Z * option Address.t))
  (ip mask prefix_length : Z) : outcome (option (Z * option Address.t)) :=
  match fuel with
  | O => OutOfFuel
  | S fuel =>
      if prefix_length >=? 0 then
        match table !! (Z.land mask ip, prefix_length) with
        | Some e => Ok (Some e)
        | None => find_route fuel table ip (u32 (Z.shiftl mask 1)) (prefix_length - 1)
        end
      else Ok None
  end.

Definition route_one_datagram (r : t) (dgram : IPv4Datagram.t) : outcome t :=
  let h := IPv4Datagram.header dgram in
  if IPv4Header.ttl h =? 0 then Ok r
  else
    let h := IPv4Header.set_ttl h (u8 (IPv4Header.ttl h - 1)) in
    if IPv4Header.ttl h =? 0 then Ok r
    else
      let dgram := IPv4Datagram.set_header dgram h in
      let ip := IPv4Header.dst h in
      it ← find_route 34 (table_ r) ip (u32 (Z.lnot 0)) 32;
      match it with
      | None => Ok r
      | Some (num, hop) =>
          i ← interface r num;
          (* the argument of [value_or] is evaluated first, whether or not it is used *)
          direct ← Address.from_ipv4_numeric ip;
          i ← AsyncNetworkInterface.send_datagram i dgram (default direct hop);
          Ok (set_interface r num i)
      end.

(** The loop [while (not queue.empty())] over the queue of interface [idx]. *)
Fixpoint drain (fuel : nat) (r : t) (idx : nat) : outcome t :=
  match fuel with
  | O => OutOfFuel
  | S fuel =>
      match interfaces_ r !! idx with
      | None => Undefined
      | Some i =>
          match AsyncNetworkInterface.datagrams_out i with
          | [] => Ok r
          | dgram :: _ =>
              r ← route_one_datagram r dgram;
              match interfaces_ r !! idx with
              | None => Undefined
              | Some i => drain fuel (mk (<[idx := AsyncNetworkInterface.pop i]> (interfaces_ r)) (table_ r)) idx
              end
          end
      end
  end.

(** The loop [for (auto &interface : interfaces_)], [k] interfaces from [idx] on. *)
Fixpoint route_from (fuel : nat) (r : t) (idx k : nat) : outcome t :=
  match k with
  | O => Ok r
  | S k => r ← drain fuel r idx; route_from fuel r (S idx) k
  end.

(** Rounds of [drain] that are enough: no queue grows while [route] runs. *)
Definition queue_fuel (r : t) : nat :=
  S (list_max (length ∘ AsyncNetworkInterface._datagrams_out <$> interfaces_ r)).

Definition route (r : t) : outcome t := route_from (queue_fuel r) r 0 (length (interfaces_ r)).

End Router.

(** ** Routes and the longest matching prefix *)

Record route_spec := Route {
  rs_prefix : Z;
  rs_length : Z;
  rs_hop : option Address.t;
  rs_num : Z
}.

Definition rs_ok (s : route_spec) : Prop := 0 <= rs_prefix s < two32 /\ 0 <= rs_length s <= 32.

(** The high-order [rs_length] bits of the address and of the prefix agree. *)
Definition matches (s : route_spec) (ip : Z) : Prop :=
  Z.shiftr ip (32 - rs_length s) = Z.shiftr (rs_prefix s) (32 - rs_length s).

#[export] Instance matches_dec s ip : Decision (matches s ip).
Proof. unfold matches. apply _. Defined.

(** [s] is the route for [ip]: it matches, no earlier route matches as many bits and no later
    one more. *)
Definition is_route (routes : list route_spec) (ip : Z) (s : route_spec) : Prop :=
  exists pre post, routes = pre ++ s :: post /\ matches s ip /\
    (forall s', s' ∈ pre -> matches s' ip -> rs_length s' < rs_length s) /\
    (forall s', s' ∈ post -> matches s' ip -> rs_length s' <= rs_length s).

Fixpoint add_routes (r : Router.t) (routes : list route_spec) : outcome Router.t :=
  match routes with
  | [] => Ok r
  | s :: routes' =>
      r ← Router.add_route r (rs_prefix s) (rs_length s) (rs_hop s) (rs_num s);
      add_routes r routes'
  end.

Definition masked (ip l : Z) : Z := Z.shiftl (Z.shiftr ip (32 - l)) (32 - l).
Definition route_key (s : route_spec) : Z * Z := (masked (rs_prefix s) (rs_length s), rs_length s).
Definition route_entry (s : route_spec) : Z * option Address.t := (rs_num s, rs_hop s).

Definition prefix_mask (l : Z) : Z := u32 (Z.shiftl (u32 (Z.lnot 0)) (32 - l)).

Lemma prefix_mask_spec l : 0 <= l <= 32 -> prefix_mask l = Z.shiftl (Z.ones l) (32 - l).
Proof.
  intros Hl. unfold prefix_mask, u32. change (Z.lnot 0 mod two32) with (2 ^ 32 - 1).
  rewrite !Z.shiftl_mul_pow2, Z.ones_equiv by lia.
  assert (E : 2 ^ 32 = 2 ^ l * 2 ^ (32 - l)) by (rewrite <- Z.pow_add_r by lia; f_equal; lia).
  change two32 with (2 ^ 32). symmetry. apply (Z.mod_unique_pos _ _ (2 ^ (32 - l) - 1)).
  - assert (0 < 2 ^ l) by (apply Z.pow_pos_nonneg; lia).
    assert (0 < 2 ^ (32 - l)) by (apply Z.pow_pos_nonneg; lia). nia.
  - rewrite E. lia.
Qed.

Lemma masked_spec l ip : 0 <= l <= 32 -> 0 <= ip < two32 -> Z.land (prefix_mask l) ip = masked ip l.
Proof.
  intros Hl Hip. rewrite prefix_mask_spec by done. unfold masked. apply Z.bits_inj'. intros n Hn.
  rewrite Z.land_spec. destruct (Z.lt_ge_cases n (32 - l)).
  { by rewrite !(Z.shiftl_spec_low _ _ n) by lia. }
  rewrite !Z.shiftl_spec, Z.shiftr_spec by lia. replace (n - (32 - l) + (32 - l)) with n by lia.
  destruct (Z.lt_ge_cases n 32).
  - by rewrite Z.ones_spec_low by lia.
  - rewrite (testbit_small ip 32 n) by (change (2 ^ 32) with two32; lia). apply andb_false_r.
Qed.

Lemma masked_eq s ip : rs_ok s -> matches s ip <-> masked (rs_prefix s) (rs_length s) = masked ip (rs_length s).
Proof.
  intros [_ Hl]. unfold matches, masked. split; [by intros ->|].
  intros E%(f_equal (fun z => Z.shiftr z (32 - rs_length s))).
  by rewrite !Z.shiftr_shiftl_l, !Z.sub_diag, !Z.shiftl_0_r in E by lia.
Qed.

(** [add_route] stores the route under its masked prefix unless the place is taken. *)
Lemma add_route_ok r s :
  rs_ok s ->
  Router.add_route r (rs_prefix s) (rs_length s) (rs_hop s) (rs_num s) =
    Ok (Router.mk (Router.interfaces_ r) (emplace (Router.table_ r) (route_key s) (route_entry s))).
Proof.
  intros [Hp Hl]. unfold Router.add_route, route_key, route_entry.
  destruct (Z.eqb_spec (rs_length s) 0) as [E|E].
  - rewrite E. unfold masked. rewrite (Z.shiftr_div_pow2 _ (32 - 0)) by lia.
    rewrite Z.div_small by (change (2 ^ (32 - 0)) with two32; lia). done.
  - destruct (Z.ltb_spec (32 - rs_length s) 0); [lia|]. cbv zeta.
    fold (prefix_mask (rs_length s)). by rewrite masked_spec by lia.
Qed.

(** The table holds the first route added under each key. *)
Definition first_with (key : Z * Z) (routes : list route_spec) : option (Z * option Address.t) :=
  route_entry <$> head (filter (fun s => route_key s = key) routes).

Lemma add_routes_ok r routes :
  Forall rs_ok routes ->
  exists r', add_routes r routes = Ok r' /\ Router.interfaces_ r' = Router.interfaces_ r /\
    forall key, Router.table_ r' !! key =
      match Router.table_ r !! key with Some e => Some e | None => first_with key routes end.
Proof.
  intros Hok. revert r. induction Hok as [|s routes Hs Hok IH]; intros r; cbn [add_routes].
  - exists r. split_and!; try done. intros key. by destruct (Router.table_ r !! key).
  - rewrite add_route_ok by done. cbn [mbind outcome_bind]. destruct (IH (Router.mk (Router.interfaces_ r)
      (emplace (Router.table_ r) (route_key s) (route_entry s)))) as (r' & -> & Hi & Ht).
    exists r'. split_and!; [done..|]. intros key. rewrite Ht. simpl. rewrite emplace_lookup.
    unfold first_with. rewrite filter_cons. repeat case_decide; subst; try done.
    by destruct (Router.table_ r !! route_key s).
Qed.

Lemma first_with_Some key routes e :
  first_with key routes = Some e ->
  exists pre s post, routes = pre ++ s :: post /\ route_key s = key /\ route_entry s = e /\
    (forall s', s' ∈ pre -> route_key s' <> key).
Proof.
  unfold first_with. induction routes as [|s routes IH]; [done|]. rewrite filter_cons. case_decide as Hk.
  - intros [= <-]. exists [], s, routes. split_and!; try done. intros s' []%elem_of_nil.
  - intros (pre & s' & post & -> & Hs' & He & Hpre)%IH. exists (s :: pre), s', post.
    split_and!; try done. intros s'' [->|]%elem_of_cons; auto.
Qed.

Lemma first_with_None key routes s : first_with key routes = None -> s ∈ routes -> route_key s <> key.
Proof.
  unfold first_with. intros H Hs Hk. assert (Hin : s ∈ filter (fun s => route_key s = key) routes)
    by (by apply list_elem_of_filter). destruct (filter _ routes); [by apply elem_of_nil in Hin|done].
Qed.

(** The loop finds the entry with the longest prefix. *)
Lemma find_route_ok fuel table ip l :
  0 <= ip < two32 -> -1 <= l <= 32 -> l + 2 <= Z.of_nat fuel ->
  (exists k e, 0 <= k <= l /\ table !! (masked ip k, k) = Some e /\
     (forall j, k < j <= l -> table !! (masked ip j, j) = None) /\
     Router.find_route fuel table ip (prefix_mask l) l = Ok (Some e)) \/
  ((forall j, 0 <= j <= l -> table !! (masked ip j, j) = None) /\
   Router.find_route fuel table ip (prefix_mask l) l = Ok None).
Proof.
  intros Hip. revert l. induction fuel as [|fuel IH]; intros l Hl Hf; [lia|]. cbn [Router.find_route].
  destruct (Z.geb_spec l 0) as [H0|H0]; [|right; split; [lia|done]].
  rewrite masked_spec by lia. destruct (table !! (masked ip l, l)) as [e|] eqn:E.
  { left. exists l, e. split_and!; try done; lia. }
  assert (Hmask : u32 (Z.shiftl (prefix_mask l) 1) = prefix_mask (l - 1)).
  { unfold prefix_mask. rewrite !Z.shiftl_mul_pow2 by lia. replace (32 - (l - 1)) with (32 - l + 1) by lia.
    rewrite Z.pow_add_r by lia. unfold u32 at 1 3. rewrite Z.mul_assoc. unfold u32 at 1.
    by rewrite Zmult_mod_idemp_l. }
  rewrite Hmask. destruct (IH (l - 1)) as [(k & e & Hk & He & Hj & ->)|[Hj ->]]; try lia.
  - left. exists k, e. split; [lia|]. split; [done|]. split; [|done]. intros j Hjr.
    destruct (Z.eq_dec j l) as [->|]; [done|]. apply Hj. lia.
  - right. split; [|done]. intros j Hjr. destruct (Z.eq_dec j l) as [->|]; [done|]. apply Hj. lia.
Qed.

(** ** The reference definition of the longest prefix match *)

Fixpoint lpm (routes : list route_spec) (ip : Z) : option route_spec :=
  match routes with
  | [] => None
  | s :: routes' =>
      if decide (matches s ip) then
        match lpm routes' ip with
        | Some b => if rs_length s <? rs_length b then Some b else Some s
        | None => Some s
        end
      else lpm routes' ip
  end.

Lemma lpm_Some_In routes ip s : lpm routes ip = Some s -> s ∈ routes /\ matches s ip.
Proof.
  induction routes as [|x routes IH]; [done|]. simpl. case_decide as Hm.
  - destruct (lpm routes ip) as [b|]; [destruct (_ <? _)|].
    + intros [= ->]. destruct (IH eq_refl). split; [by right|done].
    + intros [= ->]. split; [by left|done].
    + intros [= ->]. split; [by left|done].
  - intros [? ?]%IH. split; [by right|done].
Qed.

Lemma lpm_None routes ip s : lpm routes ip = None -> s ∈ routes -> ~ matches s ip.
Proof.
  induction routes as [|x routes IH]; [by intros _ ?%elem_of_nil|]. simpl. case_decide as Hm.
  - destruct (lpm routes ip) as [b|]; [by destruct (_ <? _)|done].
  - intros HN [->|Hs]%elem_of_cons; auto.
Qed.

Lemma lpm_best routes ip s : lpm routes ip = Some s -> is_route routes ip s.
Proof.
  revert s. induction routes as [|x routes IH]; [done|]. intros s. simpl. case_decide as Hm.
  - destruct (lpm routes ip) as [b|] eqn:Eb.
    + destruct (IH b eq_refl) as (pre & post & -> & Hb & Hpre & Hpost).
      destruct (Z.ltb_spec (rs_length x) (rs_length b)); intros [= <-].
      * exists (x :: pre), post. split_and!; try done. intros s' [->|]%elem_of_cons; auto.
      * exists [], (pre ++ b :: post). split_and!; try done; [by intros ? ?%elem_of_nil|].
        intros s' [Hs'|[->|Hs']%elem_of_cons]%elem_of_app Hm'; [specialize (Hpre _ Hs' Hm')| |specialize (Hpost _ Hs' Hm')]; lia.
    + intros [= <-]. exists [], routes. split_and!; try done; [by intros ? ?%elem_of_nil|].
      intros s' Hs' Hm'. by destruct (lpm_None _ _ _ Eb Hs').
  - intros (pre & post & -> & Hb & Hpre & Hpost)%IH. exists (x :: pre), post. split_and!; try done.
    intros s' [->|]%elem_of_cons; [done|auto].
Qed.

Lemma is_route_lpm routes ip s : is_route routes ip s -> lpm routes ip = Some s.
Proof.
  intros (pre & post & -> & Hs & Hpre & Hpost). induction pre as [|x pre IH]; simpl.
  - rewrite decide_True by done. destruct (lpm post ip) as [b|] eqn:Eb; [|done].
    destruct (lpm_Some_In _ _ _ Eb) as [Hin Hm]. specialize (Hpost _ Hin Hm).
    destruct (Z.ltb_spec (rs_length s) (rs_length b)); [lia|done].
  - rewrite IH by (intros s' ?; apply Hpre; by right). case_decide as Hm; [|done].
    specialize (Hpre x ltac:(by left) Hm). destruct (Z.ltb_spec (rs_length x) (rs_length s)); [done|lia].
Qed.

(** The table represents the list of routes. *)
Definition represents (routes : list route_spec) (r : Router.t) : Prop :=
  forall key, Router.table_ r !! key = first_with key routes.

Lemma lookup_is_lpm routes r ip :
  Forall rs_ok routes -> represents routes r -> 0 <= ip < two32 ->
  Router.find_route 34 (Router.table_ r) ip (u32 (Z.lnot 0)) 32 = Ok (route_entry <$> lpm routes ip).
Proof.
  intros Hok Hr Hip. rewrite Forall_forall in Hok. change (u32 (Z.lnot 0)) with (prefix_mask 32).
  assert (Hkey : forall s, s ∈ routes -> matches s ip <-> route_key s = (masked ip (rs_length s), rs_length s)).
  { intros s Hs. rewrite masked_eq by auto. unfold route_key. split; [by intros ->|by intros [= ->]]. }
  destruct (find_route_ok 34 (Router.table_ r) ip 32) as [(k & e & Hk & He & Hj & ->)|[Hj ->]]; try lia.
  - f_equal. rewrite Hr in He. apply first_with_Some in He as (pre & s & post & -> & Hs & He & Hpre).
    assert (Hl : rs_length s = k) by (by injection Hs). subst k.
    assert (Hms : matches s ip) by (apply Hkey; [apply elem_of_app; right; by left|done]).
    assert (Hbound : forall s', s' ∈ pre ++ s :: post -> matches s' ip -> rs_length s' <= rs_length s).
    { intros s' Hs' Hm'. destruct (Z.le_gt_cases (rs_length s') (rs_length s)); [done|].
      specialize (Hj (rs_length s')). rewrite Hr in Hj. destruct (Hok _ Hs') as [_ Hl'].
      exfalso. apply (first_with_None _ _ s' (Hj ltac:(lia)) Hs'). by apply Hkey. }
    rewrite (is_route_lpm _ ip s); [by rewrite <- He|]. exists pre, post. split_and!; try done.
    + intros s' Hs' Hm'. assert (Hin : s' ∈ pre ++ s :: post) by (apply elem_of_app; by left).
      specialize (Hbound s' Hin Hm'). apply (Hkey s' Hin) in Hm'. specialize (Hpre s' Hs').
      destruct (Z.eq_dec (rs_length s') (rs_length s)) as [E|]; [|lia]. rewrite E in Hm'. done.
    + intros s' Hs' Hm'. apply Hbound; [apply elem_of_app; right; by right|done].
  - destruct (lpm routes ip) as [s|] eqn:El; [|done]. destruct (lpm_Some_In _ _ _ El) as [Hin Hm].
    destruct (Hok _ Hin) as [_ Hl]. specialize (Hj (rs_length s) Hl). rewrite Hr in Hj.
    exfalso. apply (first_with_None _ _ s Hj Hin). by apply Hkey.
Qed.

(** ** Forwarding *)

(** The datagram with its time to live decremented. *)
Definition decremented (d : IPv4Datagram.t) : IPv4Datagram.t :=
  IPv4Datagram.set_header d (IPv4Header.set_ttl (IPv4Datagram.header d) (IPv4Header.ttl (IPv4Datagram.header d) - 1)).

Definition next_hop_ip (s : route_spec) (dst : Z) : Z :=
  match rs_hop s with
  | Some a => match Address.ipv4_numeric a with Ok x => x | _ => 0 end
  | None => dst
  end.

(** What the router does with a datagram: the interface it goes to and the send there. *)
Definition forward (routes : list route_spec) (d : IPv4Datagram.t) : option (nat * ni_op) :=
  let dst := IPv4Header.dst (IPv4Datagram.header d) in
  if IPv4Header.ttl (IPv4Datagram.header d) <=? 1 then None
  else match lpm routes dst with
       | Some s => Some (Z.to_nat (rs_num s), NSend (decremented d) (next_hop_ip s dst))
       | None => None
       end.

(** The sends that fall to interface [j]. *)
Definition sends_to (j : nat) (routes : list route_spec) (ds : list IPv4Datagram.t) : list ni_op :=
  omap (fun d => match forward routes d with
                 | Some (j', op) => if decide (j' = j) then Some op else None
                 | None => None
                 end) ds.

Definition hop_ok (a : option Address.t) : Prop :=
  match a with
  | Some a => exists ip, 0 <= ip < two32 /\ Address.ipv4_numeric a = Ok ip
  | None => True
  end.

(** A router with [routes]: they name its interfaces and usable next hops. *)
Record rt_wf (routes : list route_spec) (r : Router.t) : Prop := {
  rt_ok : Forall rs_ok routes;
  rt_table : represents routes r;
  rt_num : Forall (fun s => 0 <= rs_num s < zlen (Router.interfaces_ r) /\ hop_ok (rs_hop s)) routes;
  rt_ifs : Forall (fun i => (exists own, ni_wf own (AsyncNetworkInterface.base i)) /\
     Forall IPv4Datagram.ok (AsyncNetworkInterface._datagrams_out i)) (Router.interfaces_ r)
}.

(** From [r] to [r'] the datagrams [ds] were forwarded and the queues in [emptied] drained. *)
Record moved (routes : list route_spec) (ds : list IPv4Datagram.t) (emptied : nat -> bool)
  (r r' : Router.t) : Prop := {
  mv_len : length (Router.interfaces_ r') = length (Router.interfaces_ r);
  mv_table : Router.table_ r' = Router.table_ r;
  mv_ifs : forall j i, Router.interfaces_ r !! j = Some i ->
    exists n', ni_run (AsyncNetworkInterface.base i) (sends_to j routes ds) = Ok n' /\
      Router.interfaces_ r' !! j = Some (AsyncNetworkInterface.mk n'
        (if emptied j then [] else AsyncNetworkInterface._datagrams_out i))
}.

Lemma ni_run_app n ops ops' : ni_run n (ops ++ ops') = ni_run n ops ≫= fun n => ni_run n ops'.
Proof.
  revert n. induction ops as [|op ops IH]; intros n; [done|]. simpl. rewrite bind_assoc.
  destruct (ni_step n op); simpl; [apply IH|done..].
Qed.

Lemma sends_to_app j routes ds ds' : sends_to j routes (ds ++ ds') = sends_to j routes ds ++ sends_to j routes ds'.
Proof. apply omap_app. Qed.

(** A send only looks at the number of the next hop. *)
Lemma send_datagram_hop n d hop ip :
  0 <= ip < two32 -> Address.ipv4_numeric hop = Ok ip ->
  NetworkInterface.send_datagram n d hop = NetworkInterface.send_datagram n d (ipv4_address ip).
Proof. intros Hip Hh. unfold NetworkInterface.send_datagram. by rewrite Hh, ipv4_numeric_of. Qed.

Lemma decremented_ok d :
  IPv4Datagram.ok d -> 1 < IPv4Header.ttl (IPv4Datagram.header d) -> IPv4Datagram.ok (decremented d).
Proof.
  intros (Hh & Hp & Hl) Ht. split; [|done]. destruct Hh as (?&?&?&?&?&?&?&?&?&?&?).
  unfold IPv4Datagram.header in Ht. simpl. unfold IPv4Header.ok. simpl. unfold IPv4Datagram.header.
  split_and!; try done; lia.
Qed.

(** Updating one interface. *)
Lemma moved_nothing routes d r : (forall j, sends_to j routes [d] = []) -> moved routes [d] (fun _ => false) r r.
Proof.
  intros Hs. split; try done. intros j i Hj. rewrite Hs. exists (AsyncNetworkInterface.base i).
  split; [done|]. by destruct i.
Qed.

Lemma route_one_ok routes r d :
  rt_wf routes r -> IPv4Datagram.ok d ->
  exists r', Router.route_one_datagram r d = Ok r' /\ rt_wf routes r' /\
    moved routes [d] (fun _ => false) r r'.
Proof.
  intros Hr Hd. pose proof Hr as [Hok Ht Hnum Hifs]. pose proof Hd as ((?&?&?&?&?&?&Httl&?&?&?&Hdst) & _ & _).
  change (IPv4Datagram._header d) with (IPv4Datagram.header d) in Httl, Hdst.
  unfold Router.route_one_datagram. cbv zeta.
  assert (Hnone : forward routes d = None -> forall j, sends_to j routes [d] = []).
  { intros E j. unfold sends_to. simpl. by rewrite E. }
  unfold forward in Hnone. cbv zeta in Hnone.
  destruct (Z.eqb_spec (IPv4Header.ttl (IPv4Datagram.header d)) 0) as [E0|E0].
  { exists r. split; [done|]. split; [done|]. apply moved_nothing, Hnone. by rewrite E0. }
  rewrite u8_small by lia. cbn [IPv4Header.ttl IPv4Header.dst IPv4Header.set_ttl].
  destruct (Z.eqb_spec (IPv4Header.ttl (IPv4Datagram.header d) - 1) 0) as [E1|E1].
  { exists r. split; [done|]. split; [done|]. apply moved_nothing, Hnone.
    by replace (IPv4Header.ttl (IPv4Datagram.header d)) with 1 by lia. }
  rewrite (lookup_is_lpm routes) by done. cbn [mbind outcome_bind].
  destruct (Z.leb_spec (IPv4Header.ttl (IPv4Datagram.header d)) 1) as [|Hlt]; [lia|].
  destruct (lpm routes (IPv4Header.dst (IPv4Datagram.header d))) as [s|] eqn:El; simpl fmap; cbv iota.
  2:{ exists r. split; [done|]. split; [done|]. by apply moved_nothing, Hnone. }
  clear Hnone. destruct (lpm_Some_In _ _ _ El) as [Hin _].
  destruct (proj1 (Forall_forall _ _) Hnum s Hin) as [Hns Hhop].
  unfold route_entry, Router.interface.
  destruct (zget_is_Some (Router.interfaces_ r) (rs_num s) Hns) as [i Hi]. rewrite Hi. cbn [mbind outcome_bind].
  rewrite from_ipv4_spec. cbn [mbind outcome_bind]. fold (ipv4_address (IPv4Header.dst (IPv4Datagram.header d))).
  assert (Hil : Router.interfaces_ r !! Z.to_nat (rs_num s) = Some i).
  { unfold zget in Hi. by destruct (Z.ltb_spec (rs_num s) 0); [lia|]. }
  destruct (proj1 (Forall_forall _ _) Hifs i (list_elem_of_lookup_2 _ _ _ Hil)) as [[own Hown] Hq].
  set (hop := default _ (rs_hop s)). set (ip := next_hop_ip s (IPv4Header.dst (IPv4Datagram.header d))).
  assert (Hip : 0 <= ip < two32 /\ Address.ipv4_numeric hop = Ok ip).
  { unfold hop, ip, next_hop_ip. destruct (rs_hop s) as [a|]; simpl.
    - destruct Hhop as (x & Hx & ->). done.
    - split; [done|]. by apply ipv4_numeric_of. }
  destruct Hip as [Hip Hhopn]. fold (decremented d).
  destruct (send_spec own (AsyncNetworkInterface.base i) (decremented d) hop ip Hown) as
    (n' & new & Hs & Hn' & _); [by apply decremented_ok|done|].
  unfold AsyncNetworkInterface.send_datagram. rewrite Hs. cbn [mbind outcome_bind].
  eexists. split; [done|]. split.
  - split; try done; simpl.
    + eapply Forall_impl; [done|]. intros x. by rewrite length_insert.
    + apply Forall_insert; [done|]. split; [by exists own|done].
  - split; [by simpl; rewrite length_insert|done|]. intros j i' Hj. simpl.
    unfold sends_to. simpl. unfold forward. rewrite El.
    destruct (Z.leb_spec (IPv4Header.ttl (IPv4Datagram.header d)) 1) as [|_]; [lia|].
    case_decide as Hjn.
    + rewrite Hjn in *. assert (i' = i) as -> by congruence. exists n'. simpl.
      fold ip. rewrite <- (send_datagram_hop _ _ hop ip) by done. rewrite Hs. split; [done|].
      by rewrite list_lookup_insert_eq by (by eapply lookup_lt_Some).
    + exists (AsyncNetworkInterface.base i'). split; [done|]. rewrite list_lookup_insert_ne by done.
      rewrite Hj. by destruct i'.
Qed.

Lemma moved_trans routes ds1 ds2 e1 e2 r1 r2 r3 :
  moved routes ds1 e1 r1 r2 -> moved routes ds2 e2 r2 r3 ->
  moved routes (ds1 ++ ds2) (fun j => e1 j || e2 j) r1 r3.
Proof.
  intros [Hl1 Ht1 H1] [Hl2 Ht2 H2]. split; [congruence..|]. intros j i Hi.
  destruct (H1 j i Hi) as (n1 & Hr1 & Hi1). destruct (H2 j _ Hi1) as (n2 & Hr2 & Hi2). simpl in *.
  exists n2. rewrite sends_to_app, ni_run_app, Hr1. split; [done|]. rewrite Hi2.
  by destruct (e1 j), (e2 j).
Qed.

Lemma moved_ext routes ds e e' r r' :
  (forall j, (j < length (Router.interfaces_ r))%nat -> e j = e' j) -> moved routes ds e r r' -> moved routes ds e' r r'.
Proof.
  intros He [Hl Ht H]. split; [done..|]. intros j i Hi. destruct (H j i Hi) as (n' & Hr & Hi').
  exists n'. rewrite <- He; [done|]. by eapply lookup_lt_Some.
Qed.

(** The queue of one interface. *)
Definition queue_of (r : Router.t) (idx : nat) : list IPv4Datagram.t :=
  default [] (AsyncNetworkInterface.datagrams_out <$> (Router.interfaces_ r !! idx)).

Definition pop_at (r : Router.t) (idx : nat) (i : AsyncNetworkInterface.t) : Router.t :=
  Router.mk (<[idx := AsyncNetworkInterface.pop i]> (Router.interfaces_ r)) (Router.table_ r).

Lemma pop_at_wf routes r idx i :
  rt_wf routes r -> Router.interfaces_ r !! idx = Some i -> rt_wf routes (pop_at r idx i).
Proof.
  intros [Hok Ht Hnum Hifs] Hi. split; try done; simpl.
  - eapply Forall_impl; [done|]. intros s. by rewrite length_insert.
  - apply Forall_insert; [done|]. destruct (proj1 (Forall_lookup _ _) Hifs _ _ Hi) as [Ho Hq].
    split; [done|]. simpl. destruct Hq; [constructor|done].
Qed.

Lemma drain_ok routes idx ds : forall fuel r i,
  rt_wf routes r -> Router.interfaces_ r !! idx = Some i -> AsyncNetworkInterface._datagrams_out i = ds ->
  (length ds < fuel)%nat ->
  exists r', Router.drain fuel r idx = Ok r' /\ rt_wf routes r' /\
    moved routes ds (fun j => bool_decide (j = idx)) r r'.
Proof.
  induction ds as [|d ds IH]; intros fuel r i Hr Hi Hq Hf; (destruct fuel as [|fuel]; [simpl in Hf; lia|]);
    cbn [Router.drain]; rewrite Hi; unfold AsyncNetworkInterface.datagrams_out; rewrite Hq.
  - exists r. split; [done|]. split; [done|]. split; try done. intros j i' Hj.
    exists (AsyncNetworkInterface.base i'). split; [done|]. rewrite Hj. case_bool_decide as Hji; [|by destruct i'].
    subst j. assert (i' = i) as -> by congruence. destruct i. simpl in *. congruence.
  - destruct (proj1 (Forall_lookup _ _) (rt_ifs _ _ Hr) _ _ Hi) as [_ Hok]. rewrite Hq in Hok.
    apply Forall_cons in Hok as [Hd _].
    destruct (route_one_ok routes r d Hr Hd) as (r1 & -> & Hr1 & Hm1). cbn [mbind outcome_bind].
    destruct (mv_ifs _ _ _ _ _ Hm1 _ _ Hi) as (n1 & Hrun1 & Hi1). rewrite Hi1. simpl in Hi1.
    fold (pop_at r1 idx (AsyncNetworkInterface.mk n1 (AsyncNetworkInterface._datagrams_out i))).
    set (r2 := pop_at _ _ _).
    assert (Hlt : (idx < length (Router.interfaces_ r1))%nat) by (by eapply lookup_lt_Some).
    destruct (IH fuel r2 (AsyncNetworkInterface.mk n1 ds)) as (r' & -> & Hr' & Hm'); [by apply pop_at_wf| | |simpl in Hf; lia|].
    + unfold r2, pop_at. simpl. rewrite list_lookup_insert_eq by done. unfold AsyncNetworkInterface.pop.
      simpl. by rewrite Hq.
    + done.
    + exists r'. split; [done|]. split; [done|]. destruct Hm1 as [Hl1 Ht1 Hj1], Hm' as [Hl' Ht' Hj'].
      simpl in Hl', Ht'. rewrite length_insert in Hl'. split; [congruence..|]. intros j i' Hj.
      destruct (Hj1 j i' Hj) as (n2 & Hrun2 & Hi2). change (d :: ds) with ([d] ++ ds).
      rewrite sends_to_app, ni_run_app, Hrun2. cbn [mbind outcome_bind].
      destruct (decide (j = idx)) as [->|Hne].
      * destruct (Hj' idx (AsyncNetworkInterface.pop (AsyncNetworkInterface.mk n1 (AsyncNetworkInterface._datagrams_out i))))
          as (n3 & Hrun3 & Hi3); [simpl; by rewrite list_lookup_insert_eq|].
        unfold AsyncNetworkInterface.pop in Hrun3. simpl in Hrun3.
        rewrite Hi1 in Hi2. injection Hi2 as <- _. exists n3. split; [done|]. rewrite Hi3.
        by rewrite bool_decide_eq_true_2.
      * destruct (Hj' j (AsyncNetworkInterface.mk n2 (AsyncNetworkInterface._datagrams_out i'))) as (n3 & Hrun3 & Hi3).
        { simpl. by rewrite list_lookup_insert_ne. }
        exists n3. split; [done|]. rewrite Hi3. by rewrite bool_decide_eq_false_2.
Qed.

(** The datagrams of [k] interfaces from [idx] on, in the order the loop sees them. *)
Definition queued (r : Router.t) (idx k : nat) : list IPv4Datagram.t :=
  concat (queue_of r <$> seq idx k).

Lemma queue_of_moved routes ds e r r' idx :
  moved routes ds e r r' -> e idx = false -> queue_of r' idx = queue_of r idx.
Proof.
  intros [Hl Ht H] He. unfold queue_of. destruct (Router.interfaces_ r !! idx) as [i|] eqn:Hi.
  - destruct (H _ _ Hi) as (n' & _ & ->). by rewrite He.
  - assert (Hi' : Router.interfaces_ r' !! idx = None) by (apply lookup_ge_None in Hi; apply lookup_ge_None; lia).
    by rewrite Hi'.
Qed.

Lemma route_from_ok routes fuel k : forall r idx,
  rt_wf routes r -> (idx + k <= length (Router.interfaces_ r))%nat ->
  (forall j, (length (queue_of r j) < fuel)%nat) ->
  exists r', Router.route_from fuel r idx k = Ok r' /\ rt_wf routes r' /\
    moved routes (queued r idx k) (fun j => bool_decide (idx <= j < idx + k)%nat) r r'.
Proof.
  induction k as [|k IH]; intros r idx Hr Hk Hf; cbn [Router.route_from].
  - exists r. split; [done|]. split; [done|]. split; try done. intros j i Hj.
    exists (AsyncNetworkInterface.base i). split; [done|]. rewrite bool_decide_eq_false_2 by lia.
    rewrite Hj. by destruct i.
  - destruct (lookup_lt_is_Some_2 (Router.interfaces_ r) idx) as [i Hi]; [lia|].
    specialize (Hf idx) as Hfi. unfold queue_of in Hfi. rewrite Hi in Hfi. simpl in Hfi.
    destruct (drain_ok routes idx _ fuel r i Hr Hi eq_refl Hfi) as (r1 & -> & Hr1 & Hm1).
    cbn [mbind outcome_bind]. destruct (IH r1 (S idx) Hr1) as (r' & -> & Hr' & Hm').
    + rewrite (mv_len _ _ _ _ _ Hm1). lia.
    + intros j. destruct (decide (j = idx)) as [->|Hne].
      * unfold queue_of. destruct (mv_ifs _ _ _ _ _ Hm1 _ _ Hi) as (n' & _ & ->).
        rewrite bool_decide_eq_true_2 by done. simpl. lia.
      * rewrite (queue_of_moved _ _ _ _ _ _ Hm1) by (by apply bool_decide_eq_false_2). apply Hf.
    + exists r'. split; [done|]. split; [done|].
      assert (Hq : queued r idx (S k) = AsyncNetworkInterface._datagrams_out i ++ queued r1 (S idx) k).
      { unfold queued. simpl. f_equal; [unfold queue_of; by rewrite Hi|]. f_equal.
        apply list_fmap_ext. intros x j Hj%lookup_seq. symmetry.
        apply (queue_of_moved _ _ _ _ _ _ Hm1). apply bool_decide_eq_false_2. lia. }
      rewrite Hq. eapply moved_ext; [|by eapply moved_trans].
      intros j _. simpl. repeat case_bool_decide; simpl; lia || done.
Qed.

Lemma queue_fuel_enough r j : (length (queue_of r j) < Router.queue_fuel r)%nat.
Proof.
  unfold Router.queue_fuel, queue_of. destruct (Router.interfaces_ r !! j) as [i|] eqn:Hi; simpl; [|lia].
  pose proof (proj1 (list_max_le (length ∘ AsyncNetworkInterface._datagrams_out <$> Router.interfaces_ r) _) (le_n _)) as H.
  rewrite Forall_lookup in H. specialize (H j (length (AsyncNetworkInterface._datagrams_out i))).
  rewrite list_lookup_fmap, Hi in H. specialize (H eq_refl). unfold AsyncNetworkInterface.datagrams_out. lia.
Qed.

(** ** Properties *)

(** C30. The table lookup is the longest prefix match: after any sequence of [add_route] calls
    with prefixes of at most 32 bits, the loop of [route_one_datagram] stops at the entry of a
    route that matches the address, with no earlier route matching as many bits and no later
    one more; it finds none exactly if no route matches. *)
Theorem longest_prefix_match (routes : list route_spec) (interfaces : list AsyncNetworkInterface.t) (ip : Z)
  (Hroutes : Forall rs_ok routes) (Hip : 0 <= ip < two32) :
  exists r it, add_routes (Router.mk interfaces ∅) routes = Ok r /\
    Router.find_route 34 (Router.table_ r) ip (u32 (Z.lnot 0)) 32 = Ok it /\
    match it with
    | Some e => exists s, is_route routes ip s /\ e = route_entry s
    | None => forall s, s ∈ routes -> ~ matches s ip
    end.
Proof.
  destruct (add_routes_ok (Router.mk interfaces ∅) routes Hroutes) as (r & Hr & _ & Ht).
  exists r, (route_entry <$> lpm routes ip). split; [done|].
  split; [apply lookup_is_lpm; [done| |done]; intros key; by rewrite Ht|].
  destruct (lpm routes ip) as [s|] eqn:E; simpl.
  - exists s. split; [by apply lpm_best|done].
  - intros s. by apply lpm_None.
Qed.

(** 10.0.0.0/8 on interface 0, 10.1.0.0/16 and, too late, another 10.1.0.0/16. *)
Definition sample_routes : list route_spec :=
  [Route 167772160 8 None 0; Route 167837696 16 (Some (ipv4_address neighbour_ip)) 1;
   Route 167837697 16 None 0].

Lemma longest_prefix_match_witness :
  exists r, add_routes Router.make sample_routes = Ok r /\
    Router.find_route 34 (Router.table_ r) 167837703 (u32 (Z.lnot 0)) 32 =
      Ok (Some (1, Some (ipv4_address neighbour_ip))).
Proof.
  destruct (longest_prefix_match sample_routes [] 167837703) as (r & it & Hr & Hf & Hit).
  - repeat (apply Forall_cons; split); try apply Forall_nil, I; split; simpl; lia.
  - lia.
  - exists r. split; [done|]. rewrite Hf. f_equal. clear Hit.
    vm_compute in Hr. injection Hr as <-. vm_compute in Hf. injection Hf as <-. reflexivity.
Defined.

(** C29. [Router::route] on a well-formed router: its interfaces are well formed (which the runs of
    NetIf.v keep), every route names one of them and a usable next hop, and every queued datagram
    is well formed (version 4, a header length of at least 5, a total length that fits its
    payload).  Then [route] terminates without failing,
    keeps the router well formed, empties every interface's queue and forwards the datagrams:
    each interface does exactly the sends of those whose longest matching route names it, in
    the order of the queues, with the time to live decremented and to the route's next hop
    (the destination itself for a direct route); datagrams with a time to live of at most 1
    and datagrams without a route are dropped.  The condition on the datagrams is needed: the
    interfaces also queue datagrams of another version, on which [route] throws. *)
Theorem route_correct (routes : list route_spec) (r : Router.t) (Hr : rt_wf routes r) :
  exists r', Router.route r = Ok r' /\ rt_wf routes r' /\
    forall j i, Router.interfaces_ r !! j = Some i ->
      exists n', ni_run (AsyncNetworkInterface.base i)
          (sends_to j routes (queued r 0 (length (Router.interfaces_ r)))) = Ok n' /\
        Router.interfaces_ r' !! j = Some (AsyncNetworkInterface.mk n' []).
Proof.
  destruct (route_from_ok routes (Router.queue_fuel r) (length (Router.interfaces_ r)) r 0 Hr) as (r' & Hrun & Hr' & Hm);
    [lia|intros; apply queue_fuel_enough|].
  exists r'. split; [done|]. split; [done|]. intros j i Hj.
  destruct (mv_ifs _ _ _ _ _ Hm j i Hj) as (n' & Hn & Hi). exists n'. split; [done|].
  apply lookup_lt_Some in Hj. by rewrite bool_decide_eq_true_2 in Hi by lia.
Qed.

(** A router with two interfaces and a datagram for 10.1.0.7 waiting at the first. *)
Definition routed_datagram : IPv4Datagram.t :=
  IPv4Datagram.set_header sample_datagram
    (IPv4Header.set_dst (IPv4Datagram.header sample_datagram) 167837703).

Definition sample_router : Router.t :=
  match add_routes (Router.mk [AsyncNetworkInterface.mk sample_interface [routed_datagram];
                               AsyncNetworkInterface.of_interface sample_interface] ∅) sample_routes with
  | Ok r => r
  | _ => Router.make
  end.

Lemma sample_routes_ok : Forall rs_ok sample_routes.
Proof. repeat (apply Forall_cons; split); try apply Forall_nil, I; split; simpl; lia. Qed.

Lemma sample_interface_wf : ni_wf sample_ip sample_interface.
Proof. apply ni_make_wf; [apply addr_ok_sample|vm_compute; intuition congruence]. Qed.

Lemma sample_router_wf : rt_wf sample_routes sample_router.
Proof.
  destruct (add_routes_ok (Router.mk [AsyncNetworkInterface.mk sample_interface [routed_datagram];
    AsyncNetworkInterface.of_interface sample_interface] ∅) sample_routes sample_routes_ok) as (r & Hr & Hi & Ht).
  unfold sample_router. rewrite Hr. split.
  - apply sample_routes_ok.
  - intros key. by rewrite Ht.
  - rewrite Hi. simpl. repeat (apply Forall_cons; split); try apply Forall_nil, I; simpl; split; try lia; try done.
    exists neighbour_ip. split; [unfold neighbour_ip; lia|]. apply ipv4_numeric_of. unfold neighbour_ip. lia.
  - rewrite Hi. simpl. repeat (apply Forall_cons; split); try apply Forall_nil, I; simpl;
      (split; [exists sample_ip; apply sample_interface_wf|]); [|constructor].
    apply Forall_singleton. destruct sample_datagram_ok as (_ & Hp & Hl). split; [|done].
    vm_compute. intuition congruence.
Qed.

Lemma route_correct_witness :
  exists r' n', Router.route sample_router = Ok r' /\
    ni_run sample_interface [NSend (decremented routed_datagram) neighbour_ip] = Ok n' /\
    Router.interfaces_ r' !! 1%nat = Some (AsyncNetworkInterface.mk n' []).
Proof.
  destruct (route_correct sample_routes sample_router sample_router_wf) as (r' & Hr & _ & Hifs).
  destruct (Hifs 1%nat (AsyncNetworkInterface.of_interface sample_interface)) as (n' & Hn & Hi);
    [vm_compute; reflexivity|].
  exists r', n'. split; [done|]. split; [|done]. rewrite <- Hn. vm_compute. reflexivity.
Defined.

(** A datagram of another IP version stops the router: [recv_frame] accepts it (the header's
    verdict is dropped), and when it is routed to a next hop with a usable mapping,
    serializing it throws out of [route]. *)
Theorem route_throws_on_wrong_version (routes : list route_spec) (r : Router.t) (d : IPv4Datagram.t)
  (q : list IPv4Datagram.t) (i0 i : AsyncNetworkInterface.t) (own : Z) (eth : EthernetAddress) (s : route_spec)
  (Hok : Forall rs_ok routes) (Hr : represents routes r)
  (Hi0 : Router.interfaces_ r !! 0%nat = Some i0)
  (Hq : AsyncNetworkInterface.datagrams_out i0 = d :: q)
  (Hver : IPv4Header.ver (IPv4Datagram.header d) <> 4)
  (Httl : 1 < IPv4Header.ttl (IPv4Datagram.header d) < two8)
  (Hdst : 0 <= IPv4Header.dst (IPv4Datagram.header d) < two32)
  (Hs : lpm routes (IPv4Header.dst (IPv4Datagram.header d)) = Some s) (Hdirect : rs_hop s = None)
  (Hi : zget (Router.interfaces_ r) (rs_num s) = Some i)
  (Hn : ni_wf own (AsyncNetworkInterface.base i))
  (Hu : usable (AsyncNetworkInterface.base i) (IPv4Header.dst (IPv4Datagram.header d)) = Some eth) :
  exists e, Router.route r = Throw (runtime_error e).
Proof.
  assert (Hone : exists e, Router.route_one_datagram r d = Throw (runtime_error e)).
  { unfold Router.route_one_datagram. cbv zeta.
    destruct (Z.eqb_spec (IPv4Header.ttl (IPv4Datagram.header d)) 0); [lia|].
    rewrite u8_small by lia. cbn [IPv4Header.ttl IPv4Header.dst IPv4Header.set_ttl].
    destruct (Z.eqb_spec (IPv4Header.ttl (IPv4Datagram.header d) - 1) 0); [lia|].
    rewrite (lookup_is_lpm routes) by done. rewrite Hs. cbn [mbind outcome_bind fmap option_fmap option_map].
    unfold route_entry, Router.interface. rewrite Hi, Hdirect. cbn [mbind outcome_bind].
    rewrite from_ipv4_spec. cbn [mbind outcome_bind default]. unfold AsyncNetworkInterface.send_datagram.
    fold (ipv4_address (IPv4Header.dst (IPv4Datagram.header d))).
    change (default (ipv4_address ?x) None) with (ipv4_address x).
    unfold NetworkInterface.send_datagram. rewrite ipv4_numeric_of by done. cbn [mbind outcome_bind].
    unfold usable in Hu. destruct (NetworkInterface.map_ _ !! _) as [[e since]|] eqn:Em; [|done].
    pose proof (ni_map _ _ Hn _ _ _ Em). pose proof (ni_time _ _ Hn). rewrite u64_small by lia.
    destruct (_ <? NetworkInterface.IP_TO_ETHERNET_LIMIT); [|done].
    unfold NetworkInterface.generate_ip_frame, IPv4Datagram.serialize.
    destruct (negb _); [by eexists|]. unfold IPv4Header.serialize. simpl.
    destruct (Z.eqb_spec (IPv4Header.ver (IPv4Datagram.header d)) 4); [done|]. by eexists. }
  destruct Hone as (e & He). exists e. unfold Router.route, Router.queue_fuel.
  destruct (Router.interfaces_ r) as [|x l] eqn:Ei; [done|]. injection Hi0 as ->. cbn [length Router.route_from Router.drain].
  rewrite Ei. cbn [lookup list_lookup]. rewrite Hq, He. done.
Qed.

(** A packet that claims version 6 arrives at a router whose neighbour is known. *)
Definition version6_packet : list byte :=
  be_encode 1 101 ++ be_encode 1 0 ++ be_encode 2 20 ++ be_encode 4 0 ++ be_encode 1 64 ++ be_encode 1 6 ++
  be_encode 2 0 ++ be_encode 4 0 ++ be_encode 4 neighbour_ip.

Definition version6_frame : EthernetFrame.t :=
  EthernetFrame.mk (EthernetHeader.mk sample_eth neighbour_eth EthernetHeader.TYPE_IPv4)
    [Buffer.of_string version6_packet].

Definition version6_interface : outcome AsyncNetworkInterface.t :=
  i ← AsyncNetworkInterface.recv_frame (AsyncNetworkInterface.of_interface sample_interface) (arp_answer neighbour_eth);
  AsyncNetworkInterface.recv_frame i version6_frame.

Definition version6_router : outcome Router.t :=
  i ← version6_interface;
  add_routes (Router.mk [i] ∅) [Route 167772160 8 None 0].

Lemma route_throws_on_wrong_version_witness :
  exists r e, version6_router = Ok r /\ Router.route r = Throw (runtime_error e).
Proof.
  destruct (add_routes_ok (Router.mk match version6_interface with Ok i => [i] | _ => [] end ∅)
    [Route 167772160 8 None 0]) as (r & Hr & Hi & Ht).
  { apply Forall_singleton. split; simpl; lia. }
  assert (Hn : exists n, NetworkInterface.recv_frame sample_interface (arp_answer neighbour_eth) = Ok (n, None) /\ ni_wf sample_ip n).
  { destruct (recv_spec sample_ip sample_interface (arp_answer neighbour_eth) sample_interface_wf) as (n & Hrf & Hw & _);
      [apply arp_answer_ok; by left|]. exists n. split; [rewrite Hrf; vm_compute; reflexivity|done]. }
  destruct Hn as (n & Hrf & Hw). vm_compute in Hrf. injection Hrf as <-.
  exists r. edestruct (route_throws_on_wrong_version [Route 167772160 8 None 0] r) as (e & He);
    [..|exists e; split; [exact Hr|exact He]].
  - apply Forall_singleton. split; simpl; lia.
  - intros key. by rewrite Ht.
  - rewrite Hi. vm_compute. reflexivity.
  - reflexivity.
  - vm_compute. congruence.
  - vm_compute. intuition congruence.
  - vm_compute. intuition congruence.
  - vm_compute. reflexivity.
  - reflexivity.
  - rewrite Hi. vm_compute. reflexivity.
  - exact Hw.
  - vm_compute. reflexivity.
Defined.
