(* ===== verification/Simulator.v ===== *)
(** * Simulator.v: hosts, a router and the wires between them

    Models [apps/network_simulator.cc]: [Host], which owns a network interface and a list of
    datagrams it expects, and [Network], a router with seven interfaces and six hosts on five
    links, whose frames are exchanged by hand.  The random generator is a parameter, the
    sequence of its draws; an operation that draws takes the number of draws made before and
    returns the new one.  The progress messages on the standard streams are not modelled. *)

From stdpp Require Import gmap strings pretty.
From S2P Require Import Prelude Buffers Parsing IpWire EtherWire Addresses Printers NetIf Routing.

(** The character that quotes a payload in a message. *)
Definition quote : string := String (Ascii.ascii_of_N 34) "".

Definition payload_text (d : IPv4Datagram.t) : string :=
  String.string_of_list_byte (BufferList.concatenate (IPv4Datagram.payload d)).

Section helpers.

(** The draws of [rd()], 32-bit numbers, and the C library's name functions. *)
Context (rd : nat -> Z) (R : Address.Resolver).

(** ** Addresses *)

Definition random_bytes (k : nat) : EthernetAddress := (fun i => u8 (rd (k + i))) <$> seq 0 6.

Definition random_host_ethernet_address (k : nat) : EthernetAddress * nat :=
  let addr := random_bytes k in
  let addr := alter (fun b => Z.lor b 2) 0%nat addr in
  let addr := alter (fun b => Z.land b 254) 0%nat addr in
  (addr, k + 6)%nat.

Definition random_router_ethernet_address (k : nat) : EthernetAddress * nat :=
  let addr := random_bytes k in
  let addr := <[0%nat := 2]> addr in
  let addr := <[1%nat := 0]> addr in
  let addr := <[2%nat := 0]> addr in
  (addr, k + 6)%nat.

Definition ip (str : string) : outcome Z := a ← Address.of_ip R str 0; Address.ipv4_numeric a.

(** ** Queues *)

(** [clear(queue1, queue2)]: pops the second queue once for every element of the first; popping
    an empty queue is undefined. *)
Fixpoint clear {A} (queue1 queue2 : list A) : outcome (list A) :=
  match queue1 with
  | [] => Ok queue2
  | _ :: queue1 => match queue2 with [] => Undefined | _ :: queue2 => clear queue1 queue2 end
  end.

(** ** Frames on the standard error stream *)

Definition summary (frame : EthernetFrame.t) : outcome string :=
  let ret := ethernet_header_to_string (EthernetFrame.header frame) in
  let type := EthernetHeader.type (EthernetFrame.header frame) in
  if type =? EthernetHeader.TYPE_IPv4 then
    b ← BufferList.to_buffer (EthernetFrame.payload frame);
    '(r, dgram) ← IPv4Datagram.parse IPv4Datagram.make b;
    if bool_decide (r = NoError) then
      Ok (ret +:+ " " +:+ ipv4_summary R (IPv4Datagram.header dgram) +:+
          " payload=" +:+ quote +:+ payload_text dgram +:+ quote)
    else Ok (ret +:+ " (bad IPv4)")
  else if type =? EthernetHeader.TYPE_ARP then
    b ← BufferList.to_buffer (EthernetFrame.payload frame);
    '(r, arp) ← ARPMessage.parse ARPMessage.make b;
    if bool_decide (r = NoError) then Ok (ret +:+ " " +:+ arp_to_string R arp)
    else Ok (ret +:+ " (bad ARP)")
  else Ok ret.

End helpers.

(** The bytes a datagram has on the wire, [serialize().concatenate()]. *)
Definition wire (d : IPv4Datagram.t) : outcome (list byte) :=
  s ← IPv4Datagram.serialize d; Ok (BufferList.concatenate s).

(** [dgram_sent.header().ttl--]. *)
Definition decrement_ttl (d : IPv4Datagram.t) : IPv4Datagram.t :=
  let h := IPv4Datagram.header d in
  IPv4Datagram.set_header d (IPv4Header.set_ttl h (u8 (IPv4Header.ttl h - 1))).

Module Host.

Record t := mk {
  _name : string;
  _my_address : Address.t;
  _interface : AsyncNetworkInterface.t;
  _next_hop : Address.t;
  _expecting_to_receive : list IPv4Datagram.t
}.

Definition set_interface (h : t) (i : AsyncNetworkInterface.t) : t :=
  mk (_name h) (_my_address h) i (_next_hop h) (_expecting_to_receive h).
Definition set_expecting (h : t) (l : list IPv4Datagram.t) : t :=
  mk (_name h) (_my_address h) (_interface h) (_next_hop h) l.

(** The loop of [expecting]. *)
Fixpoint expecting_in (l : list IPv4Datagram.t) (expected : IPv4Datagram.t) : outcome bool :=
  match l with
  | [] => Ok false
  | x :: l' =>
      a ← wire x; b ← wire expected;
      if bool_decide (a = b) then Ok true else expecting_in l' expected
  end.

Definition expecting (h : t) (expected : IPv4Datagram.t) : outcome bool :=
  expecting_in (_expecting_to_receive h) expected.

(** The loop of [remove_expectation]: the first match is erased. *)
Fixpoint remove_from (l : list IPv4Datagram.t) (expected : IPv4Datagram.t) : outcome (list IPv4Datagram.t) :=
  match l with
  | [] => Ok []
  | x :: l' =>
      a ← wire x; b ← wire expected;
      if bool_decide (a = b) then Ok l' else l' ← remove_from l' expected; Ok (x :: l')
  end.

Definition remove_expectation (h : t) (expected : IPv4Datagram.t) : outcome t :=
  l ← remove_from (_expecting_to_receive h) expected; Ok (set_expecting h l).

Definition address (h : t) : Address.t := _my_address h.
Definition interface (h : t) : AsyncNetworkInterface.t := _interface h.
Definition name (h : t) : string := _name h.

Definition expect (h : t) (expected : IPv4Datagram.t) : t :=
  set_expecting h (_expecting_to_receive h ++ [expected]).

Section host.

Context (rd : nat -> Z) (R : Address.Resolver).

(** The constructor; its interface has an address drawn at random. *)
Definition make (name : string) (my_address next_hop : Address.t) (k : nat) : t * nat :=
  let '(eth, k) := random_host_ethernet_address rd k in
  (mk name my_address (AsyncNetworkInterface.of_interface (NetworkInterface.make eth my_address))
     next_hop [], k).

(** The payload of a probe. *)
Definition random_payload (k : nat) : list byte :=
  String.list_byte_of_string ("random payload: {" +:+ pretty (rd k) +:+ "}").

Definition send_to (h : t) (destination : Address.t) (ttl : Z) (k : nat)
  : outcome (IPv4Datagram.t * t * nat) :=
  src ← Address.ipv4_numeric (_my_address h);
  dst ← Address.ipv4_numeric destination;
  let header := IPv4Header.set_dst (IPv4Header.set_src IPv4Header.make src) dst in
  let payload := BufferList.of_string (random_payload k) in
  let header := IPv4Header.set_len header
    (u16 (IPv4Header.hlen header * 4 + BufferList.size payload)) in
  let header := IPv4Header.set_ttl header ttl in
  let dgram := IPv4Datagram.mk header payload in
  i ← AsyncNetworkInterface.send_datagram (_interface h) dgram (_next_hop h);
  Ok (dgram, set_interface h i, S k).

(** The loop of [check] over the received datagrams. *)
Fixpoint check_received (received : list IPv4Datagram.t) (h : t) : outcome t :=
  match received with
  | [] => Ok h
  | dgram_received :: received =>
      b ← expecting h dgram_received;
      if negb b then
        Throw (runtime_error ("Host " +:+ _name h +:+ " received unexpected Internet datagram: " +:+
          ipv4_summary R (IPv4Datagram.header dgram_received) +:+ " payload=" +:+ quote +:+
          payload_text dgram_received +:+ quote))
      else
        h ← remove_expectation h dgram_received;
        check_received received (set_interface h (AsyncNetworkInterface.pop (_interface h)))
  end.

Definition check (h : t) : outcome t :=
  h ← check_received (AsyncNetworkInterface.datagrams_out (_interface h)) h;
  match _expecting_to_receive h with
  | [] => Ok h
  | expected :: _ =>
      Throw (runtime_error ("Host " +:+ _name h +:+ " did NOT receive an expected Internet datagram: " +:+
        ipv4_summary R (IPv4Datagram.header expected) +:+ " payload=" +:+ quote +:+
        payload_text expected +:+ quote))
  end.

End host.

End Host.

Module Network.

Record t := mk {
  _router : Router.t;
  default_id : Z;
  eth0_id : Z;
  eth1_id : Z;
  eth2_id : Z;
  uun3_id : Z;
  hs4_id : Z;
  mit5_id : Z;
  _hosts : gmap string Host.t
}.

Definition set_router (n : t) (r : Router.t) : t :=
  mk r (default_id n) (eth0_id n) (eth1_id n) (eth2_id n) (uun3_id n) (hs4_id n) (mit5_id n) (_hosts n).
Definition set_hosts (n : t) (m : gmap string Host.t) : t :=
  mk (_router n) (default_id n) (eth0_id n) (eth1_id n) (eth2_id n) (uun3_id n) (hs4_id n) (mit5_id n) m.

Definition host (n : t) (name : string) : outcome Host.t :=
  match _hosts n !! name with
  | None => Throw (runtime_error ("unknown host: " +:+ name))
  | Some h => if negb (bool_decide (Host.name h = name))
              then Throw (runtime_error ("invalid host: " +:+ name)) else Ok h
  end.

(** Assignment through the reference [host(name)] returned. *)
Definition set_host (n : t) (name : string) (h : Host.t) : t := set_hosts n (<[name := h]> (_hosts n)).

(** The frame with its payload in one piece. *)
Definition flatten (f : EthernetFrame.t) : EthernetFrame.t :=
  EthernetFrame.mk (EthernetFrame.header f)
    (BufferList.of_string (BufferList.concatenate (EthernetFrame.payload f))).

Fixpoint deliver (src : list EthernetFrame.t) (dst : AsyncNetworkInterface.t) : outcome AsyncNetworkInterface.t :=
  match src with
  | [] => Ok dst
  | f :: src => dst ← AsyncNetworkInterface.recv_frame dst (flatten f); deliver src dst
  end.

Definition frames_of (x : AsyncNetworkInterface.t) : list EthernetFrame.t :=
  NetworkInterface.frames_out (AsyncNetworkInterface.base x).

(** [clear(frames, x.frames_out())]. *)
Definition clear_frames (frames : list EthernetFrame.t) (x : AsyncNetworkInterface.t)
  : outcome AsyncNetworkInterface.t :=
  l ← clear frames (frames_of x);
  Ok (AsyncNetworkInterface.mk (NetworkInterface.set_frames_out (AsyncNetworkInterface.base x) l)
        (AsyncNetworkInterface._datagrams_out x)).

Definition exchange_frames (x y : AsyncNetworkInterface.t)
  : outcome (AsyncNetworkInterface.t * AsyncNetworkInterface.t) :=
  let x_frames := frames_of x in
  let y_frames := frames_of y in
  y ← deliver x_frames y;
  x ← deliver y_frames x;
  x ← clear_frames x_frames x;
  y ← clear_frames y_frames y;
  Ok (x, y).

Definition exchange_frames3 (x y z : AsyncNetworkInterface.t)
  : outcome (AsyncNetworkInterface.t * AsyncNetworkInterface.t * AsyncNetworkInterface.t) :=
  let x_frames := frames_of x in
  let y_frames := frames_of y in
  let z_frames := frames_of z in
  y ← deliver x_frames y;
  z ← deliver x_frames z;
  x ← deliver y_frames x;
  z ← deliver y_frames z;
  x ← deliver z_frames x;
  y ← deliver z_frames y;
  x ← clear_frames x_frames x;
  y ← clear_frames y_frames y;
  z ← clear_frames z_frames z;
  Ok (x, y, z).

(** One wire between an interface of the router and a host. *)
Definition wire_to (n : t) (id : Z) (name : string) : outcome t :=
  x ← Router.interface (_router n) id;
  h ← host n name;
  '(x, y) ← exchange_frames x (Host.interface h);
  Ok (set_host (set_router n (Router.set_interface (_router n) id x)) name (Host.set_interface h y)).

(** The network of an interface of the router and two hosts. *)
Definition wire_to2 (n : t) (id : Z) (name1 name2 : string) : outcome t :=
  x ← Router.interface (_router n) id;
  h1 ← host n name1;
  h2 ← host n name2;
  '(x, y, z) ← exchange_frames3 x (Host.interface h1) (Host.interface h2);
  let n := set_router n (Router.set_interface (_router n) id x) in
  Ok (set_host (set_host n name1 (Host.set_interface h1 y)) name2 (Host.set_interface h2 z)).

Definition simulate_physical_connections (n : t) : outcome t :=
  n ← wire_to n (default_id n) "default_router";
  n ← wire_to n (eth0_id n) "applesauce";
  n ← wire_to n (eth2_id n) "cherrypie";
  n ← wire_to n (hs4_id n) "hs_router";
  wire_to2 n (uun3_id n) "dm42" "dm43".

(** The loop of [simulate]. *)
Fixpoint rounds (i : nat) (n : t) : outcome t :=
  match i with
  | O => Ok n
  | S i =>
      r ← Router.route (_router n);
      n ← simulate_physical_connections (set_router n r);
      rounds i n
  end.

Section network.

Context (rd : nat -> Z) (R : Address.Resolver).

(** The loop over the hosts, in the order of the map's elements. *)
Fixpoint check_hosts (names : list string) (n : t) : outcome t :=
  match names with
  | [] => Ok n
  | name :: names =>
      match _hosts n !! name with
      | Some h => h ← Host.check R h; check_hosts names (set_host n name h)
      | None => check_hosts names n
      end
  end.

Definition simulate (n : t) : outcome t :=
  n ← rounds 256 n;
  check_hosts (map_to_list (_hosts n)).*1 n.

(** [_router.add_interface({random_router_ethernet_address(), {address}})]. *)
Definition add_router_interface (r : Router.t) (address : string) (k : nat) : outcome (Z * Router.t * nat) :=
  let '(eth, k) := random_router_ethernet_address rd k in
  a ← Address.of_ip R address 0;
  let '(id, r) := Router.add_interface r (AsyncNetworkInterface.of_interface (NetworkInterface.make eth a)) in
  Ok (id, r, k).

(** [_hosts.insert({name, {name, {address}, {next_hop}}})]. *)
Definition insert_host (m : gmap string Host.t) (name address next_hop : string) (k : nat)
  : outcome (gmap string Host.t * nat) :=
  a ← Address.of_ip R address 0;
  hop ← Address.of_ip R next_hop 0;
  let '(h, k) := Host.make rd name a hop k in
  Ok (emplace m name h, k).

(** [_router.add_route(ip(prefix), length, next_hop, id)]. *)
Definition add_network_route (n : t) (prefix : string) (length : Z) (next_hop : option Address.t) (id : Z) : outcome t :=
  p ← ip R prefix;
  r ← Router.add_route (_router n) p length next_hop id;
  Ok (set_router n r).

(** The constructor. *)
Definition make (k : nat) : outcome (t * nat) :=
  '(default_id, r, k) ← add_router_interface Router.make "171.67.76.46" k;
  '(eth0_id, r, k) ← add_router_interface r "10.0.0.1" k;
  '(eth1_id, r, k) ← add_router_interface r "172.16.0.1" k;
  '(eth2_id, r, k) ← add_router_interface r "192.168.0.1" k;
  '(uun3_id, r, k) ← add_router_interface r "198.178.229.1" k;
  '(hs4_id, r, k) ← add_router_interface r "143.195.0.2" k;
  '(mit5_id, r, k) ← add_router_interface r "128.30.76.255" k;
  '(m, k) ← insert_host ∅ "applesauce" "10.0.0.2" "10.0.0.1" k;
  '(m, k) ← insert_host m "default_router" "171.67.76.1" "0" k;
  '(m, k) ← insert_host m "cherrypie" "192.168.0.2" "192.168.0.1" k;
  '(m, k) ← insert_host m "hs_router" "143.195.0.1" "0" k;
  '(m, k) ← insert_host m "dm42" "198.178.229.42" "198.178.229.1" k;
  '(m, k) ← insert_host m "dm43" "198.178.229.43" "198.178.229.1" k;
  let n := mk r default_id eth0_id eth1_id eth2_id uun3_id hs4_id mit5_id m in
  d ← host n "default_router";
  n ← add_network_route n "0.0.0.0" 0 (Some (Host.address d)) default_id;
  n ← add_network_route n "10.0.0.0" 8 None eth0_id;
  n ← add_network_route n "172.16.0.0" 16 None eth1_id;
  n ← add_network_route n "192.168.0.0" 24 None eth2_id;
  n ← add_network_route n "198.178.229.0" 24 None uun3_id;
  hs ← host n "hs_router";
  n ← add_network_route n "143.195.0.0" 17 (Some (Host.address hs)) hs4_id;
  n ← add_network_route n "143.195.128.0" 18 (Some (Host.address hs)) hs4_id;
  n ← add_network_route n "143.195.192.0" 19 (Some (Host.address hs)) hs4_id;
  hop ← Address.of_ip R "128.30.0.1" 0;
  n ← add_network_route n "128.30.76.255" 16 (Some hop) mit5_id;
  Ok (n, k).

(** [network.host(src).send_to(destination, ttl)]. *)
Definition send_from (n : t) (src : string) (destination : Address.t) (ttl : Z) (k : nat)
  : outcome (IPv4Datagram.t * t * nat) :=
  h ← host n src;
  '(dgram, h, k) ← Host.send_to rd h destination ttl k;
  Ok (dgram, set_host n src h, k).

(** [network.host(dst).expect(dgram)]. *)
Definition expect_at (n : t) (dst : string) (dgram : IPv4Datagram.t) : outcome t :=
  h ← host n dst; Ok (set_host n dst (Host.expect h dgram)).

(** One test: a datagram sent with the default time to live has to arrive with one less. *)
Definition test_delivery (n : t) (src : string) (destination : Address.t) (dst : string) (k : nat)
  : outcome (t * nat) :=
  '(dgram_sent, n, k) ← send_from n src destination 64 k;
  n ← expect_at n dst (decrement_ttl dgram_sent);
  n ← simulate n;
  Ok (n, k).

(** The destination is a host of the network, or an address. *)
Definition test_to_host (n : t) (src dst : string) (k : nat) : outcome (t * nat) :=
  h ← host n dst; test_delivery n src (Host.address h) dst k.

Definition test_to_address (n : t) (src address dst : string) (k : nat) : outcome (t * nat) :=
  a ← Address.of_ip R address 0; test_delivery n src a dst k.

(** A datagram that must expire. *)
Definition test_expiry (n : t) (src address : string) (ttl : Z) (k : nat) : outcome (t * nat) :=
  a ← Address.of_ip R address 0;
  '(_, n, k) ← send_from n src a ttl k;
  n ← simulate n;
  Ok (n, k).

Definition network_simulator : outcome (t * nat) :=
  '(n, k) ← make 0;
  '(n, k) ← test_to_host n "applesauce" "cherrypie" k;
  '(n, k) ← test_to_host n "cherrypie" "applesauce" k;
  '(n, k) ← test_to_address n "applesauce" "1.2.3.4" "default_router" k;
  '(n, k) ← test_to_address n "applesauce" "143.195.131.17" "hs_router" k;
  '(n, k) ← test_to_address n "cherrypie" "143.195.193.52" "hs_router" k;
  '(n, k) ← test_to_address n "cherrypie" "143.195.223.255" "hs_router" k;
  '(n, k) ← test_to_address n "cherrypie" "143.195.224.0" "default_router" k;
  '(n, k) ← test_to_host n "dm42" "dm43" k;
  '(n, k) ← test_expiry n "applesauce" "1.2.3.4" 1 k;
  test_expiry n "applesauce" "1.2.3.4" 0 k.

(** The exit status of [main]: failure for any exception. *)
Definition main : outcome Z :=
  match network_simulator with
  | Ok _ => Ok 0
  | Throw _ => Ok 1
  | Undefined => Undefined
  | OutOfFuel => OutOfFuel
  end.

End network.

End Network.
