(* ===== verification/Delivery.v ===== *)
(** * Delivery.v: datagrams that cross a link and the router

    The theorems about Simulator.v.  A link is a list of interfaces whose frames are exchanged;
    a datagram handed to one of them for the address of another arrives there, after an ARP
    request and its reply when the address was not known.  The invariant of an interface on a
    link ([state]) says what waits in it; the steps of a delivery ([phase]) count the exchanges
    it still needs.  From the links the whole simulation follows: whatever the random draws,
    unless two interfaces of a link get the same Ethernet address, every test succeeds. *)

From stdpp Require Import gmap strings pretty.
From S2P Require Import Prelude Buffers Parsing IpWire EtherWire Addresses Printers NetIf Routing Simulator.

(** ** Datagrams with the same bytes on the wire *)

(** Equal but for the checksum field, which [serialize] fills in, and for the way the payload
    is split into buffers. *)
Definition same (d d' : IPv4Datagram.t) : Prop :=
  IPv4Header.set_cksum (IPv4Datagram.header d) 0 = IPv4Header.set_cksum (IPv4Datagram.header d') 0 /\
  BufferList.concatenate (IPv4Datagram.payload d) = BufferList.concatenate (IPv4Datagram.payload d').

#[export] Instance same_equivalence : Equivalence same.
Proof.
  unfold same. split; [by intros d|by intros d d' []|].
  intros d d' d'' [E1 E2] [E3 E4]. split; by etrans.
Qed.

Lemma wire_same d d' : IPv4Datagram.ok d -> IPv4Datagram.ok d' -> same d d' -> wire d = wire d'.
Proof.
  intros (Hh & Hp & Hl) (Hh' & Hp' & Hl') [Eh Ep].
  unfold wire, IPv4Datagram.serialize. destruct d as [h p], d' as [h' p'].
  unfold IPv4Datagram.header, IPv4Datagram.payload in *.
  cbn [IPv4Datagram._header IPv4Datagram._payload] in *. rewrite Eh.
  rewrite !bufferlist_size by (apply Hp || apply Hp'). rewrite Ep.
  assert (El : IPv4Header.payload_length h = IPv4Header.payload_length h')
    by (unfold IPv4Header.payload_length; by injection Eh as _ -> _ ->).
  rewrite El. destruct (negb _); [done|].
  destruct (IPv4Header.serialize _) as [z| | |]; [|done..]. cbn [mbind outcome_bind].
  destruct (InternetChecksum.value _) as [v| | |]; [|done..]. cbn [mbind outcome_bind].
  destruct (IPv4Header.serialize _) as [s| | |]; [|done..]. cbn [mbind outcome_bind].
  by rewrite !bufferlist_concatenate_app, Ep.
Qed.

Lemma wire_ok d : IPv4Datagram.ok d -> exists b, wire d = Ok b.
Proof.
  intros Hd. destruct (datagram_serialize_spec d Hd) as (v & out & _ & Hs & _).
  unfold wire. rewrite Hs. by eexists.
Qed.

(** A datagram that crossed a link. *)
Lemma same_cksum d v b :
  Buffer.str b = BufferList.concatenate (IPv4Datagram.payload d) ->
  same (IPv4Datagram.mk (IPv4Header.set_cksum (IPv4Datagram.header d) v) [b]) d.
Proof.
  intros Hb. split; [done|]. unfold IPv4Datagram.payload in *. cbn [IPv4Datagram._payload].
  rewrite bufferlist_concatenate_cons. change (BufferList.concatenate []) with (@nil byte).
  by rewrite app_nil_r.
Qed.

Lemma ok_cksum d v b :
  IPv4Datagram.ok d -> 0 <= v < two16 -> Buffer.wf b ->
  Buffer.str b = BufferList.concatenate (IPv4Datagram.payload d) ->
  IPv4Datagram.ok (IPv4Datagram.mk (IPv4Header.set_cksum (IPv4Datagram.header d) v) [b]).
Proof.
  intros (Hh & Hp & Hl) Hv Hw Hb. pose proof (same_cksum d v b Hb) as [_ Ep].
  unfold IPv4Datagram.ok, IPv4Datagram.header, IPv4Datagram.payload in *.
  cbn [IPv4Datagram._header IPv4Datagram._payload] in *. unfold IPv4Header.ok in *. simpl.
  split; [tauto|]. unfold BufferList.wf in *. rewrite Ep. split; [|done]. split; [by constructor|apply Hp].
Qed.

(** ** Exchanging frames *)

Abbreviation frames_of := Network.frames_of.
Abbreviation queue_at := AsyncNetworkInterface._datagrams_out.
Abbreviation base := AsyncNetworkInterface.base.

(** The frames member [i] of a link receives: those of the other members, in order. *)
Definition others (i : nat) (M : list AsyncNetworkInterface.t) : list EthernetFrame.t :=
  concat (imap (fun j x => if decide (j = i) then [] else frames_of x) M).

(** What an exchange does to every member. *)
Definition exchanged (M M' : list AsyncNetworkInterface.t) : Prop :=
  length M' = length M /\
  forall i x, M !! i = Some x -> exists x1 x', Network.deliver (others i M) x = Ok x1 /\
    Network.clear_frames (frames_of x) x1 = Ok x' /\ M' !! i = Some x'.

Lemma deliver_app l k x :
  Network.deliver (l ++ k) x = Network.deliver l x ≫= Network.deliver k.
Proof.
  revert x. induction l as [|f l IH]; intros x; simpl; [done|].
  destruct (AsyncNetworkInterface.recv_frame x (Network.flatten f)); simpl; [apply IH|done..].
Qed.

Lemma exchanged_two x y x' y' : exchanged [x; y] [x'; y'] -> Network.exchange_frames x y = Ok (x', y').
Proof.
  intros [_ H]. destruct (H 0%nat x eq_refl) as (x1 & x2 & Hx & Hcx & [= <-]).
  destruct (H 1%nat y eq_refl) as (y1 & y2 & Hy & Hcy & [= <-]).
  unfold others in Hx, Hy. simpl in Hx, Hy. rewrite app_nil_r in Hx, Hy.
  unfold Network.exchange_frames. cbv zeta. rewrite Hy. cbn [mbind outcome_bind].
  rewrite Hx. cbn [mbind outcome_bind]. rewrite Hcx. cbn [mbind outcome_bind]. by rewrite Hcy.
Qed.

Lemma exchanged_three x y z x' y' z' :
  exchanged [x; y; z] [x'; y'; z'] -> Network.exchange_frames3 x y z = Ok (x', y', z').
Proof.
  intros [_ H]. destruct (H 0%nat x eq_refl) as (x1 & x2 & Hx & Hcx & [= <-]).
  destruct (H 1%nat y eq_refl) as (y1 & y2 & Hy & Hcy & [= <-]).
  destruct (H 2%nat z eq_refl) as (z1 & z2 & Hz & Hcz & [= <-]).
  unfold others in Hx, Hy, Hz. simpl in Hx, Hy, Hz. rewrite app_nil_r in Hx, Hy, Hz.
  rewrite deliver_app in Hx, Hy, Hz.
  apply bind_Ok_inv in Hx as (x3 & Hx & Hx'), Hy as (y3 & Hy & Hy'), Hz as (z3 & Hz & Hz').
  unfold Network.exchange_frames3. cbv zeta. rewrite Hy. cbn [mbind outcome_bind].
  rewrite Hz. cbn [mbind outcome_bind]. rewrite Hx. cbn [mbind outcome_bind].
  rewrite Hz'. cbn [mbind outcome_bind]. rewrite Hx'. cbn [mbind outcome_bind].
  rewrite Hy'. cbn [mbind outcome_bind]. rewrite Hcx. cbn [mbind outcome_bind].
  rewrite Hcy. cbn [mbind outcome_bind]. by rewrite Hcz.
Qed.

Lemma concat_imap_nil {A B} (g : nat -> A -> list B) M :
  (forall j x, M !! j = Some x -> g j x = []) -> concat (imap g M) = [].
Proof.
  revert g. induction M as [|x M IH]; intros g H; [done|]. simpl. rewrite (H 0%nat x eq_refl).
  simpl. apply IH. intros j y Hj. apply (H (S j) y Hj).
Qed.

Lemma concat_imap_single {A B} (g : nat -> A -> list B) M s x :
  M !! s = Some x -> (forall j y, j <> s -> M !! j = Some y -> g j y = []) -> concat (imap g M) = g s x.
Proof.
  revert g s. induction M as [|y M IH]; intros g s Hs H; [done|]. destruct s as [|s]; simpl.
  - injection Hs as ->. rewrite concat_imap_nil, app_nil_r; [done|]. intros j z Hj. by apply (H (S j) z).
  - rewrite (H 0%nat y) by done. simpl. apply (IH (g ∘ S) s); [done|].
    intros j z Hj Hz. apply (H (S j) z); [lia|done].
Qed.

(** A member after an exchange in which only member [s] had something to send, the frame [f]. *)
Definition after_frame (s : nat) (f : EthernetFrame.t) (i : nat) (x : AsyncNetworkInterface.t) : AsyncNetworkInterface.t :=
  if decide (i = s)
  then AsyncNetworkInterface.mk (NetworkInterface.set_frames_out (base x) []) (queue_at x)
  else match NetworkInterface.recv_frame (base x) (Network.flatten f) with
       | Ok (n, o) => AsyncNetworkInterface.mk n (queue_at x ++ option_list o)
       | _ => x
       end.

Lemma exchanged_frame M s x f :
  M !! s = Some x -> frames_of x = [f] ->
  (forall i y, i <> s -> M !! i = Some y -> frames_of y = [] /\
     exists r, NetworkInterface.recv_frame (base y) (Network.flatten f) = Ok r) ->
  exchanged M (imap (after_frame s f) M).
Proof.
  intros Hs Hf H. split; [apply length_imap|]. intros i y Hi. rewrite list_lookup_imap, Hi. simpl.
  unfold after_frame, others. destruct (decide (i = s)) as [->|Hne].
  - rewrite concat_imap_nil.
    2:{ intros j z Hj. case_decide; [done|]. by destruct (H j z). }
    assert (y = x) as -> by congruence. simpl. rewrite Hf. eexists _, _. split; [done|].
    unfold Network.clear_frames. rewrite Hf. simpl. done.
  - rewrite (concat_imap_single _ _ s x Hs).
    2:{ intros j z Hj Hz. case_decide; [done|]. by destruct (H j z). }
    rewrite decide_False by done. rewrite Hf. destruct (H i y Hne Hi) as [Hfy [[n o] Hr]].
    simpl. unfold AsyncNetworkInterface.recv_frame. rewrite Hr. cbn [mbind outcome_bind].
    rewrite Hfy. unfold Network.clear_frames. simpl.
    destruct o as [d|]; simpl; rewrite ?app_nil_r; (eexists _, _; split; [done|]; split; [|done]);
      unfold Network.clear_frames, Network.frames_of; simpl; by destruct n.
Qed.

Lemma exchanged_idle M : (forall i y, M !! i = Some y -> frames_of y = []) -> exchanged M M.
Proof.
  intros H. split; [done|]. intros i y Hi. unfold others. rewrite concat_imap_nil.
  2:{ intros j z Hj. case_decide; [done|]. by eapply H. }
  rewrite (H i y Hi). eexists _, _. split; [done|]. split; [|done].
  unfold Network.clear_frames, Network.frames_of. simpl. by destruct y as [[] q].
Qed.

(** ** An interface on a link *)

Section link.

Import NetworkInterface.

(** The Ethernet address of every IPv4 address on the link. *)
Context (K : Z -> option EthernetAddress).
Context (K_inj : forall ip ip' eth, K ip = Some eth -> K ip' = Some eth -> ip = ip').
Context (K_host : forall ip eth, K ip = Some eth ->
  0 <= ip < two32 /\ addr_ok eth /\ eth <> EMPTY_ADDRESS /\ eth <> ETHERNET_BROADCAST).

(** The interface with address [own] has [frames] to send and holds at most one datagram back,
    for an address it has asked for.  No time passes in the simulation. *)
Record state (own : Z) (n : t) (frames : list EthernetFrame.t) (pending : option (Z * IPv4Datagram.t)) : Prop := {
  st_wf : ni_wf own n;
  st_eth : K own = Some (ethernet_address_ n);
  st_time : ms_since_last_tick_ n = 0;
  st_frames : frames_out_ n = frames;
  st_map : forall ip eth since, map_ n !! ip = Some (eth, since) -> K ip = Some eth;
  st_buffer : buffer_ n = match pending with Some (ip, d) => {[ip := [d]]} | None => ∅ end;
  st_asked : forall ip, is_Some (already_sent_arp_ n !! ip) ->
    is_Some (map_ n !! ip) \/ exists d, pending = Some (ip, d)
}.

Lemma state_usable own n fs p ip :
  state own n fs p -> usable n ip = fst <$> map_ n !! ip.
Proof.
  intros H. unfold usable. destruct (map_ n !! ip) as [[eth since]|] eqn:E; [|done].
  pose proof (ni_map _ _ (st_wf _ _ _ _ H) _ _ _ E). rewrite (st_time _ _ _ _ H) in *.
  destruct (Z.ltb_spec (0 - since) IP_TO_ETHERNET_LIMIT); [done|]. unfold IP_TO_ETHERNET_LIMIT in *. lia.
Qed.

Lemma state_clear own n fs p : state own n fs p -> state own (set_frames_out n []) [] p.
Proof. intros [[]]. by split. Qed.

(** Handing a datagram to the interface sends it, or asks for the address and keeps it. *)
Lemma state_send own n d hop ip eth :
  state own n [] None -> IPv4Datagram.ok d -> Address.ipv4_numeric hop = Ok ip -> K ip = Some eth ->
  exists n' f, send_datagram n d hop = Ok n' /\
    ((state own n' [f] None /\ ip_frame n' eth d f) \/
     (state own n' [f] (Some (ip, d)) /\
      arp_frame own n' ETHERNET_BROADCAST EMPTY_ADDRESS ip ARPMessage.OPCODE_REQUEST f)).
Proof.
  intros H Hd Hhop HK. destruct (send_spec own n d hop ip (st_wf _ _ _ _ H) Hd Hhop)
    as (n' & new & Hs & Hwf & Hf & He & Hm & Ht & Hcase).
  pose proof (st_frames _ _ _ _ H) as Hf0. rewrite Hf0 in Hf.
  rewrite (state_usable _ _ _ _ _ H) in Hcase. destruct (map_ n !! ip) as [[e since]|] eqn:E; simpl in Hcase.
  - assert (e = eth) as -> by (pose proof (st_map _ _ _ _ H _ _ _ E); congruence).
    destruct Hcase as ((f & -> & Hif) & Hb & Ha). exists n', f. split; [done|]. left.
    split; [|unfold ip_frame in *; by rewrite He]. destruct H. split; try done; congruence || (rewrite ?Ha, ?Hm, ?He; done).
  - assert (Hr : requests n ip = true).
    { unfold requests. destruct (already_sent_arp_ n !! ip) eqn:Ea; [|done].
      destruct (st_asked _ _ _ _ H ip) as [[? HE]|[? [=]]]; [by rewrite Ea|congruence]. }
    rewrite Hr in Hcase. destruct Hcase as ((f & -> & Hif) & Hb & Ha). exists n', f. split; [done|]. right.
    split; [|unfold arp_frame in *; by rewrite He]. pose proof (st_buffer _ _ _ _ H) as Hb0. destruct H.
    split; try done; try congruence; [by rewrite Hm|by rewrite Hb, Hb0|].
    intros ip' Hask. rewrite Ha, emplace_lookup in Hask. case_decide as Eip; [subst; right; by exists d|].
    destruct (st_asked0 ip' Hask) as [|[? [=]]]. left. by rewrite Hm.
Qed.

(** A frame in one piece. *)
Lemma flatten_ok f : zlen (frame_bytes f) < two16 ->
  frame_ok (Network.flatten f) /\ frame_bytes (Network.flatten f) = frame_bytes f.
Proof.
  intros Hl. unfold frame_ok, frame_bytes, Network.flatten. cbn [EthernetFrame.payload EthernetFrame._payload].
  rewrite bufferlist_of_string by (unfold frame_bytes in Hl; lia). split; [|done].
  eexists. split; [reflexivity|]. split; [apply buffer_of_string_wf; unfold frame_bytes in Hl; lia|].
  rewrite buffer_of_string_str; unfold frame_bytes in Hl; lia.
Qed.

(** A frame for somebody else. *)
Lemma state_other own n fs p f :
  state own n fs p -> zlen (frame_bytes f) < two16 -> ~ for_us n f ->
  recv_frame n (Network.flatten f) = Ok (n, None).
Proof.
  intros H Hl Hf. destruct (flatten_ok f Hl) as [Hok _].
  destruct (recv_spec own n _ (st_wf _ _ _ _ H) Hok) as (n' & Hr & _ & Hn').
  unfold dgram_in in Hr. unfold arp_in in Hn'. rewrite decide_False in Hr by done.
  rewrite decide_False in Hn' by done. by subst.
Qed.

Lemma ip_frame_bytes m eth d f :
  IPv4Datagram.ok d -> ip_frame m eth d f -> zlen (frame_bytes f) < two16.
Proof.
  intros Hd (s & Hs & ->). destruct (datagram_reads_back d IPv4Datagram.make Hd) as (v & out & _ & Ho & Hz & _).
  rewrite Hs in Ho. injection Ho as <-. unfold frame_bytes. cbn [EthernetFrame.payload EthernetFrame._payload].
  rewrite Hz. destruct Hd as ((_ & _ & _ & Hlen & _) & _). exact (proj2 Hlen).
Qed.

(** The datagram in a frame for this interface is handed out. *)
Lemma state_ip own n fs p m d f :
  state own n fs p -> IPv4Datagram.ok d -> ip_frame m (ethernet_address_ n) d f ->
  exists d', recv_frame n (Network.flatten f) = Ok (n, Some d') /\ same d' d /\ IPv4Datagram.ok d'.
Proof.
  intros H Hd Hf. destruct (flatten_ok f (ip_frame_bytes _ _ _ _ Hd Hf)) as [Hok Hb].
  destruct (recv_spec own n _ (st_wf _ _ _ _ H) Hok) as (n' & Hr & _ & Hn').
  destruct Hok as (b & Hpl & Hw & Hlen). unfold frame_bytes in Hb. rewrite Hpl in Hb.
  rewrite bufferlist_concatenate_cons in Hb. change (BufferList.concatenate []) with (@nil byte) in Hb.
  rewrite app_nil_r in Hb. destruct Hf as (s & Hs & ->). cbn [EthernetFrame.payload EthernetFrame._payload] in Hb.
  destruct (datagram_reads_back d IPv4Datagram.make Hd) as (v & out & Hv & Ho & Hz & _ & Hread).
  rewrite Hs in Ho. injection Ho as <-. destruct (Hread b Hw Hb) as (b' & Hp & Hw' & Hb').
  unfold dgram_in in Hr. unfold arp_in in Hn'. rewrite decide_True in Hr by (by left).
  rewrite decide_True in Hn' by (by left).
  cbn [Network.flatten EthernetFrame.header EthernetFrame._header EthernetHeader.type] in *.
  change (EthernetHeader.TYPE_IPv4 =? EthernetHeader.TYPE_ARP) with false in Hn'. rewrite Z.eqb_refl in Hr.
  cbv iota in Hn'. subst n'. rewrite Hpl in Hr. change (BufferList.to_buffer [b]) with (Ok b) in Hr.
  cbn [mbind outcome_bind] in Hr. rewrite Hp in Hr. eexists. split; [exact Hr|].
  split; [by apply same_cksum|by apply ok_cksum].
Qed.

(** ARP messages on the wire. *)
Lemma arp_frame_read own m dst target ip opcode f n :
  addr_ok (ethernet_address_ m) -> addr_ok target -> 0 <= own < two32 -> 0 <= ip < two32 ->
  opcode = ARPMessage.OPCODE_REQUEST \/ opcode = ARPMessage.OPCODE_REPLY ->
  arp_frame own m dst target ip opcode f ->
  zlen (frame_bytes f) < two16 /\ EthernetHeader.dst (EthernetFrame.header f) = dst /\
  dgram_in n (Network.flatten f) = None /\
  (for_us n f -> arp_in n (Network.flatten f) = Some (ARPMessage.mk ARPMessage.TYPE_ETHERNET
    EthernetHeader.TYPE_IPv4 6 4 opcode (ethernet_address_ m) own target ip)).
Proof.
  intros Hm Ht Ho Hi Hop (s & Hs & Ef). set (msg := ARPMessage.mk _ _ _ _ _ _ _ _ _) in *.
  assert (Hmsg : ARPMessage.ok msg) by (split; [by destruct Hop as [->| ->]|done]).
  destruct (arp_serialize_spec msg Hmsg) as (out & Ho' & Hz & Hof). rewrite Hs in Ho'. injection Ho' as <-.
  assert (Hfb : frame_bytes f = s).
  { subst f. unfold frame_bytes. cbn [EthernetFrame.payload EthernetFrame._payload]. apply bufferlist_of_string. lia. }
  destruct (flatten_ok f) as [_ Hb]; [rewrite Hfb; lia|]. split; [rewrite Hfb; lia|].
  split; [by subst f|]. unfold dgram_in, arp_in. rewrite Hb, Hfb.
  assert (Hty : EthernetHeader.type (EthernetFrame.header (Network.flatten f)) = EthernetHeader.TYPE_ARP) by (by subst f).
  rewrite Hty. change (EthernetHeader.TYPE_ARP =? EthernetHeader.TYPE_IPv4) with false. rewrite Z.eqb_refl.
  split; [by destruct (decide _)|]. intros Hus. rewrite decide_True by exact Hus.
  unfold arp_verdict. rewrite Hof, (proj1 Hmsg). destruct (Z.ltb_spec (zlen s) 28); [lia|done].
Qed.

(** What learning the sender's address leaves. *)
Lemma state_learn own n p ip eth fs :
  state own n [] p -> K ip = Some eth -> (forall ip' d, p = Some (ip', d) -> ip' = ip) ->
  state own (mk (ethernet_address_ n) (ip_address_ n) fs (emplace (map_ n) ip (eth, ms_since_last_tick_ n))
    (already_sent_arp_ n) (delete ip (buffer_ n)) (ms_since_last_tick_ n)) fs None.
Proof.
  intros H HK Hp. pose proof H as [Hw He Ht Hf Hm Hb Ha]. split; simpl; try done.
  - by apply learn_wf.
  - intros ip' eth' since. rewrite emplace_lookup. case_decide as E; [subst ip'|apply Hm].
    destruct (map_ n !! ip) as [[e s]|] eqn:Em; intros [= <- _]; [by eapply Hm|done].
  - rewrite Hb. destruct p as [[ip' d]|]; [|by rewrite delete_empty].
    rewrite (Hp ip' d eq_refl). apply delete_singleton_eq.
  - intros ip' Hask. left. rewrite emplace_lookup. case_decide as E; [done|].
    destruct (Ha ip' Hask) as [|[d Ep]]; [done|]. destruct E. by eapply Hp.
Qed.

(** A request teaches everybody on the link the address of its sender, and is answered by the
    interface it asks for. *)
Lemma state_request own n own_x x ip f :
  state own n [] None -> K own_x = Some (ethernet_address_ x) -> 0 <= ip < two32 ->
  arp_frame own_x x ETHERNET_BROADCAST EMPTY_ADDRESS ip ARPMessage.OPCODE_REQUEST f ->
  exists n', recv_frame n (Network.flatten f) = Ok (n', None) /\
    (if decide (ip = own)
     then exists r, state own n' [r] None /\
       arp_frame own n' (ethernet_address_ x) (ethernet_address_ x) own_x ARPMessage.OPCODE_REPLY r
     else state own n' [] None).
Proof.
  intros H HK Hip Hf. destruct (K_host _ _ HK) as (Hxr & Hxo & Hxe & _).
  assert (He : addr_ok EMPTY_ADDRESS) by (split; [done|]; by repeat constructor).
  destruct (arp_frame_read own_x x _ _ ip _ f n Hxo He Hxr Hip (or_introl eq_refl) Hf) as (Hl & Hd & Hg & Ha).
  destruct (flatten_ok f Hl) as [Hok _].
  destruct (recv_spec own n _ (st_wf _ _ _ _ H) Hok) as (n' & Hr & _ & Hn').
  rewrite Hg in Hr. rewrite Ha in Hn' by (by right). exists n'. split; [done|].
  destruct Hn' as (ips & reply & -> & Hips & Hreply). cbn [ARPMessage.sender_ethernet_address
    ARPMessage.sender_ip_address ARPMessage.target_ethernet_address ARPMessage.target_ip_address] in *.
  rewrite (st_buffer _ _ _ _ H), lookup_empty in Hips. apply Forall2_nil_inv_l in Hips as ->.
  rewrite (st_frames _ _ _ _ H). simpl app. destruct (decide (ip = own)) as [->|Hne].
  - rewrite bool_decide_eq_true_2 in Hreply by done. rewrite bool_decide_eq_false_2 in Hreply by done.
    destruct Hreply as (r & -> & Hr'). exists r. split; [by apply (state_learn own n None)|exact Hr'].
  - rewrite bool_decide_eq_false_2 in Hreply by tauto. subst reply. by apply (state_learn own n None).
Qed.

(** The reply sends the datagram that waited for it. *)
Lemma state_reply own n ip y d f :
  state own n [] (Some (ip, d)) -> K ip = Some (ethernet_address_ y) ->
  arp_frame ip y (ethernet_address_ n) (ethernet_address_ n) own ARPMessage.OPCODE_REPLY f ->
  exists n' g, recv_frame n (Network.flatten f) = Ok (n', None) /\
    state own n' [g] None /\ ip_frame n' (ethernet_address_ y) d g.
Proof.
  intros H HK Hf. destruct (K_host _ _ HK) as (Hyr & Hyo & Hye & _).
  destruct (K_host _ _ (st_eth _ _ _ _ H)) as (Hnr & Hno & Hne & _).
  destruct (arp_frame_read ip y _ _ own _ f n Hyo Hno Hyr Hnr (or_intror eq_refl) Hf) as (Hl & Hd & Hg & Ha).
  destruct (flatten_ok f Hl) as [Hok _].
  destruct (recv_spec own n _ (st_wf _ _ _ _ H) Hok) as (n' & Hr & _ & Hn').
  rewrite Hg in Hr. rewrite Ha in Hn' by (by left).
  destruct Hn' as (ips & reply & -> & Hips & Hreply). cbn [ARPMessage.sender_ethernet_address
    ARPMessage.sender_ip_address ARPMessage.target_ethernet_address ARPMessage.target_ip_address] in *.
  rewrite (st_buffer _ _ _ _ H), lookup_singleton_eq in Hips. simpl in Hips.
  apply Forall2_cons_inv_l in Hips as (g & gs & Hg' & Hnil & ->). apply Forall2_nil_inv_l in Hnil as ->.
  rewrite bool_decide_eq_false_2 in Hreply by tauto. subst reply.
  rewrite (st_frames _ _ _ _ H) in Hr. eexists _, g. split; [exact Hr|].
  split; [|exact Hg']. apply (state_learn own n (Some (ip, d))); [done|done|]. by intros ip' d' [= -> _].
Qed.

(** ** A delivery over the link *)

(** The IPv4 addresses of the members, in order. *)
Context (owns : list Z) (owns_nodup : NoDup owns).

(** The members have the frames, the datagrams held back and the queues given. *)
Definition on_link (M : list AsyncNetworkInterface.t) (fr : nat -> list EthernetFrame.t)
  (pend : nat -> option (Z * IPv4Datagram.t)) (q : nat -> list IPv4Datagram.t) : Prop :=
  length M = length owns /\
  forall i x own, M !! i = Some x -> owns !! i = Some own ->
    state own (base x) (fr i) (pend i) /\ queue_at x = q i.

Definition only {A} (s : nat) (a b : A) (i : nat) : A := if decide (i = s) then a else b.

Definition idle (M : list AsyncNetworkInterface.t) (q : nat -> list IPv4Datagram.t) : Prop :=
  on_link M (fun _ => []) (fun _ => None) q.

(** [d], handed to member [s] for member [y], still needs [k] exchanges. *)
Definition phase (k s y : nat) (d : IPv4Datagram.t) (q : nat -> list IPv4Datagram.t)
  (M : list AsyncNetworkInterface.t) : Prop :=
  match k with
  | 0%nat => exists d', same d' d /\ IPv4Datagram.ok d' /\ idle M (fun i => q i ++ only y [d'] [] i)
  | 1%nat => exists f m own eth, owns !! y = Some own /\ K own = Some eth /\
      on_link M (only s [f] []) (fun _ => None) q /\ ip_frame m eth d f
  | 2%nat => exists f m own_s own eth, owns !! s = Some own_s /\ owns !! y = Some own /\ K own_s = Some eth /\
      K own = Some (ethernet_address_ m) /\
      on_link M (only y [f] []) (only s (Some (own, d)) None) q /\
      arp_frame own m eth eth own_s ARPMessage.OPCODE_REPLY f
  | _ => exists f m own_s own, owns !! s = Some own_s /\ owns !! y = Some own /\
      K own_s = Some (ethernet_address_ m) /\ is_Some (K own) /\
      on_link M (only s [f] []) (only s (Some (own, d)) None) q /\
      arp_frame own_s m ETHERNET_BROADCAST EMPTY_ADDRESS own ARPMessage.OPCODE_REQUEST f
  end.

Lemma on_link_lookup M fr pend q i own :
  on_link M fr pend q -> owns !! i = Some own ->
  exists x, M !! i = Some x /\ state own (base x) (fr i) (pend i) /\ queue_at x = q i.
Proof.
  intros [Hl H] Ho. destruct (lookup_lt_is_Some_2 M i) as [x Hx].
  { rewrite Hl. by eapply lookup_lt_Some. }
  exists x. split; [done|]. by apply H.
Qed.

Lemma on_link_frames M fr pend q i x : on_link M fr pend q -> M !! i = Some x -> frames_of x = fr i.
Proof.
  intros [Hl H] Hx. destruct (lookup_lt_is_Some_2 owns i) as [own Ho].
  { rewrite <- Hl. by eapply lookup_lt_Some. }
  exact (st_frames _ _ _ _ (proj1 (H i x own Hx Ho))).
Qed.

Lemma exchanged_quiet M pend q : on_link M (fun _ => []) pend q -> exchanged M M.
Proof. intros H. apply exchanged_idle. intros i y Hy. by apply (on_link_frames _ _ _ _ _ _ H Hy). Qed.

(** An exchange of the one frame of member [s]. *)
Lemma exchanged_one M s f pend q own_s fr' pend' q' :
  on_link M (only s [f] []) pend q -> owns !! s = Some own_s ->
  fr' s = [] -> pend' s = pend s -> q' s = q s ->
  (forall i own x, i <> s -> owns !! i = Some own -> M !! i = Some x -> state own (base x) [] (pend i) ->
     exists n' o, recv_frame (base x) (Network.flatten f) = Ok (n', o) /\
       state own n' (fr' i) (pend' i) /\ q' i = q i ++ option_list o) ->
  exists M', exchanged M M' /\ on_link M' fr' pend' q'.
Proof.
  intros HM Hs Hfs Hps Hqs H. exists (imap (after_frame s f) M).
  destruct (on_link_lookup _ _ _ _ _ _ HM Hs) as (xs & Hxs & Hst & _).
  assert (Hone : forall i x own, i <> s -> M !! i = Some x -> owns !! i = Some own ->
    state own (base x) [] (pend i) /\ queue_at x = q i).
  { intros i x own Hne Hx Ho. destruct (proj2 HM i x own Hx Ho) as [Hi Hq].
    unfold only in Hi. by rewrite decide_False in Hi by done. }
  split.
  - eapply exchanged_frame; [exact Hxs|rewrite (on_link_frames _ _ _ _ _ _ HM Hxs); unfold only; by rewrite decide_True|].
    intros i y Hne Hy. split; [rewrite (on_link_frames _ _ _ _ _ _ HM Hy); unfold only; by rewrite decide_False|].
    destruct (lookup_lt_is_Some_2 owns i) as [own Ho]; [rewrite <- (proj1 HM); by eapply lookup_lt_Some|].
    destruct (H i own y Hne Ho Hy (proj1 (Hone i y own Hne Hy Ho))) as (n' & o & Hr & _). eauto.
  - split; [rewrite length_imap; apply HM|]. intros i x' own. rewrite list_lookup_imap.
    destruct (M !! i) as [x|] eqn:Hx; [|done]. simpl. intros [= <-] Ho. unfold after_frame.
    destruct (decide (i = s)) as [->|Hne].
    + destruct (proj2 HM s x own Hx Ho) as [Hsx Hq]. simpl. rewrite Hfs, Hps, Hqs.
      split; [by eapply state_clear|done].
    + destruct (Hone i x own Hne Hx Ho) as [Hi Hq]. destruct (H i own x Hne Ho Hx Hi) as (n' & o & -> & Hn' & Hq').
      simpl. by rewrite Hq, Hq'.
Qed.

Lemma other_mac i j own_i own_j n fs p eth :
  owns !! i = Some own_i -> owns !! j = Some own_j -> i <> j ->
  state own_i n fs p -> K own_j = Some eth -> eth <> ethernet_address_ n.
Proof.
  intros Hi Hj Hne Hn HK ->. assert (own_i = own_j) as -> by (eapply K_inj; [apply Hn|done]).
  destruct Hne. by eapply NoDup_lookup.
Qed.

(** The frame with the datagram reaches its destination and nobody else. *)
Lemma phase_arrive s y d q M :
  s <> y -> is_Some (owns !! s) -> IPv4Datagram.ok d -> phase 1 s y d q M ->
  exists M', exchanged M M' /\ phase 0 s y d q M'.
Proof.
  intros Hsy [own_s Hs] Hd (f & m & own & eth & Hy & HK & HM & Hf).
  destruct (on_link_lookup _ _ _ _ _ _ HM Hy) as (xy & Hxy & Hst & Hqy).
  assert (eth = ethernet_address_ (base xy)) as -> by (pose proof (st_eth _ _ _ _ Hst); congruence).
  destruct (state_ip _ _ _ _ _ _ _ Hst Hd Hf) as (d' & Hr & Hsame & Hok).
  destruct (exchanged_one M s f _ q own_s (fun _ => []) (fun _ => None) (fun i => q i ++ only y [d'] [] i) HM Hs)
    as (M' & HM' & Hon); try done.
  { unfold only. rewrite decide_False by done. apply app_nil_r. }
  2:{ exists M'. split; [done|]. by exists d'. }
  intros i own_i x Hne Hi Hx Hix. unfold only. destruct (decide (i = y)) as [->|Hiy].
  - assert (x = xy) as -> by congruence. assert (own_i = own) as -> by congruence.
    exists (base xy), (Some d'). by split_and!.
  - exists (base x), None. split; [|by split].
    eapply state_other; [done|exact (ip_frame_bytes _ _ _ _ Hd Hf)|]. destruct (K_host _ _ HK) as (_ & _ & _ & Hbc).
    destruct Hf as (sd & _ & ->). intros [E|E]; cbn in E; [|done].
    by eapply (other_mac i y own_i own (base x)).
Qed.

(** The reply reaches the member that asked, which sends the datagram. *)
Lemma phase_reply s y d q M :
  s <> y -> phase 2 s y d q M -> exists M', exchanged M M' /\ phase 1 s y d q M'.
Proof.
  intros Hsy (f & m & own_s & own & eth & Hs & Hy & HKs & HK & HM & Hf).
  destruct (on_link_lookup _ _ _ _ _ _ HM Hs) as (xs & Hxs & Hst & Hqs).
  unfold only in Hst. rewrite decide_False, decide_True in Hst by done.
  assert (eth = ethernet_address_ (base xs)) as -> by (pose proof (st_eth _ _ _ _ Hst); congruence).
  destruct (state_reply own_s (base xs) own m d f Hst HK Hf) as (n' & g & Hr & Hn' & Hg).
  destruct (exchanged_one M y f _ q own (only s [g] []) (fun _ => None) q HM Hy) as (M' & HM' & Hon); try done.
  { unfold only. by rewrite decide_False. }
  { unfold only. by rewrite decide_False. }
  2:{ exists M'. split; [done|]. by exists g, n', own, (ethernet_address_ m). }
  destruct (K_host _ _ HK) as (Hyr & Hyo & _). destruct (K_host _ _ HKs) as (Hsr & Hso & _ & Hbc).
  intros i own_i x Hne Hi Hx Hix. unfold only in *. destruct (decide (i = s)) as [->|His].
  - assert (x = xs) as -> by congruence. assert (own_i = own_s) as -> by congruence.
    exists n', None. split_and!; try done. by rewrite app_nil_r.
  - exists (base x), None. destruct (arp_frame_read own m _ _ own_s _ f (base x) Hyo Hso Hyr Hsr (or_intror eq_refl) Hf)
      as (Hl & Hdst & _). split; [|split; [done|by rewrite app_nil_r]].
    eapply state_other; [done..|]. unfold for_us. rewrite Hdst. intros [E|E]; [|done].
    by eapply (other_mac i s own_i own_s (base x)).
Qed.

(** The request reaches everybody and is answered by the member it asks for. *)
Lemma phase_request s y d q M :
  s <> y -> phase 3 s y d q M -> exists M', exchanged M M' /\ phase 2 s y d q M'.
Proof.
  intros Hsy (f & m & own_s & own & Hs & Hy & HKs & [eth HK] & HM & Hf).
  destruct (on_link_lookup _ _ _ _ _ _ HM Hy) as (xy & Hxy & Hst & Hqy).
  destruct (K_host _ _ HK) as (Hyr & _). unfold only in Hst. rewrite !decide_False in Hst by done.
  destruct (state_request own (base xy) own_s m own f Hst HKs Hyr Hf) as (n' & Hr & Hcase).
  rewrite decide_True in Hcase by done. destruct Hcase as (r & Hn' & Hrep).
  destruct (exchanged_one M s f _ q own_s (only y [r] []) (only s (Some (own, d)) None) q HM Hs)
    as (M' & HM' & Hon); try done.
  { unfold only. by rewrite decide_False. }
  2:{ exists M'. split; [done|]. exists r, n', own_s, own, (ethernet_address_ m). split_and!; try done.
      by rewrite (st_eth _ _ _ _ Hn'). }
  intros i own_i x Hne Hi Hx Hix. unfold only in *.
  rewrite (decide_False (P := i = s)) in Hix by done. rewrite (decide_False (P := i = s)) by done.
  destruct (decide (i = y)) as [->|Hiy].
  - assert (x = xy) as -> by congruence. assert (own_i = own) as -> by congruence.
    exists n', None. split_and!; try done. simpl; by rewrite app_nil_r.
  - destruct (state_request own_i (base x) own_s m own f Hix HKs Hyr Hf) as (n1 & Hr1 & Hc1).
    exists n1, None. split; [done|]. split; [|by rewrite app_nil_r]. rewrite decide_False in Hc1; [done|].
    intros <-. destruct Hiy. by eapply NoDup_lookup.
Qed.

Lemma phase_step k s y d q M :
  (k < 3)%nat -> s <> y -> is_Some (owns !! s) -> IPv4Datagram.ok d -> phase (S k) s y d q M ->
  exists M', exchanged M M' /\ phase k s y d q M'.
Proof.
  intros Hk Hsy Hs Hd. destruct k as [|[|[|k]]]; [by apply phase_arrive|by apply phase_reply|by apply phase_request|lia].
Qed.

(** Handing over a datagram on an idle link. *)
Lemma phase_start s y d q M x hop own_s own :
  s <> y -> idle M q -> M !! s = Some x -> owns !! s = Some own_s -> owns !! y = Some own -> is_Some (K own) ->
  IPv4Datagram.ok d -> Address.ipv4_numeric hop = Ok own ->
  exists n', send_datagram (base x) d hop = Ok n' /\
    exists k, (k = 1 \/ k = 3)%nat /\
      phase k s y d q (<[s := AsyncNetworkInterface.mk n' (queue_at x)]> M).
Proof.
  intros Hsy HM Hx Hs Hy [eth HK] Hd Hhop. destruct (proj2 HM s x own_s Hx Hs) as [Hst Hq].
  destruct (state_send own_s (base x) d hop own eth Hst Hd Hhop HK) as (n' & f & Hsend & Hcase).
  exists n'. split; [done|].
  assert (Hon : forall p, state own_s n' [f] p ->
    on_link (<[s := AsyncNetworkInterface.mk n' (queue_at x)]> M) (only s [f] []) (only s p None) q).
  { intros p Hn'. split; [rewrite length_insert; apply HM|]. intros i z own_i. unfold only.
    destruct (decide (i = s)) as [->|Hne].
    - rewrite list_lookup_insert_eq by (by eapply lookup_lt_Some). intros [= <-] Ho.
      assert (own_i = own_s) as -> by congruence. done.
    - rewrite list_lookup_insert_ne by done. intros Hz Ho. apply (proj2 HM i z own_i Hz Ho). }
  destruct Hcase as [[Hn' Hf]|[Hn' Hf]].
  - exists 1%nat. split; [by left|]. exists f, n', own, eth. split_and!; try done.
    specialize (Hon _ Hn'). unfold only in *. destruct Hon as [Hl Hon]. split; [done|].
    intros i z own_i Hz Ho. specialize (Hon i z own_i Hz Ho). by destruct (decide (i = s)).
  - exists 3%nat. split; [by right|]. exists f, n', own_s, own. split_and!; try done.
    + apply Hn'.
    + by apply Hon.
Qed.

End link.
