(* ===== verification/Simulation.v ===== *)
(** * Simulation.v: the simulated network delivers

    The theorems about the hosts and the network of Simulator.v, on top of the deliveries over
    one link of Delivery.v.  The network is described by the members of its five links
    ([assemble]); a round of the simulation routes and then exchanges the frames of every link.
    [busy] counts the rounds a datagram still needs, [calm] says that nothing is under way, and
    [journey_ok] carries a datagram from its host over the router to the host of its route. *)

From stdpp Require Import gmap strings pretty.
From S2P Require Import Prelude Buffers Parsing IpWire EtherWire Addresses Printers NetIf Routing Simulator Delivery.

(** ** What a host checks *)

(** The bytes of a datagram that can be serialized. *)
Definition wire_bytes (d : IPv4Datagram.t) : list byte := match wire d with Ok b => b | _ => [] end.

Lemma wire_bytes_ok d : IPv4Datagram.ok d -> wire d = Ok (wire_bytes d).
Proof. intros Hd. unfold wire_bytes. by destruct (wire_ok d Hd) as [b ->]. Qed.

Lemma expecting_in_ok l d :
  Forall IPv4Datagram.ok l -> IPv4Datagram.ok d ->
  Host.expecting_in l d = Ok (bool_decide (wire_bytes d ∈ wire_bytes <$> l)).
Proof.
  intros Hl Hd. induction Hl as [|x l Hx Hl IH]; cbn [Host.expecting_in fmap list_fmap].
  - by rewrite bool_decide_eq_false_2 by apply not_elem_of_nil.
  - rewrite (wire_bytes_ok x Hx), (wire_bytes_ok d Hd). cbn [mbind outcome_bind]. rewrite IH.
    destruct (decide (wire_bytes x = wire_bytes d)) as [E|E].
    { rewrite (bool_decide_eq_true_2 _ E), bool_decide_eq_true_2; [done|]. rewrite E. by left. }
    rewrite (bool_decide_eq_false_2 _ E).
    f_equal. apply bool_decide_ext. rewrite elem_of_cons. split; [by right|]. by intros [E'|?]; [destruct E|].
Qed.

Lemma remove_from_ok l d :
  Forall IPv4Datagram.ok l -> IPv4Datagram.ok d -> wire_bytes d ∈ wire_bytes <$> l ->
  exists l', Host.remove_from l d = Ok l' /\ Forall IPv4Datagram.ok l' /\
    wire_bytes <$> l ≡ₚ wire_bytes d :: (wire_bytes <$> l').
Proof.
  intros Hl Hd. induction Hl as [|x l Hx Hl IH]; cbn [Host.remove_from fmap list_fmap]; intros Hin;
    [by apply elem_of_nil in Hin|].
  rewrite (wire_bytes_ok x Hx), (wire_bytes_ok d Hd). cbn [mbind outcome_bind].
  case_bool_decide as E; [exists l; by rewrite E|].
  destruct IH as (l' & -> & Hl' & Hp); [by apply elem_of_cons in Hin as [|]|].
  exists (x :: l'). cbn [mbind outcome_bind fmap list_fmap]. split; [done|]. split; [by constructor|].
  rewrite Hp. apply Permutation_swap.
Qed.

(** The host with nothing received and nothing expected. *)
Definition settled_host (h : Host.t) : Host.t :=
  Host.set_expecting (Host.set_interface h (AsyncNetworkInterface.mk (base (Host._interface h)) [])) [].

Lemma check_received_ok R received : forall h,
  queue_at (Host._interface h) = received -> Forall IPv4Datagram.ok received ->
  Forall IPv4Datagram.ok (Host._expecting_to_receive h) ->
  (exists l, Host.check_received R received h =
      Ok (Host.set_expecting (Host.set_interface h (AsyncNetworkInterface.mk (base (Host._interface h)) [])) l) /\
    wire_bytes <$> Host._expecting_to_receive h ≡ₚ (wire_bytes <$> received) ++ (wire_bytes <$> l)) \/
  ((exists msg, Host.check_received R received h = Throw (runtime_error msg)) /\
   forall l, ~ wire_bytes <$> Host._expecting_to_receive h ≡ₚ (wire_bytes <$> received) ++ l).
Proof.
  induction received as [|d received IH]; intros h Hq Hr He; cbn [Host.check_received].
  - left. exists (Host._expecting_to_receive h). split; [|done]. rewrite <- Hq. by destruct h as [? ? [] ? ?].
  - apply Forall_cons in Hr as [Hd Hr]. unfold Host.expecting. rewrite expecting_in_ok by done.
    cbn [mbind outcome_bind]. case_bool_decide as Hin; simpl negb; cbv iota.
    + unfold Host.remove_expectation. destruct (remove_from_ok _ d He Hd Hin) as (l' & -> & Hl' & Hp).
      cbn [mbind outcome_bind]. set (h' := Host.set_interface _ _).
      destruct (IH h') as [(l & -> & Hl)|[Hthrow Hno]]; try done; [by unfold h'; simpl; rewrite Hq| |].
      * left. exists l. split; [done|]. rewrite Hp. by apply Permutation_skip.
      * right. split; [done|]. intros l Hl. apply (Hno l). rewrite Hp in Hl. by apply Permutation_cons_inv in Hl.
    + right. split; [eauto|]. intros l Hl. destruct Hin. rewrite Hl. by left.
Qed.

Lemma check_ok R h :
  Forall IPv4Datagram.ok (queue_at (Host._interface h)) ->
  Forall IPv4Datagram.ok (Host._expecting_to_receive h) ->
  (wire_bytes <$> queue_at (Host._interface h) ≡ₚ wire_bytes <$> Host._expecting_to_receive h /\
   Host.check R h = Ok (settled_host h)) \/
  (~ wire_bytes <$> queue_at (Host._interface h) ≡ₚ wire_bytes <$> Host._expecting_to_receive h /\
   exists msg, Host.check R h = Throw (runtime_error msg)).
Proof.
  intros Hr He. unfold Host.check, AsyncNetworkInterface.datagrams_out.
  destruct (check_received_ok R _ h eq_refl Hr He) as [(l & -> & Hl)|[[msg ->] Hno]]; cbn [mbind outcome_bind].
  - cbn [Host._expecting_to_receive Host.set_expecting]. destruct l as [|x l].
    + left. rewrite app_nil_r in Hl. by rewrite Hl.
    + right. split; [|eauto]. intros Hp. rewrite <- Hp in Hl. apply Permutation_length in Hl.
      rewrite length_app in Hl. simpl in Hl. lia.
  - right. split; [|eauto]. intros Hp. apply (Hno []). by rewrite Hp, app_nil_r.
Qed.

(** ** The network of the simulator *)

(** The links: member 0 is the router's interface [router_port], the others are hosts. *)
Definition router_port (l : nat) : nat := nth l [0; 1; 3; 5; 4]%nat 0%nat.

Definition host_name (l i : nat) : string :=
  match l, i with
  | 0, 1 => "default_router" | 1, 1 => "applesauce" | 2, 1 => "cherrypie" | 3, 1 => "hs_router"
  | 4, 1 => "dm42" | 4, 2 => "dm43" | _, _ => ""
  end%nat.

(** The IPv4 addresses on the links. *)
Definition link_ips : list (list Z) :=
  [[2873314350; 2873314305]; [167772161; 167772162]; [3232235521; 3232235522];
   [2411921410; 2411921409]; [3333612801; 3333612842; 3333612843]].

Definition member_ip (l i : nat) : Z := nth i (nth l link_ips []) 0.

(** The next hop of a host. *)
Definition host_hop (l : nat) : Z := if decide (l = 0 \/ l = 3)%nat then 0 else member_ip l 0.

Definition host_with (e : nat -> nat -> list IPv4Datagram.t) (l i : nat) (x : AsyncNetworkInterface.t) : Host.t :=
  Host.mk (host_name l i) (ipv4_address (member_ip l i)) x (ipv4_address (host_hop l)) (e l i).

(** The interfaces that are on no link, the table, and what the hosts expect. *)
Record rest := Rest {
  rs_eth1 : AsyncNetworkInterface.t;
  rs_mit5 : AsyncNetworkInterface.t;
  rs_table : gmap (Z * Z) (Z * option Address.t);
  rs_expected : nat -> nat -> list IPv4Datagram.t
}.

Definition set_expected (c : rest) (e : nat -> nat -> list IPv4Datagram.t) : rest :=
  Rest (rs_eth1 c) (rs_mit5 c) (rs_table c) e.

(** The network with the members of its links. *)
Definition assemble (c : rest) (M : list (list AsyncNetworkInterface.t)) : Network.t :=
  match M with
  | [[r0; x0]; [r1; x1]; [r2; x2]; [r3; x3]; [r4; x4; x5]] =>
      Network.mk (Router.mk [r0; r1; rs_eth1 c; r2; r4; r3; rs_mit5 c] (rs_table c)) 0 1 2 3 4 5 6
        (<["dm43" := host_with (rs_expected c) 4 2 x5]>
         (<["dm42" := host_with (rs_expected c) 4 1 x4]>
         (<["hs_router" := host_with (rs_expected c) 3 1 x3]>
         (<["cherrypie" := host_with (rs_expected c) 2 1 x2]>
         (<["default_router" := host_with (rs_expected c) 0 1 x0]>
         (<["applesauce" := host_with (rs_expected c) 1 1 x1]> ∅))))))
  | _ => Network.mk Router.make 0 0 0 0 0 0 0 ∅
  end.

Definition shape (M : list (list AsyncNetworkInterface.t)) : Prop := length <$> M = [2; 2; 2; 2; 3]%nat.

Lemma shape_inv M : shape M ->
  exists r0 x0 r1 x1 r2 x2 r3 x3 r4 x4 x5, M = [[r0; x0]; [r1; x1]; [r2; x2]; [r3; x3]; [r4; x4; x5]].
Proof.
  unfold shape. intros H.
  do 5 (destruct M as [|[|? [|? [|? [|? ?]]]] M]; try discriminate H; try (injection H as H)).
  all: destruct M; [|discriminate H]. naive_solver.
Qed.

Lemma wire_to_ok n id name x h x' y' n' :
  Router.interface (Network._router n) id = Ok x -> Network.host n name = Ok h ->
  Network.exchange_frames x (Host.interface h) = Ok (x', y') ->
  n' = Network.set_host (Network.set_router n (Router.set_interface (Network._router n) id x')) name
         (Host.set_interface h y') ->
  Network.wire_to n id name = Ok n'.
Proof. intros Hx Hh He ->. unfold Network.wire_to. rewrite Hx, Hh. cbn [mbind outcome_bind]. by rewrite He. Qed.

(** One wire. *)
Lemma wire_ok1 c M l m m' :
  shape M -> (l < 4)%nat -> M !! l = Some m -> exchanged m m' ->
  Network.wire_to (assemble c M) (Z.of_nat (router_port l)) (host_name l 1) = Ok (assemble c (<[l := m']> M)).
Proof.
  intros HM Hl Hm He. destruct (shape_inv M HM) as (r0 & x0 & r1 & x1 & r2 & x2 & r3 & x3 & r4 & x4 & x5 & ->).
  assert (Hx : exists r x, m = [r; x]).
  { destruct l as [|[|[|[|l]]]]; [..|lia]; injection Hm as <-; eauto. }
  destruct Hx as (r & x & ->). pose proof (proj1 He) as Hlen. destruct m' as [|r' [|x' [|]]]; try discriminate Hlen.
  apply exchanged_two in He.
  destruct l as [|[|[|[|l]]]]; [..|lia]; injection Hm as <- <-; eapply wire_to_ok; done.
Qed.

Lemma wire_ok2 c M m m' :
  shape M -> M !! 4%nat = Some m -> exchanged m m' ->
  Network.wire_to2 (assemble c M) 4 "dm42" "dm43" = Ok (assemble c (<[4%nat := m']> M)).
Proof.
  intros HM Hm He. destruct (shape_inv M HM) as (r0 & x0 & r1 & x1 & r2 & x2 & r3 & x3 & r4 & x4 & x5 & ->).
  injection Hm as <-. pose proof (proj1 He) as Hlen. destruct m' as [|r' [|x' [|y' [|]]]]; try discriminate Hlen.
  apply exchanged_three in He. unfold Network.wire_to2.
  change (Network.host _ "dm42") with (Ok (host_with (rs_expected c) 4 1 x4)).
  change (Network.host _ "dm43") with (Ok (host_with (rs_expected c) 4 2 x5)).
  change (Router.interface _ _) with (Ok r4). cbn [mbind outcome_bind].
  unfold Host.interface. cbn [host_with Host._interface]. rewrite He. reflexivity.
Qed.

Lemma shape_insert M l m m' : shape M -> M !! l = Some m -> exchanged m m' -> shape (<[l := m']> M).
Proof.
  unfold shape. intros HM Hl [He _]. rewrite list_fmap_insert, He.
  rewrite list_insert_id; [done|]. rewrite list_lookup_fmap, Hl. done.
Qed.

Lemma assemble_ids c M : shape M ->
  Network.default_id (assemble c M) = 0 /\ Network.eth0_id (assemble c M) = 1 /\
  Network.eth2_id (assemble c M) = 3 /\ Network.hs4_id (assemble c M) = 5 /\ Network.uun3_id (assemble c M) = 4.
Proof. intros HM. by destruct (shape_inv M HM) as (? & ? & ? & ? & ? & ? & ? & ? & ? & ? & ? & ->). Qed.

(** The next wire of a round. *)
Ltac wire_next l :=
  match goal with
  | HM : shape ?M, He : exchanged ?m ?m' |- (Network.wire_to (assemble ?c ?M) ?id ?name ≫= _) = _ =>
      pose proof (assemble_ids c M HM) as (? & ? & ? & ? & ?);
      assert (Network.wire_to (assemble c M) id name = Ok (assemble c (<[l := m']> M))) as ->
        by (etransitivity; [|exact (wire_ok1 c M l m m' HM ltac:(lia) eq_refl He)]; f_equal; simpl router_port; done);
      cbn [mbind outcome_bind]; apply (shape_insert M l m m' HM eq_refl) in He as ?; cbn [insert list_insert] in *;
      clear HM He; repeat match goal with H : _ = _ |- _ => clear H end
  end.

(** The wires of a round. *)
Lemma physical_ok c M M' :
  shape M -> Forall2 exchanged M M' ->
  Network.simulate_physical_connections (assemble c M) = Ok (assemble c M').
Proof.
  intros HM HF. pose proof (Forall2_length _ _ _ HF) as Hl.
  assert (Hl5 : length M = 5%nat) by (apply (f_equal length) in HM; by rewrite length_fmap in HM).
  do 5 (destruct M as [|? M]; [done|]; destruct M' as [|? M']; [done|]; apply Forall2_cons in HF as [? HF]).
  destruct M; [|done]. destruct M'; [|done]. unfold Network.simulate_physical_connections.
  wire_next 0%nat. wire_next 1%nat. wire_next 2%nat. wire_next 3%nat.
  match goal with HM : shape ?M |- _ => pose proof (proj2 (proj2 (proj2 (proj2 (assemble_ids c M HM))))) as -> end.
  by erewrite wire_ok2 by done.
Qed.

(** ** The hosts and the router of the assembled network *)

Definition update2 {A} (e : nat -> nat -> A) (l i : nat) (v : A) : nat -> nat -> A :=
  fun l' i' => if decide (l' = l /\ i' = i) then v else e l' i'.

(** The hosts are the members from 1 on. *)
Lemma host_cases (P : nat -> nat -> Prop) M l i m x :
  shape M -> M !! l = Some m -> m !! i = Some x -> (0 < i)%nat ->
  P 0%nat 1%nat -> P 1%nat 1%nat -> P 2%nat 1%nat -> P 3%nat 1%nat -> P 4%nat 1%nat -> P 4%nat 2%nat -> P l i.
Proof.
  intros HM Hl Hi H0. destruct (shape_inv M HM) as (? & ? & ? & ? & ? & ? & ? & ? & ? & ? & ? & ->).
  destruct l as [|[|[|[|[|l]]]]]; [injection Hl as <-..|done]; destruct i as [|[|[|i]]]; try lia; done.
Qed.

Lemma host_at c M l i m x :
  shape M -> M !! l = Some m -> m !! i = Some x -> (0 < i)%nat ->
  Network.host (assemble c M) (host_name l i) = Ok (host_with (rs_expected c) l i x).
Proof.
  intros HM Hl Hi H0. generalize Hl Hi. pattern l, i.
  eapply (host_cases _ M l i m x); [done|done|done|done|..]; clear l i H0 Hl Hi;
    destruct (shape_inv M HM) as (? & ? & ? & ? & ? & ? & ? & ? & ? & ? & ? & ->);
    intros [= <-] [= <-]; reflexivity.
Qed.

Lemma set_host_at c M l i m x x' v :
  shape M -> M !! l = Some m -> m !! i = Some x -> (0 < i)%nat ->
  Network.set_host (assemble c M) (host_name l i)
    (Host.mk (host_name l i) (ipv4_address (member_ip l i)) x' (ipv4_address (host_hop l)) v) =
  assemble (set_expected c (update2 (rs_expected c) l i v)) (<[l := <[i := x']> m]> M).
Proof.
  intros HM Hl Hi H0. generalize Hl Hi. pattern l, i.
  eapply (host_cases _ M l i m x); [done|done|done|done|..]; clear l i H0 Hl Hi;
    destruct (shape_inv M HM) as (? & ? & ? & ? & ? & ? & ? & ? & ? & ? & ? & ->);
    intros [= <-] [= <-]; reflexivity.
Qed.

(** The interfaces of the router, after it has routed. *)
Lemma router_at c M l m x :
  shape M -> M !! l = Some m -> m !! 0%nat = Some x ->
  Router.interfaces_ (Network._router (assemble c M)) !! router_port l = Some x.
Proof.
  intros HM Hl Hi. destruct (shape_inv M HM) as (? & ? & ? & ? & ? & ? & ? & ? & ? & ? & ? & ->).
  destruct l as [|[|[|[|[|l]]]]]; [injection Hl as <-..|done]; exact Hi.
Qed.

Lemma reassemble c M r :
  shape M -> Router.table_ r = rs_table c -> length (Router.interfaces_ r) = 7%nat ->
  Router.interfaces_ r !! 2%nat = Some (rs_eth1 c) -> Router.interfaces_ r !! 6%nat = Some (rs_mit5 c) ->
  Network.set_router (assemble c M) r =
  assemble c (imap (fun l m => <[0%nat := default (rs_eth1 c) (Router.interfaces_ r !! router_port l)]> m) M).
Proof.
  intros HM Ht Hlen H2 H6. destruct (shape_inv M HM) as (? & ? & ? & ? & ? & ? & ? & ? & ? & ? & ? & ->).
  destruct r as [ifs t]. simpl in *. subst t.
  do 7 (destruct ifs as [|? ifs]; [done|]). destruct ifs; [|done].
  injection H2 as ->. injection H6 as ->. reflexivity.
Qed.

(** ** The routes *)

Definition net_routes : list route_spec :=
  [Route 0 0 (Some (ipv4_address 2873314305)) 0; Route 167772160 8 None 1; Route 2886729728 16 None 2;
   Route 3232235520 24 None 3; Route 3333612800 24 None 4;
   Route 2411921408 17 (Some (ipv4_address 2411921409)) 5;
   Route 2411954176 18 (Some (ipv4_address 2411921409)) 5;
   Route 2411970560 19 (Some (ipv4_address 2411921409)) 5;
   Route 2149469439 16 (Some (ipv4_address 2149449729)) 6].

Lemma net_routes_ok : Forall rs_ok net_routes.
Proof. repeat constructor; simpl; lia. Qed.

Definition unlinked (x : AsyncNetworkInterface.t) : Prop :=
  (exists own, ni_wf own (base x)) /\ queue_at x = [].

Record rest_ok (c : rest) : Prop := {
  rk_table : forall ifs, represents net_routes (Router.mk ifs (rs_table c));
  rk_eth1 : unlinked (rs_eth1 c);
  rk_mit5 : unlinked (rs_mit5 c)
}.

Definition owns (l : nat) : list Z := nth l link_ips [].

Lemma owns_nodup l : NoDup (owns l).
Proof.
  assert (H : Forall NoDup (link_ips : list (list Z))).
  { repeat constructor; vm_compute; intros H; repeat (apply elem_of_cons in H as [H|H]; [done|]); by apply elem_of_nil in H. }
  unfold owns. destruct (nth_in_or_default l link_ips []) as [Hin| ->]; [|constructor].
  rewrite Forall_forall in H. apply H. by apply list_elem_of_In.
Qed.

Section network.

(** The Ethernet addresses of the members of the links. *)
Context (macs : list (list EthernetAddress)).
Context (macs_shape : length <$> macs = [2; 2; 2; 2; 3]%nat) (macs_nodup : Forall NoDup macs).
Context (macs_host : Forall (Forall (fun e => addr_ok e /\ e <> EMPTY_ADDRESS /\ e <> ETHERNET_BROADCAST)) macs).

Definition neighbours (l : nat) (ip : Z) : option EthernetAddress :=
  (list_to_map (zip (owns l) (nth l macs [])) : gmap Z EthernetAddress) !! ip.

Lemma macs_length l : length (nth l macs []) = length (owns l).
Proof.
  assert (H : length <$> macs = length <$> link_ips) by done. unfold owns.
  change 0%nat with (length (@nil EthernetAddress)). rewrite <- !(map_nth length).
  exact (f_equal (fun v => nth l v 0%nat) H).
Qed.

Lemma neighbours_inv l ip eth :
  neighbours l ip = Some eth <-> exists i, owns l !! i = Some ip /\ nth l macs [] !! i = Some eth.
Proof.
  unfold neighbours. rewrite <- elem_of_list_to_map.
  - rewrite list_elem_of_lookup. setoid_rewrite lookup_zip_with_Some. split.
    + intros (i & x & y & [= -> ->] & Hx & Hy). by exists i.
    + intros (i & Hx & Hy). by exists i, ip, eth.
  - rewrite fst_zip by (rewrite macs_length; done). apply owns_nodup.
Qed.

Lemma neighbours_inj l ip ip' eth : neighbours l ip = Some eth -> neighbours l ip' = Some eth -> ip = ip'.
Proof.
  rewrite !neighbours_inv. intros (i & Hi & Hei) (j & Hj & Hej).
  assert (Hnd : NoDup (nth l macs [])).
  { destruct (nth_in_or_default l macs []) as [Hin| ->]; [|constructor].
    rewrite Forall_forall in macs_nodup. apply macs_nodup. by apply list_elem_of_In. }
  assert (i = j) as -> by (by eapply NoDup_lookup). congruence.
Qed.

Lemma neighbours_host l ip eth :
  neighbours l ip = Some eth -> 0 <= ip < two32 /\ addr_ok eth /\ eth <> EMPTY_ADDRESS /\ eth <> ETHERNET_BROADCAST.
Proof.
  rewrite neighbours_inv. intros (i & Hi & He). split.
  - assert (H : Forall (Forall (fun ip => 0 <= ip < two32)) link_ips) by (repeat constructor; lia).
    unfold owns in Hi. destruct (nth_in_or_default l link_ips []) as [Hin|E]; [|by rewrite E in Hi].
    rewrite Forall_forall in H. specialize (H _ (proj2 (list_elem_of_In _ _) Hin)).
    rewrite Forall_lookup in H. by eapply H.
  - destruct (nth_in_or_default l macs []) as [Hin|E]; [|by rewrite E in He].
    rewrite Forall_forall in macs_host. specialize (macs_host _ (proj2 (list_elem_of_In _ _) Hin)).
    rewrite Forall_lookup in macs_host. by eapply macs_host.
Qed.

Lemma neighbours_some l i own : owns l !! i = Some own -> is_Some (neighbours l own).
Proof.
  intros Hi. destruct (lookup_lt_is_Some_2 (nth l macs []) i) as [e He].
  { rewrite macs_length. by eapply lookup_lt_Some. }
  exists e. apply neighbours_inv. eauto.
Qed.

(** The members of link [l], whatever they are doing, with the queue of the router's interface. *)
Definition linked (l : nat) (m : list AsyncNetworkInterface.t) (q : list IPv4Datagram.t) : Prop :=
  exists fr pend qs, on_link (neighbours l) (owns l) m fr pend qs /\ qs 0%nat = q.

Lemma linked_router l m q x :
  linked l m q -> m !! 0%nat = Some x -> owns l <> [] -> (exists own, ni_wf own (base x)) /\ queue_at x = q.
Proof.
  intros (fr & pend & qs & [Hl H] & <-) Hx Ho. destruct (lookup_lt_is_Some_2 (owns l) 0) as [own Hown].
  { destruct (owns l); simpl; [done|lia]. }
  destruct (H 0%nat x own Hx Hown) as [Hst Hq]. split; [exists own; apply Hst|done].
Qed.

Definition net_linked (M : list (list AsyncNetworkInterface.t)) (q : nat -> list IPv4Datagram.t) : Prop :=
  shape M /\ forall l m, M !! l = Some m -> linked l m (q l).

Lemma linked_head l m q : linked l m q -> (l < 5)%nat -> exists x, m !! 0%nat = Some x.
Proof.
  intros (fr & pend & qs & [Hl _] & _) Hlt. apply lookup_lt_is_Some_2. rewrite Hl.
  unfold owns. do 5 (destruct l as [|l]; [simpl; lia|]). lia.
Qed.

Lemma owns_nonempty l : (l < 5)%nat -> owns l <> [].
Proof. intros Hl. unfold owns. do 5 (destruct l as [|l]; [done|]). lia. Qed.

Lemma owns_head l : (l < 5)%nat -> is_Some (owns l !! 0%nat).
Proof. intros Hl. pose proof (owns_nonempty l Hl). by destruct (owns l). Qed.

Lemma router_wf c M q :
  rest_ok c -> net_linked M q -> (forall l, Forall IPv4Datagram.ok (q l)) ->
  rt_wf net_routes (Network._router (assemble c M)).
Proof.
  intros Hc [HM Hl] Hq. split; [apply net_routes_ok| | |].
  - destruct (shape_inv M HM) as (? & ? & ? & ? & ? & ? & ? & ? & ? & ? & ? & ->). apply (rk_table c Hc).
  - destruct (shape_inv M HM) as (? & ? & ? & ? & ? & ? & ? & ? & ? & ? & ? & ->).
    unfold net_routes. repeat constructor; simpl; try lia; (eexists; split; [|apply ipv4_numeric_of]; lia).
  - assert (Hr : forall l m x, M !! l = Some m -> m !! 0%nat = Some x -> (l < 5)%nat ->
      (exists own, ni_wf own (base x)) /\ Forall IPv4Datagram.ok (queue_at x)).
    { intros l m x Hm Hx Hlt. destruct (linked_router l m (q l) x) as [Hw ->]; auto using owns_nonempty. }
    destruct Hc as [_ [H2 E2] [H6 E6]].
    destruct (shape_inv M HM) as (? & ? & ? & ? & ? & ? & ? & ? & ? & ? & ? & ->). simpl.
    repeat apply Forall_cons_2; [..|by apply Forall_nil_2].
    + exact (Hr 0%nat _ _ eq_refl eq_refl ltac:(lia)).
    + exact (Hr 1%nat _ _ eq_refl eq_refl ltac:(lia)).
    + split; [done|by rewrite E2].
    + exact (Hr 2%nat _ _ eq_refl eq_refl ltac:(lia)).
    + exact (Hr 4%nat _ _ eq_refl eq_refl ltac:(lia)).
    + exact (Hr 3%nat _ _ eq_refl eq_refl ltac:(lia)).
    + split; [done|by rewrite E6].
Qed.

(** The datagrams [route] finds, in its order. *)
Definition pending_route (q : nat -> list IPv4Datagram.t) : list IPv4Datagram.t :=
  q 0%nat ++ q 1%nat ++ q 2%nat ++ q 4%nat ++ q 3%nat.

Lemma queued_links c M q :
  rest_ok c -> net_linked M q -> queued (Network._router (assemble c M)) 0 7 = pending_route q.
Proof.
  intros Hc [HM Hl]. destruct Hc as [_ [H2 E2] [H6 E6]].
  assert (Hr : forall l m x, M !! l = Some m -> m !! 0%nat = Some x -> (l < 5)%nat -> queue_at x = q l).
  { intros l m x Hm Hx Hlt. eapply linked_router; eauto using owns_nonempty. }
  destruct (shape_inv M HM) as (? & ? & ? & ? & ? & ? & ? & ? & ? & ? & ? & ->).
  unfold queued, queue_of. simpl. unfold AsyncNetworkInterface.datagrams_out. rewrite E2, E6.
  rewrite (Hr 0%nat _ _ eq_refl eq_refl), (Hr 1%nat _ _ eq_refl eq_refl), (Hr 2%nat _ _ eq_refl eq_refl),
    (Hr 3%nat _ _ eq_refl eq_refl), (Hr 4%nat _ _ eq_refl eq_refl) by lia.
  unfold pending_route. by rewrite !app_nil_r, app_nil_l.
Qed.

(** What [route] does to the links. *)
Lemma route_links c M q :
  rest_ok c -> net_linked M q -> (forall l, Forall IPv4Datagram.ok (q l)) ->
  sends_to 2 net_routes (pending_route q) = [] -> sends_to 6 net_routes (pending_route q) = [] ->
  exists r M', Router.route (Network._router (assemble c M)) = Ok r /\
    Network.set_router (assemble c M) r = assemble c M' /\ shape M' /\
    forall l m x, M !! l = Some m -> m !! 0%nat = Some x ->
      exists n', ni_run (base x) (sends_to (router_port l) net_routes (pending_route q)) = Ok n' /\
        M' !! l = Some (<[0%nat := AsyncNetworkInterface.mk n' []]> m).
Proof.
  intros Hc HM Hq H2 H6. pose proof (router_wf c M q Hc HM Hq) as Hwf. pose proof (queued_links c M q Hc HM) as Hds.
  set (r0 := Network._router (assemble c M)) in *.
  assert (H7 : length (Router.interfaces_ r0) = 7%nat).
  { unfold r0. by destruct (shape_inv M (proj1 HM)) as (? & ? & ? & ? & ? & ? & ? & ? & ? & ? & ? & ->). }
  destruct (route_from_ok net_routes (Router.queue_fuel r0) 7 r0 0 Hwf) as (r & Hr & _ & Hm);
    [lia|intros j; apply queue_fuel_enough|]. rewrite Hds in Hm. destruct Hm as [Hlen Htab Hifs].
  assert (Hun : forall j x, Router.interfaces_ r0 !! j = Some x -> unlinked x ->
    sends_to j net_routes (pending_route q) = [] -> Router.interfaces_ r !! j = Some x).
  { intros j x Hj [_ Hqx] Hs. destruct (Hifs j x Hj) as (n' & Hn' & ->). rewrite Hs in Hn'. injection Hn' as <-.
    rewrite Hqx. destruct x as [b qx]. simpl in *. subst qx. by destruct (bool_decide _). }
  eexists r, _. split; [unfold Router.route; by rewrite H7|]. split; [apply reassemble|split].
  - apply HM.
  - rewrite Htab. unfold r0. by destruct (shape_inv M (proj1 HM)) as (? & ? & ? & ? & ? & ? & ? & ? & ? & ? & ? & ->).
  - by rewrite Hlen.
  - apply Hun; [|apply Hc|done]. unfold r0. by destruct (shape_inv M (proj1 HM)) as (? & ? & ? & ? & ? & ? & ? & ? & ? & ? & ? & ->).
  - apply Hun; [|apply Hc|done]. unfold r0. by destruct (shape_inv M (proj1 HM)) as (? & ? & ? & ? & ? & ? & ? & ? & ? & ? & ? & ->).
  - destruct (shape_inv M (proj1 HM)) as (? & ? & ? & ? & ? & ? & ? & ? & ? & ? & ? & ->). reflexivity.
  - intros l m x Hl Hx. destruct (Hifs (router_port l) x (router_at c M l m x (proj1 HM) Hl Hx)) as (n' & Hn' & Hi).
    exists n'. split; [done|]. rewrite list_lookup_imap, Hl, Hi. simpl. do 3 f_equal.
    rewrite bool_decide_eq_true_2; [done|]. rewrite <- H7. apply lookup_lt_Some in Hi. rewrite Hlen in Hi. lia.
Qed.

(** ** Rounds *)

Definition round (n : Network.t) : outcome Network.t :=
  r ← Router.route (Network._router n); Network.simulate_physical_connections (Network.set_router n r).

Lemma rounds_S i n : Network.rounds (S i) n = round n ≫= Network.rounds i.
Proof. unfold round. by rewrite bind_assoc. Qed.

Definition quiet (l : nat) (m : list AsyncNetworkInterface.t) : Prop :=
  idle (neighbours l) (owns l) m (fun _ => []).

(** Nothing is under way. *)
Definition calm (M : list (list AsyncNetworkInterface.t)) : Prop :=
  shape M /\ forall l m, M !! l = Some m -> quiet l m.

(** Only link [l] is busy: [d] needs [k] more exchanges from member [s] to member [y]. *)
Definition busy (l k s y : nat) (d : IPv4Datagram.t) (M : list (list AsyncNetworkInterface.t)) : Prop :=
  shape M /\ (exists m, M !! l = Some m /\ phase (neighbours l) (owns l) k s y d (fun _ => []) m) /\
  forall l' m', l' <> l -> M !! l' = Some m' -> quiet l' m'.

Lemma shape_lookup M l m : shape M -> M !! l = Some m -> (l < 5)%nat /\ length m = length (owns l).
Proof.
  intros HM Hl. destruct (shape_inv M HM) as (? & ? & ? & ? & ? & ? & ? & ? & ? & ? & ? & ->).
  destruct l as [|[|[|[|[|l]]]]]; [injection Hl as <-; split; [lia|done]..|done].
Qed.

Lemma phase_linked l k s y d m :
  (k <= 3)%nat -> phase (neighbours l) (owns l) k s y d (fun _ => []) m ->
  (k = 0%nat -> y <> 0%nat) -> linked l m [].
Proof.
  intros Hk Hp Hy. destruct k as [|[|[|[|k]]]]; [..|lia]; simpl in Hp.
  - destruct Hp as (d' & _ & _ & Hm). eexists _, _, _. split; [exact Hm|]. unfold only. rewrite decide_False; [done|].
    intros <-. by destruct (Hy eq_refl).
  - destruct Hp as (f & m' & own & eth & _ & _ & Hm & _). by eexists _, _, _.
  - destruct Hp as (f & m' & own_s & own & eth & _ & _ & _ & _ & Hm & _). by eexists _, _, _.
  - destruct Hp as (f & m' & own_s & own & _ & _ & _ & _ & Hm & _). by eexists _, _, _.
Qed.

Lemma quiet_linked l m : quiet l m -> linked l m [].
Proof. intros H. by eexists _, _, _. Qed.

Lemma busy_linked l k s y d M :
  (k <= 3)%nat -> busy l k s y d M -> (k = 0%nat -> y <> 0%nat) -> net_linked M (fun _ => []).
Proof.
  intros Hk (HM & (m & Hm & Hp) & Hq) Hy. split; [done|]. intros l' m' Hl'.
  destruct (decide (l' = l)) as [->|Hne]; [|eauto using quiet_linked].
  assert (m' = m) as -> by congruence. by eapply phase_linked.
Qed.

(** With empty queues the router does nothing. *)
Lemma route_quiet c M :
  rest_ok c -> net_linked M (fun _ => []) ->
  exists r, Router.route (Network._router (assemble c M)) = Ok r /\ Network.set_router (assemble c M) r = assemble c M.
Proof.
  intros Hc HM. destruct (route_links c M (fun _ => []) Hc HM) as (r & M' & Hr & Hset & HM' & H); try done.
  exists r. split; [done|]. rewrite Hset. f_equal. apply list_eq. intros l.
  destruct (M !! l) as [m|] eqn:Hl.
  - destruct (shape_lookup M l m (proj1 HM) Hl) as [Hlt _].
    destruct (linked_head l m [] (proj2 HM l m Hl) Hlt) as [x Hx].
    destruct (H l m x Hl Hx) as (n' & Hn' & ->). injection Hn' as <-.
    destruct (linked_router l m [] x (proj2 HM l m Hl) Hx (owns_nonempty l Hlt)) as [_ Hq].
    f_equal. apply list_insert_id. rewrite Hx. destruct x. simpl in *. by subst.
  - apply lookup_ge_None in Hl. apply lookup_ge_None.
    apply (f_equal length) in HM'. destruct HM as [HM _]. apply (f_equal length) in HM.
    rewrite length_fmap in HM, HM'. lia.
Qed.

Lemma exchanged_link M l m m' :
  M !! l = Some m -> exchanged m m' -> (forall l' m', l' <> l -> M !! l' = Some m' -> quiet l' m') ->
  Forall2 exchanged M (<[l := m']> M).
Proof.
  intros Hl He Hq. apply Forall2_same_length_lookup. split; [by rewrite length_insert|].
  intros i a b Ha Hb. destruct (decide (i = l)) as [->|Hne].
  - rewrite list_lookup_insert_eq in Hb by (by eapply lookup_lt_Some). congruence.
  - rewrite list_lookup_insert_ne in Hb by done. assert (b = a) as -> by congruence.
    exact (exchanged_quiet _ _ _ _ _ (Hq i a Hne Ha)).
Qed.

(** The exchanges of a round bring a delivery one step further. *)
Lemma busy_step l k s y d M c :
  (k < 3)%nat -> s <> y -> is_Some (owns l !! s) -> IPv4Datagram.ok d -> busy l (S k) s y d M ->
  exists M', Network.simulate_physical_connections (assemble c M) = Ok (assemble c M') /\ busy l k s y d M'.
Proof.
  intros Hk Hsy Hs Hd (HM & (m & Hm & Hp) & Hq).
  destruct (phase_step (neighbours l) (neighbours_inj l) (neighbours_host l) (owns l) (owns_nodup l) k s y d
    (fun _ => []) m Hk Hsy Hs Hd Hp) as (m' & He & Hp').
  exists (<[l := m']> M). split; [apply physical_ok; [done|by eapply exchanged_link]|].
  split; [by eapply shape_insert|]. split.
  - exists m'. split; [|done]. apply list_lookup_insert_eq. by eapply lookup_lt_Some.
  - intros l' m2 Hne. rewrite list_lookup_insert_ne by done. by apply Hq.
Qed.

Lemma round_advance l k s y d M c :
  rest_ok c -> (k < 3)%nat -> s <> y -> is_Some (owns l !! s) -> IPv4Datagram.ok d -> busy l (S k) s y d M ->
  exists M', round (assemble c M) = Ok (assemble c M') /\ busy l k s y d M'.
Proof.
  intros Hc Hk Hsy Hs Hd HM.
  destruct (route_quiet c M Hc (busy_linked l (S k) s y d M ltac:(lia) HM ltac:(done))) as (r & Hr & Hset).
  unfold round. rewrite Hr. cbn [mbind outcome_bind]. rewrite Hset. by apply (busy_step l k s y d M c).
Qed.

Lemma rounds_arrive l s y d c : rest_ok c -> s <> y -> is_Some (owns l !! s) -> IPv4Datagram.ok d ->
  forall k M i, (k <= 3)%nat -> busy l k s y d M ->
  exists M', Network.rounds (k + i) (assemble c M) = Network.rounds i (assemble c M') /\ busy l 0 s y d M'.
Proof.
  intros Hc Hsy Hs Hd k. induction k as [|k IH]; intros M i Hk HM; [by exists M|].
  destruct (round_advance l k s y d M c Hc ltac:(lia) Hsy Hs Hd HM) as (M1 & Hr & H1).
  change (S k + i)%nat with (S (k + i)). rewrite rounds_S, Hr. cbn [mbind outcome_bind].
  apply (IH M1 i ltac:(lia) H1).
Qed.

(** Rounds without frames and without datagrams for the router. *)
Lemma rounds_rest c M i :
  rest_ok c -> net_linked M (fun _ => []) -> (forall l m, M !! l = Some m -> exchanged m m) ->
  Network.rounds i (assemble c M) = Ok (assemble c M).
Proof.
  intros Hc HM He. induction i as [|i IH]; [done|]. rewrite rounds_S.
  destruct (route_quiet c M Hc HM) as (r & Hr & Hset). unfold round. rewrite Hr. cbn [mbind outcome_bind].
  rewrite Hset, (physical_ok c M M); [done|apply HM|]. apply Forall2_same_length_lookup. split; [done|].
  intros j a b Ha Hb. assert (b = a) as -> by congruence. by apply (He j).
Qed.

Lemma busy_rest l s y d M i c :
  rest_ok c -> busy l 0 s y d M -> y <> 0%nat -> Network.rounds i (assemble c M) = Ok (assemble c M).
Proof.
  intros Hc HM Hy. apply rounds_rest; [done|by apply (busy_linked l 0 s y d M); [lia|..]|].
  intros l' m' Hl'. destruct HM as (_ & (m & Hm & d' & _ & _ & Hi) & Hq).
  destruct (decide (l' = l)) as [->|Hne]; [|exact (exchanged_quiet _ _ _ _ _ (Hq l' m' Hne Hl'))].
  assert (m' = m) as -> by congruence. exact (exchanged_quiet _ _ _ _ _ Hi).
Qed.

Lemma calm_rest M i c : rest_ok c -> calm M -> Network.rounds i (assemble c M) = Ok (assemble c M).
Proof.
  intros Hc [HM Hq]. apply rounds_rest; [done|split; [done|eauto using quiet_linked]|].
  intros l m Hl. exact (exchanged_quiet _ _ _ _ _ (Hq l m Hl)).
Qed.

(** ** Through the router *)

Lemma same_fields d d' : same d d' ->
  IPv4Header.ttl (IPv4Datagram.header d) = IPv4Header.ttl (IPv4Datagram.header d') /\
  IPv4Header.dst (IPv4Datagram.header d) = IPv4Header.dst (IPv4Datagram.header d').
Proof. intros [E _]. by injection E. Qed.

Lemma same_decremented d d' : same d d' -> same (decremented d) (decremented d').
Proof.
  intros Hs. pose proof (same_fields d d' Hs) as [Et _]. destruct Hs as [Eh Ep]. split; [|exact Ep].
  unfold decremented, IPv4Datagram.set_header, IPv4Datagram.header. cbn [IPv4Datagram._header]. fold (IPv4Datagram.header d) (IPv4Datagram.header d').
  rewrite Et. unfold IPv4Header.set_ttl, IPv4Header.set_cksum in *. simpl. by injection Eh as -> -> -> -> -> -> -> -> _ -> -> ->.
Qed.

Lemma router_port_inj l l' : (l < 5)%nat -> (l' < 5)%nat -> router_port l = router_port l' -> l = l'.
Proof.
  intros Hl Hl'. do 5 (destruct l as [|l]; [do 5 (destruct l' as [|l']; [done|]); lia|]). lia.
Qed.

Lemma router_port_linked l : (l < 5)%nat -> router_port l <> 2%nat /\ router_port l <> 6%nat.
Proof. intros Hl. do 5 (destruct l as [|l]; [done|]). lia. Qed.

(** The queue of a single datagram, on the router's side of link [l]. *)
Lemma pending_single l d : (l < 5)%nat -> pending_route (fun l' => only l [d] [] l') = [d].
Proof. intros Hl. unfold pending_route, only. do 5 (destruct l as [|l]; [done|]). lia. Qed.

Lemma turn_linked l s d M :
  busy l 0 s 0 d M ->
  exists d', same d' d /\ IPv4Datagram.ok d' /\ net_linked M (fun l' => only l [d'] [] l').
Proof.
  intros (HM & (m & Hm & d' & Hs & Hok & Hi) & Hq). exists d'. split; [done|]. split; [done|]. split; [done|].
  intros l' m' Hl'. unfold only. destruct (decide (l' = l)) as [->|Hne]; [|eauto using quiet_linked].
  assert (m' = m) as -> by congruence. by eexists _, _, _.
Qed.

(** Emptying the queue of the router's interface leaves the link quiet. *)
Lemma quiet_emptied l m x q :
  idle (neighbours l) (owns l) m q -> (forall i, i <> 0%nat -> q i = []) -> m !! 0%nat = Some x ->
  quiet l (<[0%nat := AsyncNetworkInterface.mk (base x) []]> m).
Proof.
  intros [Hl H] Hq Hx. split; [by rewrite length_insert|]. intros i y own Hy Ho.
  destruct (decide (i = 0%nat)) as [->|Hne].
  - rewrite list_lookup_insert_eq in Hy by (by eapply lookup_lt_Some). injection Hy as <-.
    split; [|done]. exact (proj1 (H 0%nat x own Hx Ho)).
  - rewrite list_lookup_insert_ne in Hy by done. destruct (H i y own Hy Ho) as [Hst Hqi].
    split; [done|]. by rewrite Hqi, Hq.
Qed.

Lemma turn_quiet l s d M l' m x :
  busy l 0 s 0 d M -> M !! l' = Some m -> m !! 0%nat = Some x ->
  quiet l' (<[0%nat := AsyncNetworkInterface.mk (base x) []]> m).
Proof.
  intros (HM & (ml & Hm & d' & Hs & Hok & Hi) & Hq) Hl' Hx. destruct (decide (l' = l)) as [->|Hne].
  - assert (ml = m) as -> by congruence. eapply quiet_emptied; [exact Hi| |done].
    intros i Hne. unfold only. by rewrite decide_False.
  - eapply quiet_emptied; [exact (Hq l' m Hne Hl')|done..].
Qed.

(** A datagram whose time to live is over goes no further. *)
Lemma round_drop l s d M c :
  rest_ok c -> busy l 0 s 0 d M -> (l < 5)%nat -> IPv4Header.ttl (IPv4Datagram.header d) <= 1 ->
  exists M', round (assemble c M) = Ok (assemble c M') /\ calm M'.
Proof.
  intros Hc HM Hlt Httl. destruct (turn_linked l s d M HM) as (d' & Hs & Hok & HL).
  assert (Hsends : forall j, sends_to j net_routes [d'] = []).
  { intros j. unfold sends_to. cbn [omap list_omap]. unfold forward. cbv zeta. rewrite (proj1 (same_fields _ _ Hs)).
    by destruct (Z.leb_spec (IPv4Header.ttl (IPv4Datagram.header d)) 1); [|lia]. }
  destruct (route_links c M _ Hc HL) as (r & M' & Hr & Hset & HM' & H); rewrite ?pending_single; auto.
  { intros l'. unfold only. case_decide; [by constructor|constructor]. }
  assert (Hcalm : calm M').
  { split; [done|]. intros l' m' Hl'. destruct (shape_lookup M' l' m' HM' Hl') as [Hlt' _].
    destruct (lookup_lt_is_Some_2 M l') as [m Hm].
    { destruct HL as [HL _]. apply (f_equal length) in HL. rewrite length_fmap in HL. simpl in HL. lia. }
    destruct (linked_head l' m _ (proj2 HL l' m Hm) Hlt') as [x Hx].
    destruct (H l' m x Hm Hx) as (n' & Hn' & E). rewrite pending_single, Hsends in Hn' by done. injection Hn' as <-.
    rewrite E in Hl'. injection Hl' as <-. by eapply turn_quiet. }
  exists M'. split; [|done]. unfold round. rewrite Hr. cbn [mbind outcome_bind]. rewrite Hset. apply physical_ok; [done|].
  apply Forall2_same_length_lookup. split; [done|]. intros j a b Ha Hb. assert (b = a) as -> by congruence.
  exact (exchanged_quiet _ _ _ _ _ (proj2 Hcalm j a Ha)).
Qed.

(** The router takes the datagram from the link it arrived on and hands it to the interface of
    its route. *)
Lemma route_turn l1 s l2 y d M c sp :
  rest_ok c -> busy l1 0 s 0 d M -> (l1 < 5)%nat -> (l2 < 5)%nat -> y <> 0%nat ->
  1 < IPv4Header.ttl (IPv4Datagram.header d) ->
  lpm net_routes (IPv4Header.dst (IPv4Datagram.header d)) = Some sp -> rs_num sp = Z.of_nat (router_port l2) ->
  owns l2 !! y = Some (next_hop_ip sp (IPv4Header.dst (IPv4Datagram.header d))) ->
  exists r M1 d' k, Router.route (Network._router (assemble c M)) = Ok r /\
    Network.set_router (assemble c M) r = assemble c M1 /\ same d' d /\ IPv4Datagram.ok d' /\
    (k = 1 \/ k = 3)%nat /\ busy l2 k 0 y (decremented d') M1.
Proof.
  intros Hc HM Hl1 Hl2 Hy Httl Hlpm Hnum Hhop. destruct (turn_linked l1 s d M HM) as (d' & Hs & Hok & HL).
  destruct (same_fields _ _ Hs) as [Et Ed]. set (ip := next_hop_ip sp _) in *.
  assert (Hsends : forall j, sends_to j net_routes [d'] = if decide (router_port l2 = j) then [NSend (decremented d') ip] else []).
  { intros j. unfold sends_to. cbn [omap list_omap]. unfold forward. cbv zeta. rewrite Et, Ed, Hlpm, Hnum, Nat2Z.id.
    destruct (Z.leb_spec (IPv4Header.ttl (IPv4Datagram.header d)) 1); [lia|]. fold ip. by destruct (decide _). }
  destruct (router_port_linked l2 Hl2) as [Hp2 Hp6].
  destruct (route_links c M _ Hc HL) as (r & M1 & Hr & Hset & HM1 & H); rewrite ?pending_single, ?Hsends, ?decide_False by done; auto.
  { intros l'. unfold only. case_decide; [by constructor|constructor]. }
  rewrite pending_single in H by done. setoid_rewrite Hsends in H.
  assert (Hat : forall l, (l < 5)%nat -> exists m x, M !! l = Some m /\ m !! 0%nat = Some x).
  { intros l Hlt. destruct (lookup_lt_is_Some_2 M l) as [m Hm].
    { destruct HL as [HL _]. apply (f_equal length) in HL. rewrite length_fmap in HL. simpl in HL. lia. }
    destruct (linked_head l m _ (proj2 HL l m Hm) Hlt) as [x Hx]. eauto. }
  destruct (Hat l2 Hl2) as (m & x & Hm & Hx). destruct (H l2 m x Hm Hx) as (n' & Hn' & Hm1).
  rewrite decide_True in Hn' by done. cbn [ni_run ni_step] in Hn'. apply bind_Ok_inv in Hn' as (n'' & Hsend & [= ->]).
  destruct (owns_head l2 Hl2) as [own0 Hown0].
  destruct (phase_start (neighbours l2) (owns l2) 0 y (decremented d') (fun _ => [])
    (<[0%nat := AsyncNetworkInterface.mk (base x) []]> m) (AsyncNetworkInterface.mk (base x) []) (ipv4_address ip) own0 ip)
    as (n1 & Hn1 & k & Hk & Hp); try done.
  { by eapply turn_quiet. }
  { apply list_lookup_insert_eq. by eapply lookup_lt_Some. }
  { by eapply neighbours_some. }
  { apply decremented_ok; [done|]. by rewrite Et. }
  { apply ipv4_numeric_of. destruct (neighbours_some l2 y ip Hhop) as [e He]. by eapply neighbours_host. }
  cbn [AsyncNetworkInterface.base] in Hn1. rewrite Hsend in Hn1. injection Hn1 as <-.
  exists r, M1, d', k. do 5 (split; [done|]). split; [done|]. split.
  - exists (<[0%nat := AsyncNetworkInterface.mk n' []]> m). split; [done|]. cbn in Hp. by rewrite list_insert_insert_eq in Hp.
  - intros l m' Hne Hl. destruct (shape_lookup M1 l m' HM1 Hl) as [Hlt _]. destruct (Hat l Hlt) as (ml & xl & Hml & Hxl).
    destruct (H l ml xl Hml Hxl) as (nl & Hnl & El). rewrite decide_False in Hnl.
    2:{ intros E. apply router_port_inj in E; congruence. }
    injection Hnl as <-. rewrite El in Hl. injection Hl as <-. by eapply turn_quiet.
Qed.

Lemma round_turn l1 s l2 y d M c sp :
  rest_ok c -> busy l1 0 s 0 d M -> (l1 < 5)%nat -> (l2 < 5)%nat -> y <> 0%nat ->
  1 < IPv4Header.ttl (IPv4Datagram.header d) ->
  lpm net_routes (IPv4Header.dst (IPv4Datagram.header d)) = Some sp -> rs_num sp = Z.of_nat (router_port l2) ->
  owns l2 !! y = Some (next_hop_ip sp (IPv4Header.dst (IPv4Datagram.header d))) ->
  exists M' d' k, round (assemble c M) = Ok (assemble c M') /\ same d' d /\ IPv4Datagram.ok d' /\ (k <= 2)%nat /\
    busy l2 k 0 y (decremented d') M'.
Proof.
  intros Hc HM Hl1 Hl2 Hy Httl Hlpm Hnum Hhop.
  destruct (route_turn l1 s l2 y d M c sp) as (r & M1 & d' & k & Hr & Hset & Hs & Hok & Hk & Hb); try done.
  assert (Hd : IPv4Datagram.ok (decremented d')).
  { apply decremented_ok; [done|]. by rewrite (proj1 (same_fields _ _ Hs)). }
  destruct (owns_head l2 Hl2) as [own0 Hown0].
  destruct (busy_step l2 (pred k) 0 y (decremented d') M1 c) as (M' & Hp & Hb'); [lia|done|by exists own0|done| |].
  { by destruct Hk as [->| ->]. }
  exists M', d', (pred k). unfold round. rewrite Hr. cbn [mbind outcome_bind]. rewrite Hset, Hp.
  split_and!; try done. lia.
Qed.

(** ** From host to host *)

(** A datagram handed over at host [s] of link [l1] arrives at host [y] of link [l2]. *)
Lemma journey_ok l1 k s l2 y d M c sp :
  rest_ok c -> (l1 < 5)%nat -> (l2 < 5)%nat -> (k <= 3)%nat -> s <> 0%nat -> y <> 0%nat ->
  is_Some (owns l1 !! s) -> IPv4Datagram.ok d -> busy l1 k s 0 d M ->
  1 < IPv4Header.ttl (IPv4Datagram.header d) ->
  lpm net_routes (IPv4Header.dst (IPv4Datagram.header d)) = Some sp -> rs_num sp = Z.of_nat (router_port l2) ->
  owns l2 !! y = Some (next_hop_ip sp (IPv4Header.dst (IPv4Datagram.header d))) ->
  exists M' d', Network.rounds 256 (assemble c M) = Ok (assemble c M') /\ same d' (decremented d) /\
    busy l2 0 0 y d' M'.
Proof.
  intros Hc Hl1 Hl2 Hk Hs Hy Hso Hd HM Httl Hlpm Hnum Hhop.
  destruct (rounds_arrive l1 s 0 d c Hc Hs Hso Hd k M (256 - k) Hk HM) as (M1 & E1 & H1).
  replace (k + (256 - k))%nat with 256%nat in E1 by lia. rewrite E1.
  replace (256 - k)%nat with (S (255 - k)) by lia. rewrite rounds_S.
  destruct (round_turn l1 s l2 y d M1 c sp) as (M2 & d' & k2 & E2 & Hs' & Hok & Hk2 & H2); try done.
  rewrite E2. cbn [mbind outcome_bind].
  destruct (owns_head l2 Hl2) as [own0 Hown0].
  assert (Hdd : IPv4Datagram.ok (decremented d')).
  { apply decremented_ok; [done|]. by rewrite (proj1 (same_fields _ _ Hs')). }
  destruct (rounds_arrive l2 0 y (decremented d') c Hc ltac:(lia) ltac:(by exists own0) Hdd k2 M2 (255 - k - k2)) as (M3 & E3 & H3); [lia|done|].
  replace (k2 + (255 - k - k2))%nat with (255 - k)%nat in E3 by lia. rewrite E3.
  exists M3, (decremented d'). split; [by eapply busy_rest|]. split; [by apply same_decremented|done].
Qed.

(** A datagram whose time to live is at most 1 leaves no trace. *)
Lemma journey_expires l k s d M c :
  rest_ok c -> (l < 5)%nat -> (k <= 3)%nat -> s <> 0%nat -> is_Some (owns l !! s) -> IPv4Datagram.ok d ->
  busy l k s 0 d M -> IPv4Header.ttl (IPv4Datagram.header d) <= 1 ->
  exists M', Network.rounds 256 (assemble c M) = Ok (assemble c M') /\ calm M'.
Proof.
  intros Hc Hl Hk Hs Hso Hd HM Httl.
  destruct (rounds_arrive l s 0 d c Hc Hs Hso Hd k M (256 - k) Hk HM) as (M1 & E1 & H1).
  replace (k + (256 - k))%nat with 256%nat in E1 by lia. rewrite E1.
  replace (256 - k)%nat with (S (255 - k)) by lia. rewrite rounds_S.
  destruct (round_drop l s d M1 c Hc H1 Hl Httl) as (M2 & E2 & H2). rewrite E2. cbn [mbind outcome_bind].
  exists M2. split; [by apply calm_rest|done].
Qed.

(** ** What the hosts check *)

Definition nothing : nat -> nat -> list IPv4Datagram.t := fun _ _ => [].

(** The hosts have taken their datagrams. *)
Definition settle (M : list (list AsyncNetworkInterface.t)) : list (list AsyncNetworkInterface.t) :=
  imap (fun i x => if decide (i = 0%nat) then x else AsyncNetworkInterface.mk (base x) []) <$> M.

Lemma check_cons R n name names h h' :
  Network._hosts n !! name = Some h -> Host.check R h = Ok h' ->
  Network.check_hosts R (name :: names) n = Network.check_hosts R names (Network.set_host n name h').
Proof. intros Hh Hc. cbn [Network.check_hosts]. by rewrite Hh, Hc. Qed.

Lemma check_all R c M :
  shape M ->
  (forall l i m x, M !! l = Some m -> m !! i = Some x -> i <> 0%nat ->
     Host.check R (host_with (rs_expected c) l i x) = Ok (settled_host (host_with (rs_expected c) l i x))) ->
  Network.check_hosts R (map_to_list (Network._hosts (assemble c M))).*1 (assemble c M) =
  Ok (assemble (set_expected c nothing) (settle M)).
Proof.
  intros HM H. destruct (shape_inv M HM) as (r0 & x0 & r1 & x1 & r2 & x2 & r3 & x3 & r4 & x4 & x5 & ->).
  assert (E : (map_to_list (Network._hosts (assemble c [[r0; x0]; [r1; x1]; [r2; x2]; [r3; x3]; [r4; x4; x5]]))).*1 =
    ["cherrypie"; "applesauce"; "dm43"; "dm42"; "default_router"; "hs_router"]) by (vm_compute; reflexivity).
  rewrite E. clear E.
  erewrite (check_cons R _ _ _ (host_with (rs_expected c) 2 1 x2)); [|reflexivity|exact (H 2 1 _ _ eq_refl eq_refl ltac:(done))%nat].
  erewrite (check_cons R _ _ _ (host_with (rs_expected c) 1 1 x1)); [|reflexivity|exact (H 1 1 _ _ eq_refl eq_refl ltac:(done))%nat].
  erewrite (check_cons R _ _ _ (host_with (rs_expected c) 4 2 x5)); [|reflexivity|exact (H 4 2 _ _ eq_refl eq_refl ltac:(done))%nat].
  erewrite (check_cons R _ _ _ (host_with (rs_expected c) 4 1 x4)); [|reflexivity|exact (H 4 1 _ _ eq_refl eq_refl ltac:(done))%nat].
  erewrite (check_cons R _ _ _ (host_with (rs_expected c) 0 1 x0)); [|reflexivity|exact (H 0 1 _ _ eq_refl eq_refl ltac:(done))%nat].
  erewrite (check_cons R _ _ _ (host_with (rs_expected c) 3 1 x3)); [|reflexivity|exact (H 3 1 _ _ eq_refl eq_refl ltac:(done))%nat].
  reflexivity.
Qed.

Lemma settle_lookup M l i m x :
  M !! l = Some m -> m !! i = Some x -> i <> 0%nat ->
  exists m', settle M !! l = Some m' /\ m' !! i = Some (AsyncNetworkInterface.mk (base x) []).
Proof.
  intros Hl Hi Hne. unfold settle. rewrite list_lookup_fmap, Hl. eexists. split; [done|].
  rewrite list_lookup_imap, Hi. simpl. by rewrite decide_False.
Qed.

Lemma settle_calm M :
  shape M -> (forall l m, M !! l = Some m -> exists q, idle (neighbours l) (owns l) m q /\ q 0%nat = []) -> calm (settle M).
Proof.
  intros HM H. split.
  { by destruct (shape_inv M HM) as (? & ? & ? & ? & ? & ? & ? & ? & ? & ? & ? & ->). }
  intros l m'. unfold settle. rewrite list_lookup_fmap. destruct (M !! l) as [m|] eqn:Hl; [|done].
  intros [= <-]. destruct (H l m Hl) as (q & [Hlen Hi] & Hq0). split; [by rewrite length_imap|].
  intros i y own. rewrite list_lookup_imap. destruct (m !! i) as [x|] eqn:Hx; [|done]. simpl.
  intros [= <-] Ho. destruct (Hi i x own Hx Ho) as [Hst Hq]. case_decide as E; [subst i; by rewrite Hq|done].
Qed.

(** A host with nothing received and nothing expected, or with what it expected. *)
Lemma check_matching R h d d' :
  queue_at (Host._interface h) = [d] -> Host._expecting_to_receive h = [d'] ->
  IPv4Datagram.ok d -> IPv4Datagram.ok d' -> same d d' -> Host.check R h = Ok (settled_host h).
Proof.
  intros Hq He Hd Hd' Hs. destruct (check_ok R h) as [[_ ?]|[Hno _]]; [rewrite Hq; by constructor|rewrite He; by constructor|done|].
  destruct Hno. rewrite Hq, He. simpl. unfold wire_bytes. by rewrite (wire_same d d').
Qed.

Lemma check_empty R h :
  queue_at (Host._interface h) = [] -> Host._expecting_to_receive h = [] -> Host.check R h = Ok (settled_host h).
Proof.
  intros Hq He. destruct (check_ok R h) as [[_ ?]|[Hno _]]; [rewrite Hq; constructor|rewrite He; constructor|done|].
  destruct Hno. by rewrite Hq, He.
Qed.

(** ** The tests *)

Section tests.

Context (rd : nat -> Z) (R : Address.Resolver) (rd_range : forall k, 0 <= rd k < two32).
Context (c : rest) (c_ok : rest_ok c) (c_nothing : rs_expected c = nothing).

Lemma pretty_go_length n : forall x s, (x < 10 ^ N.of_nat n)%N ->
  (String.length (pretty_N_go x s) <= n + String.length s)%nat.
Proof.
  induction n as [|n IH]; intros x s Hx.
  - replace x with 0%N by (simpl in Hx; lia). by rewrite pretty_N_go_0.
  - destruct (decide (0 < x)%N) as [H0|H0]; [|replace x with 0%N by lia; rewrite pretty_N_go_0; lia].
    rewrite pretty_N_go_step by done. etransitivity; [apply IH|simpl; lia].
    rewrite Nat2N.inj_succ, N.pow_succ_r' in Hx. apply N.Div0.div_lt_upper_bound. lia.
Qed.

Lemma payload_length k : 0 <= zlen (Host.random_payload rd k) < 100.
Proof.
  assert (Hb : forall s, length (String.list_byte_of_string s) = String.length s).
  { intros s. unfold String.list_byte_of_string. rewrite length_map. induction s; simpl; congruence. }
  unfold Host.random_payload. rewrite Hb, !str_length_app.
  assert (Hp : (String.length (pretty (rd k)) <= 10)%nat).
  { destruct (Z.eq_dec (rd k) 0) as [->|Hz]; [simpl; lia|]. pose proof (rd_range k).
    rewrite pretty_nonneg by lia. etransitivity; [apply (pretty_go_length 10)|simpl; lia].
    change (10 ^ N.of_nat 10)%N with 10000000000%N. lia. }
  simpl String.length at 1 3. simpl. lia.
Qed.

(** The datagram host [i] of link [l] makes. *)
Definition probe (l i : nat) (dst ttl : Z) (k : nat) : IPv4Datagram.t :=
  IPv4Datagram.mk
    (IPv4Header.mk 4 5 0 (20 + zlen (Host.random_payload rd k)) 0 true false 0 ttl 6 0 (member_ip l i) dst)
    (BufferList.of_string (Host.random_payload rd k)).

Lemma probe_ok l i dst ttl k :
  0 <= member_ip l i < two32 -> 0 <= dst < two32 -> 0 <= ttl < two8 -> IPv4Datagram.ok (probe l i dst ttl k).
Proof.
  intros Hsrc Hdst Httl. pose proof (payload_length k) as Hp. unfold IPv4Datagram.ok, probe.
  cbn [IPv4Datagram._header IPv4Datagram._payload IPv4Header.len IPv4Header.hlen].
  rewrite bufferlist_of_string by lia. split; [|split; [|lia]].
  - unfold IPv4Header.ok. revert Hp. generalize (zlen (Host.random_payload rd k)). intros n Hp. simpl. lia.
  - split; [|rewrite bufferlist_of_string by lia; lia]. apply Forall_singleton, buffer_of_string_wf. lia.
Qed.

Lemma set_interface_at M l i m x x' :
  shape M -> M !! l = Some m -> m !! i = Some x -> (0 < i)%nat ->
  Network.set_host (assemble c M) (host_name l i) (host_with (rs_expected c) l i x') =
  assemble c (<[l := <[i := x']> m]> M).
Proof.
  intros HM Hl Hi H0. generalize Hl Hi. pattern l, i.
  eapply (host_cases _ M l i m x); [done|done|done|done|..]; clear l i H0 Hl Hi;
    destruct (shape_inv M HM) as (? & ? & ? & ? & ? & ? & ? & ? & ? & ? & ? & ->);
    intros [= <-] [= <-]; reflexivity.
Qed.

(** A host: its link, its place there, and what is on the other side of the link. *)
Record is_host (M : list (list AsyncNetworkInterface.t)) (l i : nat) (m : list AsyncNetworkInterface.t)
  (x : AsyncNetworkInterface.t) : Prop := {
  ih_link : M !! l = Some m;
  ih_member : m !! i = Some x;
  ih_pos : i <> 0%nat
}.

Lemma owns_member l i : is_Some (owns l !! i) -> owns l !! i = Some (member_ip l i).
Proof. intros [own H]. unfold member_ip. fold (owns l). rewrite H. f_equal. symmetry. by apply nth_lookup_Some. Qed.

Lemma host_owns M l i m x : shape M -> is_host M l i m x -> owns l !! i = Some (member_ip l i).
Proof.
  intros HM [Hl Hi Hp]. apply owns_member. apply lookup_lt_is_Some_2.
  rewrite <- (proj2 (shape_lookup M l m HM Hl)). by eapply lookup_lt_Some.
Qed.

Lemma member_range l i : is_Some (owns l !! i) -> 0 <= member_ip l i < two32.
Proof.
  intros H. destruct (neighbours_some l i (member_ip l i) (owns_member l i H)) as [e He]. by eapply neighbours_host.
Qed.

(** [send_to] at a host whose next hop is the router. *)
Lemma send_from_ok M l i m x dst ttl k :
  calm M -> is_host M l i m x -> l <> 0%nat -> l <> 3%nat -> 0 <= dst < two32 -> 0 <= ttl < two8 ->
  exists M' j, Network.send_from rd (assemble c M) (host_name l i) (ipv4_address dst) ttl k =
      Ok (probe l i dst ttl k, assemble c M', S k) /\
    (j <= 3)%nat /\ busy l j i 0 (probe l i dst ttl k) M'.
Proof.
  intros [HM Hq] Hh Hl0 Hl3 Hdst Httl. pose proof (host_owns M l i m x HM Hh) as Hoi. destruct Hh as [Hl Hi Hp].
  destruct (shape_lookup M l m HM Hl) as [Hlt _]. pose proof (owns_head l Hlt) as Ho0%owns_member.
  pose proof (member_range l i ltac:(eauto)) as Hri. pose proof (member_range l 0 ltac:(eauto)) as Hr0.
  pose proof (probe_ok l i dst ttl k Hri Hdst Httl) as Hok.
  assert (Hhop : host_hop l = member_ip l 0) by (unfold host_hop; rewrite decide_False; [done|lia]).
  destruct (phase_start (neighbours l) (owns l) i 0 (probe l i dst ttl k) (fun _ => []) m x
    (ipv4_address (host_hop l)) (member_ip l i) (member_ip l 0)) as (n' & Hsend & j & Hj & Hph); try done.
  { by apply Hq. }
  { by eapply neighbours_some. }
  { rewrite Hhop. by apply ipv4_numeric_of. }
  exists (<[l := <[i := AsyncNetworkInterface.mk n' (queue_at x)]> m]> M), j. split; [|split; [lia|]].
  - unfold Network.send_from. rewrite (host_at c M l i m x HM Hl Hi) by lia. cbn [mbind outcome_bind].
    unfold Host.send_to. cbn [host_with Host._my_address Host._interface Host._next_hop].
    rewrite !ipv4_numeric_of by done. cbn [mbind outcome_bind]. cbv zeta.
    assert (Hd : IPv4Datagram.mk (IPv4Header.set_ttl (IPv4Header.set_len (IPv4Header.set_dst (IPv4Header.set_src IPv4Header.make (member_ip l i)) dst)
      (u16 (IPv4Header.hlen (IPv4Header.set_dst (IPv4Header.set_src IPv4Header.make (member_ip l i)) dst) * 4 +
         BufferList.size (BufferList.of_string (Host.random_payload rd k))))) ttl) (BufferList.of_string (Host.random_payload rd k)) =
      probe l i dst ttl k).
    { unfold probe. pose proof (payload_length k). rewrite bufferlist_size by (rewrite bufferlist_of_string by lia; lia).
      rewrite bufferlist_of_string by lia. change (IPv4Header.hlen _ * 4) with 20. by rewrite u16_small by lia. }
    rewrite Hd. unfold AsyncNetworkInterface.send_datagram. rewrite Hsend. cbn [mbind outcome_bind].
    rewrite <- (set_interface_at M l i m x) by (done || lia). done.
  - split; [|split].
    + unfold shape. rewrite list_fmap_insert, length_insert, list_insert_id; [done|]. by rewrite list_lookup_fmap, Hl.
    + eexists. split; [apply list_lookup_insert_eq; by eapply lookup_lt_Some|done].
    + intros l' m' Hne. rewrite list_lookup_insert_ne by done. apply Hq.
Qed.

Lemma rest_expected e : rest_ok (set_expected c e).
Proof. by destruct c_ok. Qed.

Lemma expect_ok M l i m x d :
  shape M -> is_host M l i m x ->
  Network.expect_at (assemble c M) (host_name l i) d =
  Ok (assemble (set_expected c (update2 nothing l i [d])) M).
Proof.
  intros HM [Hl Hi Hp]. unfold Network.expect_at. rewrite (host_at c M l i m x HM Hl Hi) by lia.
  cbn [mbind outcome_bind]. unfold Host.expect, Host.set_expecting. cbn [host_with Host._name Host._my_address
    Host._interface Host._next_hop Host._expecting_to_receive].
  rewrite (set_host_at c M l i m x) by (done || lia). rewrite c_nothing.
  rewrite (list_insert_id m i x Hi), (list_insert_id M l m Hl). done.
Qed.

(** The checks after a delivery. *)
Lemma check_delivery M l y d d' m x :
  busy l 0 0 y d' M -> is_host M l y m x -> same d' d -> IPv4Datagram.ok d ->
  Network.check_hosts R (map_to_list (Network._hosts (assemble (set_expected c (update2 nothing l y [d])) M))).*1
    (assemble (set_expected c (update2 nothing l y [d])) M) = Ok (assemble c (settle M)) /\ calm (settle M).
Proof.
  intros (HM & (m0 & Hm0 & d2 & Hs2 & Hok2 & Hi2) & Hq) Hh Hs Hd. split.
  - rewrite check_all; [|done|].
    { do 2 f_equal. unfold set_expected. simpl. rewrite <- c_nothing. by destruct c. }
    intros l' i m' x' Hl' Hx' Hne. cbn [set_expected rs_expected].
    pose proof (host_owns M l' i m' x' HM ltac:(by split)) as Ho. unfold update2.
    destruct (decide (l' = l)) as [->|Hll].
    + assert (m' = m0) as -> by congruence. destruct (proj2 Hi2 i x' _ Hx' Ho) as [_ Hqi].
      unfold only in Hqi. simpl in Hqi. destruct (decide (i = y)) as [->|Hiy].
      * apply (check_matching R _ d2 d); try done; [|by etrans]. simpl. by rewrite decide_True.
      * apply check_empty; [done|]. simpl. by rewrite decide_False by tauto.
    + apply check_empty; [|simpl; by rewrite decide_False by tauto].
      exact (proj2 (proj2 (Hq l' m' Hll Hl') i x' _ Hx' Ho)).
  - apply settle_calm; [done|]. intros l' m' Hl'. destruct (decide (l' = l)) as [->|Hll].
    + assert (m' = m0) as -> by congruence. eexists. split; [exact Hi2|]. unfold only. simpl.
      rewrite decide_False; [done|]. intros <-. by destruct Hh.
    + exists (fun _ => []). split; [by apply (Hq l')|done].
Qed.

Lemma is_host_lookup M l i : shape M -> is_Some (owns l !! i) -> i <> 0%nat -> exists m x, is_host M l i m x.
Proof.
  intros HM [own Ho] Hi. destruct (lookup_lt_is_Some_2 M l) as [m Hm].
  { apply (f_equal length) in HM. rewrite length_fmap in HM. rewrite HM.
    destruct (decide (l < 5)%nat) as [|Hge]; [done|]. unfold owns in Ho.
    rewrite nth_overflow in Ho by (simpl; lia). done. }
  destruct (lookup_lt_is_Some_2 m i) as [x Hx].
  { rewrite (proj2 (shape_lookup M l m HM Hm)). by eapply lookup_lt_Some. }
  by exists m, x.
Qed.

Lemma owns_link l i : is_Some (owns l !! i) -> (l < 5)%nat.
Proof.
  intros [own Ho]. destruct (decide (l < 5)%nat) as [|Hge]; [done|]. unfold owns in Ho.
  by rewrite nth_overflow in Ho by (simpl; lia).
Qed.

(** A test of a delivery succeeds. *)
Lemma test_delivery_ok M l1 s l2 y dst sp k :
  calm M -> l1 <> 0%nat -> l1 <> 3%nat -> s <> 0%nat -> y <> 0%nat -> is_Some (owns l1 !! s) ->
  0 <= dst < two32 -> lpm net_routes dst = Some sp -> rs_num sp = Z.of_nat (router_port l2) ->
  owns l2 !! y = Some (next_hop_ip sp dst) ->
  exists M', Network.test_delivery rd R (assemble c M) (host_name l1 s) (ipv4_address dst) (host_name l2 y) k =
      Ok (assemble c M', S k) /\ calm M'.
Proof.
  intros HM Hl0 Hl3 Hs Hy Hos Hdst Hlpm Hnum Hhop. pose proof (owns_link l1 s Hos) as Hl1.
  pose proof (owns_link l2 y ltac:(eauto)) as Hl2.
  destruct (is_host_lookup M l1 s (proj1 HM) Hos Hs) as (m & x & Hh).
  destruct (send_from_ok M l1 s m x dst 64 k HM Hh Hl0 Hl3 Hdst ltac:(lia)) as (M1 & j & Hsend & Hj & Hb).
  set (d := probe l1 s dst 64 k) in *.
  assert (Hd : IPv4Datagram.ok d) by (apply probe_ok; [by apply member_range|done|lia]).
  unfold Network.test_delivery. rewrite Hsend. cbn [mbind outcome_bind].
  destruct (is_host_lookup M1 l2 y (proj1 Hb) ltac:(eauto) Hy) as (m2 & x2 & Hh2).
  rewrite (expect_ok M1 l2 y m2 x2 _ (proj1 Hb) Hh2). cbn [mbind outcome_bind].
  change (decrement_ttl d) with (decremented d). set (c' := set_expected c _).
  destruct (journey_ok l1 j s l2 y d M1 c' sp) as (M2 & d' & Hr & Hs' & Hb2); try done; [apply rest_expected|].
  unfold Network.simulate. rewrite Hr. cbn [mbind outcome_bind].
  destruct (is_host_lookup M2 l2 y (proj1 Hb2) ltac:(eauto) Hy) as (m3 & x3 & Hh3).
  destruct (check_delivery M2 l2 y (decremented d) d' m3 x3 Hb2 Hh3 Hs' (decremented_ok d Hd ltac:(done))) as [Hc Hcalm].
  unfold c'. rewrite Hc. cbn [mbind outcome_bind]. by exists (settle M2).
Qed.

(** A test of an expiry succeeds. *)
Lemma test_expiry_ok M l s address dst ttl k :
  calm M -> l <> 0%nat -> l <> 3%nat -> s <> 0%nat -> is_Some (owns l !! s) -> 0 <= dst < two32 -> 0 <= ttl <= 1 ->
  Address.of_ip R address 0 = Ok (ipv4_address dst) ->
  exists M', Network.test_expiry rd R (assemble c M) (host_name l s) address ttl k = Ok (assemble c M', S k) /\ calm M'.
Proof.
  intros HM Hl0 Hl3 Hs Hos Hdst Httl Hip. pose proof (owns_link l s Hos) as Hl.
  destruct (is_host_lookup M l s (proj1 HM) Hos Hs) as (m & x & Hh).
  destruct (send_from_ok M l s m x dst ttl k HM Hh Hl0 Hl3 Hdst ltac:(lia)) as (M1 & j & Hsend & Hj & Hb).
  unfold Network.test_expiry. rewrite Hip. cbn [mbind outcome_bind]. rewrite Hsend. cbn [mbind outcome_bind].
  destruct (journey_expires l j s (probe l s dst ttl k) M1 c) as (M2 & Hr & Hcalm); try done;
    [apply probe_ok; [by apply member_range|done|lia]|simpl; lia|].
  unfold Network.simulate. rewrite Hr. cbn [mbind outcome_bind].
  rewrite check_all; [|apply Hcalm|].
  - cbn [mbind outcome_bind]. exists (settle M2). split.
    + do 3 f_equal. unfold set_expected. rewrite <- c_nothing. by destruct c.
    + apply settle_calm; [apply Hcalm|]. intros l' m' Hl'. exists (fun _ => []). split; [by apply Hcalm|done].
  - intros l' i m' x' Hl' Hx' Hne. pose proof (host_owns M2 l' i m' x' (proj1 Hcalm) ltac:(by split)) as Ho.
    apply check_empty; [|simpl; by rewrite c_nothing].
    exact (proj2 (proj2 (proj2 Hcalm l' m' Hl') i x' _ Hx' Ho)).
Qed.

End tests.

End network.

(** ** The network the constructor builds *)

Section simulation.

Context (rd : nat -> Z) (R : Address.Resolver) `{!NumericResolver R}.

(** Addresses are written in dotted notation, and a single number is an address as well. *)
Context (ntoa_dotted : forall ip, Address.inet_ntoa R ip = dotted ip).
Context (zero_address : Address.of_ip R "0" 0 = Ok (ipv4_address 0)).

Definition router_mac (k : nat) : EthernetAddress := fst (random_router_ethernet_address rd k).
Definition host_mac (k : nat) : EthernetAddress := fst (random_host_ethernet_address rd k).

(** The addresses drawn, link by link. *)
Definition link_macs : list (list EthernetAddress) :=
  [[router_mac 0; host_mac 48]; [router_mac 6; host_mac 42]; [router_mac 18; host_mac 54];
   [router_mac 30; host_mac 60]; [router_mac 24; host_mac 66; host_mac 72]].

Definition fresh (eth : EthernetAddress) (ip : Z) : AsyncNetworkInterface.t :=
  AsyncNetworkInterface.of_interface (NetworkInterface.make eth (ipv4_address ip)).

Definition net_table : gmap (Z * Z) (Z * option Address.t) :=
  match add_routes Router.make net_routes with Ok r => Router.table_ r | _ => ∅ end.

Definition start_rest : rest := Rest (fresh (router_mac 12) 2886729729) (fresh (router_mac 36) 2149469439) net_table nothing.

Definition start_links : list (list AsyncNetworkInterface.t) := zip_with (zip_with fresh) link_macs link_ips.

Lemma of_text s ip : s = dotted ip -> 0 <= ip < two32 -> Address.of_ip R s 0 = Ok (ipv4_address ip).
Proof. intros -> Hip. rewrite <- ntoa_dotted. apply of_ip_numeric; [done|done|lia]. Qed.

Lemma make_ok : Network.make rd R 0 = Ok (assemble start_rest start_links, 78%nat).
Proof.
  cbv beta delta [Network.make Network.add_router_interface Network.insert_host Network.add_network_route ip].
  rewrite zero_address.
  rewrite (of_text "171.67.76.46" 2873314350) by (done || lia).
  rewrite (of_text "171.67.76.1" 2873314305) by (done || lia).
  rewrite (of_text "10.0.0.1" 167772161) by (done || lia).
  rewrite (of_text "10.0.0.2" 167772162) by (done || lia).
  rewrite (of_text "172.16.0.1" 2886729729) by (done || lia).
  rewrite (of_text "192.168.0.1" 3232235521) by (done || lia).
  rewrite (of_text "192.168.0.2" 3232235522) by (done || lia).
  rewrite (of_text "198.178.229.1" 3333612801) by (done || lia).
  rewrite (of_text "198.178.229.42" 3333612842) by (done || lia).
  rewrite (of_text "198.178.229.43" 3333612843) by (done || lia).
  rewrite (of_text "143.195.0.2" 2411921410) by (done || lia).
  rewrite (of_text "143.195.0.1" 2411921409) by (done || lia).
  rewrite (of_text "128.30.76.255" 2149469439) by (done || lia).
  rewrite (of_text "128.30.0.1" 2149449729) by (done || lia).
  rewrite (of_text "0.0.0.0" 0) by (done || lia).
  rewrite (of_text "10.0.0.0" 167772160) by (done || lia).
  rewrite (of_text "172.16.0.0" 2886729728) by (done || lia).
  rewrite (of_text "192.168.0.0" 3232235520) by (done || lia).
  rewrite (of_text "198.178.229.0" 3333612800) by (done || lia).
  rewrite (of_text "143.195.0.0" 2411921408) by (done || lia).
  rewrite (of_text "143.195.128.0" 2411954176) by (done || lia).
  rewrite (of_text "143.195.192.0" 2411970560) by (done || lia).
  reflexivity.
Qed.

Lemma random_address_byte b : 0 <= b < two8 -> 0 < Z.land (Z.lor b 2) 254 < 255.
Proof.
  intros Hb. assert (H : Forall (fun b => 0 < Z.land (Z.lor b 2) 254 < 255) (seqZ 0 256)).
  { apply Forall_forall. intros z Hz. pattern z. revert z Hz. apply Forall_forall. by repeat constructor. }
  rewrite Forall_forall in H. apply H. apply elem_of_seqZ. lia.
Qed.

Lemma random_bytes_ok k : addr_ok (random_bytes rd k).
Proof. split; [done|]. unfold random_bytes. apply Forall_fmap, Forall_true. intros i. apply u8_range. Qed.

Lemma router_mac_ok k :
  addr_ok (router_mac k) /\ router_mac k <> EMPTY_ADDRESS /\ router_mac k <> ETHERNET_BROADCAST.
Proof.
  split; [|done]. split; [done|]. unfold router_mac, random_router_ethernet_address. cbn [fst].
  repeat (apply Forall_insert; [|done]). apply random_bytes_ok.
Qed.

Lemma host_mac_ok k : addr_ok (host_mac k) /\ host_mac k <> EMPTY_ADDRESS /\ host_mac k <> ETHERNET_BROADCAST.
Proof.
  destruct (random_bytes_ok k) as [_ Hb]. unfold host_mac, random_host_ethernet_address. cbn [fst].
  destruct (random_bytes rd k) as [|b l] eqn:E; [done|]. apply Forall_cons in Hb as [Hb Hl].
  assert (Hlen : length (b :: l) = 6%nat) by (by rewrite <- E). simpl. pose proof (random_address_byte b Hb).
  split; [|split; intros [= ? ?]; lia]. split; [done|]. constructor; [lia|done].
Qed.

Lemma link_macs_ok : Forall (Forall (fun e => addr_ok e /\ e <> EMPTY_ADDRESS /\ e <> ETHERNET_BROADCAST)) link_macs.
Proof. unfold link_macs. repeat apply Forall_cons_2; auto using router_mac_ok, host_mac_ok. Qed.

Lemma fresh_unlinked k ip : 0 <= ip < two32 -> unlinked (fresh (router_mac k) ip).
Proof. intros Hip. split; [|done]. exists ip. apply ni_make_wf; [apply router_mac_ok|done]. Qed.

Lemma start_rest_ok : rest_ok start_rest.
Proof.
  split; [|by apply fresh_unlinked..]. intros ifs key. cbn [Router.table_ start_rest rs_table]. unfold net_table.
  destruct (add_routes_ok Router.make net_routes net_routes_ok) as (r & -> & _ & Ht). apply Ht.
Qed.

Lemma start_calm : calm link_macs start_links.
Proof.
  split; [done|]. intros l m Hl. unfold start_links in Hl. rewrite lookup_zip_with_Some in Hl.
  destruct Hl as (es & ips & -> & Hes & Hips).
  assert (Eo : owns l = ips) by (unfold owns; by apply nth_lookup_Some).
  assert (Em : nth l link_macs [] = es) by (by apply nth_lookup_Some).
  pose proof (macs_length link_macs eq_refl l) as Hlen. rewrite Em, Eo in Hlen.
  split; [rewrite length_zip_with, Eo; lia|]. intros i x own Hx Ho. rewrite Eo in Ho.
  apply lookup_zip_with_Some in Hx as (e & ip & -> & He & Hi). assert (ip = own) as -> by congruence.
  assert (HK : neighbours link_macs l own = Some e) by (apply neighbours_inv; [done|]; exists i; by rewrite Eo, Em).
  destruct (neighbours_host link_macs eq_refl link_macs_ok l own e HK) as (Hr & Ha & _).
  split; [|done]. split; try done; [by apply ni_make_wf|]. by intros ip' [? ?].
Qed.

Context (rd_range : forall k, 0 <= rd k < two32) (macs_distinct : Forall NoDup link_macs).

(** The tests on the network that was built. *)
Lemma to_address_ok M l1 s l2 y text dst sp k :
  calm link_macs M -> l1 <> 0%nat -> l1 <> 3%nat -> s <> 0%nat -> y <> 0%nat -> is_Some (owns l1 !! s) ->
  text = dotted dst -> 0 <= dst < two32 -> lpm net_routes dst = Some sp -> rs_num sp = Z.of_nat (router_port l2) ->
  owns l2 !! y = Some (next_hop_ip sp dst) ->
  exists M', Network.test_to_address rd R (assemble start_rest M) (host_name l1 s) text (host_name l2 y) k =
      Ok (assemble start_rest M', S k) /\ calm link_macs M'.
Proof.
  intros HM Hl0 Hl3 Hs Hy Hos Htext Hdst Hlpm Hnum Hhop. unfold Network.test_to_address.
  rewrite (of_text text dst) by done. cbn [mbind outcome_bind].
  by eapply (test_delivery_ok link_macs eq_refl macs_distinct link_macs_ok rd R rd_range start_rest start_rest_ok eq_refl).
Qed.

Lemma to_host_ok M l1 s l2 y sp k :
  calm link_macs M -> l1 <> 0%nat -> l1 <> 3%nat -> s <> 0%nat -> y <> 0%nat -> is_Some (owns l1 !! s) ->
  lpm net_routes (member_ip l2 y) = Some sp -> rs_num sp = Z.of_nat (router_port l2) ->
  owns l2 !! y = Some (member_ip l2 y) -> next_hop_ip sp (member_ip l2 y) = member_ip l2 y ->
  exists M', Network.test_to_host rd R (assemble start_rest M) (host_name l1 s) (host_name l2 y) k =
      Ok (assemble start_rest M', S k) /\ calm link_macs M'.
Proof.
  intros HM Hl0 Hl3 Hs Hy Hos Hlpm Hnum Hown Hhop. unfold Network.test_to_host.
  destruct (is_host_lookup M l2 y (proj1 HM) ltac:(eauto) Hy) as (m & x & Hh). destruct Hh as [Hl Hi _].
  rewrite (host_at start_rest M l2 y m x (proj1 HM) Hl Hi) by lia. cbn [mbind outcome_bind].
  eapply (test_delivery_ok link_macs eq_refl macs_distinct link_macs_ok rd R rd_range start_rest start_rest_ok eq_refl);
    try done; [|by rewrite Hhop].
  destruct (neighbours_some link_macs eq_refl l2 y _ Hown) as [e He].
  by eapply (neighbours_host link_macs eq_refl link_macs_ok).
Qed.

Lemma expiry_ok M l s text dst ttl k :
  calm link_macs M -> l <> 0%nat -> l <> 3%nat -> s <> 0%nat -> is_Some (owns l !! s) ->
  text = dotted dst -> 0 <= dst < two32 -> 0 <= ttl <= 1 ->
  exists M', Network.test_expiry rd R (assemble start_rest M) (host_name l s) text ttl k =
      Ok (assemble start_rest M', S k) /\ calm link_macs M'.
Proof.
  intros HM Hl0 Hl3 Hs Hos Htext Hdst Httl.
  by eapply (test_expiry_ok link_macs eq_refl macs_distinct link_macs_ok rd R rd_range start_rest start_rest_ok eq_refl);
    eauto using of_text.
Qed.

End simulation.

(** The facts about a test that are computed. *)
Ltac closed_facts := first [reflexivity | discriminate | (eexists; reflexivity) | (split; [discriminate|reflexivity || discriminate])].

Lemma bind_pair_ok {A B C} (P : outcome C -> Prop) (m : outcome (A * B)) (f : A -> B -> outcome C) a b :
  m = Ok (a, b) -> P (f a b) -> P (m ≫= fun '(x, y) => f x y).
Proof. by intros ->. Qed.

(** All tests succeed and leave the network calm, with [k] draws made. *)
Definition succeeds (rd : nat -> Z) (k : nat) (r : outcome (Network.t * nat)) : Prop :=
  exists M, r = Ok (assemble (start_rest rd) M, k) /\ calm (link_macs rd) M.

(** One test, by its lemma. *)
Ltac next_test H :=
  let M := fresh "M" in let E := fresh "E" in let Hc := fresh "Hcalm" in
  destruct H as (M & E & Hc); [eassumption || apply start_calm|closed_facts..|];
  refine (bind_pair_ok (succeeds _ _) _ _ _ _ E _); clear E; cbv beta.

Lemma simulation_ok (rd : nat -> Z) (R : Address.Resolver) (HR : NumericResolver R) :
  (forall ip, Address.inet_ntoa R ip = dotted ip) -> Address.of_ip R "0" 0 = Ok (ipv4_address 0) ->
  (forall k, 0 <= rd k < two32) -> Forall NoDup (link_macs rd) ->
  succeeds rd 88 (Network.network_simulator rd R).
Proof.
  intros Hntoa Hzero Hrd Hmacs. unfold Network.network_simulator.
  refine (bind_pair_ok (succeeds _ _) _ _ _ _ (make_ok rd R Hntoa Hzero) _). cbv beta.
  next_test (to_host_ok rd R Hrd Hmacs (start_links rd) 1 1 2 1 (Route 3232235520 24 None 3) 78).
  next_test (to_host_ok rd R Hrd Hmacs M 2 1 1 1 (Route 167772160 8 None 1) 79).
  next_test (to_address_ok rd R Hntoa Hrd Hmacs M0 1 1 0 1 "1.2.3.4" 16909060 (Route 0 0 (Some (ipv4_address 2873314305)) 0) 80).
  next_test (to_address_ok rd R Hntoa Hrd Hmacs M1 1 1 3 1 "143.195.131.17" 2411954961 (Route 2411954176 18 (Some (ipv4_address 2411921409)) 5) 81).
  next_test (to_address_ok rd R Hntoa Hrd Hmacs M2 2 1 3 1 "143.195.193.52" 2411970868 (Route 2411970560 19 (Some (ipv4_address 2411921409)) 5) 82).
  next_test (to_address_ok rd R Hntoa Hrd Hmacs M3 2 1 3 1 "143.195.223.255" 2411978751 (Route 2411970560 19 (Some (ipv4_address 2411921409)) 5) 83).
  next_test (to_address_ok rd R Hntoa Hrd Hmacs M4 2 1 0 1 "143.195.224.0" 2411978752 (Route 0 0 (Some (ipv4_address 2873314305)) 0) 84).
  next_test (to_host_ok rd R Hrd Hmacs M5 4 1 4 2 (Route 3333612800 24 None 4) 85).
  next_test (expiry_ok rd R Hntoa Hrd Hmacs M6 1 1 "1.2.3.4" 16909060 1 86).
  destruct (expiry_ok rd R Hntoa Hrd Hmacs M7 1 1 "1.2.3.4" 16909060 0 87) as (M8 & E & Hc); [done|closed_facts..|].
  exists M8. split; [exact E|exact Hc].
Qed.

(** ** Properties *)

(** The checks of a host are exact: [check] returns, with nothing received and nothing expected
    left, if the datagrams received are on the wire the ones expected, in any order and each as
    often as expected, and it throws if they are not. *)
Theorem host_check_correct (R : Address.Resolver) (h : Host.t)
  (Hr : Forall IPv4Datagram.ok (AsyncNetworkInterface.datagrams_out (Host.interface h)))
  (He : Forall IPv4Datagram.ok (Host._expecting_to_receive h)) :
  if decide (wire_bytes <$> AsyncNetworkInterface.datagrams_out (Host.interface h) ≡ₚ
             wire_bytes <$> Host._expecting_to_receive h)
  then Host.check R h = Ok (settled_host h)
  else exists msg, Host.check R h = Throw (runtime_error msg).
Proof.
  destruct (check_ok R h Hr He) as [[Hp Hc]|[Hp Hc]].
  - by rewrite decide_True.
  - by rewrite decide_False.
Qed.

Definition sample_host : Host.t :=
  Host.mk "cherrypie" (ipv4_address neighbour_ip)
    (AsyncNetworkInterface.mk sample_interface [sample_datagram; sample_datagram]) (ipv4_address sample_ip)
    [sample_datagram].

Lemma host_check_correct_witness :
  exists msg, Host.check numeric_resolver sample_host = Throw (runtime_error msg).
Proof.
  pose proof (host_check_correct numeric_resolver sample_host) as H.
  rewrite decide_False in H by (intros Hp%Permutation_length; discriminate Hp).
  apply H; repeat apply Forall_cons_2; (apply sample_datagram_ok || apply Forall_nil_2; exact I).
Defined.

(** C6. The simulation succeeds whatever the random generator draws, as long as no two interfaces
    on a link get the same Ethernet address: every datagram of the ten tests crosses the links
    and the router, with ARP requests where addresses are not known, and reaches exactly the
    host that expects it, with its time to live decremented once; the two that must expire
    reach nobody. *)
Theorem network_simulation_succeeds (rd : nat -> Z) (R : Address.Resolver) (HR : NumericResolver R)
  (Hntoa : forall ip, Address.inet_ntoa R ip = dotted ip)
  (Hzero : Address.of_ip R "0" 0 = Ok (ipv4_address 0))
  (Hrd : forall k, 0 <= rd k < two32) (Hmacs : Forall NoDup (link_macs rd)) :
  Network.main rd R = Ok 0.
Proof.
  destruct (simulation_ok rd R HR Hntoa Hzero Hrd Hmacs) as (M & E & _). unfold Network.main. by rewrite E.
Qed.


(** A generator for the witness. *)
Definition sample_rd (k : nat) : Z := (Z.of_nat k * 2654435761 + 12345) mod two32.

Lemma network_simulation_succeeds_witness :
  (forall k, 0 <= sample_rd k < two32) /\ Forall NoDup (link_macs sample_rd) /\
  Network.main sample_rd numeric_resolver = Ok 0.
Proof.
  assert (Hr : forall k, 0 <= sample_rd k < two32) by (intros k; apply Z.mod_pos_bound; done).
  assert (Hm : Forall NoDup (link_macs sample_rd)) by (apply (bool_decide_unpack _); vm_compute; exact I).
  split; [exact Hr|]. split; [exact Hm|].
  apply (network_simulation_succeeds sample_rd numeric_resolver numeric_resolver_ok); [done|reflexivity|exact Hr|exact Hm].
Defined.
