(* ===== verification/Adapters.v ===== *)
(** * Adapters.v: TCP segments in datagrams

    Models [libsponge/tcp_helpers/fd_adapter.hh], [fd_adapter.cc], [tcp_over_ip.hh],
    [tcp_over_ip.cc], [lossy_fd_adapter.hh], [tuntap_adapter.hh], [tuntap_adapter.cc] and
    [FdAdapterConfig] of [tcp_config.hh].  What a device returns from a read is an argument
    and what goes to it a result.  The name functions of the C library are the [Resolver] of
    Addresses.v; the random generator of the lossy adapter is a parameter. *)

From S2P Require Import Prelude Wrapping Buffers Parsing TcpWire IpWire EtherWire Addresses NetIf.

Module FdAdapterConfig.

Record t := mk {
  source : Address.t;
  destination : Address.t;
  loss_rate_dn : Z;
  loss_rate_up : Z
}.

Definition make (R : Address.Resolver) : outcome t :=
  source ← Address.of_ip R "0" 0;
  destination ← Address.of_ip R "0" 0;
  Ok (mk source destination 0 0).

Definition set_source (c : t) v : t := mk v (destination c) (loss_rate_dn c) (loss_rate_up c).
Definition set_destination (c : t) v : t := mk (source c) v (loss_rate_dn c) (loss_rate_up c).

End FdAdapterConfig.

Module FdAdapterBase.

Record t := mk {
  _cfg : FdAdapterConfig.t;
  _listen : bool
}.

Definition make (R : Address.Resolver) : outcome t := cfg ← FdAdapterConfig.make R; Ok (mk cfg false).
Definition set_listening (a : t) (l : bool) : t := mk (_cfg a) l.
Definition listening (a : t) : bool := _listen a.
Definition config (a : t) : FdAdapterConfig.t := _cfg a.
Definition set_config (a : t) (c : FdAdapterConfig.t) : t := mk c (_listen a).
Definition tick (a : t) (ms : Z) : t := a.

End FdAdapterBase.

(** What [LossyFdAdapter] needs of the adapter it wraps: [IN] is what a read gets from the
    device, [OUT] what a write gives to it. *)
Class FdAdapter (A IN OUT : Type) := {
  fd_read : A -> IN -> outcome (A * option TCPSegment.t);
  fd_write : A -> TCPSegment.t -> outcome (A * TCPSegment.t * OUT);
  fd_base : A -> FdAdapterBase.t
}.

Definition set_ports (R : Address.Resolver) (c : FdAdapterConfig.t) (seg : TCPSegment.t) : outcome TCPSegment.t :=
  sport ← Address.port R (FdAdapterConfig.source c);
  let seg := TCPSegment.set_header seg (TCPHeader.set_sport (TCPSegment.header seg) sport) in
  dport ← Address.port R (FdAdapterConfig.destination c);
  Ok (TCPSegment.set_header seg (TCPHeader.set_dport (TCPSegment.header seg) dport)).

(** ** TCP over UDP *)

Module TCPOverUDPSocketAdapter.

Section with_resolver.

Variable R : Address.Resolver.

(** [read], given the datagram [_sock.recv()] returned. *)
Definition read (a : FdAdapterBase.t) (datagram : Address.t * list byte)
  : outcome (FdAdapterBase.t * option TCPSegment.t) :=
  let '(source_address, payload) := datagram in
  if negb (FdAdapterBase.listening a) &&
     negb (Address.eqb source_address (FdAdapterConfig.destination (FdAdapterBase.config a)))
  then Ok (a, None)
  else
    '(r, seg) ← TCPSegment.parse TCPSegment.make (Buffer.of_string payload) 0;
    if negb (bool_decide (NoError = r)) then Ok (a, None)
    else if FdAdapterBase.listening a then
      if TCPHeader.syn (TCPSegment.header seg) && negb (TCPHeader.rst (TCPSegment.header seg)) then
        let a := FdAdapterBase.set_config a
          (FdAdapterConfig.set_destination (FdAdapterBase.config a) source_address) in
        Ok (FdAdapterBase.set_listening a false, Some seg)
      else Ok (a, None)
    else Ok (a, Some seg).

(** [write]: the segment with its ports set, and the arguments of [_sock.sendto]. *)
Definition write (a : FdAdapterBase.t) (seg : TCPSegment.t)
  : outcome (FdAdapterBase.t * TCPSegment.t * (Address.t * BufferList.t)) :=
  seg ← set_ports R (FdAdapterBase.config a) seg;
  out ← TCPSegment.serialize seg 0;
  Ok (a, seg, (FdAdapterConfig.destination (FdAdapterBase.config a), out)).

End with_resolver.

End TCPOverUDPSocketAdapter.

(** ** TCP over IPv4 *)

Module TCPOverIPv4Adapter.

Section with_resolver.

Variable R : Address.Resolver.

Definition unwrap_tcp_in_ip (a : FdAdapterBase.t) (ip_dgram : IPv4Datagram.t)
  : outcome (FdAdapterBase.t * option TCPSegment.t) :=
  let h := IPv4Datagram.header ip_dgram in
  let listening := FdAdapterBase.listening a in
  let cfg := FdAdapterBase.config a in
  to_us ← (if negb listening then
             n ← Address.ipv4_numeric (FdAdapterConfig.source cfg); Ok (IPv4Header.dst h =? n)
           else Ok true);
  if negb to_us then Ok (a, None) else
  from_peer ← (if negb listening then
                 n ← Address.ipv4_numeric (FdAdapterConfig.destination cfg); Ok (IPv4Header.src h =? n)
               else Ok true);
  if negb from_peer then Ok (a, None) else
  if negb (IPv4Header.proto h =? IPv4Header.PROTO_TCP) then Ok (a, None) else
  b ← BufferList.to_buffer (IPv4Datagram.payload ip_dgram);
  '(r, tcp_seg) ← TCPSegment.parse TCPSegment.make b (IPv4Header.pseudo_cksum h);
  if negb (bool_decide (NoError = r)) then Ok (a, None) else
  let th := TCPSegment.header tcp_seg in
  port ← Address.port R (FdAdapterConfig.source cfg);
  if negb (TCPHeader.dport th =? port) then Ok (a, None) else
  '(a, dropped) ←
    (if listening then
       if TCPHeader.syn th && negb (TCPHeader.rst th) then
         port ← Address.port R (FdAdapterConfig.source cfg);
         source ← Address.of_ip R (Address.inet_ntoa R (IPv4Header.dst h)) port;
         destination ← Address.of_ip R (Address.inet_ntoa R (IPv4Header.src h)) (TCPHeader.sport th);
         let cfg := FdAdapterConfig.set_destination (FdAdapterConfig.set_source cfg source) destination in
         Ok (FdAdapterBase.set_listening (FdAdapterBase.set_config a cfg) false, false)
       else Ok (a, true)
     else Ok (a, false));
  if dropped : bool then Ok (a, None) else
  port ← Address.port R (FdAdapterConfig.destination (FdAdapterBase.config a));
  if negb (TCPHeader.sport th =? port) then Ok (a, None) else Ok (a, Some tcp_seg).

(** [wrap_tcp_in_ip]: the segment with its ports set, and the datagram. *)
Definition wrap_tcp_in_ip (a : FdAdapterBase.t) (seg : TCPSegment.t)
  : outcome (TCPSegment.t * IPv4Datagram.t) :=
  let cfg := FdAdapterBase.config a in
  seg ← set_ports R cfg seg;
  src ← Address.ipv4_numeric (FdAdapterConfig.source cfg);
  let h := IPv4Header.set_src IPv4Header.make src in
  dst ← Address.ipv4_numeric (FdAdapterConfig.destination cfg);
  let h := IPv4Header.set_dst h dst in
  let h := IPv4Header.set_len h (u16 (IPv4Header.hlen h * 4 + TCPHeader.doff (TCPSegment.header seg) * 4 +
                                      Buffer.size (TCPSegment.payload seg))) in
  payload ← TCPSegment.serialize seg (IPv4Header.pseudo_cksum h);
  Ok (seg, IPv4Datagram.mk h payload).

End with_resolver.

End TCPOverIPv4Adapter.

(** ** TUN device *)

Module TCPOverIPv4OverTunFdAdapter.

Section with_resolver.

Variable R : Address.Resolver.

(** [read], given what [_tun.read()] returned. *)
Definition read (a : FdAdapterBase.t) (data : list byte)
  : outcome (FdAdapterBase.t * option TCPSegment.t) :=
  '(r, ip_dgram) ← IPv4Datagram.parse IPv4Datagram.make (Buffer.of_string data);
  if negb (bool_decide (r = NoError)) then Ok (a, None)
  else TCPOverIPv4Adapter.unwrap_tcp_in_ip R a ip_dgram.

(** [write]: the segment with its ports set, and the argument of [_tun.write]. *)
Definition write (a : FdAdapterBase.t) (seg : TCPSegment.t)
  : outcome (FdAdapterBase.t * TCPSegment.t * BufferList.t) :=
  '(seg, ip_dgram) ← TCPOverIPv4Adapter.wrap_tcp_in_ip R a seg;
  out ← IPv4Datagram.serialize ip_dgram;
  Ok (a, seg, out).

End with_resolver.

End TCPOverIPv4OverTunFdAdapter.

(** ** TAP device *)

Module TCPOverIPv4OverEthernetAdapter.

Section with_resolver.

Variable R : Address.Resolver.

Record t := mk {
  base : FdAdapterBase.t;
  _interface : NetworkInterface.t;
  _next_hop : Address.t
}.

(** The loop of [send_pending]: what goes to [_tap.write], in order. *)
Definition send_pending (a : t) : t * list BufferList.t :=
  (mk (base a) (NetworkInterface.set_frames_out (_interface a) []) (_next_hop a),
   EthernetFrame.serialize <$> NetworkInterface.frames_out (_interface a)).

(** The constructor primes the device with an empty frame. *)
Definition make (eth_address : EthernetAddress) (ip_address next_hop : Address.t)
  : outcome (t * list BufferList.t) :=
  b ← FdAdapterBase.make R;
  Ok (mk b (NetworkInterface.make eth_address ip_address) next_hop,
      [EthernetFrame.serialize EthernetFrame.make]).

(** [read], given what [_tap.read()] returned. *)
Definition read (a : t) (data : list byte) : outcome (t * list BufferList.t * option TCPSegment.t) :=
  '(r, frame) ← EthernetFrame.parse EthernetFrame.make (Buffer.of_string data);
  if negb (bool_decide (r = NoError)) then Ok (a, [], None)
  else
    '(n, ip_dgram) ← NetworkInterface.recv_frame (_interface a) frame;
    let '(a, out) := send_pending (mk (base a) n (_next_hop a)) in
    match ip_dgram with
    | Some d =>
        '(b, seg) ← TCPOverIPv4Adapter.unwrap_tcp_in_ip R (base a) d;
        Ok (mk b (_interface a) (_next_hop a), out, seg)
    | None => Ok (a, out, None)
    end.

Definition tick (a : t) (ms_since_last_tick : Z) : t * list BufferList.t :=
  send_pending (mk (base a) (NetworkInterface.tick (_interface a) ms_since_last_tick) (_next_hop a)).

Definition write (a : t) (seg : TCPSegment.t) : outcome (t * TCPSegment.t * list BufferList.t) :=
  '(seg, d) ← TCPOverIPv4Adapter.wrap_tcp_in_ip R (base a) seg;
  n ← NetworkInterface.send_datagram (_interface a) d (_next_hop a);
  let '(a, out) := send_pending (mk (base a) n (_next_hop a)) in
  Ok (a, seg, out).

End with_resolver.

End TCPOverIPv4OverEthernetAdapter.

(** The adapters as instances of the interface. *)
#[export] Instance udp_fd_adapter (R : Address.Resolver) :
  FdAdapter FdAdapterBase.t (Address.t * list byte) (Address.t * BufferList.t) := {|
  fd_read := TCPOverUDPSocketAdapter.read;
  fd_write := TCPOverUDPSocketAdapter.write R;
  fd_base := fun a => a
|}.

#[export] Instance tun_fd_adapter (R : Address.Resolver) :
  FdAdapter FdAdapterBase.t (list byte) BufferList.t := {|
  fd_read := TCPOverIPv4OverTunFdAdapter.read R;
  fd_write := TCPOverIPv4OverTunFdAdapter.write R;
  fd_base := fun a => a
|}.

(** ** The lossy adapter *)

Module LossyFdAdapter.

Section lossy.

Context {A IN OUT : Type} `{!FdAdapter A IN OUT}.

(** The state of the random generator and [_rand()]. *)
Variable Rand : Type.
Variable _rand : Rand -> Z * Rand.

Record t := mk {
  rand_state : Rand;
  _adapter : A
}.

Definition _should_drop (l : t) (uplink : bool) : bool * t :=
  let cfg := FdAdapterBase.config (fd_base (_adapter l)) in
  let loss := if uplink then FdAdapterConfig.loss_rate_up cfg else FdAdapterConfig.loss_rate_dn cfg in
  if negb (loss =? 0) then
    let '(v, g) := _rand (rand_state l) in (u16 v <? loss, mk g (_adapter l))
  else (false, l).

Definition read (l : t) (i : IN) : outcome (t * option TCPSegment.t) :=
  '(a, ret) ← fd_read (_adapter l) i;
  let '(drop, l) := _should_drop (mk (rand_state l) a) false in
  if drop : bool then Ok (l, None) else Ok (l, ret).

(** [write]: nothing reaches the device, and the segment keeps its ports, if it is dropped. *)
Definition write (l : t) (seg : TCPSegment.t) : outcome (t * TCPSegment.t * option OUT) :=
  let '(drop, l) := _should_drop l true in
  if drop : bool then Ok (l, seg, None)
  else
    '(a, seg, out) ← fd_write (_adapter l) seg;
    Ok (mk (rand_state l) a, seg, Some out).

End lossy.

End LossyFdAdapter.

(** ** Lemmas *)

(** An adapter for the connection between [ip]:[port] and [ip']:[port']. *)
Definition connected (a : FdAdapterBase.t) (ip port ip' port' : Z) : Prop :=
  FdAdapterConfig.source (FdAdapterBase.config a) = inet_address ip port /\
  FdAdapterConfig.destination (FdAdapterBase.config a) = inet_address ip' port' /\
  FdAdapterBase.listening a = false.

(** An adapter that waits for a connection to a port. *)
Definition listens (a : FdAdapterBase.t) (port : Z) : Prop :=
  (exists ip, 0 <= ip < two32 /\ FdAdapterConfig.source (FdAdapterBase.config a) = inet_address ip port) /\
  FdAdapterBase.listening a = true.

Definition endpoint_ok (ip port : Z) : Prop := 0 <= ip < two32 /\ 0 <= port < two16.

(** The header with the ports of the connection. *)
Definition with_ports (sport dport : Z) (seg : TCPSegment.t) : TCPSegment.t :=
  TCPSegment.set_header seg (TCPHeader.set_dport (TCPHeader.set_sport (TCPSegment.header seg) sport) dport).

Section adapters.

Context (R : Address.Resolver) `{!NumericResolver R}.

Lemma set_ports_ok a ip port ip' port' seg :
  connected a ip port ip' port' -> endpoint_ok ip port -> endpoint_ok ip' port' ->
  set_ports R (FdAdapterBase.config a) seg = Ok (with_ports port port' seg).
Proof.
  intros (Hs & Hd & _) [??] [??]. unfold set_ports. rewrite Hs, Hd.
  rewrite !inet_address_port by done. reflexivity.
Qed.

Lemma with_ports_ok sport dport seg :
  0 <= sport < two16 -> 0 <= dport < two16 -> TCPSegment.ok seg -> TCPSegment.ok (with_ports sport dport seg).
Proof.
  intros ? ? (Hh & Hp & Hl). split; [|split; [done|exact Hl]].
  destruct Hh as (?&?&?&?&?&?&?&?). unfold TCPHeader.ok. simpl. done.
Qed.

(** The datagram a connected adapter makes of a segment, and how any peer reads it. *)
Lemma wrap_tcp_ok a ip port ip' port' seg :
  connected a ip port ip' port' -> endpoint_ok ip port -> endpoint_ok ip' port' ->
  TCPSegment.ok seg ->
  20 + 4 * TCPHeader.doff (TCPSegment.header seg) + zlen (Buffer.str (TCPSegment.payload seg)) < two16 ->
  exists d v, TCPOverIPv4Adapter.wrap_tcp_in_ip R a seg = Ok (with_ports port port' seg, d) /\
    IPv4Datagram.ok d /\ IPv4Header.src (IPv4Datagram.header d) = ip /\
    IPv4Header.dst (IPv4Datagram.header d) = ip' /\
    IPv4Header.proto (IPv4Datagram.header d) = IPv4Header.PROTO_TCP /\
    forall buf, Buffer.wf buf -> Buffer.str buf = BufferList.concatenate (IPv4Datagram.payload d) ->
      exists s', TCPSegment.parse TCPSegment.make buf (IPv4Header.pseudo_cksum (IPv4Datagram.header d)) =
          Ok (NoError, s') /\
        TCPSegment.header s' = TCPHeader.set_cksum (TCPSegment.header (with_ports port port' seg)) v /\
        Buffer.str (TCPSegment.payload s') = Buffer.str (TCPSegment.payload seg).
Proof.
  intros Hc [Hip Hport] [Hip' Hport'] Hseg Hfit. unfold TCPOverIPv4Adapter.wrap_tcp_in_ip.
  rewrite (set_ports_ok a ip port ip' port') by done. cbn [mbind outcome_bind].
  destruct Hc as (Hs & Hd & _). rewrite Hs, Hd, !inet_address_numeric by done. cbn [mbind outcome_bind].
  pose proof Hseg as ((_ & _ & _ & _ & Hdoff & _) & Hpw & _).
  change (TCPHeader.doff (TCPSegment.header (with_ports port port' seg))) with (TCPHeader.doff (TCPSegment.header seg)).
  change (Buffer.size (TCPSegment.payload (with_ports port port' seg))) with (zlen (Buffer.str (TCPSegment.payload seg))).
  set (h := IPv4Header.set_len _ _). set (total := 20 + _ + _) in Hfit.
  change (TCPSegment._header seg) with (TCPSegment.header seg) in Hdoff.
  assert (Hlen : IPv4Header.len h = total).
  { unfold h, total in *. simpl. rewrite u16_small; change (IPv4Header.LENGTH / 4) with 5; lia. }
  assert (Hh : IPv4Header.ok h).
  { unfold IPv4Header.ok. rewrite Hlen. unfold h, total in *. cbn -[Z.mul Z.add]. split_and!; lia || done. }
  destruct (pseudo_cksum_spec h Hh) as [_ Hck].
  destruct (segment_reads_back (with_ports port port' seg) TCPSegment.make (IPv4Header.pseudo_cksum h))
    as (v & out & Hv & Hout & Hol & Hread); [by apply with_ports_ok|done|].
  rewrite Hout. cbn [mbind outcome_bind]. eexists _, v. split; [done|].
  change (IPv4Datagram.header (IPv4Datagram.mk h out)) with h.
  change (IPv4Datagram.payload (IPv4Datagram.mk h out)) with out. split; [|done].
  split; [done|]. split; [by eapply segment_serialize_wf, Hout; apply with_ports_ok|].
  change (IPv4Header.len h = 20 + zlen (BufferList.concatenate out)).
  rewrite Hlen, Hol. symmetry. apply Z.add_assoc.
Qed.

(** Reading the datagram of the peer. *)
Lemma unwrap_connected b ip port ip' port' d buf s' :
  connected b ip' port' ip port -> endpoint_ok ip port -> endpoint_ok ip' port' ->
  IPv4Header.src (IPv4Datagram.header d) = ip -> IPv4Header.dst (IPv4Datagram.header d) = ip' ->
  IPv4Header.proto (IPv4Datagram.header d) = IPv4Header.PROTO_TCP -> IPv4Datagram.payload d = [buf] ->
  TCPSegment.parse TCPSegment.make buf (IPv4Header.pseudo_cksum (IPv4Datagram.header d)) = Ok (NoError, s') ->
  TCPHeader.sport (TCPSegment.header s') = port -> TCPHeader.dport (TCPSegment.header s') = port' ->
  TCPOverIPv4Adapter.unwrap_tcp_in_ip R b d = Ok (b, Some s').
Proof.
  intros (Hs & Hd & Hl) [??] [??] Esrc Edst Eproto Epl Hparse Esp Edp.
  unfold TCPOverIPv4Adapter.unwrap_tcp_in_ip. rewrite Hl, Hs, Hd. simpl negb. cbv iota.
  rewrite !inet_address_numeric by done. cbn [mbind outcome_bind]. rewrite Edst, Z.eqb_refl. simpl negb. cbv iota.
  cbn [mbind outcome_bind]. rewrite Esrc, Z.eqb_refl. simpl negb. cbv iota.
  rewrite Eproto, Z.eqb_refl, Epl. simpl negb. cbv iota. cbn [BufferList.to_buffer mbind outcome_bind].
  rewrite Hparse. cbn [mbind outcome_bind]. rewrite (bool_decide_eq_true_2 _ (eq_refl NoError)). simpl negb. cbv iota.
  rewrite inet_address_port by done. cbn [mbind outcome_bind]. rewrite Edp, Z.eqb_refl. simpl negb. cbv iota.
  cbn [mbind outcome_bind]. rewrite Hd, inet_address_port by done. cbn [mbind outcome_bind].
  by rewrite Esp, Z.eqb_refl.
Qed.

(** What a listening adapter becomes. *)
Definition accepted (b : FdAdapterBase.t) (ip port ip' port' : Z) : FdAdapterBase.t :=
  FdAdapterBase.mk
    (FdAdapterConfig.mk (inet_address ip' port') (inet_address ip port)
       (FdAdapterConfig.loss_rate_dn (FdAdapterBase.config b)) (FdAdapterConfig.loss_rate_up (FdAdapterBase.config b)))
    false.

Lemma unwrap_listening b ip port ip' port' d buf s' :
  listens b port' -> endpoint_ok ip port -> endpoint_ok ip' port' ->
  IPv4Header.src (IPv4Datagram.header d) = ip -> IPv4Header.dst (IPv4Datagram.header d) = ip' ->
  IPv4Header.proto (IPv4Datagram.header d) = IPv4Header.PROTO_TCP -> IPv4Datagram.payload d = [buf] ->
  TCPSegment.parse TCPSegment.make buf (IPv4Header.pseudo_cksum (IPv4Datagram.header d)) = Ok (NoError, s') ->
  TCPHeader.sport (TCPSegment.header s') = port -> TCPHeader.dport (TCPSegment.header s') = port' ->
  TCPOverIPv4Adapter.unwrap_tcp_in_ip R b d =
    if TCPHeader.syn (TCPSegment.header s') && negb (TCPHeader.rst (TCPSegment.header s'))
    then Ok (accepted b ip port ip' port', Some s') else Ok (b, None).
Proof.
  intros ((ip0 & Hip0 & Hs) & Hl) [??] [??] Esrc Edst Eproto Epl Hparse Esp Edp.
  unfold TCPOverIPv4Adapter.unwrap_tcp_in_ip. rewrite Hl, Hs. simpl negb. cbv iota. cbn [mbind outcome_bind].
  rewrite Eproto, Z.eqb_refl, Epl. simpl negb. cbv iota. cbn [BufferList.to_buffer mbind outcome_bind].
  rewrite Hparse. cbn [mbind outcome_bind]. rewrite (bool_decide_eq_true_2 _ (eq_refl NoError)). simpl negb. cbv iota.
  rewrite inet_address_port by done. cbn [mbind outcome_bind]. rewrite Edp, Z.eqb_refl. simpl negb. cbv iota.
  destruct (TCPHeader.syn (TCPSegment.header s') && negb (TCPHeader.rst (TCPSegment.header s'))); [|done].
  rewrite Edst, Esrc, Esp, !of_ip_numeric by done. cbn [mbind outcome_bind].
  change (FdAdapterConfig.destination _) with (inet_address ip port).
  rewrite inet_address_port by done. cbn [mbind outcome_bind]. by rewrite Z.eqb_refl.
Qed.

(** A connected adapter's segments, through the device, at the peer's adapter. *)
Lemma tun_transfer a ip port ip' port' seg :
  connected a ip port ip' port' -> endpoint_ok ip port -> endpoint_ok ip' port' ->
  TCPSegment.ok seg ->
  20 + 4 * TCPHeader.doff (TCPSegment.header seg) + zlen (Buffer.str (TCPSegment.payload seg)) < two16 ->
  exists out v s', TCPOverIPv4OverTunFdAdapter.write R a seg = Ok (a, with_ports port port' seg, out) /\
    TCPSegment.header s' = TCPHeader.set_cksum (TCPSegment.header (with_ports port port' seg)) v /\
    Buffer.str (TCPSegment.payload s') = Buffer.str (TCPSegment.payload seg) /\
    forall b,
    (connected b ip' port' ip port ->
       TCPOverIPv4OverTunFdAdapter.read R b (BufferList.concatenate out) = Ok (b, Some s')) /\
    (listens b port' ->
       TCPOverIPv4OverTunFdAdapter.read R b (BufferList.concatenate out) =
       if TCPHeader.syn (TCPSegment.header seg) && negb (TCPHeader.rst (TCPSegment.header seg))
       then Ok (accepted b ip port ip' port', Some s') else Ok (b, None)).
Proof.
  intros Ha He He' Hseg Hfit.
  destruct (wrap_tcp_ok a ip port ip' port' seg Ha He He' Hseg Hfit) as (d & v & Hw & Hd & Es & Ed & Ep & Hread).
  destruct (datagram_reads_back d IPv4Datagram.make Hd) as (w & out & _ & Hout & Hlen & _ & Hback).
  pose proof Hd as ((_ & _ & _ & Hl & _) & _ & _). change (IPv4Datagram._header d) with (IPv4Datagram.header d) in Hl.
  destruct (Hback (Buffer.of_string (BufferList.concatenate out))) as (buf & Hp & Hbw & Hbs);
    [apply buffer_of_string_wf; lia|apply buffer_of_string_str; lia|].
  destruct (Hread buf Hbw Hbs) as (s' & Hparse & Hh & Hpl).
  exists out, v, s'. unfold TCPOverIPv4OverTunFdAdapter.write, TCPOverIPv4OverTunFdAdapter.read.
  rewrite Hw. cbn [mbind outcome_bind]. rewrite Hout. cbn [mbind outcome_bind]. do 3 (split; [done|]).
  intros b. rewrite Hp. cbn [mbind outcome_bind]. rewrite (bool_decide_eq_true_2 _ (eq_refl NoError)). simpl negb. cbv iota.
  set (d' := IPv4Datagram.mk _ _).
  assert (Hsp : TCPHeader.sport (TCPSegment.header s') = port) by (by rewrite Hh).
  assert (Hdp : TCPHeader.dport (TCPSegment.header s') = port') by (by rewrite Hh).
  split; intros Hb.
  - by apply (unwrap_connected b ip port ip' port' d' buf s').
  - rewrite (unwrap_listening b ip port ip' port' d' buf s') by done. rewrite Hh. reflexivity.
Qed.

End adapters.

(** ** Properties *)

(** TCP over IPv4 over a TUN device, end to end: what a connected adapter writes for a
    segment, the peer's adapter reads back as the same segment with the connection's ports
    and the checksum filled in; an adapter listening on the port accepts it exactly if it is
    a SYN without RST, takes the sender as its peer from then on, and stays listening and
    returns nothing otherwise. *)
Theorem tun_roundtrip (R : Address.Resolver) (HR : NumericResolver R)
  (a b c : FdAdapterBase.t) (ip port ip' port' : Z) (seg : TCPSegment.t)
  (Ha : connected a ip port ip' port') (Hb : connected b ip' port' ip port) (Hc : listens c port')
  (He : endpoint_ok ip port) (He' : endpoint_ok ip' port') (Hseg : TCPSegment.ok seg)
  (Hfit : 20 + 4 * TCPHeader.doff (TCPSegment.header seg) + zlen (Buffer.str (TCPSegment.payload seg)) < two16) :
  exists out v s', TCPOverIPv4OverTunFdAdapter.write R a seg = Ok (a, with_ports port port' seg, out) /\
    TCPSegment.header s' = TCPHeader.set_cksum (TCPSegment.header (with_ports port port' seg)) v /\
    Buffer.str (TCPSegment.payload s') = Buffer.str (TCPSegment.payload seg) /\
    TCPOverIPv4OverTunFdAdapter.read R b (BufferList.concatenate out) = Ok (b, Some s') /\
    exists c' r, TCPOverIPv4OverTunFdAdapter.read R c (BufferList.concatenate out) = Ok (c', r) /\
      if TCPHeader.syn (TCPSegment.header seg) && negb (TCPHeader.rst (TCPSegment.header seg))
      then connected c' ip' port' ip port /\ r = Some s' else c' = c /\ r = None.
Proof.
  destruct (tun_transfer R a ip port ip' port' seg Ha He He' Hseg Hfit) as (out & v & s' & Hw & Hh & Hp & Hr).
  destruct (Hr b) as [Hrb _]. destruct (Hr c) as [_ Hrc]. specialize (Hrc Hc).
  exists out, v, s'. do 3 (split; [done|]). split; [by apply Hrb|].
  destruct (TCPHeader.syn (TCPSegment.header seg) && negb (TCPHeader.rst (TCPSegment.header seg))); by eexists _, _.
Qed.

Definition sample_adapter (listen : bool) (ip port ip' port' : Z) : FdAdapterBase.t :=
  FdAdapterBase.mk (FdAdapterConfig.mk (inet_address ip port) (inet_address ip' port') 0 0) listen.

Lemma tun_roundtrip_witness :
  exists out s' c', TCPOverIPv4OverTunFdAdapter.write numeric_resolver
      (sample_adapter false 167772161 4000 167772162 80) syn_segment =
      Ok (sample_adapter false 167772161 4000 167772162 80, with_ports 4000 80 syn_segment, out) /\
    TCPOverIPv4OverTunFdAdapter.read numeric_resolver (sample_adapter true 0 80 0 0) (BufferList.concatenate out) =
      Ok (c', Some s') /\
    connected c' 167772162 80 167772161 4000 /\ Buffer.str (TCPSegment.payload s') = [Byte.x68; Byte.x69].
Proof.
  destruct (tun_roundtrip numeric_resolver numeric_resolver_ok (sample_adapter false 167772161 4000 167772162 80)
    (sample_adapter false 167772162 80 167772161 4000) (sample_adapter true 0 80 0 0) 167772161 4000 167772162 80
    syn_segment) as (out & v & s' & Hw & _ & Hp & _ & c' & r & Hr & Hc).
  - done.
  - done.
  - split; [exists 0; split; [lia|done]|done].
  - split; lia.
  - split; lia.
  - unfold TCPSegment.ok, TCPHeader.ok, WrappingInt32.ok. vm_compute. intuition congruence.
  - vm_compute. reflexivity.
  - exists out, s', c'. destruct Hc as [Hc ->]. split; [exact Hw|]. split; [exact Hr|]. split; [exact Hc|exact Hp].
Defined.

(** A connected adapter lets nothing in but its connection: every segment
    [unwrap_tcp_in_ip] returns came in a TCP datagram from the peer's address to its own, with
    the peer's source port and its own destination port, and reading changes nothing; a
    listening adapter only ever returns a SYN without RST for its port, and stops listening
    when it does. *)
Theorem unwrap_filters (R : Address.Resolver) (HR : NumericResolver R)
  (b b' : FdAdapterBase.t) (ip port ip' port' : Z) (d : IPv4Datagram.t) (s : TCPSegment.t)
  (He : endpoint_ok ip port) (He' : endpoint_ok ip' port')
  (Hb : connected b ip port ip' port' \/ listens b port)
  (Hr : TCPOverIPv4Adapter.unwrap_tcp_in_ip R b d = Ok (b', Some s)) :
  IPv4Header.proto (IPv4Datagram.header d) = IPv4Header.PROTO_TCP /\
  TCPHeader.dport (TCPSegment.header s) = port /\ FdAdapterBase.listening b' = false /\
  (FdAdapterBase.listening b = false ->
     b' = b /\ IPv4Header.dst (IPv4Datagram.header d) = ip /\ IPv4Header.src (IPv4Datagram.header d) = ip' /\
     TCPHeader.sport (TCPSegment.header s) = port') /\
  (FdAdapterBase.listening b = true ->
     TCPHeader.syn (TCPSegment.header s) = true /\ TCPHeader.rst (TCPSegment.header s) = false).
Proof.
  destruct He as [? ?], He' as [? ?]. unfold TCPOverIPv4Adapter.unwrap_tcp_in_ip in Hr.
  assert (Hsrc : Address.port R (FdAdapterConfig.source (FdAdapterBase.config b)) = Ok port).
  { destruct Hb as [(-> & _)|((x & Hx & ->) & _)]; by apply inet_address_port. }
  rewrite Hsrc in Hr. destruct (FdAdapterBase.listening b) eqn:El; simpl negb in Hr; cbv iota in Hr.
  - cbn [mbind outcome_bind] in Hr. simpl negb in Hr. cbv iota in Hr.
    destruct (Z.eqb_spec (IPv4Header.proto (IPv4Datagram.header d)) IPv4Header.PROTO_TCP) as [Hp|]; [|done].
    simpl negb in Hr. cbv iota in Hr. inv_ok. destruct v0 as [r sg]. case_bool_decide; simpl in Hr; [|done].
    destruct (Z.eqb_spec (TCPHeader.dport (TCPSegment.header sg)) port) as [Hd|]; [|done].
    simpl in Hr. destruct (TCPHeader.syn (TCPSegment.header sg)) eqn:Es; [|done].
    destruct (TCPHeader.rst (TCPSegment.header sg)) eqn:Er; [done|]. simpl in Hr. inv_ok.
    destruct v0 as [b0 drp]. simplify_eq. inv_ok.
    destruct (_ =? _); [|done]. simpl in Hr. injection Hr as <- <-. done.
  - destruct Hb as [(Hs & Hd & _)|[_ Hl]]; [|congruence]. rewrite Hs, Hd in Hr.
    rewrite !inet_address_numeric in Hr by done. cbn [mbind outcome_bind] in Hr.
    destruct (Z.eqb_spec (IPv4Header.dst (IPv4Datagram.header d)) ip) as [Hdst|]; [|done]. simpl negb in Hr. cbv iota in Hr.
    cbn [mbind outcome_bind] in Hr.
    destruct (Z.eqb_spec (IPv4Header.src (IPv4Datagram.header d)) ip') as [Hsrc'|]; [|done]. simpl negb in Hr. cbv iota in Hr.
    destruct (Z.eqb_spec (IPv4Header.proto (IPv4Datagram.header d)) IPv4Header.PROTO_TCP) as [Hp|]; [|done].
    simpl negb in Hr. cbv iota in Hr. inv_ok. destruct v0 as [r sg]. case_bool_decide; simpl in Hr; [|done].
    destruct (Z.eqb_spec (TCPHeader.dport (TCPSegment.header sg)) port) as [Hdp|]; [|done].
    simpl in Hr. rewrite Hd, inet_address_port in Hr by done. cbn [mbind outcome_bind] in Hr.
    destruct (Z.eqb_spec (TCPHeader.sport (TCPSegment.header sg)) port') as [Hsp|]; [|done].
    simpl in Hr. injection Hr as <- <-. done.
Qed.

(** The datagram of [syn_segment] from 10.0.0.1:4000 to 10.0.0.2:80. *)
Definition syn_datagram : IPv4Datagram.t :=
  match TCPOverIPv4Adapter.wrap_tcp_in_ip numeric_resolver (sample_adapter false 167772161 4000 167772162 80)
          syn_segment with
  | Ok (_, d) => IPv4Datagram.mk (IPv4Datagram.header d)
      [Buffer.of_string (BufferList.concatenate (IPv4Datagram.payload d))]
  | _ => IPv4Datagram.make
  end.

Lemma unwrap_filters_witness :
  exists b' s, TCPOverIPv4Adapter.unwrap_tcp_in_ip numeric_resolver (sample_adapter true 0 80 0 0) syn_datagram =
      Ok (b', Some s) /\ TCPHeader.dport (TCPSegment.header s) = 80 /\ FdAdapterBase.listening b' = false.
Proof.
  destruct (TCPOverIPv4Adapter.unwrap_tcp_in_ip numeric_resolver (sample_adapter true 0 80 0 0) syn_datagram)
    as [[b' [s|]]| | |] eqn:E; [|exfalso; vm_compute in E; discriminate..].
  exists b', s. split; [reflexivity|].
  destruct (unwrap_filters numeric_resolver numeric_resolver_ok (sample_adapter true 0 80 0 0) b' 0 80 0 0
    syn_datagram s) as (_ & H1 & H2 & _).
  - split; lia.
  - split; lia.
  - right. split; [exists 0; split; [lia|reflexivity]|reflexivity].
  - exact E.
  - auto.
Defined.

(** The lossy adapter only loses: over any adapter, a read advances the adapter exactly as
    its own read does and returns what that returned or nothing; a write either does the
    adapter's write or leaves the adapter and the segment alone and sends nothing; with loss
    rates of 0 it does what the adapter does and does not touch the random generator. *)
Theorem lossy_only_loses {A IN OUT} `{!FdAdapter A IN OUT} {Rand} (rand : Rand -> Z * Rand)
  (l : LossyFdAdapter.t (A := A) Rand) (i : IN) (seg : TCPSegment.t) :
  let a := LossyFdAdapter._adapter _ l in
  let rate a up := (if up : bool then FdAdapterConfig.loss_rate_up else FdAdapterConfig.loss_rate_dn)
    (FdAdapterBase.config (fd_base a)) in
  (exists g keep, LossyFdAdapter.read Rand rand l i =
     ('(a', r) ← fd_read a i;
      Ok (LossyFdAdapter.mk _ (g a') a', if keep a' : bool then r else None)) /\
     forall a', rate a' false = 0 -> keep a' = true /\ g a' = LossyFdAdapter.rand_state _ l) /\
  (exists g drop, LossyFdAdapter.write Rand rand l seg =
     (if drop : bool then Ok (LossyFdAdapter.mk _ g a, seg, None)
      else '(a', s, out) ← fd_write a seg; Ok (LossyFdAdapter.mk _ g a', s, Some out)) /\
     (rate a true = 0 -> drop = false /\ g = LossyFdAdapter.rand_state _ l)).
Proof.
  destruct l as [g0 a]. cbn [LossyFdAdapter._adapter LossyFdAdapter.rand_state]. cbv zeta. split.
  - set (dr := fun a' => LossyFdAdapter._should_drop Rand rand (LossyFdAdapter.mk Rand g0 a') false).
    exists (fun a' => LossyFdAdapter.rand_state _ (dr a').2), (fun a' => negb (dr a').1).
    unfold LossyFdAdapter.read. simpl. split.
    + destruct (fd_read a i) as [[a' r]| | |]; cbn [mbind outcome_bind]; [|done..].
      fold (dr a'). assert (Ha : LossyFdAdapter._adapter _ (dr a').2 = a').
      { unfold dr, LossyFdAdapter._should_drop. destruct (negb _); [|done]. by destruct (rand _). }
      destruct (dr a') as [[] [g1 a1]]; simpl in *; by subst.
    + intros a' Hz. unfold dr, LossyFdAdapter._should_drop. simpl. by rewrite Hz.
  - unfold LossyFdAdapter.write, LossyFdAdapter._should_drop. simpl.
    destruct (Z.eqb_spec (FdAdapterConfig.loss_rate_up (FdAdapterBase.config (fd_base a))) 0) as [Hz|Hz]; simpl.
    + by exists g0, false.
    + destruct (rand g0) as [v g1]. by exists g1, (u16 v <? FdAdapterConfig.loss_rate_up (FdAdapterBase.config (fd_base a))).
Qed.
