(* ===== verification/Totality.v ===== *)
(** * Totality.v: the network code on arbitrary packets

    Whatever bytes arrive and whatever state the objects are in, the parsers, the network
    interface ([libsponge/network_interface.cc]) and the router ([libsponge/router.cc]) return
    or throw: none of their operations reaches undefined behaviour or runs on.  Beside that the
    file keeps what these operations never do to the frames that wait to be sent. *)

From stdpp Require Import gmap.
From S2P Require Import Prelude Buffers Parsing TcpWire IpWire EtherWire Addresses NetIf Routing Adapters.

(** ** Parsers and serialisers *)

Create HintDb total.

(** Goes through the binds, tests and matches of code of which only the conclusion matters. *)
Ltac concluding :=
  repeat first
    [ progress cbv zeta
    | assumption
    | exact I
    | solve [auto with total]
    | match goal with |- yields (_ ≫= _) _ => apply yields_bind with (P := fun _ => True); [|intros ? _] end
    | match goal with |- yields (let '(_, _) := ?p in _) _ => destruct p end
    | match goal with |- yields (if ?b then _ else _) _ => destruct b end
    | match goal with |- yields (match ?x with _ => _ end) _ => destruct x end ].

Lemma buffer_at_total b n : concluded (Buffer.at_ b n).
Proof. unfold Buffer.at_. concluding. Qed.

Lemma buffer_remove_total b n : concluded (Buffer.remove_prefix b n).
Proof. unfold Buffer.remove_prefix. concluding. Qed.

#[export] Hint Resolve buffer_at_total buffer_remove_total : total.

Lemma parse_loop_total w b n : forall i ret, concluded (NetParser.parse_loop w b n i ret).
Proof. induction n as [|n IH]; intros i ret; cbn [NetParser.parse_loop]; concluding. Qed.

#[export] Hint Resolve parse_loop_total : total.

Lemma parse_int_concluded len p : concluded (NetParser._parse_int len p).
Proof. unfold NetParser._parse_int. concluding. Qed.

Lemma parser_remove_concluded p n : concluded (NetParser.remove_prefix p n).
Proof. unfold NetParser.remove_prefix. concluding. Qed.

Lemma parser_ints_concluded p :
  concluded (NetParser.u8 p) /\ concluded (NetParser.u16 p) /\ concluded (NetParser.u32 p).
Proof. split; [|split]; apply parse_int_concluded. Qed.

#[export] Hint Resolve parser_remove_concluded : total.
#[export] Hint Extern 1 (yields (NetParser.u8 _) _) => apply parser_ints_concluded : total.
#[export] Hint Extern 1 (yields (NetParser.u16 _) _) => apply parser_ints_concluded : total.
#[export] Hint Extern 1 (yields (NetParser.u32 _) _) => apply parser_ints_concluded : total.

(** A sum of 32 bits stays one. *)
Definition sum_ok (c : InternetChecksum.t) : Prop := 0 <= InternetChecksum._sum c < two32.

Lemma sum_ok_add data : forall c, sum_ok c -> sum_ok (InternetChecksum.add c data).
Proof.
  unfold InternetChecksum.add. induction data as [|b data IH]; intros c Hc; simpl; [done|].
  apply IH. unfold sum_ok. simpl. apply u32_range.
Qed.

Lemma sum_ok_make init : 0 <= init < two32 -> sum_ok (InternetChecksum.make init).
Proof. done. Qed.

Lemma checksum_value_total c : sum_ok c -> concluded (InternetChecksum.value c).
Proof. intros Hc. by rewrite checksum_value_spec. Qed.

Lemma zero_sum : 0 <= 0 < two32.
Proof. done. Qed.

Lemma pseudo_sum h : 0 <= IPv4Header.pseudo_cksum h < two32.
Proof. unfold IPv4Header.pseudo_cksum. apply u32_range. Qed.

#[export] Hint Resolve sum_ok_add sum_ok_make checksum_value_total zero_sum pseudo_sum : total.

Lemma tcp_header_parse_total p : concluded (TCPHeader.parse p).
Proof. unfold TCPHeader.parse. concluding. Qed.

Lemma tcp_header_serialize_total h : concluded (TCPHeader.serialize h).
Proof. unfold TCPHeader.serialize. concluding. Qed.

#[export] Hint Resolve tcp_header_parse_total tcp_header_serialize_total : total.

Lemma segment_parse_total s b init : 0 <= init < two32 -> concluded (TCPSegment.parse s b init).
Proof. intros Hi. unfold TCPSegment.parse. concluding. Qed.

Lemma segment_serialize_total s init : 0 <= init < two32 -> concluded (TCPSegment.serialize s init).
Proof. intros Hi. unfold TCPSegment.serialize. concluding. Qed.

Lemma ip_header_parse_total h p : concluded (IPv4Header.parse h p).
Proof. unfold IPv4Header.parse. concluding. Qed.

Lemma ip_header_serialize_total h : concluded (IPv4Header.serialize h).
Proof. unfold IPv4Header.serialize. concluding. Qed.

#[export] Hint Resolve segment_parse_total segment_serialize_total ip_header_parse_total ip_header_serialize_total : total.

Lemma datagram_parse_concluded d b : concluded (IPv4Datagram.parse d b).
Proof. unfold IPv4Datagram.parse. concluding. Qed.

Lemma datagram_serialize_total d : concluded (IPv4Datagram.serialize d).
Proof. unfold IPv4Datagram.serialize. concluding. Qed.

Lemma read_address_total n : forall p, concluded (read_address n p).
Proof. induction n as [|n IH]; intros p; cbn [read_address]; concluding. Qed.

#[export] Hint Resolve datagram_parse_concluded datagram_serialize_total read_address_total : total.

Lemma eth_header_parse_total h p : concluded (EthernetHeader.parse h p).
Proof. unfold EthernetHeader.parse. concluding. Qed.

#[export] Hint Resolve eth_header_parse_total : total.

Lemma frame_parse_total f b : concluded (EthernetFrame.parse f b).
Proof. unfold EthernetFrame.parse. concluding. Qed.

Lemma arp_parse_total m b : concluded (ARPMessage.parse m b).
Proof. unfold ARPMessage.parse. concluding. Qed.

Lemma arp_serialize_total m : concluded (ARPMessage.serialize m).
Proof. unfold ARPMessage.serialize. concluding. Qed.

Lemma to_buffer_total l : concluded (BufferList.to_buffer l).
Proof. unfold BufferList.to_buffer. concluding. Qed.

Lemma ipv4_numeric_total a : concluded (Address.ipv4_numeric a).
Proof. unfold Address.ipv4_numeric. concluding. Qed.

Lemma from_ipv4_total ip : concluded (Address.from_ipv4_numeric ip).
Proof. by rewrite from_ipv4_spec. Qed.

#[export] Hint Resolve frame_parse_total arp_parse_total arp_serialize_total to_buffer_total ipv4_numeric_total from_ipv4_total : total.

(** ** The network interface *)

(** The addresses stay, and frames are only added behind those that wait. *)
Definition grows (n n' : NetworkInterface.t) : Prop :=
  NetworkInterface.ethernet_address_ n' = NetworkInterface.ethernet_address_ n /\
  NetworkInterface.ip_address_ n' = NetworkInterface.ip_address_ n /\
  NetworkInterface.frames_out_ n `prefix_of` NetworkInterface.frames_out_ n'.

#[export] Instance grows_preorder : PreOrder grows.
Proof.
  split; [by intros n|]. intros n1 n2 n3 (H1 & H2 & H3) (G1 & G2 & G3).
  split; [congruence|]. split; [congruence|]. by etrans.
Qed.

Section interface.

Import NetworkInterface.

Lemma generate_ip_total n dst d : concluded (generate_ip_frame n dst d).
Proof. unfold generate_ip_frame. concluding. Qed.

Lemma generate_arp_total n dst ip op : concluded (generate_arp_frame n dst ip op).
Proof. unfold generate_arp_frame. concluding. Qed.

Lemma push_grows n f : grows n (push_frame n f).
Proof. split; [done|]. split; [done|]. simpl. by eexists. Qed.

#[local] Hint Resolve generate_ip_total generate_arp_total : total.

Lemma send_datagram_grows n d hop : yields (send_datagram n d hop) (grows n).
Proof.
  unfold send_datagram. apply yields_bind with (P := fun _ => True); [apply ipv4_numeric_total|]. intros ip _. cbv zeta.
  destruct (match map_ n !! ip with Some _ => _ | None => None end) as [eth|].
  - eapply yields_bind; [apply generate_ip_total|]. intros f _. apply push_grows.
  - apply yields_bind with (P := grows n); [|by intros n'].
    destruct (match already_sent_arp_ n !! ip with Some _ => _ | None => _ end); [|by simpl].
    eapply yields_bind; [apply generate_arp_total|]. intros f _. apply push_grows.
Qed.

Lemma send_buffered_grows eth l : forall n, yields (send_buffered n eth l) (grows n).
Proof.
  induction l as [|d l IH]; intros n; cbn [send_buffered]; [by simpl|].
  eapply yields_bind; [apply generate_ip_total|]. intros f _. eapply yields_impl; [apply IH|].
  intros n' Hn'. etrans; [apply push_grows|done].
Qed.

Lemma recv_frame_grows n f : yields (recv_frame n f) (fun '(n', _) => grows n n').
Proof.
  unfold recv_frame. cbv zeta. destruct (negb _ && negb _); [by simpl|]. destruct (_ =? EthernetHeader.TYPE_IPv4).
  { eapply yields_bind; [apply to_buffer_total|]. intros b _. eapply yields_bind; [apply datagram_parse_concluded|].
    intros [r d] _. by destruct (bool_decide (r = NoError)). }
  destruct (_ =? EthernetHeader.TYPE_ARP); [|by simpl].
  eapply yields_bind; [apply to_buffer_total|]. intros b _. eapply yields_bind; [apply arp_parse_total|].
  intros [r msg] _. destruct (bool_decide (r = NoError)); [|by simpl].
  set (n1 := set_map n _). assert (H1 : grows n n1) by done. clearbody n1.
  apply yields_bind with (P := grows n).
  { destruct (buffer_ n1 !! _); [|done]. eapply yields_bind; [apply send_buffered_grows|]. intros n2 H2. cbn [yields]. by etrans. }
  intros n2 H2. apply yields_bind with (P := grows n); [|by intros].
  destruct (bool_decide _); [|done]. eapply yields_bind; [apply ipv4_numeric_total|]. intros own _.
  destruct (_ =? own); [|done]. eapply yields_bind; [apply generate_arp_total|]. intros g _.
  cbn [yields]. etrans; [done|apply push_grows].
Qed.

Lemma tick_grows n ms : grows n (tick n ms).
Proof. done. Qed.

End interface.

(** ** The router *)

(** The table stays; every interface grows, and its queue of datagrams loses only its front. *)
Definition iface_routes (i i' : AsyncNetworkInterface.t) : Prop :=
  grows (AsyncNetworkInterface.base i) (AsyncNetworkInterface.base i') /\
  AsyncNetworkInterface._datagrams_out i' `suffix_of` AsyncNetworkInterface._datagrams_out i.

#[export] Instance iface_routes_preorder : PreOrder iface_routes.
Proof. split; [by intros i|]. intros i1 i2 i3 [H1 H2] [G1 G2]. split; by etrans. Qed.

Definition routes_on (r r' : Router.t) : Prop :=
  Router.table_ r' = Router.table_ r /\ Forall2 iface_routes (Router.interfaces_ r) (Router.interfaces_ r').

#[export] Instance routes_on_preorder : PreOrder routes_on.
Proof.
  split; [by intros r|]. intros r1 r2 r3 [H1 H2] [G1 G2]. split; [congruence|]. by etrans.
Qed.

Section router.

Import Router.

Lemma find_route_total table ip fuel : forall mask l, -1 <= l -> l + 2 <= Z.of_nat fuel ->
  concluded (find_route fuel table ip mask l).
Proof.
  induction fuel as [|fuel IH]; intros mask l Hl Hf; [lia|]. cbn [find_route]. rewrite Z.geb_leb.
  destruct (Z.leb_spec 0 l); [|done]. destruct (table !! _); [done|]. apply IH; lia.
Qed.

Lemma set_interface_routes r num i i' : interface r num = Ok i -> iface_routes i i' -> routes_on r (set_interface r num i').
Proof.
  intros Hi Hr. split; [done|]. simpl. unfold interface, zget in Hi.
  apply Forall2_same_length_lookup. split; [by rewrite length_insert|]. intros j x y Hx Hy.
  apply list_lookup_insert_Some in Hy as [(<- & <- & _)|(Hne & Hy)]; [|by simplify_eq].
  destruct (num <? 0); [done|]. rewrite Hx in Hi. by injection Hi as ->.
Qed.

Lemma route_one_routes r d : yields (route_one_datagram r d) (fun r' => routes_on r r' /\
  AsyncNetworkInterface._datagrams_out <$> interfaces_ r' = AsyncNetworkInterface._datagrams_out <$> interfaces_ r).
Proof.
  unfold route_one_datagram. cbv zeta. destruct (_ =? 0); [by split|]. destruct (_ =? 0); [by split|].
  eapply yields_bind; [apply find_route_total; lia|]. intros [[num hop]|] _; [|by split].
  unfold yields at 1, mbind at 1, outcome_bind at 1. destruct (interface r num) as [i| | |] eqn:Ei; try done.
  2,3: unfold interface in Ei; by destruct (zget _ _).
  eapply yields_bind; [apply from_ipv4_total|]. intros direct _.
  unfold AsyncNetworkInterface.send_datagram. rewrite bind_assoc.
  eapply yields_bind; [apply send_datagram_grows|]. intros n Hn. simpl. split.
  - by apply (set_interface_routes _ _ i).
  - apply list_eq. intros j. rewrite !list_lookup_fmap. unfold interface, zget in Ei.
    destruct (num <? 0); [done|]. destruct (interfaces_ r !! Z.to_nat num) as [i0|] eqn:E0; [|done]. injection Ei as ->.
    destruct (decide (j = Z.to_nat num)) as [->|]; [|by rewrite list_lookup_insert_ne].
    rewrite list_lookup_insert_eq by (by eapply lookup_lt_Some). by rewrite E0.
Qed.

(** The queue of one interface is emptied; the others keep theirs. *)
Lemma drain_routes idx fuel : forall r i, interfaces_ r !! idx = Some i ->
  (length (AsyncNetworkInterface._datagrams_out i) < fuel)%nat -> yields (drain fuel r idx) (routes_on r).
Proof.
  induction fuel as [|fuel IH]; intros r i Hi Hf; [lia|]. cbn [drain]. rewrite Hi.
  unfold AsyncNetworkInterface.datagrams_out. destruct (AsyncNetworkInterface._datagrams_out i) as [|d q] eqn:Eq; [by simpl|].
  eapply yields_bind; [apply route_one_routes|]. intros r1 [Hr1 Hq].
  assert (Hq' : AsyncNetworkInterface._datagrams_out <$> interfaces_ r1 !! idx = Some (d :: q)).
  { rewrite <- list_lookup_fmap, Hq, list_lookup_fmap, Hi. simpl. by rewrite Eq. }
  destruct (interfaces_ r1 !! idx) as [i1|] eqn:Ei; [|done]. injection Hq' as Hq'.
  eapply yields_impl; [apply (IH _ (AsyncNetworkInterface.pop i1))|].
  - simpl. apply list_lookup_insert_eq. by eapply lookup_lt_Some.
  - simpl in *. rewrite Hq'. simpl. lia.
  - intros r' Hr'. etrans; [exact Hr1|]. etrans; [|exact Hr']. split; [done|]. simpl.
    apply Forall2_same_length_lookup. split; [by rewrite length_insert|]. intros j x y Hx Hy.
    apply list_lookup_insert_Some in Hy as [(<- & <- & _)|(_ & Hy)]; [|by simplify_eq].
    rewrite Ei in Hx. injection Hx as ->. split; [done|]. simpl. rewrite Hq'. simpl. by apply suffix_cons_r.
Qed.

Lemma route_from_routes fuel k : forall r idx, (idx + k <= length (interfaces_ r))%nat ->
  Forall (fun i => length (AsyncNetworkInterface._datagrams_out i) < fuel)%nat (interfaces_ r) ->
  yields (route_from fuel r idx k) (routes_on r).
Proof.
  induction k as [|k IH]; intros r idx Hk Hf; cbn [route_from]; [by simpl|].
  destruct (lookup_lt_is_Some_2 (interfaces_ r) idx) as [i Hi]; [lia|].
  eapply yields_bind; [apply (drain_routes _ _ _ i); [done|by eapply Forall_lookup_1 in Hf]|].
  intros r1 Hr1. pose proof Hr1 as [_ Hall]. pose proof (Forall2_length _ _ _ Hall) as Hlen.
  eapply yields_impl; [apply IH|intros r' ?; by etrans]; [lia|].
  apply Forall_lookup_2. intros j x Hx. destruct (Forall2_lookup_r _ _ _ _ _ Hall Hx) as (y & Hy & _ & Hs).
  eapply Forall_lookup_1 in Hf; [|exact Hy]. apply suffix_length in Hs. simpl in Hf. lia.
Qed.

Lemma route_routes r : yields (route r) (routes_on r).
Proof.
  apply route_from_routes; [lia|]. apply Forall_lookup_2. intros j i Hi. unfold queue_fuel.
  pose proof (proj1 (list_max_le (length ∘ AsyncNetworkInterface._datagrams_out <$> interfaces_ r) _) (le_n _)) as H.
  rewrite List.Forall_map, List.Forall_forall in H. apply Nat.lt_succ_r, H. apply list_elem_of_In. by eapply list_elem_of_lookup_2.
Qed.

End router.

(** A queueing interface that receives a frame. *)
Lemma async_recv_grows i f : yields (AsyncNetworkInterface.recv_frame i f) (fun i' =>
  grows (AsyncNetworkInterface.base i) (AsyncNetworkInterface.base i') /\
  AsyncNetworkInterface._datagrams_out i `prefix_of` AsyncNetworkInterface._datagrams_out i').
Proof.
  unfold AsyncNetworkInterface.recv_frame. eapply yields_bind; [apply recv_frame_grows|]. intros [n [d|]] Hn; simpl; [|done].
  split; [done|]. by eexists.
Qed.

(** ** Properties *)

(** C28. The network code is total: whatever bytes arrive and whatever state the objects are in,
    well formed or not, parsing a frame, receiving a frame, sending a datagram and routing
    return or throw an exception, never reach undefined behaviour and never run on; and when
    they return, no frame that waits to be sent was lost or moved, no interface changed its
    addresses, and routing kept the table and took datagrams only from the front of the
    queues. *)
Theorem network_code_total (b : Buffer.t) (n : NetworkInterface.t) (i : AsyncNetworkInterface.t) (r : Router.t)
  (f : EthernetFrame.t) (d : IPv4Datagram.t) (hop : Address.t) :
  concluded (EthernetFrame.parse f b) /\
  yields (NetworkInterface.recv_frame n f) (fun '(n', _) => grows n n') /\
  yields (NetworkInterface.send_datagram n d hop) (grows n) /\
  yields (AsyncNetworkInterface.recv_frame i f) (fun i' =>
    grows (AsyncNetworkInterface.base i) (AsyncNetworkInterface.base i') /\
    AsyncNetworkInterface._datagrams_out i `prefix_of` AsyncNetworkInterface._datagrams_out i') /\
  yields (Router.route r) (routes_on r).
Proof.
  split; [apply frame_parse_total|]. split; [apply recv_frame_grows|]. split; [apply send_datagram_grows|].
  split; [apply async_recv_grows|apply route_routes].
Qed.
