(* ===== verification/CmdLine.v ===== *)
(** * CmdLine.v: the command lines of the applications

    Models [get_config] and [check_argc] of [apps/tcp_ipv4.cc], [apps/tcp_udp.cc] and
    [apps/tcp_ip_ethernet.cc]: the loop over the options, which leaves the last two arguments
    as host and port.  Reading an argument that does not exist is undefined behaviour; [exit]
    is a result with its status and the message shown.  The C library's [strncmp] and [strtol]
    are modelled, and so are [strtof] and the arithmetic on [float], with the Standard Library's
    executable specification of IEEE 754 (24 bits of precision, exponents below 128, rounding
    to nearest, ties to even).  The name functions are the [Resolver] of Addresses.v; the random
    draws are arguments. *)

From Stdlib Require Import Ascii SpecFloat.
From stdpp Require Import strings pretty.
From S2P Require Import Prelude Addresses Sender Adapters.

Local Open Scope string_scope.
Local Open Scope Z_scope.

(** ** The C library *)

(** [strncmp(a, b, n) == 0]: equal up to [n] characters, a shorter string only if it ends. *)
Fixpoint strncmp_eq (n : nat) (a b : string) : bool :=
  match n with
  | O => true
  | S n =>
      match a, b with
      | EmptyString, EmptyString => true
      | String c a, String d b => bool_decide (c = d) && strncmp_eq n a b
      | _, _ => false
      end
  end.

(** The value of a digit, letters included. *)
Definition digit_value (c : ascii) : option Z :=
  let n := Z.of_N (N_of_ascii c) in
  if (48 <=? n) && (n <=? 57) then Some (n - 48)
  else if (97 <=? n) && (n <=? 122) then Some (n - 87)
  else if (65 <=? n) && (n <=? 90) then Some (n - 55)
  else None.

Definition base_digit (base : Z) (c : ascii) : option Z :=
  match digit_value c with Some d => if d <? base then Some d else None | None => None end.

(** The longest run of digits. *)
Fixpoint read_base (base acc : Z) (s : string) : Z :=
  match s with
  | String c s' => match base_digit base c with Some d => read_base base (base * acc + d) s' | None => acc end
  | EmptyString => acc
  end.

Definition LONG_MAX : Z := two63 - 1.
Definition LONG_MIN : Z := - two63.

(** The number after the sign, with the base its prefix gives. *)
Definition read_prefixed (s : string) : Z :=
  match s with
  | String "0" (String x (String d s')) =>
      if (bool_decide (x = "x"%char) || bool_decide (x = "X"%char)) && bool_decide (is_Some (base_digit 16 d))
      then read_base 16 0 (String d s')
      else read_base 8 0 s
  | String "0" _ => read_base 8 0 s
  | _ => read_base 10 0 s
  end.

(** [strtol(s, nullptr, 0)], which stops at [LONG_MIN] and [LONG_MAX]. *)
Definition strtol (s : string) : Z :=
  let clamp v := Z.max LONG_MIN (Z.min LONG_MAX v) in
  match skip_spaces s with
  | String "-" s' => clamp (- read_prefixed s')
  | String "+" s' => clamp (read_prefixed s')
  | s' => clamp (read_prefixed s')
  end.

(** ** Loss rates *)

(** The longest run of digits: its value, how many digits it has, and what follows. *)
Fixpoint read_run (base acc count : Z) (s : string) : Z * Z * string :=
  match s with
  | String c s' =>
      match base_digit base c with Some d => read_run base (base * acc + d) (count + 1) s' | None => (acc, count, s) end
  | EmptyString => (acc, count, s)
  end.

(** Digits with at most one point: the value without the point, the digits after the point,
    the number of digits, and what follows. *)
Definition read_mantissa (base : Z) (s : string) : Z * Z * Z * string :=
  let '(m, n, rest) := read_run base 0 0 s in
  match rest with
  | String "." rest' =>
      let '(m', k, rest'') := read_run base m 0 rest' in
      if n + k =? 0 then (m, 0, 0, rest) else (m', k, n + k, rest'')
  | _ => (m, 0, n, rest)
  end.

(** The exponent after the letter [e] or [p], zero when there is no number after it. *)
Definition read_exponent (lower upper : ascii) (s : string) : Z :=
  match s with
  | String c s' =>
      if bool_decide (c = lower) || bool_decide (c = upper) then
        match s' with
        | String "-" s'' => - read_base 10 0 s''
        | String "+" s'' => read_base 10 0 s''
        | _ => read_base 10 0 s'
        end
      else 0
  | EmptyString => 0
  end.

(** The [float] nearest to [m * 10 ^ e], and to [m * 2 ^ e]. *)
Definition decimal_float (negative : bool) (m e : Z) : spec_float :=
  match m with
  | Zpos p =>
      if 0 <=? e then binary_round 24 128 negative (Z.to_pos (m * 10 ^ e)) 0
      else SFdiv 24 128 (S754_finite negative p 0) (S754_finite false (Z.to_pos (10 ^ (- e))) 0)
  | _ => S754_zero negative
  end.
Definition binary_float (negative : bool) (m e : Z) : spec_float :=
  match m with Zpos p => binary_round 24 128 negative p e | _ => S754_zero negative end.

Definition lowercase (c : ascii) : ascii :=
  let n := N_of_ascii c in if (65 <=? n)%N && (n <=? 90)%N then ascii_of_N (n + 32) else c.

(** Does the text begin with the word, in any case? *)
Fixpoint begins_with (w s : string) : bool :=
  match w, s with
  | EmptyString, _ => true
  | String c w, String d s => bool_decide (c = lowercase d) && begins_with w s
  | _, EmptyString => false
  end.

(** The number after the sign. *)
Definition read_float (negative : bool) (s : string) : spec_float :=
  if begins_with "inf" s then S754_infinity negative
  else if begins_with "nan" s then S754_nan
  else
    let decimal :=
      let '(m, k, _, rest) := read_mantissa 10 s in
      decimal_float negative m (read_exponent "e" "E" rest - k) in
    match s with
    | String "0" (String x s') =>
        if bool_decide (x = "x"%char) || bool_decide (x = "X"%char) then
          let '(m, k, n, rest) := read_mantissa 16 s' in
          if n =? 0 then S754_zero negative
          else binary_float negative m (read_exponent "p" "P" rest - 4 * k)
        else decimal
    | _ => decimal
    end.

(** [strtof(s, nullptr)]; a text that is no number gives zero. *)
Definition strtof (s : string) : spec_float :=
  match skip_spaces s with
  | String "-" s' => read_float true s'
  | String "+" s' => read_float false s'
  | s' => read_float false s'
  end.

(** [static_cast<uint16_t>] of a [float], undefined when the integral part does not fit. *)
Definition u16_of_float (f : spec_float) : outcome Z :=
  match f with
  | S754_zero _ => Ok 0
  | S754_finite negative m e =>
      let t := Z.shiftl (Zpos m) e in
      let v := if negative then - t else t in
      if (0 <=? v) && (v <? two16) then Ok v else Undefined
  | _ => Undefined
  end.

(** [static_cast<LossRateUpT>(static_cast<float>(numeric_limits<LossRateUpT>::max()) * lossrate)]. *)
Definition loss_rate (a : string) : outcome Z :=
  u16_of_float (SFmul 24 128 (binary_float false 65535 0) (strtof a)).

(** ** Loops over the options *)

(** What a turn of the loop does: go on at another argument, or leave the program. *)
Inductive turn (St : Type) :=
  | Next (s : St) (curr : nat)
  | Exit (status : Z) (message : option string).
Arguments Next {St} s curr.
Arguments Exit {St} status message.

(** How the loop ends. *)
Inductive ending (St : Type) :=
  | Parsed (s : St) (curr : nat)
  | Exited (status : Z) (message : option string).
Arguments Parsed {St} s curr.
Arguments Exited {St} status message.

Section options.

Context {St : Type}.

(** [argv[i]]. *)
Definition argument (argv : list string) (i : nat) : outcome string :=
  match argv !! i with Some s => Ok s | None => Undefined end.

(** [check_argc] and the use of the option's argument. *)
Definition with_argument (argv : list string) (curr : nat) (err : string) (use : string -> outcome St) : outcome (turn St) :=
  if zlen argv <=? Z.of_nat curr + 3 then Ok (Exit 1 (Some err))
  else a ← argument argv (curr + 1); s ← use a; Ok (Next s (curr + 2)).

(** [while (argc - curr > 2)]. *)
Fixpoint options_loop (fuel : nat) (body : list string -> nat -> St -> outcome (turn St))
  (argv : list string) (curr : nat) (s : St) : outcome (ending St) :=
  if 2 <? zlen argv - Z.of_nat curr then
    match fuel with
    | O => OutOfFuel
    | S fuel =>
        t ← body argv curr s;
        match t with
        | Next s curr => options_loop fuel body argv curr s
        | Exit status message => Ok (Exited status message)
        end
    end
  else Ok (Parsed s curr).

End options.

(** The last two branches, which all programs share. *)
Definition help_or_unknown {St} (arg : string) : outcome (turn St) :=
  if strncmp_eq 3 "-h" arg then Ok (Exit 0 None)
  else Ok (Exit 1 (Some ("ERROR: unrecognized option " +:+ arg))).

Section programs.

(** The name functions and the draw of [random_device]. *)
Context (R : Address.Resolver) (draw : Z).

Definition set_recv_capacity (c : TCPConfig.t) (v : Z) : TCPConfig.t :=
  TCPConfig.mk (TCPConfig.rt_timeout c) v (TCPConfig.send_capacity c) (TCPConfig.fixed_isn c).
Definition set_rt_timeout (c : TCPConfig.t) (v : Z) : TCPConfig.t :=
  TCPConfig.mk v (TCPConfig.recv_capacity c) (TCPConfig.send_capacity c) (TCPConfig.fixed_isn c).
Definition set_loss_up (c : FdAdapterConfig.t) (v : Z) : FdAdapterConfig.t :=
  FdAdapterConfig.mk (FdAdapterConfig.source c) (FdAdapterConfig.destination c) (FdAdapterConfig.loss_rate_dn c) v.
Definition set_loss_dn (c : FdAdapterConfig.t) (v : Z) : FdAdapterConfig.t :=
  FdAdapterConfig.mk (FdAdapterConfig.source c) (FdAdapterConfig.destination c) v (FdAdapterConfig.loss_rate_up c).

(** ** The local variables of the three [get_config] *)

Record settings := Settings {
  c_fsm : TCPConfig.t;
  c_filt : FdAdapterConfig.t;
  listen : bool;
  source_address : string;
  source_port : string;
  next_hop_address : string;
  device : option string
}.

Definition with_fsm (s : settings) (c : TCPConfig.t) : settings :=
  Settings c (c_filt s) (listen s) (source_address s) (source_port s) (next_hop_address s) (device s).
Definition with_filt (s : settings) (c : FdAdapterConfig.t) : settings :=
  Settings (c_fsm s) c (listen s) (source_address s) (source_port s) (next_hop_address s) (device s).
Definition with_listen (s : settings) : settings :=
  Settings (c_fsm s) (c_filt s) true (source_address s) (source_port s) (next_hop_address s) (device s).
Definition with_source_address (s : settings) (a : string) : settings :=
  Settings (c_fsm s) (c_filt s) (listen s) a (source_port s) (next_hop_address s) (device s).
Definition with_source_port (s : settings) (a : string) : settings :=
  Settings (c_fsm s) (c_filt s) (listen s) (source_address s) a (next_hop_address s) (device s).
Definition with_next_hop (s : settings) (a : string) : settings :=
  Settings (c_fsm s) (c_filt s) (listen s) (source_address s) (source_port s) a (device s).
Definition with_device (s : settings) (a : string) : settings :=
  Settings (c_fsm s) (c_filt s) (listen s) (source_address s) (source_port s) (next_hop_address s) (Some a).

(** The effects of the options. *)
Definition use_window (s : settings) (a : string) : outcome settings :=
  Ok (with_fsm s (set_recv_capacity (c_fsm s) (u64 (strtol a)))).
Definition use_timeout (s : settings) (a : string) : outcome settings :=
  Ok (with_fsm s (set_rt_timeout (c_fsm s) (u16 (strtol a)))).
Definition use_loss_up (s : settings) (a : string) : outcome settings :=
  v ← loss_rate a; Ok (with_filt s (set_loss_up (c_filt s) v)).
Definition use_loss_dn (s : settings) (a : string) : outcome settings :=
  v ← loss_rate a; Ok (with_filt s (set_loss_dn (c_filt s) v)).

(** ** [tcp_ipv4] *)

Definition LOCAL_ADDRESS_DFLT : string := "169.254.144.9".

Definition ipv4_option (argv : list string) (curr : nat) (s : settings) : outcome (turn settings) :=
  arg ← argument argv curr;
  if strncmp_eq 3 "-l" arg then Ok (Next (with_listen s) (curr + 1))
  else if strncmp_eq 3 "-a" arg then
    with_argument argv curr "ERROR: -a requires one argument." (fun a => Ok (with_source_address s a))
  else if strncmp_eq 3 "-s" arg then
    with_argument argv curr "ERROR: -s requires one argument." (fun a => Ok (with_source_port s a))
  else if strncmp_eq 3 "-w" arg then
    with_argument argv curr "ERROR: -w requires one argument." (use_window s)
  else if strncmp_eq 3 "-t" arg then
    with_argument argv curr "ERROR: -t requires one argument." (use_timeout s)
  else if strncmp_eq 3 "-d" arg then
    with_argument argv curr "ERROR: -t requires one argument." (fun a => Ok (with_device s a))
  else if strncmp_eq 3 "-Lu" arg then
    with_argument argv curr "ERROR: -Lu requires one argument." (use_loss_up s)
  else if strncmp_eq 3 "-Ld" arg then
    with_argument argv curr "ERROR: -Lu requires one argument." (use_loss_dn s)
  else help_or_unknown arg.

(** The positional arguments. *)
Definition ipv4_positional (argv : list string) (curr : nat) (s : settings) : outcome (ending settings) :=
  if listen s then
    port ← argument argv (curr + 1);
    a ← Address.of_host R "0" port;
    let s := with_filt s (FdAdapterConfig.set_source (c_filt s) a) in
    p ← Address.port R (FdAdapterConfig.source (c_filt s));
    if p =? 0 then Ok (Exited 1 (Some "ERROR: listen port cannot be zero in server mode."))
    else Ok (Parsed s curr)
  else
    host ← argument argv curr;
    port ← argument argv (curr + 1);
    dst ← Address.of_host R host port;
    let s := with_filt s (FdAdapterConfig.set_destination (c_filt s) dst) in
    src ← Address.of_host R (source_address s) (source_port s);
    Ok (Parsed (with_filt s (FdAdapterConfig.set_source (c_filt s) src)) curr).

Definition ipv4_get_config (argv : list string) : outcome (ending settings) :=
  filt ← FdAdapterConfig.make R;
  let s := Settings TCPConfig.make filt false LOCAL_ADDRESS_DFLT (pretty (u16 draw)) "" None in
  e ← options_loop (length argv) ipv4_option argv 1 s;
  match e with
  | Exited status message => Ok (Exited status message)
  | Parsed s curr => ipv4_positional argv curr s
  end.

(** ** [tcp_udp] *)

Definition udp_option (argv : list string) (curr : nat) (s : settings) : outcome (turn settings) :=
  arg ← argument argv curr;
  if strncmp_eq 3 "-l" arg then Ok (Next (with_listen s) (curr + 1))
  else if strncmp_eq 3 "-w" arg then
    with_argument argv curr "ERROR: -w requires one argument." (use_window s)
  else if strncmp_eq 3 "-t" arg then
    with_argument argv curr "ERROR: -t requires one argument." (use_timeout s)
  else if strncmp_eq 3 "-Lu" arg then
    with_argument argv curr "ERROR: -Lu requires one argument." (use_loss_up s)
  else if strncmp_eq 3 "-Ld" arg then
    with_argument argv curr "ERROR: -Lu requires one argument." (use_loss_dn s)
  else help_or_unknown arg.

(** The positional arguments are the last two of [argv]. *)
Definition udp_positional (argv : list string) (curr : nat) (s : settings) : outcome (ending settings) :=
  if listen s then
    port ← argument argv (length argv - 1);
    a ← Address.of_host R "0" port;
    Ok (Parsed (with_filt s (FdAdapterConfig.set_source (c_filt s) a)) curr)
  else
    host ← argument argv (length argv - 2);
    port ← argument argv (length argv - 1);
    dst ← Address.of_host R host port;
    Ok (Parsed (with_filt s (FdAdapterConfig.set_destination (c_filt s) dst)) curr).

Definition udp_get_config (argv : list string) : outcome (ending settings) :=
  filt ← FdAdapterConfig.make R;
  let s := Settings TCPConfig.make filt false "" "" "" None in
  e ← options_loop (length argv) udp_option argv 1 s;
  match e with
  | Exited status message => Ok (Exited status message)
  | Parsed s curr => udp_positional argv curr s
  end.

(** ** [tcp_ip_ethernet] *)

Definition TAP_DFLT : string := "tap10".
Definition ETHERNET_ADDRESS_DFLT : string := "169.254.10.9".
Definition GATEWAY_DFLT : string := "169.254.10.1".

Definition ethernet_option (argv : list string) (curr : nat) (s : settings) : outcome (turn settings) :=
  arg ← argument argv curr;
  if strncmp_eq 3 "-a" arg then
    with_argument argv curr "ERROR: -a requires one argument." (fun a => Ok (with_source_address s a))
  else if strncmp_eq 3 "-s" arg then
    with_argument argv curr "ERROR: -s requires one argument." (fun a => Ok (with_source_port s a))
  else if strncmp_eq 3 "-n" arg then
    with_argument argv curr "ERROR: -n requires one argument." (fun a => Ok (with_next_hop s a))
  else if strncmp_eq 3 "-w" arg then
    with_argument argv curr "ERROR: -w requires one argument." (use_window s)
  else if strncmp_eq 3 "-t" arg then
    with_argument argv curr "ERROR: -t requires one argument." (use_timeout s)
  else if strncmp_eq 3 "-d" arg then
    with_argument argv curr "ERROR: -t requires one argument." (fun a => Ok (with_device s a))
  else help_or_unknown arg.

(** The configuration and the address of the next hop. *)
Definition ethernet_positional (argv : list string) (curr : nat) (s : settings)
  : outcome (ending (settings * Address.t)) :=
  host ← argument argv curr;
  port ← argument argv (curr + 1);
  dst ← Address.of_host R host port;
  let s := with_filt s (FdAdapterConfig.set_destination (c_filt s) dst) in
  src ← Address.of_host R (source_address s) (source_port s);
  let s := with_filt s (FdAdapterConfig.set_source (c_filt s) src) in
  next_hop ← Address.of_host R (next_hop_address s) "0";
  Ok (Parsed (s, next_hop) curr).

Definition ethernet_get_config (argv : list string) : outcome (ending (settings * Address.t)) :=
  filt ← FdAdapterConfig.make R;
  let s := Settings TCPConfig.make filt false ETHERNET_ADDRESS_DFLT (pretty (u16 draw)) GATEWAY_DFLT (Some TAP_DFLT) in
  e ← options_loop (length argv) ethernet_option argv 1 s;
  match e with
  | Exited status message => Ok (Exited status message)
  | Parsed s curr => ethernet_positional argv curr s
  end.

End programs.

(** ** Reading numbers back *)

Lemma base_digit_10 c : base_digit 10 c = digit_of c.
Proof.
  unfold base_digit, digit_value, digit_of. set (n := Z.of_N _). cbv zeta.
  destruct (Z.leb_spec 48 n), (Z.leb_spec n 57), (Z.leb_spec 97 n), (Z.leb_spec n 122), (Z.leb_spec 65 n),
    (Z.leb_spec n 90); cbn [andb]; try lia; try done;
    match goal with |- context [?x <? 10] => destruct (Z.ltb_spec x 10) end; done || lia.
Qed.

Lemma read_base_10 acc s : read_base 10 acc s = read_digits acc s.
Proof.
  revert acc. induction s as [|c s IH]; intros acc; [done|]. cbn [read_base read_digits].
  rewrite base_digit_10. by destruct (digit_of c).
Qed.

(** A positive number does not start with a zero. *)
Lemma pretty_go_head x : forall s, (0 < x)%N ->
  exists d t, (0 < d < 10)%N /\ pretty_N_go x s = String (pretty_N_char d) t.
Proof.
  induction (N.lt_wf_0 x) as [x _ IH]; intros s Hx. rewrite pretty_N_go_step by done.
  destruct (decide (x < 10)%N) as [Hlt|Hge].
  - rewrite N.div_small, N.mod_small, pretty_N_go_0 by done. by exists x, s.
  - apply IH; [apply N.div_lt; lia|]. apply N.div_str_pos. lia.
Qed.

Lemma strtol_pretty n : 0 <= n <= LONG_MAX -> strtol (pretty n) = n.
Proof.
  intros Hn. destruct (Z.eq_dec n 0) as [->|Hz]; [reflexivity|]. rewrite pretty_nonneg by lia.
  pose proof (read_digits_pretty_go (Z.to_N n) "") as Hv. cbn [read_digits] in Hv. rewrite Z2N.id in Hv by lia.
  destruct (pretty_go_head (Z.to_N n) "") as (d & t & Hd & E); [lia|]. rewrite E in *. clear E.
  rewrite <- read_base_10 in Hv.
  assert (Hc : d ∈ (1 :: 2 :: 3 :: 4 :: 5 :: 6 :: 7 :: 8 :: [9])%N) by (rewrite !elem_of_cons; lia).
  rewrite !elem_of_cons, elem_of_nil in Hc.
  assert (Hs : strtol (String (pretty_N_char d) t) = Z.max LONG_MIN (Z.min LONG_MAX (read_base 10 0 (String (pretty_N_char d) t))))
    by (destruct_or! Hc; subst d; reflexivity || done).
  rewrite Hs, Hv. unfold LONG_MIN, LONG_MAX in *. lia.
Qed.

(** ** The loops end *)

(** The program reads these arguments safely: a turn leaves the last two arguments alone and
    goes forward. *)
Definition well_behaved {St} (argv : list string) (body : list string -> nat -> St -> outcome (turn St)) : Prop :=
  forall curr s, (curr + 2 < length argv)%nat ->
    exists t, body argv curr s = Ok t /\
      match t with Next _ curr' => (curr < curr' /\ curr' + 2 <= length argv)%nat | Exit _ _ => True end.

Lemma options_loop_ends {St} (body : list string -> nat -> St -> outcome (turn St)) argv :
  well_behaved argv body -> forall fuel curr s, (curr + 2 <= length argv)%nat -> (length argv - curr <= fuel)%nat ->
  exists e, options_loop fuel body argv curr s = Ok e /\
    match e with Parsed _ curr' => (curr' + 2 = length argv)%nat | Exited _ _ => True end.
Proof.
  intros Hb. induction fuel as [|fuel IH]; intros curr s Hc Hf; [lia|]. cbn [options_loop].
  destruct (Z.ltb_spec 2 (zlen argv - Z.of_nat curr)); [|eexists; split; [done|]; simpl; lia].
  destruct (Hb curr s) as (t & -> & Ht); [lia|]. cbn [mbind outcome_bind].
  destruct t as [s' curr'|status message]; [|by eexists]. apply IH; lia.
Qed.

Lemma argument_ok argv i : (i < length argv)%nat -> exists a, argument argv i = Ok a /\ argv !! i = Some a.
Proof. intros Hi. unfold argument. destruct (lookup_lt_is_Some_2 argv i Hi) as [a ->]. by exists a. Qed.

Lemma with_argument_ok {St} argv curr err (use : string -> outcome St) :
  (forall a, argv !! S curr = Some a -> exists s, use a = Ok s) ->
  exists t, with_argument argv curr err use = Ok t /\
    match t with Next _ curr' => (curr < curr' /\ curr' + 2 <= length argv)%nat | Exit _ _ => True end.
Proof.
  intros Hu. unfold with_argument. destruct (Z.leb_spec (zlen argv) (Z.of_nat curr + 3)); [by eexists|].
  rewrite Nat.add_1_r. destruct (argument_ok argv (S curr)) as (a & -> & Ha); [lia|]. cbn [mbind outcome_bind].
  destruct (Hu a Ha) as [s ->]. cbn [mbind outcome_bind]. eexists. split; [done|]. simpl. lia.
Qed.

Lemma help_or_unknown_ok {St} (argv : list string) curr arg :
  exists t : turn St, help_or_unknown arg = Ok t /\
    match t with Next _ curr' => (curr < curr' /\ curr' + 2 <= length argv)%nat | Exit _ _ => True end.
Proof. unfold help_or_unknown. destruct (strncmp_eq _ _ _); by eexists. Qed.

(** The option takes a loss rate; a longer text with the same start is taken for it too. *)
Definition takes_loss_rate (o : string) : bool := strncmp_eq 3 "-Lu" o || strncmp_eq 3 "-Ld" o.

(** Every loss rate on the command line is one the conversion to 16 bits is defined for. *)
Definition loss_rates_defined (argv : list string) : Prop :=
  forall i o a, argv !! i = Some o -> argv !! S i = Some a -> takes_loss_rate o = true ->
    exists v, loss_rate a = Ok v.

#[local] Opaque loss_rate.

Section well_behaved_programs.

Context (argv : list string) (Hloss : loss_rates_defined argv).

Lemma use_loss_ok (g : Z -> settings) i o a : argv !! i = Some o -> takes_loss_rate o = true -> argv !! S i = Some a ->
  exists s, (v ← loss_rate a; Ok (g v)) = Ok s.
Proof. intros Ho Ht Ha. destruct (Hloss i o a Ho Ha Ht) as [v ->]. by eexists. Qed.

(** Goes through the branches of a turn. *)
Ltac each_option :=
  intros curr s Hc; destruct (argument_ok argv curr) as (arg & Harg & Hat); [lia|];
  unfold ipv4_option, udp_option, ethernet_option; rewrite Harg; cbn [mbind outcome_bind];
  repeat (match goal with |- context [strncmp_eq ?n ?o arg] => destruct (strncmp_eq n o arg) eqn:? end;
    [first [apply with_argument_ok; intros a Ha;
            first [unfold use_loss_up, use_loss_dn; eapply use_loss_ok; [exact Hat| |exact Ha]; apply orb_true_iff; auto
                  |eexists; reflexivity]
           |eexists; split; [reflexivity|]; simpl; lia]|]);
  apply help_or_unknown_ok.

Lemma ipv4_option_ok : well_behaved argv ipv4_option.
Proof. each_option. Qed.

Lemma udp_option_ok : well_behaved argv udp_option.
Proof. each_option. Qed.

Lemma ethernet_option_ok : well_behaved argv ethernet_option.
Proof. each_option. Qed.

End well_behaved_programs.

(** ** Options written out *)

Inductive opt :=
  | OListen
  | OAddress (a : string)
  | OPort (a : string)
  | ONextHop (a : string)
  | OWindow (n : Z)
  | OTimeout (n : Z)
  | ODevice (a : string)
  | OLossUp (n : Z)
  | OLossDn (n : Z).

(** A loss rate of [n] thousandths, as one writes it: [0.250]. *)
Definition rate_text (n : Z) : string :=
  pretty (n / 1000) +:+ "." +:+ pretty ((n / 100) `mod` 10) +:+ pretty ((n / 10) `mod` 10) +:+ pretty (n `mod` 10).

Definition render (o : opt) : list string :=
  match o with
  | OListen => ["-l"]
  | OAddress a => ["-a"; a]
  | OPort a => ["-s"; a]
  | ONextHop a => ["-n"; a]
  | OWindow n => ["-w"; pretty n]
  | OTimeout n => ["-t"; pretty n]
  | ODevice a => ["-d"; a]
  | OLossUp n => ["-Lu"; rate_text n]
  | OLossDn n => ["-Ld"; rate_text n]
  end.

(** The numbers of the options are in the range of their field. *)
Definition opt_ok (o : opt) : Prop :=
  match o with
  | OWindow n => 0 <= n < two63
  | OTimeout n => 0 <= n < two16
  | OLossUp n | OLossDn n => 0 <= n <= 1000
  | _ => True
  end.

(** A rate of [n] thousandths becomes that share of 65535, rounded down: the two roundings to
    [float] never cross an integer. *)
Lemma loss_rate_text n : 0 <= n <= 1000 -> loss_rate (rate_text n) = Ok (65535 * n / 1000).
Proof.
  intros Hn.
  assert (H : forallb (fun k => match loss_rate (rate_text (Z.of_nat k)) with
    Ok v => v =? 65535 * Z.of_nat k / 1000 | _ => false end) (seq 0 1001) = true) by (vm_compute; reflexivity).
  rewrite forallb_forall in H. specialize (H (Z.to_nat n)). rewrite Z2Nat.id in H by lia.
  destruct (loss_rate (rate_text n)) as [v| | |]; (lapply H; [|apply in_seq; lia]); [|done..].
  intros ->%Z.eqb_eq. done.
Qed.


(** What an option means. *)
Definition apply_opt (s : settings) (o : opt) : outcome settings :=
  match o with
  | OListen => Ok (with_listen s)
  | OAddress a => Ok (with_source_address s a)
  | OPort a => Ok (with_source_port s a)
  | ONextHop a => Ok (with_next_hop s a)
  | OWindow n => Ok (with_fsm s (set_recv_capacity (c_fsm s) n))
  | OTimeout n => Ok (with_fsm s (set_rt_timeout (c_fsm s) n))
  | ODevice a => Ok (with_device s a)
  | OLossUp n => Ok (with_filt s (set_loss_up (c_filt s) (65535 * n / 1000)))
  | OLossDn n => Ok (with_filt s (set_loss_dn (c_filt s) (65535 * n / 1000)))
  end.

Fixpoint apply_opts (s : settings) (opts : list opt) : outcome settings :=
  match opts with
  | [] => Ok s
  | o :: opts => s ← apply_opt s o; apply_opts s opts
  end.

(** The program understands the option wherever it stands before host and port. *)
Definition handles (body : list string -> nat -> settings -> outcome (turn settings)) (o : opt) : Prop :=
  forall pre post s, (2 <= length post)%nat ->
    body (pre ++ render o ++ post)%list (length pre) s =
    (s ← apply_opt s o; Ok (Next s (length pre + length (render o)))).

Lemma options_loop_handles body opts : Forall (handles body) opts -> forall fuel pre post s,
  length post = 2%nat -> (length opts <= fuel)%nat ->
  options_loop fuel body (pre ++ (opts ≫= render) ++ post)%list (length pre) s =
  (s ← apply_opts s opts; Ok (Parsed s (length pre + length (opts ≫= render)))).
Proof.
  induction 1 as [|o opts Ho Hos IH]; intros fuel pre post s Hp Hf; cbn [mbind list_bind apply_opts app].
  - rewrite Nat.add_0_r. destruct fuel; cbn [options_loop mbind outcome_bind]; rewrite length_app, Hp;
      (destruct (Z.ltb_spec 2 (Z.of_nat (length pre + 2) - zlen pre)); [lia|done]).
  - destruct fuel as [|fuel]; [simpl in Hf; lia|]. cbn [options_loop].
    assert (Hr : (0 < length (render o))%nat) by (destruct o; simpl; lia).
    rewrite <- (app_assoc (render o)), !length_app, Hp.
    destruct (Z.ltb_spec 2 (Z.of_nat (length pre + (length (render o) + (length (opts ≫= render) + 2))) - zlen pre)); [|lia].
    rewrite Ho by (rewrite length_app; lia). destruct (apply_opt s o) as [s'| | |]; [|done..].
    cbn [mbind outcome_bind]. rewrite app_assoc. rewrite <- length_app. rewrite IH by (simpl in Hf; lia).
    destruct (apply_opts s' opts); [|done..]. cbn [mbind outcome_bind]. do 2 f_equal. rewrite !length_app. lia.
Qed.

Lemma argument_mid (pre post : list string) a : argument (pre ++ a :: post)%list (length pre) = Ok a.
Proof. unfold argument. by rewrite list_lookup_middle. Qed.

Lemma with_argument_mid (pre post : list string) name a err (use : string -> outcome settings) :
  (2 <= length post)%nat ->
  with_argument (pre ++ name :: a :: post)%list (length pre) err use = (s ← use a; Ok (Next s (length pre + 2))).
Proof.
  intros Hp. unfold with_argument. rewrite length_app. simpl length.
  destruct (Z.leb_spec (Z.of_nat (length pre + S (S (length post)))) (zlen pre + 3)); [lia|].
  assert (E : argument (pre ++ name :: a :: post)%list (length pre + 1) = Ok a).
  { change (name :: a :: post) with ([name] ++ a :: post)%list. rewrite app_assoc.
    replace (length pre + 1)%nat with (length (pre ++ [name])%list) by (rewrite length_app; simpl; lia).
    apply argument_mid. }
  by rewrite E.
Qed.

(** Reads an option off the command line. *)
Ltac read_option :=
  rewrite argument_mid; cbn [mbind outcome_bind];
  repeat match goal with |- context [strncmp_eq ?n ?a ?b] =>
    let v := eval vm_compute in (strncmp_eq n a b) in change (strncmp_eq n a b) with v; cbv iota end;
  rewrite ?with_argument_mid by done; unfold use_window, use_timeout, use_loss_up, use_loss_dn;
  rewrite ?strtol_pretty by (unfold LONG_MAX; lia); rewrite ?u64_small, ?u16_small by lia;
  rewrite ?loss_rate_text by lia; done.

(** The options of the three programs. *)
Definition ipv4_knows (o : opt) : Prop := match o with ONextHop _ => False | _ => True end.
Definition udp_knows (o : opt) : Prop :=
  match o with OListen | OWindow _ | OTimeout _ | OLossUp _ | OLossDn _ => True | _ => False end.
Definition ethernet_knows (o : opt) : Prop :=
  match o with OListen | OLossUp _ | OLossDn _ => False | _ => True end.

Lemma ipv4_handles o : opt_ok o /\ ipv4_knows o -> handles (ipv4_option) o.
Proof.
  intros [Hok Hk] pre post s Hp. unfold ipv4_option. destruct o; try done; cbn [render app apply_opt length opt_ok] in *; read_option.
Qed.

Lemma udp_handles o : opt_ok o /\ udp_knows o -> handles (udp_option) o.
Proof.
  intros [Hok Hk] pre post s Hp. unfold udp_option. destruct o; try done; cbn [render app apply_opt length opt_ok] in *; read_option.
Qed.

Lemma ethernet_handles o : opt_ok o /\ ethernet_knows o -> handles ethernet_option o.
Proof.
  intros [Hok Hk] pre post s Hp. unfold ethernet_option. destruct o; try done; cbn [render app apply_opt length opt_ok] in *; read_option.
Qed.

Lemma render_length opts : (length opts <= length (opts ≫= render))%nat.
Proof.
  induction opts as [|o opts IH]; [done|]. cbn [mbind list_bind]. rewrite length_app.
  destruct o; cbn [render length] in *; lia.
Qed.

(** The whole loop, from the first argument on. *)
Lemma options_loop_rendered body opts prog host port s :
  Forall (handles body) opts ->
  let argv := (prog :: (opts ≫= render) ++ [host; port])%list in
  options_loop (length argv) body argv 1 s =
  (s ← apply_opts s opts; Ok (Parsed s (S (length (opts ≫= render))))).
Proof.
  intros Hh. cbv zeta. pose proof (render_length opts).
  apply (options_loop_handles body opts Hh _ [prog] [host; port] s); [done|]. simpl. rewrite length_app. lia.
Qed.

(** ** What the programs are told *)

Section reference.

Context (R : Address.Resolver) (draw : Z).

(** The configuration of [tcp_ipv4] for the options, host and port. *)
Definition ipv4_reference (opts : list opt) (host port : string) : outcome (settings + string) :=
  filt ← FdAdapterConfig.make R;
  s ← apply_opts (Settings TCPConfig.make filt false LOCAL_ADDRESS_DFLT (pretty (u16 draw)) "" None) opts;
  if listen s then
    a ← Address.of_host R "0" port;
    p ← Address.port R a;
    Ok (if p =? 0 then inr "ERROR: listen port cannot be zero in server mode."
        else inl (with_filt s (FdAdapterConfig.set_source (c_filt s) a)))
  else
    dst ← Address.of_host R host port;
    src ← Address.of_host R (source_address s) (source_port s);
    Ok (inl (with_filt s (FdAdapterConfig.set_source (FdAdapterConfig.set_destination (c_filt s) dst) src))).

Definition udp_reference (opts : list opt) (host port : string) : outcome settings :=
  filt ← FdAdapterConfig.make R;
  s ← apply_opts (Settings TCPConfig.make filt false "" "" "" None) opts;
  if listen s then
    a ← Address.of_host R "0" port;
    Ok (with_filt s (FdAdapterConfig.set_source (c_filt s) a))
  else
    dst ← Address.of_host R host port;
    Ok (with_filt s (FdAdapterConfig.set_destination (c_filt s) dst)).

Definition ethernet_reference (opts : list opt) (host port : string) : outcome (settings * Address.t) :=
  filt ← FdAdapterConfig.make R;
  s ← apply_opts (Settings TCPConfig.make filt false ETHERNET_ADDRESS_DFLT (pretty (u16 draw))
        GATEWAY_DFLT (Some TAP_DFLT)) opts;
  dst ← Address.of_host R host port;
  src ← Address.of_host R (source_address s) (source_port s);
  next_hop ← Address.of_host R (next_hop_address s) "0";
  Ok (with_filt s (FdAdapterConfig.set_source (FdAdapterConfig.set_destination (c_filt s) dst) src), next_hop).

End reference.

(** How a program ends: the result, without the place of the host. *)
Definition outcome_of {A} (e : ending A) : A + Z * option string :=
  match e with Parsed a _ => inl a | Exited status message => inr (status, message) end.

Lemma rendered_host opts prog host port :
  argument (prog :: (opts ≫= render) ++ [host; port])%list (S (length (opts ≫= render))) = Ok host /\
  argument (prog :: (opts ≫= render) ++ [host; port])%list (S (length (opts ≫= render)) + 1) = Ok port.
Proof.
  split; [apply (argument_mid (prog :: (opts ≫= render)) [port] host)|].
  change (prog :: (opts ≫= render) ++ [host; port])%list with ((prog :: (opts ≫= render)) ++ [host; port])%list.
  change [host; port] with ([host] ++ [port])%list. rewrite app_assoc.
  replace (S (length (opts ≫= render)) + 1)%nat with (length ((prog :: (opts ≫= render)) ++ [host])%list)
    by (rewrite length_app; simpl; lia).
  apply argument_mid.
Qed.

(** ** Properties *)

(** C38. The command line says what it means: for any sequence of options a program knows, with
    numbers in the range of their fields, followed by host and port, [get_config] returns the
    configuration the options describe, the last of several equal options winning.  [tcp_ipv4]
    refuses to listen on port 0. *)
Theorem command_line_roundtrip (R : Address.Resolver) (draw : Z)
  (opts : list opt) (prog host port : string) (Hok : Forall opt_ok opts) :
  let argv := (prog :: (opts ≫= render) ++ [host; port])%list in
  (Forall ipv4_knows opts ->
   (e ← ipv4_get_config R draw argv; Ok (outcome_of e)) =
   (r ← ipv4_reference R draw opts host port;
    Ok match r with inl s => inl s | inr message => inr (1, Some message) end)) /\
  (Forall udp_knows opts ->
   (e ← udp_get_config R argv; Ok (outcome_of e)) =
   (s ← udp_reference R opts host port; Ok (inl s))) /\
  (Forall ethernet_knows opts ->
   (e ← ethernet_get_config R draw argv; Ok (outcome_of e)) =
   (s ← ethernet_reference R draw opts host port; Ok (inl s))).
Proof.
  cbv zeta. pose proof (rendered_host opts prog host port) as [Hhost Hport].
  set (argv := (prog :: (opts ≫= render) ++ [host; port])%list) in *.
  assert (Hlen : length argv = S (S (S (length (opts ≫= render))))) by (unfold argv; simpl; rewrite length_app; simpl; lia).
  assert (Hloop : forall body P s, (forall o, opt_ok o /\ P o -> handles body o) -> Forall P opts ->
    options_loop (length argv) body argv 1 s = (s ← apply_opts s opts; Ok (Parsed s (S (length (opts ≫= render)))))).
  { intros body P s Hh HP. apply options_loop_rendered. apply Forall_forall. intros o Ho.
    rewrite Forall_forall in Hok, HP. auto. }
  split_and!; intros Hk.
  - unfold ipv4_get_config, ipv4_reference. destruct (FdAdapterConfig.make R) as [filt| | |]; [|done..].
    cbn [mbind outcome_bind]. rewrite (Hloop _ _ _ (ipv4_handles) Hk).
    destruct (apply_opts _ _) as [s| | |]; [|done..]. cbn [mbind outcome_bind]. unfold ipv4_positional.
    destruct (listen s); rewrite ?Hhost, ?Hport; cbn [mbind outcome_bind].
    + destruct (Address.of_host R "0" port) as [a| | |]; [|done..]. cbn [mbind outcome_bind]. simpl FdAdapterConfig.source.
      destruct (Address.port R a) as [q| | |]; [|done..]. cbn [mbind outcome_bind]. by destruct (q =? 0).
    + destruct (Address.of_host R host port) as [a| | |]; [|done..]. cbn [mbind outcome_bind]. simpl source_address. simpl source_port.
      by destruct (Address.of_host R (source_address s) (source_port s)).
  - unfold udp_get_config, udp_reference. destruct (FdAdapterConfig.make R) as [filt| | |]; [|done..].
    cbn [mbind outcome_bind]. rewrite (Hloop _ _ _ (udp_handles) Hk).
    destruct (apply_opts _ _) as [s| | |]; [|done..]. cbn [mbind outcome_bind]. unfold udp_positional.
    rewrite Nat.add_1_r in Hport.
    replace (length argv - 2)%nat with (S (length (opts ≫= render))) by lia.
    replace (length argv - 1)%nat with (S (S (length (opts ≫= render)))) by lia.
    destruct (listen s); rewrite ?Hhost, ?Hport; cbn [mbind outcome_bind].
    + by destruct (Address.of_host R "0" port).
    + by destruct (Address.of_host R host port).
  - unfold ethernet_get_config, ethernet_reference. destruct (FdAdapterConfig.make R) as [filt| | |]; [|done..].
    cbn [mbind outcome_bind]. rewrite (Hloop _ _ _ (ethernet_handles) Hk).
    destruct (apply_opts _ _) as [s| | |]; [|done..]. cbn [mbind outcome_bind]. unfold ethernet_positional.
    rewrite Hhost, Hport. cbn [mbind outcome_bind].
    destruct (Address.of_host R host port) as [a| | |]; [|done..]. cbn [mbind outcome_bind]. simpl source_address. simpl source_port.
    destruct (Address.of_host R (source_address s) (source_port s)) as [b| | |]; [|done..]. cbn [mbind outcome_bind]. simpl next_hop_address.
    by destruct (Address.of_host R (next_hop_address s) "0").
Qed.

Lemma command_line_roundtrip_witness :
  Forall opt_ok [OListen; OWindow 4096; OTimeout 50; OLossUp 250] /\
  (e ← udp_get_config numeric_resolver ["tcp_udp"; "-l"; "-w"; "4096"; "-t"; "50"; "-Lu"; "0.250"; "0"; "9090"]; Ok (outcome_of e)) =
  (s ← udp_reference numeric_resolver [OListen; OWindow 4096; OTimeout 50; OLossUp 250] "0" "9090"; Ok (inl s)).
Proof.
  assert (Hok : Forall opt_ok [OListen; OWindow 4096; OTimeout 50; OLossUp 250]) by (repeat apply Forall_cons_2; simpl; lia || done).
  split; [exact Hok|].
  apply (command_line_roundtrip numeric_resolver 0 [OListen; OWindow 4096; OTimeout 50; OLossUp 250] "tcp_udp" "0" "9090" Hok).
  repeat apply Forall_cons_2; done.
Defined.

(** No command line makes a program read past its arguments or loop: with at least a host and a
    port, the option loop of each program ends, either by leaving the program or with exactly
    the last two arguments left.  The loss rates have to be ones the conversion to 16 bits is
    defined for. *)
Theorem command_line_safe (argv : list string) (s : settings)
  (Hloss : loss_rates_defined argv) (Hargc : (3 <= length argv)%nat) :
  Forall (fun body => exists e, options_loop (length argv) body argv 1 s = Ok e /\
      match e with Parsed _ curr => (curr + 2 = length argv)%nat | Exited _ _ => True end)
    [ipv4_option; udp_option; ethernet_option].
Proof.
  repeat apply Forall_cons_2; [..|by apply Forall_nil_2]; apply options_loop_ends; try lia;
    [by apply ipv4_option_ok|by apply udp_option_ok|by apply ethernet_option_ok].
Qed.

Lemma command_line_safe_witness :
  exists e, options_loop 6 udp_option ["tcp_udp"; "-Lu"; "0.25"; "-w"; "localhost"; "9090"] 1
      (Settings TCPConfig.make (FdAdapterConfig.mk (ipv4_address 0) (ipv4_address 0) 0 0) false "" "" "" None) = Ok e /\
    match e with Parsed _ curr => (curr + 2 = 6)%nat | Exited _ _ => True end.
Proof.
  assert (Hl : loss_rates_defined ["tcp_udp"; "-Lu"; "0.25"; "-w"; "localhost"; "9090"]).
  { intros i o a Ho Ha Ht. destruct i as [|[|[|[|[|[|i]]]]]]; simplify_eq/=; try discriminate Ht.
    exists 16383. vm_compute. reflexivity. }
  assert (H := command_line_safe ["tcp_udp"; "-Lu"; "0.25"; "-w"; "localhost"; "9090"]
    (Settings TCPConfig.make (FdAdapterConfig.mk (ipv4_address 0) (ipv4_address 0) 0 0) false "" "" "" None)
    Hl ltac:(simpl; lia)).
  rewrite Forall_forall in H. apply H. right. left.
Defined.

(** A loss rate below zero or above one is undefined behaviour, and so is one that is no number. *)
Lemma loss_rate_undefined :
  Forall (fun a => loss_rate a = Undefined) ["-0.5"; "1.1"; "inf"; "nan"].
Proof. repeat apply Forall_cons_2; [vm_compute; reflexivity..|by apply Forall_nil_2]. Qed.
