(* ===== verification/Tcpdump.v ===== *)
(** * Tcpdump.v: the packet dump

    Models [apps/udp_tcpdump.cc]: the command line, the walk over the IPv4 and IPv6 headers of a
    captured packet, and what [main] prints for a packet that carries a TCP segment in a UDP
    datagram.  A packet is the list of its captured bytes, and reading past them is undefined
    behaviour; the capture itself (libpcap) is a parameter, the list of what [pcap_next_ex]
    returns.  [inet_ntop(3)] is a parameter too. *)

From Stdlib Require Import Ascii.
From stdpp Require Import strings pretty.
From S2P Require Import Prelude Wrapping Buffers Parsing TcpWire Printers CmdLine.

Local Open Scope string_scope.
Local Open Scope Z_scope.

(** ** The command line *)

(** How the loop of [parse_arguments] ends: the device if one was named and the place of the
    filter expression, or the program's exit. *)
Inductive arguments :=
  | Capture (dev : option string) (exp_start : nat)
  | Leave (status : Z) (message : option string).

Fixpoint arguments_loop (fuel : nat) (argv : list string) (dev : option string) (curr : nat) : outcome arguments :=
  if Z.of_nat curr <? zlen argv then
    match fuel with
    | O => OutOfFuel
    | S fuel =>
        arg ← argument argv curr;
        if strncmp_eq 3 "-i" arg then
          if zlen argv <=? Z.of_nat curr + 1 then Ok (Leave 1 (Some "ERROR: -i requires an argument"))
          else d ← argument argv (curr + 1); arguments_loop fuel argv (Some d) (curr + 2)
        else if strncmp_eq 3 "-h" arg || strncmp_eq 7 "--help" arg then Ok (Leave 0 None)
        else Ok (Capture dev curr)
    end
  else Ok (Capture dev curr).

Definition parse_arguments (argv : list string) : outcome arguments :=
  arguments_loop (length argv) argv None 1.

(** ** Headers *)

Definition AF_INET : Z := 2.
Definition AF_INET6 : Z := 10.

(** [data[i]] and a run of bytes at [data + off]. *)
Definition byte_at (data : list byte) (i : Z) : outcome Z :=
  match zget data i with Some b => Ok (Z_of_byte b) | None => Undefined end.

Definition bytes_at (data : list byte) (off n : Z) : outcome (list byte) :=
  if off + n <=? zlen data then Ok (ztake n (zdrop off data)) else Undefined.

Section dump.

Context (inet_ntop : Z -> list byte -> option string).

Definition inet4_addr (data : list byte) (off : Z) : outcome string :=
  b ← bytes_at data off 4; Ok (default "unknown" (inet_ntop AF_INET b)).
Definition inet6_addr (data : list byte) (off : Z) : outcome string :=
  b ← bytes_at data off 16; Ok (default "unknown" (inet_ntop AF_INET6 b)).

(** The loop over the extension headers of an IPv6 packet: where the UDP header starts. *)
Fixpoint extension_headers (fuel : nat) (len : Z) (data : list byte) (nxt data_offset : Z) : outcome (option Z) :=
  if nxt =? 17 then Ok (Some data_offset)
  else if negb (nxt =? 0) && negb (nxt =? 43) && negb (nxt =? 60) then Ok None
  else
    match fuel with
    | O => OutOfFuel
    | S fuel =>
        nxt ← byte_at data data_offset;
        l ← byte_at data (data_offset + 1);
        let data_offset := data_offset + 8 * (1 + l) in
        if len <? data_offset + 2 then Ok None
        else extension_headers fuel len data nxt data_offset
    end.

(** [process_ipv4_ipv6]: the offset of the UDP payload and the two addresses, or -1. *)
Definition process_ipv4_ipv6 (len : Z) (data : list byte) : outcome (Z * string * string) :=
  if len <? 1 then Ok (-1, "", "")
  else
    first ← byte_at data 0;
    let pt := Z.land first 240 in
    if pt =? 64 then
      let data_offset := Z.land first 15 * 4 in
      if len <? data_offset then Ok (-1, "", "")
      else
        proto ← byte_at data 9;
        if negb (proto =? 17) then Ok (-1, "", "")
        else
          src ← inet4_addr data 12;
          dst ← inet4_addr data 16;
          Ok (data_offset + 8, src, dst)
    else if pt =? 96 then
      if len <? 42 then Ok (-1, "", "")
      else
        nxt ← byte_at data 6;
        r ← extension_headers (Z.to_nat len) len data nxt 40;
        match r with
        | None => Ok (-1, "", "")
        | Some data_offset =>
            src ← inet6_addr data 8;
            dst ← inet6_addr data 24;
            Ok (data_offset + 8, src, dst)
        end
    else Ok (-1, "", "").

(** ** One packet *)

Inductive datalink := DLT_RAW | DLT_NULL | DLT_EN10MB | DLT_LINUX_SLL | DLT_LINUX_SLL2 | DLT_OTHER.

(** Where the IP header is, by link type. *)
Inductive link_header :=
  | At (hdr_off : Z)
  | Malformed
  | NonIP
  | Mysterious.

(** A link header of [hdr_off] bytes with the packet type in two bytes at [off]. *)
Definition typed_header (pkt : list byte) (hdr_off off : Z) : outcome link_header :=
  if zlen pkt <? hdr_off then Ok Malformed
  else
    hi ← byte_at pkt off;
    lo ← byte_at pkt (off + 1);
    let pt := Z.lor (Z.shiftl hi 8) lo in
    if negb (pt =? 2048) && negb (pt =? 34525) then Ok NonIP else Ok (At hdr_off).

Definition find_header (dl_type : datalink) (pkt : list byte) : outcome link_header :=
  match dl_type with
  | DLT_NULL =>
      if zlen pkt <? 4 then Ok Malformed
      else
        pt ← byte_at pkt 3;
        if negb (pt =? 2) && negb (pt =? 24) && negb (pt =? 28) && negb (pt =? 30) then Ok NonIP else Ok (At 4)
  | DLT_EN10MB => typed_header pkt 14 12
  | DLT_LINUX_SLL => typed_header pkt 16 14
  | DLT_LINUX_SLL2 => typed_header pkt 20 0
  | DLT_RAW => Ok (At 0)
  | DLT_OTHER => Ok Mysterious
  end.

(** The line for a segment: the header [h], whether its checksum is correct, the sequence
    numbers it uses and the length of the payload. *)
Definition segment_line (src dst : string) (h : TCPHeader.t) (correct : bool) (seqlen payload_len : Z) : string :=
  src +:+ ":" +:+ pretty (TCPHeader.sport h) +:+ " > " +:+ dst +:+ ":" +:+ pretty (TCPHeader.dport h) +:+ nl +:+
  "    Flags [" +:+ flag (TCPHeader.urg h) "U" +:+ flag (TCPHeader.psh h) "P" +:+ flag (TCPHeader.rst h) "R" +:+
  flag (TCPHeader.syn h) "S" +:+ flag (TCPHeader.fin h) "F" +:+ flag (TCPHeader.ack h) "." +:+
  "] cksum 0x" +:+ setw 4 "0"%char (hex (TCPHeader.cksum h)) +:+
  (if correct then " (correct)" else " (incorrect!)") +:+
  " seq " +:+ pretty (WrappingInt32.raw_value (TCPHeader.seqno h)) +:+
  (if 0 <? seqlen then ":" +:+ pretty (WrappingInt32.raw_value (WrappingInt32.add (TCPHeader.seqno h) seqlen)) else "") +:+
  " ack " +:+ pretty (WrappingInt32.raw_value (TCPHeader.ackno h)) +:+ " win " +:+ pretty (TCPHeader.win h) +:+
  " length " +:+ pretty payload_len +:+ nl.

(** What is shown of the UDP payload. *)
Definition show_payload (src dst : string) (payload : list byte) : outcome string :=
  '(res, seg) ← TCPSegment.parse TCPSegment.make (Buffer.of_string payload) 0;
  let line :=
    if ParseResult_index BadChecksum <? ParseResult_index res
    then "(did not recognize TCP header) src: " +:+ src +:+ " dst: " +:+ dst +:+ nl
    else segment_line src dst (TCPSegment.header seg) (bool_decide (res = NoError))
           (u32 (TCPSegment.length_in_sequence_space seg)) (zlen payload) in
  h ← hexdump payload 8;
  Ok (line +:+ h).

(** What [main] does with a packet. *)
Inductive shown_packet :=
  | Shown (text : string)
  | Skipped (message : string)
  | GivenUp (message : string).

(** [string(payload)] throws when its length is above [max_size()]. *)
Definition MAX_SIZE : Z := two63 - 1.

Definition show_packet (dl_type : datalink) (pkt : list byte) : outcome shown_packet :=
  l ← find_header dl_type pkt;
  match l with
  | Malformed => Ok (Skipped "[INFO] Skipping malformed packet.")
  | NonIP => Ok (Skipped "[INFO] Skipping non-IP packet.")
  | Mysterious => Ok (GivenUp "Mysterious datalink type. Giving up.")
  | At hdr_off =>
      '(start_off, src, dst) ← process_ipv4_ipv6 (zlen pkt - hdr_off) (zdrop hdr_off pkt);
      if start_off <? 0 then Ok (Skipped "Error parsing IPv4/IPv6 packet. Skipping.")
      else
        let payload_off := hdr_off + start_off in
        let payload_len := u64 (zlen pkt - payload_off) in
        if MAX_SIZE <? payload_len then Throw (length_error "basic_string::_M_create")
        else
          payload ← bytes_at pkt payload_off payload_len;
          text ← show_payload src dst payload;
          Ok (Shown text)
  end.

(** What [pcap_next_ex] returns; its other results end the loop. *)
Inductive captured := Timeout | Packet (data : list byte) | Failed.

(** The loop of [main] and its exit status. *)
Fixpoint capture_loop (dl_type : datalink) (l : list captured) : outcome (list shown_packet * Z) :=
  match l with
  | [] => Ok ([], 0)
  | Failed :: _ => Ok ([], 1)
  | Timeout :: l => capture_loop dl_type l
  | Packet data :: l =>
      p ← show_packet dl_type data;
      match p with
      | GivenUp _ => Ok ([p], 1)
      | _ => '(ps, status) ← capture_loop dl_type l; Ok (p :: ps, status)
      end
  end.

End dump.

(** ** Lemmas *)

Lemma byte_at_ok data i : 0 <= i < zlen data -> exists z, byte_at data i = Ok z /\ 0 <= z < two8.
Proof.
  intros Hi. unfold byte_at. destruct (zget_is_Some data i Hi) as [b ->]. eexists. split; [done|]. apply Z_of_byte_range.
Qed.

Lemma bytes_at_ok data off n : off + n <= zlen data -> bytes_at data off n = Ok (ztake n (zdrop off data)).
Proof. intros H. unfold bytes_at. by destruct (Z.leb_spec (off + n) (zlen data)); [|lia]. Qed.

(** Every turn moves at least eight bytes on and stays two bytes inside the packet. *)
Lemma extension_headers_ok data : forall fuel nxt off,
  40 <= off -> off + 2 <= zlen data -> zlen data - off <= 8 * Z.of_nat fuel ->
  exists r, extension_headers fuel (zlen data) data nxt off = Ok r /\
    match r with
    | Some off' => off <= off' /\ off' + 2 <= zlen data /\ (off' - off) mod 8 = 0
    | None => True
    end.
Proof.
  induction fuel as [|fuel IH]; intros nxt off Ho Hl Hf; [lia|]. cbn [extension_headers].
  destruct (nxt =? 17); [eexists; split; [done|]; simpl; rewrite Z.sub_diag; split_and!; done || lia|].
  destruct (negb _ && negb _ && negb _); [by eexists|].
  destruct (byte_at_ok data off) as (nxt' & -> & _); [lia|]. cbn [mbind outcome_bind].
  destruct (byte_at_ok data (off + 1)) as (l & -> & Hb); [lia|]. cbn [mbind outcome_bind].
  destruct (Z.ltb_spec (zlen data) (off + 8 * (1 + l) + 2)); [by eexists|].
  destruct (IH nxt' (off + 8 * (1 + l))) as (r & -> & Hr); [lia..|].
  eexists. split; [done|]. destruct r as [off'|]; [|done]. destruct Hr as (H1 & H2 & H3).
  split_and!; [lia|done|]. replace (off' - off) with (off' - (off + 8 * (1 + l)) + (1 + l) * 8) by lia.
  by rewrite Z_mod_plus_full.
Qed.

(** ** Whole packets *)

Section packets.

Context (inet_ntop : Z -> list byte -> option string).

(** The version a packet claims. *)
Definition ip_version (data : list byte) : Z :=
  match data with [] => 0 | b :: _ => Z.shiftr (Z_of_byte b) 4 end.

Lemma land_240 z : 0 <= z < two8 -> Z.land z 240 = 16 * Z.shiftr z 4.
Proof.
  intros Hz. change 240 with (Z.shiftl (Z.ones 4) 4). apply Z.bits_inj'. intros i Hi.
  rewrite Z.land_spec, (Z.mul_comm 16). change 16 with (2 ^ 4). rewrite <- Z.shiftl_mul_pow2 by lia.
  destruct (Z.lt_ge_cases i 4); [by rewrite !Z.shiftl_spec_low, andb_false_r by lia|].
  rewrite !Z.shiftl_spec, Z.shiftr_spec by lia. replace (i - 4 + 4) with i by lia.
  destruct (Z.lt_ge_cases (i - 4) 4).
  - by rewrite Z.ones_spec_low, andb_true_r by lia.
  - rewrite Z.ones_spec_high, andb_false_r by lia. symmetry.
    apply Z.bits_above_log2; [lia|]. destruct (Z.eq_dec z 0) as [->|]; [simpl; lia|].
    assert (Z.log2 z < 8) by (apply Z.log2_lt_pow2; lia). lia.
Qed.

Lemma process_ok data :
  (ip_version data = 4 -> 20 <= zlen data) ->
  exists r src dst, process_ipv4_ipv6 inet_ntop (zlen data) data = Ok (r, src, dst) /\
    (r = -1 \/ 8 <= r <= zlen data + 8).
Proof.
  intros H4. unfold process_ipv4_ipv6. destruct (Z.ltb_spec (zlen data) 1); [by repeat eexists; left|].
  destruct data as [|b data']; [simpl in *; lia|]. set (data := b :: data') in *.
  change (byte_at data 0) with (Ok (Z_of_byte b)). cbn [mbind outcome_bind].
  pose proof (Z_of_byte_range b) as Hb. rewrite land_240 by done. change (ip_version data) with (Z.shiftr (Z_of_byte b) 4) in H4.
  destruct (Z.eqb_spec (16 * Z.shiftr (Z_of_byte b) 4) 64) as [E4|_].
  - specialize (H4 ltac:(lia)). assert (Hi : 0 <= Z.land (Z_of_byte b) 15) by (apply Z.land_nonneg; lia).
    destruct (Z.ltb_spec (zlen data) (Z.land (Z_of_byte b) 15 * 4)); [by repeat eexists; left|].
    destruct (byte_at_ok data 9) as (proto & -> & _); [lia|]. cbn [mbind outcome_bind].
    destruct (negb (proto =? 17)); [by repeat eexists; left|]. unfold inet4_addr.
    rewrite !bytes_at_ok by lia. cbn [mbind outcome_bind]. repeat eexists. right. lia.
  - destruct (16 * Z.shiftr (Z_of_byte b) 4 =? 96); [|by repeat eexists; left].
    destruct (Z.ltb_spec (zlen data) 42); [by repeat eexists; left|].
    destruct (byte_at_ok data 6) as (nxt & -> & _); [lia|]. cbn [mbind outcome_bind].
    destruct (extension_headers_ok data (Z.to_nat (zlen data)) nxt 40) as (r & -> & Hr); [lia..|].
    cbn [mbind outcome_bind]. destruct r as [off|]; [|by repeat eexists; left].
    unfold inet6_addr. rewrite !bytes_at_ok by lia. cbn [mbind outcome_bind]. repeat eexists. right. lia.
Qed.

Lemma byte_at_front data rest i b : zget data i = Some b -> byte_at (data ++ rest)%list i = Ok (Z_of_byte b).
Proof.
  intros Hb. unfold byte_at. pose proof (zget_Some_range _ _ _ Hb). rewrite zget_app. ztests. by rewrite Hb.
Qed.

(** The headers of an IPv4 packet with a UDP datagram. *)
Lemma process_segment ip rest first :
  zget ip 0 = Some first -> Z.shiftr (Z_of_byte first) 4 = 4 -> zlen ip = 4 * Z.land (Z_of_byte first) 15 ->
  20 <= zlen ip -> zget ip 9 = Some Byte.x11 ->
  process_ipv4_ipv6 inet_ntop (zlen (ip ++ rest)%list) (ip ++ rest)%list =
  Ok (zlen ip + 8, default "unknown" (inet_ntop AF_INET (ztake 4 (zdrop 12 ip))),
      default "unknown" (inet_ntop AF_INET (ztake 4 (zdrop 16 ip)))).
Proof.
  intros H0 Hv Hihl Hlen H9. unfold process_ipv4_ipv6. rewrite zlen_app.
  destruct (Z.ltb_spec (zlen ip + zlen rest) 1); [lia|]. rewrite (byte_at_front _ _ _ _ H0). cbn [mbind outcome_bind].
  rewrite land_240, Hv by apply Z_of_byte_range. change (16 * 4 =? 64) with true. cbv iota zeta.
  destruct (Z.ltb_spec (zlen ip + zlen rest) (Z.land (Z_of_byte first) 15 * 4)); [lia|].
  rewrite (byte_at_front _ _ _ _ H9). cbn [mbind outcome_bind]. change (negb (Z_of_byte Byte.x11 =? 17)) with false. cbv iota.
  unfold inet4_addr. rewrite !bytes_at_ok by (rewrite zlen_app; lia). cbn [mbind outcome_bind].
  assert (Hf : forall off, 0 <= off -> off + 4 <= zlen ip -> ztake 4 (zdrop off (ip ++ rest)%list) = ztake 4 (zdrop off ip)).
  { intros off Ho Hl. rewrite zdrop_app, ztake_app, (ztake_le0 (4 - _)), app_nil_r; [done|]. rewrite zlen_zdrop. lia. }
  rewrite !Hf by lia. do 3 f_equal. lia.
Qed.

(** What is shown of a payload that is a serialized segment. *)
Lemma show_payload_segment src dst seg :
  TCPSegment.ok seg ->
  exists v out, 0 <= v < two16 /\ TCPSegment.serialize seg 0 = Ok out /\
    20 <= zlen (BufferList.concatenate out) < two31 /\
    show_payload src dst (BufferList.concatenate out) =
    Ok (segment_line src dst (TCPHeader.set_cksum (TCPSegment.header seg) v) true
          (u32 (TCPSegment.length_in_sequence_space seg)) (zlen (BufferList.concatenate out)) +:+
        dump_reference 8 (BufferList.concatenate out)).
Proof.
  intros Hs. destruct (segment_reads_back seg TCPSegment.make 0 Hs ltac:(lia)) as (v & out & Hv & Hout & Hlen & Hread).
  exists v, out. split; [done|]. split; [done|]. set (b := BufferList.concatenate out) in *.
  assert (Hb : 20 <= zlen b < two31).
  { rewrite Hlen. destruct Hs as (Hh & _ & Hl). destruct Hh as (_ & _ & _ & _ & Hd & _).
    change (TCPSegment.header seg) with (TCPSegment._header seg). change (TCPSegment.payload seg) with (TCPSegment._payload seg). lia. }
  split; [done|]. destruct (Hread (Buffer.of_string b)) as (s' & Hp & Hh & Hpl);
    [apply buffer_of_string_wf; lia|apply buffer_of_string_str; lia|].
  unfold show_payload. rewrite Hp. cbn [mbind outcome_bind]. change (ParseResult_index BadChecksum <? ParseResult_index NoError) with false.
  cbv iota. rewrite hexdump_rows; [|lia|by destruct b; [simpl in Hb; lia|]]. cbn [mbind outcome_bind].
  rewrite Hh. change (bool_decide (NoError = NoError)) with true. do 3 f_equal.
  unfold TCPSegment.length_in_sequence_space. by rewrite Hpl, Hh.
Qed.

End packets.

Lemma arguments_loop_ok argv : forall fuel dev curr,
  (1 <= curr)%nat -> (curr <= length argv)%nat -> (length argv - curr <= fuel)%nat ->
  exists r, arguments_loop fuel argv dev curr = Ok r /\
    match r with Capture _ exp_start => (curr <= exp_start <= length argv)%nat | Leave _ _ => True end.
Proof.
  intros fuel. induction (lt_wf fuel) as [fuel _ IH]; intros dev curr H1 Hc Hf.
  destruct fuel as [|fuel]; cbn [arguments_loop];
    (destruct (Z.ltb_spec (Z.of_nat curr) (zlen argv)); [|eexists; split; [done|]; simpl; lia]); [lia|].
  destruct (argument_ok argv curr) as (arg & -> & _); [lia|]. cbn [mbind outcome_bind].
  destruct (strncmp_eq 3 "-i" arg).
  - destruct (Z.leb_spec (zlen argv) (Z.of_nat curr + 1)); [by eexists|].
    destruct (argument_ok argv (curr + 1)) as (d & -> & _); [lia|]. cbn [mbind outcome_bind].
    destruct (IH fuel ltac:(lia) (Some d) (curr + 2)%nat) as (r & -> & Hr); [lia..|]. eexists. split; [done|].
    destruct r; [lia|done].
  - destruct (_ || _); [by eexists|]. eexists. split; [done|]. simpl. lia.
Qed.

(** ** Properties *)

(** C39. The walk over the headers of any packet ends and stays inside it: [process_ipv4_ipv6]
    returns -1 or an offset of the payload, for every chain of IPv6 extension headers and for
    every IPv4 packet of at least 20 bytes, without reading a byte that was not captured.  The
    offset may lie past the end of the packet, by at most the 8 bytes of the UDP header. *)
Theorem packet_walk_terminates (inet_ntop : Z -> list byte -> option string) (data : list byte)
  (H4 : ip_version data = 4 -> 20 <= zlen data) :
  exists r src dst, process_ipv4_ipv6 inet_ntop (zlen data) data = Ok (r, src, dst) /\
    (r = -1 \/ 8 <= r <= zlen data + 8).
Proof. by apply process_ok. Qed.

(** An IPv6 packet with a hop-by-hop header and one byte of a UDP header. *)
Definition ipv6_packet : list byte :=
  [Byte.x60; Byte.x00; Byte.x00; Byte.x00; Byte.x00; Byte.x09; Byte.x00; Byte.x40] ++ replicate 32 Byte.x01 ++
  [Byte.x11; Byte.x00] ++ replicate 6 Byte.x00 ++ [Byte.x04; Byte.xd2].

Lemma packet_walk_terminates_witness :
  exists r src dst, process_ipv4_ipv6 (fun _ _ => None) 50 ipv6_packet = Ok (r, src, dst) /\ (r = -1 \/ 8 <= r <= 58).
Proof. apply (packet_walk_terminates (fun _ _ => None) ipv6_packet). vm_compute. discriminate. Defined.

(** The dump shows the segment that was sent: for a packet of any supported link type that
    carries an IPv4 header of any length, a UDP header and a serialized TCP segment, the line
    printed has the ports, flags, sequence and acknowledgment numbers and the window of that
    segment and says that the checksum is correct, and the hexadecimal dump below it is that of
    the segment's bytes. *)
Theorem dump_shows_segment (inet_ntop : Z -> list byte -> option string) (dl_type : datalink) (seg : TCPSegment.t)
  (link ip udp : list byte) (first : byte) (Hseg : TCPSegment.ok seg)
  (Hfirst : zget ip 0 = Some first) (Hversion : Z.shiftr (Z_of_byte first) 4 = 4)
  (Hihl : zlen ip = 4 * Z.land (Z_of_byte first) 15) (Hlen : 20 <= zlen ip)
  (Hproto : zget ip 9 = Some Byte.x11) (Hudp : zlen udp = 8) :
  exists v out, 0 <= v < two16 /\ TCPSegment.serialize seg 0 = Ok out /\
    let b := BufferList.concatenate out in
    let pkt := (link ++ ip ++ udp ++ b)%list in
    (find_header dl_type pkt = Ok (At (zlen link)) ->
     show_packet inet_ntop dl_type pkt =
     Ok (Shown (segment_line (default "unknown" (inet_ntop AF_INET (ztake 4 (zdrop 12 ip))))
                  (default "unknown" (inet_ntop AF_INET (ztake 4 (zdrop 16 ip))))
                  (TCPHeader.set_cksum (TCPSegment.header seg) v) true
                  (u32 (TCPSegment.length_in_sequence_space seg)) (zlen b) +:+ dump_reference 8 b))).
Proof.
  set (src := default _ (inet_ntop AF_INET (ztake 4 (zdrop 12 ip)))).
  set (dst := default _ (inet_ntop AF_INET (ztake 4 (zdrop 16 ip)))).
  destruct (show_payload_segment src dst seg Hseg) as (v & out & Hv & Hout & Hb & Hshow).
  exists v, out. split; [done|]. split; [done|]. cbv zeta. set (b := BufferList.concatenate out) in *.
  set (pkt := (link ++ ip ++ udp ++ b)%list). intros Hfind. unfold show_packet. rewrite Hfind. cbn [mbind outcome_bind].
  assert (Hpkt : zlen pkt = zlen link + zlen ip + 8 + zlen b) by (unfold pkt; rewrite !zlen_app; lia).
  assert (Hdrop : zdrop (zlen link) pkt = (ip ++ udp ++ b)%list) by (by apply zdrop_app_exact).
  rewrite Hdrop. replace (zlen pkt - zlen link) with (zlen (ip ++ udp ++ b)%list) by (rewrite !zlen_app; lia).
  rewrite (process_segment inet_ntop ip (udp ++ b)%list first) by (done || lia). cbn [mbind outcome_bind].
  fold src dst. destruct (Z.ltb_spec (zlen ip + 8) 0); [lia|]. cbv zeta.
  replace (zlen pkt - (zlen link + (zlen ip + 8))) with (zlen b) by lia. rewrite u64_small by lia.
  destruct (Z.ltb_spec MAX_SIZE (zlen b)); [unfold MAX_SIZE in *; lia|].
  rewrite bytes_at_ok by lia. cbn [mbind outcome_bind].
  assert (Hpl : ztake (zlen b) (zdrop (zlen link + (zlen ip + 8)) pkt) = b).
  { unfold pkt. rewrite !app_assoc. rewrite zdrop_app_exact by (rewrite !zlen_app; lia). by apply ztake_ge. }
  rewrite Hpl, Hshow. done.
Qed.

(** An Ethernet header, an IPv4 header and a UDP header. *)
Definition link_bytes : list byte := replicate 12 Byte.x02 ++ [Byte.x08; Byte.x00].
Definition ip_bytes : list byte :=
  [Byte.x45; Byte.x00; Byte.x00; Byte.x32; Byte.x00; Byte.x00; Byte.x40; Byte.x00; Byte.x40; Byte.x11;
   Byte.x00; Byte.x00; Byte.x0a; Byte.x00; Byte.x00; Byte.x01; Byte.x0a; Byte.x00; Byte.x00; Byte.x02].

Lemma dump_shows_segment_witness :
  exists v out, 0 <= v < two16 /\ TCPSegment.serialize syn_segment 0 = Ok out /\
    (find_header DLT_EN10MB (link_bytes ++ ip_bytes ++ replicate 8 Byte.x00 ++ BufferList.concatenate out)%list = Ok (At 14) ->
     show_packet (fun _ _ => None) DLT_EN10MB (link_bytes ++ ip_bytes ++ replicate 8 Byte.x00 ++ BufferList.concatenate out)%list =
     Ok (Shown (segment_line "unknown" "unknown" (TCPHeader.set_cksum (TCPSegment.header syn_segment) v) true
       (u32 (TCPSegment.length_in_sequence_space syn_segment)) (zlen (BufferList.concatenate out)) +:+
       dump_reference 8 (BufferList.concatenate out)))).
Proof.
  apply (dump_shows_segment (fun _ _ => None) DLT_EN10MB syn_segment link_bytes ip_bytes (replicate 8 Byte.x00) Byte.x45);
    [|reflexivity|reflexivity|reflexivity|simpl; lia|reflexivity|reflexivity].
  unfold TCPSegment.ok, TCPHeader.ok, WrappingInt32.ok. vm_compute. intuition congruence.
Defined.

(** A packet that was captured only up to a part of its UDP header ends the program: the length
    of the payload is computed without a check and wraps around, and the string made from it
    throws, which [main] does not catch. *)
Theorem dump_truncated_throws (inet_ntop : Z -> list byte -> option string) (dl_type : datalink)
  (link ip udp : list byte) (first : byte)
  (Hfind : find_header dl_type (link ++ ip ++ udp)%list = Ok (At (zlen link)))
  (Hfirst : zget ip 0 = Some first) (Hversion : Z.shiftr (Z_of_byte first) 4 = 4)
  (Hihl : zlen ip = 4 * Z.land (Z_of_byte first) 15) (Hlen : 20 <= zlen ip)
  (Hproto : zget ip 9 = Some Byte.x11) (Hudp : zlen udp < 8) :
  show_packet inet_ntop dl_type (link ++ ip ++ udp)%list = Throw (length_error "basic_string::_M_create").
Proof.
  unfold show_packet. rewrite Hfind. cbn [mbind outcome_bind]. rewrite zdrop_app_exact by done.
  replace (zlen (link ++ ip ++ udp)%list - zlen link) with (zlen (ip ++ udp)%list) by (rewrite !zlen_app; lia).
  rewrite (process_segment inet_ntop ip udp first) by done. cbn [mbind outcome_bind].
  destruct (Z.ltb_spec (zlen ip + 8) 0); [lia|]. cbv zeta. rewrite !zlen_app.
  replace (zlen link + (zlen ip + zlen udp) - (zlen link + (zlen ip + 8))) with (zlen udp - 8) by lia.
  assert (Hw : u64 (zlen udp - 8) = zlen udp - 8 + two64).
  { unfold u64. rewrite <- (Z_mod_plus_full _ 1). apply Z.mod_small. lia. }
  rewrite Hw. destruct (Z.ltb_spec MAX_SIZE (zlen udp - 8 + two64)); [done|]. unfold MAX_SIZE in *. lia.
Qed.

Lemma dump_truncated_throws_witness :
  show_packet (fun _ _ => None) DLT_EN10MB (link_bytes ++ ip_bytes ++ [Byte.x04; Byte.xd2])%list =
  Throw (length_error "basic_string::_M_create").
Proof.
  apply (dump_truncated_throws (fun _ _ => None) DLT_EN10MB link_bytes ip_bytes [Byte.x04; Byte.xd2] Byte.x45);
    try reflexivity; simpl; lia.
Defined.

(** A segment whose checksum is wrong is shown with an empty header: [TCPSegment::parse] returns
    before it reads the header, and the line shows the header the segment was created with. *)
Theorem dump_blank_on_bad_checksum (src dst : string) (payload : list byte)
  (Hlen : zlen payload < two31) (Hne : payload <> [])
  (Hck : InternetChecksum.value (InternetChecksum.add (InternetChecksum.make 0) payload) <> Ok 0)
  (Hval : exists v, InternetChecksum.value (InternetChecksum.add (InternetChecksum.make 0) payload) = Ok v) :
  show_payload src dst payload =
  Ok (segment_line src dst TCPHeader.make false 0 (zlen payload) +:+ dump_reference 8 payload).
Proof.
  unfold show_payload, TCPSegment.parse. rewrite buffer_of_string_str by lia. destruct Hval as [v Hval].
  rewrite Hval in *. cbn [mbind outcome_bind]. destruct (Z.eqb_spec v 0) as [->|Hv]; [done|]. simpl negb. cbv iota.
  cbn [mbind outcome_bind]. rewrite hexdump_rows by done. reflexivity.
Qed.

(** A short packet that claims to be IPv4 is read past its end. *)
Theorem dump_overreads_short_packet (inet_ntop : Z -> list byte -> option string) (data : list byte) (first : byte)
  (Hfirst : zget data 0 = Some first) (Hversion : Z.shiftr (Z_of_byte first) 4 = 4)
  (Hihl : 4 * Z.land (Z_of_byte first) 15 <= zlen data) (Hlen : zlen data < 10) :
  process_ipv4_ipv6 inet_ntop (zlen data) data = Undefined.
Proof.
  pose proof (zget_Some_range _ _ _ Hfirst). unfold process_ipv4_ipv6. destruct (Z.ltb_spec (zlen data) 1); [lia|].
  assert (E : byte_at data 0 = Ok (Z_of_byte first)) by (unfold byte_at; by rewrite Hfirst).
  rewrite E. cbn [mbind outcome_bind]. rewrite land_240, Hversion by apply Z_of_byte_range.
  change (16 * 4 =? 64) with true. cbv iota zeta.
  destruct (Z.ltb_spec (zlen data) (Z.land (Z_of_byte first) 15 * 4)); [lia|].
  unfold byte_at. by rewrite zget_None by lia.
Qed.
