(* ===== verification/FileDesc.v ===== *)
(** * FileDesc.v: file descriptors

    Models [libsponge/util/file_descriptor.hh], [libsponge/util/file_descriptor.cc] and
    [SystemCall] of [libsponge/util/util.cc].  The kernel is a parameter: a state and the
    system calls on it.  [FDWrapper] objects live in a store shared by the handles that point
    to them, with the reference counts of [std::shared_ptr]; a handle is the key of its
    wrapper.  Code here is in a monad that keeps the state when an exception is thrown. *)

From stdpp Require Import gmap pretty.
From S2P Require Import Prelude Buffers.

(** ** State and exceptions *)

Definition io (W A : Type) : Type := W -> outcome A * W.

#[export] Instance io_ret W : MRet (io W) := fun A a w => (Ok a, w).
#[export] Instance io_bind W : MBind (io W) := fun A B k m w =>
  match m w with
  | (Ok a, w') => k a w'
  | (Throw e, w') => (Throw e, w')
  | (Undefined, w') => (Undefined, w')
  | (OutOfFuel, w') => (OutOfFuel, w')
  end.

(** An outcome that does not touch the state; reading and changing the state. *)
Definition pure_ {W A} (o : outcome A) : io W A := fun w => (o, w).
Definition gets {W A} (f : W -> A) : io W A := fun w => (Ok (f w), w).
Definition modify {W} (f : W -> W) : io W unit := fun w => (Ok tt, f w).

(** [try { m } catch (const exception &e) { h(e) }]. *)
Definition catch {W A} (m : io W A) (h : exn -> io W A) : io W A := fun w =>
  match m w with
  | (Throw e, w') => h e w'
  | r => r
  end.

Lemma io_bind_ok {W A B} (m : io W A) (k : A -> io W B) w a w' :
  m w = (Ok a, w') -> (m ≫= k) w = k a w'.
Proof. intros H. unfold mbind, io_bind. by rewrite H. Qed.

(** A value as a [ssize_t]. *)
Definition s64 (z : Z) : Z := (z + two63) mod two64 - two63.

(** [SystemCall] takes the return value as an [int]; [errno] is the kernel's, [errno_mask] the accepted one. *)
Definition SystemCall (attempt : string) (return_value errno errno_mask : Z) : outcome Z :=
  if (0 <=? return_value) || (errno =? errno_mask) then Ok return_value
  else Throw (tagged_error attempt errno).

(** ** The kernel *)

(** Each call gives its return value, [errno] and the new state; [sys_read] also what it put
    into the buffer. *)
Record Kernel (K : Type) := {
  sys_read : K -> Z -> Z -> Z * Z * list byte * K;
  sys_writev : K -> Z -> list (list byte * Z) -> Z * Z * K;
  sys_close : K -> Z -> Z * Z * K;
  sys_getfl : K -> Z -> Z * Z * K;
  sys_setfl : K -> Z -> Z -> Z * Z * K
}.
Arguments sys_read {K}.
Arguments sys_writev {K}.
Arguments sys_close {K}.
Arguments sys_getfl {K}.
Arguments sys_setfl {K}.

Module FDWrapper.

Record t := mk {
  _fd : Z;
  _eof : bool;
  _closed : bool;
  _read_count : Z;
  _write_count : Z
}.

(** The constructor. *)
Definition make (fd : Z) : outcome t :=
  if fd <? 0 then Throw (runtime_error (String.append "invalid fd number:" (pretty fd)))
  else Ok (mk fd false false 0 0).

Definition set_eof (x : t) : t := mk (_fd x) true (_closed x) (_read_count x) (_write_count x).
Definition set_closed (x : t) : t := mk (_fd x) true true (_read_count x) (_write_count x).
Definition count_read (x : t) : t :=
  mk (_fd x) (_eof x) (_closed x) (u32 (_read_count x + 1)) (_write_count x).
Definition count_write (x : t) : t :=
  mk (_fd x) (_eof x) (_closed x) (_read_count x) (u32 (_write_count x + 1)).

End FDWrapper.

Module FileDescriptor.

Section fd.

Context {K : Type} (sys : Kernel K).

(** The kernel and the wrappers with the number of handles to each. *)
Record world := World {
  kernel : K;
  handles : gmap Z (FDWrapper.t * Z)
}.

Definition set_kernel (k : K) (w : world) : world := World k (handles w).
Definition set_handles h (w : world) : world := World (kernel w) h.

(** [*_internal_fd]: a handle that was moved from points nowhere. *)
Definition internal (h : Z) : io world FDWrapper.t := fun w =>
  match handles w !! h with
  | Some (x, _) => (Ok x, w)
  | None => (Undefined, w)
  end.

Definition update (h : Z) (f : FDWrapper.t -> FDWrapper.t) : io world unit :=
  modify (fun w => set_handles (alter (fun '(x, n) => (f x, n)) h (handles w)) w).

Definition make (fd : Z) : io world Z :=
  x ← pure_ (FDWrapper.make fd);
  h ← gets (fun w => fresh (dom (handles w)));
  _ ← modify (fun w => set_handles (<[h := (x, 1)]> (handles w)) w);
  mret h.

Definition duplicate (h : Z) : io world Z :=
  _ ← internal h;
  _ ← modify (fun w => set_handles (alter (fun '(x, n) => (x, n + 1)) h (handles w)) w);
  mret h.

Definition register_read (h : Z) : io world unit := update h FDWrapper.count_read.
Definition register_write (h : Z) : io world unit := update h FDWrapper.count_write.

Definition close (h : Z) : io world unit :=
  x ← internal h;
  '(r, e) ← (fun w => let '(r, e, k) := sys_close sys (kernel w) (FDWrapper._fd x) in (Ok (r, e), set_kernel k w));
  _ ← pure_ (SystemCall "close" r e 0);
  update h FDWrapper.set_closed.

(** The destructor of a handle; with the last one the wrapper goes, which closes the
    descriptor and keeps every exception to itself. *)
Definition release (h : Z) : io world unit :=
  _ ← internal h;
  n ← gets (fun w => match handles w !! h with Some (_, n) => n | None => 0 end);
  if 1 <? n then
    modify (fun w => set_handles (alter (fun '(x, n) => (x, n - 1)) h (handles w)) w)
  else
    x ← internal h;
    _ ← (if FDWrapper._closed x then mret tt else catch (close h) (fun _ => mret tt));
    modify (fun w => set_handles (delete h (handles w)) w).

Definition BUFFER_SIZE : Z := 1048576.

(** [read(limit)]; [ssize_t bytes_read] is compared as a signed number. *)
Definition read (h limit : Z) : io world (list byte) :=
  let size_to_read := Z.min BUFFER_SIZE limit in
  x ← internal h;
  '(r, e, data) ← (fun w => let '(r, e, data, k) := sys_read sys (kernel w) (FDWrapper._fd x) size_to_read in
                   (Ok (r, e, data), set_kernel k w));
  bytes_read ← pure_ (SystemCall "read" (s32 r) e 0);
  _ ← (if (0 <? limit) && (bytes_read =? 0) then update h FDWrapper.set_eof else mret tt);
  if size_to_read <? bytes_read then pure_ (Throw (runtime_error "read() read more than requested"))
  else if bytes_read <? 0 then pure_ (Throw (length_error "basic_string::resize"))
  else
    let str := str_resize (str_resize (ztake size_to_read data) size_to_read) bytes_read in
    _ ← register_read h;
    mret str.

(** The loop of [write]. *)
Fixpoint write_loop (fuel : nat) (h : Z) (buffer : BufferViewList.t) (write_all : bool) (total : Z)
  : io world Z :=
  match fuel with
  | O => pure_ OutOfFuel
  | S fuel =>
      x ← internal h;
      '(r, e) ← (fun w => let '(r, e, k) := sys_writev sys (kernel w) (FDWrapper._fd x) (BufferViewList.as_iovecs buffer) in
                 (Ok (r, e), set_kernel k w));
      bytes_written ← pure_ (SystemCall "writev" (s32 r) e 0);
      if (bytes_written =? 0) && negb (BufferViewList.size buffer =? 0)
      then pure_ (Throw (runtime_error "write returned 0 given non-empty input buffer"))
      else if s64 (BufferViewList.size buffer) <? bytes_written
      then pure_ (Throw (runtime_error "write wrote more than length of input buffer"))
      else
        _ ← register_write h;
        buffer ← pure_ (BufferViewList.remove_prefix buffer (u64 bytes_written));
        let total := u64 (total + u64 bytes_written) in
        if write_all && negb (BufferViewList.size buffer =? 0)
        then write_loop fuel h buffer write_all total
        else mret total
  end.

(** Each round but the first needs a byte written by the one before. *)
Definition write (h : Z) (buffer : BufferViewList.t) (write_all : bool) : io world Z :=
  write_loop (S (length (all_bytes buffer))) h buffer write_all 0.

Definition O_NONBLOCK : Z := 2048.

Definition set_blocking (h : Z) (blocking_state : bool) : io world unit :=
  x ← internal h;
  '(r, e) ← (fun w => let '(r, e, k) := sys_getfl sys (kernel w) (FDWrapper._fd x) in (Ok (r, e), set_kernel k w));
  flags ← pure_ (SystemCall "fcntl" r e 0);
  let flags := if blocking_state then Z.lxor flags (Z.land flags O_NONBLOCK) else Z.lor flags O_NONBLOCK in
  '(r, e) ← (fun w => let '(r, e, k) := sys_setfl sys (kernel w) (FDWrapper._fd x) flags in (Ok (r, e), set_kernel k w));
  _ ← pure_ (SystemCall "fcntl" r e 0);
  mret tt.

Definition fd_num (h : Z) : io world Z := x ← internal h; mret (FDWrapper._fd x).
Definition eof (h : Z) : io world bool := x ← internal h; mret (FDWrapper._eof x).
Definition closed (h : Z) : io world bool := x ← internal h; mret (FDWrapper._closed x).
Definition read_count (h : Z) : io world Z := x ← internal h; mret (FDWrapper._read_count x).
Definition write_count (h : Z) : io world Z := x ← internal h; mret (FDWrapper._write_count x).

End fd.

End FileDescriptor.

(** ** What is documented of the system calls

    [sent k fd] is what has been written to the descriptor so far. *)
Class PosixKernel {K} (sys : Kernel K) (sent : K -> Z -> list byte) : Prop := {
  writev_returns k fd iov r e k' : sys_writev sys k fd iov = (r, e, k') ->
    -1 <= r <= 2147479552 /\ r <= zlen (concat iov.*1) /\ (r = -1 -> e <> 0) /\
    sent k' fd = sent k fd ++ ztake r (concat iov.*1);
  read_returns k fd n r e data k' : 0 <= n -> sys_read sys k fd n = (r, e, data, k') ->
    -1 <= r <= n /\ r <= 2147479552 /\ (r = -1 -> e <> 0) /\ (0 <= r -> zlen data = r)
}.

(** ** Lemmas *)

Section descriptors.

Import FileDescriptor.

Context {K : Type} (sys : Kernel K) (sent : K -> Z -> list byte) `{!PosixKernel sys sent}.

Lemma s32_id z : - two31 <= z < two31 -> s32 z = z.
Proof. intros. unfold s32. rewrite Z.mod_small by lia. lia. Qed.

Lemma s64_id z : - two63 <= z < two63 -> s64 z = z.
Proof. intros. unfold s64. rewrite Z.mod_small by lia. lia. Qed.

(** The buffer of [n] bytes, of which the first [zlen b] were filled. *)
Lemma str_resize_back b n : zlen b <= n -> str_resize (str_resize (ztake n b) n) (zlen b) = b.
Proof.
  intros Hn. pose proof (zlen_nonneg b). rewrite (ztake_ge n b) by lia.
  unfold str_resize at 2. rewrite (ztake_ge n b) by lia. unfold str_resize.
  rewrite ztake_app, (ztake_ge (zlen b) b), Z.sub_diag, (ztake_le0 0), app_nil_r by lia.
  rewrite zlen_app. replace (Z.to_nat _) with 0%nat by (pose proof (zlen_nonneg (replicate (Z.to_nat (n - zlen b)) Byte.x00)); lia).
  apply app_nil_r.
Qed.

Lemma as_iovecs_bytes l : concat (BufferViewList.as_iovecs l).*1 = all_bytes l.
Proof.
  unfold BufferViewList.as_iovecs, all_bytes.
  assert (H : forall acc, (fold_left (fun ret x => ret ++ [(x, zlen x)]) l acc).*1 = acc.*1 ++ l).
  { induction l as [|x l IH]; intros acc; simpl; [by rewrite app_nil_r|].
    rewrite IH, fmap_app. simpl. by rewrite <- app_assoc. }
  by rewrite H.
Qed.

(** The wrapper a handle points to. *)
Definition points_to (w : world (K := K)) (h : Z) (x : FDWrapper.t) : Prop :=
  exists n, handles w !! h = Some (x, n).

Lemma internal_ok w h x : points_to w h x -> internal h w = (Ok x, w).
Proof. intros [n Hn]. unfold internal. by rewrite Hn. Qed.

Lemma update_ok w h x f :
  points_to w h x -> exists w', update h f w = (Ok tt, w') /\ kernel w' = kernel w /\ points_to w' h (f x).
Proof.
  intros [n Hn]. eexists. split; [reflexivity|]. split; [done|]. exists n. simpl.
  by rewrite lookup_alter_eq, Hn.
Qed.

Lemma mark_eof_ok w h x limit (data : list byte) :
  points_to w h x ->
  exists w', (if (0 <? limit) && (zlen data =? 0) then update h FDWrapper.set_eof else mret tt) w = (Ok tt, w') /\
    kernel w' = kernel w /\
    points_to w' h (if decide (0 < limit /\ data = []) then FDWrapper.set_eof x else x).
Proof.
  intros Hx. destruct (decide _) as [[Hl ->]|Hn].
  - destruct (Z.ltb_spec 0 limit); [|lia]. by apply update_ok.
  - exists w. split; [|done]. destruct (Z.ltb_spec 0 limit); [|done]. destruct data; [by destruct Hn|]. done.
Qed.

(** What a run of the write loop leaves behind, however it ends; [I] is anything [writev] keeps. *)
Lemma write_loop_spec (I : K -> Prop) h fd all fuel :
  (forall k iov r e k', sys_writev sys k fd iov = (r, e, k') -> I k -> I k') ->
  forall buffer total w x,
  points_to w h x -> FDWrapper._fd x = fd -> I (kernel w) -> zlen (all_bytes buffer) < two63 ->
  (Z.to_nat (zlen (all_bytes buffer)) < fuel)%nat -> 0 <= total -> total + zlen (all_bytes buffer) < two63 ->
  exists o w' n, write_loop sys fuel h buffer all total w = (o, w') /\
    0 <= n <= zlen (all_bytes buffer) /\
    sent (kernel w') fd = sent (kernel w) fd ++ ztake n (all_bytes buffer) /\
    I (kernel w') /\ (exists x', points_to w' h x' /\ FDWrapper._fd x' = fd) /\
    match o with
    | Ok r => r = total + n /\ (all = true -> n = zlen (all_bytes buffer))
    | Throw _ => all = false -> n = 0
    | _ => False
    end.
Proof.
  intros HI. induction fuel as [|fuel IH]; intros buffer total w x Hx Hfd Hk0 Hb Hf Ht Hsum; [lia|].
  cbn [write_loop]. rewrite (io_bind_ok _ _ w x w) by (by apply internal_ok).
  assert (Hsize : BufferViewList.size buffer = zlen (all_bytes buffer)).
  { unfold BufferViewList.size. rewrite viewlist_size_acc; lia. }
  destruct (sys_writev sys (kernel w) (FDWrapper._fd x) (BufferViewList.as_iovecs buffer)) as [[r e] k] eqn:Ew.
  destruct (writev_returns _ _ _ _ _ _ Ew) as (Hr & Hrl & He & Hsent). rewrite as_iovecs_bytes in Hrl, Hsent.
  assert (HIk : I k) by (rewrite Hfd in Ew; by eapply HI).
  assert (Hx1 : points_to (set_kernel k w) h x) by (by destruct Hx as [m Hm]; exists m).
  rewrite Hfd in Hsent. rewrite (io_bind_ok _ _ w (r, e) (set_kernel k w)) by (by rewrite Ew).
  rewrite s32_id by lia. unfold SystemCall. destruct (Z.leb_spec 0 r) as [Hr0|Hr0]; simpl orb; cycle 1.
  { assert (Hm1 : r = -1) by lia. specialize (He Hm1). destruct (Z.eqb_spec e 0); [done|].
    eexists _, _, 0. split; [reflexivity|]. split; [lia|]. split; [|by split; [|split; [exists x|]]].
    simpl. rewrite Hsent, !ztake_le0 by lia. done. }
  rewrite (io_bind_ok _ _ _ r (set_kernel k w)) by done. rewrite Hsize, s64_id by lia.
  destruct ((r =? 0) && negb (zlen (all_bytes buffer) =? 0)) eqn:E0.
  { eexists _, _, 0. split; [reflexivity|]. split; [lia|]. split; [|by split; [|split; [exists x|]]]. simpl.
    apply andb_prop in E0 as [E0%Z.eqb_eq _]. by rewrite Hsent, E0. }
  destruct (Z.ltb_spec (zlen (all_bytes buffer)) r) as [|_]; [lia|].
  destruct (update_ok _ _ _ FDWrapper.count_write Hx1) as (w1 & Hw1 & Hk1 & Hp1).
  unfold register_write. rewrite (io_bind_ok _ _ _ tt w1) by done. rewrite (u64_small r) by lia.
  destruct (viewlist_remove_ok buffer r) as (buffer' & Hrm & Hwf' & Hbytes');
    [unfold BufferViewList.wf; lia|lia|].
  rewrite (io_bind_ok _ _ _ buffer' w1) by (unfold pure_; by rewrite Hrm). rewrite (u64_small (total + r)) by lia.
  assert (Hlen' : zlen (all_bytes buffer') = zlen (all_bytes buffer) - r) by (rewrite Hbytes', zlen_zdrop; lia).
  assert (Hsize' : BufferViewList.size buffer' = zlen (all_bytes buffer')).
  { unfold BufferViewList.size. rewrite viewlist_size_acc; lia. }
  rewrite Hsize'. assert (Hk : sent (kernel w1) fd = sent (kernel w) fd ++ ztake r (all_bytes buffer)) by (by rewrite Hk1).
  destruct (all && negb (zlen (all_bytes buffer') =? 0)) eqn:Ea; cycle 1.
  { eexists _, _, r. split; [reflexivity|]. split; [lia|]. split; [done|]. split; [by rewrite Hk1|].
    split; [by exists (FDWrapper.count_write x)|]. split; [done|]. intros ->. simpl in Ea. destruct (Z.eqb_spec (zlen (all_bytes buffer')) 0); [lia|done]. }
  apply andb_prop in Ea as [-> Ea]. destruct (Z.eqb_spec (zlen (all_bytes buffer')) 0) as [|Hne]; [done|].
  assert (Hrpos : 0 < r).
  { apply andb_false_iff in E0 as [E0%Z.eqb_neq|E0%negb_false_iff%Z.eqb_eq]; lia. }
  destruct (IH buffer' (total + r) w1 (FDWrapper.count_write x)) as (o & w' & n & Hrun & Hn & Hs & HI' & Hx' & Ho);
    [done|done|by rewrite Hk1|lia|lia|lia|lia|].
  exists o, w', (r + n). split; [done|]. split; [lia|]. split; [|split; [done|split; [done|]]].
  - rewrite Hs, Hk, <- app_assoc, Hbytes'. f_equal.
    rewrite <- (ztake_zdrop r (all_bytes buffer)) at 3. rewrite ztake_app, zlen_ztake.
    rewrite (ztake_ge (r + n) (ztake r _)) by (rewrite zlen_ztake; lia). f_equal. f_equal. lia.
  - destruct o as [res| | |]; try done. destruct Ho as [-> Hall]. split; [lia|]. intros _. specialize (Hall eq_refl). lia.
Qed.

(** Whatever is to be written, even more than a [size_t] counts, writing returns or throws. *)
Lemma write_loop_total h all fuel : forall buffer total w, is_Some (handles w !! h) ->
  (length (all_bytes buffer) < fuel)%nat -> concluded (write_loop sys fuel h buffer all total w).1.
Proof.
  induction fuel as [|fuel IH]; intros buffer total w [[x n] Hx] Hf; [lia|].
  cbn [write_loop]. rewrite (io_bind_ok _ _ w x w) by (apply internal_ok; by exists n).
  destruct (sys_writev sys (kernel w) (FDWrapper._fd x) (BufferViewList.as_iovecs buffer)) as [[r e] k] eqn:Ew.
  destruct (writev_returns _ _ _ _ _ _ Ew) as (Hr & Hrl & He & _). rewrite as_iovecs_bytes in Hrl.
  rewrite (io_bind_ok _ _ w (r, e) (set_kernel k w)) by (by rewrite Ew).
  rewrite s32_id by lia. unfold SystemCall. destruct (Z.leb_spec 0 r) as [Hr0|Hr0]; simpl orb; cycle 1.
  { assert (Hm1 : r = -1) by lia. specialize (He Hm1). by destruct (Z.eqb_spec e 0). }
  rewrite (io_bind_ok _ _ _ r (set_kernel k w)) by done.
  destruct ((r =? 0) && negb (BufferViewList.size buffer =? 0)) eqn:E0; [done|]. destruct (_ <? r); [done|].
  assert (Hx1 : points_to (set_kernel k w) h x) by (by exists n).
  destruct (update_ok _ _ _ FDWrapper.count_write Hx1) as (w1 & Hw1 & Hk1 & [m Hp1]).
  unfold register_write. rewrite (io_bind_ok _ _ _ tt w1) by done. rewrite (u64_small r) by lia.
  destruct (viewlist_remove_bytes buffer r) as (buffer' & Hrm & Hbytes'); [lia|lia|].
  rewrite (io_bind_ok _ _ _ buffer' w1) by (unfold pure_; by rewrite Hrm). cbv zeta.
  destruct (all && negb (BufferViewList.size buffer' =? 0)) eqn:Ea; [|done]. apply IH; [by eexists|].
  assert (r <> 0).
  { intros ->. rewrite zdrop_le0 in Hbytes' by lia. rewrite andb_true_l in E0.
    destruct buffer as [|v l]; simpl in Hrm; injection Hrm as <-; apply andb_prop in Ea as [_ Ea]; congruence. }
  assert (zlen (all_bytes buffer') = zlen (all_bytes buffer) - r) by (rewrite Hbytes', zlen_zdrop; lia). lia.
Qed.

End descriptors.

(** ** Handles

    Any run of copies and destructions of the handles of one wrapper. *)
Inductive handle_op := Copied | Destroyed.

Definition handle_step {K} (sys : Kernel K) (h : Z) (op : handle_op) : io (FileDescriptor.world (K := K)) unit :=
  match op with
  | Copied => _ ← FileDescriptor.duplicate h; mret tt
  | Destroyed => FileDescriptor.release sys h
  end.

Fixpoint handle_run {K} (sys : Kernel K) (h : Z) (ops : list handle_op) : io (FileDescriptor.world (K := K)) unit :=
  match ops with
  | [] => mret tt
  | op :: ops => _ ← handle_step sys h op; handle_run sys h ops
  end.

(** The number of handles after a run that starts with [c] of them, if one is always left. *)
Fixpoint handles_left (c : Z) (ops : list handle_op) : option Z :=
  match ops with
  | [] => Some c
  | Copied :: ops => handles_left (c + 1) ops
  | Destroyed :: ops => if 1 <? c then handles_left (c - 1) ops else None
  end.

Section handles.

Import FileDescriptor.

Context {K : Type} (sys : Kernel K).

Lemma alter_lookup_insert {A} (m : gmap Z A) (h : Z) (f : A -> A) a :
  m !! h = Some a -> alter f h m = <[h := f a]> m.
Proof.
  intros Hm. apply map_eq. intros j. destruct (decide (j = h)) as [->|Hj].
  - by rewrite lookup_alter_eq, Hm, lookup_insert_eq.
  - by rewrite lookup_alter_ne, lookup_insert_ne.
Qed.

Lemma handle_step_shared h op (w : world (K := K)) x c c' :
  handles w !! h = Some (x, c) -> handles_left c [op] = Some c' ->
  handle_step sys h op w = (Ok tt, set_handles (<[h := (x, c')]> (handles w)) w).
Proof.
  intros Hh Hc. destruct op; simpl in Hc.
  - injection Hc as <-. cbn -[internal]. unfold duplicate. unfold mbind, io_bind, internal. rewrite Hh.
    simpl. by rewrite (alter_lookup_insert _ _ _ _ Hh).
  - destruct (1 <? c) eqn:Ec; [|done]. injection Hc as <-. cbn -[internal]. unfold release.
    unfold mbind, io_bind, internal, gets. rewrite Hh. simpl. rewrite Hh, Ec. unfold modify.
    by rewrite (alter_lookup_insert _ _ _ _ Hh).
Qed.

Lemma handle_run_shared h ops : forall (w : world (K := K)) x c c',
  handles w !! h = Some (x, c) -> handles_left c ops = Some c' ->
  handle_run sys h ops w = (Ok tt, set_handles (<[h := (x, c')]> (handles w)) w).
Proof.
  induction ops as [|op ops IH]; intros w x c c' Hh Hc.
  { injection Hc as <-. rewrite insert_id by done. by destruct w. }
  assert (exists c1, handles_left c [op] = Some c1 /\ handles_left c1 ops = Some c') as (c1 & H1 & H2).
  { destruct op; simpl in *; [by eexists|]. destruct (1 <? c); [by eexists|done]. }
  cbn [handle_run]. rewrite (io_bind_ok _ _ _ _ _ (handle_step_shared h op w x c c1 Hh H1)).
  rewrite (IH _ x c1 c') by (simpl; by rewrite ?lookup_insert_eq). simpl. by rewrite insert_insert_eq.
Qed.

Lemma handle_run_app h ops1 ops2 (w : world (K := K)) :
  handle_run sys h (ops1 ++ ops2) w =
  match handle_run sys h ops1 w with
  | (Ok _, w') => handle_run sys h ops2 w'
  | (Throw e, w') => (Throw e, w')
  | (Undefined, w') => (Undefined, w')
  | (OutOfFuel, w') => (OutOfFuel, w')
  end.
Proof.
  revert w. induction ops1 as [|op ops1 IH]; intros w; [done|]. cbn [handle_run app].
  unfold mbind, io_bind. destruct (handle_step sys h op w) as [[| | |] w']; auto.
Qed.

(** The last handle: the wrapper's destructor runs. *)
Lemma release_last h (w : world (K := K)) x :
  handles w !! h = Some (x, 1) ->
  exists w', release sys h w = (Ok tt, w') /\ handles w' = delete h (handles w) /\
    kernel w' = if FDWrapper._closed x then kernel w else snd (sys_close sys (kernel w) (FDWrapper._fd x)).
Proof.
  intros Hh. unfold release. unfold mbind, io_bind, internal, gets. rewrite Hh. simpl. rewrite !Hh. simpl. rewrite Hh. simpl.
  destruct (FDWrapper._closed x); [eexists; by split|]. unfold catch, close. unfold mbind, io_bind, internal. rewrite Hh.
  destruct (sys_close sys (kernel w) (FDWrapper._fd x)) as [[r e] k]. simpl. unfold SystemCall, pure_, update, modify.
  destruct ((0 <=? r) || (e =? 0)); eexists; (split; [reflexivity|]); split; try done.
  simpl. rewrite (alter_lookup_insert _ _ _ _ Hh). by rewrite delete_insert_eq.
Qed.

End handles.

(** ** Properties *)

(** [FileDescriptor::write] sends a prefix of the buffer, whatever the kernel does: it
    always returns or throws, what has gone out afterwards is what went out before followed
    by the first [n] bytes; if it returns, [n] is the result, and all the bytes when
    [write_all] is set. *)
Theorem fd_write_correct {K} (sys : Kernel K) (sent : K -> Z -> list byte) (Hsys : PosixKernel sys sent)
  (w : FileDescriptor.world) (h : Z) (x : FDWrapper.t) (buffer : BufferViewList.t) (write_all : bool)
  (Hx : points_to w h x) (Hb : zlen (all_bytes buffer) < two63) :
  exists o w' n, FileDescriptor.write sys h buffer write_all w = (o, w') /\
    0 <= n <= zlen (all_bytes buffer) /\
    sent (FileDescriptor.kernel w') (FDWrapper._fd x) =
      sent (FileDescriptor.kernel w) (FDWrapper._fd x) ++ ztake n (all_bytes buffer) /\
    match o with
    | Ok r => r = n /\ (write_all = true -> n = zlen (all_bytes buffer))
    | Throw _ => True
    | _ => False
    end.
Proof.
  destruct (write_loop_spec sys sent (fun _ => True) h (FDWrapper._fd x) write_all
    (S (length (all_bytes buffer))) ltac:(done) buffer 0 w x) as (o & w' & n & Hrun & Hn & Hs & _ & _ & Ho);
    try done; try lia.
  exists o, w', n. split; [done|]. split; [done|]. split; [done|]. by destruct o.
Qed.

(** The descriptor is closed with its last handle and not before: whatever copies and
    destructions come first, as long as a handle is left the kernel is not called and the
    wrapper stays as it was; the destruction of the last handle calls [close] once (not at all
    when the descriptor had been closed), never throws, and the wrapper is gone. *)
Theorem fd_closed_with_last_handle {K} (sys : Kernel K) (w : FileDescriptor.world) (h c : Z)
  (x : FDWrapper.t) (ops : list handle_op)
  (Hh : FileDescriptor.handles w !! h = Some (x, c)) (Hlast : handles_left c ops = Some 1) :
  handle_run sys h ops w =
    (Ok tt, FileDescriptor.set_handles (<[h := (x, 1)]> (FileDescriptor.handles w)) w) /\
  exists w', handle_run sys h (ops ++ [Destroyed]) w = (Ok tt, w') /\
    FileDescriptor.handles w' = delete h (FileDescriptor.handles w) /\
    FileDescriptor.kernel w' =
      (if FDWrapper._closed x then FileDescriptor.kernel w
       else snd (sys_close sys (FileDescriptor.kernel w) (FDWrapper._fd x))).
Proof.
  split; [by apply (handle_run_shared sys h ops w x c)|].
  rewrite (handle_run_app sys h ops [Destroyed] w), (handle_run_shared sys h ops w x c 1 Hh Hlast).
  destruct (release_last sys h (FileDescriptor.set_handles (<[h := (x, 1)]> (FileDescriptor.handles w)) w) x)
    as (w' & Hw' & Hd & Hk); [simpl; by rewrite lookup_insert_eq|].
  exists w'. split; [cbn; unfold mbind, io_bind; by rewrite Hw'|].
  split; [rewrite Hd; simpl; by rewrite delete_insert_eq|done].
Qed.

(** [FileDescriptor::read] returns what the kernel read, at most [limit] bytes and at most
    one megabyte of them, counts the read, and sets the EOF flag exactly when bytes were asked
    for and none came; when the kernel reports an error it is thrown as a [unix_error] and
    neither the flag nor the count changes. *)
Theorem fd_read_correct {K} (sys : Kernel K) (sent : K -> Z -> list byte) (Hsys : PosixKernel sys sent)
  (w : FileDescriptor.world) (h limit : Z) (x : FDWrapper.t)
  (Hx : points_to w h x) (Hl : 0 <= limit < two64) :
  let '(r, e, data, k) := sys_read sys (FileDescriptor.kernel w) (FDWrapper._fd x)
                            (Z.min FileDescriptor.BUFFER_SIZE limit) in
  exists w', FileDescriptor.kernel w' = k /\
    if r =? -1 then
      FileDescriptor.read sys h limit w = (Throw (tagged_error "read" e), w') /\ points_to w' h x
    else
      FileDescriptor.read sys h limit w = (Ok data, w') /\
      zlen data <= limit /\ zlen data <= FileDescriptor.BUFFER_SIZE /\
      points_to w' h (FDWrapper.count_read
        (if decide (0 < limit /\ data = []) then FDWrapper.set_eof x else x)).
Proof.
  destruct (sys_read sys _ _ _) as [[[r e] data] k] eqn:Er.
  assert (Hn : 0 <= Z.min FileDescriptor.BUFFER_SIZE limit) by (unfold FileDescriptor.BUFFER_SIZE; lia).
  destruct (read_returns _ _ _ _ _ _ _ Hn Er) as (Hr & Hr31 & He & Hd).
  unfold FileDescriptor.read. rewrite (io_bind_ok _ _ w x w) by (by apply internal_ok).
  rewrite (io_bind_ok _ _ w (r, e, data) (FileDescriptor.set_kernel k w)) by (by rewrite Er).
  assert (Hx1 : points_to (FileDescriptor.set_kernel k w) h x) by (by destruct Hx as [m Hm]; exists m).
  rewrite s32_id by lia. unfold SystemCall. destruct (Z.eqb_spec r (-1)) as [->|Hne].
  { destruct (Z.eqb_spec e 0); [by destruct (He eq_refl)|]. exists (FileDescriptor.set_kernel k w). split; [done|]. by split. }
  specialize (Hd ltac:(lia)). subst r. destruct (Z.leb_spec 0 (zlen data)); [|lia]. simpl orb.
  rewrite (io_bind_ok _ _ _ (zlen data) (FileDescriptor.set_kernel k w)) by done.
  destruct (mark_eof_ok (FileDescriptor.set_kernel k w) h x limit data Hx1) as (w1 & Hw1 & Hk1 & Hx2).
  rewrite (io_bind_ok _ _ _ tt w1) by done.
  destruct (Z.ltb_spec (Z.min FileDescriptor.BUFFER_SIZE limit) (zlen data)); [lia|].
  destruct (Z.ltb_spec (zlen data) 0); [lia|]. rewrite str_resize_back by lia.
  destruct (update_ok _ _ _ FDWrapper.count_read Hx2) as (w2 & Hw2 & Hk2 & Hx3).
  exists w2. split; [by rewrite Hk2, Hk1|]. split; [by rewrite (io_bind_ok _ _ _ tt w2)|]. split; [lia|]. split; [lia|done].
Qed.

(** ** A kernel with one pipe

    It takes three bytes at a time, hands out up to four, and counts the calls of [close]. *)
Record pipe := Pipe { written : list byte; unread : list byte; closes : Z }.

Definition pipe_kernel : Kernel pipe := {|
  sys_read k _ n :=
    let data := ztake (Z.min 4 n) (unread k) in
    (zlen data, 0, data, Pipe (written k) (zdrop (Z.min 4 n) (unread k)) (closes k));
  sys_writev k _ iov :=
    let data := ztake 3 (concat iov.*1) in
    (zlen data, 0, Pipe (written k ++ data) (unread k) (closes k));
  sys_close k _ := (0, 0, Pipe (written k) (unread k) (closes k + 1));
  sys_getfl k _ := (0, 0, k);
  sys_setfl k _ _ := (0, 0, k)
|}.

#[export] Instance pipe_posix : PosixKernel pipe_kernel (fun k _ => written k).
Proof.
  split; simpl.
  - intros k fd iov r e k' [= <- <- <-]. pose proof (zlen_nonneg (concat iov.*1)). rewrite zlen_ztake.
    split; [lia|]. split; [lia|]. split; [lia|]. simpl. f_equal.
    destruct (Z.leb_spec (zlen (concat iov.*1)) 3).
    + rewrite !ztake_ge; lia || done.
    + do 2 f_equal. lia.
  - intros k fd n r e data k' Hn [= <- <- <- <-]. pose proof (zlen_nonneg (unread k)). rewrite zlen_ztake.
    repeat split; lia.
Qed.

(** Descriptor 5, reached through handle 0. *)
Definition pipe_world (c : Z) (input : list byte) : FileDescriptor.world :=
  FileDescriptor.World (Pipe [] input 0) {[ 0 := (FDWrapper.mk 5 false false 0 0, c) ]}.

Lemma pipe_points_to c input : points_to (pipe_world c input) 0 (FDWrapper.mk 5 false false 0 0).
Proof. by exists c. Qed.

Definition ten_bytes : list byte := replicate 10 Byte.x41.

Lemma fd_write_correct_witness :
  exists o w' n, FileDescriptor.write pipe_kernel 0 [ten_bytes] true (pipe_world 1 []) = (o, w') /\
    0 <= n <= zlen (all_bytes [ten_bytes]) /\
    written (FileDescriptor.kernel w') = ztake n (all_bytes [ten_bytes]) /\
    match o with
    | Ok r => r = n /\ (true = true -> n = zlen (all_bytes [ten_bytes]))
    | Throw _ => True
    | _ => False
    end.
Proof.
  apply (fd_write_correct pipe_kernel (fun k _ => written k) pipe_posix (pipe_world 1 []) 0
    (FDWrapper.mk 5 false false 0 0) [ten_bytes] true); [apply pipe_points_to|reflexivity].
Defined.

(** Ten bytes go out in four calls. *)
Example pipe_write_ten :
  FileDescriptor.write pipe_kernel 0 [ten_bytes] true (pipe_world 1 []) =
  (Ok 10, FileDescriptor.World (Pipe ten_bytes [] 0) {[ 0 := (FDWrapper.mk 5 false false 0 4, 1) ]}).
Proof. vm_compute. reflexivity. Qed.

Lemma fd_closed_with_last_handle_witness :
  handle_run pipe_kernel 0 [Copied; Destroyed; Destroyed] (pipe_world 2 []) =
    (Ok tt, FileDescriptor.set_handles (<[0 := (FDWrapper.mk 5 false false 0 0, 1)]>
              (FileDescriptor.handles (pipe_world 2 []))) (pipe_world 2 [])) /\
  exists w', handle_run pipe_kernel 0 ([Copied; Destroyed; Destroyed] ++ [Destroyed]) (pipe_world 2 []) = (Ok tt, w') /\
    FileDescriptor.handles w' = delete 0 (FileDescriptor.handles (pipe_world 2 [])) /\
    FileDescriptor.kernel w' = Pipe [] [] 1.
Proof.
  apply (fd_closed_with_last_handle pipe_kernel (pipe_world 2 []) 0 2 (FDWrapper.mk 5 false false 0 0)
    [Copied; Destroyed; Destroyed]); reflexivity.
Defined.

Lemma fd_read_correct_witness :
  exists w', FileDescriptor.kernel w' = Pipe [] (replicate 6 Byte.x41) 0 /\
    FileDescriptor.read pipe_kernel 0 100 (pipe_world 1 ten_bytes) = (Ok (replicate 4 Byte.x41), w') /\
    zlen (replicate 4 Byte.x41) <= 100 /\ zlen (replicate 4 Byte.x41) <= FileDescriptor.BUFFER_SIZE /\
    points_to w' 0 (FDWrapper.count_read
      (if decide (0 < 100 /\ replicate 4 Byte.x41 = []) then FDWrapper.set_eof (FDWrapper.mk 5 false false 0 0)
       else FDWrapper.mk 5 false false 0 0)).
Proof.
  apply (fd_read_correct pipe_kernel (fun k _ => written k) pipe_posix (pipe_world 1 ten_bytes) 0 100
    (FDWrapper.mk 5 false false 0 0)); [apply pipe_points_to|split; [lia|reflexivity]].
Defined.
