(* ===== verification/EventLoop.v ===== *)
(** * EventLoop.v: waiting for events on file descriptors

    Models [libsponge/util/eventloop.hh] and [libsponge/util/eventloop.cc].  [poll] is a
    parameter.  A rule owns a handle to its descriptor and three callbacks, which act on the
    world of [FileDesc]; the type of the kernel's state is arbitrary, so it can hold whatever
    else the callbacks share.  Callbacks do not change the list of rules. *)

From stdpp Require Import gmap list.
From S2P Require Import Prelude Buffers FileDesc.

Module EventLoop.

Definition POLLIN : Z := 1.
Definition POLLOUT : Z := 4.
Definition POLLERR : Z := 8.
Definition POLLHUP : Z := 16.
Definition POLLNVAL : Z := 32.
Definition EINTR : Z := 4.

Inductive Direction := In | Out.

(** [static_cast<short>(direction)]. *)
Definition direction_bits (d : Direction) : Z :=
  match d with In => POLLIN | Out => POLLOUT end.

Inductive Result := Success | Timeout | Exit.

Record pollfd := Pollfd { p_fd : Z; events : Z; revents : Z }.

Section loop.

Context {K : Type} (sys : Kernel K) (sys_poll : K -> list pollfd -> Z -> Z * Z * list pollfd * K).

#[local] Abbreviation W := (FileDescriptor.world (K := K)).

Record Rule := mkRule {
  fd : Z;
  direction : Direction;
  callback : io W unit;
  interest : io W bool;
  cancel : io W unit
}.

Definition service_count (r : Rule) : io W Z :=
  match direction r with
  | In => FileDescriptor.read_count (fd r)
  | Out => FileDescriptor.write_count (fd r)
  end.

(** [_rules.push_back({fd.duplicate(), ...})]. *)
Definition add_rule (rules : list Rule) (h : Z) (d : Direction) (cb : io W unit) (i : io W bool) (c : io W unit)
  : io W (list Rule) :=
  h' ← FileDescriptor.duplicate h;
  mret (rules ++ [mkRule h' d cb i c]).

(** [this_rule.cancel(); _rules.erase(it)]: erasing the rule destroys its handle. *)
Definition cancel_and_erase (r : Rule) : io W unit :=
  _ ← cancel r;
  FileDescriptor.release sys (fd r).

(** The body of the loop that sets up the [pollfd]s: none when the rule was erased. *)
Definition setup_rule (r : Rule) : io W (option (pollfd * bool)) :=
  at_eof ← (match direction r with In => FileDescriptor.eof (fd r) | Out => mret false end);
  if at_eof : bool then _ ← cancel_and_erase r; mret None
  else
    is_closed ← FileDescriptor.closed (fd r);
    if is_closed : bool then _ ← cancel_and_erase r; mret None
    else
      interested ← interest r;
      n ← FileDescriptor.fd_num (fd r);
      mret (Some (if interested : bool then (Pollfd n (direction_bits (direction r)) 0, true)
                  else (Pollfd n 0 0, false))).

(** The loop: the [pollfd]s, [something_to_poll], the rules left and the world; an exception
    leaves the rules that have not been erased. *)
Fixpoint setup_loop (rules : list Rule) (something_to_poll : bool) (w : W)
  : outcome (list pollfd * bool) * list Rule * W :=
  match rules with
  | [] => (Ok ([], something_to_poll), [], w)
  | r :: rest =>
      match setup_rule r w with
      | (Ok None, w') => setup_loop rest something_to_poll w'
      | (Ok (Some (p, asked)), w') =>
          match setup_loop rest (something_to_poll || asked) w' with
          | (o, rest', w'') => ('(ps, s) ← o; mret (p :: ps, s), r :: rest', w'')
          end
      | (Throw e, w') => (Throw e, rules, w')
      | (Undefined, w') => (Undefined, rules, w')
      | (OutOfFuel, w') => (OutOfFuel, rules, w')
      end
  end.

(** The body of the loop over the poll results: whether the rule was erased. *)
Definition handle_rule (r : Rule) (this_pollfd : pollfd) : io W bool :=
  let rev := revents this_pollfd in
  if negb (Z.land rev (Z.lor POLLERR POLLNVAL) =? 0)
  then pure_ (Throw (runtime_error "EventLoop: error on polled file descriptor"))
  else
    let poll_ready := negb (Z.land rev (events this_pollfd) =? 0) in
    let poll_hup := negb (Z.land rev POLLHUP =? 0) in
    if poll_hup && negb (events this_pollfd =? 0) && negb poll_ready
    then _ ← cancel_and_erase r; mret true
    else if poll_ready then
      count_before ← service_count r;
      _ ← callback r;
      count_after ← service_count r;
      still ← (if count_before =? count_after then interest r else mret false);
      if still : bool
      then pure_ (Throw (runtime_error "EventLoop: busy wait detected: callback did not read/write fd and is still interested"))
      else mret false
    else mret false.

(** The loop over the rules with the index of their [pollfd]. *)
Fixpoint dispatch_loop (pollfds : list pollfd) (rules : list Rule) (idx : Z) (w : W)
  : outcome unit * list Rule * W :=
  match rules with
  | [] => (Ok tt, [], w)
  | r :: rest =>
      match zget pollfds idx with
      | None => (Undefined, rules, w)
      | Some p =>
          match handle_rule r p w with
          | (Ok true, w') => dispatch_loop pollfds rest (idx + 1) w'
          | (Ok false, w') =>
              match dispatch_loop pollfds rest (idx + 1) w' with
              | (o, rest', w'') => (o, r :: rest', w'')
              end
          | (Throw e, w') => (Throw e, rules, w')
          | (Undefined, w') => (Undefined, rules, w')
          | (OutOfFuel, w') => (OutOfFuel, rules, w')
          end
      end
  end.

Definition dispatch (pollfds : list pollfd) (rules : list Rule) (w : W) : outcome Result * list Rule * W :=
  match dispatch_loop pollfds rules 0 w with
  | (o, rules', w') => (_ ← o; mret Success, rules', w')
  end.

Definition wait_next_event (timeout_ms : Z) (rules : list Rule) (w : W) : outcome Result * list Rule * W :=
  match setup_loop rules false w with
  | (Ok (_, false), rules, w) => (Ok Exit, rules, w)
  | (Ok (pollfds, true), rules, w) =>
      let '(r, e, pollfds, k) := sys_poll (FileDescriptor.kernel w) pollfds timeout_ms in
      let w := FileDescriptor.set_kernel k w in
      match SystemCall "poll" r e 0 with
      | Ok n => if n =? 0 then (Ok Timeout, rules, w) else dispatch pollfds rules w
      | Throw (tagged_error _ code) => if code =? EINTR then (Ok Exit, rules, w) else dispatch pollfds rules w
      | Throw e => (Throw e, rules, w)
      | Undefined => (Undefined, rules, w)
      | OutOfFuel => (OutOfFuel, rules, w)
      end
  | (Throw e, rules, w) => (Throw e, rules, w)
  | (Undefined, rules, w) => (Undefined, rules, w)
  | (OutOfFuel, rules, w) => (OutOfFuel, rules, w)
  end.

End loop.

Arguments mkRule {K}.
Arguments Rule : clear implicits.

End EventLoop.

(** ** What is documented of [poll]: it sets the [revents] and leaves the rest. *)
Class PosixPoll {K} (sys_poll : K -> list EventLoop.pollfd -> Z -> Z * Z * list EventLoop.pollfd * K) : Prop := {
  poll_keeps k ps t r e ps' k' : sys_poll k ps t = (r, e, ps', k') ->
    Forall2 (fun p p' => EventLoop.p_fd p' = EventLoop.p_fd p /\ EventLoop.events p' = EventLoop.events p) ps ps'
}.

(** ** Lemmas *)

Section rounds.

Import EventLoop.

Context {K : Type} (sys : Kernel K).

(** The reference for the second loop: each rule comes with its own [pollfd]. *)
Fixpoint dispatch_pairs (l : list (Rule K * pollfd)) (w : FileDescriptor.world (K := K))
  : outcome Result * list (Rule K) * FileDescriptor.world (K := K) :=
  match l with
  | [] => (Ok Success, [], w)
  | (r, p) :: rest =>
      match handle_rule sys r p w with
      | (Ok erased, w') =>
          match dispatch_pairs rest w' with
          | (o, rest', w'') => (o, if erased : bool then rest' else r :: rest', w'')
          end
      | (Throw e, w') => (Throw e, l.*1, w')
      | (Undefined, w') => (Undefined, l.*1, w')
      | (OutOfFuel, w') => (OutOfFuel, l.*1, w')
      end
  end.

(** A [pollfd] asks for the direction of the rule, or for nothing. *)
Definition watches (r : Rule K) (p : pollfd) : Prop :=
  events p = direction_bits (direction r) \/ events p = 0.

Definition asks (p : pollfd) : bool := negb (events p =? 0).

Lemma setup_rule_watches r w p asked w' :
  setup_rule sys r w = (Ok (Some (p, asked)), w') -> watches r p /\ revents p = 0 /\ asked = asks p.
Proof.
  unfold setup_rule, watches, asks. unfold mbind, io_bind, mret, io_ret. intros H.
  repeat (case_match; simplify_eq); by destruct (direction r); auto.
Qed.


(** What the first loop leaves when it ends. *)
Lemma setup_loop_spec rules : forall s w ps s' kept w',
  setup_loop sys rules s w = (Ok (ps, s'), kept, w') ->
  Forall2 watches kept ps /\ Forall (fun p => revents p = 0) ps /\ s' = s || existsb asks ps.
Proof.
  induction rules as [|r rest IH]; intros s w ps s' kept w'; simpl.
  { intros [= <- <- <- <-]. by rewrite orb_false_r. }
  destruct (setup_rule sys r w) as [[[[p asked]|]| | |] w1] eqn:E1; try done; [|by apply IH].
  destruct (setup_loop sys rest (s || asked) w1) as [[o rest'] w2] eqn:E2.
  intros [= Ho <- <-]. destruct o as [[ps0 s0]| | |]; try done. injection Ho as <- <-.
  destruct (IH _ _ _ _ _ _ E2) as (Hw & Hz & ->). destruct (setup_rule_watches _ _ _ _ _ E1) as (Hp & Hr & ->).
  split; [by constructor|]. split; [by constructor|]. simpl. by rewrite orb_assoc.
Qed.

(** The rules left are those given less some, in their order. *)
Lemma setup_loop_sublist rules : forall s w o kept w',
  setup_loop sys rules s w = (o, kept, w') -> kept `sublist_of` rules.
Proof.
  induction rules as [|r rest IH]; intros s w o kept w'; simpl; [by intros [= _ <- _]|].
  destruct (setup_rule sys r w) as [[[[p asked]|]| | |] w1]; try (by intros [= _ <- _]).
  - destruct (setup_loop sys rest (s || asked) w1) as [[o1 rest'] w2] eqn:E2.
    intros [= _ <- _]. apply sublist_skip. by eapply IH.
  - intros H. apply sublist_cons. by eapply IH.
Qed.

Lemma dispatch_loop_sublist ps rules : forall idx w o kept w',
  dispatch_loop sys ps rules idx w = (o, kept, w') -> kept `sublist_of` rules.
Proof.
  induction rules as [|r rest IH]; intros idx w o kept w'; simpl; [by intros [= _ <- _]|].
  destruct (zget ps idx) as [p|]; [|by intros [= _ <- _]].
  destruct (handle_rule sys r p w) as [[[]| | |] w1]; try (by intros [= _ <- _]).
  - intros H. apply sublist_cons. by eapply IH.
  - destruct (dispatch_loop sys ps rest (idx + 1) w1) as [[o1 rest'] w2] eqn:E2.
    intros [= _ <- _]. apply sublist_skip. by eapply IH.
Qed.

(** The index keeps in step with the rules. *)
Lemma dispatch_loop_pairs ps : forall before rules w, length rules = length ps ->
  dispatch_loop sys (before ++ ps) rules (zlen before) w =
  match dispatch_pairs (zip rules ps) w with
  | (o, kept, w') => (_ ← o; mret tt, kept, w')
  end.
Proof.
  induction ps as [|p ps IH]; intros before [|r rest] w Hl; simplify_eq/=; [done|].
  rewrite zget_app, Z.ltb_irrefl, Z.sub_diag. simpl.
  replace (before ++ p :: ps) with ((before ++ [p]) ++ ps) by (by rewrite <- app_assoc).
  replace (zlen before + 1) with (zlen (before ++ [p])) by (rewrite zlen_app; done).
  assert (Hz : (zip rest ps).*1 = rest) by (apply fst_zip; lia).
  destruct (handle_rule sys r p w) as [[[]| | |] w1]; rewrite ?Hz; try done; rewrite (IH _ _ _ Hl);
    by destruct (dispatch_pairs _ w1) as [[? ?] ?].
Qed.

Lemma dispatch_pairs_success l : forall w r kept w',
  dispatch_pairs l w = (Ok r, kept, w') -> r = Success.
Proof.
  induction l as [|[r p] rest IH]; intros w r' kept w'; simpl; [by intros [= <- _ _]|].
  destruct (handle_rule sys r p w) as [[erased| | |] w1]; try done.
  destruct (dispatch_pairs rest w1) as [[o ?] ?] eqn:E. intros [= -> _ _]. by eapply IH.
Qed.

Lemma dispatch_is_pairs ps rules w : length rules = length ps ->
  dispatch sys ps rules w = dispatch_pairs (zip rules ps) w.
Proof.
  intros Hl. unfold dispatch.
  change (dispatch_loop sys ps rules 0 w) with (dispatch_loop sys ([] ++ ps) rules (zlen (@nil pollfd)) w).
  rewrite (dispatch_loop_pairs ps [] rules w Hl).
  destruct (dispatch_pairs _ w) as [[o kept] w'] eqn:E. destruct o as [r| | |]; try done.
  by rewrite (dispatch_pairs_success _ _ _ _ _ E).
Qed.

(** Nothing happens where [poll] reports nothing. *)
Lemma dispatch_pairs_idle l : forall w, Forall (fun x => revents x.2 = 0) l ->
  dispatch_pairs l w = (Ok Success, l.*1, w).
Proof.
  induction l as [|[r p] rest IH]; intros w H; [done|]. apply Forall_cons in H as [Hp Hl]. simpl in *.
  unfold handle_rule. rewrite Hp. simpl. by rewrite (IH _ Hl).
Qed.

End rounds.

(** ** What the callbacks keep, the loop keeps *)

Section invariant.

Import EventLoop.

Context {K : Type} (sys : Kernel K) (sys_poll : K -> list pollfd -> Z -> Z * Z * list pollfd * K)
  `{!PosixPoll sys_poll}.

#[local] Abbreviation W := (FileDescriptor.world (K := K)).

(** The descriptor behind a handle, and the descriptors [poll] may report as hung up. *)
Context (num : Z -> Z) (hung : Z -> Prop).

Definition reports_hangups : Prop := forall k ps t r e ps' k', sys_poll k ps t = (r, e, ps', k') ->
  Forall (fun p => Z.land (revents p) POLLHUP <> 0 -> hung (p_fd p)) ps'.

(** [poll] can be interrupted by a signal. *)
Definition interruptible : Prop := exists k ps t r ps' k', sys_poll k ps t = (r, EINTR, ps', k') /\ r < 0.

(** Why the loop erases a rule. *)
Definition may_erase (r : Rule K) (w : W) : Prop :=
  (direction r = In /\ FileDescriptor.eof (fd r) w = (Ok true, w)) \/
  FileDescriptor.closed (fd r) w = (Ok true, w) \/ hung (num (fd r)).

(** A rule that is set up: its descriptor is open, and not at its end if it is to be read. *)
Definition ready (r : Rule K) (w : W) : Prop :=
  FileDescriptor.closed (fd r) w = (Ok false, w) /\ (direction r = In -> FileDescriptor.eof (fd r) w = (Ok false, w)).

(** An invariant [I] of the rules and the world, with what the answer [b] of a rule's interest
    says as long as the rule has not run, [J b], and what holds after an exception, [E].  Every
    rule has its descriptor; its interest only looks; its callback, called when the rule was
    interested, keeps the invariant and leaves the interest of later rules, or throws with [E];
    erasing a rule keeps the invariant for the others. *)
Record loop_contract (I : list (Rule K) -> W -> Prop) (J : bool -> Rule K -> W -> Prop) (E : list (Rule K) -> W -> Prop) : Prop := {
  lc_handle rules w r : I rules w -> r ∈ rules ->
    exists x n, FileDescriptor.handles w !! fd r = Some (x, n) /\ FDWrapper._fd x = num (fd r);
  lc_interest rules w r : I rules w -> r ∈ rules ->
    exists b, interest r w = (Ok b, w) /\ (ready r w -> J b r w);
  lc_callback before r after w : I (before ++ r :: after) w -> J true r w ->
    match callback r w with
    | (Ok _, w') => I (before ++ r :: after) w' /\ forall r', r' ∈ after -> J true r' w -> J true r' w'
    | (Throw _, w') => E (before ++ r :: after) w'
    | _ => False
    end;
  lc_erase before r after w : I (before ++ r :: after) w -> may_erase r w ->
    exists w', cancel_and_erase sys r w = (Ok tt, w') /\ I (before ++ after) w' /\
      (forall b r', r' ∈ before -> J b r' w -> J b r' w') /\ (forall r', r' ∈ after -> J true r' w -> J true r' w');
  lc_poll rules w ps t : I rules w ->
    I rules (FileDescriptor.set_kernel (sys_poll (FileDescriptor.kernel w) ps t).2 w) /\
    forall b r, r ∈ rules -> J b r w -> J b r (FileDescriptor.set_kernel (sys_poll (FileDescriptor.kernel w) ps t).2 w);
  lc_throw rules w : I rules w -> E rules w
}.

(** An invariant that the callbacks keep even when they throw. *)
Record loop_invariant (I : list (Rule K) -> W -> Prop) (J : bool -> Rule K -> W -> Prop) : Prop := {
  li_handle rules w r : I rules w -> r ∈ rules ->
    exists x n, FileDescriptor.handles w !! fd r = Some (x, n) /\ FDWrapper._fd x = num (fd r);
  li_interest rules w r : I rules w -> r ∈ rules ->
    exists b, interest r w = (Ok b, w) /\ (ready r w -> J b r w);
  li_callback before r after w : I (before ++ r :: after) w -> J true r w ->
    match callback r w with
    | (Ok _, w') => I (before ++ r :: after) w' /\ forall r', r' ∈ after -> J true r' w -> J true r' w'
    | (Throw _, w') => I (before ++ r :: after) w'
    | _ => False
    end;
  li_erase before r after w : I (before ++ r :: after) w -> may_erase r w ->
    exists w', cancel_and_erase sys r w = (Ok tt, w') /\ I (before ++ after) w' /\
      (forall b r', r' ∈ before -> J b r' w -> J b r' w') /\ (forall r', r' ∈ after -> J true r' w -> J true r' w');
  li_poll rules w ps t : I rules w ->
    I rules (FileDescriptor.set_kernel (sys_poll (FileDescriptor.kernel w) ps t).2 w) /\
    forall b r, r ∈ rules -> J b r w -> J b r (FileDescriptor.set_kernel (sys_poll (FileDescriptor.kernel w) ps t).2 w)
}.

Lemma invariant_contract I J : loop_invariant I J -> loop_contract I J I.
Proof. by intros []. Qed.

Section contract.

Context (I : list (Rule K) -> W -> Prop) (J : bool -> Rule K -> W -> Prop) (E : list (Rule K) -> W -> Prop)
  (HI : loop_contract I J E) (Hhung : reports_hangups).

(** The [pollfd] of a rule asks for its descriptor, and for events if the rule was interested. *)
Definition set_up (w : W) (r : Rule K) (p : pollfd) : Prop := p_fd p = num (fd r) /\ J (asks p) r w.

Lemma contract_internal rules w r : I rules w -> r ∈ rules ->
  exists x, FileDescriptor.internal (fd r) w = (Ok x, w) /\ FDWrapper._fd x = num (fd r).
Proof.
  intros Hi Hr. destruct (lc_handle _ _ _ HI _ _ _ Hi Hr) as (x & n & Hx & Hn). exists x.
  unfold FileDescriptor.internal. by rewrite Hx.
Qed.

Lemma contract_eof rules w r : I rules w -> r ∈ rules -> exists b, FileDescriptor.eof (fd r) w = (Ok b, w).
Proof.
  intros Hi Hr. destruct (contract_internal _ _ _ Hi Hr) as (x & Hx & _). unfold FileDescriptor.eof.
  rewrite (io_bind_ok _ _ _ _ _ Hx). by eexists.
Qed.

(** Setting up a rule erases it, or leaves the world alone and asks what the rule asks. *)
Lemma setup_rule_contract before r after w : I (before ++ r :: after) w ->
  (exists w', setup_rule sys r w = (Ok None, w') /\ I (before ++ after) w' /\
     forall b r', r' ∈ before -> J b r' w -> J b r' w') \/
  (exists p b, setup_rule sys r w = (Ok (Some (p, b)), w) /\ set_up w r p).
Proof.
  intros Hi. assert (Hr : r ∈ before ++ r :: after) by set_solver.
  pose proof (lc_erase _ _ _ HI _ _ _ _ Hi) as He. destruct (lc_interest _ _ _ HI _ _ _ Hi Hr) as (b & Hb & HJ).
  destruct (contract_eof _ _ _ Hi Hr) as [b1 H1]. destruct (contract_internal _ _ _ Hi Hr) as (x & Hx & Hfd).
  assert (Hcl : FileDescriptor.closed (fd r) w = (Ok (FDWrapper._closed x), w)).
  { unfold FileDescriptor.closed. by rewrite (io_bind_ok _ _ _ _ _ Hx). }
  assert (Hn : FileDescriptor.fd_num (fd r) w = (Ok (FDWrapper._fd x), w)).
  { unfold FileDescriptor.fd_num. by rewrite (io_bind_ok _ _ _ _ _ Hx). }
  unfold setup_rule. rewrite (io_bind_ok _ _ w (match direction r with In => b1 | Out => false end) w)
    by (by destruct (direction r)).
  destruct (match direction r with In => b1 | Out => false end) eqn:Ee.
  { left. destruct He as (w' & He & Hi' & HJ' & _); [left; destruct (direction r); [by subst|done]|].
    exists w'. by rewrite (io_bind_ok _ _ _ _ _ He). }
  rewrite (io_bind_ok _ _ _ _ _ Hcl). destruct (FDWrapper._closed x) eqn:Ec.
  { left. destruct He as (w' & He & Hi' & HJ' & _); [by right; left|]. exists w'. by rewrite (io_bind_ok _ _ _ _ _ He). }
  assert (Hready : ready r w) by (split; [done|intros Ed; by rewrite Ed in Ee; subst]). specialize (HJ Hready).
  right. rewrite (io_bind_ok _ _ _ _ _ Hb), (io_bind_ok _ _ _ _ _ Hn).
  destruct b; eexists _, _; (split; [reflexivity|]); (split; [done|]); unfold asks; simpl; [by destruct (direction r)|done].
Qed.

Lemma setup_loop_contract rest : forall before qs s w, I (before ++ rest) w -> Forall2 (set_up w) before qs ->
  exists ps s' kept w', setup_loop sys rest s w = (Ok (ps, s'), kept, w') /\ I (before ++ kept) w' /\
    Forall2 (set_up w') (before ++ kept) (qs ++ ps).
Proof.
  induction rest as [|r rest IH]; intros before qs s w Hi Hq; cbn [setup_loop].
  { exists [], s, [], w. by rewrite !app_nil_r in *. }
  destruct (setup_rule_contract _ _ _ _ Hi) as [(w' & -> & Hi' & HJ)|(p & b & -> & Hp)].
  { apply IH; [done|]. apply Forall2_same_length_lookup. split; [by eapply Forall2_length|].
    intros i x y Hx Hy. destruct (Forall2_lookup_lr _ _ _ _ _ _ Hq Hx Hy) as [H1 H2]. split; [done|].
    apply HJ; [by eapply list_elem_of_lookup_2|done]. }
  destruct (IH (before ++ [r]) (qs ++ [p]) (s || b) w) as (ps & s' & kept & w' & -> & Hk & Hall);
    [by rewrite <- app_assoc|apply Forall2_app; [done|by constructor]|].
  exists (p :: ps), s', (r :: kept), w'. rewrite <- !app_assoc in *. done.
Qed.

Lemma handle_rule_contract before r p after w : I (before ++ r :: after) w ->
  p_fd p = num (fd r) -> (asks p = true -> J true r w) ->
  (Z.land (revents p) POLLHUP <> 0 -> hung (p_fd p)) ->
  match handle_rule sys r p w with
  | (Ok true, w') => I (before ++ after) w' /\ forall r', r' ∈ after -> J true r' w -> J true r' w'
  | (Ok false, w') => I (before ++ r :: after) w' /\ forall r', r' ∈ after -> J true r' w -> J true r' w'
  | (Throw _, w') => E (before ++ r :: after) w'
  | _ => False
  end.
Proof.
  intros Hi Hfd HJ Hhup. assert (Hr : forall w, I (before ++ r :: after) w -> r ∈ before ++ r :: after) by set_solver.
  unfold handle_rule. cbv zeta.
  destruct (negb (Z.land (revents p) (Z.lor POLLERR POLLNVAL) =? 0)); [by apply (lc_throw _ _ _ HI)|].
  destruct (negb (Z.land (revents p) POLLHUP =? 0) && _ && _) eqn:Eh.
  { apply andb_prop in Eh as [[Eh _]%andb_prop _]. apply negb_true_iff, Z.eqb_neq in Eh.
    destruct (lc_erase _ _ _ HI _ _ _ _ Hi) as (w' & He & Hi' & _ & HJ');
      [right; right; rewrite <- Hfd; by apply Hhup|by rewrite (io_bind_ok _ _ _ _ _ He)]. }
  destruct (negb (Z.land (revents p) (events p) =? 0)) eqn:Er; [|by split].
  assert (Hask : asks p = true).
  { unfold asks. apply negb_true_iff, Z.eqb_neq. intros E0. rewrite E0, Z.land_0_r in Er. done. }
  specialize (HJ Hask).
  assert (Hsc : forall w, I (before ++ r :: after) w -> exists n, service_count r w = (Ok n, w)).
  { intros v Hv. destruct (contract_internal _ _ _ Hv (Hr v Hv)) as (x & Hx & _).
    unfold service_count, FileDescriptor.read_count, FileDescriptor.write_count.
    destruct (direction r); rewrite (io_bind_ok _ _ _ _ _ Hx); by eexists. }
  destruct (Hsc w Hi) as [n0 H0]. rewrite (io_bind_ok _ _ _ _ _ H0).
  pose proof (lc_callback _ _ _ HI _ _ _ _ Hi HJ) as Hc. unfold mbind at 1, io_bind at 1.
  destruct (callback r w) as [[[]|e| |] w1]; try done. destruct Hc as [Hi1 HJ1].
  destruct (Hsc w1 Hi1) as [n1 H1]. rewrite (io_bind_ok _ _ _ _ _ H1). destruct (n0 =? n1); [|done].
  destruct (lc_interest _ _ _ HI _ _ _ Hi1 (Hr w1 Hi1)) as (b & Hb & _). rewrite (io_bind_ok _ _ _ _ _ Hb).
  destruct b; [by apply (lc_throw _ _ _ HI)|done].
Qed.

(** What is left to handle: the rules and [pollfd]s after a step that kept their interest. *)
Lemma set_up_kept w w' (l : list (Rule K * pollfd)) :
  (forall r, r ∈ l.*1 -> J true r w -> J true r w') ->
  Forall (fun '(r, p) => p_fd p = num (fd r) /\ (asks p = true -> J true r w)) l ->
  Forall (fun '(r, p) => p_fd p = num (fd r) /\ (asks p = true -> J true r w')) l.
Proof.
  intros HJ. rewrite !Forall_forall. intros H [r p] Hin. destruct (H _ Hin) as [H1 H2]. split; [done|].
  intros Ha. apply HJ; [|auto]. apply list_elem_of_fmap. by exists (r, p).
Qed.

Lemma dispatch_pairs_contract l : forall before w, I (before ++ l.*1) w ->
  Forall (fun '(r, p) => p_fd p = num (fd r) /\ (asks p = true -> J true r w)) l ->
  Forall (fun p => Z.land (revents p) POLLHUP <> 0 -> hung (p_fd p)) l.*2 ->
  exists o kept w', dispatch_pairs sys l w = (o, kept, w') /\
    match o with Ok r => I (before ++ kept) w' /\ r = Success | Throw _ => E (before ++ kept) w' | _ => False end.
Proof.
  induction l as [|[r p] l IH]; intros before w Hi Hl Hh; simpl in *; [by exists (Ok Success), [], w|].
  apply Forall_cons in Hl as [[Hfd HJ] Hl]. apply Forall_cons in Hh as [Hp Hh].
  pose proof (handle_rule_contract _ _ p _ _ Hi Hfd HJ Hp) as Hr.
  destruct (handle_rule sys r p w) as [[[]|e| |] w1]; try done; [..|by eexists _, _, _];
    destruct Hr as [Hi1 HJ1]; pose proof (set_up_kept w w1 l HJ1 Hl) as Hl1.
  - destruct (IH before w1 Hi1 Hl1 Hh) as (o & kept & w' & -> & ?). by exists o, kept, w'.
  - destruct (IH (before ++ [r]) w1) as (o & kept & w' & -> & ?); [by rewrite <- app_assoc|done|done|].
    exists o, (r :: kept), w'. rewrite <- app_assoc in *. done.
Qed.

Lemma set_up_polled w rules ps ps' :
  Forall2 (set_up w) rules ps -> Forall2 (fun p p' => p_fd p' = p_fd p /\ events p' = events p) ps ps' ->
  Forall (fun '(r, p) => p_fd p = num (fd r) /\ (asks p = true -> J true r w)) (zip rules ps').
Proof.
  intros H. revert ps'. induction H as [|r p rules ps [Hfd HJ] _ IH]; intros ps' Hp; [by constructor|].
  inv Hp. simpl. constructor; [|by apply IH]. match goal with H : _ /\ _ |- _ => destruct H as [E1 E2] end.
  split; [congruence|]. unfold asks in *. rewrite E2. intros Ha. by rewrite Ha in HJ.
Qed.

(** A round keeps the invariant for the rules left, and returns or throws.  When it says that
    nothing is left to wait for, no rule was interested, unless a signal came. *)
Lemma wait_next_event_contract t rules w : I rules w ->
  exists o kept w', wait_next_event sys sys_poll t rules w = (o, kept, w') /\
    match o with
    | Ok r => I kept w' /\ (r = Exit -> interruptible \/ forall r, r ∈ kept -> J false r w')
    | Throw _ => E kept w'
    | _ => False
    end.
Proof.
  intros Hi. unfold wait_next_event.
  destruct (setup_loop_contract rules [] [] false w Hi) as (ps & s & kept & w1 & Es & Hi1 & Hs); [done|].
  simpl in Hi1, Hs. rewrite Es. destruct (setup_loop_spec _ _ _ _ _ _ _ _ Es) as (Hw & _ & Hsome). simpl in Hsome.
  destruct s.
  2:{ exists (Ok Exit), kept, w1. split; [done|]. split; [done|]. intros _. right. intros r Hr.
      apply list_elem_of_lookup_1 in Hr as [i Hr]. destruct (Forall2_lookup_l _ _ _ _ _ Hs Hr) as (p & Hp & _ & HJ).
      assert (Ha : asks p = false) by (apply not_true_is_false; intros Ha; symmetry in Hsome; apply not_true_iff_false in Hsome;
        apply Hsome, existsb_exists; exists p; split; [by eapply list_elem_of_In, list_elem_of_lookup_2|done]).
      by rewrite Ha in HJ. }
  pose proof (lc_poll _ _ _ HI _ _ ps t Hi1) as [Hi2 HJ2].
  destruct (sys_poll (FileDescriptor.kernel w1) ps t) as [[[r e] ps'] k] eqn:Ep. simpl in Hi2, HJ2.
  pose proof (poll_keeps _ _ _ _ _ _ _ Ep) as Hkeep.
  pose proof (Forall2_length _ _ _ Hs) as Hl1. pose proof (Forall2_length _ _ _ Hkeep) as Hl2.
  assert (Hd : exists o kept' w', dispatch sys ps' kept (FileDescriptor.set_kernel k w1) = (o, kept', w') /\
    match o with Ok r => I kept' w' /\ r = Success | Throw _ => E kept' w' | _ => False end).
  { rewrite dispatch_is_pairs by lia. apply (dispatch_pairs_contract _ []).
    - simpl. by rewrite fst_zip by lia.
    - eapply set_up_polled; [|exact Hkeep]. apply Forall2_same_length_lookup. split; [done|].
      intros i x y Hx Hy. destruct (Forall2_lookup_lr _ _ _ _ _ _ Hs Hx Hy) as [H1 H2]. split; [done|].
      apply HJ2; [by eapply list_elem_of_lookup_2|done].
    - rewrite snd_zip by lia. by eapply Hhung. }
  destruct Hd as (o & kept' & w' & Hd & Ho).
  assert (Hdone : exists o kept' w', dispatch sys ps' kept (FileDescriptor.set_kernel k w1) = (o, kept', w') /\
    match o with Ok r => I kept' w' /\ (r = Exit -> interruptible \/ forall r, r ∈ kept' -> J false r w') | Throw _ => E kept' w' | _ => False end).
  { exists o, kept', w'. split; [done|]. destruct o; try done. by destruct Ho as [? ->]. }
  assert (Htime : exists o kept' w', (Ok Timeout, kept, FileDescriptor.set_kernel k w1) = (o, kept', w') /\
    match o with Ok r => I kept' w' /\ (r = Exit -> interruptible \/ forall r, r ∈ kept' -> J false r w') | Throw _ => E kept' w' | _ => False end).
  { by exists (Ok Timeout), kept, (FileDescriptor.set_kernel k w1). }
  unfold SystemCall. destruct (Z.leb_spec 0 r) as [Hr|Hr], (Z.eqb_spec e 0) as [->|He]; cbn [orb];
    try (destruct (r =? 0); assumption).
  destruct (Z.eqb_spec e EINTR) as [->|]; [|done].
  exists (Ok Exit), kept, (FileDescriptor.set_kernel k w1). split; [done|]. split; [done|]. left. by eexists _, _, _, _, _, _.
Qed.

End contract.

Lemma wait_next_event_invariant I J (HI : loop_invariant I J) (Hhung : reports_hangups) t rules w : I rules w ->
  exists o kept w', wait_next_event sys sys_poll t rules w = (o, kept, w') /\ I kept w' /\
    match o with
    | Ok Exit => interruptible \/ forall r, r ∈ kept -> J false r w'
    | Ok _ | Throw _ => True
    | _ => False
    end.
Proof.
  intros Hi. destruct (wait_next_event_contract _ _ _ (invariant_contract _ _ HI) Hhung t rules w Hi) as (o & kept & w' & Hw & Ho).
  exists o, kept, w'. split; [done|]. destruct o as [[]|e| |]; try done; destruct Ho as [? He]; auto.
Qed.

End invariant.

(** ** Properties *)


(** However a round ends, by a result or by an exception, the rules afterwards are those
    before less the erased ones, in the same order. *)
Theorem event_loop_keeps_order {K} (sys : Kernel K) sys_poll (timeout_ms : Z)
  (rules : list (EventLoop.Rule K)) (w : FileDescriptor.world) :
  (EventLoop.wait_next_event sys sys_poll timeout_ms rules w).1.2 `sublist_of` rules.
Proof.
  unfold EventLoop.wait_next_event, EventLoop.dispatch.
  destruct (EventLoop.setup_loop sys rules false w) as [[o kept] w1] eqn:E.
  apply setup_loop_sublist in E. destruct o as [[ps []]| | |]; try done.
  destruct (sys_poll _ ps timeout_ms) as [[[r e] ps'] k].
  destruct (EventLoop.dispatch_loop sys ps' kept 0 _) as [[o' kept'] w'] eqn:Ed.
  apply dispatch_loop_sublist in Ed. assert (kept' `sublist_of` rules) by (by etrans).
  unfold SystemCall. by repeat case_match; simplify_eq/=.
Qed.

(** The check for busy waiting: on a ready rule, the loop goes on exactly when the
    callback returned and either the descriptor was read (or written) in the rule's direction
    or the rule is no longer interested; when the callback returned without touching the
    descriptor and the rule is still interested, the loop throws. *)
Theorem busy_wait_detected {K} (sys : Kernel K) (r : EventLoop.Rule K) (p : EventLoop.pollfd)
  (w w1 : FileDescriptor.world) (n0 n1 : Z)
  (Herr : Z.land (EventLoop.revents p) (Z.lor EventLoop.POLLERR EventLoop.POLLNVAL) = 0)
  (Hready : Z.land (EventLoop.revents p) (EventLoop.events p) <> 0)
  (Hn0 : EventLoop.service_count r w = (Ok n0, w))
  (Hcb : EventLoop.callback r w = (Ok tt, w1))
  (Hn1 : EventLoop.service_count r w1 = (Ok n1, w1)) :
  (forall w', EventLoop.handle_rule sys r p w = (Ok false, w') <->
    (n0 <> n1 /\ w' = w1 \/ n0 = n1 /\ EventLoop.interest r w1 = (Ok false, w'))) /\
  (forall w', n0 = n1 -> EventLoop.interest r w1 = (Ok true, w') ->
    EventLoop.handle_rule sys r p w = (Throw (runtime_error
      "EventLoop: busy wait detected: callback did not read/write fd and is still interested"), w')).
Proof.
  unfold EventLoop.handle_rule. cbv zeta. rewrite Herr.
  destruct (Z.eqb_spec (Z.land (EventLoop.revents p) (EventLoop.events p)) 0); [done|].
  rewrite Z.eqb_refl. cbn [negb]. rewrite andb_false_r. unfold mbind, io_bind. rewrite Hn0, Hcb, Hn1. split; intros w'.
  - destruct (Z.eqb_spec n0 n1) as [->|Hne].
    + split.
      * destruct (EventLoop.interest r w1) as [[[]| | |] w2]; intros [=]; subst. right. done.
      * intros [[] | [_ ->]]; done.
    + cbn. split; [intros [= ->]; by left|intros [[_ ->]|[]]; done].
  - intros -> Hi. by rewrite Z.eqb_refl, Hi.
Qed.

(** An error of [poll] other than a signal is not reported: when [poll] fails with it and
    leaves the results empty, [wait_next_event] returns [Success], the rules set up are kept
    and no callback runs. *)
Theorem poll_error_swallowed {K} (sys : Kernel K) sys_poll (timeout_ms e : Z)
  (rules kept : list (EventLoop.Rule K)) (ps : list EventLoop.pollfd) (w w1 : FileDescriptor.world) (k : K)
  (Hsetup : EventLoop.setup_loop sys rules false w = (Ok (ps, true), kept, w1))
  (Hfail : sys_poll (FileDescriptor.kernel w1) ps timeout_ms = (-1, e, ps, k))
  (He : e <> 0) (Hsig : e <> EventLoop.EINTR) :
  EventLoop.wait_next_event sys sys_poll timeout_ms rules w =
    (Ok EventLoop.Success, kept, FileDescriptor.set_kernel k w1).
Proof.
  unfold EventLoop.wait_next_event. rewrite Hsetup, Hfail. unfold SystemCall.
  destruct (Z.eqb_spec e 0); [done|]. simpl. destruct (Z.eqb_spec e EventLoop.EINTR); [done|].
  destruct (setup_loop_spec _ _ _ _ _ _ _ _ Hsetup) as (Hw & Hz & _). apply Forall2_length in Hw.
  rewrite dispatch_is_pairs by done. rewrite dispatch_pairs_idle.
  - rewrite fst_zip by lia. done.
  - apply Forall_forall. intros [q p] Hin. apply elem_of_zip_r in Hin. simpl. by rewrite Forall_forall in Hz; apply Hz.
Qed.

(** ** A poll that finds everything ready, and one that fails *)

Definition poll_ready_all {K} (k : K) (ps : list EventLoop.pollfd) (_ : Z) : Z * Z * list EventLoop.pollfd * K :=
  (zlen ps, 0, (fun p => EventLoop.Pollfd (EventLoop.p_fd p) (EventLoop.events p) (EventLoop.events p)) <$> ps, k).

#[export] Instance poll_ready_all_posix {K} : PosixPoll (@poll_ready_all K).
Proof. split. intros k ps t r e ps' k' [= <- <- <- <-]. induction ps; constructor; auto. Qed.

Definition EINVAL : Z := 22.

Definition poll_einval {K} (k : K) (ps : list EventLoop.pollfd) (_ : Z) : Z * Z * list EventLoop.pollfd * K :=
  (-1, EINVAL, ps, k).

(** A rule that reads from the pipe, and one that forgets to. *)
Definition reading_rule : EventLoop.Rule pipe :=
  EventLoop.mkRule 0 EventLoop.In (_ ← FileDescriptor.read pipe_kernel 0 100; mret tt) (mret true) (mret tt).

Definition idle_rule : EventLoop.Rule pipe :=
  EventLoop.mkRule 0 EventLoop.In (mret tt) (mret true) (mret tt).

(** Rounds until one does not succeed, with the results. *)
Fixpoint rounds (n : nat) (rules : list (EventLoop.Rule pipe)) (w : FileDescriptor.world)
  : list EventLoop.Result * nat * FileDescriptor.world :=
  match n with
  | O => ([], length rules, w)
  | S n =>
      match EventLoop.wait_next_event pipe_kernel poll_ready_all 10 rules w with
      | (Ok r, rules', w') => let '(rs, l, w'') := rounds n rules' w' in (r :: rs, l, w'')
      | (_, rules', w') => ([], length rules', w')
      end
  end.

(** Ten bytes are read four at a time; the fourth read finds the end; the fifth round cancels
    the rule, whose handle was the last but one. *)
Example pipe_is_drained :
  rounds 5 [reading_rule] (pipe_world 2 ten_bytes) =
  ([EventLoop.Success; EventLoop.Success; EventLoop.Success; EventLoop.Success; EventLoop.Exit], 0%nat,
   FileDescriptor.World (Pipe [] [] 0) {[ 0 := (FDWrapper.mk 5 true false 4 0, 1) ]}).
Proof. vm_compute. reflexivity. Qed.


Lemma busy_wait_detected_witness :
  (forall w', EventLoop.handle_rule pipe_kernel idle_rule (EventLoop.Pollfd 5 1 1) (pipe_world 2 []) = (Ok false, w') <->
    (0 <> 0 /\ w' = pipe_world 2 [] \/
     0 = 0 /\ EventLoop.interest idle_rule (pipe_world 2 []) = (Ok false, w'))) /\
  (forall w', 0 = 0 -> EventLoop.interest idle_rule (pipe_world 2 []) = (Ok true, w') ->
    EventLoop.handle_rule pipe_kernel idle_rule (EventLoop.Pollfd 5 1 1) (pipe_world 2 []) = (Throw (runtime_error
      "EventLoop: busy wait detected: callback did not read/write fd and is still interested"), w')).
Proof.
  apply (busy_wait_detected pipe_kernel idle_rule (EventLoop.Pollfd 5 1 1) (pipe_world 2 []) (pipe_world 2 []) 0 0);
    try reflexivity. discriminate.
Defined.

Lemma poll_error_swallowed_witness :
  EventLoop.wait_next_event pipe_kernel poll_einval 10 [idle_rule] (pipe_world 2 []) =
    (Ok EventLoop.Success, [idle_rule], pipe_world 2 []).
Proof.
  apply (poll_error_swallowed pipe_kernel poll_einval 10 EINVAL [idle_rule] [idle_rule]
    [EventLoop.Pollfd 5 1 0] (pipe_world 2 []) (pipe_world 2 []) (Pipe [] [] 0)); try reflexivity; discriminate.
Defined.
