(* ===== verification/Sockets.v ===== *)
(** * Sockets.v: sockets and TUN/TAP devices

    Models [libsponge/util/socket.hh], [libsponge/util/socket.cc], [libsponge/util/tun.hh] and
    [libsponge/util/tun.cc].  A socket is a handle of [FileDesc]; the socket calls are
    parameters beside the [Kernel] of [FileDesc].  When a constructor throws after its base was
    built, the base, and with it the handle, is destroyed. *)

From stdpp Require Import gmap.
From S2P Require Import Prelude Buffers Addresses FileDesc.

(** The fields of [struct ifreq] the code sets. *)
Record ifreq := { ifr_name : list byte; ifr_flags : Z }.

(** Each call gives its return value, [errno], what it stored and the new state. *)
Record SocketCalls (K : Type) := {
  sys_socket : K -> Z -> Z -> Z -> Z * Z * unit * K;
  sys_getsockopt : K -> Z -> Z -> Z -> Z -> Z * Z * (Z * Z) * K;
  sys_setsockopt : K -> Z -> Z -> Z -> Z -> Z * Z * unit * K;
  sys_getsockname : K -> Z -> Z -> Z * Z * (list byte * Z) * K;
  sys_getpeername : K -> Z -> Z -> Z * Z * (list byte * Z) * K;
  sys_bind : K -> Z -> list byte -> Z -> Z * Z * unit * K;
  sys_connect : K -> Z -> list byte -> Z -> Z * Z * unit * K;
  sys_shutdown : K -> Z -> Z -> Z * Z * unit * K;
  sys_listen : K -> Z -> Z -> Z * Z * unit * K;
  sys_accept : K -> Z -> Z * Z * unit * K;
  sys_recvfrom : K -> Z -> Z -> Z -> Z -> Z * Z * (list byte * (list byte * Z)) * K;
  sys_sendmsg : K -> Z -> option (list byte) -> Z -> list (list byte * Z) -> Z -> Z * Z * unit * K;
  sys_open : K -> string -> Z -> Z * Z * unit * K;
  sys_tunsetiff : K -> Z -> ifreq -> Z * Z * unit * K
}.
Arguments sys_socket {K}.
Arguments sys_getsockopt {K}.
Arguments sys_setsockopt {K}.
Arguments sys_getsockname {K}.
Arguments sys_getpeername {K}.
Arguments sys_bind {K}.
Arguments sys_connect {K}.
Arguments sys_shutdown {K}.
Arguments sys_listen {K}.
Arguments sys_accept {K}.
Arguments sys_recvfrom {K}.
Arguments sys_sendmsg {K}.
Arguments sys_open {K}.
Arguments sys_tunsetiff {K}.

(** Code whose exception destroys [h] on the way out. *)
Definition destroying {W A} (cleanup : io W unit) (m : io W A) : io W A :=
  catch m (fun e => _ ← cleanup; pure_ (Throw e)).

Section calls.

Context {K : Type} (sys : Kernel K) (net : SocketCalls K).

#[local] Abbreviation W := (FileDescriptor.world (K := K)).

(** [SystemCall(attempt, f(...))], with what [f] stored; the result is an [int]. *)
Definition system_call {X} (attempt : string) (f : K -> Z * Z * X * K) : io W (Z * X) := fun w =>
  let '(r, e, x, k) := f (FileDescriptor.kernel w) in
  match SystemCall attempt (s32 r) e 0 with
  | Ok r => (Ok (r, x), FileDescriptor.set_kernel k w)
  | Throw e => (Throw e, FileDescriptor.set_kernel k w)
  | Undefined => (Undefined, FileDescriptor.set_kernel k w)
  | OutOfFuel => (OutOfFuel, FileDescriptor.set_kernel k w)
  end.

End calls.

Module Socket.

Definition SOL_SOCKET : Z := 1.
Definition SO_REUSEADDR : Z := 2.
Definition SO_TYPE : Z := 3.
Definition SO_DOMAIN : Z := 39.
Definition SHUT_RD : Z := 0.
Definition SHUT_WR : Z := 1.
Definition SHUT_RDWR : Z := 2.
Definition MSG_TRUNC : Z := 32.
Definition SIZEOF_INT : Z := 4.
Definition AF_UNIX : Z := 1.
Definition SOCK_STREAM : Z := 1.
Definition SOCK_DGRAM : Z := 2.

Section socket.

Context {K : Type} (sys : Kernel K) (net : SocketCalls K).

#[local] Abbreviation W := (FileDescriptor.world (K := K)).

Definition make (domain type : Z) : io W Z :=
  '(fd, _) ← system_call "socket" (fun k => sys_socket net k domain type 0);
  FileDescriptor.make fd.

(** The checks of the constructor that takes a descriptor. *)
Definition verify (h domain type : Z) : io W unit :=
  fd ← FileDescriptor.fd_num h;
  '(_, (actual_value, len)) ← system_call "getsockopt" (fun k => sys_getsockopt net k fd SOL_SOCKET SO_DOMAIN SIZEOF_INT);
  if negb (len =? SIZEOF_INT) || negb (actual_value =? domain)
  then pure_ (Throw (runtime_error "socket domain mismatch"))
  else
    '(_, (actual_value, len)) ← system_call "getsockopt" (fun k => sys_getsockopt net k fd SOL_SOCKET SO_TYPE SIZEOF_INT);
    if negb (len =? SIZEOF_INT) || negb (actual_value =? type)
    then pure_ (Throw (runtime_error "socket type mismatch"))
    else mret tt.

Definition of_fd (h domain type : Z) : io W Z :=
  _ ← destroying (FileDescriptor.release sys h) (verify h domain type);
  mret h.

Definition get_address (name_of_function : string)
  (f : K -> Z -> Z -> Z * Z * (list byte * Z) * K) (h : Z) : io W Address.t :=
  fd ← FileDescriptor.fd_num h;
  '(_, (address, size)) ← system_call name_of_function (fun k => f k fd Address.STORAGE_SIZE);
  pure_ (Address.of_sockaddr address size).

Definition local_address (h : Z) : io W Address.t := get_address "getsockname" (sys_getsockname net) h.
Definition peer_address (h : Z) : io W Address.t := get_address "getpeername" (sys_getpeername net) h.

Definition bind (h : Z) (address : Address.t) : io W unit :=
  fd ← FileDescriptor.fd_num h;
  _ ← system_call "bind" (fun k => sys_bind net k fd (Address._address address) (Address._size address));
  mret tt.

Definition connect (h : Z) (address : Address.t) : io W unit :=
  fd ← FileDescriptor.fd_num h;
  _ ← system_call "connect" (fun k => sys_connect net k fd (Address._address address) (Address._size address));
  mret tt.

Definition shutdown (h how : Z) : io W unit :=
  fd ← FileDescriptor.fd_num h;
  _ ← system_call "shutdown" (fun k => sys_shutdown net k fd how);
  if how =? SHUT_RD then FileDescriptor.register_read h
  else if how =? SHUT_WR then FileDescriptor.register_write h
  else if how =? SHUT_RDWR then
    _ ← FileDescriptor.register_read h;
    FileDescriptor.register_write h
  else pure_ (Throw (runtime_error "Socket::shutdown() called with invalid `how`")).

Definition setsockopt (h level option option_value : Z) : io W unit :=
  fd ← FileDescriptor.fd_num h;
  _ ← system_call "setsockopt" (fun k => sys_setsockopt net k fd level option option_value);
  mret tt.

Definition set_reuseaddr (h : Z) : io W unit := setsockopt h SOL_SOCKET SO_REUSEADDR 1.

End socket.

End Socket.

Module UDPSocket.

Record received_datagram := { source_address : Address.t; payload : list byte }.

Section udp.

Context {K : Type} (sys : Kernel K) (net : SocketCalls K).

#[local] Abbreviation W := (FileDescriptor.world (K := K)).

Definition make : io W Z := Socket.make net Address.AF_INET Socket.SOCK_DGRAM.
Definition of_fd (h : Z) : io W Z := Socket.of_fd sys net h Address.AF_INET Socket.SOCK_DGRAM.

(** [recv(mtu)]; what [recvfrom] stored is at most [mtu] bytes, its result the length of the
    datagram. *)
Definition recv (h mtu : Z) : io W received_datagram :=
  fd ← FileDescriptor.fd_num h;
  '(recv_len, (data, (address, fromlen))) ←
    system_call "recvfrom" (fun k => sys_recvfrom net k fd mtu Socket.MSG_TRUNC Address.STORAGE_SIZE);
  if s64 mtu <? recv_len then pure_ (Throw (runtime_error "recvfrom (oversized datagram)"))
  else
    _ ← FileDescriptor.register_read h;
    source ← pure_ (Address.of_sockaddr address fromlen);
    if recv_len <? 0 then pure_ (Throw (length_error "basic_string::resize"))
    else mret {| source_address := source; payload := str_resize (str_resize (ztake mtu data) mtu) recv_len |}.

Definition sendmsg_helper (fd_num : Z) (destination_address : option (list byte)) (destination_address_len : Z)
  (payload : BufferViewList.t) : io W unit :=
  '(bytes_sent, _) ← system_call "sendmsg" (fun k =>
    sys_sendmsg net k fd_num destination_address destination_address_len (BufferViewList.as_iovecs payload) 0);
  if negb (u64 bytes_sent =? BufferViewList.size payload)
  then pure_ (Throw (runtime_error "datagram payload too big for sendmsg()"))
  else mret tt.

Definition sendto (h : Z) (destination : Address.t) (payload : BufferViewList.t) : io W unit :=
  fd ← FileDescriptor.fd_num h;
  _ ← sendmsg_helper fd (Some (Address._address destination)) (Address._size destination) payload;
  FileDescriptor.register_write h.

Definition send (h : Z) (payload : BufferViewList.t) : io W unit :=
  fd ← FileDescriptor.fd_num h;
  _ ← sendmsg_helper fd None 0 payload;
  FileDescriptor.register_write h.

End udp.

End UDPSocket.

Module TCPSocket.

Section tcp.

Context {K : Type} (sys : Kernel K) (net : SocketCalls K).

#[local] Abbreviation W := (FileDescriptor.world (K := K)).

Definition make : io W Z := Socket.make net Address.AF_INET Socket.SOCK_STREAM.
Definition of_fd (h : Z) : io W Z := Socket.of_fd sys net h Address.AF_INET Socket.SOCK_STREAM.

Definition listen (h backlog : Z) : io W unit :=
  fd ← FileDescriptor.fd_num h;
  _ ← system_call "listen" (fun k => sys_listen net k fd backlog);
  mret tt.

Definition accept (h : Z) : io W Z :=
  _ ← FileDescriptor.register_read h;
  fd ← FileDescriptor.fd_num h;
  '(n, _) ← system_call "accept" (fun k => sys_accept net k fd);
  h' ← FileDescriptor.make n;
  of_fd h'.

End tcp.

End TCPSocket.

Module LocalStreamSocket.

Definition of_fd {K} (sys : Kernel K) (net : SocketCalls K) (h : Z) : io FileDescriptor.world Z :=
  Socket.of_fd sys net h Socket.AF_UNIX Socket.SOCK_STREAM.

End LocalStreamSocket.

Module TunTapFD.

Definition CLONEDEV : string := "/dev/net/tun".
Definition O_RDWR : Z := 2.
Definition IFF_TUN : Z := 1.
Definition IFF_TAP : Z := 2.
Definition IFF_NO_PI : Z := 4096.
Definition IFNAMSIZ : Z := 16.

(** [strncpy(dst, src, n)]: up to the first null byte, padded with null bytes. *)
Fixpoint c_string (s : list byte) : list byte :=
  match s with
  | [] => []
  | b :: s => if bool_decide (b = Byte.x00) then [] else b :: c_string s
  end.

Definition strncpy (src : list byte) (n : Z) : list byte := str_resize (c_string src) n.

Definition request (devname : list byte) (is_tun : bool) : ifreq :=
  {| ifr_name := strncpy devname (IFNAMSIZ - 1) ++ [Byte.x00];
     ifr_flags := Z.lor (if is_tun then IFF_TUN else IFF_TAP) IFF_NO_PI |}.

Definition make {K} (sys : Kernel K) (net : SocketCalls K) (devname : list byte) (is_tun : bool)
  : io FileDescriptor.world Z :=
  '(n, _) ← system_call "open" (fun k => sys_open net k CLONEDEV O_RDWR);
  h ← FileDescriptor.make n;
  _ ← destroying (FileDescriptor.release sys h)
        (fd ← FileDescriptor.fd_num h;
         _ ← system_call "ioctl" (fun k => sys_tunsetiff net k fd (request devname is_tun));
         mret tt);
  mret h.

End TunTapFD.

(** ** What is documented of the socket calls

    [domain_of] and [type_of] are the kernel's record of a socket; [inbox] the datagrams that
    wait at it, each with its source address, its length and the payload. *)
Class PosixSockets {K} (net : SocketCalls K) (domain_of type_of : K -> Z -> Z)
  (inbox : K -> Z -> list (list byte * Z * list byte)) : Prop := {
  getsockopt_domain k fd :
    sys_getsockopt net k fd Socket.SOL_SOCKET Socket.SO_DOMAIN Socket.SIZEOF_INT =
      (0, 0, (domain_of k fd, Socket.SIZEOF_INT), k);
  getsockopt_type k fd :
    sys_getsockopt net k fd Socket.SOL_SOCKET Socket.SO_TYPE Socket.SIZEOF_INT =
      (0, 0, (type_of k fd, Socket.SIZEOF_INT), k);
  recvfrom_next k fd mtu src srclen payload rest : inbox k fd = (src, srclen, payload) :: rest ->
    exists k', sys_recvfrom net k fd mtu Socket.MSG_TRUNC Address.STORAGE_SIZE =
      (zlen payload, 0, (ztake mtu payload, (src, srclen)), k') /\ inbox k' fd = rest
}.

Section sockets.

Context {K : Type} (sys : Kernel K) (net : SocketCalls K).

Lemma system_call_ok {X} attempt (f : K -> Z * Z * X * K) w r x k :
  f (FileDescriptor.kernel w) = (r, 0, x, k) -> s32 r = r -> system_call attempt f w = (Ok (r, x), FileDescriptor.set_kernel k w).
Proof. intros Hf Hr. unfold system_call. rewrite Hf, Hr. unfold SystemCall. by rewrite orb_true_r. Qed.

Lemma fd_num_ok (w : FileDescriptor.world (K := K)) h x :
  points_to w h x -> FileDescriptor.fd_num h w = (Ok (FDWrapper._fd x), w).
Proof. intros Hx. unfold FileDescriptor.fd_num. by rewrite (io_bind_ok _ _ _ _ _ (internal_ok w h x Hx)). Qed.

Lemma points_to_kernel k (w : FileDescriptor.world (K := K)) h x :
  points_to w h x -> points_to (FileDescriptor.set_kernel k w) h x.
Proof. by intros [n Hn]; exists n. Qed.

Lemma set_kernel_id (w : FileDescriptor.world (K := K)) : FileDescriptor.set_kernel (FileDescriptor.kernel w) w = w.
Proof. by destruct w. Qed.

Lemma throw_destroys {A} cleanup (m : io (FileDescriptor.world (K := K)) A) w e w1 w2 :
  m w = (Throw e, w1) -> cleanup w1 = (Ok tt, w2) -> destroying cleanup m w = (Throw e, w2).
Proof. intros Hm Hc. unfold destroying, catch. rewrite Hm. by rewrite (io_bind_ok _ _ _ _ _ Hc). Qed.

End sockets.

(** ** Properties *)

(** Making a socket from a descriptor checks it: the result is the descriptor itself,
    untouched, exactly when the kernel's domain and type are those asked for; otherwise the
    constructor throws what is wrong and, when the caller's was the last handle, the descriptor
    has been closed. *)
Theorem socket_of_fd_correct {K} (sys : Kernel K) (net : SocketCalls K) domain_of type_of inbox
  (Hnet : PosixSockets net domain_of type_of inbox) (w : FileDescriptor.world) (h domain type : Z) (x : FDWrapper.t)
  (Hh : FileDescriptor.handles w !! h = Some (x, 1)) (Hopen : FDWrapper._closed x = false) :
  let k := FileDescriptor.kernel w in
  if (domain_of k (FDWrapper._fd x) =? domain) && (type_of k (FDWrapper._fd x) =? type)
  then Socket.of_fd sys net h domain type w = (Ok h, w)
  else exists w', Socket.of_fd sys net h domain type w =
      (Throw (runtime_error (if domain_of k (FDWrapper._fd x) =? domain then "socket type mismatch"
                             else "socket domain mismatch")), w') /\
    FileDescriptor.handles w' = delete h (FileDescriptor.handles w) /\
    FileDescriptor.kernel w' = snd (sys_close sys k (FDWrapper._fd x)).
Proof.
  assert (Hx : points_to w h x) by (by exists 1). cbv zeta.
  destruct (release_last sys h w x Hh) as (w' & Hw' & Hd & Hk). rewrite Hopen in Hk.
  assert (Hv : Socket.verify net h domain type w =
    (if domain_of (FileDescriptor.kernel w) (FDWrapper._fd x) =? domain then
       if type_of (FileDescriptor.kernel w) (FDWrapper._fd x) =? type then Ok tt
       else Throw (runtime_error "socket type mismatch")
     else Throw (runtime_error "socket domain mismatch"), w)).
  { unfold Socket.verify. rewrite (io_bind_ok _ _ _ _ _ (fd_num_ok w h x Hx)).
    erewrite io_bind_ok by (apply system_call_ok; [apply getsockopt_domain|done]). rewrite set_kernel_id. simpl.
    destruct (domain_of _ _ =? domain); [|done]. simpl.
    erewrite io_bind_ok by (apply system_call_ok; [apply getsockopt_type|done]). rewrite set_kernel_id. simpl.
    by destruct (type_of _ _ =? type). }
  unfold Socket.of_fd.
  destruct (domain_of _ _ =? domain); [destruct (type_of _ _ =? type)|]; simpl.
  - erewrite io_bind_ok; [reflexivity|]. unfold destroying, catch. by rewrite Hv.
  - exists w'. split; [|done]. unfold mbind, io_bind. by erewrite throw_destroys by done.
  - exists w'. split; [|done]. unfold mbind, io_bind. by erewrite throw_destroys by done.
Qed.

(** [UDPSocket::recv] takes the next datagram from the socket: if it fits [mtu] the result
    is its payload, whole, with its source address, and the read is counted; if it does not,
    the call throws, the datagram is lost and the read is not counted. *)
Theorem udp_recv_correct {K} (net : SocketCalls K) domain_of type_of inbox
  (Hnet : PosixSockets net domain_of type_of inbox) (w : FileDescriptor.world) (h mtu : Z) (x : FDWrapper.t)
  (src payload : list byte) (srclen : Z) rest
  (Hx : points_to w h x) (Hmtu : 0 <= mtu < two63) (Hlen : zlen payload < two31)
  (Hsrc : zlen src = Address.STORAGE_SIZE) (Hsrclen : 0 <= srclen <= Address.STORAGE_SIZE)
  (Hnext : inbox (FileDescriptor.kernel w) (FDWrapper._fd x) = (src, srclen, payload) :: rest) :
  exists o w', UDPSocket.recv net h mtu w = (o, w') /\
    inbox (FileDescriptor.kernel w') (FDWrapper._fd x) = rest /\
    if zlen payload <=? mtu then
      points_to w' h (FDWrapper.count_read x) /\
      o = Ok {| UDPSocket.source_address :=
                  Address.mk srclen (ztake srclen src ++
                    replicate (Z.to_nat (Address.STORAGE_SIZE - srclen)) Byte.x00);
                UDPSocket.payload := payload |}
    else points_to w' h x /\ o = Throw (runtime_error "recvfrom (oversized datagram)").
Proof.
  pose proof (zlen_nonneg payload).
  destruct (recvfrom_next _ _ mtu _ _ _ _ Hnext) as (k' & Hr & Hk').
  unfold UDPSocket.recv. rewrite (io_bind_ok _ _ _ _ _ (fd_num_ok w h x Hx)).
  erewrite io_bind_ok by (apply system_call_ok; [exact Hr|apply s32_id; lia]). rewrite s64_id by lia.
  apply (points_to_kernel k') in Hx. destruct (Z.leb_spec (zlen payload) mtu), (Z.ltb_spec mtu (zlen payload)); try lia.
  - destruct (update_ok _ _ _ FDWrapper.count_read Hx) as (w2 & Hw2 & Hk2 & Hx2).
    unfold FileDescriptor.register_read. rewrite (io_bind_ok _ _ _ _ _ Hw2). unfold Address.of_sockaddr.
    destruct (Z.ltb_spec Address.STORAGE_SIZE srclen), (Z.ltb_spec (zlen src) srclen); try lia.
    destruct (Z.ltb_spec (zlen payload) 0); [lia|]. eexists _, w2. split.
    { unfold mbind, io_bind, pure_. destruct (Z.ltb_spec (zlen payload) 0); [lia|]. reflexivity. }
    rewrite Hk2. split; [done|]. split; [done|]. rewrite (ztake_ge mtu) by (rewrite ?ztake_ge; lia).
    rewrite (ztake_ge mtu payload) by lia. do 2 f_equal. rewrite <- (str_resize_back payload mtu) at 3 by lia.
    by rewrite (ztake_ge mtu payload) by lia.
  - eexists _, _. split; [reflexivity|]. done.
Qed.

(** [Socket::shutdown] counts what it ends: once the system call succeeded, the read count
    goes up for [SHUT_RD] and [SHUT_RDWR], the write count for [SHUT_WR] and [SHUT_RDWR], so an
    event loop sees the descriptor as serviced; any other [how] throws. *)
Theorem shutdown_counts {K} (net : SocketCalls K) (w : FileDescriptor.world) (h how : Z) (x : FDWrapper.t) (k : K)
  (Hx : points_to w h x) (Hsys : sys_shutdown net (FileDescriptor.kernel w) (FDWrapper._fd x) how = (0, 0, tt, k)) :
  exists o w', Socket.shutdown net h how w = (o, w') /\ FileDescriptor.kernel w' = k /\
    points_to w' h
      (if (how =? Socket.SHUT_RD) then FDWrapper.count_read x
       else if (how =? Socket.SHUT_WR) then FDWrapper.count_write x
       else if (how =? Socket.SHUT_RDWR) then FDWrapper.count_write (FDWrapper.count_read x) else x) /\
    (o = Ok tt <-> how = Socket.SHUT_RD \/ how = Socket.SHUT_WR \/ how = Socket.SHUT_RDWR).
Proof.
  unfold Socket.shutdown. rewrite (io_bind_ok _ _ _ _ _ (fd_num_ok w h x Hx)).
  erewrite io_bind_ok by (apply system_call_ok; [exact Hsys|done]). apply (points_to_kernel k) in Hx.
  destruct (Z.eqb_spec how Socket.SHUT_RD) as [|H0].
  { destruct (update_ok _ _ _ FDWrapper.count_read Hx) as (w2 & Hw2 & Hk2 & Hx2). exists (Ok tt), w2. tauto. }
  destruct (Z.eqb_spec how Socket.SHUT_WR) as [|H1].
  { destruct (update_ok _ _ _ FDWrapper.count_write Hx) as (w2 & Hw2 & Hk2 & Hx2). exists (Ok tt), w2. tauto. }
  destruct (Z.eqb_spec how Socket.SHUT_RDWR) as [|H2].
  { destruct (update_ok _ _ _ FDWrapper.count_read Hx) as (w2 & Hw2 & Hk2 & Hx2).
    destruct (update_ok _ _ _ FDWrapper.count_write Hx2) as (w3 & Hw3 & Hk3 & Hx3). exists (Ok tt), w3.
    split; [by rewrite (io_bind_ok _ _ _ _ _ Hw2)|]. rewrite Hk3, Hk2. tauto. }
  eexists _, _. split; [reflexivity|]. split; [done|]. split; [done|]. split; [done|tauto].
Qed.

(** ** A kernel with one UDP socket *)

Record mailbox := Mailbox { mail : list (list byte * Z * list byte); mail_closes : Z }.

Definition mail_kernel : Kernel mailbox := {|
  sys_read k _ _ := (0, 0, [], k);
  sys_writev k _ _ := (0, 0, k);
  sys_close k _ := (0, 0, Mailbox (mail k) (mail_closes k + 1));
  sys_getfl k _ := (0, 0, k);
  sys_setfl k _ _ := (0, 0, k)
|}.

Definition EAGAIN : Z := 11.

(** The source of what it sends to itself: family 2, port 80, address 10.0.0.1. *)
Definition mail_address : list byte :=
  [Byte.x02; Byte.x00; Byte.x00; Byte.x50; Byte.x0a; Byte.x00; Byte.x00; Byte.x01] ++ replicate 120 Byte.x00.

Definition mail_net : SocketCalls mailbox := {|
  sys_socket k _ _ _ := (3, 0, tt, k);
  sys_getsockopt k _ _ opt _ :=
    (0, 0, (if opt =? Socket.SO_DOMAIN then Address.AF_INET else Socket.SOCK_DGRAM, Socket.SIZEOF_INT), k);
  sys_setsockopt k _ _ _ _ := (0, 0, tt, k);
  sys_getsockname k _ _ := (0, 0, (mail_address, 16), k);
  sys_getpeername k _ _ := (0, 0, (mail_address, 16), k);
  sys_bind k _ _ _ := (0, 0, tt, k);
  sys_connect k _ _ _ := (0, 0, tt, k);
  sys_shutdown k _ _ := (0, 0, tt, k);
  sys_listen k _ _ := (0, 0, tt, k);
  sys_accept k _ := (-1, EAGAIN, tt, k);
  sys_recvfrom k _ mtu _ _ :=
    match mail k with
    | [] => (-1, EAGAIN, ([], (mail_address, 0)), k)
    | (src, srclen, payload) :: rest =>
        (zlen payload, 0, (ztake mtu payload, (src, srclen)), Mailbox rest (mail_closes k))
    end;
  sys_sendmsg k _ _ _ iov _ :=
    (zlen (concat iov.*1), 0, tt, Mailbox (mail k ++ [(mail_address, 16, concat iov.*1)]) (mail_closes k));
  sys_open k _ _ := (3, 0, tt, k);
  sys_tunsetiff k _ _ := (0, 0, tt, k)
|}.

#[export] Instance mail_posix :
  PosixSockets mail_net (fun _ _ => Address.AF_INET) (fun _ _ => Socket.SOCK_DGRAM) (fun k _ => mail k).
Proof. split; try done. intros k fd mtu src srclen payload rest H. simpl. rewrite H. by eexists. Qed.

Definition mail_world (l : list (list byte * Z * list byte)) : FileDescriptor.world :=
  FileDescriptor.World (Mailbox l 0) {[ 0 := (FDWrapper.mk 3 false false 0 0, 1) ]}.

(** What is sent comes back. *)
Example udp_send_recv :
  (_ ← UDPSocket.sendto mail_net 0 (Address.mk 16 mail_address) [ten_bytes; ten_bytes];
   UDPSocket.recv mail_net 0 65536) (mail_world []) =
  (Ok {| UDPSocket.source_address := Address.mk 16 mail_address; UDPSocket.payload := ten_bytes ++ ten_bytes |},
   FileDescriptor.World (Mailbox [] 0) {[ 0 := (FDWrapper.mk 3 false false 1 1, 1) ]}).
Proof. vm_compute. reflexivity. Qed.

Lemma socket_of_fd_correct_witness :
  exists w', Socket.of_fd mail_kernel mail_net 0 Address.AF_INET Socket.SOCK_STREAM (mail_world []) =
      (Throw (runtime_error "socket type mismatch"), w') /\
    FileDescriptor.handles w' = delete 0 (FileDescriptor.handles (mail_world [])) /\
    FileDescriptor.kernel w' = Mailbox [] 1.
Proof.
  exact (socket_of_fd_correct mail_kernel mail_net _ _ _ mail_posix (mail_world []) 0 Address.AF_INET
    Socket.SOCK_STREAM (FDWrapper.mk 3 false false 0 0) eq_refl eq_refl).
Defined.

Lemma udp_recv_correct_witness :
  exists o w', UDPSocket.recv mail_net 0 9 (mail_world [(mail_address, 16, ten_bytes)]) = (o, w') /\
    mail (FileDescriptor.kernel w') = [] /\
    (points_to w' 0 (FDWrapper.mk 3 false false 0 0) /\ o = Throw (runtime_error "recvfrom (oversized datagram)")).
Proof.
  apply (udp_recv_correct mail_net _ _ _ mail_posix (mail_world [(mail_address, 16, ten_bytes)]) 0 9
    (FDWrapper.mk 3 false false 0 0) mail_address ten_bytes 16 []); try done; by exists 1.
Defined.

Lemma shutdown_counts_witness :
  exists o w', Socket.shutdown mail_net 0 Socket.SHUT_WR (mail_world []) = (o, w') /\
    FileDescriptor.kernel w' = Mailbox [] 0 /\ points_to w' 0 (FDWrapper.mk 3 false false 0 1) /\
    (o = Ok tt <-> 1 = Socket.SHUT_RD \/ 1 = Socket.SHUT_WR \/ 1 = Socket.SHUT_RDWR).
Proof.
  apply (shutdown_counts mail_net (mail_world []) 0 Socket.SHUT_WR (FDWrapper.mk 3 false false 0 0) (Mailbox [] 0));
    [by exists 1|reflexivity].
Defined.
