(* ===== verification/Handles.v ===== *)
(** * Handles.v: what code on descriptors leaves alone

    The facts that the programs built on the event loop share: which code keeps the
    descriptors behind the handles and their flags, which code returns or throws as long as a
    handle is there, and how many owners a handle has while copies of it are made and destroyed
    ([libsponge/util/file_descriptor.cc], [libsponge/util/socket.cc]). *)

From stdpp Require Import gmap list relations.
From S2P Require Import Prelude Buffers FileDesc EventLoop Sockets.

(** ** Order in a list whose positions are known *)

Lemma sublist_ranked {A} (rank : A -> Z) (l before after : list A) r :
  (forall j x, l !! j = Some x -> rank x = Z.of_nat j) -> before ++ r :: after `sublist_of` l ->
  (forall r', r' ∈ before -> rank r' < rank r) /\ (forall r', r' ∈ after -> rank r < rank r').
Proof.
  intros Hrank (k1 & k2 & Hk & H1 & H2)%sublist_app_l. apply sublist_cons_l in H2 as (k3 & k4 & -> & H4).
  assert (Hr : rank r = Z.of_nat (length (k1 ++ k3))) by (apply Hrank; rewrite Hk, app_assoc; by apply list_lookup_middle).
  split; intros r' Hr'.
  - apply (elem_of_sublist _ _ _ Hr') in H1. apply list_elem_of_lookup_1 in H1 as [j Hj].
    rewrite Hr, (Hrank j r'), length_app; [apply lookup_lt_Some in Hj; lia|].
    rewrite Hk, lookup_app_l; [done|by eapply lookup_lt_Some].
  - apply (elem_of_sublist _ _ _ Hr') in H4. apply list_elem_of_lookup_1 in H4 as [j Hj].
    rewrite Hr, (Hrank (length (k1 ++ k3) + S j)%nat r'); [lia|].
    rewrite Hk, app_assoc, lookup_app_r by lia. by replace (_ + S j - _)%nat with (S j) by lia.
Qed.

(** ** What the calls on descriptors leave alone *)

Section calls.

Context {K : Type} (sys : Kernel K) (net : SocketCalls K).

#[local] Abbreviation W := (FileDescriptor.world (K := K)).

(** The descriptor and the number of owners of every handle. *)
Definition fds (w : W) : gmap Z (Z * Z) := (fun '(x, n) => (FDWrapper._fd x, n)) <$> FileDescriptor.handles w.

Lemma fds_lookup w h fd n : fds w !! h = Some (fd, n) ->
  exists x, FileDescriptor.handles w !! h = Some (x, n) /\ FDWrapper._fd x = fd.
Proof.
  unfold fds. rewrite lookup_fmap. destruct (FileDescriptor.handles w !! h) as [[x m]|]; [|done].
  intros [= <- <-]. by exists x.
Qed.

(** Code whose steps all stay within a preorder on worlds. *)
Definition respects (Rel : relation W) {A} (m : io W A) : Prop := forall w, Rel w (m w).2.

Lemma respects_bind Rel `{!PreOrder Rel} {A B} (m : io W A) (k : A -> io W B) :
  respects Rel m -> (forall a, respects Rel (k a)) -> respects Rel (m ≫= k).
Proof.
  intros Hm Hk w. unfold mbind, io_bind. specialize (Hm w). destruct (m w) as [[a| | |] w1]; simpl in *; try done.
  etrans; [done|apply Hk].
Qed.

Lemma respects_pure Rel `{!PreOrder Rel} {A} (o : outcome A) : respects Rel (pure_ o).
Proof. by intros w. Qed.

Lemma respects_internal Rel `{!PreOrder Rel} h : respects Rel (FileDescriptor.internal h).
Proof. intros w. unfold FileDescriptor.internal. by destruct (FileDescriptor.handles w !! h) as [[? ?]|]. Qed.

(** The descriptors stay as they are. *)
Definition same_fds : relation W := fun w w' => fds w' = fds w.

#[export] Instance same_fds_preorder : PreOrder same_fds.
Proof. split; [done|]. intros w1 w2 w3. unfold same_fds. congruence. Qed.

Lemma update_fds h f w : (forall x, FDWrapper._fd (f x) = FDWrapper._fd x) ->
  fds (FileDescriptor.update h f w).2 = fds w.
Proof.
  intros Hf. unfold fds. simpl. apply map_eq. intros j. rewrite !lookup_fmap.
  destruct (decide (j = h)) as [->|Hj]; [rewrite lookup_alter_eq|by rewrite lookup_alter_ne].
  destruct (FileDescriptor.handles w !! h) as [[x n]|]; simpl; [by rewrite Hf|done].
Qed.

(** The flags of a handle; what an operation that closes nothing does to them. *)
Definition closed_of (w : W) (h : Z) : bool :=
  match FileDescriptor.handles w !! h with Some (x, _) => FDWrapper._closed x | None => false end.
Definition eof_of (w : W) (h : Z) : bool :=
  match FileDescriptor.handles w !! h with Some (x, _) => FDWrapper._eof x | None => false end.

Definition same_ends : relation W := fun w w' => forall h,
  closed_of w' h = closed_of w h /\ (eof_of w h = true -> eof_of w' h = true).

#[export] Instance same_ends_preorder : PreOrder same_ends.
Proof.
  split; [done|]. intros w1 w2 w3 H1 H2 h. destruct (H1 h), (H2 h). split; [congruence|auto].
Qed.

Lemma update_ends h f : (forall x, FDWrapper._closed (f x) = FDWrapper._closed x) ->
  (forall x, FDWrapper._eof x = true -> FDWrapper._eof (f x) = true) ->
  respects same_ends (FileDescriptor.update h f).
Proof.
  intros Hc He w j. unfold closed_of, eof_of. simpl.
  destruct (decide (j = h)) as [->|Hj]; [rewrite lookup_alter_eq|by rewrite lookup_alter_ne].
  destruct (FileDescriptor.handles w !! h) as [[x n]|]; simpl; auto.
Qed.

Lemma closed_of_true h w : FileDescriptor.closed h w = (Ok true, w) -> closed_of w h = true.
Proof.
  unfold FileDescriptor.closed, FileDescriptor.internal, mbind, io_bind, closed_of.
  destruct (FileDescriptor.handles w !! h) as [[x n]|]; [|done]. simpl. by intros [= ->].
Qed.

Lemma eof_of_false h w : FileDescriptor.eof h w = (Ok false, w) -> eof_of w h = false.
Proof.
  unfold FileDescriptor.eof, FileDescriptor.internal, mbind, io_bind, eof_of.
  destruct (FileDescriptor.handles w !! h) as [[x n]|]; [|done]. simpl. by intros [= ->].
Qed.

(** Code that returns or throws as long as the handle [h] points somewhere. *)
Definition answers (h : Z) {A} (m : io W A) : Prop :=
  forall w, is_Some (fds w !! h) -> match m w with (Ok _, _) | (Throw _, _) => True | _ => False end.

Lemma answers_bind h {A B} (m : io W A) (k : A -> io W B) :
  answers h m -> respects same_fds m -> (forall a, answers h (k a)) -> answers h (m ≫= k).
Proof.
  intros Hm Hs Hk w Hw. unfold mbind, io_bind. specialize (Hm w Hw). specialize (Hs w).
  destruct (m w) as [[a| | |] w1]; simpl in *; try done. apply Hk. by rewrite Hs.
Qed.

Lemma answers_internal h : answers h (FileDescriptor.internal h).
Proof.
  intros w. unfold fds, FileDescriptor.internal. rewrite lookup_fmap.
  destruct (FileDescriptor.handles w !! h) as [[? ?]|]; [done|]. intros [? ?]. done.
Qed.

Lemma answers_SystemCall h s r e m : answers h (pure_ (SystemCall s r e m)).
Proof. intros w _. unfold pure_, SystemCall. by destruct (_ || _). Qed.

End calls.

(** Goes through the steps of such code. *)
Ltac respect_step :=
  first
    [ assumption
    | apply respects_bind; [typeclasses eauto| |intros ?]
    | apply respects_pure; typeclasses eauto
    | apply respects_internal; typeclasses eauto
    | match goal with |- respects _ (let '(_, _) := ?p in _) => destruct p end
    | match goal with |- respects _ (if ?b then _ else _) => destruct b end ].
Ltac respecting := repeat respect_step.

Section descriptor_calls.

Context {K : Type} (sys : Kernel K) (net : SocketCalls K).

#[local] Abbreviation W := (FileDescriptor.world (K := K)).

Lemma update_respects h f : (forall x, FDWrapper._fd (f x) = FDWrapper._fd x) ->
  respects (K := K) same_fds (FileDescriptor.update h f).
Proof. intros Hf w. by apply update_fds. Qed.

Lemma system_call_respects {X} s (f : K -> Z * Z * X * K) : respects same_fds (system_call s f).
Proof. intros w. unfold system_call. destruct (f _) as [[[r e] x] k]. by destruct (SystemCall s (s32 r) e 0). Qed.

Ltac call := intros w; simpl; repeat case_match; by simplify_eq/=.
Ltac keeps_flags := by apply update_ends; intros [].

Lemma read_respects h limit : respects same_fds (FileDescriptor.read sys h limit).
Proof. unfold FileDescriptor.read. respecting; try (by apply update_respects); call. Qed.

Lemma write_respects h buffer all : respects same_fds (FileDescriptor.write sys h buffer all).
Proof.
  unfold FileDescriptor.write. generalize (S (length (all_bytes buffer))) as fuel. intros fuel.
  generalize 0 at 1 as total. revert buffer. induction fuel as [|fuel IH]; intros buffer total; cbn [FileDescriptor.write_loop]; [done|].
  respecting; try (by apply update_respects); try apply IH; call.
Qed.

Lemma read_ends h limit : respects same_ends (FileDescriptor.read sys h limit).
Proof. unfold FileDescriptor.read. respecting; try keeps_flags; call. Qed.

Lemma write_ends h buffer all : respects same_ends (FileDescriptor.write sys h buffer all).
Proof.
  unfold FileDescriptor.write. generalize (S (length (all_bytes buffer))) as fuel. intros fuel.
  generalize 0 at 1 as total. revert buffer. induction fuel as [|fuel IH]; intros buffer total; cbn [FileDescriptor.write_loop]; [done|].
  respecting; try keeps_flags; try apply IH; call.
Qed.

Lemma set_blocking_ends h b : respects same_ends (FileDescriptor.set_blocking sys h b).
Proof. unfold FileDescriptor.set_blocking. respecting; try keeps_flags; call. Qed.

Lemma system_call_ends {X} s (f : K -> Z * Z * X * K) : respects same_ends (system_call s f).
Proof. intros w. unfold system_call. destruct (f _) as [[[r e] x] k]. by destruct (SystemCall s (s32 r) e 0). Qed.

Lemma shutdown_ends h how : respects same_ends (Socket.shutdown net h how).
Proof. unfold Socket.shutdown, FileDescriptor.fd_num. respecting; try keeps_flags; try apply system_call_ends; call. Qed.

(** What ending the output of the handle [h] does to the flags: it may close this handle, when
    it returns. *)
Definition finishes (h : Z) (m : io W unit) : Prop := forall w,
  match m w with
  | (Ok _, w') => forall j, (j <> h -> closed_of w' j = closed_of w j) /\ (eof_of w j = true -> eof_of w' j = true)
  | (_, w') => same_ends w w'
  end.

Lemma shutdown_finishes h how : finishes h (Socket.shutdown net h how).
Proof.
  intros w. pose proof (shutdown_ends h how w) as H. destruct (Socket.shutdown net h how w) as [[] w']; try done.
  intros j. by destruct (H j).
Qed.

Lemma close_finishes h : finishes h (FileDescriptor.close sys h).
Proof.
  intros w. unfold FileDescriptor.close, mbind, io_bind, FileDescriptor.internal.
  destruct (FileDescriptor.handles w !! h) as [[x n]|] eqn:E; [|done].
  destruct (sys_close sys _ _) as [[r e] k]. unfold pure_. destruct (SystemCall "close" r e 0); try done.
  intros j. unfold closed_of, eof_of. simpl. destruct (decide (j = h)) as [->|Hj].
  - rewrite lookup_alter_eq, E. simpl. done.
  - by rewrite lookup_alter_ne.
Qed.

End descriptor_calls.


(** ** Code that returns or throws *)

Ltac answering :=
  repeat first
    [ apply answers_bind; [| |intros ?]
    | apply answers_internal | apply answers_SystemCall
    | apply respects_internal; typeclasses eauto | apply respects_pure; typeclasses eauto
    | apply system_call_respects
    | by apply update_respects
    | match goal with |- answers _ (let '(_, _) := ?p in _) => destruct p end
    | match goal with |- answers _ (if ?b then _ else _) => destruct b end
    | done
    | intros w; simpl; repeat case_match; by simplify_eq/= ].

Section answering.

Context {K : Type} (sys : Kernel K) (net : SocketCalls K).

#[local] Abbreviation W := (FileDescriptor.world (K := K)).

Lemma close_answers h : answers h (FileDescriptor.close sys h).
Proof. unfold FileDescriptor.close. answering. Qed.

Lemma set_blocking_answers h b : answers h (FileDescriptor.set_blocking sys h b).
Proof. unfold FileDescriptor.set_blocking. answering. Qed.

Lemma shutdown_answers h how : answers h (Socket.shutdown net h how).
Proof.
  unfold Socket.shutdown, FileDescriptor.fd_num. answering; [by respecting|].
  intros w _. unfold system_call. destruct (sys_shutdown net _ _ _) as [[[r e] x] k].
  unfold SystemCall. by destruct (_ || _).
Qed.

Lemma sendto_same_fds h a b : respects same_fds (UDPSocket.sendto net h a b).
Proof.
  unfold UDPSocket.sendto, UDPSocket.sendmsg_helper, FileDescriptor.fd_num.
  respecting; try (by apply update_respects); apply system_call_respects || by intros w.
Qed.

Lemma sendto_answers h a b : answers h (UDPSocket.sendto net h a b).
Proof.
  unfold UDPSocket.sendto, FileDescriptor.fd_num. answering; [by respecting|..].
  - intros w _. unfold UDPSocket.sendmsg_helper, mbind, io_bind, system_call.
    destruct (sys_sendmsg net _ _ _ _ _ _) as [[[r e] x] k]. unfold SystemCall. destruct (_ || _); [|done].
    by simpl; repeat case_match.
  - unfold UDPSocket.sendmsg_helper. respecting. apply system_call_respects.
Qed.

Lemma read_answers h limit : answers h (FileDescriptor.read sys h limit).
Proof. unfold FileDescriptor.read. answering; respecting; try (by apply update_respects); by intros w. Qed.

Lemma write_answers {sent} `{!PosixKernel sys sent} h b all : answers h (FileDescriptor.write sys h b all).
Proof.
  intros w Hw. pose proof (write_loop_total sys sent h all (S (length (all_bytes b))) b 0 w) as H.
  unfold FileDescriptor.write. destruct (FileDescriptor.write_loop _ _ _ _ _ _ w) as [o w']. destruct o; try done; apply H; try lia.
  all: unfold fds in Hw; rewrite lookup_fmap in Hw; destruct Hw as [y Hy]; apply fmap_Some in Hy as (z & Hz & _); by exists z.
Qed.

End answering.

(** ** Owners of the handles

    [F0] gives the descriptor of each handle and its owners outside the code at hand; [hs] are
    the handles the code owns, one entry for each of its owners. *)
Section owners.

Context {K : Type} (sys : Kernel K).

#[local] Abbreviation W := (FileDescriptor.world (K := K)).

Context (F0 : gmap Z (Z * Z)) (HF0 : map_Forall (fun _ x => 0 <= x.2) F0).

(** The kernel is as before, or a descriptor was closed. *)
Definition may_close (k k' : K) : Prop := k' = k \/ exists fd, k' = (sys_close sys k fd).2.

Definition owners (j : Z) (hs : list Z) : Z := zlen (filter (fun h => h = j) hs).

Definition owned (hs : list Z) (w : W) : Prop :=
  Forall (fun h => is_Some (F0 !! h)) hs /\
  forall j, fds w !! j = '(fd, n) ← F0 !! j; if n + owners j hs =? 0 then None else Some (fd, n + owners j hs).

#[export] Instance owners_proper j : Proper ((≡ₚ) ==> (=)) (owners j).
Proof. intros hs hs' Hp. unfold owners. by rewrite Hp. Qed.

#[export] Instance owned_proper : Proper ((≡ₚ) ==> (=) ==> iff) owned.
Proof.
  intros hs hs' Hp w w' <-. unfold owned.
  assert (Ho : forall j, owners j hs = owners j hs') by (intros j; by rewrite Hp).
  rewrite Hp. split; intros [H1 H2]; (split; [done|]); intros j; by rewrite H2, Ho.
Qed.

Lemma owners_cons j h hs : owners j (h :: hs) = owners j hs + if decide (h = j) then 1 else 0.
Proof.
  unfold owners. destruct (decide (h = j)); [rewrite filter_cons_True by done|rewrite filter_cons_False by done]; simpl; lia.
Qed.

Lemma owners_nonneg j hs : 0 <= owners j hs.
Proof. unfold owners. lia. Qed.

Lemma owned_lookup h hs w : owned (h :: hs) w ->
  exists fd n, F0 !! h = Some (fd, n) /\ 0 <= n /\ fds w !! h = Some (fd, n + owners h hs + 1).
Proof.
  intros [Hall H]. apply Forall_cons in Hall as [[[fd n] Hh] _]. specialize (H h).
  pose proof (HF0 _ _ Hh) as Hn. simpl in Hn. pose proof (owners_nonneg h hs).
  exists fd, n. split; [done|]. split; [done|]. rewrite H, Hh. cbn [mbind option_bind].
  rewrite owners_cons, decide_True by done. destruct (Z.eqb_spec (n + (owners h hs + 1)) 0); [lia|]. do 2 f_equal. lia.
Qed.

(** Destroying one owner; the last one closes the descriptor. *)
Lemma release_fds h fd n w : fds w !! h = Some (fd, n) -> 1 <= n ->
  exists w', FileDescriptor.release sys h w = (Ok tt, w') /\
    may_close (FileDescriptor.kernel w) (FileDescriptor.kernel w') /\
    fds w' = (if 1 <? n then <[h := (fd, n - 1)]> (fds w) else delete h (fds w)) /\
    forall j, is_Some (fds w' !! j) -> closed_of w' j = closed_of w j /\ eof_of w' j = eof_of w j.
Proof.
  intros Hh Hn. destruct (fds_lookup _ _ _ _ Hh) as (x & Hx & Hfd). destruct (Z.ltb_spec 1 n).
  - eexists. split; [apply (handle_step_shared sys h Destroyed w x n (n - 1) Hx); simpl; destruct (Z.ltb_spec 1 n); [done|lia]|].
    split; [by left|]. split; [unfold fds; simpl; rewrite fmap_insert; by rewrite Hfd|].
    intros j _. unfold closed_of, eof_of. simpl. destruct (decide (j = h)) as [->|]; [by rewrite lookup_insert_eq, Hx|].
    by rewrite lookup_insert_ne.
  - assert (n = 1) as -> by lia. destruct (release_last sys h w x Hx) as (w' & Hr & Hd & Hk). exists w'. split; [done|].
    split; [rewrite Hk; destruct (FDWrapper._closed x); [by left|right; by eexists]|].
    split; [unfold fds; rewrite Hd; apply fmap_delete|]. intros j Hj. unfold fds in Hj. unfold closed_of, eof_of.
    rewrite Hd in *. destruct (decide (j = h)) as [->|]; [|by rewrite lookup_delete_ne].
    rewrite lookup_fmap, lookup_delete_eq in Hj. by destruct Hj.
Qed.

Lemma owned_release h hs w : owned (h :: hs) w ->
  exists w', FileDescriptor.release sys h w = (Ok tt, w') /\ owned hs w' /\
    may_close (FileDescriptor.kernel w) (FileDescriptor.kernel w') /\
    forall j, is_Some (fds w' !! j) -> closed_of w' j = closed_of w j /\ eof_of w' j = eof_of w j.
Proof.
  intros Ho. pose proof Ho as [Hall Hj]. destruct (owned_lookup _ _ _ Ho) as (fd & n & HF & Hn & Hh).
  pose proof (owners_nonneg h hs).
  destruct (release_fds _ _ _ _ Hh) as (w' & Hr & Hq & Hf & Hfl); [lia|]. exists w'. split; [done|]. split; [|done].
  apply Forall_cons in Hall as [_ Hall]. split; [done|]. intros j. rewrite Hf. destruct (decide (h = j)) as [<-|Hne].
  - rewrite HF. cbn [mbind option_bind]. destruct (Z.ltb_spec 1 (n + owners h hs + 1)).
    + rewrite lookup_insert_eq. destruct (Z.eqb_spec (n + owners h hs) 0); [lia|]. do 2 f_equal. lia.
    + rewrite lookup_delete_eq. destruct (Z.eqb_spec (n + owners h hs) 0); [done|lia].
  - specialize (Hj j). rewrite owners_cons, decide_False, Z.add_0_r in Hj by done.
    by destruct (1 <? _); [rewrite lookup_insert_ne|rewrite lookup_delete_ne].
Qed.

Lemma owned_duplicate h hs w : owned hs w -> is_Some (fds w !! h) ->
  exists w', FileDescriptor.duplicate h w = (Ok h, w') /\ owned (h :: hs) w' /\
    FileDescriptor.kernel w' = FileDescriptor.kernel w /\ same_ends w w'.
Proof.
  intros [Hall Hj] [[fd c] Hh]. pose proof (owners_nonneg h hs). destruct (fds_lookup _ _ _ _ Hh) as (x & Hx & Hfd).
  rewrite Hj in Hh. destruct (F0 !! h) as [[fd' n]|] eqn:HF; [|done]. cbn [mbind option_bind] in Hh.
  pose proof (HF0 _ _ HF) as Hn. simpl in Hn. destruct (Z.eqb_spec (n + owners h hs) 0); [done|]. injection Hh as -> <-.
  exists (FileDescriptor.set_handles (alter (fun '(x, n) => (x, n + 1)) h (FileDescriptor.handles w)) w).
  split; [|split; [|split; [done|]]].
  3:{ intros j. unfold closed_of, eof_of. simpl. rewrite (alter_lookup_insert _ _ _ _ Hx).
      destruct (decide (j = h)) as [->|]; [by rewrite lookup_insert_eq, Hx|by rewrite lookup_insert_ne]. }
  { unfold FileDescriptor.duplicate.
    rewrite (io_bind_ok _ _ w x w) by (unfold FileDescriptor.internal; by rewrite Hx). reflexivity. }
  split; [by constructor|]. intros j. unfold fds. simpl. rewrite (alter_lookup_insert _ _ _ _ Hx), lookup_fmap.
  rewrite owners_cons. destruct (decide (h = j)) as [<-|Hne].
  - rewrite lookup_insert_eq, HF. simpl. destruct (Z.eqb_spec (n + (owners h hs + 1)) 0); [lia|].
    rewrite Hfd. do 2 f_equal. lia.
  - rewrite lookup_insert_ne, Z.add_0_r by done. rewrite <- Hj. unfold fds. by rewrite lookup_fmap.
Qed.

End owners.

(** ** What a program relies on from the machine

    [got k fd] is what has been read from the descriptor so far, [sent k fd] what has been
    written to it; datagrams do not count.  Only reads and writes change them, and no call touches the program's own
    variables, which [self] and [set_self] read and write. *)
Definition quiet {K T} (self : K -> T) (sent got : K -> Z -> list byte) (k k' : K) : Prop :=
  self k' = self k /\ (forall fd, sent k' fd = sent k fd) /\ (forall fd, got k' fd = got k fd).

Class LoggedKernel {K T} (sys : Kernel K) (net : SocketCalls K)
  (sys_poll : K -> list EventLoop.pollfd -> Z -> Z * Z * list EventLoop.pollfd * K)
  (self : K -> T) (set_self : T -> K -> K) (sent got : K -> Z -> list byte) : Prop := {
  logged_set s k : self (set_self s k) = s;
  logged_sent s k fd : sent (set_self s k) fd = sent k fd;
  logged_got s k fd : got (set_self s k) fd = got k fd;
  logged_read k fd n r e data k' : sys_read sys k fd n = (r, e, data, k') ->
    self k' = self k /\ (forall fd', sent k' fd' = sent k fd') /\
    (forall fd', got k' fd' = got k fd' ++ if decide (fd' = fd /\ 0 <= r) then data else []);
  logged_writev k fd iov r e k' : sys_writev sys k fd iov = (r, e, k') ->
    self k' = self k /\ (forall fd', fd' <> fd -> sent k' fd' = sent k fd') /\ (forall fd', got k' fd' = got k fd');
  logged_close k fd : quiet self sent got k (sys_close sys k fd).2;
  logged_getfl k fd : quiet self sent got k (sys_getfl sys k fd).2;
  logged_setfl k fd v : quiet self sent got k (sys_setfl sys k fd v).2;
  logged_shutdown k fd how : quiet self sent got k (sys_shutdown net k fd how).2;
  logged_poll k ps t : quiet self sent got k (sys_poll k ps t).2;
  logged_socket k d t p : quiet self sent got k (sys_socket net k d t p).2;
  logged_getsockopt k fd l o n : quiet self sent got k (sys_getsockopt net k fd l o n).2;
  logged_setsockopt k fd l o v : quiet self sent got k (sys_setsockopt net k fd l o v).2;
  logged_bind k fd a n : quiet self sent got k (sys_bind net k fd a n).2;
  logged_connect k fd a n : quiet self sent got k (sys_connect net k fd a n).2;
  logged_listen k fd n : quiet self sent got k (sys_listen net k fd n).2;
  logged_accept k fd : quiet self sent got k (sys_accept net k fd).2;
  logged_recvfrom k fd n fl len : quiet self sent got k (sys_recvfrom net k fd n fl len).2;
  logged_sendmsg k fd a n iov fl : quiet self sent got k (sys_sendmsg net k fd a n iov fl).2
}.

Section logs.

Context {K T : Type} {sys : Kernel K} {net : SocketCalls K}
  {sys_poll : K -> list EventLoop.pollfd -> Z -> Z * Z * list EventLoop.pollfd * K}
  {self : K -> T} {set_self : T -> K -> K} {sent got : K -> Z -> list byte}
  `{!LoggedKernel sys net sys_poll self set_self sent got}.

#[local] Abbreviation W := (FileDescriptor.world (K := K)).

#[export] Instance quiet_preorder : PreOrder (quiet self sent got).
Proof.
  split; [done|]. intros k1 k2 k3 (A1 & A2 & A3) (B1 & B2 & B3). split; [congruence|].
  split; intros fd; [by rewrite B2|by rewrite B3].
Qed.

(** Nothing is read or written, and the variables and the descriptors stay as they are. *)
Definition calm (self : K -> T) (sent got : K -> Z -> list byte) : relation W := fun w w' =>
  fds w' = fds w /\ quiet self sent got (FileDescriptor.kernel w) (FileDescriptor.kernel w').

#[export] Instance calm_preorder : PreOrder (calm self sent got).
Proof. split; [done|]. intros w1 w2 w3 [Hf1 Hq1] [Hf2 Hq2]. split; [congruence|by etrans]. Qed.

Lemma calm_kernel w k : quiet self sent got (FileDescriptor.kernel w) k -> calm self sent got w (FileDescriptor.set_kernel k w).
Proof. done. Qed.

Lemma update_calm h f : (forall x, FDWrapper._fd (f x) = FDWrapper._fd x) ->
  respects (calm self sent got) (FileDescriptor.update h f).
Proof. intros Hf w. split; [by apply update_fds|done]. Qed.

Lemma system_call_calm {X} s (f : K -> Z * Z * X * K) :
  (forall k, quiet self sent got k (f k).2) -> respects (calm self sent got) (system_call s f).
Proof.
  intros Hf w. unfold system_call. specialize (Hf (FileDescriptor.kernel w)). destruct (f _) as [[[r e] x] k].
  by destruct (SystemCall s (s32 r) e 0).
Qed.

(** A call with a return value and [errno]. *)
Lemma plain_call_calm (f : K -> Z * Z * K) : (forall k, quiet self sent got k (f k).2) ->
  respects (calm self sent got)
    (fun w => let '(r, e, k) := f (FileDescriptor.kernel w) in (Ok (r, e), FileDescriptor.set_kernel k w)).
Proof. intros Hf w. specialize (Hf (FileDescriptor.kernel w)). by destruct (f _) as [[r e] k]. Qed.

Lemma close_calm h : respects (calm self sent got) (FileDescriptor.close sys h).
Proof.
  unfold FileDescriptor.close. respecting; [|by apply update_calm].
  apply (plain_call_calm (fun k => sys_close sys k _)). intros k. by apply logged_close.
Qed.

Lemma set_blocking_calm h b : respects (calm self sent got) (FileDescriptor.set_blocking sys h b).
Proof.
  unfold FileDescriptor.set_blocking. respecting; try (by intros w).
  - apply (plain_call_calm (fun k => sys_getfl sys k _)). intros k. by apply logged_getfl.
  - apply (plain_call_calm (fun k => sys_setfl sys k _ _)). intros k. by apply logged_setfl.
Qed.

Lemma shutdown_calm h how : respects (calm self sent got) (Socket.shutdown net h how).
Proof.
  unfold Socket.shutdown, FileDescriptor.fd_num. respecting; try (by apply update_calm); try (by intros w).
  apply system_call_calm. intros k. by apply logged_shutdown.
Qed.

Lemma calm_same_fds {A} (m : io W A) : respects (calm self sent got) m -> respects same_fds m.
Proof. intros Hm w. by destruct (Hm w). Qed.

Lemma calm_owned F0 hs w w' : calm self sent got w w' -> owned F0 hs w -> owned F0 hs w'.
Proof. intros (Hf & _) [H1 H2]. split; [done|]. intros j. by rewrite Hf. Qed.

(** Closing a descriptor is quiet. *)
Lemma may_close_quiet k k' : rtc (may_close sys) k k' -> quiet self sent got k k'.
Proof.
  induction 1 as [|k1 k2 k3 H _ IH]; [done|]. etrans; [|exact IH]. destruct H as [->|[fd ->]]; [done|apply logged_close].
Qed.

Lemma logged_release F0 (HF0 : map_Forall (fun _ x => 0 <= x.2) F0) h hs w : owned F0 (h :: hs) w ->
  exists w', FileDescriptor.release sys h w = (Ok tt, w') /\ owned F0 hs w' /\
    quiet self sent got (FileDescriptor.kernel w) (FileDescriptor.kernel w') /\
    forall j, is_Some (fds w' !! j) -> closed_of w' j = closed_of w j /\ eof_of w' j = eof_of w j.
Proof.
  intros (w' & H1 & H2 & H3 & H4)%(owned_release sys F0 HF0). exists w'. split; [done|]. split; [done|].
  split; [by apply may_close_quiet, rtc_once|done].
Qed.

End logs.

(** Two parts of the memory that are changed separately. *)
Lemma quiet_pair {K T X} (self : K -> T) (other : K -> X) sent got k k' :
  quiet self sent got k k' -> quiet other sent got k k' -> quiet (fun k => (self k, other k)) sent got k k'.
Proof. intros (A & S & G) (B & _ & _). split; [by f_equal|done]. Qed.

Lemma pair_logged {K T X} (sys : Kernel K) (net : SocketCalls K) sys_poll (self : K -> T) set_self (other : K -> X) set_other sent got :
  LoggedKernel sys net sys_poll self set_self sent got -> LoggedKernel sys net sys_poll other set_other sent got ->
  (forall s k, other (set_self s k) = other k) ->
  LoggedKernel sys net sys_poll (fun k => (self k, other k)) (fun '(s, o) k => set_self s (set_other o k)) sent got.
Proof.
  intros [] [] Hsep. split; try (intros; apply quiet_pair; auto; fail).
  - intros [s o] k. f_equal; [done|]. by rewrite Hsep.
  - intros [s o] k fd. congruence.
  - intros [s o] k fd. congruence.
  - intros k fd n r e data k' H. destruct (logged_read0 _ _ _ _ _ _ _ H) as (A & S & G), (logged_read1 _ _ _ _ _ _ _ H) as (B & _).
    split; [by f_equal|done].
  - intros k fd iov r e k' H. destruct (logged_writev0 _ _ _ _ _ _ H) as (A & S & G), (logged_writev1 _ _ _ _ _ _ H) as (B & _).
    split; [by f_equal|done].
Qed.

(** Nothing but the logs is looked at. *)
Lemma quiet_unit {K T} (self : K -> T) sent got k k' : quiet self sent got k k' -> quiet (fun _ : K => tt) sent got k k'.
Proof. intros (_ & S & G). done. Qed.

Lemma unit_logged {K T} (sys : Kernel K) (net : SocketCalls K) sys_poll (self : K -> T) set_self sent got :
  LoggedKernel sys net sys_poll self set_self sent got ->
  LoggedKernel sys net sys_poll (fun _ : K => tt) (fun _ k => k) sent got.
Proof.
  intros []. split; try done; try (intros; eapply quiet_unit; eauto; fail).
  - by intros [].
  - intros k fd n r e data k' H. by destruct (logged_read0 _ _ _ _ _ _ _ H) as (_ & S & G).
  - intros k fd iov r e k' H. by destruct (logged_writev0 _ _ _ _ _ _ H) as (_ & S & G).
Qed.

(** ** Weakest preconditions

    [m] returns with [Q] or throws with [E]. *)
Definition wp {W A} (m : io W A) (Q : A -> W -> Prop) (E : W -> Prop) (w : W) : Prop :=
  match m w with (Ok a, w') => Q a w' | (Throw _, w') => E w' | _ => False end.

Lemma wp_bind {W A B} (m : io W A) (k : A -> io W B) Q E w :
  wp m (fun a => wp (k a) Q E) E w -> wp (m ≫= k) Q E w.
Proof. unfold wp, mbind, io_bind. by destruct (m w) as [[a| | |] w']. Qed.

Lemma wp_ret {W A} (a : A) (Q : A -> W -> Prop) E w : Q a w -> wp (mret a) Q E w.
Proof. done. Qed.

Lemma wp_pure {W A} (o : outcome A) (P : A -> Prop) (Q : A -> W -> Prop) (E : W -> Prop) w :
  yields o P -> (forall a, P a -> Q a w) -> E w -> wp (pure_ o) Q E w.
Proof. unfold wp, pure_. destruct o; simpl; auto. Qed.

Lemma wp_mono {W A} (m : io W A) (Q Q' : A -> W -> Prop) (E E' : W -> Prop) w :
  wp m Q E w -> (forall a w', Q a w' -> Q' a w') -> (forall w', E w' -> E' w') -> wp m Q' E' w.
Proof. unfold wp. destruct (m w) as [[a| | |] w']; auto. Qed.

(** A call of which it is known what it leaves alone. *)
Lemma wp_call {K A} (m : io (FileDescriptor.world (K := K)) A) Rel h (Q : A -> FileDescriptor.world -> Prop) E w :
  answers h m -> respects Rel m -> is_Some (fds w !! h) ->
  (forall a w', Rel w w' -> Q a w') -> (forall w', Rel w w' -> E w') -> wp m Q E w.
Proof.
  intros Ha Hr Hh HQ HE. specialize (Ha w Hh). specialize (Hr w). unfold wp.
  destruct (m w) as [[a| | |] w']; try done; auto.
Qed.

(** The number behind a handle. *)
Lemma wp_fd_num {K} h fd n (Q : Z -> FileDescriptor.world (K := K) -> Prop) E w :
  fds w !! h = Some (fd, n) -> Q fd w -> wp (FileDescriptor.fd_num h) Q E w.
Proof.
  intros Hh HQ. destruct (fds_lookup _ _ _ _ Hh) as (x & Hx & Hfd). unfold wp.
  rewrite (fd_num_ok w h x) by (by exists n). by rewrite Hfd.
Qed.
