(* ===== verification/StreamCopy.v ===== *)
(** * StreamCopy.v: copying between a socket and the terminal

    Models [apps/bidirectional_stream_copy.cc], the body of the programs [tcp_ipv4], [tcp_udp],
    [tcp_ip_ethernet] and [tcp_native].  The local variables that the callbacks capture by
    reference live in memory the callbacks share: [self] and [set_self] read and write it in the
    state of the machine, [K].  The two directions are written by the same code with the roles
    of the streams swapped; [side] says which stream is meant.  The loop has no bound in the
    code, so it is run for a number of rounds. *)

From stdpp Require Import gmap list.
From S2P Require Import Prelude Streams Buffers Addresses FileDesc EventLoop Sockets Handles.

Module StreamCopy.

Definition max_copy_length : Z := 65536.
Definition buffer_size : Z := 1048576.
Definition STDIN_FILENO : Z := 0.
Definition STDOUT_FILENO : Z := 1.

(** The local variables. *)
Record t := mk {
  _outbound : ByteStream.t;
  _inbound : ByteStream.t;
  _outbound_shutdown : bool;
  _inbound_shutdown : bool
}.

Definition make : outcome t :=
  outbound ← ByteStream.make buffer_size;
  inbound ← ByteStream.make buffer_size;
  Ok (mk outbound inbound false false).

Inductive side := Outbound | Inbound.

#[export] Instance side_eq_dec : EqDecision side.
Proof. solve_decision. Defined.

Definition other (d : side) : side := match d with Outbound => Inbound | Inbound => Outbound end.
Definition stream (d : side) (s : t) : ByteStream.t :=
  match d with Outbound => _outbound s | Inbound => _inbound s end.
Definition is_shut (d : side) (s : t) : bool :=
  match d with Outbound => _outbound_shutdown s | Inbound => _inbound_shutdown s end.
Definition set_stream (d : side) (st : ByteStream.t) (s : t) : t :=
  match d with
  | Outbound => mk st (_inbound s) (_outbound_shutdown s) (_inbound_shutdown s)
  | Inbound => mk (_outbound s) st (_outbound_shutdown s) (_inbound_shutdown s)
  end.
Definition set_shut (d : side) (s : t) : t :=
  match d with
  | Outbound => mk (_outbound s) (_inbound s) true (_inbound_shutdown s)
  | Inbound => mk (_outbound s) (_inbound s) (_outbound_shutdown s) true
  end.

Section copy.

Context {K : Type} (sys : Kernel K) (net : SocketCalls K)
  (sys_poll : K -> list EventLoop.pollfd -> Z -> Z * Z * list EventLoop.pollfd * K)
  (self : K -> t) (set_self : t -> K -> K).

#[local] Abbreviation W := (FileDescriptor.world (K := K)).

Definition get : io W t := gets (fun w => self (FileDescriptor.kernel w)).
Definition put (f : t -> t) : io W unit := modify (fun w =>
  FileDescriptor.set_kernel (set_self (f (self (FileDescriptor.kernel w))) (FileDescriptor.kernel w)) w).

(** A call on a stream that changes it. *)
Definition on_stream (d : side) (f : ByteStream.t -> outcome ByteStream.t) : io W unit :=
  s ← get; st ← pure_ (f (stream d s)); put (set_stream d st).

Definition end_input (d : side) : io W unit :=
  put (fun s => set_stream d (ByteStream.end_input (stream d s)) s).

(** From the descriptor [h] into a stream: rules 1 and 3. *)
Definition fill_callback (d : side) (h : Z) : io W unit :=
  s ← get;
  data ← FileDescriptor.read sys h (ByteStream.remaining_capacity (stream d s));
  _ ← on_stream d (fun st => '(st, _) ← ByteStream.write st data; Ok st);
  at_eof ← FileDescriptor.eof h;
  if at_eof : bool then end_input d else mret tt.

Definition fill_interest (d : side) : io W bool :=
  s ← get;
  mret (negb (ByteStream.error (stream d s)) && (0 <? ByteStream.remaining_capacity (stream d s)) &&
        negb (ByteStream.error (stream (other d) s))).

(** From a stream to the descriptor [h]: rules 2 and 4; [finish] ends the output. *)
Definition drain_callback (d : side) (h : Z) (finish : io W unit) : io W unit :=
  s ← get;
  let bytes_to_write := Z.min max_copy_length (ByteStream.buffer_size (stream d s)) in
  output ← pure_ (ByteStream.peek_output (stream d s) bytes_to_write);
  bytes_written ← FileDescriptor.write sys h (BufferViewList.of_string output) false;
  _ ← on_stream d (fun st => ByteStream.pop_output st bytes_written);
  s ← get;
  if ByteStream.eof (stream d s) then _ ← finish; put (set_shut d) else mret tt.

Definition drain_interest (d : side) : io W bool :=
  s ← get;
  mret (negb (ByteStream.buffer_empty (stream d s)) || (ByteStream.eof (stream d s) && negb (is_shut d s))).

(** The four rules; [input], [output] and [socket] are handles. *)
Definition rule_1 (input : Z) : EventLoop.Rule K :=
  EventLoop.mkRule input EventLoop.In (fill_callback Outbound input) (fill_interest Outbound) (end_input Outbound).
Definition rule_2 (socket : Z) : EventLoop.Rule K :=
  EventLoop.mkRule socket EventLoop.Out
    (drain_callback Outbound socket (Socket.shutdown net socket Socket.SHUT_WR))
    (drain_interest Outbound) (end_input Outbound).
Definition rule_3 (socket : Z) : EventLoop.Rule K :=
  EventLoop.mkRule socket EventLoop.In (fill_callback Inbound socket) (fill_interest Inbound) (end_input Inbound).
Definition rule_4 (output : Z) : EventLoop.Rule K :=
  EventLoop.mkRule output EventLoop.Out
    (drain_callback Inbound output (FileDescriptor.close sys output))
    (drain_interest Inbound) (end_input Inbound).

(** [add_rule] on the loop's list, which stands in the state beside the rest. *)
#[local] Abbreviation ST := (list (EventLoop.Rule K) * W)%type.

Definition machine {B} (m : io W B) : io ST B := fun '(rules, w) => let '(o, w) := m w in (o, (rules, w)).

Definition add_rule (r : EventLoop.Rule K) : io ST unit := fun '(rules, w) =>
  match EventLoop.add_rule rules (EventLoop.fd r) (EventLoop.direction r) (EventLoop.callback r)
          (EventLoop.interest r) (EventLoop.cancel r) w with
  | (Ok rules', w) => (Ok tt, (rules', w))
  | (Throw e, w) => (Throw e, (rules, w))
  | (Undefined, w) => (Undefined, (rules, w))
  | (OutOfFuel, w) => (OutOfFuel, (rules, w))
  end.

Definition wait_next_event : io ST EventLoop.Result := fun '(rules, w) =>
  let '(o, rules, w) := EventLoop.wait_next_event sys sys_poll (-1) rules w in (o, (rules, w)).

(** [while (true)], for at most [fuel] rounds. *)
Fixpoint copy_loop (fuel : nat) : io ST unit :=
  match fuel with
  | O => pure_ OutOfFuel
  | S fuel =>
      ret ← wait_next_event;
      match ret with EventLoop.Exit => mret tt | _ => copy_loop fuel end
  end.

(** The rules are added and the loop runs; [_outbound] and the other locals are in place. *)
Definition copy_body (fuel : nat) (socket input output : Z) : io ST unit :=
  _ ← machine (FileDescriptor.set_blocking sys socket false);
  _ ← machine (FileDescriptor.set_blocking sys input false);
  _ ← machine (FileDescriptor.set_blocking sys output false);
  _ ← add_rule (rule_1 input);
  _ ← add_rule (rule_2 socket);
  _ ← add_rule (rule_3 socket);
  _ ← add_rule (rule_4 output);
  copy_loop fuel.

(** The destructor of the event loop destroys the handles of its rules. *)
Fixpoint release_rules (rules : list (EventLoop.Rule K)) : io W unit :=
  match rules with
  | [] => mret tt
  | r :: rest => _ ← FileDescriptor.release sys (EventLoop.fd r); release_rules rest
  end.

Definition destroy_loop : io ST unit := fun '(rules, w) => let '(o, w) := release_rules rules w in (o, ([], w)).

(** Leaving a scope, by a return or an exception, destroys what it holds. *)
Definition leaving {W A} (cleanup : io W unit) (m : io W A) : io W A := fun w =>
  match m w with
  | (Ok a, w) => (_ ← cleanup; mret a) w
  | (Throw e, w) => (_ ← cleanup; pure_ (Throw e)) w
  | r => r
  end.

(** The whole function: the locals are destroyed in the reverse order of their declaration. *)
Definition bidirectional_stream_copy (fuel : nat) (socket : Z) : io W unit := fun w =>
  let run : io ST unit :=
    leaving destroy_loop (
      input ← machine (FileDescriptor.make STDIN_FILENO);
      leaving (machine (FileDescriptor.release sys input)) (
        output ← machine (FileDescriptor.make STDOUT_FILENO);
        leaving (machine (FileDescriptor.release sys output)) (
          locals ← machine (pure_ make);
          _ ← machine (put (fun _ => locals));
          copy_body fuel socket input output))) in
  let '(o, (_, w)) := run ([], w) in (o, w).

End copy.

End StreamCopy.

(** ** Leaving the scopes *)

Section scopes.

Import StreamCopy.

Context {K : Type} (sys : Kernel K) (F0 : gmap Z (Z * Z)) (HF0 : map_Forall (fun _ x => 0 <= x.2) F0).

#[local] Abbreviation W := (FileDescriptor.world (K := K)).

Lemma machine_wp {A} (m : io W A) rules (Q : A -> list (EventLoop.Rule K) * W -> Prop) E w :
  wp m (fun a w' => Q a (rules, w')) (fun w' => E (rules, w')) w -> wp (machine m) Q E (rules, w).
Proof. unfold wp, machine. by destruct (m w) as [[a| | |] w']. Qed.

(** Destroying the rules. *)
Lemma release_rules_ok rules : forall hs w, owned F0 ((EventLoop.fd <$> rules) ++ hs) w ->
  exists w', release_rules sys rules w = (Ok tt, w') /\ owned F0 hs w' /\
    rtc (may_close sys) (FileDescriptor.kernel w) (FileDescriptor.kernel w').
Proof.
  induction rules as [|r rules IH]; intros hs w Ho; [by exists w|]. simpl in Ho.
  destruct (owned_release sys F0 HF0 _ _ _ Ho) as (w1 & Hr & Ho1 & Hq1 & _). destruct (IH _ _ Ho1) as (w' & Hrun & Ho' & Hq').
  exists w'. cbn [release_rules]. split; [by rewrite (io_bind_ok _ _ _ _ _ Hr)|]. split; [done|]. by eapply rtc_l.
Qed.

End scopes.

(** ** The locals and the logs *)

Section locals.

Import StreamCopy.

Context {K : Type} (sys : Kernel K) (net : SocketCalls K)
  (sys_poll : K -> list EventLoop.pollfd -> Z -> Z * Z * list EventLoop.pollfd * K)
  (self : K -> t) (set_self : t -> K -> K) (sent got : K -> Z -> list byte)
  `{!PosixKernel sys sent} `{!LoggedKernel sys net sys_poll self set_self sent got}
  `{!PosixPoll sys_poll}.

#[local] Abbreviation W := (FileDescriptor.world (K := K)).
#[local] Abbreviation locals w := (self (FileDescriptor.kernel w)).

(** [memory] is what belongs to somebody else. *)
Context {X : Type} (memory : K -> X) (set_memory : X -> K -> K) `{!LoggedKernel sys net sys_poll memory set_memory sent got}.
Hypothesis Hmemory : forall s k, memory (set_self s k) = memory k.

Definition both (k : K) : t * X := (self k, memory k).

#[local] Instance both_logged : LoggedKernel sys net sys_poll both (fun '(s, o) k => set_self s (set_memory o k)) sent got.
Proof. by apply pair_logged. Qed.

#[local] Abbreviation calm := (calm both sent got).

Lemma both_same k k' : both k' = both k -> self k' = self k /\ memory k' = memory k.
Proof. by intros [= -> ->]. Qed.

Lemma calm_locals w w' : calm w w' -> locals w' = locals w.
Proof. by intros (_ & [H _]%both_same & _). Qed.

(** ** The callbacks *)

(** The descriptors of the two directions; [sfd] is the socket's. *)
Context (sfd : Z) (k0 : K).
Hypothesis Hsfd : sfd <> STDIN_FILENO /\ sfd <> STDOUT_FILENO.

Definition source (d : side) : Z := match d with Outbound => STDIN_FILENO | Inbound => sfd end.
Definition sink (d : side) : Z := match d with Outbound => sfd | Inbound => STDOUT_FILENO end.

(** What came in since [k0] is what went out, followed by what the stream holds. *)
Definition flow (d : side) (k : K) : Prop :=
  ByteStream.wf (stream d (self k)) /\
  exists delivered,
    got k (source d) = got k0 (source d) ++ delivered ++ ByteStream.contents (stream d (self k)) /\
    sent k (sink d) = sent k0 (sink d) ++ delivered.

(** The other descriptors and the other memory are as they were. *)
Definition spared (k : K) : Prop := memory k = memory k0 /\
  forall fd, fd <> STDIN_FILENO -> fd <> STDOUT_FILENO -> fd <> sfd -> sent k fd = sent k0 fd /\ got k fd = got k0 fd.

Definition flows (w : W) : Prop := (forall d, flow d (FileDescriptor.kernel w)) /\ spared (FileDescriptor.kernel w).

Lemma spared_from k k' : spared k -> memory k' = memory k ->
  (forall fd, fd <> STDIN_FILENO -> fd <> STDOUT_FILENO -> fd <> sfd -> sent k' fd = sent k fd /\ got k' fd = got k fd) -> spared k'.
Proof.
  intros [H1 H2] Ho Hl. split; [congruence|]. intros fd A B C. destruct (Hl fd A B C) as [-> ->]. by apply H2.
Qed.

Lemma quiet_flows k k' : quiet both sent got k k' -> (forall d, flow d k) /\ spared k -> (forall d, flow d k') /\ spared k'.
Proof.
  intros ([Hs Ho]%both_same & Hse & Hg) [Hf Hsp]. split; [intros d; unfold flow; rewrite Hs, Hse, Hg; apply Hf|].
  eapply spared_from; [done|done|]. intros fd _ _ _. by rewrite Hse, Hg.
Qed.

Lemma flows_calm w w' : calm w w' -> flows w -> flows w'.
Proof. intros (_ & Hq). by apply quiet_flows. Qed.

Lemma stream_set d d' st s : stream d' (set_stream d st s) = if decide (d' = d) then st else stream d' s.
Proof. by destruct d, d'. Qed.

Lemma stream_shut d d' s : stream d' (set_shut d s) = stream d' s.
Proof. by destruct d, d'. Qed.


(** The world after the locals were changed. *)
Definition with_locals (f : t -> t) (w : W) : W :=
  FileDescriptor.set_kernel (set_self (f (locals w)) (FileDescriptor.kernel w)) w.

Lemma locals_with f w : locals (with_locals f w) = f (locals w).
Proof. unfold with_locals. simpl. apply (logged_set (sys := sys) (net := net) (sys_poll := sys_poll) (sent := sent) (got := got)). Qed.

Lemma flow_with d f w :
  flow d (FileDescriptor.kernel (with_locals f w)) <->
  ByteStream.wf (stream d (f (locals w))) /\
  exists delivered,
    got (FileDescriptor.kernel w) (source d) = got k0 (source d) ++ delivered ++ ByteStream.contents (stream d (f (locals w))) /\
    sent (FileDescriptor.kernel w) (sink d) = sent k0 (sink d) ++ delivered.
Proof. unfold flow. rewrite locals_with. simpl. rewrite (logged_got (self := self)). by setoid_rewrite (logged_sent (self := self)). Qed.

Lemma spared_with f w : spared (FileDescriptor.kernel w) -> spared (FileDescriptor.kernel (with_locals f w)).
Proof.
  intros H. eapply spared_from; [done|apply Hmemory|]. intros fd _ _ _. simpl.
  by rewrite (logged_sent (self := self)), (logged_got (self := self)).
Qed.

(** Ending the input of a stream and marking it as shut down move no byte. *)
Lemma end_input_flows d w : flows w -> flows (end_input self set_self d w).2.
Proof.
  intros [H Hsp]. split; [|by apply (spared_with (fun s => set_stream d (ByteStream.end_input (stream d s)) s))].
  intros d'. apply (flow_with d' (fun s => set_stream d (ByteStream.end_input (stream d s)) s) w).
  destruct (H d') as [Hwf Hd]. rewrite stream_set. destruct (decide (d' = d)) as [->|]; [|by split].
  split; [by apply bs_end_input_wf|done].
Qed.

Lemma set_shut_flows d w : flows w -> flows (with_locals (set_shut d) w).
Proof. intros [H Hsp]. split; [|by apply spared_with]. intros d'. apply flow_with. rewrite stream_shut. apply H. Qed.

Lemma source_inj d d' : source d = source d' -> d = d'.
Proof. destruct Hsfd. destruct d, d'; simpl; congruence. Qed.

Lemma sink_inj d d' : sink d = sink d' -> d = d'.
Proof. destruct Hsfd. destruct d, d'; simpl; congruence. Qed.

(** What a callback leaves alone: the other stream, the errors, and what was shut down. *)
Record spares (d : side) (w w' : W) : Prop := {
  sp_other d' : d' <> d -> stream d' (locals w') = stream d' (locals w);
  sp_error : ByteStream.error (stream d (locals w')) = ByteStream.error (stream d (locals w));
  sp_shut d' : d' <> d -> is_shut d' (locals w') = is_shut d' (locals w)
}.

(** Filling a stream ends its input only at the end of the descriptor. *)
Record fills (d : side) (h : Z) (w w' : W) : Prop := {
  fi_spares : spares d w w';
  fi_ends : same_ends w w';
  fi_shut : is_shut d (locals w') = is_shut d (locals w);
  fi_ended : ByteStream.input_ended (stream d (locals w')) =
    ByteStream.input_ended (stream d (locals w)) || ByteStream.input_ended (stream d (locals w')) && eof_of w' h
}.

(** The stream has ended, everything in it was written, and the output was ended too. *)
Definition finished (d : side) (s : t) : Prop :=
  ByteStream.contents (stream d s) = [] /\ ByteStream.input_ended (stream d s) = true /\ is_shut d s = true.

(** Draining a stream into [h] leaves the flags, unless it finishes the direction. *)
Record drains (d : side) (h : Z) (w w' : W) : Prop := {
  dr_spares : spares d w w';
  dr_ended : ByteStream.input_ended (stream d (locals w')) = ByteStream.input_ended (stream d (locals w));
  dr_contents : ByteStream.contents (stream d (locals w)) = [] -> ByteStream.contents (stream d (locals w')) = [];
  dr_eof j : eof_of w j = true -> eof_of w' j = true;
  dr_closed j : j <> h -> closed_of w' j = closed_of w j;
  dr_shut : is_shut d (locals w') = is_shut d (locals w) /\ closed_of w' h = closed_of w h \/ finished d (locals w')
}.

Lemma spares_same d w w' : locals w' = locals w -> spares d w w'.
Proof. intros Hl. split; by rewrite Hl. Qed.

Lemma spares_set d st w w' : ByteStream.error st = ByteStream.error (stream d (locals w)) ->
  locals w' = set_stream d st (locals w) -> spares d w w'.
Proof.
  intros He Hl. split; rewrite Hl.
  - intros d' Hd. by rewrite stream_set, decide_False.
  - by rewrite stream_set, decide_True.
  - by destruct d, d'.
Qed.

Lemma fill_callback_ok d h n w : flows w -> fds w !! h = Some (source d, n) ->
  exists o w', fill_callback sys self set_self d h w = (o, w') /\ concluded o /\ flows w' /\ fds w' = fds w /\ fills d h w w'.
Proof.
  intros Hw Hh. destruct (fds_lookup w h _ n Hh) as (x & Hx & Hfd).
  destruct (proj1 Hw d) as [Hwf (out & Hgot & Hsent)]. set (st := stream d (locals w)) in *.
  pose proof (bs_remaining st Hwf) as Hrem. pose proof (bs_bounds st Hwf) as Hb.
  unfold fill_callback. rewrite (io_bind_ok _ _ w (locals w) w) by done. fold st.
  assert (Hl : 0 <= ByteStream.remaining_capacity st < two64) by lia.
  pose proof (fd_read_correct sys sent _ w h _ x (ex_intro _ n Hx) Hl) as Hread. rewrite Hfd in Hread.
  pose proof (read_respects sys h (ByteStream.remaining_capacity st) w) as Hkeep.
  pose proof (read_ends sys h (ByteStream.remaining_capacity st) w) as Hends.
  destruct (sys_read sys _ _ _) as [[[r e] data] k] eqn:Er. destruct Hread as (w1 & Hk & Hread).
  destruct (logged_read (self := both) _ _ _ _ _ _ _ Er) as ([Hself Hoth]%both_same & Hse & Hgo).
  assert (Hsp1 : spared k).
  { eapply spared_from; [apply Hw|done|]. intros fd A B C. rewrite Hse, Hgo, decide_False, app_nil_r; [done|].
    intros [-> _]. by destruct d. }
  assert (Hn : 0 <= Z.min FileDescriptor.BUFFER_SIZE (ByteStream.remaining_capacity st)) by (unfold FileDescriptor.BUFFER_SIZE; lia).
  destruct (read_returns _ _ _ _ _ _ _ Hn Er) as (Hr & _ & _ & Hlen).
  destruct (Z.eqb_spec r (-1)) as [->|Hne].
  - destruct Hread as [Hrd _]. exists (Throw (tagged_error "read" e)), w1. rewrite Hrd in Hkeep, Hends.
    split; [unfold mbind, io_bind; by rewrite Hrd|]. split; [done|]. split; [|split; [done|]].
    2:{ assert (Hl1 : locals w1 = locals w) by (by rewrite Hk). split; [by apply spares_same|done|by rewrite Hl1|].
        rewrite Hl1. by destruct (ByteStream.input_ended _). }
    split; [|by rewrite Hk]. intros d'. unfold flow. rewrite Hk, Hself, Hse, Hgo, decide_False by (intros [_ ?]; lia).
    rewrite app_nil_r. apply Hw.
  - destruct Hread as (Hrd & Hdl & _). rewrite (io_bind_ok _ _ _ _ _ Hrd). rewrite Hrd in Hkeep, Hends. simpl in Hkeep, Hends.
    assert (Hloc : locals w1 = locals w) by (by rewrite Hk, Hself).
    destruct (bs_write_spec st data Hwf) as (st' & Hwr & Hwf' & Hct & _ & _ & _ & Herr & Hend). rewrite ztake_ge in Hwr, Hct by lia.
    set (w2 := with_locals (set_stream d st') w1).
    rewrite (io_bind_ok _ _ w1 tt w2); cycle 1.
    { unfold on_stream. rewrite (io_bind_ok _ _ w1 (locals w1) w1) by done. rewrite Hloc. fold st.
      by rewrite (io_bind_ok _ _ w1 st' w1) by (unfold pure_; by rewrite Hwr). }
    assert (Hw2 : flows w2).
    { split; [|apply spared_with; by rewrite Hk]. intros d'. apply flow_with. rewrite stream_set, Hloc, Hk, Hgo, Hse. destruct (decide (d' = d)) as [->|Hd].
      - split; [done|]. exists out. rewrite decide_True by (split; [done|lia]). rewrite Hgot, Hct, <- !app_assoc. done.
      - rewrite decide_False by (intros [?%source_inj _]; done). rewrite app_nil_r. apply Hw. }
    assert (Hf2 : fds w2 = fds w) by done.
    destruct (fds_lookup w2 h (source d) n) as (x2 & Hx2 & _); [by rewrite Hf2|].
    rewrite (io_bind_ok _ _ w2 (FDWrapper._eof x2) w2); cycle 1.
    { unfold FileDescriptor.eof. by rewrite (io_bind_ok _ _ w2 x2 w2) by (apply internal_ok; by exists n). }
    assert (Hl2 : locals w2 = set_stream d st' (locals w)) by (unfold w2; by rewrite locals_with, Hloc).
    destruct (FDWrapper._eof x2) eqn:Eeof.
    + eexists _, (end_input self set_self d w2).2. split; [done|]. split; [done|]. split; [by apply end_input_flows|].
      split; [done|].
      assert (Hl3 : locals (end_input self set_self d w2).2 = set_stream d (ByteStream.end_input st') (locals w)).
      { unfold end_input. change (put self set_self ?f w2).2 with (with_locals f w2).
        rewrite locals_with, Hl2, stream_set, decide_True by done. by destruct d. }
      split; [by apply (spares_set d (ByteStream.end_input st'))|done|rewrite Hl3; by destruct d|].
      rewrite Hl3, stream_set, decide_True by done. unfold eof_of.
      change (FileDescriptor.handles (end_input self set_self d w2).2) with (FileDescriptor.handles w2).
      rewrite Hx2, Eeof. by rewrite orb_true_r.
    + exists (Ok tt), w2. split; [done|]. split; [done|]. split; [done|]. split; [done|].
      split; [by apply (spares_set d st')|done|rewrite Hl2; by destruct d|].
      rewrite Hl2, stream_set, decide_True, Hend by done. fold st. by destruct (ByteStream.input_ended st).
Qed.

(** One write: a prefix of the bytes goes out, and nothing else changes. *)
Lemma write_once_copy h fd n w b : fds w !! h = Some (fd, n) -> zlen b < two63 ->
  exists o w' m, FileDescriptor.write sys h (BufferViewList.of_string b) false w = (o, w') /\
    0 <= m <= zlen b /\ fds w' = fds w /\ both (FileDescriptor.kernel w') = both (FileDescriptor.kernel w) /\
    (forall fd', got (FileDescriptor.kernel w') fd' = got (FileDescriptor.kernel w) fd') /\
    (forall fd', sent (FileDescriptor.kernel w') fd' =
       sent (FileDescriptor.kernel w) fd' ++ if decide (fd' = fd) then ztake m b else []) /\
    match o with Ok r => r = m | Throw _ => m = 0 | _ => False end.
Proof.
  intros Hh Hb. destruct (fds_lookup w h fd n Hh) as (x & Hx & Hfd).
  assert (Hall : all_bytes (BufferViewList.of_string b) = b) by (unfold all_bytes; simpl; apply app_nil_r).
  pose proof (write_respects sys h (BufferViewList.of_string b) false w) as Hkeep. unfold FileDescriptor.write in *.
  destruct (write_loop_spec sys sent (fun k => both k = both (FileDescriptor.kernel w) /\
      (forall fd', fd' <> fd -> sent k fd' = sent (FileDescriptor.kernel w) fd') /\
      (forall fd', got k fd' = got (FileDescriptor.kernel w) fd')) h fd false
    (S (length (all_bytes (BufferViewList.of_string b))))) with
    (buffer := BufferViewList.of_string b) (total := 0) (w := w) (x := x)
    as (o & w' & m & Hrun & Hm & Hs & (HI1 & HI2 & HI3) & _ & Ho); try done; rewrite ?Hall in *; try lia.
  - intros k iov r e k' Hsys (H1 & H2 & H3). destruct (logged_writev (self := both) _ _ _ _ _ _ Hsys) as (G1 & G2 & G3).
    split; [congruence|]. split; [intros fd' Hne; rewrite G2, H2; done|intros fd'; by rewrite G3, H3].
  - by exists n.
  - rewrite Hrun in *. exists o, w', m. split; [done|]. split; [done|]. split; [done|]. split; [done|]. split; [done|].
    split; [|destruct o; try done; [lia|auto]].
    intros fd'. destruct (decide (fd' = fd)) as [->|Hne]; [by rewrite Hs|by rewrite app_nil_r, HI2].
Qed.

Lemma drains_refl d h w : drains d h w w.
Proof. split; auto. by apply spares_same. Qed.

Lemma drained_stream d h w w' st : ByteStream.error st = ByteStream.error (stream d (locals w)) ->
  ByteStream.input_ended st = ByteStream.input_ended (stream d (locals w)) ->
  (ByteStream.contents (stream d (locals w)) = [] -> ByteStream.contents st = []) ->
  locals w' = set_stream d st (locals w) -> same_ends w w' -> drains d h w w'.
Proof.
  intros He Hi Hc Hl Hs. assert (Hst : stream d (locals w') = st) by (by rewrite Hl, stream_set, decide_True).
  split; rewrite ?Hst; try done; [by eapply spares_set|apply Hs|by intros; apply Hs|].
  left. split; [rewrite Hl; by destruct d|apply Hs].
Qed.

Lemma drains_same d h w w1 w2 : drains d h w w1 -> locals w2 = locals w1 -> same_ends w1 w2 -> drains d h w w2.
Proof.
  intros [[] ? ? He Hc Hs] Hl Hk. split; rewrite ?Hl; try done.
  - split; by rewrite Hl.
  - intros j Hj. by apply Hk, He.
  - intros j Hj. rewrite <- Hc by done. apply Hk.
  - destruct Hs as [[-> <-]|]; [left|by right]. split; [done|apply Hk].
Qed.

(** The output was ended when the stream had come to its end. *)
Lemma drains_finished d h w w1 w2 : drains d h w w1 -> locals w2 = locals w1 ->
  (forall j, (j <> h -> closed_of w2 j = closed_of w1 j) /\ (eof_of w1 j = true -> eof_of w2 j = true)) ->
  ByteStream.input_ended (stream d (locals w1)) = true -> ByteStream.contents (stream d (locals w1)) = [] ->
  drains d h w (with_locals (set_shut d) w2).
Proof.
  intros [[Ho Hr Hsh] Hen Hco He Hc _] Hl Hk Hended Hempty.
  assert (Hl' : locals (with_locals (set_shut d) w2) = set_shut d (locals w1)) by (by rewrite locals_with, Hl).
  split; [split|..]; rewrite ?Hl'; setoid_rewrite stream_shut || idtac; try done.
  - intros d' Hd. rewrite <- Hsh by done. by destruct d, d'.
  - intros j Hj. apply Hk, He, Hj.
  - intros j Hj. rewrite <- Hc by done. by apply Hk.
  - right. split; [by rewrite stream_shut|]. split; [by rewrite stream_shut|by destruct d].
Qed.

Lemma drain_callback_ok d h n w finish : flows w -> fds w !! h = Some (sink d, n) ->
  answers h finish -> respects calm finish -> finishes h finish ->
  exists o w', drain_callback sys self set_self d h finish w = (o, w') /\ concluded o /\ flows w' /\ fds w' = fds w /\
    drains d h w w'.
Proof.
  intros Hw Hh Hans Hcalm Hfin. destruct (proj1 Hw d) as [Hwf (out & Hgot & Hsent)]. set (st := stream d (locals w)) in *.
  pose proof (bs_buffer_size st Hwf) as Hsize. pose proof (bs_bounds st Hwf) as Hb.
  unfold drain_callback. rewrite (io_bind_ok _ _ w (locals w) w) by done. cbv zeta. fold st. rewrite Hsize.
  set (amount := Z.min max_copy_length (zlen (ByteStream.contents st))).
  assert (Ham : 0 <= amount <= zlen (ByteStream.contents st)) by (unfold amount, max_copy_length; lia).
  rewrite (io_bind_ok _ _ w _ w) by (unfold pure_; by rewrite (bs_peek_spec st amount Hwf Ham)).
  destruct (write_once_copy h (sink d) n w (ztake amount (ByteStream.contents st)))
    as (o & w1 & m & Hrun & Hm & Hf1 & [Hl1 Hoth]%both_same & Hg1 & Hs1 & Ho); [done|rewrite zlen_ztake; lia|].
  assert (Hsp1 : spared (FileDescriptor.kernel w1)).
  { eapply spared_from; [apply Hw|done|]. intros fd A B C. rewrite Hg1, Hs1, decide_False, app_nil_r; [done|].
    intros ->. by destruct d. }
  pose proof (write_ends sys h (BufferViewList.of_string (ztake amount (ByteStream.contents st))) false w) as Hends.
  rewrite Hrun in Hends. simpl in Hends.
  rewrite zlen_ztake in Hm. destruct o as [r|e| |]; try done; subst.
  - rewrite (io_bind_ok _ _ _ _ _ Hrun).
    destruct (bs_pop_spec st m Hwf ltac:(lia)) as (st' & Hpop & Hwf' & Hct & _ & _ & _ & Herr & Hend).
    set (w2 := with_locals (set_stream d st') w1).
    rewrite (io_bind_ok _ _ w1 tt w2); cycle 1.
    { unfold on_stream. rewrite (io_bind_ok _ _ w1 (locals w1) w1) by done. rewrite Hl1. fold st.
      by rewrite (io_bind_ok _ _ w1 st' w1) by (unfold pure_; by rewrite Hpop). }
    assert (Hw2 : flows w2).
    { split; [|by apply spared_with]. intros d'. apply flow_with. rewrite stream_set, Hl1, Hg1, Hs1. destruct (decide (d' = d)) as [->|Hd].
      - split; [done|]. exists (out ++ ztake m (ByteStream.contents st)). rewrite decide_True by done.
        rewrite ztake_ztake, Z.min_l, Hct, Hgot, Hsent, <- !app_assoc by lia. split; [|done].
        by rewrite ztake_zdrop.
      - rewrite decide_False by (intros ?%sink_inj; done). rewrite app_nil_r. apply Hw. }
    assert (Hf2 : fds w2 = fds w) by done.
    assert (Hl2 : locals w2 = set_stream d st' (locals w)) by (unfold w2; by rewrite locals_with, Hl1).
    pose proof (drained_stream d h w w2 st' ltac:(done) Hend ltac:(rewrite Hct; fold st; by intros ->) Hl2 Hends) as Hd2.
    rewrite (io_bind_ok _ _ w2 (locals w2) w2) by done. destruct (ByteStream.eof _) eqn:Eeof; [|by exists (Ok tt), w2].
    specialize (Hans w2 ltac:(by rewrite Hf2, Hh)). specialize (Hcalm w2). specialize (Hfin w2).
    destruct (finish w2) as [o w3] eqn:Ef. simpl in Hcalm. pose proof Hcalm as (Hf3 & [Hl3 _]%both_same & _).
    destruct o as [[]|e| |]; try done.
    + eexists (Ok tt), (with_locals (set_shut d) w3). split; [by rewrite (io_bind_ok _ _ _ _ _ Ef)|]. split; [done|].
      split; [by apply set_shut_flows, (flows_calm w2)|]. split; [change (fds w3 = fds w); congruence|].
      rewrite bs_eof in Eeof by (by apply Hw2). apply andb_prop in Eeof as [Ee Ec%bool_decide_eq_true].
      by apply (drains_finished d h w w2 w3).
    + exists (Throw e), w3. split; [unfold mbind, io_bind; by rewrite Ef|]. split; [done|].
      split; [by apply (flows_calm w2)|]. split; [congruence|by apply (drains_same d h w w2 w3)].
  - exists (Throw e), w1. split; [unfold mbind, io_bind; by rewrite Hrun|]. split; [done|].
    split; [|split; [done|by apply (drains_same d h w w w1); [apply drains_refl|..]]].
    split; [|done]. intros d'. unfold flow. rewrite Hl1, Hg1, Hs1. rewrite (ztake_le0 0) by lia.
    replace (if decide _ then _ else []) with (@nil byte) by (by destruct (decide _)). rewrite app_nil_r. apply Hw.
Qed.

Context (F0 : gmap Z (Z * Z)) (HF0 : map_Forall (fun _ x => 0 <= x.2) F0).

#[local] Abbreviation owned := (owned (K := K) F0).

(** ** The loop *)

Context (input output socket owners_before : Z).
Hypothesis Hinput : F0 !! input = Some (STDIN_FILENO, 0).
Hypothesis Houtput : F0 !! output = Some (STDOUT_FILENO, 0).
Hypothesis Hsocket : F0 !! socket = Some (sfd, owners_before).
Hypothesis Hbefore : 1 <= owners_before.

Definition fill_handle (d : side) : Z := match d with Outbound => input | Inbound => socket end.
Definition drain_handle (d : side) : Z := match d with Outbound => socket | Inbound => output end.

Definition fill_rule (d : side) : EventLoop.Rule K :=
  match d with Outbound => rule_1 sys self set_self input | Inbound => rule_3 sys self set_self socket end.
Definition drain_rule (d : side) : EventLoop.Rule K :=
  match d with Outbound => rule_2 sys net self set_self socket | Inbound => rule_4 sys self set_self output end.

Definition four_rules : list (EventLoop.Rule K) :=
  [fill_rule Outbound; drain_rule Outbound; fill_rule Inbound; drain_rule Inbound].

Lemma handles_apart : input <> output /\ input <> socket /\ output <> socket.
Proof.
  destruct Hsfd. split; [|split]; intros E.
  - rewrite E, Houtput in Hinput. discriminate.
  - rewrite E, Hsocket in Hinput. congruence.
  - rewrite E, Hsocket in Houtput. congruence.
Qed.

Lemma fill_rule_inj d d' : fill_rule d = fill_rule d' -> d = d'.
Proof.
  destruct handles_apart as (_ & Hne & _). intros H. apply (f_equal EventLoop.fd) in H. destruct d, d'; simpl in H; congruence.
Qed.

Lemma drain_rule_inj d d' : drain_rule d = drain_rule d' -> d = d'.
Proof.
  destruct handles_apart as (_ & _ & Hne). intros H. apply (f_equal EventLoop.fd) in H. destruct d, d'; simpl in H; congruence.
Qed.

Lemma fill_not_drain d d' : fill_rule d <> drain_rule d'.
Proof. intros H. apply (f_equal EventLoop.direction) in H. by destruct d, d'. Qed.

Lemma four_cases r : r ∈ four_rules <-> exists d, r = fill_rule d \/ r = drain_rule d.
Proof.
  unfold four_rules. rewrite !elem_of_cons, elem_of_nil. split; [|by intros [[] [->| ->]]; auto].
  intros [->|[->|[->|[->|[]]]]]; [exists Outbound|exists Outbound|exists Inbound|exists Inbound]; auto.
Qed.

Definition held (rules : list (EventLoop.Rule K)) : list Z := input :: output :: (EventLoop.fd <$> rules).

Definition copying (rules : list (EventLoop.Rule K)) (w : W) : Prop :=
  flows w /\ owned (held rules) w /\ rules `sublist_of` four_rules.

Lemma held_socket rules w : owned (held rules) w -> exists n, fds w !! socket = Some (sfd, n).
Proof.
  intros [_ H]. eexists. rewrite (H socket), Hsocket. cbn [mbind option_bind].
  pose proof (owners_nonneg socket (held rules)). destruct (Z.eqb_spec (owners_before + owners socket (held rules)) 0); [lia|done].
Qed.

Lemma held_input rules w : owned (held rules) w -> exists n, fds w !! input = Some (STDIN_FILENO, n).
Proof. intros (fd & n & HF & _ & Hf)%(owned_lookup F0 HF0). rewrite Hinput in HF. injection HF as <- <-. by eexists. Qed.

Lemma held_output rules w : owned (held rules) w -> exists n, fds w !! output = Some (STDOUT_FILENO, n).
Proof.
  unfold held. rewrite (Permutation_swap output input). intros (fd & n & HF & _ & Hf)%(owned_lookup F0 HF0).
  rewrite Houtput in HF. injection HF as <- <-. by eexists.
Qed.

(** What the invariant says of each rule. *)
Lemma copying_fill rules w d : copying rules w ->
  exists o w', EventLoop.callback (fill_rule d) w = (o, w') /\ concluded o /\ flows w' /\ fds w' = fds w /\
    fills d (fill_handle d) w w'.
Proof.
  intros (Hw & Ho & _). destruct (held_socket _ _ Ho) as [n1 H1]. destruct (held_input _ _ Ho) as [n2 H2].
  destruct d; by eapply fill_callback_ok.
Qed.

Lemma copying_drain rules w d : copying rules w ->
  exists o w', EventLoop.callback (drain_rule d) w = (o, w') /\ concluded o /\ flows w' /\ fds w' = fds w /\
    drains d (drain_handle d) w w'.
Proof.
  intros (Hw & Ho & _). destruct (held_socket _ _ Ho) as [n1 H1]. destruct (held_output _ _ Ho) as [n3 H3].
  destruct d; eapply drain_callback_ok;
    eauto using shutdown_answers, shutdown_finishes, close_answers, close_finishes; [apply shutdown_calm|apply close_calm].
Qed.

Lemma rule_cancel r : r ∈ four_rules -> exists d, (r = fill_rule d \/ r = drain_rule d) /\ EventLoop.cancel r = end_input self set_self d.
Proof. intros [d Hr]%four_cases. exists d. split; [done|]. by destruct Hr as [->| ->], d. Qed.

Lemma rule_interest r w : r ∈ four_rules -> exists b, EventLoop.interest r w = (Ok b, w).
Proof. intros [d [->| ->]]%four_cases; destruct d; by eexists. Qed.

Lemma copying_fds rules w w' : owned (held rules) w -> fds w' = fds w -> owned (held rules) w'.
Proof. intros [H1 H2] Hf. split; [done|]. intros j. by rewrite Hf. Qed.

(** ** Progress

    [hung] are the descriptors that [poll] may report as hung up.  As long as the outputs are
    not among them, which is what [P] stands for, a rule is in the list until its work is done. *)
Context (hung : Z -> Prop) (P : Prop).
Hypothesis Hhung : reports_hangups sys_poll hung.
Hypothesis HP : P -> ~ hung sfd /\ ~ hung STDOUT_FILENO.

Definition num (h : Z) : Z := match F0 !! h with Some (fd, _) => fd | None => 0 end.

Record live (rules : list (EventLoop.Rule K)) (w : W) : Prop := {
  lv_error d : ByteStream.error (stream d (locals w)) = false;
  lv_fill d : ByteStream.input_ended (stream d (locals w)) = false -> fill_rule d ∈ rules;
  lv_eof d : fill_rule d ∈ rules -> ByteStream.input_ended (stream d (locals w)) = true -> eof_of w (fill_handle d) = true;
  lv_drain d : finished d (locals w) \/ drain_rule d ∈ rules /\ closed_of w (drain_handle d) = false
}.

(** What the answer of a rule's interest says: a rule that fills has its input still open. *)
Definition asked (b : bool) (r : EventLoop.Rule K) (w : W) : Prop := P ->
  if b then forall d, r = fill_rule d -> ByteStream.input_ended (stream d (locals w)) = false
  else EventLoop.interest r w = (Ok false, w).

Definition copies (rules : list (EventLoop.Rule K)) (w : W) : Prop := copying rules w /\ (P -> live rules w).

Lemma spares_error d w w' : spares d w w' -> forall d', ByteStream.error (stream d' (locals w')) = ByteStream.error (stream d' (locals w)).
Proof. intros [Ho He _] d'. destruct (decide (d' = d)) as [->|]; [done|by rewrite Ho]. Qed.

Lemma spares_finished d w w' d' : spares d w w' -> d' <> d -> finished d' (locals w) -> finished d' (locals w').
Proof. intros [Ho _ Hs] Hd (? & ? & ?). split; [|split]; by rewrite ?Ho, ?Hs. Qed.

Lemma live_fills rules d w w' : live rules w -> ByteStream.input_ended (stream d (locals w)) = false ->
  fills d (fill_handle d) w w' -> live rules w'.
Proof.
  intros [Le Lf Lo Ld] Hopen [Hsp Hends Hsh Hend]. rewrite Hopen, orb_false_l in Hend. split; intros d'.
  - by rewrite (spares_error d w w' Hsp).
  - destruct (decide (d' = d)) as [->|Hd]; [auto|]. rewrite (sp_other _ _ _ Hsp d' Hd). apply Lf.
  - destruct (decide (d' = d)) as [->|Hd].
    + intros _ E. rewrite E in Hend. by destruct (eof_of w' _).
    + rewrite (sp_other _ _ _ Hsp d' Hd). intros Hr E. by apply Hends, Lo.
  - destruct (Ld d') as [Hf|[Hr Hc]]; [|right; split; [done|rewrite <- Hc; apply Hends]].
    destruct (decide (d' = d)) as [->|Hd]; [destruct Hf as (_ & Hf & _); congruence|left; by apply (spares_finished d w)].
Qed.

Lemma drain_handle_inj d d' : drain_handle d = drain_handle d' -> d = d'.
Proof. destruct handles_apart as (_ & _ & Hne). destruct d, d'; simpl; congruence. Qed.

Lemma live_drains rules d w w' : live rules w -> drains d (drain_handle d) w w' -> live rules w'.
Proof.
  intros [Le Lf Lo Ld] [Hsp Hend Hco Heof Hcl Hsh].
  assert (Hi : forall d', ByteStream.input_ended (stream d' (locals w')) = ByteStream.input_ended (stream d' (locals w))).
  { intros d'. destruct (decide (d' = d)) as [->|Hd]; [done|by rewrite (sp_other _ _ _ Hsp d' Hd)]. }
  split; intros d'; rewrite ?Hi.
  - by rewrite (spares_error d w w' Hsp).
  - apply Lf.
  - intros Hr E. by apply Heof, Lo.
  - destruct (decide (d' = d)) as [->|Hd].
    + destruct Hsh as [[Hs Hc]|]; [|by left]. destruct (Ld d) as [(F1 & F2 & F3)|[Hr Hc']]; [left|right; split; congruence].
      split; [auto|]. split; congruence.
    + destruct (Ld d') as [Hf|[Hr Hc]]; [left; by apply (spares_finished d w)|right]. split; [done|].
      rewrite Hcl; [done|]. by intros ?%drain_handle_inj.
Qed.

(** The order of the four rules: outbound before inbound, filling before draining. *)
Definition rank (r : EventLoop.Rule K) : Z :=
  match EventLoop.direction r with
  | EventLoop.In => if EventLoop.fd r =? input then 0 else 2
  | EventLoop.Out => if EventLoop.fd r =? output then 3 else 1
  end.

Lemma rank_fill d : rank (fill_rule d) = match d with Outbound => 0 | Inbound => 2 end.
Proof.
  destruct handles_apart as (_ & Hne & _). unfold rank. destruct d; simpl; [by rewrite Z.eqb_refl|].
  by destruct (Z.eqb_spec socket input).
Qed.

Lemma rank_drain d : rank (drain_rule d) = match d with Outbound => 1 | Inbound => 3 end.
Proof.
  destruct handles_apart as (_ & _ & Hne). unfold rank. destruct d; simpl; [|by rewrite Z.eqb_refl].
  by destruct (Z.eqb_spec socket output).
Qed.

Lemma rank_order before r after : before ++ r :: after `sublist_of` four_rules ->
  (forall r', r' ∈ before -> rank r' < rank r) /\ (forall r', r' ∈ after -> rank r < rank r').
Proof.
  apply sublist_ranked. intros [|[|[|[|j]]]] x Hx; [apply (inj Some) in Hx as <-..|done];
    [apply (rank_fill Outbound)|apply (rank_drain Outbound)|apply (rank_fill Inbound)|apply (rank_drain Inbound)].
Qed.

Lemma later_fill before r after d d' : before ++ r :: after `sublist_of` four_rules ->
  r = fill_rule d \/ r = drain_rule d -> fill_rule d' ∈ after -> d' <> d.
Proof.
  intros [_ Ha]%rank_order Hr Hin%Ha <-. destruct Hr as [->| ->]; rewrite ?rank_drain, ?rank_fill in Hin; destruct d'; lia.
Qed.

Lemma earlier_drain before r after d d' : before ++ r :: after `sublist_of` four_rules ->
  r = fill_rule d \/ r = drain_rule d -> drain_rule d' ∈ before -> d' <> d.
Proof.
  intros [Hb _]%rank_order Hr Hin%Hb <-. destruct Hr as [->| ->]; rewrite ?rank_drain, ?rank_fill in Hin; destruct d'; lia.
Qed.

Lemma erased_once before r after : before ++ r :: after `sublist_of` four_rules -> r ∉ before ++ after.
Proof. intros [Hb Ha]%rank_order [H%Hb|H%Ha]%elem_of_app; lia. Qed.

Lemma still_there {A} (before after : list A) r r' : r' ∈ before ++ r :: after -> r' <> r -> r' ∈ before ++ after.
Proof. rewrite !elem_of_app, elem_of_cons. intuition. Qed.

(** Erasing a rule that may be erased, once its stream was ended. *)
Lemma live_erase before r after w w' d : before ++ r :: after `sublist_of` four_rules ->
  r = fill_rule d \/ r = drain_rule d /\ finished d (locals w) ->
  locals w' = set_stream d (ByteStream.end_input (stream d (locals w))) (locals w) ->
  (forall d', closed_of w' (drain_handle d') = closed_of w (drain_handle d') /\
              eof_of w' (fill_handle d') = eof_of w (fill_handle d')) ->
  live (before ++ r :: after) w -> live (before ++ after) w'.
Proof.
  intros Hs Hr Hl Hflags [Le Lf Lo Ld].
  assert (Hst : forall d', stream d' (locals w') = if decide (d' = d) then ByteStream.end_input (stream d (locals w)) else stream d' (locals w)).
  { intros d'. by rewrite Hl, stream_set. }
  assert (Hsub : forall x, x ∈ before ++ after -> x ∈ before ++ r :: after).
  { intros x. rewrite !elem_of_app, elem_of_cons. intuition. }
  assert (Hfin : forall d', finished d' (locals w) -> finished d' (locals w')).
  { intros d' (F1 & F2 & F3). unfold finished. rewrite Hst. destruct (decide (d' = d)) as [->|]; rewrite Hl; by destruct d, d' || destruct d. }
  split; intros d'.
  - rewrite Hst. destruct (decide (d' = d)) as [->|]; apply Le.
  - rewrite Hst. destruct (decide (d' = d)) as [->|Hd]; [done|]. intros E. apply (still_there _ _ r); [by apply Lf|].
    intros Heq. rewrite <- Heq in Hr. destruct Hr as [?%fill_rule_inj|[?%fill_not_drain _]]; done.
  - rewrite Hst. intros Hin E. rewrite (proj2 (Hflags d')). apply Lo; [by apply Hsub|].
    destruct (decide (d' = d)) as [->|Hd]; [|done]. destruct Hr as [E0|[_ (_ & Hf & _)]]; [|done]. rewrite <- E0 in Hin.
    by apply (erased_once _ _ _ Hs) in Hin.
  - destruct (Ld d') as [Hf|[Hin Hc]]; [by left; apply Hfin|].
    destruct Hr as [Hr|[Hr Hf]]; [|destruct (decide (d' = d)) as [->|Hd]; [by left; apply Hfin|]];
      (right; split; [apply (still_there _ _ r); [done|]|by rewrite (proj1 (Hflags d'))]); rewrite Hr.
    + intros E. by apply (fill_not_drain d d').
    + by intros ?%drain_rule_inj.
Qed.

(** What the interests of the rules are. *)
Lemma interest_fill d w : EventLoop.interest (fill_rule d) w =
  (Ok (negb (ByteStream.error (stream d (locals w))) && (0 <? ByteStream.remaining_capacity (stream d (locals w))) &&
       negb (ByteStream.error (stream (other d) (locals w)))), w).
Proof. by destruct d. Qed.

Lemma interest_drain d w : EventLoop.interest (drain_rule d) w =
  (Ok (negb (ByteStream.buffer_empty (stream d (locals w))) ||
       ByteStream.eof (stream d (locals w)) && negb (is_shut d (locals w))), w).
Proof. by destruct d. Qed.

(** The answers given before stay true when a later rule ends its stream. *)
Lemma asked_erase before r after w w' d b r' : before ++ r :: after `sublist_of` four_rules ->
  r = fill_rule d \/ r = drain_rule d -> r' ∈ before ->
  locals w' = set_stream d (ByteStream.end_input (stream d (locals w))) (locals w) ->
  (b = true -> forall d', r' = fill_rule d' -> d' <> d) ->
  asked b r' w -> asked b r' w'.
Proof.
  intros Hs Hr Hin Hl Hb Ha HPP. specialize (Ha HPP). destruct b.
  { intros d' E. specialize (Hb eq_refl d' E). rewrite Hl, stream_set, decide_False by done. by apply Ha. }
  assert (Hfour : r' ∈ four_rules) by (eapply elem_of_sublist; [|exact Hs]; apply elem_of_app; by left).
  apply four_cases in Hfour as [d' [->| ->]].
  - rewrite interest_fill in *. injection Ha as Ha. rewrite Hl. do 2 f_equal. rewrite <- Ha.
    by destruct d, d'.
  - pose proof (earlier_drain _ _ _ _ _ Hs Hr Hin) as Hd. rewrite interest_drain in *. injection Ha as Ha.
    rewrite Hl, stream_set, decide_False by done. do 2 f_equal. rewrite <- Ha. by destruct d, d'.
Qed.

Lemma asked_later before r after w w' d r' : before ++ r :: after `sublist_of` four_rules ->
  r = fill_rule d \/ r = drain_rule d -> r' ∈ after ->
  (forall d', d' <> d -> stream d' (locals w') = stream d' (locals w)) -> asked true r' w -> asked true r' w'.
Proof.
  intros Hs Hr Hin Hother Ha HPP d' ->. rewrite Hother by (by eapply later_fill). by apply Ha.
Qed.

Lemma copying_kept rules w w' : copying rules w -> flows w' -> fds w' = fds w -> copying rules w'.
Proof. intros (_ & Ho & Hs) Hw Hf. split; [done|]. split; [by eapply copying_fds|done]. Qed.

Lemma copies_callback before r after w : copies (before ++ r :: after) w -> asked true r w ->
  match EventLoop.callback r w with
  | (Ok _, w') => copies (before ++ r :: after) w' /\ forall r', r' ∈ after -> asked true r' w -> asked true r' w'
  | (Throw _, w') => copies (before ++ r :: after) w'
  | _ => False
  end.
Proof.
  intros [Hi Hlive] Ha. pose proof Hi as (_ & _ & Hs).
  assert (Hin : r ∈ four_rules) by (eapply elem_of_sublist; [|exact Hs]; apply elem_of_app; right; left).
  assert (Hkeep : exists d o w', EventLoop.callback r w = (o, w') /\ concluded o /\ copies (before ++ r :: after) w' /\
    (r = fill_rule d \/ r = drain_rule d) /\ spares d w w').
  { apply four_cases in Hin as [d [->| ->]].
    - destruct (copying_fill _ _ d Hi) as (o & w' & E & Ho & Hw & Hf & Hfi). exists d, o, w'. split; [done|]. split; [done|].
      split; [split; [by eapply copying_kept|]|split; [by left|apply Hfi]]. intros HPP. eapply live_fills; [by apply Hlive|by apply Ha|done].
    - destruct (copying_drain _ _ d Hi) as (o & w' & E & Ho & Hw & Hf & Hdr). exists d, o, w'. split; [done|]. split; [done|].
      split; [split; [by eapply copying_kept|]|split; [by right|apply Hdr]]. intros HPP. eapply live_drains; [by apply Hlive|done]. }
  destruct Hkeep as (d & o & w' & -> & Ho & Hc & Hr & Hsp). destruct o; try done. split; [done|].
  intros r' Hr'. eapply asked_later; [done|done|done|apply Hsp].
Qed.

(** A rule that may be erased fills, or has finished. *)
Lemma erased_finished rules r d w : live rules w -> P -> r = fill_rule d \/ r = drain_rule d ->
  may_erase num hung r w -> r = fill_rule d \/ r = drain_rule d /\ finished d (locals w).
Proof.
  intros Hl HPP [->| ->]; [by left|]. intros He. right. split; [done|]. destruct (lv_drain _ _ Hl d) as [|[_ Hc]]; [done|].
  assert (Hfd : EventLoop.fd (drain_rule d) = drain_handle d) by (by destruct d).
  destruct (HP HPP) as [H1 H2]. destruct He as [[He _]|[He|He]]; [by destruct d| |]; rewrite Hfd in He.
  - apply closed_of_true in He. congruence.
  - unfold num in He. destruct d; simpl in He; [by rewrite Hsocket in He|by rewrite Houtput in He].
Qed.

Lemma copies_erase before r after w : copies (before ++ r :: after) w -> may_erase num hung r w ->
  exists w', EventLoop.cancel_and_erase sys r w = (Ok tt, w') /\ copies (before ++ after) w' /\
    (forall b r', r' ∈ before -> asked b r' w -> asked b r' w') /\ (forall r', r' ∈ after -> asked true r' w -> asked true r' w').
Proof.
  intros [(Hw & Ho & Hs) Hlive] He.
  destruct (rule_cancel r) as (d & Hr & Hc); [eapply elem_of_sublist; [|exact Hs]; apply elem_of_app; right; left|].
  set (w1 := (end_input self set_self d w).2).
  assert (Hw1 : flows w1) by (by apply end_input_flows).
  assert (Hl1 : locals w1 = set_stream d (ByteStream.end_input (stream d (locals w))) (locals w))
    by apply (locals_with (fun s => set_stream d (ByteStream.end_input (stream d s)) s)).
  assert (Ho1 : owned (EventLoop.fd r :: held (before ++ after)) w1).
  { apply (copying_fds _ _ w1) in Ho; [|done]. unfold held in *. rewrite fmap_app in *. simpl in Ho.
    rewrite <- Permutation_middle in Ho. by rewrite (Permutation_swap (EventLoop.fd r) output), (Permutation_swap (EventLoop.fd r) input) in Ho. }
  destruct (logged_release (self := both) _ HF0 _ _ _ Ho1) as (w' & Hrel & Ho' & Hq & Hflags). exists w'.
  assert (Hl' : locals w' = set_stream d (ByteStream.end_input (stream d (locals w))) (locals w))
    by (destruct Hq as [[-> _]%both_same _]; done).
  assert (Hother : forall d', d' <> d -> stream d' (locals w') = stream d' (locals w)).
  { intros d' Hd. by rewrite Hl', stream_set, decide_False. }
  split; [|split; [split; [split; [|split; [done|]]|]|split]].
  - unfold EventLoop.cancel_and_erase. rewrite Hc. by rewrite (io_bind_ok _ _ w tt w1).
  - by apply (quiet_flows _ _ Hq).
  - etrans; [|exact Hs]. apply sublist_app; [done|by apply sublist_cons].
  - intros HPP. specialize (Hlive HPP). eapply live_erase; [done|by eapply erased_finished|done| |done].
    destruct (held_socket _ _ Ho') as [n1 H1]. destruct (held_input _ _ Ho') as [n2 H2]. destruct (held_output _ _ Ho') as [n3 H3].
    intros d'. destruct d'; simpl; split; by apply Hflags.
  - intros b r' Hin Ha HPP. specialize (Hlive HPP). apply (asked_erase before r after w w' d); try done. intros -> d' ->.
    destruct (erased_finished _ _ _ _ Hlive HPP Hr He) as [->|[-> (_ & Hf & _)]].
    + intros <-. apply (erased_once _ _ _ Hs), elem_of_app. by left.
    + intros ->. specialize (Ha HPP d eq_refl). congruence.
  - intros r' Hin. by eapply asked_later.
Qed.

Lemma copies_invariant : loop_invariant sys sys_poll num hung copies asked.
Proof.
  split; try apply copies_callback; try apply copies_erase.
  - intros rules w r [Hi _] Hr. pose proof (elem_of_sublist _ _ _ Hr (proj2 (proj2 Hi))) as Hin.
    assert (Hf : exists n, fds w !! EventLoop.fd r = Some (num (EventLoop.fd r), n)).
    { destruct Hi as (_ & Ho & _). destruct (held_socket _ _ Ho) as [n1 H1]. destruct (held_input _ _ Ho) as [n2 H2].
      destruct (held_output _ _ Ho) as [n3 H3]. unfold num.
      apply four_cases in Hin as [d [->| ->]]; destruct d; simpl; rewrite ?Hinput, ?Houtput, ?Hsocket; by eexists. }
    destruct Hf as [n Hf]. destruct (fds_lookup _ _ _ _ Hf) as (x & Hx & Hfd). by exists x, n.
  - intros rules w r [Hi Hlive] Hr. pose proof (elem_of_sublist _ _ _ Hr (proj2 (proj2 Hi))) as Hin.
    destruct (rule_interest r w Hin) as [b Hb]. exists b. split; [done|]. intros [_ Hready] HPP. destruct b; [|done].
    intros d ->. apply not_true_is_false. intros E. pose proof (lv_eof _ _ (Hlive HPP) d Hr E) as He.
    assert (Hd : EventLoop.direction (fill_rule d) = EventLoop.In) by (by destruct d). apply Hready, eof_of_false in Hd.
    assert (Hh : EventLoop.fd (fill_rule d) = fill_handle d) by (by destruct d). congruence.
  - intros rules w ps t [Hi Hlive]. pose proof (logged_poll (self := both) (FileDescriptor.kernel w) ps t) as Hq. pose proof Hq as ([Hl _]%both_same & _).
    set (w' := FileDescriptor.set_kernel _ w) in *. assert (Hl' : locals w' = locals w) by done.
    split; [split|].
    + eapply copying_kept; [done| |done]. eapply flows_calm; [|apply Hi]. by apply calm_kernel.
    + intros HPP. destruct (Hlive HPP) as [Le Lf Lo Ld]. split; by rewrite Hl'.
    + intros b r Hr Ha HPP. specialize (Ha HPP). destruct b; [by rewrite Hl'|].
      pose proof (elem_of_sublist _ _ _ Hr (proj2 (proj2 Hi))) as Hin. apply four_cases in Hin as [d [->| ->]].
      * rewrite interest_fill in *. rewrite Hl'. injection Ha as ->. done.
      * rewrite interest_drain in *. rewrite Hl'. injection Ha as ->. done.
Qed.

(** When no rule is interested, both directions are finished. *)
Lemma idle_finished rules w : flows w -> live rules w ->
  (forall r, r ∈ rules -> EventLoop.interest r w = (Ok false, w)) -> forall d, finished d (locals w).
Proof.
  intros Hw [Le Lf Lo Ld] Hidle d. destruct (Ld d) as [|[Hin _]]; [done|]. destruct (proj1 Hw d) as [Hwf _].
  pose proof (bs_bounds _ Hwf) as Hb. pose proof (bs_remaining _ Hwf) as Hr.
  apply Hidle in Hin. rewrite interest_drain in Hin. injection Hin as [He Hs]%orb_false_elim.
  rewrite bs_buffer_empty in He by done. apply negb_false_iff, bool_decide_eq_true in He.
  assert (Hend : ByteStream.input_ended (stream d (locals w)) = true).
  { apply not_false_is_true. intros E. pose proof (Hidle _ (Lf d E)) as Hf. rewrite interest_fill, !Le in Hf.
    injection Hf as Hf. rewrite Hr, He in Hf. simpl in Hf. rewrite andb_true_r, Z.ltb_ge in Hf. change (zlen []) with 0 in Hf. lia. }
  split; [done|]. split; [done|]. rewrite bs_eof, Hend, He, bool_decide_eq_true_2 in Hs by done.
  by destruct (is_shut d (locals w)).
Qed.

#[local] Abbreviation ST := (list (EventLoop.Rule K) * W)%type.

(** Code that, from [Pre], ends with [Post] or with an exception and always keeps what the copy
    needs. *)
Definition runs {A} (Pre : list (EventLoop.Rule K) -> W -> Prop) (m : io ST A) (Post : list (EventLoop.Rule K) -> W -> Prop) : Prop :=
  forall rules w, Pre rules w -> copying rules w ->
    let '(o, (rules', w')) := m (rules, w) in
    copying rules' w' /\ match o with Ok _ => Post rules' w' | Undefined => False | _ => True end.

Lemma runs_bind {A B} Pre (m : io ST A) Mid (k : A -> io ST B) Post :
  runs Pre m Mid -> (forall a, runs Mid (k a) Post) -> runs Pre (m ≫= k) Post.
Proof.
  intros Hm Hk rules w HPre Hi. specialize (Hm rules w HPre Hi). unfold mbind, io_bind.
  destruct (m (rules, w)) as [[a| | |] [rules' w']]; try done. destruct Hm as [Hi' HM]. by apply Hk.
Qed.

(** The first [n] rules are in place and nothing has happened yet. *)
Definition untouched (w : W) : Prop := forall d, ByteStream.error (stream d (locals w)) = false /\
  ByteStream.input_ended (stream d (locals w)) = false /\ closed_of w (drain_handle d) = false.

Definition stage (n : nat) (rules : list (EventLoop.Rule K)) (w : W) : Prop :=
  rules = take n four_rules /\ (P -> untouched w).

Lemma untouched_kept w w' : locals w' = locals w -> same_ends w w' -> untouched w -> untouched w'.
Proof. intros Hl Hs Hu d. rewrite Hl. destruct (Hu d) as (? & ? & Hc). split; [done|]. split; [done|]. rewrite <- Hc. apply Hs. Qed.

Lemma runs_machine {A} n h (m : io W A) : (forall rules w, copying rules w -> is_Some (fds w !! h)) ->
  respects calm m -> respects same_ends m -> answers h m -> runs (stage n) (machine m) (stage n).
Proof.
  intros Hh Hc He Ha rules w [Hn Hu] (Hw & Ho & Hs). specialize (Hh rules w (conj Hw (conj Ho Hs))).
  specialize (Hc w). specialize (He w). specialize (Ha w Hh). unfold machine. destruct (m w) as [o w'].
  split; [split; [by eapply flows_calm|]; split; [by eapply calm_owned|done]|]. destruct o; try done. split; [done|].
  intros HPP. eapply untouched_kept; [|done|by apply Hu]. by apply calm_locals.
Qed.

(** Every handle of the four rules is held. *)
Lemma held_four rules w r : copying rules w -> r ∈ four_rules -> is_Some (fds w !! EventLoop.fd r).
Proof.
  intros (_ & Ho & _) Hr. destruct (held_socket _ _ Ho) as [n1 H1].
  destruct (held_input _ _ Ho) as [n2 H2]. destruct (held_output _ _ Ho) as [n3 H3].
  apply four_cases in Hr as [d [->| ->]]; destruct d; simpl; by eexists.
Qed.

(** Adding the next of the four rules. *)
Lemma runs_add_rule n r : four_rules !! n = Some r -> runs (stage n) (add_rule r) (stage (S n)).
Proof.
  intros Hr rules w [-> Hu] Hi. pose proof (held_four _ _ r Hi (list_elem_of_lookup_2 _ _ _ Hr)) as Hh.
  destruct Hi as (Hw & Ho & Hs). destruct (owned_duplicate F0 HF0 _ _ _ Ho Hh) as (w' & Hd & Ho' & Hk & He).
  unfold add_rule, EventLoop.add_rule. rewrite (io_bind_ok _ _ _ _ _ Hd). simpl.
  assert (Heq : take n four_rules ++ [EventLoop.mkRule (EventLoop.fd r) (EventLoop.direction r) (EventLoop.callback r)
    (EventLoop.interest r) (EventLoop.cancel r)] = take (S n) four_rules) by (rewrite (take_S_r _ _ r Hr); by destruct r).
  rewrite Heq. split; [|split; [done|intros HPP; eapply untouched_kept; [by rewrite Hk|done|by apply Hu]]].
  split; [unfold flows; rewrite Hk; apply Hw|]. split; [|apply sublist_take].
  rewrite (take_S_r _ _ r Hr). unfold held in *. rewrite fmap_app. simpl fmap.
  rewrite <- Permutation_cons_append.
  by rewrite (Permutation_swap (EventLoop.fd r) output), (Permutation_swap (EventLoop.fd r) input).
Qed.

(** The loop ends when both directions are finished, or because of a signal. *)
Definition over (_ : list (EventLoop.Rule K)) (w : W) : Prop :=
  P -> interruptible sys_poll \/ forall d, finished d (locals w).

Lemma runs_copy_loop fuel : runs (fun rules w => P -> live rules w) (copy_loop sys sys_poll fuel) over.
Proof.
  induction fuel as [|fuel IH]; [by intros rules w _ Hi|]. cbn [copy_loop]. intros rules w Hl Hi.
  unfold mbind at 1, io_bind at 1, wait_next_event at 1.
  destruct (wait_next_event_invariant sys sys_poll num hung copies asked copies_invariant Hhung (-1) rules w (conj Hi Hl))
    as (o & kept & w' & -> & [Hi' Hl'] & Ho).
  destruct o as [[ | | ]| | |]; try done; [by apply IH..|].
  split; [done|]. intros HPP. destruct Ho as [|Hidle]; [by left|right].
  eapply idle_finished; [apply Hi'|by apply Hl'|]. intros r Hr. by apply Hidle.
Qed.

Lemma stage_live rules w : stage 4 rules w -> P -> live rules w.
Proof.
  intros [-> Hu] HPP. specialize (Hu HPP). split; intros d; destruct (Hu d) as (He & Hi & Hc); try done.
  - intros _. apply four_cases. exists d. by left.
  - congruence.
  - right. split; [|done]. apply four_cases. exists d. by right.
Qed.

Lemma runs_body fuel : runs (stage 0)
  (copy_body sys net sys_poll self set_self fuel socket input output) over.
Proof.
  assert (Hh : forall r rules w, r ∈ four_rules -> copying rules w -> is_Some (fds w !! EventLoop.fd r))
    by eauto using held_four.
  assert (Hfour : forall d, drain_rule d ∈ four_rules /\ fill_rule d ∈ four_rules)
    by (intros d; split; apply four_cases; exists d; auto).
  unfold copy_body. repeat (eapply runs_bind; [|intros ?]).
  all: try (eapply runs_machine; [|apply set_blocking_calm|apply set_blocking_ends|apply set_blocking_answers]).
  - intros rules w. apply (Hh (drain_rule Outbound)), Hfour.
  - intros rules w. apply (Hh (fill_rule Outbound)), Hfour.
  - intros rules w. apply (Hh (drain_rule Inbound)), Hfour.
  - by apply (runs_add_rule 0).
  - by apply (runs_add_rule 1).
  - by apply (runs_add_rule 2).
  - by apply (runs_add_rule 3).
  - intros rules w Hst. apply runs_copy_loop. by apply stage_live.
Qed.

(** Leaving a scope whose end cannot fail. *)
Lemma leaving_done {Y A} (cleanup : io Y unit) (m : io Y A) s o s1 s2 :
  concluded o -> m s = (o, s1) -> cleanup s1 = (Ok tt, s2) -> leaving cleanup m s = (o, s2).
Proof.
  intros Ho Hm Hc. unfold leaving. rewrite Hm. destruct o; try done; unfold mbind, io_bind; by rewrite Hc.
Qed.

(** The scopes of the function, from the point where the locals are in place. *)
Lemma scopes_ok fuel w : copying [] w -> (P -> untouched w) ->
  let '(o, (_, w')) :=
    leaving (destroy_loop sys) (leaving (machine (FileDescriptor.release sys input))
      (leaving (machine (FileDescriptor.release sys output))
        (copy_body sys net sys_poll self set_self fuel socket input output))) ([], w) in
  o <> Undefined /\ flows w' /\ (concluded o -> owned [] w') /\ (o = Ok tt -> over [] w').
Proof.
  intros Hi Hu. pose proof (runs_body fuel [] w (conj eq_refl Hu) Hi) as Hrun.
  destruct (copy_body _ _ _ _ _ _ _ _ _ ([], w)) as [o [rules w1]] eqn:E. destruct Hrun as [(Hw & Ho & _) Hres].
  assert (Hcase : o = OutOfFuel \/ concluded o) by (destruct o; simpl; auto).
  destruct Hcase as [->|Hs]; [unfold leaving; by rewrite E|].
  unfold held in Ho. rewrite (Permutation_swap output input) in Ho.
  destruct (logged_release (self := both) _ HF0 _ _ _ Ho) as (w2 & H2 & Ho2 & Q2 & _).
  destruct (logged_release (self := both) _ HF0 _ _ _ Ho2) as (w3 & H3 & Ho3 & Q3 & _).
  destruct (release_rules_ok sys F0 HF0 rules [] w3) as (w4 & H4 & Ho4 & Q4%(may_close_quiet (self := both))); [by rewrite app_nil_r|].
  erewrite (leaving_done (destroy_loop sys) _ _ o (rules, w3) ([], w4)); [|done| |by simpl; rewrite H4].
  - split; [by destruct o|]. split; [|split; [done|]].
    2:{ intros ->. unfold over. destruct Q4 as [[-> _]%both_same _], Q3 as [[-> _]%both_same _], Q2 as [[-> _]%both_same _]. done. }
    by apply (quiet_flows _ _ Q4), (quiet_flows _ _ Q3), (quiet_flows _ _ Q2).
  - apply leaving_done with (s1 := (rules, w2)); [done| |by simpl; rewrite H3].
    apply leaving_done with (s1 := (rules, w1)); [done|done|by simpl; rewrite H2].
Qed.
End locals.

(** ** The whole function *)

Section whole.

Import StreamCopy.

Context {K : Type} (sys : Kernel K) (net : SocketCalls K)
  (sys_poll : K -> list EventLoop.pollfd -> Z -> Z * Z * list EventLoop.pollfd * K)
  (self : K -> t) (set_self : t -> K -> K) (sent got : K -> Z -> list byte)
  `{!PosixKernel sys sent} `{!LoggedKernel sys net sys_poll self set_self sent got} `{!PosixPoll sys_poll}.

#[local] Abbreviation W := (FileDescriptor.world (K := K)).

(** A new descriptor gets a handle of its own. *)
Lemma make_fds fd (w : W) : 0 <= fd ->
  exists h w', FileDescriptor.make fd w = (Ok h, w') /\ fds w !! h = None /\
    fds w' = <[h := (fd, 1)]> (fds w) /\ FileDescriptor.kernel w' = FileDescriptor.kernel w /\
    forall j, closed_of w' j = closed_of w j.
Proof.
  intros Hfd. exists (fresh (dom (FileDescriptor.handles w))).
  eexists. split; [|split; [|split; [|split]]].
  - unfold FileDescriptor.make, FDWrapper.make. destruct (Z.ltb_spec fd 0); [lia|]. reflexivity.
  - unfold fds. rewrite lookup_fmap, not_elem_of_dom_1; [done|]. apply is_fresh.
  - unfold fds. simpl. by rewrite fmap_insert.
  - done.
  - intros j. unfold closed_of. simpl. destruct (decide (j = fresh (dom (FileDescriptor.handles w)))) as [->|].
    + rewrite lookup_insert_eq, not_elem_of_dom_1; [done|]. apply is_fresh.
    + by rewrite lookup_insert_ne.
Qed.

Lemma closed_absent (w : W) h : fds w !! h = None -> closed_of w h = false.
Proof. unfold fds, closed_of. rewrite lookup_fmap. by destruct (FileDescriptor.handles w !! h). Qed.

(** The locals at the start. *)
Lemma locals_made : exists s, make = Ok s /\ forall d, ByteStream.wf (stream d s) /\ ByteStream.contents (stream d s) = [] /\
  ByteStream.error (stream d s) = false /\ ByteStream.input_ended (stream d s) = false.
Proof.
  unfold make. destruct (bs_make_spec buffer_size) as (st & -> & Hwf & Hct & _ & _ & _ & He & Hi); [unfold buffer_size, string_max_size; lia|].
  eexists. split; [done|]. by intros [].
Qed.


Lemma leaving_ext {X A} (cleanup : io X unit) (m m' : io X A) s s' :
  m s = m' s' -> leaving cleanup m s = leaving cleanup m' s'.
Proof. intros Hm. unfold leaving. by rewrite Hm. Qed.

Lemma leaving_bind {X A B} (cleanup : io X unit) (m : io X A) (k : A -> io X B) s a s' :
  m s = (Ok a, s') -> leaving cleanup (m ≫= k) s = leaving cleanup (k a) s'.
Proof. intros Hm. unfold leaving, mbind, io_bind. by rewrite Hm. Qed.

(** The descriptors outside the function, with those it opens, which nobody else owns. *)
Definition outside (input output : Z) (w : W) : gmap Z (Z * Z) :=
  <[output := (STDOUT_FILENO, 0)]> (<[input := (STDIN_FILENO, 0)]> (fds w)).

Lemma outside_other input output w j : j <> input -> j <> output -> outside input output w !! j = fds w !! j.
Proof. intros. unfold outside. by rewrite !lookup_insert_ne. Qed.

Lemma outside_owned input output (w w' : W) :
  map_Forall (fun _ x => 1 <= x.2) (fds w) -> input <> output ->
  fds w' = <[output := (STDOUT_FILENO, 1)]> (<[input := (STDIN_FILENO, 1)]> (fds w)) ->
  owned (outside input output w) [input; output] w'.
Proof.
  intros Hw Hne Hf. split.
  - repeat constructor; unfold outside; [rewrite lookup_insert_ne by done|]; rewrite lookup_insert_eq; by eexists.
  - intros j. rewrite Hf, !owners_cons. unfold outside.
    destruct (decide (output = j)) as [<-|H1]; [by rewrite !lookup_insert_eq, decide_False|].
    rewrite !(lookup_insert_ne _ output) by done.
    destruct (decide (input = j)) as [<-|H2]; [by rewrite !lookup_insert_eq|]. rewrite !lookup_insert_ne by done.
    destruct (fds w !! j) as [[fd n]|] eqn:E; [|done]. pose proof (Hw _ _ E) as Hn. simpl in Hn.
    cbn [mbind option_bind]. change (owners j []) with 0. rewrite !Z.add_0_r. by destruct (Z.eqb_spec n 0); [lia|].
Qed.

Lemma outside_released input output (w w' : W) :
  map_Forall (fun _ x => 1 <= x.2) (fds w) -> fds w !! input = None -> fds w !! output = None ->
  owned (outside input output w) [] w' -> fds w' = fds w.
Proof.
  intros Hw Hi Ho [_ H]. apply map_eq. intros j. rewrite H. unfold outside.
  destruct (decide (output = j)) as [<-|H1]; [by rewrite lookup_insert_eq|]. rewrite (lookup_insert_ne _ output) by done.
  destruct (decide (input = j)) as [<-|H2]; [by rewrite lookup_insert_eq|]. rewrite lookup_insert_ne by done.
  destruct (fds w !! j) as [[fd n]|] eqn:E; [|done]. pose proof (Hw _ _ E) as Hn. simpl in Hn.
  cbn [mbind option_bind]. change (owners j []) with 0. rewrite Z.add_0_r. by destruct (Z.eqb_spec n 0); [lia|].
Qed.

(** The function makes its two handles and its locals, and then its scopes take over. *)
Lemma copy_scopes fuel socket (w : W) : exists input output w2 s,
  fds w !! input = None /\ fds w !! output = None /\ input <> output /\
  fds w2 = <[output := (STDOUT_FILENO, 1)]> (<[input := (STDIN_FILENO, 1)]> (fds w)) /\
  FileDescriptor.kernel w2 = FileDescriptor.kernel w /\ (forall j, closed_of w2 j = closed_of w j) /\ make = Ok s /\
  bidirectional_stream_copy sys net sys_poll self set_self fuel socket w =
    let '(o, (_, w')) :=
      leaving (destroy_loop sys) (leaving (machine (FileDescriptor.release sys input))
        (leaving (machine (FileDescriptor.release sys output))
          (copy_body sys net sys_poll self set_self fuel socket input output))) ([], with_locals self set_self (fun _ => s) w2) in
    (o, w').
Proof.
  destruct (make_fds STDIN_FILENO w) as (input & w1 & Hin & Hfresh1 & Hf1 & Hk1 & Hc1); [done|].
  destruct (make_fds STDOUT_FILENO w1) as (output & w2 & Hout & Hfresh2 & Hf2 & Hk2 & Hc2); [done|].
  destruct locals_made as (s & Hmake & _). rewrite Hf1 in Hf2, Hfresh2. apply lookup_insert_None in Hfresh2 as [Hfresh2 Hne].
  exists input, output, w2, s. split_and!; try done; [congruence|intros j; by rewrite Hc2, Hc1|].
  assert (Hstart : forall A (k : t -> unit -> io _ A), (locals ← machine (pure_ make);
    u ← machine (put self set_self (fun _ => locals)); k locals u) ([], w2) = k s tt ([], with_locals self set_self (fun _ => s) w2)).
  { intros A k. unfold mbind, io_bind, machine, pure_. by rewrite Hmake. }
  unfold bidirectional_stream_copy.
  erewrite (leaving_bind _ _ _ _ input ([], w1)) by (unfold machine; by rewrite Hin).
  erewrite leaving_ext; cycle 1.
  { apply (leaving_bind _ _ _ _ output ([], w2)). unfold machine. by rewrite Hout. }
  erewrite leaving_ext; [done|]. apply leaving_ext, leaving_ext, (Hstart _ (fun _ _ => _)).
Qed.

(** The whole function, whether or not [poll] reports that the outputs have hung up. *)
Lemma stream_copy_spec {X} (memory : K -> X) (set_memory : X -> K -> K) (hung : Z -> Prop) (P : Prop) fuel socket sfd n (w : W) :
  LoggedKernel sys net sys_poll memory set_memory sent got -> (forall s k, memory (set_self s k) = memory k) ->
  reports_hangups sys_poll hung -> (P -> ~ hung sfd /\ ~ hung STDOUT_FILENO /\ closed_of w socket = false) ->
  fds w !! socket = Some (sfd, n) -> map_Forall (fun _ x => 1 <= x.2) (fds w) ->
  sfd <> STDIN_FILENO /\ sfd <> STDOUT_FILENO ->
  let '(o, w') := bidirectional_stream_copy sys net sys_poll self set_self fuel socket w in
  o <> Undefined /\
  (forall d, flow self sent got sfd (FileDescriptor.kernel w) d (FileDescriptor.kernel w')) /\
  spared sent got memory sfd (FileDescriptor.kernel w) (FileDescriptor.kernel w') /\
  (concluded o -> fds w' = fds w) /\
  (o = Ok tt -> P -> interruptible sys_poll \/ forall d, finished d (self (FileDescriptor.kernel w'))).
Proof.
  intros Hlog Hmemory Hhung HP Hsocket Howners Hsfd.
  destruct (copy_scopes fuel socket w) as (input & output & w2 & s & Hfresh1 & Hfresh2 & Hne & Hf2 & Hk2 & Hc2 & Hmake & ->).
  destruct locals_made as (s' & Hmake' & Hstreams). rewrite Hmake in Hmake'. injection Hmake' as <-.
  set (w3 := with_locals self set_self (fun _ => s) w2).
  set (F0 := outside input output w).
  assert (HF0 : map_Forall (fun _ x => 0 <= x.2) F0).
  { unfold F0, outside. repeat apply map_Forall_insert_2; [simpl; lia..|].
    eapply map_Forall_impl; [exact Howners|]. simpl. lia. }
  assert (Hi : copying sys net self set_self sent got memory sfd (FileDescriptor.kernel w) F0 input output socket [] w3).
  { split; [|split; [by apply outside_owned|apply sublist_nil_l]].
    split; cycle 1.
    { eapply (spared_with sys net sys_poll self set_self sent got memory); [done|]. split; [congruence|]. intros fd _ _ _. by rewrite Hk2. }
    intros d. apply (flow_with sys net sys_poll); [done|]. destruct (Hstreams d) as (Hwf & Hct & _). split; [done|]. exists [].
    by rewrite Hct, Hk2, !app_nil_r. }
  assert (Hu : P -> untouched self output socket w3).
  { intros [_ [_ Hopen]]%HP d. destruct (Hstreams d) as (_ & _ & He & Hend). unfold w3. rewrite (locals_with sys net sys_poll self set_self sent got).
    split; [done|]. split; [done|]. change (closed_of (with_locals self set_self (fun _ => s) w2)) with (closed_of w2).
    rewrite Hc2. destruct d; simpl; [done|by apply closed_absent]. }
  assert (Hsi : socket <> input) by congruence. assert (Hso : socket <> output) by congruence.
  pose proof (scopes_ok sys net sys_poll self set_self sent got memory set_memory Hmemory sfd (FileDescriptor.kernel w) Hsfd F0 HF0
    input output socket n) as Hscopes.
  pose proof (Howners _ _ Hsocket) as Hn. simpl in Hn.
  specialize (Hscopes ltac:(unfold F0, outside; rewrite lookup_insert_ne by done; apply lookup_insert_eq)
    ltac:(apply lookup_insert_eq) ltac:(unfold F0; by rewrite outside_other) Hn hung P Hhung
    ltac:(intros HPP; by destruct (HP HPP) as (? & ? & _)) fuel w3 Hi Hu).
  destruct (leaving _ _ ([], w3)) as [o [rules w']]. destruct Hscopes as (H1 & [H2 Hspared] & H3 & H4).
  split; [done|]. split; [done|]. split; [done|]. split; [|done]. intros Ho. by apply (outside_released input output w w'); [..|by apply H3].
Qed.

End whole.

(** ** Properties *)

(** C23. The copy loses, repeats and reorders nothing, and leaks nothing.  However long it runs and
    however it ends, in each direction the bytes read since the start are the bytes written
    since then followed by those still in the stream; the function never reaches undefined
    behaviour; and when it returns or throws, every handle has as many owners as before, so
    that it has closed what it opened and nothing else. *)
Theorem stream_copy_no_loss {K} (sys : Kernel K) (net : SocketCalls K) sys_poll self set_self
  (sent got : K -> Z -> list byte) (Hposix : PosixKernel sys sent)
  (Hcopy : LoggedKernel sys net sys_poll self set_self sent got) (Hpoll : PosixPoll sys_poll)
  (fuel : nat) (socket sfd n : Z) (w : FileDescriptor.world)
  (Hsocket : fds w !! socket = Some (sfd, n)) (Howners : map_Forall (fun _ x => 1 <= x.2) (fds w))
  (Hsfd : sfd <> StreamCopy.STDIN_FILENO /\ sfd <> StreamCopy.STDOUT_FILENO) :
  let '(o, w') := StreamCopy.bidirectional_stream_copy sys net sys_poll self set_self fuel socket w in
  o <> Undefined /\
  (forall d, flow self sent got sfd (FileDescriptor.kernel w) d (FileDescriptor.kernel w')) /\
  (concluded o -> fds w' = fds w).
Proof.
  pose proof (stream_copy_spec sys net sys_poll self set_self sent got (fun _ => tt) (fun _ k => k) (fun _ => True) False fuel socket sfd n w) as H.
  destruct (StreamCopy.bidirectional_stream_copy _ _ _ _ _ _ _ w) as [o w'].
  destruct H as (H1 & H2 & _ & H3 & _); try done; [by eapply unit_logged|]. intros k ps t r e ps' k' _. by apply Forall_forall.
Qed.

(** ** A machine with two terminals and a socket *)

(** The calls that end an output. *)
Inductive final_call := ShutWrite (fd : Z) | Close (fd : Z).

Record console := Console {
  c_locals : StreamCopy.t;
  c_unread : gmap Z (list byte);
  c_got : gmap Z (list byte);
  c_sent : gmap Z (list byte);
  c_calls : list final_call
}.

Definition bytes_of (m : gmap Z (list byte)) (fd : Z) : list byte := default [] (m !! fd).
Definition append_to (m : gmap Z (list byte)) (fd : Z) (b : list byte) : gmap Z (list byte) :=
  <[fd := bytes_of m fd ++ b]> m.

Lemma bytes_of_append m fd b fd' :
  bytes_of (append_to m fd b) fd' = bytes_of m fd' ++ if decide (fd' = fd) then b else [].
Proof.
  unfold append_to. destruct (decide (fd' = fd)) as [->|Hne].
  - unfold bytes_of at 1. by rewrite lookup_insert_eq.
  - unfold bytes_of. rewrite lookup_insert_ne by done. by rewrite app_nil_r.
Qed.

Definition note_call (c : final_call) (k : console) : console :=
  Console (c_locals k) (c_unread k) (c_got k) (c_sent k) (c_calls k ++ [c]).

(** It reads up to a page at a time and writes up to three bytes. *)
Definition console_kernel : Kernel console := {|
  sys_read k fd n :=
    let data := ztake (Z.min 4096 n) (bytes_of (c_unread k) fd) in
    (zlen data, 0, data, Console (c_locals k) (<[fd := zdrop (Z.min 4096 n) (bytes_of (c_unread k) fd)]> (c_unread k))
       (append_to (c_got k) fd data) (c_sent k) (c_calls k));
  sys_writev k fd iov :=
    let data := ztake 3 (concat iov.*1) in
    (zlen data, 0, Console (c_locals k) (c_unread k) (c_got k) (append_to (c_sent k) fd data) (c_calls k));
  sys_close k fd := (0, 0, note_call (Close fd) k);
  sys_getfl k _ := (0, 0, k);
  sys_setfl k _ _ := (0, 0, k)
|}.

Definition console_net : SocketCalls console := {|
  sys_socket k _ _ _ := (3, 0, tt, k);
  sys_getsockopt k _ _ _ _ := (0, 0, (0, 0), k);
  sys_setsockopt k _ _ _ _ := (0, 0, tt, k);
  sys_getsockname k _ _ := (0, 0, ([], 0), k);
  sys_getpeername k _ _ := (0, 0, ([], 0), k);
  sys_bind k _ _ _ := (0, 0, tt, k);
  sys_connect k _ _ _ := (0, 0, tt, k);
  sys_shutdown k fd how := (0, 0, tt, if how =? Socket.SHUT_WR then note_call (ShutWrite fd) k else k);
  sys_listen k _ _ := (0, 0, tt, k);
  sys_accept k _ := (-1, 11, tt, k);
  sys_recvfrom k _ _ _ _ := (-1, 11, ([], ([], 0)), k);
  sys_sendmsg k _ _ _ _ _ := (-1, 11, tt, k);
  sys_open k _ _ := (3, 0, tt, k);
  sys_tunsetiff k _ _ := (0, 0, tt, k)
|}.

Definition set_locals (s : StreamCopy.t) (k : console) : console := Console s (c_unread k) (c_got k) (c_sent k) (c_calls k).
Definition console_sent (k : console) : Z -> list byte := bytes_of (c_sent k).
Definition console_got (k : console) : Z -> list byte := bytes_of (c_got k).

#[export] Instance console_posix : PosixKernel console_kernel console_sent.
Proof.
  split; simpl.
  - intros k fd iov r e k' [= <- <- <-]. pose proof (zlen_nonneg (concat iov.*1)). rewrite zlen_ztake.
    split; [lia|]. split; [lia|]. split; [lia|]. unfold console_sent. simpl. rewrite bytes_of_append, decide_True by done. f_equal.
    destruct (Z.leb_spec (zlen (concat iov.*1)) 3); [rewrite !ztake_ge; lia || done|do 2 f_equal; lia].
  - intros k fd n r e data k' Hn [= <- <- <- <-]. pose proof (zlen_nonneg (bytes_of (c_unread k) fd)).
    rewrite zlen_ztake. repeat split; lia.
Qed.

(** Everything is ready, nothing hangs up, no signal comes. *)
Definition poll_in_out {K} (k : K) (ps : list EventLoop.pollfd) (_ : Z) : Z * Z * list EventLoop.pollfd * K :=
  (zlen ps, 0, (fun p => EventLoop.Pollfd (EventLoop.p_fd p) (EventLoop.events p)
     (Z.land (EventLoop.events p) (Z.lor EventLoop.POLLIN EventLoop.POLLOUT))) <$> ps, k).

#[export] Instance poll_in_out_posix {K} : PosixPoll (@poll_in_out K).
Proof. split. intros k ps t r e ps' k' [= <- <- <- <-]. induction ps; constructor; auto. Qed.

Lemma poll_in_out_hangs {K} : reports_hangups (@poll_in_out K) (fun _ => False).
Proof.
  intros k ps t r e ps' k' [= <- <- <- <-]. apply Forall_fmap, Forall_forall. intros p _. simpl. rewrite <- Z.land_assoc.
  change (Z.land _ EventLoop.POLLHUP) with 0 at 1. by rewrite Z.land_0_r.
Qed.

Lemma poll_in_out_signal {K} : ~ interruptible (@poll_in_out K).
Proof. intros (k & ps & t & r & ps' & k' & [= <- ? <- <-] & H). Qed.

#[export] Instance console_copy :
  LoggedKernel console_kernel console_net poll_in_out c_locals set_locals console_sent console_got.
Proof.
  split; simpl; try done.
  - intros k fd n r e data k' [= <- <- <- <-]. split; [done|]. split; [done|]. intros fd'. unfold console_got. simpl.
    rewrite bytes_of_append. f_equal. destruct (decide (fd' = fd)) as [->|Hne].
    + rewrite decide_True; [done|]. split; [done|]. apply zlen_nonneg.
    + rewrite decide_False; [done|]. by intros [? _].
  - intros k fd iov r e k' [= <- <- <-]. split; [done|]. split; [|done]. intros fd' Hne. unfold console_sent. simpl.
    by rewrite bytes_of_append, decide_False, app_nil_r.
  - intros k fd how. by destruct (how =? Socket.SHUT_WR).
Qed.

(** Memory before the locals are in place. *)
Definition no_locals : StreamCopy.t :=
  StreamCopy.mk (ByteStream.mk (RingBuffer.mk 0 0 0 []) 0 0 false false)
    (ByteStream.mk (RingBuffer.mk 0 0 0 []) 0 0 false false) false false.

(** Input on the terminal and on the socket, which is descriptor 3 under handle 7. *)
Definition console_start : FileDescriptor.world :=
  FileDescriptor.World
    (Console no_locals
       {[ 0 := replicate 5 Byte.x41; 3 := replicate 8 Byte.x42 ]} ∅ ∅ [])
    {[ 7 := (FDWrapper.mk 3 false false 0 0, 1) ]}.

Lemma stream_copy_no_loss_witness :
  let '(o, w') := StreamCopy.bidirectional_stream_copy console_kernel console_net poll_in_out c_locals set_locals
                    20 7 console_start in
  o <> Undefined /\
  (forall d, flow c_locals console_sent console_got 3 (FileDescriptor.kernel console_start) d (FileDescriptor.kernel w')) /\
  (concluded o -> fds w' = fds console_start).
Proof.
  apply (stream_copy_no_loss console_kernel console_net poll_in_out c_locals set_locals console_sent console_got
    _ _ _ 20 7 3 1 console_start).
  - reflexivity.
  - change (fds console_start) with ({[ 7 := (3, 1) ]} : gmap Z (Z * Z)). apply map_Forall_singleton. simpl. lia.
  - done.
Defined.

Lemma returned {A B} (p : A * B) a : p.1 = a -> p = (a, p.2).
Proof. destruct p. by intros <-. Qed.

Lemma console_returns :
  (StreamCopy.bidirectional_stream_copy console_kernel console_net poll_in_out c_locals set_locals 10 7 console_start).1 = Ok tt.
Proof. vm_compute. reflexivity. Qed.

(** The terminal's five bytes go to the socket and the socket's eight bytes to the terminal, in
    pieces of three; after both ends of input the function returns. *)
Lemma console_copied :
  let '(o, w') := StreamCopy.bidirectional_stream_copy console_kernel console_net poll_in_out c_locals set_locals
                    10 7 console_start in
  (o, console_sent (FileDescriptor.kernel w') 3, console_sent (FileDescriptor.kernel w') 1) =
  (Ok tt, replicate 5 Byte.x41, replicate 8 Byte.x42).
Proof. vm_compute. reflexivity. Qed.
