(* ===== verification/StreamEnds.v ===== *)
(** * StreamEnds.v: the end of a stream is passed on

    [apps/bidirectional_stream_copy.cc] ends each direction with a call: [shutdown(SHUT_WR)] on the
    socket when the terminal's input is over (rule 2), [close] on the standard output when the
    socket's input is over (rule 4).  The flags [_outbound_shutdown] and [_inbound_shutdown] are
    set behind these calls; this file shows that a flag is never set without its call, and that
    both calls have been made when the copy is complete. *)

From stdpp Require Import gmap list.
From S2P Require Import Prelude Streams Buffers Addresses FileDesc EventLoop Sockets Handles StreamCopy.

(** ** The calls that end an output *)

(** Every call made before is still on record. *)
Definition recalls {K} (issued : K -> final_call -> Prop) (k k' : K) : Prop := forall c, issued k c -> issued k' c.

(** What is documented of the two calls: they return 0 when they have done what was asked, which
    goes on record, or -1 with [errno] set. *)
Class EndingKernel {K T} (sys : Kernel K) (net : SocketCalls K)
  (sys_poll : K -> list EventLoop.pollfd -> Z -> Z * Z * list EventLoop.pollfd * K)
  (set_self : T -> K -> K) (issued : K -> final_call -> Prop) : Prop := {
  recalls_set s k : recalls issued k (set_self s k);
  recalls_read k fd n : recalls issued k (sys_read sys k fd n).2;
  recalls_writev k fd iov : recalls issued k (sys_writev sys k fd iov).2;
  recalls_close k fd : recalls issued k (sys_close sys k fd).2;
  recalls_getfl k fd : recalls issued k (sys_getfl sys k fd).2;
  recalls_setfl k fd v : recalls issued k (sys_setfl sys k fd v).2;
  recalls_shutdown k fd how : recalls issued k (sys_shutdown net k fd how).2;
  recalls_poll k ps t : recalls issued k (sys_poll k ps t).2;
  close_returns k fd r e k' : sys_close sys k fd = (r, e, k') ->
    r = 0 /\ issued k' (Close fd) \/ r = -1 /\ e <> 0;
  shutdown_returns k fd r e x k' : sys_shutdown net k fd Socket.SHUT_WR = (r, e, x, k') ->
    r = 0 /\ issued k' (ShutWrite fd) \/ r = -1 /\ e <> 0
}.

Lemma Forall_sublist {A} (P : A -> Prop) l l' : l' `sublist_of` l -> Forall P l -> Forall P l'.
Proof. rewrite !Forall_forall. intros Hs H x Hx. by eapply H, elem_of_sublist. Qed.

(** ** A round of the loop *)

Section rounds.

Context {K : Type} (sys : Kernel K)
  (sys_poll : K -> list EventLoop.pollfd -> Z -> Z * Z * list EventLoop.pollfd * K).

#[local] Abbreviation W := (FileDescriptor.world (K := K)).

Context (Rel : relation W) `{!PreOrder Rel}.

Lemma respects_mono (Rel' : relation W) {A} (m : io W A) :
  (forall w w', Rel' w w' -> Rel w w') -> respects Rel' m -> respects Rel m.
Proof. intros H Hm w. apply H, Hm. Qed.

Lemma respects_gets {A} (f : W -> A) : respects Rel (gets f).
Proof. by intros w. Qed.

(** Everything a rule is made of stays within [Rel]. *)
Record tame (r : EventLoop.Rule K) : Prop := {
  tame_callback : respects Rel (EventLoop.callback r);
  tame_interest : respects Rel (EventLoop.interest r);
  tame_cancel : respects Rel (EventLoop.cancel r);
  tame_release : respects Rel (FileDescriptor.release sys (EventLoop.fd r))
}.

Hypothesis Hpoll : forall w ps t, Rel w (FileDescriptor.set_kernel (sys_poll (FileDescriptor.kernel w) ps t).2 w).

Lemma setup_rule_respects r : tame r -> respects Rel (EventLoop.setup_rule sys r).
Proof.
  intros []. unfold EventLoop.setup_rule, EventLoop.cancel_and_erase, FileDescriptor.eof, FileDescriptor.closed, FileDescriptor.fd_num.
  destruct (EventLoop.direction r); respecting; done || by intros w.
Qed.

Lemma handle_rule_respects r p : tame r -> respects Rel (EventLoop.handle_rule sys r p).
Proof.
  intros []. unfold EventLoop.handle_rule, EventLoop.cancel_and_erase, EventLoop.service_count, FileDescriptor.read_count, FileDescriptor.write_count.
  cbv zeta. destruct (EventLoop.direction r); respecting; done || by intros w.
Qed.

Lemma setup_loop_respects rules : Forall tame rules -> forall s w, Rel w (EventLoop.setup_loop sys rules s w).2.
Proof.
  induction 1 as [|r rest Hr _ IH]; intros s w; [done|]. simpl. pose proof (setup_rule_respects r Hr w) as H.
  destruct (EventLoop.setup_rule sys r w) as [[[[p asked]|]| | |] w1]; simpl in *; try done.
  - specialize (IH (s || asked) w1). destruct (EventLoop.setup_loop sys rest (s || asked) w1) as [[o rest'] w2]. by etrans.
  - etrans; [exact H|apply IH].
Qed.

Lemma dispatch_loop_respects ps rules : Forall tame rules -> forall i w, Rel w (EventLoop.dispatch_loop sys ps rules i w).2.
Proof.
  induction 1 as [|r rest Hr _ IH]; intros i w; [done|]. simpl. destruct (zget ps i) as [p|]; [|done].
  pose proof (handle_rule_respects r p Hr w) as H. specialize (IH (i + 1)).
  destruct (EventLoop.handle_rule sys r p w) as [[[]| | |] w1]; simpl in *; try done; [by etrans|].
  specialize (IH w1). destruct (EventLoop.dispatch_loop sys ps rest (i + 1) w1) as [[o rest'] w2]. by etrans.
Qed.

Lemma wait_next_event_respects t rules w : Forall tame rules ->
  let '(_, kept, w') := EventLoop.wait_next_event sys sys_poll t rules w in Forall tame kept /\ Rel w w'.
Proof.
  intros Hr. unfold EventLoop.wait_next_event, EventLoop.dispatch.
  pose proof (setup_loop_respects rules Hr false w) as H1.
  destruct (EventLoop.setup_loop sys rules false w) as [[o kept] w1] eqn:E. apply setup_loop_sublist in E. simpl in H1.
  pose proof (Forall_sublist _ _ _ E Hr) as Hk. destruct o as [[ps []]| | |]; try done.
  pose proof (Hpoll w1 ps t) as H2. destruct (sys_poll _ ps t) as [[[r e] ps'] k]. simpl in H2.
  set (w2 := FileDescriptor.set_kernel k w1) in *. assert (H3 : Rel w w2) by (by etrans).
  pose proof (dispatch_loop_respects ps' kept Hk 0 w2) as H4.
  destruct (EventLoop.dispatch_loop sys ps' kept 0 w2) as [[o' kept'] w3] eqn:Ed. apply dispatch_loop_sublist in Ed. simpl in H4.
  pose proof (Forall_sublist _ _ _ Ed Hk) as Hk'. assert (H5 : Rel w w3) by (by etrans).
  unfold SystemCall. by repeat case_match; simplify_eq/=.
Qed.

End rounds.

(** ** Code that keeps the numbers behind the handles, the locals and the record *)

Section ends.

Import StreamCopy.

Context {K : Type} (sys : Kernel K) (net : SocketCalls K)
  (sys_poll : K -> list EventLoop.pollfd -> Z -> Z * Z * list EventLoop.pollfd * K)
  (self : K -> t) (set_self : t -> K -> K) (sent got : K -> Z -> list byte) (issued : K -> final_call -> Prop)
  `{!LoggedKernel sys net sys_poll self set_self sent got} `{!EndingKernel sys net sys_poll set_self issued}.

#[local] Abbreviation W := (FileDescriptor.world (K := K)).
#[local] Abbreviation locals w := (self (FileDescriptor.kernel w)).

Record mild (w w' : W) : Prop := {
  md_number h fd n : fds w' !! h = Some (fd, n) -> exists n', fds w !! h = Some (fd, n');
  md_locals : locals w' = locals w;
  md_recalls : recalls issued (FileDescriptor.kernel w) (FileDescriptor.kernel w')
}.

#[local] Instance mild_preorder : PreOrder mild.
Proof.
  split.
  - intros w. split; [eauto|done|by intros c].
  - intros w1 w2 w3 [A1 A2 A3] [B1 B2 B3]. split; [|congruence|intros c ?; by apply B3, A3].
    intros h fd n (n' & H)%B1. by apply A1 in H.
Qed.

Lemma mild_kernel w k : self k = locals w -> recalls issued (FileDescriptor.kernel w) k -> mild w (FileDescriptor.set_kernel k w).
Proof. intros Hl Hr. split; [by eauto|done|done]. Qed.

Lemma update_mild h f : (forall x, FDWrapper._fd (f x) = FDWrapper._fd x) -> respects mild (FileDescriptor.update h f).
Proof. intros Hf w. split; [rewrite update_fds by done; eauto|done|by intros c]. Qed.

Lemma read_mild h limit : respects mild (FileDescriptor.read sys h limit).
Proof.
  unfold FileDescriptor.read, FileDescriptor.register_read. respecting; try (by apply update_mild); try (by intros w).
  intros w. pose proof (recalls_read (FileDescriptor.kernel w) (FDWrapper._fd a) (Z.min FileDescriptor.BUFFER_SIZE limit)) as Hr.
  destruct (sys_read sys _ _ _) as [[[r e] data] k] eqn:E. apply mild_kernel; [|done].
  by destruct (logged_read (self := self) _ _ _ _ _ _ _ E).
Qed.

Lemma write_mild h buffer all : respects mild (FileDescriptor.write sys h buffer all).
Proof.
  unfold FileDescriptor.write. generalize (S (length (all_bytes buffer))) as fuel. intros fuel.
  generalize 0 at 1 as total. revert buffer. induction fuel as [|fuel IH]; intros buffer total; cbn [FileDescriptor.write_loop]; [by intros w|].
  unfold FileDescriptor.register_write. respecting; try (by apply update_mild); try apply IH; try (by intros w).
  intros w. pose proof (recalls_writev (FileDescriptor.kernel w) (FDWrapper._fd a) (BufferViewList.as_iovecs buffer)) as Hr.
  destruct (sys_writev sys _ _ _) as [[r e] k] eqn:E. apply mild_kernel; [|done].
  by destruct (logged_writev (self := self) _ _ _ _ _ _ E).
Qed.

Lemma quiet_mild w k : quiet self sent got (FileDescriptor.kernel w) k -> recalls issued (FileDescriptor.kernel w) k ->
  mild w (FileDescriptor.set_kernel k w).
Proof. intros (Hl & _). by apply mild_kernel. Qed.

Lemma close_mild h : respects mild (FileDescriptor.close sys h).
Proof.
  unfold FileDescriptor.close. respecting; [|by apply update_mild]. intros w.
  pose proof (quiet_mild w _ (logged_close _ (FDWrapper._fd a)) (recalls_close _ _)) as Hm. by destruct (sys_close sys _ _) as [[r e] k].
Qed.

Lemma set_blocking_mild h b : respects mild (FileDescriptor.set_blocking sys h b).
Proof.
  unfold FileDescriptor.set_blocking. respecting; try (by intros w); intros w.
  - pose proof (quiet_mild w _ (logged_getfl _ (FDWrapper._fd a)) (recalls_getfl _ _)) as Hm. by destruct (sys_getfl sys _ _) as [[r e] k].
  - match goal with |- context [sys_setfl sys _ ?fd ?v] => pose proof (quiet_mild w _ (logged_setfl _ fd v) (recalls_setfl _ _ _)) as Hm end.
    by destruct (sys_setfl sys _ _ _) as [[r' e'] k].
Qed.

Lemma shutdown_mild h how : respects mild (Socket.shutdown net h how).
Proof.
  unfold Socket.shutdown, FileDescriptor.fd_num, FileDescriptor.register_read, FileDescriptor.register_write.
  respecting; try (by apply update_mild); try (by intros w). intros w. unfold system_call.
  pose proof (quiet_mild w _ (logged_shutdown _ a how) (recalls_shutdown _ _ _)) as Hm.
  destruct (sys_shutdown net _ _ _) as [[[r e] x] k]. by destruct (SystemCall _ _ _ _).
Qed.

(** Handles come and go; the number behind a handle stays. *)
Lemma handles_mild w hs :
  (forall h x n, hs !! h = Some (x, n) -> exists n', FileDescriptor.handles w !! h = Some (x, n')) ->
  mild w (FileDescriptor.set_handles hs w).
Proof.
  intros H. split; [|done|by intros c]. intros h fd n (x & Hx & <-)%fds_lookup. apply H in Hx as [n' Hx].
  exists n'. unfold fds. by rewrite lookup_fmap, Hx.
Qed.

Lemma count_mild h (f : Z -> Z) :
  respects mild (modify (fun w : W => FileDescriptor.set_handles (alter (fun '(x, n) => (x, f n)) h (FileDescriptor.handles w)) w)).
Proof.
  intros w. apply handles_mild. intros j x n. destruct (decide (j = h)) as [->|]; [|rewrite lookup_alter_ne by done; eauto].
  rewrite lookup_alter_eq. destruct (FileDescriptor.handles w !! h) as [[y m]|]; simpl; intros [=]; subst; eauto.
Qed.

Lemma duplicate_mild h : respects mild (FileDescriptor.duplicate h).
Proof. unfold FileDescriptor.duplicate. respecting; try (by intros w). apply (count_mild h (fun n => n + 1)). Qed.

Lemma release_mild h : respects mild (FileDescriptor.release sys h).
Proof.
  unfold FileDescriptor.release. respecting; try (by intros w).
  - apply (count_mild h (fun n => n - 1)).
  - intros w. unfold catch. pose proof (close_mild h w) as Hc. by destruct (FileDescriptor.close sys h w) as [[| | |] w'].
  - intros w. apply handles_mild. intros j x n [_ H]%lookup_delete_Some. eauto.
Qed.

(** ** A flag stands for its call *)

(** The handles of the two outputs, and the descriptor of the socket. *)
Context (socket output sfd : Z).

Definition drained_by (d : side) : Z := match d with Outbound => socket | Inbound => output end.

(** The call that passes on the end of a direction. *)
Definition passing (d : side) : final_call :=
  match d with Outbound => ShutWrite sfd | Inbound => Close STDOUT_FILENO end.

Record told (w : W) : Prop := {
  td_number d fd n : fds w !! drained_by d = Some (fd, n) -> fd = sink sfd d;
  td_shut d : is_shut d (locals w) = true -> issued (FileDescriptor.kernel w) (passing d)
}.

Definition keeps_told : relation W := fun w w' => told w -> told w'.

#[local] Instance keeps_told_preorder : PreOrder keeps_told.
Proof. split; [intros w H; exact H|]. intros w1 w2 w3 H1 H2 H. by apply H2, H1. Qed.

Lemma mild_told w w' : mild w w' -> keeps_told w w'.
Proof.
  intros [H1 H2 H3] [T1 T2]. split; [intros d fd n (n' & H)%H1; by eapply T1|]. intros d. rewrite H2. intros H. by apply H3, T2.
Qed.

Lemma mild_keeps {A} (m : io W A) : respects mild m -> respects keeps_told m.
Proof. apply respects_mono. exact mild_told. Qed.

(** Changes of the streams. *)
Lemma put_told (f : t -> t) : (forall d s, is_shut d (f s) = is_shut d s) -> respects keeps_told (put self set_self f).
Proof.
  intros Hf w [T1 T2]. split; [exact T1|]. intros d. simpl. rewrite (logged_set (self := self)), Hf. intros H. by apply recalls_set, T2.
Qed.

Lemma set_stream_shut d d' st s : is_shut d' (set_stream d st s) = is_shut d' s.
Proof. by destruct d, d'. Qed.

Lemma end_input_told d : respects keeps_told (end_input self set_self d).
Proof. apply put_told. intros d' s. apply set_stream_shut. Qed.

Lemma on_stream_told d f : respects keeps_told (on_stream self set_self d f).
Proof.
  unfold on_stream, get. respecting; [apply respects_gets; typeclasses eauto|]. apply put_told. intros. apply set_stream_shut.
Qed.

Lemma read_told h limit : respects keeps_told (FileDescriptor.read sys h limit).
Proof. apply mild_keeps, read_mild. Qed.

Lemma write_told h buffer all : respects keeps_told (FileDescriptor.write sys h buffer all).
Proof. apply mild_keeps, write_mild. Qed.

Ltac telling := repeat first
  [ apply read_told | apply write_told | apply on_stream_told | apply end_input_told
  | apply respects_gets; typeclasses eauto | respect_step ].

Lemma fill_told d h : respects keeps_told (fill_callback sys self set_self d h).
Proof.
  unfold fill_callback, get, FileDescriptor.eof. telling; intros w H; exact H.
Qed.

(** What ends an output puts its call on record. *)
Definition records (d : side) (finish : io W unit) : Prop := respects mild finish /\
  forall w w', finish w = (Ok tt, w') -> told w -> issued (FileDescriptor.kernel w') (passing d).

Lemma drain_told d h finish : records d finish -> respects keeps_told (drain_callback sys self set_self d h finish).
Proof.
  intros [Hm Hf]. unfold drain_callback, get. cbv zeta.
  do 5 (apply respects_bind; [typeclasses eauto|telling|intros ?]). destruct (ByteStream.eof _).
  - intros w Ht. unfold mbind, io_bind. specialize (Hm w). specialize (Hf w). destruct (finish w) as [[[]| | |] w1]; simpl in *;
      pose proof (mild_told _ _ Hm Ht) as [T1 T2]; try done.
    split; [exact T1|]. intros d'. simpl. rewrite (logged_set (self := self)). intros H. apply recalls_set.
    destruct (decide (d' = d)) as [->|Hd]; [by apply (Hf w1)|]. apply T2. rewrite <- H. by destruct d, d'.
  - intros w H. exact H.
Qed.

Lemma shutdown_records : records Outbound (Socket.shutdown net socket Socket.SHUT_WR).
Proof.
  split; [apply shutdown_mild|]. intros w w' H [T1 _].
  unfold Socket.shutdown, FileDescriptor.fd_num, mbind, io_bind, FileDescriptor.internal in H.
  destruct (FileDescriptor.handles w !! socket) as [[x n]|] eqn:E; [|done]. simpl in H. unfold system_call in H.
  assert (Hfd : FDWrapper._fd x = sfd) by (apply (T1 Outbound _ n); unfold fds; simpl; by rewrite lookup_fmap, E).
  rewrite Hfd in H. destruct (sys_shutdown net _ _ _) as [[[r e] u] k] eqn:Es.
  destruct (shutdown_returns _ _ _ _ _ _ Es) as [[-> Hi]|[-> He]].
  - change (SystemCall "shutdown" (s32 0) e 0) with (Ok 0 : outcome Z) in H. simpl in H. by injection H as <-.
  - unfold SystemCall in H. change (s32 (-1)) with (-1) in H. simpl in H. destruct (Z.eqb_spec e 0); done.
Qed.

Lemma close_records : records Inbound (FileDescriptor.close sys output).
Proof.
  split; [apply close_mild|]. intros w w' H [T1 _].
  unfold FileDescriptor.close, mbind, io_bind, FileDescriptor.internal in H.
  destruct (FileDescriptor.handles w !! output) as [[x n]|] eqn:E; [|done].
  assert (Hfd : FDWrapper._fd x = STDOUT_FILENO) by (apply (T1 Inbound _ n); unfold fds; simpl; by rewrite lookup_fmap, E).
  rewrite Hfd in H. destruct (sys_close sys _ _) as [[r e] k] eqn:Es.
  destruct (close_returns _ _ _ _ _ Es) as [[-> Hi]|[-> He]].
  - simpl in H. by injection H as <-.
  - unfold SystemCall, pure_ in H. simpl in H. destruct (Z.eqb_spec e 0); done.
Qed.

(** ** The whole function *)

#[local] Abbreviation ST := (list (EventLoop.Rule K) * W)%type.
#[local] Abbreviation fine := (tame sys keeps_told).

Lemma release_told h : respects keeps_told (FileDescriptor.release sys h).
Proof. apply mild_keeps, release_mild. Qed.

Lemma fill_interest_told d : respects keeps_told (fill_interest self d).
Proof. unfold fill_interest, get. telling; intros w H; exact H. Qed.

Lemma drain_interest_told d : respects keeps_told (drain_interest self d).
Proof. unfold drain_interest, get. telling; intros w H; exact H. Qed.

Lemma rules_fine input : Forall fine
  [rule_1 sys self set_self input; rule_2 sys net self set_self socket;
   rule_3 sys self set_self socket; rule_4 sys self set_self output].
Proof.
  assert (H : forall r, respects keeps_told (EventLoop.callback r) -> respects keeps_told (EventLoop.interest r) ->
    (exists d, EventLoop.cancel r = end_input self set_self d) -> fine r).
  { intros r H1 H2 [d H3]. split; [done|done|rewrite H3; apply end_input_told|apply release_told]. }
  repeat (apply Forall_cons_2; [apply H; [|apply fill_interest_told || apply drain_interest_told|by eexists]|]).
  - apply fill_told.
  - apply drain_told, shutdown_records.
  - apply fill_told.
  - apply drain_told, close_records.
  - constructor.
Qed.

(** Code on the rules and the world that keeps the rules fine and the world told. *)
Definition keeping {A} (m : io ST A) : Prop := forall rules w, Forall fine rules -> told w ->
  let '(_, (rules', w')) := m (rules, w) in Forall fine rules' /\ told w'.

Lemma keeping_bind {A B} (m : io ST A) (k : A -> io ST B) : keeping m -> (forall a, keeping (k a)) -> keeping (m ≫= k).
Proof.
  intros Hm Hk rules w Hr Ht. specialize (Hm rules w Hr Ht). unfold mbind, io_bind.
  destruct (m (rules, w)) as [[a| | |] [rules' w']]; try done. destruct Hm. by apply Hk.
Qed.

Lemma keeping_machine {A} (m : io W A) : respects keeps_told m -> keeping (machine m).
Proof. intros Hm rules w Hr Ht. specialize (Hm w Ht). unfold machine. by destruct (m w) as [o w']. Qed.

Lemma keeping_add_rule r : fine r -> keeping (add_rule r).
Proof.
  intros Hf rules w Hr Ht. unfold add_rule, EventLoop.add_rule, mbind, io_bind.
  pose proof (mild_told _ _ (duplicate_mild (EventLoop.fd r) w) Ht) as Hd.
  assert (Hh : forall h w', FileDescriptor.duplicate (EventLoop.fd r) w = (Ok h, w') -> h = EventLoop.fd r).
  { intros h w'. unfold FileDescriptor.duplicate, mbind, io_bind. destruct (FileDescriptor.internal _ w) as [[x| | |] ?]; try done.
    by intros [= <- _]. }
  destruct (FileDescriptor.duplicate (EventLoop.fd r) w) as [[h| | |] w']; try done.
  rewrite (Hh h w' eq_refl). split; [|done]. apply Forall_app. split; [done|]. apply Forall_singleton. by destruct r.
Qed.

Lemma keeping_round : keeping (wait_next_event sys sys_poll).
Proof.
  intros rules w Hr Ht. unfold wait_next_event.
  pose proof (wait_next_event_respects sys sys_poll keeps_told) as H.
  specialize (H ltac:(intros w1 ps t; apply mild_told, quiet_mild; [apply logged_poll|apply recalls_poll]) (-1) rules w Hr).
  destruct (EventLoop.wait_next_event sys sys_poll (-1) rules w) as [[o kept] w']. destruct H as [Hk Hw]. split; [done|by apply Hw].
Qed.

Lemma keeping_loop fuel : keeping (copy_loop sys sys_poll fuel).
Proof.
  induction fuel as [|fuel IH]; [by intros rules w|]. cbn [copy_loop]. apply keeping_bind; [exact keeping_round|].
  intros []; [exact IH|exact IH|by intros rules w].
Qed.

Lemma keeping_body fuel input : keeping (copy_body sys net sys_poll self set_self fuel socket input output).
Proof.
  pose proof (rules_fine input) as Hf. rewrite !Forall_cons in Hf. destruct Hf as (H1 & H2 & H3 & H4 & _).
  unfold copy_body. repeat (apply keeping_bind; [|intros _]); try (by apply keeping_add_rule); try apply keeping_loop;
    apply keeping_machine, mild_keeps, set_blocking_mild.
Qed.

Lemma keeping_leaving {A} (cleanup : io ST unit) (m : io ST A) : keeping cleanup -> keeping m -> keeping (leaving cleanup m).
Proof.
  intros Hc Hm rules w Hr Ht. specialize (Hm rules w Hr Ht). unfold leaving.
  destruct (m (rules, w)) as [[a|e| |] [rules' w']]; try done; destruct Hm as [Hr' Ht'];
    eapply (keeping_bind cleanup); try done; intros _ rules1 w1 ? ?; done.
Qed.

Lemma keeping_destroy : keeping (destroy_loop sys).
Proof.
  intros rules w Hr Ht. unfold destroy_loop. assert (H : told (release_rules sys rules w).2).
  { revert w Ht. induction Hr as [|r rest H _ IH]; intros w Ht; [done|]. cbn [release_rules]. unfold mbind, io_bind.
    pose proof (tame_release _ _ _ H w Ht) as H1. destruct (FileDescriptor.release sys _ w) as [[| | |] w1]; try done. by apply IH. }
  by destruct (release_rules sys rules w) as [o w'].
Qed.

Lemma keeping_scopes fuel input : keeping (leaving (destroy_loop sys)
  (leaving (machine (FileDescriptor.release sys input)) (leaving (machine (FileDescriptor.release sys output))
    (copy_body sys net sys_poll self set_self fuel socket input output)))).
Proof.
  apply keeping_leaving; [exact keeping_destroy|]. apply keeping_leaving; [apply keeping_machine, release_told|].
  apply keeping_leaving; [apply keeping_machine, release_told|]. apply keeping_body.
Qed.

End ends.

(** However the function ends, a flag that is set stands for a call that was made. *)
Lemma flags_stand_for_calls {K} (sys : Kernel K) (net : SocketCalls K) sys_poll self set_self sent got issued :
  LoggedKernel sys net sys_poll self set_self sent got -> EndingKernel sys net sys_poll set_self issued ->
  forall fuel socket sfd n (w : FileDescriptor.world), fds w !! socket = Some (sfd, n) ->
  let '(_, w') := StreamCopy.bidirectional_stream_copy sys net sys_poll self set_self fuel socket w in
  forall d, StreamCopy.is_shut d (self (FileDescriptor.kernel w')) = true -> issued (FileDescriptor.kernel w') (passing sfd d).
Proof.
  intros Hlog Hend fuel socket sfd n w Hsocket.
  destruct (copy_scopes sys net sys_poll self set_self fuel socket w) as
    (input & output & w2 & s & Hi & Ho & Hne & Hf & _ & _ & Hmake & ->).
  pose proof (keeping_scopes sys net sys_poll self set_self sent got issued socket output sfd fuel input []
    (with_locals self set_self (fun _ => s) w2)) as H.
  destruct (StreamCopy.leaving _ _ ([], _)) as [o [rules w']]. apply H; [constructor|]. split.
  - intros d fd m. change (fds (with_locals self set_self (fun _ => s) w2)) with (fds w2). rewrite Hf.
    destruct d; simpl; [|rewrite lookup_insert_eq; by intros [= <- _]].
    rewrite !lookup_insert_ne by congruence. rewrite Hsocket. by intros [= <- _].
  - intros d. rewrite (locals_with sys net sys_poll self set_self sent got). unfold StreamCopy.make in Hmake. inv_ok. subst s. by destruct d.
Qed.

(** ** Property *)

(** C24. The copy is complete and passes the ends on.  However long [bidirectional_stream_copy] runs
    and however it ends, a direction is marked as shut down only after its call was made and
    returned 0: [shutdown(SHUT_WR)] on the socket, [close] on the standard output.  When it
    returns, then in each direction the input has ended, exactly the bytes read were written,
    none is left behind, the direction is marked and its call was made; this holds when the
    socket was open at the start, [poll] is not interrupted by a signal, and neither the socket
    nor the standard output is reported as hung up. *)
Theorem stream_copy_complete {K} (sys : Kernel K) (net : SocketCalls K) sys_poll self set_self
  (sent got : K -> Z -> list byte) (issued : K -> final_call -> Prop) (Hposix : PosixKernel sys sent)
  (Hcopy : LoggedKernel sys net sys_poll self set_self sent got) (Hpoll : PosixPoll sys_poll)
  (Hends : EndingKernel sys net sys_poll set_self issued) (hung : Z -> Prop) (Hhung : reports_hangups sys_poll hung)
  (fuel : nat) (socket sfd n : Z) (w : FileDescriptor.world)
  (Hsocket : fds w !! socket = Some (sfd, n)) (Howners : map_Forall (fun _ x => 1 <= x.2) (fds w))
  (Hsfd : sfd <> StreamCopy.STDIN_FILENO /\ sfd <> StreamCopy.STDOUT_FILENO) :
  let '(o, w') := StreamCopy.bidirectional_stream_copy sys net sys_poll self set_self fuel socket w in
  (forall d, StreamCopy.is_shut d (self (FileDescriptor.kernel w')) = true -> issued (FileDescriptor.kernel w') (passing sfd d)) /\
  (o = Ok tt -> closed_of w socket = false -> ~ interruptible sys_poll -> ~ hung sfd -> ~ hung StreamCopy.STDOUT_FILENO ->
   forall d, StreamCopy.is_shut d (self (FileDescriptor.kernel w')) = true /\
     issued (FileDescriptor.kernel w') (passing sfd d) /\
     ByteStream.input_ended (StreamCopy.stream d (self (FileDescriptor.kernel w'))) = true /\
     exists copied,
       got (FileDescriptor.kernel w') (source sfd d) = got (FileDescriptor.kernel w) (source sfd d) ++ copied /\
       sent (FileDescriptor.kernel w') (sink sfd d) = sent (FileDescriptor.kernel w) (sink sfd d) ++ copied).
Proof.
  pose proof (stream_copy_spec sys net sys_poll self set_self sent got (fun _ => tt) (fun _ k => k) hung
    (~ hung sfd /\ ~ hung StreamCopy.STDOUT_FILENO /\ closed_of w socket = false) fuel socket sfd n w) as H.
  pose proof (flags_stand_for_calls sys net sys_poll self set_self sent got issued Hcopy Hends fuel socket sfd n w Hsocket) as Hcalls.
  destruct (StreamCopy.bidirectional_stream_copy _ _ _ _ _ _ _ w) as [o w']. split; [exact Hcalls|].
  intros -> Hopen Hsignal Hup Hup' d. destruct H as (_ & Hflow & _ & _ & Hdone); try tauto; [by eapply unit_logged|].
  destruct (Hdone eq_refl) as [|Hfin]; [tauto|done|]. destruct (Hfin d) as (Hc & Hi & Hs), (Hflow d) as (_ & x & Hg & Hx).
  split; [done|]. split; [by apply Hcalls|]. split; [done|]. exists x. rewrite Hc, app_nil_r in Hg. done.
Qed.

(** The console of StreamCopy.v keeps a list of the calls. *)
Definition console_issued (k : console) (c : final_call) : Prop := c ∈ c_calls k.

#[export] Instance console_ends : EndingKernel console_kernel console_net poll_in_out set_locals console_issued.
Proof.
  split; unfold recalls, console_issued; simpl; try done.
  - intros k fd c H. apply elem_of_app. by left.
  - intros k fd how c H. destruct (how =? Socket.SHUT_WR); [|done]. apply elem_of_app. by left.
  - intros k fd r e k' [= <- _ <-]. left. split; [done|]. simpl. set_solver.
  - intros k fd r e x k' [= <- _ _ <-]. left. split; [done|]. simpl. set_solver.
Qed.

Lemma stream_copy_complete_witness :
  (StreamCopy.bidirectional_stream_copy console_kernel console_net poll_in_out c_locals set_locals 10 7 console_start).1 = Ok tt /\
  let w' := (StreamCopy.bidirectional_stream_copy console_kernel console_net poll_in_out c_locals set_locals 10 7 console_start).2 in
  forall d, console_issued (FileDescriptor.kernel w') (passing 3 d) /\
    exists copied,
      console_got (FileDescriptor.kernel w') (source 3 d) = console_got (FileDescriptor.kernel console_start) (source 3 d) ++ copied /\
      console_sent (FileDescriptor.kernel w') (sink 3 d) = console_sent (FileDescriptor.kernel console_start) (sink 3 d) ++ copied.
Proof.
  split; [exact console_returns|].
  pose proof (stream_copy_complete console_kernel console_net poll_in_out c_locals set_locals console_sent console_got console_issued
    _ _ _ _ (fun _ => False) poll_in_out_hangs 10 7 3 1 console_start) as H.
  rewrite (returned _ _ console_returns) in H. destruct H as [_ H].
  - reflexivity.
  - change (fds console_start) with ({[ 7 := (3, 1) ]} : gmap Z (Z * Z)). apply map_Forall_singleton. simpl. lia.
  - done.
  - intros w' d. destruct (H eq_refl eq_refl poll_in_out_signal (fun x => x) (fun x => x) d) as (_ & H1 & _ & H2). exact (conj H1 H2).
Defined.

(** The calls after three, four and ten rounds: each end is passed on as soon as its direction is
    through, once, while the loop still runs; the rest is the destructor of the input's handle. *)
Lemma console_calls :
  (fun fuel => let '(o, w') := StreamCopy.bidirectional_stream_copy console_kernel console_net poll_in_out c_locals set_locals
                               fuel 7 console_start in
     (o, c_calls (FileDescriptor.kernel w'))) <$> [3; 4; 10]%nat =
  [(OutOfFuel, [ShutWrite 3]); (OutOfFuel, [ShutWrite 3; Close 1]); (Ok tt, [ShutWrite 3; Close 1; Close 0])].
Proof. vm_compute. reflexivity. Qed.
