(* ===== verification/Bouncer.v ===== *)
(** * Bouncer.v: the relay for hosts behind address translators

    Models [apps/bouncer.cc]: the program opens a UDP socket on every port from 1024 to 64001,
    joins them in pairs of an even port and the next one, and passes every datagram that arrives
    on one socket of a pair to the last host heard from on the other.  The vectors of
    [program_body] are shared by the callbacks: [self] and [set_self] read and write them in the
    state of the machine, [K].  The elements of the vectors are referred to by their index; the
    vectors are reserved so that their elements never move. *)

From stdpp Require Import gmap list pretty.
From S2P Require Import Prelude Buffers Addresses FileDesc EventLoop Sockets Handles StreamCopy.

Module Bouncer.

(** The vectors [sockets] and [peers]. *)
Record t := mk {
  sockets : list Z;
  peers : list (option Address.t)
}.

Definition RESERVED : Z := 66000.

(** The default argument of [UDPSocket::recv]. *)
Definition MTU : Z := 65536.

Section bouncer.

Context {K : Type} (sys : Kernel K) (net : SocketCalls K)
  (sys_poll : K -> list EventLoop.pollfd -> Z -> Z * Z * list EventLoop.pollfd * K)
  (R : Address.Resolver) (self : K -> t) (set_self : t -> K -> K).

#[local] Abbreviation W := (FileDescriptor.world (K := K)).
#[local] Abbreviation ST := (list (EventLoop.Rule K) * W)%type.

Definition get : io W t := gets (fun w => self (FileDescriptor.kernel w)).
Definition put (f : t -> t) : io W unit := modify (fun w =>
  FileDescriptor.set_kernel (set_self (f (self (FileDescriptor.kernel w))) (FileDescriptor.kernel w)) w).

(** [optional<Address> &x_peer]. *)
Definition peer (i : Z) : io W (option Address.t) :=
  v ← get; match zget (peers v) i with Some p => mret p | None => pure_ Undefined end.
Definition set_peer (i : Z) (a : Address.t) : io W unit :=
  put (fun v => mk (sockets v) (<[Z.to_nat i := Some a]> (peers v))).

(** [not x_peer.has_value() or x_peer.value() != source_address]. *)
Definition is_new (x_peer : option Address.t) (source_address : Address.t) : bool :=
  match x_peer with Some a => negb (Address.eqb a source_address) | None => true end.

(** What is printed about a new address. *)
Definition report (x x_peer : Z) : io W unit :=
  a ← Socket.local_address net x;
  _ ← pure_ (Address.to_string R a);
  p ← peer x_peer;
  match p with
  | Some p => _ ← pure_ (Address.to_string R p); mret tt
  | None => pure_ (Throw bad_optional_access)
  end.

(** The callback of the rule for the socket [x], whose partner is [y]. *)
Definition relay (x y x_peer y_peer : Z) : io W unit :=
  rec ← UDPSocket.recv net x MTU;
  p ← peer x_peer;
  _ ← (if is_new p (UDPSocket.source_address rec)
       then _ ← set_peer x_peer (UDPSocket.source_address rec); report x x_peer
       else mret tt);
  q ← peer y_peer;
  match q with
  | Some q =>
      if bool_decide (UDPSocket.payload rec = []) then mret tt
      else UDPSocket.sendto net y q (BufferViewList.of_string (UDPSocket.payload rec))
  | None => mret tt
  end.

Definition relay_rule (x y x_peer y_peer : Z) : EventLoop.Rule K :=
  EventLoop.mkRule x EventLoop.In (relay x y x_peer y_peer) (mret true) (mret tt).

(** [sockets.emplace_back()] and [peers.emplace_back()]; beyond the room reserved the elements
    would move away from under the references the callbacks hold. *)
Definition emplace_socket : io W unit :=
  v ← get;
  if zlen (sockets v) <? RESERVED
  then h ← UDPSocket.make net; put (fun v => mk (sockets v ++ [h]) (peers v))
  else pure_ Undefined.
Definition emplace_peer : io W unit :=
  v ← get;
  if zlen (peers v) <? RESERVED
  then put (fun v => mk (sockets v) (peers v ++ [None]))
  else pure_ Undefined.

(** [sockets.at(i)] and [peers.at(i)]. *)
Definition at_index {A} (l : list A) (i : Z) : outcome A :=
  match zget l i with Some a => Ok a | None => Throw (out_of_range "vector::_M_range_check") end.

Definition bind_port (h port : Z) : io W unit :=
  a ← pure_ (Address.of_ip R "0" port);
  Socket.bind net h a.

(** The body of the loop over the ports: the sockets, and then their rules. *)
Definition open_sockets (lower_port : Z) : io W (Z * Z * Z * Z) :=
  _ ← emplace_socket;
  _ ← emplace_socket;
  _ ← emplace_peer;
  _ ← emplace_peer;
  v ← get;
  x ← pure_ (at_index (sockets v) (u64 (zlen (sockets v) - 2)));
  y ← pure_ (at_index (sockets v) (u64 (zlen (sockets v) - 1)));
  let x_peer := u64 (zlen (peers v) - 2) in
  let y_peer := u64 (zlen (peers v) - 1) in
  _ ← pure_ (at_index (peers v) x_peer);
  _ ← pure_ (at_index (peers v) y_peer);
  _ ← bind_port x lower_port;
  _ ← bind_port y (u16 (lower_port + 1));
  mret (x, y, x_peer, y_peer).

Definition open_pair (lower_port : Z) : io ST unit :=
  '(x, y, x_peer, y_peer) ← StreamCopy.machine (open_sockets lower_port);
  _ ← StreamCopy.add_rule (relay_rule x y x_peer y_peer);
  StreamCopy.add_rule (relay_rule y x y_peer x_peer).

(** [for (uint16_t lower_port = 1024; lower_port <= 64000; lower_port += 2)]. *)
Fixpoint open_ports (fuel : nat) (lower_port : Z) : io ST unit :=
  if lower_port <=? 64000 then
    match fuel with
    | O => pure_ OutOfFuel
    | S fuel => _ ← open_pair lower_port; open_ports fuel (u16 (lower_port + 2))
    end
  else mret tt.

Definition PAIRS : nat := Z.to_nat 31489.

(** [while (EventLoop::Result::Exit != loop.wait_next_event(-1))], for at most [fuel] rounds. *)
Fixpoint relay_rounds (fuel : nat) : io ST unit :=
  match fuel with
  | O => pure_ OutOfFuel
  | S fuel =>
      r ← StreamCopy.wait_next_event sys sys_poll;
      match r with
      | EventLoop.Exit => mret tt
      | _ => relay_rounds fuel
      end
  end.

(** The destructor of the vector of sockets. *)
Fixpoint release_all (hs : list Z) : io W unit :=
  match hs with
  | [] => mret tt
  | h :: hs => _ ← FileDescriptor.release sys h; release_all hs
  end.

Definition destroy_sockets : io W unit := v ← get; release_all (sockets v).

Definition program_body (fuel : nat) : io W unit := fun w =>
  let run : io ST unit :=
    StreamCopy.leaving (StreamCopy.destroy_loop sys) (
      _ ← StreamCopy.machine (put (fun _ => mk [] []));
      StreamCopy.leaving (StreamCopy.machine destroy_sockets) (
        _ ← open_ports PAIRS 1024;
        relay_rounds fuel)) in
  let '(o, (_, w)) := run ([], w) in (o, w).

(** [main]: the exit status. *)
Definition main (fuel : nat) : io W Z :=
  catch (_ ← program_body fuel; mret 0) (fun _ => mret 1).

End bouncer.

End Bouncer.

(** ** What the program is for

    The events a bouncer causes or sees at its sockets, each with the descriptor. *)
Inductive event :=
  | Bound (fd : Z) (a : Address.t)
  | Got (fd : Z) (source : Address.t) (payload : list byte)
  | Sent (fd : Z) (destination : Address.t) (payload : list byte).

(** The other socket of a pair. *)
Fixpoint partner (pairs : list (Z * Z)) (fd : Z) : option Z :=
  match pairs with
  | [] => None
  | (x, y) :: pairs => if decide (fd = x) then Some y else if decide (fd = y) then Some x else partner pairs fd
  end.

(** A datagram goes to the last host heard from on the other socket, if there is one and the
    datagram is not empty. *)
Definition bounce (pairs : list (Z * Z)) (known : gmap Z Address.t) (fd : Z) (payload : list byte) : list event :=
  match partner pairs fd with
  | Some fd' =>
      match known !! fd' with
      | Some a => if bool_decide (payload = []) then [] else [Sent fd' a payload]
      | None => []
      end
  | None => []
  end.

(** The events of a bouncer that gets these datagrams. *)
Fixpoint transcript (pairs : list (Z * Z)) (known : gmap Z Address.t) (mails : list (Z * Address.t * list byte)) : list event :=
  match mails with
  | [] => []
  | (fd, source, payload) :: mails =>
      let known := <[fd := source]> known in
      Got fd source payload :: bounce pairs known fd payload ++ transcript pairs known mails
  end.

Definition mails_of (events : list event) : list (Z * Address.t * list byte) :=
  omap (fun e => match e with Got fd source payload => Some (fd, source, payload) | _ => None end) events.

Fixpoint learned (known : gmap Z Address.t) (mails : list (Z * Address.t * list byte)) : gmap Z Address.t :=
  match mails with
  | [] => known
  | (fd, source, _) :: mails => learned (<[fd := source]> known) mails
  end.

Lemma transcript_snoc pairs known mails fd source payload :
  transcript pairs known (mails ++ [(fd, source, payload)]) =
  transcript pairs known mails ++ Got fd source payload ::
    bounce pairs (<[fd := source]> (learned known mails)) fd payload.
Proof.
  revert known. induction mails as [|[[fd' a] p] mails IH]; intros known; simpl; [by rewrite app_nil_r|].
  by rewrite IH, <- app_assoc.
Qed.

Lemma learned_snoc known mails fd source payload :
  learned known (mails ++ [(fd, source, payload)]) = <[fd := source]> (learned known mails).
Proof. revert known. induction mails as [|[[fd' a] p] mails IH]; intros known; simpl; auto. Qed.

Lemma mails_of_app l k : mails_of (l ++ k) = mails_of l ++ mails_of k.
Proof. apply omap_app. Qed.

Lemma bounce_mails pairs known fd payload : mails_of (bounce pairs known fd payload) = [].
Proof. unfold bounce. by repeat case_match. Qed.

Lemma transcript_mails pairs known mails : mails_of (transcript pairs known mails) = mails.
Proof.
  revert known. induction mails as [|[[fd a] p] mails IH]; intros known; [done|]. cbn [transcript].
  change (mails_of (?e :: ?l)) with (mails_of [e] ++ mails_of l). rewrite mails_of_app, bounce_mails, IH. done.
Qed.

(** ** What is documented of the machine

    [log k] are the events so far, [opened k fd] says that the descriptor is in use.  A
    datagram has at most 65507 bytes; no call touches the program's vectors. *)
Definition no_mail {K} (self : K -> Bouncer.t) (log : K -> list event) (k k' : K) : Prop :=
  self k' = self k /\ log k' = log k.

Class MailKernel {K} (sys : Kernel K) (net : SocketCalls K)
  (sys_poll : K -> list EventLoop.pollfd -> Z -> Z * Z * list EventLoop.pollfd * K)
  (self : K -> Bouncer.t) (set_self : Bouncer.t -> K -> K) (log : K -> list event) (opened : K -> Z -> Prop) : Prop := {
  ml_set v k : self (set_self v k) = v;
  ml_set_log v k : log (set_self v k) = log k;
  ml_set_opened v k fd : opened (set_self v k) fd <-> opened k fd;
  ml_socket k d t p r e x k' : sys_socket net k d t p = (r, e, x, k') ->
    no_mail self log k k' /\ -1 <= r < two31 /\ (r = -1 -> e <> 0 /\ forall fd, opened k' fd <-> opened k fd) /\
    (0 <= r -> ~ opened k r /\ forall fd, opened k' fd <-> fd = r \/ opened k fd);
  ml_bind k fd a n r e x k' : sys_bind net k fd a n = (r, e, x, k') ->
    self k' = self k /\ -1 <= r < two31 /\ (r = -1 -> e <> 0) /\ (forall fd, opened k' fd <-> opened k fd) /\
    log k' = log k ++ if 0 <=? r then [Bound fd (Address.mk n a)] else [];
  ml_recvfrom k fd r e data addr n k' :
    sys_recvfrom net k fd Bouncer.MTU Socket.MSG_TRUNC Address.STORAGE_SIZE = (r, e, (data, (addr, n)), k') ->
    self k' = self k /\
    (r = -1 /\ e <> 0 /\ log k' = log k \/
     exists a, 0 <= r <= 65507 /\ zlen data = r /\ Address.of_sockaddr addr n = Ok a /\ log k' = log k ++ [Got fd a data]);
  ml_sendmsg k fd a n iov r e x k' : sys_sendmsg net k fd (Some a) n iov 0 = (r, e, x, k') ->
    self k' = self k /\ -1 <= r < two31 /\
    log k' = log k ++ if 0 <=? r then [Sent fd (Address.mk n a) (concat iov.*1)] else [];
  ml_getsockname k fd n r e addr len k' : sys_getsockname net k fd n = (r, e, (addr, len), k') ->
    no_mail self log k k' /\ len <= zlen addr;
  ml_close k fd : no_mail self log k (sys_close sys k fd).2;
  ml_poll k ps t : no_mail self log k (sys_poll k ps t).2
}.

(** An address that came from the kernel. *)
Definition proper (a : Address.t) : Prop := exists addr n, Address.of_sockaddr addr n = Ok a.

Lemma proper_eqb a b : proper a -> proper b -> Address.eqb a b = true -> a = b.
Proof.
  assert (Hp : forall x, proper x -> Address._address x = ztake (Address._size x) (Address._address x) ++
    replicate (Z.to_nat (Address.STORAGE_SIZE - Address._size x)) Byte.x00).
  { intros x (addr & n & Hx). unfold Address.of_sockaddr in Hx. destruct (_ <? n); [done|].
    destruct (Z.ltb_spec (zlen addr) n); [done|]. injection Hx as <-. simpl. f_equal.
    destruct (Z.leb_spec n 0); [by rewrite !ztake_le0 by done|]. rewrite ztake_app_exact; [done|]. rewrite zlen_ztake. lia. }
  intros Ha Hb. unfold Address.eqb. destruct (Z.eqb_spec (Address._size a) (Address._size b)) as [Es|]; [|done]. simpl.
  intros E%bool_decide_eq_true. destruct a as [n1 a1], b as [n2 b2]. simpl in *. subst n2. f_equal.
  apply Hp in Ha, Hb. simpl in *. rewrite Ha, Hb. by rewrite E.
Qed.

Section relay.

Import Bouncer.

Context {K : Type} (sys : Kernel K) (net : SocketCalls K)
  (sys_poll : K -> list EventLoop.pollfd -> Z -> Z * Z * list EventLoop.pollfd * K)
  (R : Address.Resolver) (self : K -> t) (set_self : t -> K -> K) (log : K -> list event) (opened : K -> Z -> Prop)
  `{!MailKernel sys net sys_poll self set_self log opened}.

#[local] Abbreviation W := (FileDescriptor.world (K := K)).
#[local] Abbreviation vectors w := (self (FileDescriptor.kernel w)).
#[local] Abbreviation log_at w := (log (FileDescriptor.kernel w)).

(** ** One datagram *)

(** The events happened; the descriptors and the vectors are as before. *)
Definition happened (events : list event) (w w' : W) : Prop :=
  fds w' = fds w /\ vectors w' = vectors w /\ log_at w' = log_at w ++ events.

Lemma happened_trans l k w1 w2 w3 : happened l w1 w2 -> happened k w2 w3 -> happened (l ++ k) w1 w3.
Proof. intros (A1 & A2 & A3) (B1 & B2 & B3). split_and!; [congruence..|]. by rewrite B3, A3, <- app_assoc. Qed.

Lemma happened_none w k : no_mail self log (FileDescriptor.kernel w) k -> happened [] w (FileDescriptor.set_kernel k w).
Proof. intros [H1 H2]. split_and!; [done..|]. by rewrite app_nil_r. Qed.

Lemma update_happened h f w : (forall x, FDWrapper._fd (f x) = FDWrapper._fd x) ->
  happened [] w (FileDescriptor.update h f w).2.
Proof. intros Hf. split_and!; [by apply update_fds|done|]. by rewrite app_nil_r. Qed.

Lemma wp_register_read h (Q : unit -> W -> Prop) (E : W -> Prop) w :
  (forall w', happened [] w w' -> Q tt w') -> wp (FileDescriptor.register_read h) Q E w.
Proof. intros HQ. apply HQ. by apply (update_happened h FDWrapper.count_read). Qed.

Lemma wp_register_write h (Q : unit -> W -> Prop) (E : W -> Prop) w :
  (forall w', happened [] w w' -> Q tt w') -> wp (FileDescriptor.register_write h) Q E w.
Proof. intros HQ. apply HQ. by apply (update_happened h FDWrapper.count_write). Qed.

(** A call whose result is a small [int]: it succeeds or throws with its [errno]. *)
Lemma wp_system_call {X} s (f : K -> Z * Z * X * K) (Q : Z * X -> W -> Prop) (E : W -> Prop) w :
  (forall r e x k, f (FileDescriptor.kernel w) = (r, e, x, k) ->
     -1 <= r < two31 /\ (r = -1 -> e <> 0) /\ (0 <= r -> Q (r, x) (FileDescriptor.set_kernel k w)) /\
     (r = -1 -> E (FileDescriptor.set_kernel k w))) ->
  wp (system_call s f) Q E w.
Proof.
  intros Hf. unfold wp, system_call. destruct (f _) as [[[r e] x] k]. destruct (Hf _ _ _ _ eq_refl) as (Hr & He & HQ & HE).
  rewrite s32_id by lia. unfold SystemCall. destruct (Z.leb_spec 0 r); [by apply HQ|]. simpl. assert (r = -1) as -> by lia.
  destruct (Z.eqb_spec e 0) as [->|]; [by destruct (He eq_refl)|]. by apply HE.
Qed.

Lemma resized (data : list byte) r : zlen data = r -> r <= MTU -> str_resize (str_resize (ztake MTU data) MTU) r = data.
Proof.
  intros <- Hr. pose proof (zlen_nonneg data). rewrite (ztake_ge MTU) by done. unfold str_resize.
  rewrite (ztake_ge MTU) by done. rewrite ztake_app_exact by done.
  replace (Z.to_nat (zlen data - zlen (data ++ _))) with 0%nat by (rewrite zlen_app; lia). simpl. apply app_nil_r.
Qed.

Lemma recv_wp h fd n w : fds w !! h = Some (fd, n) ->
  wp (UDPSocket.recv net h MTU) (fun rec w' => proper (UDPSocket.source_address rec) /\ zlen (UDPSocket.payload rec) <= 65507 /\
      happened [Got fd (UDPSocket.source_address rec) (UDPSocket.payload rec)] w w') (happened [] w) w.
Proof.
  intros Hh. unfold UDPSocket.recv. apply wp_bind. eapply wp_fd_num; [done|]. apply wp_bind, wp_system_call.
  intros r e [data [addr len]] k Hr. destruct (ml_recvfrom _ _ _ _ _ _ _ _ Hr) as (Hs & Hcase).
  split; [destruct Hcase as [(-> & _)|(a & ? & _)]; lia|]. split; [destruct Hcase as [(-> & ? & _)|(a & ? & _)]; [done|lia]|].
  split; intros Hr0.
  2:{ destruct Hcase as [(_ & _ & Hl)|(a & ? & _)]; [|lia]. by apply happened_none. }
  destruct Hcase as [(-> & _)|(a & Hr1 & Hd & Ha & Hl)]; [lia|]. change (s64 MTU) with MTU.
  destruct (Z.ltb_spec MTU r); [unfold MTU in *; lia|]. apply wp_bind, wp_register_read. intros w1 H1.
  apply wp_bind. rewrite Ha. apply (wp_ret a). destruct (Z.ltb_spec r 0); [lia|]. apply wp_ret. simpl.
  rewrite resized by (unfold MTU in *; lia). split; [by eexists _, _|]. split; [lia|].
  destruct H1 as (A1 & A2 & A3). split_and!; [done|by rewrite A2|]. by rewrite A3, app_nil_r.
Qed.

Lemma sendto_wp h fd n a data w : fds w !! h = Some (fd, n) -> zlen data <= 65507 ->
  wp (UDPSocket.sendto net h a (BufferViewList.of_string data)) (fun _ => happened [Sent fd a data] w)
    (fun w' => happened [] w w' \/ happened [Sent fd a data] w w') w.
Proof.
  intros Hh Hd. unfold UDPSocket.sendto, UDPSocket.sendmsg_helper. apply wp_bind. eapply wp_fd_num; [done|]. apply wp_bind, wp_bind.
  unfold wp at 1, system_call. destruct (sys_sendmsg net _ _ _ _ _ _) as [[[r e] x] k] eqn:Es.
  destruct (ml_sendmsg _ _ _ _ _ _ _ _ _ Es) as (Hs & Hr & Hl). rewrite as_iovecs_bytes in Hl.
  assert (Hbytes : all_bytes (BufferViewList.of_string data) = data) by apply app_nil_r.
  rewrite Hbytes in Hl. rewrite s32_id by lia. destruct a as [size bytes]. simpl in Hl.
  assert (Hh1 : happened (if 0 <=? r then [Sent fd (Address.mk size bytes) data] else []) w (FileDescriptor.set_kernel k w)) by (by split_and!).
  assert (Hsize : BufferViewList.size (BufferViewList.of_string data) = zlen data).
  { unfold BufferViewList.size, BufferViewList.of_string. simpl. pose proof (zlen_nonneg data). rewrite !u64_small; lia. }
  unfold SystemCall. destruct (Z.leb_spec 0 r) as [H0|H0]; simpl.
  - destruct (negb _); [by right|]. unfold wp, mret, io_ret. apply wp_register_write. intros w' Hw'. by apply (happened_trans _ [] _ _ _ Hh1 Hw').
  - destruct (e =? 0); [|by left]. rewrite Hsize. assert (r = -1) as -> by lia.
    destruct (Z.eqb_spec (u64 (-1)) (zlen data)) as [E|]; [|by left]. change (u64 (-1)) with 18446744073709551615 in E. lia.
Qed.

Lemma local_address_wp h fd n w : fds w !! h = Some (fd, n) ->
  wp (Socket.local_address net h) (fun _ => happened [] w) (happened [] w) w.
Proof.
  intros Hh. unfold Socket.local_address, Socket.get_address. apply wp_bind. eapply wp_fd_num; [done|]. apply wp_bind.
  unfold wp at 1, system_call. destruct (sys_getsockname net _ _ _) as [[[r e] [addr len]] k] eqn:Eg.
  destruct (ml_getsockname _ _ _ _ _ _ _ _ Eg) as [Hq%happened_none Hlen].
  unfold SystemCall. destruct (_ || _); [|done]. apply (wp_pure _ (fun _ => True)); [|done|done].
  unfold Address.of_sockaddr. destruct (_ <? len); [done|]. destruct (Z.ltb_spec (zlen addr) len); [lia|done].
Qed.

Lemma to_string_wp a (Q : string -> W -> Prop) (E : W -> Prop) w : (forall s, Q s w) -> E w -> wp (pure_ (Address.to_string R a)) Q E w.
Proof. intros HQ HE. apply (wp_pure _ (fun _ => True)); [apply to_string_defined|auto|done]. Qed.

Lemma peer_wp i p (Q : option Address.t -> W -> Prop) (E : W -> Prop) w : zget (peers (vectors w)) i = Some p -> Q p w -> wp (peer self i) Q E w.
Proof. intros Hp HQ. unfold wp, peer, mbind, io_bind, get, gets. by rewrite Hp. Qed.

Lemma bouncer_report_wp h fd n i a w : fds w !! h = Some (fd, n) -> zget (peers (vectors w)) i = Some (Some a) ->
  wp (report net R self h i) (fun _ => happened [] w) (happened [] w) w.
Proof.
  intros Hh Hi. unfold report. apply wp_bind. eapply wp_mono; [by eapply local_address_wp| |done]. intros b w1 H1.
  apply wp_bind, to_string_wp; [|done]. intros _. apply wp_bind. destruct H1 as (F1 & V1 & L1).
  eapply peer_wp; [by rewrite V1|]. apply wp_bind, to_string_wp; done.
Qed.

(** The events of a datagram from [a], when the last host on the other side is [q]. *)
Definition relayed (fd fd' : Z) (q : option Address.t) (a : Address.t) (data : list byte) : list event :=
  Got fd a data :: match q with Some b => if bool_decide (data = []) then [] else [Sent fd' b data] | None => [] end.

(** A callback that threw has done part of its work. *)
Definition broke_off (fd fd' : Z) (q : option Address.t) (w w' : W) : Prop :=
  fds w' = fds w /\ sockets (vectors w') = sockets (vectors w) /\
  (log_at w' = log_at w \/ exists a data l, log_at w' = log_at w ++ Got fd a data :: l /\ Got fd a data :: l `prefix_of` relayed fd fd' q a data).

(** Learning the address of the sender. *)
Lemma learn_wp x fd n ix p a w (E : W -> Prop) : fds w !! x = Some (fd, n) -> 0 <= ix -> zget (peers (vectors w)) ix = Some p ->
  (forall b, p = Some b -> proper b) -> proper a ->
  (forall w', fds w' = fds w -> sockets (vectors w') = sockets (vectors w) -> log_at w' = log_at w -> E w') ->
  wp (if is_new p a then _ ← set_peer self set_self ix a; report net R self x ix else mret tt)
    (fun _ w' => fds w' = fds w /\ log_at w' = log_at w /\
       vectors w' = Bouncer.mk (sockets (vectors w)) (<[Z.to_nat ix := Some a]> (peers (vectors w)))) E w.
Proof.
  intros Hx Hix Hp Hproper Ha HE. unfold zget in Hp. destruct (Z.ltb_spec ix 0); [lia|]. destruct (is_new p a) eqn:En.
  - apply wp_bind. unfold wp at 1, set_peer, put, modify. match goal with |- wp _ _ _ ?w => set (w2 := w) end.
    assert (V2 : vectors w2 = Bouncer.mk (sockets (vectors w)) (<[Z.to_nat ix := Some a]> (peers (vectors w))))
      by (unfold w2; simpl; apply (ml_set (sys := sys) (net := net) (sys_poll := sys_poll) (log := log) (opened := opened))).
    assert (L2 : log_at w2 = log_at w)
      by (unfold w2; simpl; apply (ml_set_log (sys := sys) (net := net) (sys_poll := sys_poll) (self := self) (opened := opened))).
    eapply wp_mono; [eapply (bouncer_report_wp x fd n ix a)|..].
    + exact Hx.
    + rewrite V2. simpl. unfold zget. destruct (Z.ltb_spec ix 0); [lia|]. apply list_lookup_insert_eq. by eapply lookup_lt_Some.
    + intros _ w3 (F3 & V3 & L3). rewrite app_nil_r in L3. by rewrite F3, V3, L3.
    + intros w3 (F3 & V3 & L3). rewrite app_nil_r in L3. apply HE; [by rewrite F3|by rewrite V3, V2|by rewrite L3].
  - apply wp_ret. split; [done|]. split; [done|]. destruct p as [b|]; [|done]. simpl in En.
    apply negb_false_iff in En. apply proper_eqb in En; [subst|by apply Hproper|done].
    destruct (vectors w) as [ss ps]. simpl in *. f_equal. symmetry. by apply list_insert_id.
Qed.

Lemma relay_wp x y fdx fdy nx ny ix iy p q w :
  fds w !! x = Some (fdx, nx) -> fds w !! y = Some (fdy, ny) -> 0 <= ix -> 0 <= iy -> ix <> iy ->
  zget (peers (vectors w)) ix = Some p -> zget (peers (vectors w)) iy = Some q -> (forall a, p = Some a -> proper a) ->
  wp (relay net R self set_self x y ix iy)
    (fun _ w' => exists a data, proper a /\ fds w' = fds w /\
       vectors w' = Bouncer.mk (sockets (vectors w)) (<[Z.to_nat ix := Some a]> (peers (vectors w))) /\
       log_at w' = log_at w ++ relayed fdx fdy q a data)
    (broke_off fdx fdy q w) w.
Proof.
  intros Hx Hy Hix Hiy Hne Hp Hq Hproper. unfold relay. apply wp_bind. eapply wp_mono; [by eapply recv_wp|..].
  2:{ intros w1 (F & V & L). rewrite app_nil_r in L. split; [done|]. split; [by rewrite V|by left]. }
  intros [a data] w1 (Ha & Hd & (F1 & V1 & L1)). simpl in *. rewrite <- F1 in Hx, Hy. rewrite <- V1 in Hp, Hq.
  apply wp_bind. eapply peer_wp; [exact Hp|]. apply wp_bind. eapply wp_mono; [eapply (learn_wp x fdx nx ix p a); try done| |intros w2 H; exact H].
  { intros w2 F V L. split; [by rewrite F|]. split; [by rewrite V, V1|]. right. exists a, data, []. rewrite L, L1. split; [done|].
    apply prefix_cons, prefix_nil. }
  intros _ w2 (F2 & L2 & V2). rewrite F1 in F2. rewrite L1 in L2. apply wp_bind. eapply peer_wp.
  { rewrite V2. simpl. unfold zget in *. destruct (Z.ltb_spec iy 0); [lia|]. rewrite list_lookup_insert_ne by lia. exact Hq. }
  assert (Hdone : forall w3 l, happened l w2 w3 -> Got fdx a data :: l = relayed fdx fdy q a data ->
    exists a data, proper a /\ fds w3 = fds w /\
       vectors w3 = Bouncer.mk (sockets (vectors w)) (<[Z.to_nat ix := Some a]> (peers (vectors w))) /\
       log_at w3 = log_at w ++ relayed fdx fdy q a data).
  { intros w3 l (F3 & V3 & L3) Hl. exists a, data. rewrite <- Hl, F3, V3, L3, L2, <- app_assoc, V2, V1. done. }
  unfold relayed in Hdone. destruct q as [b|]; [|apply wp_ret, (Hdone _ []); [by split_and!; rewrite ?app_nil_r|done]].
  destruct (bool_decide (data = [])) eqn:Ed; [apply wp_ret, (Hdone _ []); [by split_and!; rewrite ?app_nil_r|done]|].
  eapply wp_mono; [eapply (sendto_wp y fdy ny); [by rewrite F2, <- F1|done]|..].
  - intros u w3 H3. by apply (Hdone _ [Sent fdy b data]).
  - intros w3 [(F3 & V3 & L3)|(F3 & V3 & L3)]; (split; [by rewrite F3|]); (split; [by rewrite V3, V2, V1|]); right; exists a, data.
    + exists []. rewrite L3, L2, <- app_assoc. split; [done|]. apply prefix_cons, prefix_nil.
    + exists [Sent fdy b data]. rewrite L3, L2, <- app_assoc. split; [done|]. unfold relayed. by rewrite Ed.
Qed.

(** ** The loop

    [pairs] are the sockets, each with its handle and descriptor; [F] gives the descriptor of
    each handle and its owners outside the program, as in Handles.v; [l0] is the log before the
    loop. *)
Context `{!PosixPoll sys_poll} (pairs : list ((Z * Z) * (Z * Z))) (F : gmap Z (Z * Z)) (l0 : list event).

Definition all_sockets : list (Z * Z) := pairs ≫= fun '(x, y) => [x; y].
Definition ports : list (Z * Z) := (fun '((_, x), (_, y)) => (x, y)) <$> pairs.

Context (HF : map_Forall (fun _ x => 0 <= x.2) F) (Hfds : Forall (fun s => exists n, F !! s.1 = Some (s.2, n)) all_sockets)
  (Hdistinct : NoDup all_sockets.*2).

(** The rules of the sockets. *)
Definition pair_rule (r : EventLoop.Rule K) : Prop := exists j j' h fd h' fd',
  all_sockets !! j = Some (h, fd) /\ all_sockets !! j' = Some (h', fd') /\ j <> j' /\ partner ports fd = Some fd' /\
  r = relay_rule net R self set_self h h' (Z.of_nat j) (Z.of_nat j').

Record sound (rules : list (EventLoop.Rule K)) (w : W) : Prop := {
  sn_rules : Forall pair_rule rules;
  sn_owned : owned F (all_sockets.*1 ++ (EventLoop.fd <$> rules)) w;
  sn_sockets : sockets (vectors w) = all_sockets.*1
}.

(** What the vector of peers holds after these datagrams. *)
Definition remembers (known : gmap Z Address.t) (ps : list (option Address.t)) : Prop :=
  Forall2 (fun s p => p = known !! s.2) all_sockets ps /\ map_Forall (fun _ a => proper a) known.

Definition bouncing (rules : list (EventLoop.Rule K)) (w : W) : Prop := sound rules w /\
  exists mails, log_at w = l0 ++ transcript ports ∅ mails /\ remembers (learned ∅ mails) (peers (vectors w)).

(** After an exception the last datagram may not have been passed on. *)
Definition bounced (rules : list (EventLoop.Rule K)) (w : W) : Prop := sound rules w /\
  exists events, log_at w = l0 ++ events /\ events `prefix_of` transcript ports ∅ (mails_of events).

Lemma relayed_bounce fd fd' a data (known : gmap Z Address.t) : partner ports fd = Some fd' -> fd <> fd' ->
  relayed fd fd' (known !! fd') a data = Got fd a data :: bounce ports (<[fd := a]> known) fd data.
Proof. intros Hp Hne. unfold relayed, bounce. rewrite Hp, lookup_insert_ne by done. done. Qed.

Lemma remembers_next known ps j h fd a : remembers known ps -> all_sockets !! j = Some (h, fd) -> proper a ->
  remembers (<[fd := a]> known) (<[j := Some a]> ps).
Proof.
  intros [Hs Hp] Hj Ha. split; [|by apply map_Forall_insert_2].
  assert (Hlen : (j < length ps)%nat) by (rewrite <- (Forall2_length _ _ _ Hs); by eapply lookup_lt_Some).
  apply Forall2_same_length_lookup. split; [rewrite length_insert; by eapply Forall2_length|].
  intros i [h' fd'] p Hi Hpi. simpl. destruct (decide (i = j)) as [->|Hne].
  - rewrite list_lookup_insert_eq in Hpi by done. rewrite Hj in Hi. injection Hi as <- <-. rewrite lookup_insert_eq. congruence.
  - rewrite list_lookup_insert_ne in Hpi by done. rewrite lookup_insert_ne; [by apply (Forall2_lookup_lr _ _ _ _ _ _ Hs Hi Hpi)|].
    intros ->. apply Hne. eapply (NoDup_lookup all_sockets.*2); [exact Hdistinct|..]; rewrite list_lookup_fmap.
    + by rewrite Hi.
    + by rewrite Hj.
Qed.

Lemma remembers_peer known ps j h fd : remembers known ps -> all_sockets !! j = Some (h, fd) -> zget ps (Z.of_nat j) = Some (known !! fd).
Proof.
  intros [Hs _] Hj. destruct (Forall2_lookup_l _ _ _ _ _ Hs Hj) as (p & Hp & ->). unfold zget.
  destruct (Z.ltb_spec (Z.of_nat j) 0); [lia|]. by rewrite Nat2Z.id.
Qed.

Lemma sound_handle rules w j h fd : sound rules w -> all_sockets !! j = Some (h, fd) -> exists n, fds w !! h = Some (fd, n).
Proof.
  intros [_ Ho _] Hj. assert (Hin : h ∈ all_sockets.*1) by (eapply list_elem_of_lookup_2; rewrite list_lookup_fmap; by rewrite Hj).
  apply list_elem_of_split in Hin as (l1 & l2 & E). rewrite E, <- app_assoc in Ho. simpl in Ho.
  rewrite <- Permutation_middle in Ho. destruct (owned_lookup F HF _ _ _ Ho) as (fd' & n & HFh & _ & Hh).
  pose proof (Forall_lookup_1 _ _ _ _ Hfds Hj) as [m Hm]. simpl in Hm. rewrite HFh in Hm. injection Hm as -> _. by eexists.
Qed.

Lemma sound_kept rules w w' : sound rules w -> fds w' = fds w -> sockets (vectors w') = sockets (vectors w) -> sound rules w'.
Proof.
  intros [H1 [H2 H3] H4] Hf Hs. split; [done| |by rewrite Hs]. split; [done|]. intros i. by rewrite Hf.
Qed.

Lemma bouncing_callback before r after w : bouncing (before ++ r :: after) w ->
  match EventLoop.callback r w with
  | (Ok _, w') => bouncing (before ++ r :: after) w'
  | (Throw _, w') => bounced (before ++ r :: after) w'
  | _ => False
  end.
Proof.
  intros [Hs (mails & Hl & Hm)]. pose proof (sn_rules _ _ Hs) as Hr. apply Forall_app in Hr as [_ Hr].
  apply Forall_cons in Hr as [(j & j' & h & fd & h' & fd' & Hj & Hj' & Hne & Hp & ->) _]. simpl.
  destruct (sound_handle _ _ _ _ _ Hs Hj) as [n Hn]. destruct (sound_handle _ _ _ _ _ Hs Hj') as [n' Hn'].
  assert (Hfd : fd <> fd').
  { intros <-. apply Hne. eapply (NoDup_lookup all_sockets.*2); [exact Hdistinct|..]; rewrite list_lookup_fmap; [by rewrite Hj|by rewrite Hj']. }
  pose proof (relay_wp h h' fd fd' n n' (Z.of_nat j) (Z.of_nat j') _ _ w Hn Hn' ltac:(lia) ltac:(lia) ltac:(lia)
    (remembers_peer _ _ _ _ _ Hm Hj) (remembers_peer _ _ _ _ _ Hm Hj')) as Hw.
  specialize (Hw ltac:(intros a Ha; apply (proj2 Hm _ _ Ha))). unfold wp in Hw.
  destruct (relay _ _ _ _ _ _ _ _ w) as [[[]|e| |] w']; try done.
  - destruct Hw as (a & data & Ha & Hf & Hv & Hlog). split; [eapply sound_kept; [done|done|by rewrite Hv]|].
    exists (mails ++ [(fd, a, data)]). rewrite transcript_snoc, learned_snoc, Hv, Hlog, Hl, <- app_assoc. simpl peers.
    split; [by rewrite (relayed_bounce fd fd' a data) by done|]. rewrite Nat2Z.id. by eapply remembers_next.
  - destruct Hw as (Hf & Hv & Hlog). split; [by eapply sound_kept|]. destruct Hlog as [Hlog|(a & data & l & Hlog & Hpre)].
    + exists (transcript ports ∅ mails). rewrite transcript_mails. by rewrite Hlog.
    + rewrite (relayed_bounce fd fd' a data) in Hpre by done. apply prefix_cons_inv_2 in Hpre.
      assert (Hnone : mails_of l = []).
      { destruct Hpre as [k Hk]. pose proof (bounce_mails ports (<[fd := a]> (learned ∅ mails)) fd data) as Hb.
        rewrite Hk, mails_of_app in Hb. by apply app_nil in Hb as [? _]. }
      exists (transcript ports ∅ mails ++ Got fd a data :: l). rewrite Hlog, Hl, <- app_assoc. split; [done|].
      rewrite mails_of_app, transcript_mails. change (mails_of (Got fd a data :: l)) with ((fd, a, data) :: mails_of l). rewrite Hnone.
      rewrite transcript_snoc. by apply prefix_app, prefix_cons.
Qed.

Lemma bouncing_kernel rules w k : no_mail self log (FileDescriptor.kernel w) k -> bouncing rules w ->
  bouncing rules (FileDescriptor.set_kernel k w).
Proof.
  intros [H1 H2] [Hs (mails & Hl & Hm)]. split; [eapply sound_kept; [exact Hs|done|simpl; by rewrite H1]|].
  exists mails. simpl. by rewrite H1, H2.
Qed.

Lemma closing_mail k k' : may_close sys k k' -> no_mail self log k k'.
Proof.
  intros [->|[fd ->]]; [done|]. apply (ml_close (net := net) (sys_poll := sys_poll) (set_self := set_self) (opened := opened)).
Qed.

Lemma bouncing_erase before r after w : bouncing (before ++ r :: after) w ->
  exists w', EventLoop.cancel_and_erase sys r w = (Ok tt, w') /\ bouncing (before ++ after) w'.
Proof.
  intros [Hs (mails & Hl & Hm)]. pose proof Hs as [Hr Ho Hv].
  assert (Hc : EventLoop.cancel r = mret tt).
  { apply Forall_app in Hr as [_ Hr]. by apply Forall_cons in Hr as [(? & ? & ? & ? & ? & ? & ? & ? & ? & ? & ->) _]. }
  rewrite fmap_app in Ho. simpl in Ho. rewrite app_assoc, <- Permutation_middle, <- app_assoc, <- fmap_app in Ho.
  destruct (owned_release sys F HF _ _ _ Ho) as (w' & Hrel & Ho' & [K1 K2]%closing_mail & _). exists w'.
  split; [unfold EventLoop.cancel_and_erase; rewrite Hc; by rewrite (io_bind_ok _ _ w tt w)|]. split.
  - split; [|done|by rewrite K1]. apply Forall_app in Hr as [? [_ ?]%Forall_cons]. by apply Forall_app.
  - exists mails. by rewrite K1, K2.
Qed.

Definition number_of (h : Z) : Z := match F !! h with Some (fd, _) => fd | None => 0 end.

Lemma bouncing_contract : loop_contract sys sys_poll number_of (fun _ => True) bouncing (fun _ _ _ => True) bounced.
Proof.
  split.
  - intros rules w r [Hs _] Hr. pose proof (sn_rules _ _ Hs) as Hp. rewrite Forall_forall in Hp.
    destruct (Hp _ Hr) as (j & j' & h & fd & h' & fd' & Hj & _ & _ & _ & ->). simpl.
    destruct (sound_handle _ _ _ _ _ Hs Hj) as [n Hn]. destruct (fds_lookup _ _ _ _ Hn) as (x & Hx & Hfd). exists x, n.
    split; [done|]. pose proof (Forall_lookup_1 _ _ _ _ Hfds Hj) as [m Hm]. simpl in Hm. unfold number_of. by rewrite Hm.
  - intros rules w r [Hs _] Hr. pose proof (sn_rules _ _ Hs) as Hp. rewrite Forall_forall in Hp.
    destruct (Hp _ Hr) as (? & ? & ? & ? & ? & ? & _ & _ & _ & _ & ->). by exists true.
  - intros before r after w Hb _. pose proof (bouncing_callback _ _ _ _ Hb) as Hc.
    by destruct (EventLoop.callback r w) as [[[]| | |] w'].
  - intros before r after w Hb _. destruct (bouncing_erase _ _ _ _ Hb) as (w' & H1 & H2). by exists w'.
  - intros rules w ps t Hb. split; [|done]. apply bouncing_kernel; [|done].
    apply (ml_poll (sys := sys) (net := net) (set_self := set_self) (opened := opened)).
  - intros rules w [Hs (mails & Hl & _)]. split; [done|]. exists (transcript ports ∅ mails). by rewrite transcript_mails.
Qed.

Lemma rounds_bounce fuel rules w : bouncing rules w ->
  let '(o, (rules', w')) := relay_rounds sys sys_poll fuel (rules, w) in
  o <> Undefined /\ match o with Throw _ => bounced rules' w' | _ => bouncing rules' w' end.
Proof.
  revert rules w. induction fuel as [|fuel IH]; intros rules w Hb; cbn [relay_rounds]; [done|].
  assert (Hhup : reports_hangups sys_poll (fun _ => True)) by (intros k ps t r e ps' k' _; by apply Forall_forall).
  destruct (wait_next_event_contract sys sys_poll number_of (fun _ => True) bouncing (fun _ _ _ => True) bounced
    bouncing_contract Hhup (-1) rules w Hb) as (o & kept & w1 & Hw & Ho).
  unfold mbind, io_bind, StreamCopy.wait_next_event. rewrite Hw. destruct o as [r|e| |]; try done.
  destruct Ho as [Hb1 _]. by destruct r; [apply IH|apply IH|].
Qed.

End relay.

(** ** Opening the sockets *)

Section setup.

Import Bouncer.

Context {K : Type} (sys : Kernel K) (net : SocketCalls K)
  (sys_poll : K -> list EventLoop.pollfd -> Z -> Z * Z * list EventLoop.pollfd * K)
  (R : Address.Resolver) `{!SoundResolver R} (self : K -> t) (set_self : t -> K -> K) (log : K -> list event) (opened : K -> Z -> Prop)
  `{!MailKernel sys net sys_poll self set_self log opened}.

#[local] Abbreviation W := (FileDescriptor.world (K := K)).
#[local] Abbreviation vectors w := (self (FileDescriptor.kernel w)).
#[local] Abbreviation log_at w := (log (FileDescriptor.kernel w)).

Context (w0 : W) (Hw0 : map_Forall (fun _ x => 1 <= x.2) (fds w0)).

(** The descriptors with those of the program's sockets, which nobody else owns. *)
Definition with_sockets (ss : list (Z * Z)) : gmap Z (Z * Z) :=
  list_to_map ((fun s => (s.1, (s.2, 0))) <$> ss) ∪ fds w0.

Lemma sockets_names (ss : list (Z * Z)) : (((fun s => (s.1, (s.2, 0))) <$> ss) : list (Z * (Z * Z))).*1 = ss.*1.
Proof. rewrite <- list_fmap_compose. done. Qed.

Lemma with_sockets_other ss j : j ∉ ss.*1 -> with_sockets ss !! j = fds w0 !! j.
Proof.
  intros Hj. unfold with_sockets. rewrite lookup_union_r; [done|]. apply not_elem_of_list_to_map_1. by rewrite sockets_names.
Qed.

Lemma with_sockets_in ss i h fd : NoDup ss.*1 -> ss !! i = Some (h, fd) -> with_sockets ss !! h = Some (fd, 0).
Proof.
  intros Hn Hi. unfold with_sockets. apply lookup_union_Some_l. apply elem_of_list_to_map_1; [by rewrite sockets_names|].
  apply list_elem_of_fmap. exists (h, fd). split; [done|]. by eapply list_elem_of_lookup_2.
Qed.

Lemma with_sockets_snoc ss h fd : h ∉ ss.*1 -> with_sockets (ss ++ [(h, fd)]) = <[h := (fd, 0)]> (with_sockets ss).
Proof.
  intros Hh. unfold with_sockets. rewrite fmap_app. simpl. rewrite list_to_map_snoc; [|by rewrite sockets_names].
  by rewrite insert_union_l.
Qed.

Lemma with_sockets_owners ss : map_Forall (fun _ x => 0 <= x.2) (with_sockets ss).
Proof.
  intros j [fd n]. unfold with_sockets. intros [H|[_ H]]%lookup_union_Some_raw.
  - apply elem_of_list_to_map_2, list_elem_of_fmap in H as (s & [= _ _ ->] & _). done.
  - apply Hw0 in H. simpl in *. lia.
Qed.

(** The sockets opened so far. *)
Record opening (ss : list (Z * Z)) (rules : list (EventLoop.Rule K)) (w : W) : Prop := {
  op_owned : owned (with_sockets ss) (ss.*1 ++ (EventLoop.fd <$> rules)) w;
  op_handles : NoDup ss.*1;
  op_new : Forall (fun h => fds w0 !! h = None) ss.*1;
  op_distinct : NoDup ss.*2;
  op_opened : Forall (opened (FileDescriptor.kernel w)) ss.*2;
  op_sockets : sockets (vectors w) = ss.*1
}.

Lemma opening_kept ss rules w w' : opening ss rules w -> fds w' = fds w -> sockets (vectors w') = sockets (vectors w) ->
  (forall fd, opened (FileDescriptor.kernel w) fd -> opened (FileDescriptor.kernel w') fd) -> opening ss rules w'.
Proof.
  intros [[H1 H2] H3 H4 H5 H6 H7] Hf Hs Ho. split; try done.
  - split; [done|]. intros j. by rewrite Hf.
  - by eapply Forall_impl.
  - by rewrite Hs.
Qed.

(** A handle that is not in use is new. *)
Lemma opening_fresh ss rules w h : opening ss rules w -> fds w !! h = None -> ~ h ∈ ss.*1 /\ fds w0 !! h = None.
Proof.
  intros [Ho Hn _ _ _ _] Hh. assert (Hin : h ∉ ss.*1).
  { intros Hin. apply list_elem_of_split in Hin as (l1 & l2 & E). rewrite E, <- app_assoc in Ho. simpl in Ho.
    rewrite <- Permutation_middle in Ho. destruct (owned_lookup _ (with_sockets_owners ss) _ _ _ Ho) as (fd & n & _ & _ & H). congruence. }
  split; [done|]. destruct Ho as [_ Ho]. specialize (Ho h). rewrite Hh, with_sockets_other in Ho by done.
  destruct (fds w0 !! h) as [[fd n]|] eqn:E; [|done]. pose proof (Hw0 _ _ E) as Hge. simpl in Hge. cbn [mbind option_bind] in Ho.
  pose proof (owners_nonneg h (ss.*1 ++ (EventLoop.fd <$> rules))). destruct (Z.eqb_spec (n + owners h (ss.*1 ++ (EventLoop.fd <$> rules))) 0); [lia|done].
Qed.

Lemma owners_absent j hs : j ∉ hs -> owners j hs = 0.
Proof.
  induction hs as [|h hs IH]; [done|]. intros [Hne Hin]%not_elem_of_cons. rewrite owners_cons, decide_False by done. by rewrite IH.
Qed.

Lemma owned_made F hs (w w' : W) h fd : owned F hs w -> F !! h = None -> fds w' = <[h := (fd, 1)]> (fds w) ->
  owned (<[h := (fd, 0)]> F) (h :: hs) w'.
Proof.
  intros [H1 H2] HF Hf. split.
  - constructor; [rewrite lookup_insert_eq; by eexists|]. eapply Forall_impl; [exact H1|]. intros j Hj.
    destruct (decide (j = h)) as [->|]; [rewrite lookup_insert_eq; by eexists|by rewrite lookup_insert_ne].
  - intros j. rewrite Hf, owners_cons. destruct (decide (h = j)) as [<-|Hne].
    + rewrite !lookup_insert_eq. cbn [mbind option_bind]. assert (Hz : owners h hs = 0).
      { apply owners_absent. intros Hx. rewrite Forall_forall in H1. specialize (H1 h Hx). rewrite HF in H1. by destruct H1. }
      by rewrite Hz.
    + rewrite !lookup_insert_ne by done. by rewrite H2, Z.add_0_r.
Qed.

(** ** One pair *)

#[local] Abbreviation peers_at w := (peers (vectors w)).

Lemma get_wp (Q : t -> W -> Prop) (E : W -> Prop) w : Q (vectors w) w -> wp (get self) Q E w.
Proof. done. Qed.

(** Storing in the vectors. *)
Lemma put_wp f (Q : unit -> W -> Prop) (E : W -> Prop) w :
  (forall w', fds w' = fds w -> vectors w' = f (vectors w) -> log_at w' = log_at w ->
     (forall fd, opened (FileDescriptor.kernel w) fd -> opened (FileDescriptor.kernel w') fd) -> Q tt w') -> wp (put self set_self f) Q E w.
Proof.
  intros HQ. apply HQ; simpl; [done|..].
  - apply (ml_set (sys := sys) (net := net) (sys_poll := sys_poll) (log := log) (opened := opened)).
  - apply (ml_set_log (sys := sys) (net := net) (sys_poll := sys_poll) (self := self) (opened := opened)).
  - intros fd Ho. by apply (ml_set_opened (sys := sys) (net := net) (sys_poll := sys_poll) (self := self) (log := log)).
Qed.

Lemma emplace_socket_wp ss rules w : opening ss rules w -> zlen ss < RESERVED ->
  wp (emplace_socket net self set_self) (fun _ w' => exists h fd, opening (ss ++ [(h, fd)]) rules w' /\
      peers_at w' = peers_at w /\ log_at w' = log_at w) (fun w' => opening ss rules w' /\ log_at w' = log_at w) w.
Proof.
  intros Hop Hlen. unfold emplace_socket. apply wp_bind, get_wp. rewrite (op_sockets _ _ _ Hop).
  destruct (Z.ltb_spec (zlen ss.*1) RESERVED); [|rewrite length_fmap in *; lia]. apply wp_bind.
  unfold UDPSocket.make, Socket.make. apply wp_bind. unfold wp at 1, system_call.
  destruct (sys_socket net _ _ _ _) as [[[r e] x] k] eqn:Es.
  destruct (ml_socket _ _ _ _ _ _ _ _ Es) as ([Hs Hl] & Hr & He & Ho). rewrite s32_id by lia. unfold SystemCall.
  destruct (Z.leb_spec 0 r) as [H0|H0]; simpl.
  2:{ assert (r = -1) as -> by lia. destruct (He eq_refl) as [He' Ho']. destruct (Z.eqb_spec e 0); [done|].
      split; [|done]. eapply opening_kept; [exact Hop|done|simpl; by rewrite Hs|]. intros fd. apply Ho'. }
  destruct (Ho H0) as [Hnew Hopen].
  destruct (make_fds r (FileDescriptor.set_kernel k w) H0) as (h & w1 & Hm & Hh & Hf & Hk & _). unfold wp at 1. rewrite Hm.
  destruct (opening_fresh _ _ _ _ Hop Hh) as [Hin H00]. destruct Hop as [O1 O2 O3 O4 O5 O6].
  apply put_wp. intros w' F1 V1 L1 P1. exists h, r. rewrite Hk in *. simpl in *. split; [|by rewrite V1, L1, Hs].
  split; rewrite ?fmap_app; simpl.
  - rewrite with_sockets_snoc, <- app_assoc by done. simpl. rewrite <- Permutation_middle.
    apply owned_made with (w := w); [done|by rewrite with_sockets_other|by rewrite F1].
  - apply NoDup_app. split; [done|]. split; [|apply NoDup_singleton]. by intros j Hj ->%list_elem_of_singleton.
  - apply Forall_app. split; [done|]. by apply Forall_singleton.
  - apply NoDup_app. split; [done|]. split; [|apply NoDup_singleton]. intros fd Hfd ->%list_elem_of_singleton.
    rewrite Forall_forall in O5. by apply Hnew, O5.
  - apply Forall_app. split.
    + eapply Forall_impl; [exact O5|]. intros fd Hfd. apply P1, Hopen. by right.
    + apply Forall_singleton. apply P1, Hopen. by left.
  - by rewrite V1, Hs, O6.
Qed.

Lemma emplace_peer_wp ss rules w : opening ss rules w -> zlen (peers_at w) < RESERVED ->
  wp (emplace_peer self set_self) (fun _ w' => opening ss rules w' /\ peers_at w' = peers_at w ++ [None] /\ log_at w' = log_at w)
    (fun w' => opening ss rules w' /\ log_at w' = log_at w) w.
Proof.
  intros Hop Hlen. unfold emplace_peer. apply wp_bind, get_wp. destruct (Z.ltb_spec (zlen (peers_at w)) RESERVED); [|lia].
  apply put_wp. intros w' F1 V1 L1 P1. rewrite V1, L1. simpl. split; [|done]. eapply opening_kept; [exact Hop|done|by rewrite V1|done].
Qed.

Lemma bind_port_wp ss rules w h fd n port : opening ss rules w -> fds w !! h = Some (fd, n) ->
  wp (bind_port net R h port) (fun _ w' => exists a, Address.of_ip R "0" port = Ok a /\ opening ss rules w' /\ vectors w' = vectors w /\
      fds w' = fds w /\ log_at w' = log_at w ++ [Bound fd a]) (fun w' => opening ss rules w' /\ log_at w' = log_at w) w.
Proof.
  intros Hop Hh. unfold bind_port, Socket.bind. apply wp_bind. pose proof (of_ip_total R "0" port) as Ha.
  destruct (Address.of_ip R "0" port) as [a|e| |]; try done. apply (wp_ret a). apply wp_bind. eapply wp_fd_num; [done|]. apply wp_bind.
  apply wp_system_call. intros r e x k Hb. destruct (ml_bind _ _ _ _ _ _ _ _ Hb) as (Hs & Hr & He & Ho & Hl).
  assert (Hop' : opening ss rules (FileDescriptor.set_kernel k w)).
  { eapply opening_kept; [exact Hop|done|simpl; by rewrite Hs|]. intros fd'. apply Ho. }
  split; [done|]. split; [done|]. split.
  - intros H0. destruct (Z.leb_spec 0 r); [|lia]. apply wp_ret. exists a. simpl. destruct a. simpl in Hl. by rewrite Hs.
  - intros ->. simpl in Hl. rewrite app_nil_r in Hl. done.
Qed.

(** After [n] pairs: the sockets are bound to the ports from 1024 on, in order, and each has its
    rule. *)
Definition binds_ok (fds : list Z) (binds : list event) : Prop :=
  length binds = length fds /\ forall i fd e, fds !! i = Some fd -> binds !! i = Some e ->
    exists a, Address.of_ip R "0" (1024 + Z.of_nat i) = Ok a /\ e = Bound fd a.

Definition is_bound (e : event) : Prop := exists fd a, e = Bound fd a.

Record opened_pairs (pairs : list ((Z * Z) * (Z * Z))) (rules : list (EventLoop.Rule K)) (w : W) : Prop := {
  od_opening : opening (all_sockets pairs) rules w;
  od_rules : Forall (pair_rule net R self set_self pairs) rules;
  od_peers : peers_at w = replicate (length (all_sockets pairs)) None;
  od_log : exists binds, log_at w = log_at w0 ++ binds /\ binds_ok (all_sockets pairs).*2 binds
}.

(** What an exception leaves. *)
Definition abandoned (rules : list (EventLoop.Rule K)) (w : W) : Prop :=
  (exists ss, opening ss rules w) /\ exists binds, log_at w = log_at w0 ++ binds /\ Forall is_bound binds.

Lemma binds_are fds binds : binds_ok fds binds -> Forall is_bound binds.
Proof.
  intros [Hl Hb]. apply Forall_lookup. intros i e He. destruct (fds !! i) as [fd|] eqn:E.
  - destruct (Hb _ _ _ E He) as (a & _ & ->). by eexists _, _.
  - apply lookup_ge_None in E. apply lookup_lt_Some in He. lia.
Qed.

Lemma binds_snoc fds binds fd a : binds_ok fds binds -> Address.of_ip R "0" (1024 + zlen fds) = Ok a ->
  binds_ok (fds ++ [fd]) (binds ++ [Bound fd a]).
Proof.
  intros [Hl Hb] Ha. split; [by rewrite !length_app, Hl|]. intros i fd' e.
  intros [Hi|[Hi Hy%list_lookup_singleton_Some]]%lookup_app_Some [He|[He Hx%list_lookup_singleton_Some]]%lookup_app_Some.
  - by apply Hb.
  - apply lookup_lt_Some in Hi. lia.
  - apply lookup_lt_Some in He. lia.
  - destruct Hx as [Hx <-], Hy as [Hy <-]. exists a. split; [|done]. rewrite <- Ha. f_equal. lia.
Qed.

Lemma opening_handle ss rules w j h fd : opening ss rules w -> ss !! j = Some (h, fd) -> exists n, fds w !! h = Some (fd, n).
Proof.
  intros [Ho Hn _ _ _ _] Hj. pose proof (with_sockets_in _ _ _ _ Hn Hj) as HF.
  destruct Ho as [_ Ho]. specialize (Ho h). rewrite HF in Ho. cbn [mbind option_bind] in Ho.
  assert (Hin : h ∈ ss.*1) by (eapply list_elem_of_lookup_2; rewrite list_lookup_fmap; by rewrite Hj).
  apply list_elem_of_split in Hin as (l1 & l2 & E). rewrite E, <- app_assoc in Ho. simpl in Ho.
  rewrite <- Permutation_middle, owners_cons, decide_True in Ho by done.
  pose proof (owners_nonneg h (l1 ++ l2 ++ (EventLoop.fd <$> rules))).
  destruct (Z.eqb_spec (0 + (owners h (l1 ++ l2 ++ (EventLoop.fd <$> rules)) + 1)) 0); [lia|]. by eexists.
Qed.

Lemma add_rule_opening ss rules w r : opening ss rules w -> is_Some (fds w !! EventLoop.fd r) ->
  exists w', StreamCopy.add_rule r (rules, w) = (Ok tt, (rules ++ [r], w')) /\ opening ss (rules ++ [r]) w' /\
    FileDescriptor.kernel w' = FileDescriptor.kernel w.
Proof.
  intros [O1 O2 O3 O4 O5 O6] Hh. destruct (owned_duplicate _ (with_sockets_owners ss) _ _ _ O1 Hh) as (w' & Hd & Ho & Hk & _).
  exists w'. unfold StreamCopy.add_rule, EventLoop.add_rule. rewrite (io_bind_ok _ _ _ _ _ Hd). unfold mret, io_ret.
  split; [by destruct r|]. split; [|done]. split; rewrite ?Hk; try done.
  rewrite fmap_app. simpl. rewrite app_assoc. by rewrite <- Permutation_cons_append.
Qed.

Lemma all_sockets_snoc pairs x y : all_sockets (pairs ++ [(x, y)]) = all_sockets pairs ++ [x; y].
Proof. unfold all_sockets. by rewrite bind_app. Qed.

Lemma ports_snoc pairs h fd h' fd' : ports (pairs ++ [((h, fd), (h', fd'))]) = ports pairs ++ [(fd, fd')].
Proof. unfold ports. by rewrite fmap_app. Qed.

Lemma partner_app l k fd : partner (l ++ k) fd = match partner l fd with Some fd' => Some fd' | None => partner k fd end.
Proof. induction l as [|[x y] l IH]; [done|]. simpl. by repeat case_decide. Qed.

Lemma partner_absent pairs fd : fd ∉ (all_sockets pairs).*2 -> partner (ports pairs) fd = None.
Proof.
  induction pairs as [|[[h x] [h' y]] pairs IH]; [done|]. change (all_sockets (?p :: pairs)) with ([p.1; p.2] ++ all_sockets pairs).
  simpl. intros [Hx [Hy Hin]%not_elem_of_cons]%not_elem_of_cons. by rewrite !decide_False, IH.
Qed.

Lemma pair_rule_more pairs pr r : pair_rule net R self set_self pairs r -> pair_rule net R self set_self (pairs ++ [pr]) r.
Proof.
  intros (j & j' & h & fd & h' & fd' & Hj & Hj' & Hne & Hp & ->). destruct pr as [[h1 fd1] [h2 fd2]].
  exists j, j', h, fd, h', fd'. rewrite all_sockets_snoc, ports_snoc, partner_app, Hp.
  split_and!; try done; rewrite lookup_app_l; try done; by eapply lookup_lt_Some.
Qed.

(** The last two elements of a vector, by the indices the code computes. *)
Lemma last_two {A} (l : list A) a b n : n = zlen l -> n + 2 <= RESERVED ->
  at_index (l ++ [a; b]) (u64 (zlen (l ++ [a; b]) - 2)) = Ok a /\ at_index (l ++ [a; b]) (u64 (zlen (l ++ [a; b]) - 1)) = Ok b /\
  u64 (zlen (l ++ [a; b]) - 2) = n /\ u64 (zlen (l ++ [a; b]) - 1) = n + 1.
Proof.
  intros -> Hr. pose proof (zlen_nonneg l). rewrite zlen_app. change (zlen [a; b]) with 2.
  rewrite !u64_small by (unfold RESERVED in *; lia). unfold at_index. rewrite !zget_app.
  destruct (Z.ltb_spec (zlen l + 2 - 2) (zlen l)), (Z.ltb_spec (zlen l + 2 - 1) (zlen l)); try lia.
  replace (zlen l + 2 - 2 - zlen l) with 0 by lia. replace (zlen l + 2 - 1 - zlen l) with 1 by lia. split_and!; done || lia.
Qed.

(** The two rules of a new pair. *)
Lemma new_pair_rules pairs h fd h' fd' j : NoDup (all_sockets (pairs ++ [((h, fd), (h', fd'))])).*2 -> j = zlen (all_sockets pairs) ->
  pair_rule net R self set_self (pairs ++ [((h, fd), (h', fd'))]) (relay_rule net R self set_self h h' j (j + 1)) /\
  pair_rule net R self set_self (pairs ++ [((h, fd), (h', fd'))]) (relay_rule net R self set_self h' h (j + 1) j).
Proof.
  rewrite all_sockets_snoc, fmap_app. simpl. intros (_ & Hd & Hn)%NoDup_app ->.
  apply NoDup_cons in Hn as [Hne%not_elem_of_cons _]. destruct Hne as [Hne _].
  assert (Hp : partner (ports pairs) fd = None) by (apply partner_absent; intros H; apply (Hd _ H); by left).
  assert (Hp' : partner (ports pairs) fd' = None) by (apply partner_absent; intros H; apply (Hd _ H); right; by left).
  set (n := length (all_sockets pairs)).
  assert (H0 : (all_sockets pairs ++ [(h, fd); (h', fd')]) !! n = Some (h, fd)) by apply list_lookup_middle, eq_refl.
  assert (H1 : (all_sockets pairs ++ [(h, fd); (h', fd')]) !! S n = Some (h', fd')).
  { rewrite lookup_app_r by (unfold n; lia). by replace (S n - length (all_sockets pairs))%nat with 1%nat by (unfold n; lia). }
  split; [exists n, (S n), h, fd, h', fd'|exists (S n), n, h', fd', h, fd];
    rewrite all_sockets_snoc, ports_snoc, partner_app; split_and!; try done; try lia.
  - rewrite Hp. simpl. by rewrite decide_True.
  - f_equal. lia.
  - rewrite Hp'. simpl. by rewrite decide_False, decide_True.
  - f_equal. lia.
Qed.

Lemma opening_abandoned ss rules w binds : opening ss rules w -> log_at w = log_at w0 ++ binds -> Forall is_bound binds -> abandoned rules w.
Proof. intros H1 H2 H3. split; [by eexists|by exists binds]. Qed.

(** The sockets and the entries for their peers. *)
Lemma emplaced_wp {A} ss rules w (rest : io W A) Q E : opening ss rules w -> peers_at w = replicate (length ss) None ->
  zlen ss + 2 <= RESERVED -> (forall ss' w', opening ss' rules w' /\ log_at w' = log_at w -> E w') ->
  (forall w' h fd h' fd', opening (ss ++ [(h, fd); (h', fd')]) rules w' ->
     peers_at w' = replicate (length ss) None ++ [None; None] -> log_at w' = log_at w -> wp rest Q E w') ->
  wp (_ ← emplace_socket net self set_self; _ ← emplace_socket net self set_self;
      _ ← emplace_peer self set_self; _ ← emplace_peer self set_self; rest) Q E w.
Proof.
  intros Hop Hp Hroom Hfail Hrest.
  apply wp_bind. eapply wp_mono; [apply (emplace_socket_wp _ _ _ Hop); lia| |intros w'; apply Hfail].
  intros _ w1 (h & fd & Hop1 & Hp1 & Hl1). rewrite <- Hl1 in Hfail.
  apply wp_bind. eapply wp_mono; [apply (emplace_socket_wp _ _ _ Hop1); rewrite zlen_app; simpl; lia| |intros w'; apply Hfail].
  intros _ w2 (h' & fd' & Hop2 & Hp2 & Hl2). rewrite <- app_assoc in Hop2. simpl in Hop2. rewrite <- Hl2 in Hfail.
  assert (Hpl : peers_at w2 = replicate (length ss) None) by congruence.
  apply wp_bind. eapply wp_mono; [apply (emplace_peer_wp _ _ _ Hop2); rewrite Hpl, length_replicate; lia| |intros w'; apply Hfail].
  intros _ w3 (Hop3 & Hp3 & Hl3). rewrite <- Hl3 in Hfail.
  apply wp_bind. eapply wp_mono; [apply (emplace_peer_wp _ _ _ Hop3); rewrite Hp3, zlen_app, Hpl, length_replicate; simpl; lia| |intros w'; apply Hfail].
  intros _ w4 (Hop4 & Hp4 & Hl4). rewrite Hp3, Hpl, <- app_assoc in Hp4. simpl in Hp4.
  eapply Hrest; [exact Hop4|exact Hp4|congruence].
Qed.

Lemma open_sockets_wp pairs rules w lower : opened_pairs pairs rules w -> lower = 1024 + zlen (all_sockets pairs) -> lower <= 64000 ->
  wp (open_sockets net R self set_self lower) (fun '(x, y, x_peer, y_peer) w' => exists fd fd' binds,
      let ss := all_sockets (pairs ++ [((x, fd), (y, fd'))]) in
      opening ss rules w' /\ x_peer = zlen (all_sockets pairs) /\ y_peer = zlen (all_sockets pairs) + 1 /\
      peers_at w' = replicate (length ss) None /\ log_at w' = log_at w0 ++ binds /\ binds_ok ss.*2 binds)
    (abandoned rules) w.
Proof.
  intros [Hop Hrules Hpeers (binds & Hlog & Hbinds)] Hlower Hle. set (ss := all_sockets pairs) in *.
  pose proof (zlen_nonneg ss). assert (Hroom : zlen ss + 2 <= RESERVED) by (unfold RESERVED; lia).
  assert (Hfail : forall ss' w' l k, opening ss' rules w' /\ log_at w' = k -> k = log_at w0 ++ l -> Forall is_bound l -> abandoned rules w').
  { intros ss' w' l k [H1 <-] H2 H3. by eapply opening_abandoned. }
  pose proof (binds_are _ _ Hbinds) as Hb. unfold open_sockets. eapply emplaced_wp; [done|done|done|by eauto|].
  intros w4 h fd h' fd' Hop4 Hp4 Hl4. apply wp_bind, get_wp. rewrite (op_sockets _ _ _ Hop4), Hp4, fmap_app. simpl fmap.
  destruct (last_two (ss.*1) h h' (zlen ss)) as (A0 & A1 & _ & _); [by rewrite length_fmap|done|].
  destruct (last_two (replicate (length ss) None) (@None Address.t) None (zlen ss)) as (A2 & A3 & A4 & A5); [by rewrite length_replicate|done|].
  rewrite A0, A1, A2, A3, A4, A5. apply wp_bind, (wp_ret h), wp_bind, (wp_ret h'), wp_bind, (wp_ret None), wp_bind, (wp_ret None).
  destruct (opening_handle _ _ _ _ _ _ Hop4 (list_lookup_middle ss [(h', fd')] (h, fd) _ eq_refl)) as [n Hn].
  apply wp_bind. eapply wp_mono; [by apply (bind_port_wp _ _ _ h fd n lower Hop4)| |intros w' Hw'; eapply Hfail; [exact Hw'|rewrite Hl4; exact Hlog|done]].
  intros _ w5 (a & Ha & Hop5 & Hv5 & Hf5 & Hl5). rewrite Hl4, Hlog, <- app_assoc in Hl5.
  assert (H1 : binds_ok (ss.*2 ++ [fd]) (binds ++ [Bound fd a])) by (apply binds_snoc; [done|rewrite length_fmap; by rewrite <- Hlower]).
  destruct (opening_handle (ss ++ [(h, fd); (h', fd')]) rules w5 (S (length ss)) h' fd' Hop5) as [n' Hn'].
  { rewrite lookup_app_r by lia. by replace (S (length ss) - length ss)%nat with 1%nat by lia. }
  apply wp_bind. eapply wp_mono; [by apply (bind_port_wp _ _ _ h' fd' n' (u16 (lower + 1)) Hop5)| |
    intros w' Hw'; eapply Hfail; [exact Hw'|exact Hl5|by eapply binds_are]].
  intros _ w6 (a' & Ha' & Hop6 & Hv6 & Hf6 & Hl6). rewrite u16_small in Ha' by lia.
  apply wp_ret. exists fd, fd', ((binds ++ [Bound fd a]) ++ [Bound fd' a']). cbv zeta. rewrite all_sockets_snoc. fold ss. split; [done|].
  split; [done|]. split; [done|]. split; [by rewrite Hv6, Hv5, Hp4, length_app, replicate_add|].
  split; [by rewrite Hl6, Hl5, <- app_assoc|]. rewrite fmap_app. simpl fmap.
  replace (ss.*2 ++ [fd; fd']) with ((ss.*2 ++ [fd]) ++ [fd']) by (by rewrite <- app_assoc).
  apply binds_snoc; [done|]. rewrite <- Ha'. f_equal. rewrite length_app, length_fmap. simpl. lia.
Qed.

Lemma open_pair_wp pairs rules w lower : opened_pairs pairs rules w -> lower = 1024 + zlen (all_sockets pairs) -> lower <= 64000 ->
  wp (open_pair net R self set_self lower) (fun _ '(rules', w') => exists pr, opened_pairs (pairs ++ [pr]) rules' w')
    (fun '(rules', w') => abandoned rules' w') (rules, w).
Proof.
  intros Hod Hlower Hle. pose proof (od_rules _ _ _ Hod) as Hrules. unfold open_pair. apply wp_bind, machine_wp.
  eapply wp_mono; [by eapply open_sockets_wp| |done]. intros [[[x y] xp] yp] w1 (fd & fd' & binds & Hop & -> & -> & Hp & Hl & Hb).
  cbv zeta in *. rewrite all_sockets_snoc in *. set (ss := all_sockets pairs) in *.
  destruct (new_pair_rules pairs x fd y fd' (zlen ss)) as [Hr1 Hr2]; [rewrite all_sockets_snoc; apply (op_distinct _ _ _ Hop)|done|].
  destruct (opening_handle _ _ _ (length ss) x fd Hop) as [n Hn]; [by apply list_lookup_middle|].
  destruct (add_rule_opening _ _ _ (relay_rule net R self set_self x y (zlen ss) (zlen ss + 1)) Hop) as (w2 & A1 & Hop2 & Hk2); [by exists (fd, n)|].
  destruct (opening_handle _ _ _ (S (length ss)) y fd' Hop2) as [n' Hn'].
  { rewrite lookup_app_r by lia. by replace (S (length ss) - length ss)%nat with 1%nat by lia. }
  destruct (add_rule_opening _ _ _ (relay_rule net R self set_self y x (zlen ss + 1) (zlen ss)) Hop2) as (w3 & A2 & Hop3 & Hk3); [by exists (fd', n')|].
  unfold wp. rewrite (io_bind_ok _ _ _ _ _ A1), A2. exists ((x, fd), (y, fd')). split; rewrite ?all_sockets_snoc, ?Hk3, ?Hk2; try done.
  - rewrite !Forall_app. split; [split; [|by apply Forall_singleton]|by apply Forall_singleton].
    eapply Forall_impl; [exact Hrules|]. intros r. apply pair_rule_more.
  - by exists binds.
Qed.

(** ** The whole program *)

Lemma zlen_all_sockets pairs : zlen (all_sockets pairs) = 2 * zlen pairs.
Proof. induction pairs as [|[x y] pairs IH]; [done|].
  change (all_sockets ((x, y) :: pairs)) with (x :: y :: all_sockets pairs). simpl length. lia. Qed.

Lemma open_ports_wp fuel : forall pairs rules w, opened_pairs pairs rules w -> (fuel + length pairs)%nat = PAIRS ->
  wp (open_ports net R self set_self fuel (1024 + zlen (all_sockets pairs)))
    (fun _ '(rules', w') => exists pairs', length pairs' = PAIRS /\ opened_pairs pairs' rules' w')
    (fun '(rules', w') => abandoned rules' w') (rules, w).
Proof.
  assert (HP : Z.of_nat PAIRS = 31489) by (apply Z2Nat.id; lia). generalize dependent PAIRS. intros n HP.
  induction fuel as [|fuel IH]; intros pairs rules w Hod Hf; pose proof (zlen_all_sockets pairs) as Hz; cbn [open_ports].
  - destruct (Z.leb_spec (1024 + zlen (all_sockets pairs)) 64000); [lia|]. apply wp_ret. exists pairs. split; [exact Hf|exact Hod].
  - destruct (Z.leb_spec (1024 + zlen (all_sockets pairs)) 64000); [|lia]. apply wp_bind.
    eapply wp_mono; [by eapply open_pair_wp| |done]. intros _ [rules' w'] ([[h fd] [h' fd']] & Hod').
    specialize (IH _ _ _ Hod'). rewrite all_sockets_snoc, zlen_app, length_app in IH. simpl in IH.
    rewrite u16_small by lia. replace (1024 + zlen (all_sockets pairs) + 2) with (1024 + (zlen (all_sockets pairs) + 2)) by lia.
    apply IH. lia.
Qed.

Lemma release_all_ok F (HF : map_Forall (fun _ x => 0 <= x.2) F) hs : forall rest w, owned F (hs ++ rest) w ->
  exists w', release_all sys hs w = (Ok tt, w') /\ owned F rest w' /\ no_mail self log (FileDescriptor.kernel w) (FileDescriptor.kernel w').
Proof.
  induction hs as [|h hs IH]; intros rest w Ho; [by exists w|]. simpl in Ho.
  destruct (owned_release sys F HF _ _ _ Ho) as (w1 & Hr & Ho1 & [A1 A2]%(closing_mail sys net sys_poll self set_self log opened) & _).
  destruct (IH _ _ Ho1) as (w' & Hrun & Ho' & [B1 B2]). exists w'. cbn [release_all]. split; [by rewrite (io_bind_ok _ _ _ _ _ Hr)|].
  split; [done|]. split; congruence.
Qed.

Lemma released_rules F (HF : map_Forall (fun _ x => 0 <= x.2) F) rules w : owned F (EventLoop.fd <$> rules) w ->
  exists w', StreamCopy.destroy_loop sys (rules, w) = (Ok tt, ([], w')) /\ owned F [] w' /\ log_at w' = log_at w.
Proof.
  intros Ho. destruct (release_rules_ok sys F HF rules [] w) as (w' & H1 & H2 & H3); [by rewrite app_nil_r|]. exists w'.
  split; [unfold StreamCopy.destroy_loop; by rewrite H1|]. split; [done|].
  clear H1 H2. induction H3 as [|k1 k2 k3 H _ IH]; [done|]. destruct (closing_mail sys net sys_poll self set_self log opened _ _ H). congruence.
Qed.

Lemma sockets_released ss (w : W) : NoDup ss.*1 -> Forall (fun h => fds w0 !! h = None) ss.*1 -> owned (with_sockets ss) [] w -> fds w = fds w0.
Proof.
  intros Hn Hnew [_ Ho]. apply map_eq. intros j. rewrite Ho. change (owners j []) with 0. destruct (decide (j ∈ ss.*1)) as [Hj|Hj].
  - rewrite Forall_forall in Hnew. rewrite (Hnew _ Hj). apply list_elem_of_fmap in Hj as ([h fd] & -> & [i Hi]%list_elem_of_lookup_1).
    cbn [fst]. by rewrite (with_sockets_in _ _ _ _ Hn Hi).
  - rewrite with_sockets_other by done. destruct (fds w0 !! j) as [[fd n]|] eqn:E; [|done]. pose proof (Hw0 _ _ E) as Hge. simpl in Hge.
    cbn [mbind option_bind]. rewrite Z.add_0_r. by destruct (Z.eqb_spec n 0); [lia|].
Qed.

(** Leaving the scopes. *)
Lemma scopes_left {A} (body : io (list (EventLoop.Rule K) * W) A) s ss o rules w : body s = (o, (rules, w)) -> concluded o ->
  owned (with_sockets ss) (ss.*1 ++ (EventLoop.fd <$> rules)) w -> NoDup ss.*1 -> Forall (fun h => fds w0 !! h = None) ss.*1 ->
  sockets (vectors w) = ss.*1 ->
  exists w', StreamCopy.leaving (StreamCopy.destroy_loop sys) (StreamCopy.leaving (StreamCopy.machine (destroy_sockets sys self)) body) s = (o, ([], w')) /\
    fds w' = fds w0 /\ log_at w' = log_at w.
Proof.
  intros Hb Ho Hown Hnd Hnew Hs. pose proof (with_sockets_owners ss) as HF.
  destruct (release_all_ok _ HF _ _ _ Hown) as (w1 & H1 & Ho1 & [_ L1]). destruct (released_rules _ HF _ _ Ho1) as (w2 & H2 & Ho2 & L2).
  exists w2. split; [|split; [|congruence]].
  - eapply leaving_done; [done| |exact H2]. eapply leaving_done; [done|exact Hb|].
    unfold StreamCopy.machine, destroy_sockets, mbind, io_bind, get, gets. rewrite Hs. by rewrite H1.
  - by eapply sockets_released.
Qed.

(** Descriptors taken two by two. *)
Fixpoint paired (l : list Z) : list (Z * Z) :=
  match l with x :: y :: l => (x, y) :: paired l | _ => [] end.

Lemma ports_paired pairs : ports pairs = paired (all_sockets pairs).*2.
Proof.
  induction pairs as [|[[h x] [h' y]] pairs IH]; [done|].
  change (ports (((h, x), (h', y)) :: pairs)) with ((x, y) :: ports pairs). by rewrite IH.
Qed.

Lemma opened_bouncing pairs rules w binds : opened_pairs pairs rules w -> log_at w = log_at w0 ++ binds ->
  bouncing net R self set_self log pairs (with_sockets (all_sockets pairs)) (log_at w0 ++ binds) rules w.
Proof.
  intros [[O1 O2 O3 O4 O5 O6] Hr Hp _] Hl. split; [by split|]. exists []. simpl. rewrite app_nil_r. split; [done|]. rewrite Hp.
  split; [|apply map_Forall_empty]. apply Forall2_same_length_lookup. rewrite length_replicate. split; [done|].
  intros i s p _ [-> _]%lookup_replicate. by rewrite lookup_empty.
Qed.

(** What the program has done: it opened all its ports and relayed what came, or it threw while
    it opened them. *)
Definition served (o : outcome unit) (l : list event) : Prop :=
  (exists fds binds events, NoDup fds /\ zlen fds = 62978 /\ binds_ok fds binds /\ l = binds ++ events /\
     events `prefix_of` transcript (paired fds) ∅ (mails_of events) /\
     ((forall e, o <> Throw e) -> events = transcript (paired fds) ∅ (mails_of events))) \/
  (exists e, o = Throw e) /\ Forall is_bound l.

Lemma relayed_serves pairs rules w fuel `{!PosixPoll sys_poll} : opened_pairs pairs rules w -> length pairs = PAIRS ->
  let '(o, (rules', w')) := relay_rounds sys sys_poll fuel (rules, w) in
  o <> Undefined /\ owned (with_sockets (all_sockets pairs)) ((all_sockets pairs).*1 ++ (EventLoop.fd <$> rules')) w' /\
  sockets (vectors w') = (all_sockets pairs).*1 /\ exists l, log_at w' = log_at w0 ++ l /\ served o l.
Proof.
  intros Hod Hlen. pose proof (od_log _ _ _ Hod) as (binds & Hl & Hb). pose proof (od_opening _ _ _ Hod) as [O1 O2 O3 O4 O5 O6].
  pose proof (rounds_bounce sys net sys_poll R self set_self log opened pairs (with_sockets (all_sockets pairs)) (log_at w0 ++ binds)
    (with_sockets_owners _)) as Hrun.
  specialize (Hrun ltac:(apply Forall_lookup; intros i [h fd] Hi; exists 0; by eapply with_sockets_in) O4 fuel rules w (opened_bouncing _ _ _ _ Hod Hl)).
  destruct (relay_rounds sys sys_poll fuel (rules, w)) as [o [rules' w']]. destruct Hrun as [Hu Hres]. split; [done|].
  assert (Hserved : forall events, events `prefix_of` transcript (ports pairs) ∅ (mails_of events) ->
    ((forall e, o <> Throw e) -> events = transcript (ports pairs) ∅ (mails_of events)) -> served o (binds ++ events)).
  { intros events Hpre Hall. left. exists (all_sockets pairs).*2, binds, events. rewrite <- ports_paired.
    split; [done|]. split; [|done]. rewrite length_fmap, zlen_all_sockets, Hlen. unfold PAIRS. rewrite Z2Nat.id by lia. done. }
  assert (Hbouncing : bouncing net R self set_self log pairs (with_sockets (all_sockets pairs)) (log_at w0 ++ binds) rules' w' ->
    owned (with_sockets (all_sockets pairs)) ((all_sockets pairs).*1 ++ (EventLoop.fd <$> rules')) w' /\
    sockets (vectors w') = (all_sockets pairs).*1 /\ exists l, log_at w' = log_at w0 ++ l /\ served o l).
  { intros [[_ S1 S2] (mails & Hm & _)]. split; [done|]. split; [done|]. eexists. rewrite Hm, <- app_assoc. split; [done|].
    apply Hserved; by rewrite transcript_mails. }
  destruct o as [[]|e| |]; try (by apply Hbouncing).
  destruct Hres as [[_ S1 S2] (events & Hm & Hpre)]. split; [done|]. split; [done|]. eexists. rewrite Hm, <- app_assoc. split; [done|].
  apply Hserved; [done|]. intros Hne. by destruct (Hne e).
Qed.

Lemma program_ok `{!PosixPoll sys_poll} fuel :
  let '(o, w') := program_body sys net sys_poll R self set_self fuel w0 in
  o <> Undefined /\ (concluded o -> fds w' = fds w0) /\ exists l, log_at w' = log_at w0 ++ l /\ served o l.
Proof.
  unfold program_body. set (body := _ ← open_ports net R self set_self PAIRS 1024; relay_rounds sys sys_poll fuel).
  set (start := FileDescriptor.set_kernel (set_self (Bouncer.mk [] []) (FileDescriptor.kernel w0)) w0).
  assert (Hput : forall X (m : io (list (EventLoop.Rule K) * W) X), (_ ← StreamCopy.machine (put self set_self (fun _ => Bouncer.mk [] [])); m) ([], w0) = m ([], start)) by done.
  erewrite (leaving_ext _ _ _ _ _ (Hput _ _)).
  assert (Hstart : opened_pairs [] [] start).
  { assert (Hv : vectors start = Bouncer.mk [] []) by (unfold start; simpl; apply (ml_set (sys := sys) (net := net) (sys_poll := sys_poll) (log := log) (opened := opened))).
    assert (Hl : log_at start = log_at w0) by (unfold start; simpl; apply (ml_set_log (sys := sys) (net := net) (sys_poll := sys_poll) (self := self) (opened := opened))).
    split; [|done|by rewrite Hv|exists []; by rewrite Hl, app_nil_r]. split; [|apply NoDup_nil_2|constructor|apply NoDup_nil_2|constructor|by rewrite Hv].
    split; [constructor|]. intros j. change (fds start) with (fds w0). unfold with_sockets. simpl. rewrite (left_id_L ∅ (∪)).
    destruct (fds w0 !! j) as [[fd n]|] eqn:E; [|done]. pose proof (Hw0 _ _ E) as Hge. simpl in Hge.
    cbn [mbind option_bind]. change (owners j []) with 0. rewrite Z.add_0_r. by destruct (Z.eqb_spec n 0); [lia|]. }
  pose proof (open_ports_wp PAIRS [] [] start Hstart (Nat.add_0_r _)) as Hopen. change (1024 + zlen (all_sockets [])) with 1024 in Hopen.
  unfold wp in Hopen. destruct (open_ports net R self set_self PAIRS 1024 ([], start)) as [[[]|e| |] [rules w1]] eqn:Eo; try done.
  - destruct Hopen as (pairs & Hlen & Hod). pose proof (relayed_serves pairs rules w1 fuel Hod Hlen) as Hs.
    pose proof (od_opening _ _ _ Hod) as [O1 O2 O3 _ _ _].
    assert (Hbody : body ([], start) = relay_rounds sys sys_poll fuel (rules, w1)) by (unfold body; by rewrite (io_bind_ok _ _ _ _ _ Eo)).
    destruct (relay_rounds sys sys_poll fuel (rules, w1)) as [o [rules2 w2]]. destruct Hs as (Hu & Hown & Hsock & l & Hl & Hserved).
    destruct o as [[]|e| |] eqn:E; try done; [..|unfold StreamCopy.leaving; rewrite Hbody; split; [done|]; split; [done|by exists l]];
      destruct (scopes_left body _ _ _ _ _ Hbody I Hown O2 O3 Hsock) as (w3 & -> & Hf & Hl3);
      (split; [done|]); (split; [done|]); exists l; by rewrite Hl3.
  - destruct Hopen as [[ss Hop] (binds & Hl & Hb)].
    assert (Hbody : body ([], start) = (Throw e, (rules, w1))) by (unfold body, mbind, io_bind; by rewrite Eo).
    destruct Hop as [O1 O2 O3 _ _ O6]. destruct (scopes_left body _ ss _ _ _ Hbody I O1 O2 O3 O6) as (w3 & -> & Hf & Hl3).
    split; [done|]. split; [done|]. exists binds. rewrite Hl3. split; [done|]. right. split; [by exists e|done].
Qed.

End setup.

(** ** Properties *)

(** C25. The bouncer does its work.  On every machine that keeps the promises of [MailKernel],
    however long it runs, [program_body] never reaches undefined behaviour: in particular the
    elements of its vectors never move away from under the references in its callbacks.  It
    binds its 62978 sockets to the ports from 1024 on, in order, or throws while it does so.
    After that the datagrams it sends are exactly those of [transcript]: every datagram that is
    not empty goes, unchanged, once and at once, from the other socket of the pair to the host
    last heard from there; only when an exception ends the program can the last one be missing.
    However it ends, all its descriptors are closed. *)
Theorem bouncer_relays {K} (sys : Kernel K) (net : SocketCalls K) sys_poll (R : Address.Resolver) (HR : SoundResolver R)
  (self : K -> Bouncer.t) (set_self : Bouncer.t -> K -> K) (log : K -> list event) (opened : K -> Z -> Prop)
  (Hmail : MailKernel sys net sys_poll self set_self log opened) (Hpoll : PosixPoll sys_poll)
  (fuel : nat) (w : FileDescriptor.world) (Hw : map_Forall (fun _ x => 1 <= x.2) (fds w)) :
  let '(o, w') := Bouncer.program_body sys net sys_poll R self set_self fuel w in
  o <> Undefined /\ (concluded o -> fds w' = fds w) /\
  exists l, log (FileDescriptor.kernel w') = log (FileDescriptor.kernel w) ++ l /\
    ((exists fds binds events, NoDup fds /\ zlen fds = 62978 /\ binds_ok R fds binds /\ l = binds ++ events /\
        events `prefix_of` transcript (paired fds) ∅ (mails_of events) /\
        ((forall e, o <> Throw e) -> events = transcript (paired fds) ∅ (mails_of events))) \/
     (exists e, o = Throw e) /\ Forall is_bound l).
Proof. exact (program_ok sys net sys_poll R self set_self log opened w Hw fuel). Qed.

(** ** A machine with mail *)

Record post := Post {
  po_self : Bouncer.t;
  po_log : list event;
  po_next : Z;
  po_mail : gmap Z (list (list byte * list byte))
}.

Definition po_set_self (v : Bouncer.t) (k : post) : post := Post v (po_log k) (po_next k) (po_mail k).

Definition po_logs (l : list event) (k : post) : post := Post (po_self k) (po_log k ++ l) (po_next k) (po_mail k).

Definition post_kernel : Kernel post := {|
  sys_read k _ _ := (-1, EAGAIN, [], k);
  sys_writev k _ _ := (-1, EAGAIN, k);
  sys_close k _ := (0, 0, k);
  sys_getfl k _ := (0, 0, k);
  sys_setfl k _ _ := (0, 0, k)
|}.

Definition EMFILE : Z := 24.

Definition post_net : SocketCalls post := {|
  sys_socket k _ _ _ :=
    if (0 <=? po_next k) && (po_next k <? two31)
    then (po_next k, 0, tt, Post (po_self k) (po_log k) (po_next k + 1) (po_mail k))
    else (-1, EMFILE, tt, k);
  sys_getsockopt k _ _ _ _ := (0, 0, (0, 0), k);
  sys_setsockopt k _ _ _ _ := (0, 0, tt, k);
  sys_getsockname k _ _ := (0, 0, (Address.sockaddr_in 0, 16), k);
  sys_getpeername k _ _ := (0, 0, ([], 0), k);
  sys_bind k fd a n := (0, 0, tt, po_logs [Bound fd (Address.mk n a)] k);
  sys_connect k _ _ _ := (0, 0, tt, k);
  sys_shutdown k _ _ := (0, 0, tt, k);
  sys_listen k _ _ := (0, 0, tt, k);
  sys_accept k _ := (-1, EAGAIN, tt, k);
  sys_recvfrom k fd _ _ _ :=
    match default [] (po_mail k !! fd) with
    | (addr, data) :: rest =>
        if (zlen data <=? 65507) && (16 <=? zlen addr) then
          let a := Address.mk 16 (ztake 16 addr ++ replicate 112 Byte.x00) in
          (zlen data, 0, (data, (addr, 16)),
           Post (po_self k) (po_log k ++ [Got fd a data]) (po_next k) (<[fd := rest]> (po_mail k)))
        else (-1, EAGAIN, ([], ([], 0)), k)
    | [] => (-1, EAGAIN, ([], ([], 0)), k)
    end;
  sys_sendmsg k fd a n iov _ :=
    let data := concat iov.*1 in
    if zlen data <? two31 then (zlen data, 0, tt, po_logs [Sent fd (Address.mk n (default [] a)) data] k) else (-1, EMFILE, tt, k);
  sys_open k _ _ := (3, 0, tt, k);
  sys_tunsetiff k _ _ := (0, 0, tt, k)
|}.

(** A socket can be read when mail waits there. *)
Definition post_poll (k : post) (ps : list EventLoop.pollfd) (_ : Z) : Z * Z * list EventLoop.pollfd * post :=
  (zlen ps, 0, (fun p => EventLoop.Pollfd (EventLoop.p_fd p) (EventLoop.events p)
     (if bool_decide (default [] (po_mail k !! EventLoop.p_fd p) = []) then 0 else EventLoop.POLLIN)) <$> ps, k).

#[export] Instance post_poll_posix : PosixPoll post_poll.
Proof. split. intros k ps t r e ps' k' [= <- <- <- <-]. induction ps; constructor; auto. Qed.

#[export] Instance post_mail : MailKernel post_kernel post_net post_poll po_self po_set_self po_log (fun k fd => fd < po_next k).
Proof.
  split; try done; simpl.
  - intros k d t p r e x k'. destruct (Z.leb_spec 0 (po_next k)), (Z.ltb_spec (po_next k) two31); simpl; intros [= <- <- <- <-];
      simpl; unfold EMFILE; split_and!; try done; try lia.
    + intros _. split; [lia|]. intros fd. lia.
  - intros k fd a n r e x k' [= <- <- <- <-]. simpl. split_and!; done.
  - intros k fd r e data addr n k'. destruct (default [] (po_mail k !! fd)) as [|[addr' data'] rest].
    { intros [= <- <- <- <- <- <-]. split; [done|]. by left. }
    destruct (Z.leb_spec (zlen data') 65507), (Z.leb_spec 16 (zlen addr')); simpl; intros [= <- <- <- <- <- <-]; (split; [done|]);
      try (left; done). right. eexists. split; [split; [apply zlen_nonneg|done]|]. split; [done|]. split; [|done].
    unfold Address.of_sockaddr. simpl. destruct (Z.ltb_spec (zlen addr') 16); [lia|done].
  - intros k fd a n iov r e x k'. destruct (Z.ltb_spec (zlen (concat iov.*1)) two31); intros [= <- <- <- <-]; simpl; (split; [done|]).
    + pose proof (zlen_nonneg (concat iov.*1)). split; [lia|]. destruct (Z.leb_spec 0 (zlen (concat iov.*1))); [done|lia].
    + split; [lia|]. by rewrite app_nil_r.
  - intros k fd n r e addr len k' [= <- <- <- <- <-]. split; [done|]. vm_compute. discriminate.
Qed.

Lemma bouncer_relays_witness :
  let w := FileDescriptor.World (Post (Bouncer.mk [] []) [] 3 ∅) ∅ in
  let '(o, w') := Bouncer.program_body post_kernel post_net post_poll numeric_resolver po_self po_set_self 5 w in
  o <> Undefined /\ (concluded o -> fds w' = fds w) /\
  exists l, po_log (FileDescriptor.kernel w') = [] ++ l /\ served numeric_resolver o l.
Proof.
  apply (bouncer_relays post_kernel post_net post_poll numeric_resolver _ po_self po_set_self po_log (fun k fd => fd < po_next k) _ _ 5
    (FileDescriptor.World (Post (Bouncer.mk [] []) [] 3 ∅) ∅)).
  unfold fds. simpl. rewrite fmap_empty. apply map_Forall_empty.
Defined.

(** Two hosts meet: the first datagram is kept from nobody but has nowhere to go, the second goes
    to the first host, the third to the second one, and an empty one is not passed on. *)
Definition host_at (ip : Z) : list byte := Address.sockaddr_in ip.
Definition host_address (ip : Z) : Address.t := Address.mk 16 (host_at ip ++ replicate 112 Byte.x00).

Definition two_hosts : FileDescriptor.world :=
  FileDescriptor.World
    (Post (Bouncer.mk [0; 1] [None; None]) [] 5
       {[ 3 := [(host_at 7, [Byte.x61]); (host_at 7, [Byte.x63])]; 4 := [(host_at 9, [Byte.x62]); (host_at 9, [])] ]})
    {[ 0 := (FDWrapper.mk 3 false false 0 0, 2); 1 := (FDWrapper.mk 4 false false 0 0, 2) ]}.

Lemma two_hosts_meet :
  let rule := Bouncer.relay_rule post_net numeric_resolver po_self po_set_self in
  let '(_, (_, w)) := Bouncer.relay_rounds post_kernel post_poll 2 ([rule 0 1 0 1; rule 1 0 1 0], two_hosts) in
  po_log (FileDescriptor.kernel w) =
    [Got 3 (host_address 7) [Byte.x61];
     Got 4 (host_address 9) [Byte.x62]; Sent 3 (host_address 7) [Byte.x62];
     Got 3 (host_address 7) [Byte.x63]; Sent 4 (host_address 9) [Byte.x63];
     Got 4 (host_address 9) []].
Proof. vm_compute. reflexivity. Qed.
