(* ===== verification/Programs.v ===== *)
(** * Programs.v: the small programs

    Models [apps/tcp_native.cc], which copies between the terminal and a TCP connection of the
    operating system. *)

From stdpp Require Import gmap list pretty.
From S2P Require Import Prelude Streams Buffers Addresses CmdLine FileDesc EventLoop Sockets Handles StreamCopy.

(** ** [tcp_native] *)

Module TcpNative.

Section native.

Context {K : Type} (sys : Kernel K) (net : SocketCalls K)
  (sys_poll : K -> list EventLoop.pollfd -> Z -> Z * Z * list EventLoop.pollfd * K)
  (R : Address.Resolver) (self : K -> StreamCopy.t) (set_self : StreamCopy.t -> K -> K).

#[local] Abbreviation W := (FileDescriptor.world (K := K)).

(** The default argument of [TCPSocket::listen]. *)
Definition BACKLOG : Z := 16.

(** [Address{argv[i], argv[i + 1]}]. *)
Definition address_at (argv : list string) (i : nat) : outcome Address.t :=
  host ← argument argv i;
  service ← argument argv (S i);
  Address.of_host R host service.

(** The function that makes the socket: in server mode the listening socket goes when the one
    connection was accepted. *)
Definition open_socket (server_mode : bool) (argv : list string) : io W Z :=
  if server_mode then
    listening_socket ← TCPSocket.make net;
    StreamCopy.leaving (FileDescriptor.release sys listening_socket) (
      _ ← Socket.set_reuseaddr net listening_socket;
      a ← pure_ (address_at argv 2);
      _ ← Socket.bind net listening_socket a;
      _ ← TCPSocket.listen net listening_socket BACKLOG;
      TCPSocket.accept sys net listening_socket)
  else
    connecting_socket ← TCPSocket.make net;
    destroying (FileDescriptor.release sys connecting_socket) (
      a ← pure_ (address_at argv 1);
      _ ← Socket.connect net connecting_socket a;
      mret connecting_socket).

(** The arguments: none if the usage is shown, or whether to listen. *)
Definition mode (argv : list string) : outcome (option bool) :=
  if zlen argv <? 3 then Ok None
  else
    a ← argument argv 1;
    let server_mode := strncmp_eq 3 "-l" a in
    if server_mode && (zlen argv <? 4) then Ok None else Ok (Some server_mode).

(** [main]: the exit status. *)
Definition main (fuel : nat) (argv : list string) : io W Z :=
  catch (
    m ← pure_ (mode argv);
    match m with
    | None => mret 1
    | Some server_mode =>
        socket ← open_socket server_mode argv;
        _ ← StreamCopy.leaving (FileDescriptor.release sys socket)
              (StreamCopy.bidirectional_stream_copy sys net sys_poll self set_self fuel socket);
        mret 0
    end) (fun _ => mret 1).

End native.

End TcpNative.

(** ** Scopes *)

Lemma wp_leaving {X A} (cleanup : io X unit) (m : io X A) (Q : A -> X -> Prop) (E : X -> Prop) s :
  wp m (fun a s1 => exists s', cleanup s1 = (Ok tt, s') /\ Q a s') (fun s1 => exists s', cleanup s1 = (Ok tt, s') /\ E s') s ->
  wp (StreamCopy.leaving cleanup m) Q E s.
Proof.
  unfold wp, StreamCopy.leaving. destruct (m s) as [[a|e| |] s1]; try done; intros (s' & Hc & H); unfold mbind, io_bind; by rewrite Hc.
Qed.

Lemma wp_destroying {X A} (cleanup : io X unit) (m : io X A) (Q : A -> X -> Prop) (E : X -> Prop) s :
  wp m Q (fun s1 => exists s', cleanup s1 = (Ok tt, s') /\ E s') s -> wp (destroying cleanup m) Q E s.
Proof.
  unfold wp, destroying, catch. destruct (m s) as [[a|e| |] s1]; try done. intros (s' & Hc & H). unfold mbind, io_bind. by rewrite Hc.
Qed.

(** ** New sockets *)

(** The standard streams are open, so no new descriptor gets their numbers. *)
Class StandardStreams {K} (net : SocketCalls K) : Prop := {
  socket_number k d t p r e x k' : sys_socket net k d t p = (r, e, x, k') -> -1 <= r < two31 /\ (r = -1 -> e <> 0) /\ r <> 0 /\ r <> 1;
  accept_number k fd r e x k' : sys_accept net k fd = (r, e, x, k') -> -1 <= r < two31 /\ (r = -1 -> e <> 0) /\ r <> 0 /\ r <> 1
}.

Section sockets.

Context {K T : Type} (sys : Kernel K) (net : SocketCalls K)
  (sys_poll : K -> list EventLoop.pollfd -> Z -> Z * Z * list EventLoop.pollfd * K)
  (R : Address.Resolver) `{!SoundResolver R} (self : K -> T) (set_self : T -> K -> K) (sent got : K -> Z -> list byte)
  `{!LoggedKernel sys net sys_poll self set_self sent got} `{!StandardStreams net}.

#[local] Abbreviation W := (FileDescriptor.world (K := K)).
#[local] Abbreviation quiet := (quiet self sent got).

(** Nothing is read or written, and the descriptors and their flags stay as they are. *)
Definition steady : relation W := fun w w' => calm self sent got w w' /\ same_ends w w'.

#[export] Instance steady_preorder : PreOrder steady.
Proof. split; [done|]. intros w1 w2 w3 [A1 A2] [B1 B2]. split; by etrans. Qed.

Lemma update_steady h f : (forall x, FDWrapper._fd (f x) = FDWrapper._fd x) -> (forall x, FDWrapper._closed (f x) = FDWrapper._closed x) ->
  (forall x, FDWrapper._eof x = true -> FDWrapper._eof (f x) = true) -> respects steady (FileDescriptor.update h f).
Proof. intros H1 H2 H3 w. split; [by apply update_calm|by apply update_ends]. Qed.

Lemma system_call_steady {X} s (f : K -> Z * Z * X * K) : (forall k, quiet k (f k).2) -> respects steady (system_call s f).
Proof. intros Hf w. split; [by apply system_call_calm|apply system_call_ends]. Qed.

(** A call on the descriptor behind a handle. *)
Lemma fd_call_wp {X B} h s (f : Z -> K -> Z * Z * X * K) (k : Z * X -> io W B) (Q : B -> W -> Prop) (E : W -> Prop) w :
  is_Some (fds w !! h) -> (forall fd k, quiet k (f fd k).2) -> (forall w', steady w w' -> E w') ->
  (forall r w', steady w w' -> wp (k r) Q E w') ->
  wp (fd ← FileDescriptor.fd_num h; r ← system_call s (f fd); k r) Q E w.
Proof.
  intros [[fd n] Hh] Hq HE Hk. apply wp_bind. eapply wp_fd_num; [done|]. apply wp_bind.
  pose proof (system_call_steady s (f fd) (Hq fd) w) as Hs. unfold wp at 1. unfold system_call in *.
  destruct (f fd _) as [[[r e] x] kk]. unfold SystemCall in *. destruct (_ || _); [by apply Hk|by apply HE].
Qed.

Lemma of_host_total host service : concluded (Address.of_host R host service).
Proof.
  unfold Address.of_host, Address.resolve. destruct (Address.getaddrinfo R _ _ _) as [r found] eqn:E.
  destruct (negb _); [done|]. destruct found as [[addr len]|]; [|done]. apply getaddrinfo_length in E.
  unfold Address.of_sockaddr. destruct (_ <? _); [done|]. destruct (Z.ltb_spec (zlen addr) len); [lia|done].
Qed.

(** A handle that nobody else knows. *)
Definition adds (h fd : Z) (w w' : W) : Prop :=
  fds w !! h = None /\ fds w' = <[h := (fd, 1)]> (fds w) /\ quiet (FileDescriptor.kernel w) (FileDescriptor.kernel w') /\
  closed_of w' h = false /\ fd <> StreamCopy.STDIN_FILENO /\ fd <> StreamCopy.STDOUT_FILENO.

Definition as_before (w w' : W) : Prop := fds w' = fds w /\ quiet (FileDescriptor.kernel w) (FileDescriptor.kernel w').

Lemma adds_steady h fd w w1 w2 : adds h fd w w1 -> steady w1 w2 -> adds h fd w w2.
Proof.
  intros (A1 & A2 & A3 & A4 & A5) [[B1 B2] B3]. split; [done|]. split; [congruence|]. split; [by etrans|]. split; [|done].
  destruct (B3 h) as [-> _]. done.
Qed.

Lemma adds_release h fd w w1 : adds h fd w w1 -> exists w', FileDescriptor.release sys h w1 = (Ok tt, w') /\ as_before w w'.
Proof.
  intros (A1 & A2 & A3 & _ & _). destruct (release_fds sys h fd 1 w1) as (w' & Hr & Hk & Hf & _); [by rewrite A2, lookup_insert_eq|done|].
  exists w'. split; [done|]. simpl in Hf. split; [by rewrite Hf, A2, delete_insert_id|]. etrans; [exact A3|].
  by apply (may_close_quiet (sys := sys) (net := net) (sys_poll := sys_poll) (set_self := set_self)), relations.rtc_once.
Qed.

(** A new descriptor, from a call that gives its number. *)
Lemma new_fd_wp s (f : K -> Z * Z * unit * K) w :
  (forall k r e x k', f k = (r, e, x, k') -> quiet k k' /\ -1 <= r < two31 /\ (r = -1 -> e <> 0) /\ r <> 0 /\ r <> 1) ->
  wp ('(fd, _) ← system_call s f; FileDescriptor.make fd) (fun h w' => exists fd, adds h fd w w') (as_before w) w.
Proof.
  intros Hf. apply wp_bind. unfold wp at 1, system_call. destruct (f (FileDescriptor.kernel w)) as [[[r e] x] k] eqn:E.
  destruct (Hf _ _ _ _ _ E) as (Hq & Hr & He & H0 & H1). rewrite s32_id by lia. unfold SystemCall.
  destruct (Z.leb_spec 0 r); simpl.
  2:{ assert (r = -1) as -> by lia. destruct (Z.eqb_spec e 0) as [->|]; [by destruct (He eq_refl)|]. by split. }
  destruct (make_fds r (FileDescriptor.set_kernel k w)) as (h & w' & Hm & Hn & Hfd & Hk & Hc); [done|].
  unfold wp. rewrite Hm. exists r. split; [done|]. split; [done|]. split; [by rewrite Hk|]. split; [|done].
  rewrite Hc. by apply closed_absent.
Qed.

Lemma make_socket_wp w : wp (TCPSocket.make net) (fun h w' => exists fd, adds h fd w w') (as_before w) w.
Proof.
  apply new_fd_wp. intros k r e x k' Hs. destruct (socket_number _ _ _ _ _ _ _ _ Hs) as (? & ? & ? & ?).
  pose proof (logged_socket (sys := sys) (sys_poll := sys_poll) (set_self := set_self) k Address.AF_INET Socket.SOCK_STREAM 0) as Hq.
  by rewrite Hs in Hq.
Qed.

Ltac steadily := respecting; try (by apply update_steady; intros []); try (by intros ?); apply system_call_steady; intros k.

Lemma verify_steady h domain type : respects steady (Socket.verify net h domain type).
Proof.
  unfold Socket.verify, FileDescriptor.fd_num. steadily;
    apply (logged_getsockopt (sys := sys) (sys_poll := sys_poll) (set_self := set_self)).
Qed.

Lemma system_call_answers {X} h s (f : K -> Z * Z * X * K) : answers h (system_call s f).
Proof. intros w _. unfold system_call. destruct (f _) as [[[r e] x] k]. unfold SystemCall. by destruct (_ || _). Qed.

Lemma verify_answers h domain type : answers h (Socket.verify net h domain type).
Proof.
  unfold Socket.verify, FileDescriptor.fd_num. answering; try apply system_call_answers; by respecting.
Qed.

Lemma of_fd_wp h fd domain type w w1 : adds h fd w w1 ->
  wp (Socket.of_fd sys net h domain type) (fun h' w' => h' = h /\ adds h fd w w') (as_before w) w1.
Proof.
  intros Ha. unfold Socket.of_fd. apply wp_bind, wp_destroying.
  eapply (wp_call _ steady h); [apply verify_answers|apply verify_steady| |..].
  - destruct Ha as (_ & -> & _). rewrite lookup_insert_eq. by eexists.
  - intros u w2 H2. apply wp_ret. split; [done|]. by eapply adds_steady.
  - intros w2 H2. eapply adds_release, adds_steady; [exact Ha|exact H2].
Qed.

(** Accepting leaves the listening socket. *)
Lemma accept_wp l w : is_Some (fds w !! l) ->
  wp (TCPSocket.accept sys net l) (fun h w' => exists fd w1, steady w w1 /\ adds h fd w1 w')
    (fun w' => exists w1, steady w w1 /\ as_before w1 w') w.
Proof.
  intros Hl. unfold TCPSocket.accept. apply wp_bind.
  assert (Hreg : steady w (FileDescriptor.register_read l w).2) by (apply (update_steady l FDWrapper.count_read); by intros []).
  unfold wp at 1. change (FileDescriptor.register_read l w) with (Ok tt, (FileDescriptor.register_read l w).2).
  set (w1 := (FileDescriptor.register_read l w).2) in *. cbv beta iota.
  assert (Hl1 : is_Some (fds w1 !! l)) by (destruct Hreg as [[-> _] _]; done). destruct Hl1 as [[fd n] Hfd].
  apply wp_bind. eapply wp_fd_num; [done|].
  assert (Hacc : wp ('(n, _) ← system_call "accept" (fun k => sys_accept net k fd); FileDescriptor.make n)
    (fun h w' => exists fd, adds h fd w1 w') (as_before w1) w1).
  { apply new_fd_wp. intros k r e x k' Hs. destruct (accept_number _ _ _ _ _ _ Hs) as (? & ? & ? & ?).
    pose proof (logged_accept (sys := sys) (sys_poll := sys_poll) (set_self := set_self) k fd) as Hq. by rewrite Hs in Hq. }
  assert (Hassoc : forall w, ('(n, _) ← system_call "accept" (fun k => sys_accept net k fd); h' ← FileDescriptor.make n; TCPSocket.of_fd sys net h') w =
    (h' ← ('(n, _) ← system_call "accept" (fun k => sys_accept net k fd); FileDescriptor.make n); TCPSocket.of_fd sys net h') w).
  { intros v. unfold mbind, io_bind. by destruct (system_call _ _ v) as [[[? ?]| | |] ?]. }
  unfold wp. rewrite Hassoc. apply wp_bind. eapply wp_mono; [exact Hacc| |].
  - intros h w2 [fd' Ha]. eapply wp_mono; [by eapply of_fd_wp| |].
    + intros h' w3 [-> Ha3]. by exists fd', w1.
    + intros w3 H3. by exists w1.
  - intros w2 H2. by exists w1.
Qed.

Lemma address_at_wp argv i (Q : Address.t -> W -> Prop) (E : W -> Prop) w : (S (S i) <= length argv)%nat ->
  (forall a, Q a w) -> E w -> wp (pure_ (TcpNative.address_at R argv i)) Q E w.
Proof.
  intros Hi HQ HE. eapply (wp_pure _ (fun _ => True)); [|auto|done]. unfold TcpNative.address_at, argument.
  destruct (lookup_lt_is_Some_2 argv i) as [a ->]; [lia|]. destruct (lookup_lt_is_Some_2 argv (S i)) as [b ->]; [lia|]. apply of_host_total.
Qed.

(** The listening socket goes, the accepted one stays. *)
Lemma adds_swap l fdl h fdh w w1 w2 w3 : adds l fdl w w1 -> steady w1 w2 -> adds h fdh w2 w3 ->
  exists w', FileDescriptor.release sys l w3 = (Ok tt, w') /\ adds h fdh w w'.
Proof.
  intros (A1 & A2 & A3 & _ & _) [[B1 B2] _] (C1 & C2 & C3 & C4 & C5). rewrite B1, A2 in C1, C2.
  apply lookup_insert_None in C1 as [C1 Hne]. assert (Hl : fds w3 !! l = Some (fdl, 1)) by (by rewrite C2, lookup_insert_ne, lookup_insert_eq).
  destruct (release_fds sys l fdl 1 w3 Hl) as (w' & Hr & Hk & Hf & Hc); [done|]. simpl in Hf. exists w'. split; [done|].
  assert (Hw' : fds w' = <[h := (fdh, 1)]> (fds w)) by (by rewrite Hf, C2, delete_insert_ne, delete_insert_id).
  split; [done|]. split; [done|]. split; [|split; [|done]].
  - etrans; [exact A3|]. etrans; [exact B2|]. etrans; [exact C3|].
    by apply (may_close_quiet (sys := sys) (net := net) (sys_poll := sys_poll) (set_self := set_self)), relations.rtc_once.
  - destruct (Hc h) as [-> _]; [|done]. rewrite Hw', lookup_insert_eq. by eexists.
Qed.

Lemma adds_restored l fdl w w1 w2 w3 : adds l fdl w w1 -> steady w1 w2 -> as_before w2 w3 ->
  exists w', FileDescriptor.release sys l w3 = (Ok tt, w') /\ as_before w w'.
Proof.
  intros (A1 & A2 & A3 & _ & _) [[B1 B2] _] [C1 C2]. assert (Hl : fds w3 !! l = Some (fdl, 1)) by (by rewrite C1, B1, A2, lookup_insert_eq).
  destruct (release_fds sys l fdl 1 w3 Hl) as (w' & Hr & Hk & Hf & _); [done|]. simpl in Hf. exists w'. split; [done|].
  split; [by rewrite Hf, C1, B1, A2, delete_insert_id|].
  etrans; [exact A3|]. etrans; [exact B2|]. etrans; [exact C2|].
  by apply (may_close_quiet (sys := sys) (net := net) (sys_poll := sys_poll) (set_self := set_self)), relations.rtc_once.
Qed.

Lemma adds_there h fd w w1 w2 : adds h fd w w1 -> steady w1 w2 -> is_Some (fds w2 !! h).
Proof. intros (_ & A2 & _) [[-> _] _]. rewrite A2, lookup_insert_eq. by eexists. Qed.

Lemma open_socket_wp (server : bool) argv w : ((if server then 4 else 3) <= length argv)%nat ->
  wp (TcpNative.open_socket sys net R server argv) (fun h w' => exists fd, adds h fd w w') (as_before w) w.
Proof.
  intros Hargc. unfold TcpNative.open_socket. destruct server; apply wp_bind;
    (eapply wp_mono; [apply make_socket_wp| |done]); intros h w1 [fd Ha].
  - apply wp_leaving. assert (HE : forall w2, steady w1 w2 -> exists w', FileDescriptor.release sys h w2 = (Ok tt, w') /\ as_before w w').
    { intros w2 H2. eapply adds_release, adds_steady; [exact Ha|exact H2]. }
      assert (Hh : is_Some (fds w1 !! h)) by (by eapply adds_there). apply wp_bind. unfold Socket.set_reuseaddr, Socket.setsockopt.
    apply (fd_call_wp h); [done|intros; apply (logged_setsockopt (sys := sys) (sys_poll := sys_poll) (set_self := set_self))|done|].
    intros _ w2 H2. apply wp_ret, wp_bind, address_at_wp; [done| |by apply HE]. intros a.
    apply wp_bind. unfold Socket.bind. apply (fd_call_wp h); [by eapply adds_there|
      intros; apply (logged_bind (sys := sys) (sys_poll := sys_poll) (set_self := set_self))|intros w3 H3; apply HE; by etrans|].
    intros _ w3 H3. assert (H13 : steady w1 w3) by (by etrans). apply wp_ret, wp_bind. unfold TCPSocket.listen.
    apply (fd_call_wp h); [by eapply adds_there|
      intros; apply (logged_listen (sys := sys) (sys_poll := sys_poll) (set_self := set_self))|intros w4 H4; apply HE; by etrans|].
    intros _ w4 H4. assert (H14 : steady w1 w4) by (by etrans). apply wp_ret.
    eapply wp_mono; [apply accept_wp; by eapply adds_there|..].
    + intros h' w5 (fd' & w6 & H6 & Ha'). destruct (adds_swap h fd h' fd' w w1 w6 w5) as (w' & Hr & Hadds); [done|by etrans|done|].
      exists w'. split; [done|]. by exists fd'.
    + intros w5 (w6 & H6 & Hb). eapply (adds_restored h fd w w1 w6 w5); [done|by etrans|done].
  - apply wp_destroying. assert (HE : forall w2, steady w1 w2 -> exists w', FileDescriptor.release sys h w2 = (Ok tt, w') /\ as_before w w').
    { intros w2 H2. eapply adds_release, adds_steady; [exact Ha|exact H2]. }
    apply wp_bind, address_at_wp; [done| |by apply HE]. intros a. apply wp_bind. unfold Socket.connect.
    apply (fd_call_wp h); [by eapply (adds_there _ _ _ _ _ Ha)|
      intros; apply (logged_connect (sys := sys) (sys_poll := sys_poll) (set_self := set_self))|done|].
    intros _ w2 H2. apply wp_ret, wp_ret. exists fd. by eapply adds_steady.
Qed.

End sockets.

(** ** The copy in its scope *)

(** Both directions of a copy between the terminal and the descriptor [sfd], from [k] to [k']: [x]
    has come in and gone out, [y] has come in. *)
Definition copied {K} (sent got : K -> Z -> list byte) (sfd : Z) (k k' : K) (complete : Prop) : Prop :=
  forall d, exists x y, got k' (source sfd d) = got k (source sfd d) ++ x ++ y /\ sent k' (sink sfd d) = sent k (sink sfd d) ++ x /\
    (complete -> y = []).

Section scope.

Context {K : Type} (sys : Kernel K) (net : SocketCalls K)
  (sys_poll : K -> list EventLoop.pollfd -> Z -> Z * Z * list EventLoop.pollfd * K)
  (self : K -> StreamCopy.t) (set_self : StreamCopy.t -> K -> K) (sent got : K -> Z -> list byte)
  `{!PosixKernel sys sent} `{!LoggedKernel sys net sys_poll self set_self sent got} `{!PosixPoll sys_poll}
  (hung : Z -> Prop) (Hhung : reports_hangups sys_poll hung).

#[local] Abbreviation W := (FileDescriptor.world (K := K)).

Lemma quiet_copied sfd k k1 k2 k' (P Q : Prop) : quiet self sent got k k1 -> quiet self sent got k2 k' -> (Q -> P) ->
  copied sent got sfd k1 k2 P -> copied sent got sfd k k' Q.
Proof.
  intros (_ & S1 & G1) (_ & S2 & G2) HPQ Hc d. destruct (Hc d) as (x & y & Hg & Hs & Hy). exists x, y.
  rewrite G2, S2, Hg, Hs, G1, S1. auto.
Qed.

Lemma copy_scope fuel h fd w w1 : map_Forall (fun _ x => 1 <= x.2) (fds w) -> adds self sent got h fd w w1 ->
  let '(o, w') := StreamCopy.leaving (FileDescriptor.release sys h)
                    (StreamCopy.bidirectional_stream_copy sys net sys_poll self set_self fuel h) w1 in
  o <> Undefined /\ (concluded o -> fds w' = fds w) /\
  copied sent got fd (FileDescriptor.kernel w) (FileDescriptor.kernel w')
    (o = Ok tt /\ ~ interruptible sys_poll /\ ~ hung fd /\ ~ hung StreamCopy.STDOUT_FILENO).
Proof.
  intros Howners (Hnew & Hf & Hq & Hc & Hfd).
  pose proof (stream_copy_spec sys net sys_poll self set_self sent got (fun _ => tt) (fun _ k => k) hung
    (~ hung fd /\ ~ hung StreamCopy.STDOUT_FILENO) fuel h fd 1 w1) as Hcopy.
  specialize (Hcopy ltac:(by eapply unit_logged) ltac:(done) Hhung ltac:(tauto) ltac:(by rewrite Hf, lookup_insert_eq)
    ltac:(rewrite Hf; by apply map_Forall_insert_2; [simpl; lia|]) Hfd).
  unfold StreamCopy.leaving. destruct (StreamCopy.bidirectional_stream_copy _ _ _ _ _ _ _ w1) as [o w2]. destruct Hcopy as (Hu & Hflow & _ & Hback & Hdone).
  assert (Hcopied : copied sent got fd (FileDescriptor.kernel w1) (FileDescriptor.kernel w2)
    (o = Ok tt /\ ~ interruptible sys_poll /\ ~ hung fd /\ ~ hung StreamCopy.STDOUT_FILENO)).
  { intros d. destruct (Hflow d) as (_ & x & Hg & Hs). eexists x, _. split; [exact Hg|]. split; [exact Hs|].
    intros (Ho & Hi & Hup). destruct (Hdone Ho Hup) as [|Hfin]; [done|]. by destruct (Hfin d) as (-> & _). }
  assert (Hrel : fds w2 = fds w1 -> exists w', FileDescriptor.release sys h w2 = (Ok tt, w') /\ fds w' = fds w /\
    quiet self sent got (FileDescriptor.kernel w2) (FileDescriptor.kernel w')).
  { intros E. destruct (release_fds sys h fd 1 w2) as (w' & Hr & Hk & Hf' & _); [by rewrite E, Hf, lookup_insert_eq|done|].
    simpl in Hf'. exists w'. split; [done|]. split; [by rewrite Hf', E, Hf, delete_insert_id|].
    by apply (may_close_quiet (sys := sys) (net := net) (sys_poll := sys_poll) (set_self := set_self)), relations.rtc_once. }
  destruct o as [[]|e| |]; try done.
  - destruct (Hrel (Hback Logic.I)) as (w' & Hr & Hf' & Hq'). unfold mbind, io_bind. rewrite Hr. split; [done|]. split; [done|].
    eapply quiet_copied; [exact Hq|exact Hq'| |exact Hcopied]. done.
  - destruct (Hrel (Hback Logic.I)) as (w' & Hr & Hf' & Hq'). unfold mbind, io_bind. rewrite Hr. split; [done|]. split; [done|].
    eapply quiet_copied; [exact Hq|exact Hq'| |exact Hcopied]. by intros [? _].
  - split; [done|]. split; [done|]. eapply quiet_copied; [exact Hq| | |exact Hcopied]; [done|by intros [? _]].
Qed.

End scope.

(** ** Properties *)

(** [tcp_native] copies.  Whatever its arguments, the kernel and the peer are, [main] exits
    with 0 or 1 or runs on, never reaches undefined behaviour, and closes every descriptor it
    opened, the listening socket included, on every path; in each direction the bytes written
    are a prefix of those read, and all of them when it exits with 0, unless a signal came or a
    hangup was reported. *)
Theorem native_copies {K} (sys : Kernel K) (net : SocketCalls K) sys_poll (R : Address.Resolver) (self : K -> StreamCopy.t) set_self
  (sent got : K -> Z -> list byte) (HR : SoundResolver R) (Hposix : PosixKernel sys sent)
  (Hlog : LoggedKernel sys net sys_poll self set_self sent got) (Hstd : StandardStreams net) (Hpoll : PosixPoll sys_poll)
  (hung : Z -> Prop) (Hhung : reports_hangups sys_poll hung)
  (fuel : nat) (argv : list string) (w : FileDescriptor.world) (Howners : map_Forall (fun _ x => 1 <= x.2) (fds w)) :
  let '(o, w') := TcpNative.main sys net sys_poll R self set_self fuel argv w in
  (o = Ok 0 \/ o = Ok 1 \/ o = OutOfFuel) /\ (concluded o -> fds w' = fds w) /\
  exists sfd, copied sent got sfd (FileDescriptor.kernel w) (FileDescriptor.kernel w')
    (o = Ok 0 /\ ~ interruptible sys_poll /\ ~ hung sfd /\ ~ hung StreamCopy.STDOUT_FILENO).
Proof.
  assert (Hnone : forall P w', quiet self sent got (FileDescriptor.kernel w) (FileDescriptor.kernel w') ->
    exists sfd, copied sent got sfd (FileDescriptor.kernel w) (FileDescriptor.kernel w') (P sfd)).
  { intros P w' (_ & H1 & H2). exists 0. intros d. exists [], []. rewrite H1, H2. by rewrite !app_nil_r. }
  unfold TcpNative.main, catch. unfold TcpNative.mode. destruct (Z.ltb_spec (zlen argv) 3); [|unfold argument].
  { split; [by right; left|]. split; [done|]. by apply (Hnone (fun _ => _) w). }
  destruct (lookup_lt_is_Some_2 argv 1) as [a Ea]; [lia|]. rewrite Ea. cbn [mbind outcome_bind]. set (server := strncmp_eq 3 "-l" a).
  destruct (server && (zlen argv <? 4)) eqn:Eu.
  { split; [by right; left|]. split; [done|]. by apply (Hnone (fun _ => _) w). }
  assert (Hargc : ((if server then 4 else 3) <= length argv)%nat) by (destruct server; [apply Z.ltb_ge in Eu|]; lia).
  pose proof (open_socket_wp sys net sys_poll R self set_self sent got server argv w Hargc) as Hopen.
  unfold mbind at 1, io_bind at 1, pure_ at 1. unfold mbind at 1, io_bind at 1. unfold wp in Hopen.
  destruct (TcpNative.open_socket sys net R server argv w) as [[h|e| |] w1]; try done.
  2:{ split; [by right; left|]. destruct Hopen as [H1 H2]. split; [done|]. by apply (Hnone (fun _ => _)). }
  destruct Hopen as (fd & Ha). pose proof (copy_scope sys net sys_poll self set_self sent got hung Hhung fuel h fd w w1 Howners Ha) as Hcopy.
  unfold mbind, io_bind. destruct (StreamCopy.leaving _ _ w1) as [o w2]. destruct Hcopy as (Hu & Hf & Hcopied).
  destruct o as [[]|e| |]; try done; (split; [by auto|]); (split; [by auto|]); exists fd;
    (eapply (quiet_copied self); [done|done| |exact Hcopied]); by intros [? ?].
Qed.

#[export] Instance console_standard : StandardStreams console_net.
Proof. split; intros; simplify_eq/=; split_and!; done || lia. Qed.

(** A client whose connection is descriptor 3 of the console of StreamCopy.v. *)
Definition native_start : FileDescriptor.world := FileDescriptor.World (FileDescriptor.kernel console_start) ∅.

Definition native_run (fuel : nat) :=
  TcpNative.main console_kernel console_net poll_in_out numeric_resolver c_locals set_locals fuel ["tcp_native"; "10.0.0.1"; "80"] native_start.

Lemma native_copies_witness :
  let '(o, w') := native_run 10 in
  (o = Ok 0 \/ o = Ok 1 \/ o = OutOfFuel) /\ (concluded o -> fds w' = fds native_start) /\
  exists sfd, copied console_sent console_got sfd (FileDescriptor.kernel native_start) (FileDescriptor.kernel w')
    (o = Ok 0 /\ ~ interruptible (@poll_in_out console) /\ ~ False /\ ~ False).
Proof.
  apply (native_copies console_kernel console_net poll_in_out numeric_resolver c_locals set_locals console_sent console_got
    _ _ _ _ _ (fun _ => False) poll_in_out_hangs 10 ["tcp_native"; "10.0.0.1"; "80"] native_start).
  unfold fds. simpl. rewrite fmap_empty. apply map_Forall_empty.
Defined.

(** It sends the five bytes of the terminal, shows the eight of the peer, and exits. *)
Lemma native_copied :
  let '(o, w') := native_run 10 in
  (o, console_sent (FileDescriptor.kernel w') 3, console_sent (FileDescriptor.kernel w') 1) =
    (Ok 0, replicate 5 Byte.x41, replicate 8 Byte.x42).
Proof. vm_compute. reflexivity. Qed.
