(* ===== verification/SpongeSocket.v ===== *)
(** * SpongeSocket.v: the socket around a TCP connection

    Models [libsponge/tcp_helpers/tcp_sponge_socket.hh] and
    [libsponge/tcp_helpers/tcp_sponge_socket.cc].  The object lives in memory that its
    callbacks share: [self] and [set_self] read and write it in the state of the machine, [K].
    The rules of the event loop are kept beside it.  The clock and the flag by which the owner's
    thread asks the TCP thread to stop are parameters that any system call may change.  The
    destructor and [wait_until_closed] take what the thread has still to do as an argument and
    run it to its end; debugging output is left out, except for the lookup of the
    peer's name that the output needs and that can throw. *)

From stdpp Require Import gmap pretty.
From S2P Require Import Prelude Wrapping Streams Buffers TcpWire Receiver Sender Connection TcpState Addresses Adapters.
From S2P Require Import FileDesc EventLoop Sockets.

(** What the socket needs of an adapter: the handle of its descriptor, reading, writing and
    time, and its [FdAdapterBase]. *)
Class SpongeAdapter (W A : Type) := {
  ad_fd : A -> Z;
  ad_read : A -> io W (A * option TCPSegment.t);
  ad_write : A -> TCPSegment.t -> io W A;
  ad_tick : A -> Z -> io W A;
  ad_base : A -> FdAdapterBase.t;
  ad_set_base : A -> FdAdapterBase.t -> A
}.

Module TCPSpongeSocket.

Definition TCP_TICK_MS : Z := 10.

(** The object, without the parts kept elsewhere. *)
Record t (A : Type) := mk {
  _datagram_adapter : A;
  _tcp : option TCPConnection.t;
  _inbound_shutdown : bool;
  _outbound_shutdown : bool;
  _fully_acked : bool
}.
Arguments mk {A}.
Arguments _datagram_adapter {A}.
Arguments _tcp {A}.
Arguments _inbound_shutdown {A}.
Arguments _outbound_shutdown {A}.
Arguments _fully_acked {A}.

Definition set_datagram_adapter {A} (s : t A) v : t A :=
  mk v (_tcp s) (_inbound_shutdown s) (_outbound_shutdown s) (_fully_acked s).
Definition set_tcp {A} (s : t A) v : t A :=
  mk (_datagram_adapter s) v (_inbound_shutdown s) (_outbound_shutdown s) (_fully_acked s).
Definition set_inbound_shutdown {A} (s : t A) v : t A :=
  mk (_datagram_adapter s) (_tcp s) v (_outbound_shutdown s) (_fully_acked s).
Definition set_outbound_shutdown {A} (s : t A) v : t A :=
  mk (_datagram_adapter s) (_tcp s) (_inbound_shutdown s) v (_fully_acked s).
Definition set_fully_acked {A} (s : t A) v : t A :=
  mk (_datagram_adapter s) (_tcp s) (_inbound_shutdown s) (_outbound_shutdown s) v.

Section sponge.

Context {K A : Type} (sys : Kernel K) (net : SocketCalls K)
  (sys_poll : K -> list EventLoop.pollfd -> Z -> Z * Z * list EventLoop.pollfd * K)
  (clock : K -> Z * K) (aborted : K -> bool) (R : Address.Resolver)
  (self : K -> t A) (set_self : t A -> K -> K).

#[local] Abbreviation W := (FileDescriptor.world (K := K)).

Context `{!SpongeAdapter W A}.

(** The handles of the base class and of [_thread_data]. *)
Context (own thread_data : Z).

Definition get : io W (t A) := gets (fun w => self (FileDescriptor.kernel w)).
Definition put (f : t A -> t A) : io W unit := modify (fun w =>
  FileDescriptor.set_kernel (set_self (f (self (FileDescriptor.kernel w))) (FileDescriptor.kernel w)) w).

(** [_tcp->] on an empty optional is undefined, [_tcp.value()] throws. *)
Definition tcp : io W TCPConnection.t :=
  s ← get; match _tcp s with Some c => mret c | None => pure_ Undefined end.
Definition tcp_value : io W TCPConnection.t :=
  s ← get; match _tcp s with Some c => mret c | None => pure_ (Throw bad_optional_access) end.
Definition store (c : TCPConnection.t) : io W unit := put (fun s => set_tcp s (Some c)).

(** [_tcp->f(...)] for an [f] that changes the connection. *)
Definition on_tcp (f : TCPConnection.t -> outcome TCPConnection.t) : io W unit :=
  c ← tcp; c ← pure_ (f c); store c.

(** [_datagram_adapter.config().destination.to_string()]. *)
Definition peer_name : io W string :=
  s ← get; pure_ (Address.to_string R (FdAdapterConfig.destination (FdAdapterBase.config (ad_base (_datagram_adapter s))))).

(** [_datagram_adapter.read()] and so on. *)
Definition adapter_read : io W (option TCPSegment.t) :=
  s ← get;
  '(a, seg) ← ad_read (_datagram_adapter s);
  _ ← put (fun s => set_datagram_adapter s a);
  mret seg.
Definition adapter_write (seg : TCPSegment.t) : io W unit :=
  s ← get;
  a ← ad_write (_datagram_adapter s) seg;
  put (fun s => set_datagram_adapter s a).
Definition adapter_tick (ms : Z) : io W unit :=
  s ← get;
  a ← ad_tick (_datagram_adapter s) ms;
  put (fun s => set_datagram_adapter s a).

(** Rule 1: from the datagrams to the connection. *)
Definition segment_callback : io W unit :=
  seg ← adapter_read;
  _ ← (match seg with
       | Some seg => on_tcp (fun c => TCPConnection.segment_received c seg)
       | None => mret tt
       end);
  at_eof ← FileDescriptor.eof thread_data;
  if at_eof : bool then
    c ← tcp_value;
    s ← get;
    if (TCPConnection.bytes_in_flight c =? 0) && negb (_fully_acked s)
    then _ ← peer_name; put (fun s => set_fully_acked s true)
    else mret tt
  else mret tt.

Definition segment_interest : io W bool := c ← tcp; mret (TCPConnection.active c).

(** Rule 2: from the owner to the outbound stream; what follows the read first. *)
Definition outbound_store (data : list byte) : io W unit :=
  let len := zlen data in
  c ← tcp;
  '(c, amount_written) ← pure_ (TCPConnection.write c data);
  _ ← store c;
  if negb (amount_written =? len)
  then pure_ (Throw (runtime_error "TCPConnection::write() accepted less than advertised length"))
  else
    at_eof ← FileDescriptor.eof thread_data;
    if at_eof : bool then
      _ ← on_tcp TCPConnection.end_input_stream;
      _ ← put (fun s => set_outbound_shutdown s true);
      _ ← peer_name;
      _ ← tcp_value;
      mret tt
    else mret tt.

Definition outbound_callback : io W unit :=
  c ← tcp;
  data ← FileDescriptor.read sys thread_data (TCPConnection.remaining_outbound_capacity c);
  outbound_store data.

Definition outbound_interest : io W bool :=
  c ← tcp;
  s ← get;
  mret (TCPConnection.active c && negb (_outbound_shutdown s) && (0 <? TCPConnection.remaining_outbound_capacity c)).

Definition outbound_cancel : io W unit :=
  _ ← on_tcp TCPConnection.end_input_stream;
  put (fun s => set_outbound_shutdown s true).

(** [_tcp->inbound_stream()] is a reference into the connection. *)
Definition set_inbound (c : TCPConnection.t) (st : ByteStream.t) : TCPConnection.t :=
  TCPConnection.set_receiver c (TCPReceiver.set_stream_out (TCPConnection.receiver_ c) st).

(** Rule 3: from the inbound stream to the owner; its end first. *)
Definition inbound_end : io W unit :=
  c ← tcp;
  let inbound := TCPConnection.inbound_stream c in
  if ByteStream.eof inbound || ByteStream.error inbound then
    _ ← Socket.shutdown net thread_data Socket.SHUT_WR;
    _ ← put (fun s => set_inbound_shutdown s true);
    _ ← peer_name;
    _ ← tcp_value;
    mret tt
  else mret tt.

Definition inbound_callback : io W unit :=
  c ← tcp;
  let amount_to_write := Z.min 65536 (ByteStream.buffer_size (TCPConnection.inbound_stream c)) in
  buffer ← pure_ (ByteStream.peek_output (TCPConnection.inbound_stream c) amount_to_write);
  bytes_written ← FileDescriptor.write sys thread_data (BufferViewList.of_string buffer) false;
  _ ← on_tcp (fun c =>
        st ← ByteStream.pop_output (TCPConnection.inbound_stream c) bytes_written; Ok (set_inbound c st));
  inbound_end.

Definition inbound_interest : io W bool :=
  c ← tcp;
  s ← get;
  let inbound := TCPConnection.inbound_stream c in
  mret (negb (ByteStream.buffer_empty inbound) ||
        ((ByteStream.eof inbound || ByteStream.error inbound) && negb (_inbound_shutdown s))).

(** Rule 4: from the connection to the datagrams. *)
Fixpoint send_segments (fuel : nat) : io W unit :=
  match fuel with
  | O => pure_ OutOfFuel
  | S fuel =>
      c ← tcp;
      match TCPConnection.segments_out c with
      | [] => mret tt
      | seg :: _ =>
          _ ← adapter_write seg;
          _ ← on_tcp (fun c => Ok (TCPConnection.set_segments_out c (tail (TCPConnection.segments_out c))));
          send_segments fuel
      end
  end.

(** Each round takes one segment out of the queue. *)
Definition datagram_callback : io W unit :=
  c ← tcp; send_segments (S (length (TCPConnection.segments_out c))).

Definition datagram_interest : io W bool :=
  c ← tcp; mret (negb (bool_decide (TCPConnection.segments_out c = []))).

(** [socketpair], and the constructor that takes the pair: the object's own handle and that of
    [_thread_data]. *)
Definition socket_pair_helper (sys_socketpair : K -> Z -> Z -> Z -> Z * Z * (Z * Z) * K) (type : Z) : io W (Z * Z) :=
  '(_, (fd0, fd1)) ← system_call "socketpair" (fun k => sys_socketpair k Socket.AF_UNIX type 0);
  first ← FileDescriptor.make fd0;
  second ← destroying (FileDescriptor.release sys first) (FileDescriptor.make fd1);
  mret (first, second).

Definition construct (data_socket_pair : Z * Z) : io W (Z * Z) :=
  let '(first, second) := data_socket_pair in
  own ← destroying (FileDescriptor.release sys second) (LocalStreamSocket.of_fd sys net first);
  destroying (FileDescriptor.release sys own)
    (thread_data ← LocalStreamSocket.of_fd sys net second;
     _ ← destroying (FileDescriptor.release sys thread_data) (FileDescriptor.set_blocking sys thread_data false);
     mret (own, thread_data)).

(** The rules of the event loop and the rest of the machine. *)
#[local] Abbreviation ST := (list (EventLoop.Rule K) * W)%type.

Definition machine {B} (m : io W B) : io ST B := fun '(rules, w) =>
  let '(o, w) := m w in (o, (rules, w)).

Definition wait_next_event : io ST EventLoop.Result := fun '(rules, w) =>
  let '(o, rules, w) := EventLoop.wait_next_event sys sys_poll TCP_TICK_MS rules w in (o, (rules, w)).

Definition add_rule (h : Z) (d : EventLoop.Direction) (cb : io W unit) (i : io W bool) (c : io W unit) : io ST unit :=
  fun '(rules, w) =>
  match EventLoop.add_rule rules h d cb i c w with
  | (Ok rules', w) => (Ok tt, (rules', w))
  | (Throw e, w) => (Throw e, (rules, w))
  | (Undefined, w) => (Undefined, (rules, w))
  | (OutOfFuel, w) => (OutOfFuel, (rules, w))
  end.

(** [_tcp.emplace(config)]; [random] is the sender's random initial sequence number. *)
Definition _initialize_TCP (config : TCPConfig.t) (random : Z) : io ST unit :=
  c ← machine (pure_ (TCPConnection.make config random));
  _ ← machine (store c);
  s ← machine get;
  let adapter := ad_fd (_datagram_adapter s) in
  _ ← add_rule adapter EventLoop.In segment_callback segment_interest (mret tt);
  _ ← add_rule thread_data EventLoop.In outbound_callback outbound_interest outbound_cancel;
  _ ← add_rule thread_data EventLoop.Out inbound_callback inbound_interest (mret tt);
  add_rule adapter EventLoop.Out datagram_callback datagram_interest (mret tt).

Definition timestamp_ms : io W Z := fun w =>
  let '(n, k) := clock (FileDescriptor.kernel w) in (Ok n, FileDescriptor.set_kernel k w).

(** The loop of [_tcp_loop], for at most [fuel] rounds. *)
Fixpoint tcp_rounds (fuel : nat) (condition : io W bool) (base_time : Z) : io ST unit :=
  match fuel with
  | O => pure_ OutOfFuel
  | S fuel =>
      go ← machine condition;
      if go : bool then
        ret ← wait_next_event;
        stop ← machine (gets (fun w => aborted (FileDescriptor.kernel w)));
        if match ret with EventLoop.Exit => true | _ => stop end then mret tt
        else
          c ← machine tcp_value;
          if TCPConnection.active c then
            next_time ← machine timestamp_ms;
            let passed := u64 (next_time - base_time) in
            c ← machine tcp_value;
            c ← machine (pure_ (TCPConnection.tick c passed));
            _ ← machine (store c);
            _ ← machine (adapter_tick passed);
            tcp_rounds fuel condition next_time
          else tcp_rounds fuel condition base_time
      else mret tt
  end.

Definition _tcp_loop (fuel : nat) (condition : io W bool) : io ST unit :=
  base_time ← machine timestamp_ms;
  tcp_rounds fuel condition base_time.

Definition in_state (l : list TCPState.State) : io W bool :=
  c ← tcp; mret (existsb (fun st => TCPState.eqb (state c) (TCPState.of_state st)) l).

(** [connect], up to the start of the thread that runs [_tcp_main]. *)
Definition connect (fuel : nat) (c_tcp : TCPConfig.t) (random : Z) (c_ad : FdAdapterConfig.t) : io ST unit :=
  s ← machine get;
  if bool_decide (is_Some (_tcp s))
  then pure_ (Throw (runtime_error "connect() with TCPConnection already initialized"))
  else
    _ ← _initialize_TCP c_tcp random;
    _ ← machine (put (fun s => set_datagram_adapter s
          (ad_set_base (_datagram_adapter s) (FdAdapterBase.set_config (ad_base (_datagram_adapter s)) c_ad))));
    _ ← machine peer_name;
    _ ← machine (on_tcp TCPConnection.connect);
    c ← machine tcp;
    if negb (TCPState.eqb (state c) (TCPState.of_state TCPState.SYN_SENT))
    then pure_ (Throw (runtime_error (String.append "After TCPConnection::connect(), state was "
           (String.append (TCPState.name (state c)) (String.append " but expected "
             (TCPState.name (TCPState.of_state TCPState.SYN_SENT)))))))
    else
      _ ← _tcp_loop fuel (in_state [TCPState.SYN_SENT]);
      _ ← machine peer_name;
      mret tt.

(** [listen_and_accept], up to the start of the thread. *)
Definition listen_and_accept (fuel : nat) (c_tcp : TCPConfig.t) (random : Z) (c_ad : FdAdapterConfig.t) : io ST unit :=
  s ← machine get;
  if bool_decide (is_Some (_tcp s))
  then pure_ (Throw (runtime_error "listen_and_accept() with TCPConnection already initialized"))
  else
    _ ← _initialize_TCP c_tcp random;
    _ ← machine (put (fun s => set_datagram_adapter s
          (ad_set_base (_datagram_adapter s)
            (FdAdapterBase.set_listening (FdAdapterBase.set_config (ad_base (_datagram_adapter s)) c_ad) true))));
    _ ← _tcp_loop fuel (in_state [TCPState.LISTEN; TCPState.SYN_RCVD; TCPState.SYN_SENT]);
    _ ← machine peer_name;
    mret tt.

(** [_tcp.reset()] runs the destructor of the connection; its queue goes with it. *)
Definition reset_tcp : io W unit :=
  s ← get;
  match _tcp s with
  | Some c => _ ← pure_ (TCPConnection.destroy c); put (fun s => set_tcp s None)
  | None => mret tt
  end.

(** The end of [_tcp_main], after its loop. *)
Definition tcp_main_end : io W unit :=
  _ ← Socket.shutdown net own Socket.SHUT_RDWR;
  _ ← tcp_value;
  reset_tcp.

(** [_tcp_main]; what it catches it throws again. *)
Definition _tcp_main (fuel : nat) : io ST unit :=
  s ← machine get;
  if bool_decide (is_Some (_tcp s)) then
    _ ← _tcp_loop fuel (mret true);
    machine tcp_main_end
  else pure_ (Throw (runtime_error "no TCP")).

(** How the thread ended: an exception that leaves it terminates the program. *)
Inductive thread_end := Joined | Terminated.

(** [_tcp_thread.join()]: the caller waits while the thread does what it has still to do. *)
Definition join (remaining : io ST unit) : io ST thread_end := fun s =>
  match remaining s with
  | (Ok _, s) => (Ok Joined, s)
  | (Throw _, s) => (Ok Terminated, s)
  | (Undefined, s) => (Undefined, s)
  | (OutOfFuel, s) => (OutOfFuel, s)
  end.

(** The destructor; [set_abort] stores the flag the thread looks at. *)
Definition destroy (set_abort : K -> K) (joinable : bool) (remaining : io ST unit) : io ST thread_end :=
  if joinable then
    _ ← machine (modify (fun w => FileDescriptor.set_kernel (set_abort (FileDescriptor.kernel w)) w));
    join remaining
  else mret Joined.

Definition wait_until_closed (joinable : bool) (remaining : io ST unit) : io ST thread_end :=
  _ ← machine (Socket.shutdown net own Socket.SHUT_RDWR);
  if joinable then join remaining else mret Joined.

End sponge.

End TCPSpongeSocket.

(** ** The TUN adapter as an adapter of the socket *)

Record tun_adapter := TunAdapter { tun_base : FdAdapterBase.t; _tun : Z }.

Definition SIZE_MAX : Z := two64 - 1.

#[export] Instance tun_sponge_adapter {K} (sys : Kernel K) (R : Address.Resolver) :
  SpongeAdapter (FileDescriptor.world (K := K)) tun_adapter := {|
  ad_fd := _tun;
  ad_read a :=
    data ← FileDescriptor.read sys (_tun a) SIZE_MAX;
    '(b, seg) ← pure_ (TCPOverIPv4OverTunFdAdapter.read R (tun_base a) data);
    mret (TunAdapter b (_tun a), seg);
  ad_write a seg :=
    '(b, _, out) ← pure_ (TCPOverIPv4OverTunFdAdapter.write R (tun_base a) seg);
    _ ← FileDescriptor.write sys (_tun a) (BufferViewList.of_bufferlist out) true;
    mret (TunAdapter b (_tun a));
  ad_tick a ms := mret (TunAdapter (FdAdapterBase.tick (tun_base a) ms) (_tun a));
  ad_base := tun_base;
  ad_set_base a b := TunAdapter b (_tun a)
|}.

(** The configurations [CS144TCPSocket::connect] and [FullStackSocket::connect] make;
    [random_port] is what the random device gives. *)
Definition client_tcp_config : TCPConfig.t :=
  TCPConfig.mk 100 (TCPConfig.recv_capacity TCPConfig.make) (TCPConfig.send_capacity TCPConfig.make)
    (TCPConfig.fixed_isn TCPConfig.make).

Definition client_config (R : Address.Resolver) (ip : string) (random_port : Z) (address : Address.t)
  : outcome (TCPConfig.t * FdAdapterConfig.t) :=
  multiplexer_config ← FdAdapterConfig.make R;
  source ← Address.of_host R ip (pretty (u16 random_port));
  Ok (client_tcp_config, FdAdapterConfig.set_destination (FdAdapterConfig.set_source multiplexer_config source) address).

Definition cs144_config R := client_config R "169.254.144.9".
Definition LOCAL_TAP_IP_ADDRESS : string := "169.254.10.9".
Definition full_stack_config R := client_config R LOCAL_TAP_IP_ADDRESS.

(** [random_private_ethernet_address], given the six random bytes. *)
Definition random_private_ethernet_address (random : list Z) : list Z :=
  match u8 <$> random with
  | b :: rest => Z.land (Z.lor b 2) 254 :: rest
  | [] => []
  end.

(** A byte and what the function makes of it. *)
Definition private_byte_ok (b : Z) : bool :=
  let b' := Z.land (Z.lor b 2) 254 in
  negb (Z.testbit b' 0) && Z.testbit b' 1 && (0 <=? b') && (b' <? two8) &&
  forallb (fun i => Bool.eqb (Z.testbit b' i) (Z.testbit b i)) (seqZ 2 6).

Lemma private_byte b : 0 <= b < two8 -> private_byte_ok b = true.
Proof.
  intros Hb. assert (H : forallb private_byte_ok (seqZ 0 two8) = true) by (vm_compute; reflexivity).
  rewrite forallb_forall in H. apply H. apply list_elem_of_In, elem_of_seqZ. lia.
Qed.

Lemma u8_testbit b i : 0 <= i < 8 -> Z.testbit (u8 b) i = Z.testbit b i.
Proof. intros Hi. unfold u8. change two8 with (2 ^ 8). by rewrite Z.mod_pow2_bits_low by lia. Qed.

(** The address is unicast (bit 0 of the first byte is clear) and locally administered (bit 1
    is set); every other bit is as drawn. *)
Lemma private_address_bits b rest :
  match random_private_ethernet_address (b :: rest) with
  | b' :: rest' => Z.testbit b' 0 = false /\ Z.testbit b' 1 = true /\ 0 <= b' < two8 /\
      (forall i, 2 <= i < 8 -> Z.testbit b' i = Z.testbit b i) /\ rest' = u8 <$> rest
  | [] => False
  end.
Proof.
  cbn [random_private_ethernet_address fmap list_fmap].
  pose proof (u8_range b) as Hb. pose proof (private_byte (u8 b) Hb) as H. unfold private_byte_ok in H.
  repeat (apply andb_prop in H as [H ?]). set (b' := Z.land (Z.lor (u8 b) 2) 254) in *.
  split; [by apply negb_true_iff|]. split; [done|]. split; [lia|]. split; [|done].
  intros i Hi. rewrite <- (u8_testbit b i) by lia.
  match goal with Hf : forallb _ _ = true |- _ => rename Hf into Hall end.
  rewrite forallb_forall in Hall. apply Bool.eqb_prop. apply Hall. apply list_elem_of_In, elem_of_seqZ. lia.
Qed.

(** ** What the memory of the object is not touched by *)
Class Memory {K A} (sys : Kernel K) (net : SocketCalls K) (self : K -> TCPSpongeSocket.t A)
  (set_self : TCPSpongeSocket.t A -> K -> K) (sent : K -> Z -> list byte) : Prop := {
  self_set s k : self (set_self s k) = s;
  sent_set s k fd : sent (set_self s k) fd = sent k fd;
  read_self k fd n r e data k' : sys_read sys k fd n = (r, e, data, k') -> self k' = self k;
  writev_self k fd iov r e k' : sys_writev sys k fd iov = (r, e, k') -> self k' = self k;
  shutdown_self k fd how r e x k' : sys_shutdown net k fd how = (r, e, x, k') ->
    self k' = self k /\ forall fd', sent k' fd' = sent k fd'
}.

(** What the socket relies on from an adapter: [log] is what has gone out through it; a write
    adds its segment, or throws and adds nothing, and leaves the socket's memory alone. *)
Class LoggedAdapter {K A} (self : K -> TCPSpongeSocket.t A) (set_self : TCPSpongeSocket.t A -> K -> K)
  `{!SpongeAdapter (FileDescriptor.world (K := K)) A} (log : K -> list TCPSegment.t) : Prop := {
  log_set s k : log (set_self s k) = log k;
  log_write a seg w : match ad_write a seg w with
    | (Ok _, w') => log (FileDescriptor.kernel w') = log (FileDescriptor.kernel w) ++ [seg] /\
        self (FileDescriptor.kernel w') = self (FileDescriptor.kernel w)
    | (Throw _, w') => log (FileDescriptor.kernel w') = log (FileDescriptor.kernel w) /\
        self (FileDescriptor.kernel w') = self (FileDescriptor.kernel w)
    | _ => False
    end
}.

Section callbacks.

Import TCPSpongeSocket.

Context {K A : Type} (sys : Kernel K) (net : SocketCalls K) (R : Address.Resolver)
  (self : K -> t A) (set_self : t A -> K -> K) (sent : K -> Z -> list byte)
  `{!SpongeAdapter (FileDescriptor.world (K := K)) A} `{!PosixKernel sys sent} `{!Memory sys net self set_self sent}.

Context (thread_data : Z).

#[local] Abbreviation W := (FileDescriptor.world (K := K)).

(** The object in a world, and the world with the object changed. *)
Definition object (w : W) : t A := self (FileDescriptor.kernel w).
Definition with_object (w : W) (f : t A -> t A) : W :=
  FileDescriptor.set_kernel (set_self (f (object w)) (FileDescriptor.kernel w)) w.

Lemma object_with w f : object (with_object w f) = f (object w).
Proof. unfold object, with_object. simpl. apply (self_set (sent := sent) (net := net) (sys := sys)). Qed.

Lemma sent_with w f fd : sent (FileDescriptor.kernel (with_object w f)) fd = sent (FileDescriptor.kernel w) fd.
Proof. unfold with_object. simpl. apply sent_set. Qed.

Lemma points_to_with w f h x : points_to w h x -> points_to (with_object w f) h x.
Proof. apply points_to_kernel. Qed.

Lemma put_ok f w : put self set_self f w = (Ok tt, with_object w f).
Proof. done. Qed.

Lemma tcp_ok w c : _tcp (object w) = Some c -> tcp self w = (Ok c, w).
Proof. unfold tcp, get, gets, object. unfold mbind, io_bind. by intros ->. Qed.

Lemma tcp_value_ok w c : _tcp (object w) = Some c -> tcp_value self w = (Ok c, w).
Proof. unfold tcp_value, get, gets, object. unfold mbind, io_bind. by intros ->. Qed.

Lemma on_tcp_ok w c f c' :
  _tcp (object w) = Some c -> f c = Ok c' ->
  on_tcp self set_self f w = (Ok tt, with_object w (fun s => set_tcp s (Some c'))).
Proof.
  intros Hc Hf. unfold on_tcp. rewrite (io_bind_ok _ _ _ _ _ (tcp_ok w c Hc)).
  unfold mbind, io_bind, pure_. by rewrite Hf.
Qed.

(** The peer's name, or what looking it up throws. *)
Definition name_of_peer (s : t A) : outcome string :=
  Address.to_string R (FdAdapterConfig.destination (FdAdapterBase.config (ad_base (_datagram_adapter s)))).

Lemma peer_name_ok w : peer_name R self w = (name_of_peer (object w), w).
Proof. done. Qed.

Lemma eof_ok (w : W) h x : points_to w h x -> FileDescriptor.eof h w = (Ok (FDWrapper._eof x), w).
Proof. intros Hx. unfold FileDescriptor.eof. by rewrite (io_bind_ok _ _ _ _ _ (internal_ok w h x Hx)). Qed.

(** ** Writing to the connection *)

Lemma remaining_range S c : cn_wf S c ->
  0 <= TCPConnection.remaining_outbound_capacity c < two64.
Proof.
  intros Hc. pose proof (sd_stream _ _ (sd_is_core _ _ (cn_sender _ _ (cn_is_pre _ _ Hc)))) as Hst.
  unfold TCPConnection.remaining_outbound_capacity. apply u64_range.
Qed.

Lemma write_open S c data c' n :
  cn_wf S c -> ByteStream.input_ended (TCPSender.stream_in (TCPConnection.sender_ c)) = false ->
  TCPConnection.write c data = Ok (c', n) -> zlen S + zlen data < two63 ->
  n = Z.min (TCPConnection.remaining_outbound_capacity c) (zlen data) /\
  ByteStream.input_ended (TCPSender.stream_in (TCPConnection.sender_ c')) = false.
Proof.
  intros Hc Hopen Hw Hsum. unfold TCPConnection.write in Hw. rewrite Hopen in Hw.
  destruct (sender_write S (TCPConnection.sender_ c) data (cn_sender _ _ (cn_is_pre _ _ Hc)) Hopen Hsum)
    as (st & d & Hst & _ & _ & Hie & Hs).
  unfold TCPSender.stream_in in *. rewrite Hst in Hw. cbn [mbind outcome_bind] in Hw.
  destruct (fill_window_spec _ _ Hs) as (s' & new & Hf & _ & _ & _ & _ & _ & _ & _ & _ & Hie' & _).
  rewrite Hf in Hw. cbn [mbind outcome_bind] in Hw. injection Hw as <- <-. split; [done|]. simpl. by rewrite Hie'.
Qed.

Lemma end_input_ended S c : cn_wf S c ->
  exists c', TCPConnection.end_input_stream c = Ok c' /\ cn_wf S c' /\
    TCPConnection.receiver_ c' = TCPConnection.receiver_ c /\
    ByteStream.input_ended (TCPSender.stream_in (TCPConnection.sender_ c')) = true.
Proof.
  intros Hc. destruct (end_input_wf S c Hc) as (c' & new & He & Hc' & _ & _ & Hr & _).
  exists c'. split; [done|]. split; [done|]. split; [done|]. unfold TCPConnection.end_input_stream in He.
  destruct (ByteStream.input_ended (TCPSender.stream_in (TCPConnection.sender_ c))) eqn:E; [by injection He as <-|].
  pose proof (sender_end_input S (TCPConnection.sender_ c) (cn_sender _ _ (cn_is_pre _ _ Hc))) as Hs.
  destruct (fill_window_spec _ _ Hs) as (s' & new' & Hf & _ & _ & _ & _ & _ & _ & _ & _ & Hie' & _).
  unfold TCPSender.stream_in in *. rewrite Hf in He. cbn [mbind outcome_bind] in He. injection He as <-.
  simpl. by rewrite Hie'.
Qed.

(** What fits the advertised capacity is taken whole. *)
Lemma write_whole S c data :
  cn_wf S c -> ByteStream.input_ended (TCPSender.stream_in (TCPConnection.sender_ c)) = false ->
  zlen data <= TCPConnection.remaining_outbound_capacity c -> zlen S + zlen data < two63 ->
  exists c', TCPConnection.write c data = Ok (c', zlen data) /\ cn_wf (S ++ data) c' /\
    TCPConnection.receiver_ c' = TCPConnection.receiver_ c /\
    ByteStream.input_ended (TCPSender.stream_in (TCPConnection.sender_ c')) = false.
Proof.
  intros Hc Hopen Hfit Hsum. destruct (write_wf S c data Hc Hsum) as (c' & d & new & Hw & Hd & Hc' & _ & _ & Hr & _ & _).
  destruct (write_open S c data c' (zlen d) Hc Hopen Hw Hsum) as [Hn Hie].
  assert (Hl : zlen d = zlen data) by (rewrite Hn; lia).
  assert (d = data) as ->; [|by exists c']. rewrite Hd, Hl. apply ztake_ge. lia.
Qed.

(** The part of rule 2 that follows the read. *)
Lemma outbound_after_read S c data w x :
  _tcp (object w) = Some c -> cn_wf S c -> points_to w thread_data x ->
  ByteStream.input_ended (TCPSender.stream_in (TCPConnection.sender_ c)) = false ->
  zlen data <= TCPConnection.remaining_outbound_capacity c -> zlen S + zlen data < two63 ->
  exists w' c', outbound_store R self set_self thread_data data w =
      (if FDWrapper._eof x then _ ← name_of_peer (object w); Ok tt else Ok tt, w') /\
    cn_wf (S ++ data) c' /\ _tcp (object w') = Some c' /\
    TCPConnection.receiver_ c' = TCPConnection.receiver_ c /\
    ByteStream.input_ended (TCPSender.stream_in (TCPConnection.sender_ c')) = FDWrapper._eof x /\
    _outbound_shutdown (object w') = FDWrapper._eof x || _outbound_shutdown (object w).
Proof.
  intros Hc Hwf Hx Hopen Hfit Hsum.
  destruct (write_whole S c data Hwf Hopen Hfit Hsum) as (c1 & Hw & Hwf1 & Hr1 & Hie1).
  unfold outbound_store. rewrite (io_bind_ok _ _ _ _ _ (tcp_ok w c Hc)).
  rewrite (io_bind_ok _ _ w (c1, zlen data) w) by (unfold pure_; by rewrite Hw).
  set (w1 := with_object w (fun s => set_tcp s (Some c1))).
  rewrite (io_bind_ok _ _ w tt w1) by done. rewrite Z.eqb_refl. cbn [negb].
  assert (Hx1 : points_to w1 thread_data x) by (by apply points_to_with).
  assert (Hc1 : _tcp (object w1) = Some c1) by (unfold w1; by rewrite object_with).
  rewrite (io_bind_ok _ _ _ _ _ (eof_ok w1 _ x Hx1)). destruct (FDWrapper._eof x) eqn:Ex.
  - destruct (end_input_ended (S ++ data) c1 Hwf1) as (c2 & He & Hwf2 & Hr2 & Hie2).
    set (w2 := with_object w1 (fun s => set_tcp s (Some c2))).
    rewrite (io_bind_ok _ _ w1 tt w2) by (by apply on_tcp_ok with (c := c1)).
    set (w3 := with_object w2 (fun s => set_outbound_shutdown s true)).
    rewrite (io_bind_ok _ _ w2 tt w3) by done.
    assert (Ho : object w3 = set_outbound_shutdown (set_tcp (set_tcp (object w) (Some c1)) (Some c2)) true).
    { unfold w3, w2, w1. by rewrite !object_with. }
    exists w3, c2. split; [|split_and!; try done; rewrite ?Ho; try done; congruence].
    unfold mbind, io_bind, outcome_bind. rewrite peer_name_ok. rewrite Ho. unfold name_of_peer. simpl.
    destruct (Address.to_string _ _); try done. unfold tcp_value, get, gets. unfold mbind, io_bind.
    fold (object w3). by rewrite Ho.
  - exists w1, c1. split; [done|]. split_and!; try done. unfold w1. by rewrite object_with.
Qed.

(** ** Reading from the connection *)

(** One write of a string, with the object untouched. *)
Lemma write_once (w : W) x b :
  points_to w thread_data x -> zlen b < two63 ->
  exists o w' n, FileDescriptor.write sys thread_data (BufferViewList.of_string b) false w = (o, w') /\
    0 <= n <= zlen b /\ object w' = object w /\
    (exists x', points_to w' thread_data x' /\ FDWrapper._fd x' = FDWrapper._fd x) /\
    sent (FileDescriptor.kernel w') (FDWrapper._fd x) = sent (FileDescriptor.kernel w) (FDWrapper._fd x) ++ ztake n b /\
    match o with Ok r => r = n | Throw _ => n = 0 | _ => False end.
Proof.
  intros Hx Hb.
  assert (Hall : all_bytes (BufferViewList.of_string b) = b) by (unfold all_bytes; simpl; apply app_nil_r).
  destruct (write_loop_spec sys sent (fun k => self k = object w) thread_data (FDWrapper._fd x) false
    (S (length (all_bytes (BufferViewList.of_string b)))) ) with
    (buffer := BufferViewList.of_string b) (total := 0) (w := w) (x := x)
    as (o & w' & n & Hrun & Hn & Hs & HI & Hx' & Ho); try done; rewrite ?Hall in *; try lia.
  - intros k iov r e k' Hsys <-. by eapply writev_self.
  - exists o, w', n. split; [done|]. split; [done|]. split; [done|]. split; [done|]. split; [done|].
    destruct o; try done; [by destruct Ho|by apply Ho].
Qed.

(** What [shutdown] leaves alone. *)
Lemma shutdown_keeps (w : W) h how :
  is_Some (FileDescriptor.handles w !! h) ->
  exists o w', Socket.shutdown net h how w = (o, w') /\ object w' = object w /\
    (forall fd, sent (FileDescriptor.kernel w') fd = sent (FileDescriptor.kernel w) fd) /\
    match o with Ok _ | Throw _ => True | _ => False end.
Proof.
  intros [[x n] Hh]. assert (Hx : points_to w h x) by (by exists n).
  unfold Socket.shutdown. rewrite (io_bind_ok _ _ _ _ _ (fd_num_ok w h x Hx)).
  destruct (sys_shutdown net (FileDescriptor.kernel w) (FDWrapper._fd x) how) as [[[r e] u] k] eqn:Es.
  destruct (shutdown_self _ _ _ _ _ _ _ Es) as [Hself Hsent].
  unfold mbind at 1, io_bind at 1, system_call. rewrite Es. unfold SystemCall.
  destruct ((0 <=? s32 r) || (e =? 0)); [|by eexists _, _].
  destruct (how =? Socket.SHUT_RD); [by eexists _, _|]. destruct (how =? Socket.SHUT_WR); [by eexists _, _|].
  destruct (how =? Socket.SHUT_RDWR); by eexists _, _.
Qed.

Definition inbound (c : TCPConnection.t) : list byte := ByteStream.contents (TCPConnection.inbound_stream c).

(** The end of rule 3. *)
Lemma inbound_finish w c x :
  _tcp (object w) = Some c -> points_to w thread_data x ->
  let done_ := ByteStream.eof (TCPConnection.inbound_stream c) || ByteStream.error (TCPConnection.inbound_stream c) in
  exists o w', inbound_end net R self set_self thread_data w = (o, w') /\
    (forall fd, sent (FileDescriptor.kernel w') fd = sent (FileDescriptor.kernel w) fd) /\
    _tcp (object w') = Some c /\
    match o with
    | Ok _ => _inbound_shutdown (object w') = done_ || _inbound_shutdown (object w)
    | Throw _ => done_ = true
    | _ => False
    end.
Proof.
  intros Hc [m Hm]. cbv zeta. unfold inbound_end. rewrite (io_bind_ok _ _ _ _ _ (tcp_ok w c Hc)).
  destruct (ByteStream.eof _ || ByteStream.error _); [|by exists (Ok tt), w].
  destruct (shutdown_keeps w thread_data Socket.SHUT_WR) as (o & w1 & Hsh & Hobj & Hsent & Ho); [by rewrite Hm|].
  destruct o as [u|e| |]; try done; cycle 1.
  { exists (Throw e), w1. rewrite Hobj. split; [|done]. unfold mbind, io_bind. by rewrite Hsh. }
  rewrite (io_bind_ok _ _ _ _ _ Hsh). set (w2 := with_object w1 (fun s => set_inbound_shutdown s true)).
  rewrite (io_bind_ok _ _ w1 tt w2) by done.
  assert (Ho2 : object w2 = set_inbound_shutdown (object w) true) by (unfold w2; by rewrite object_with, Hobj).
  assert (Hs2 : forall fd, sent (FileDescriptor.kernel w2) fd = sent (FileDescriptor.kernel w) fd).
  { intros fd. unfold w2. by rewrite sent_with, Hsent. }
  assert (Hc2 : _tcp (object w2) = Some c) by (by rewrite Ho2).
  pose proof (to_string_defined R (FdAdapterConfig.destination (FdAdapterBase.config (ad_base (_datagram_adapter (object w2)))))) as Hn.
  destruct (name_of_peer (object w2)) as [nm|e| |] eqn:En; unfold name_of_peer in En; rewrite En in Hn; try done.
  - exists (Ok tt), w2. split; [|by rewrite Ho2].
    rewrite (io_bind_ok _ _ w2 nm w2) by (rewrite peer_name_ok; unfold name_of_peer; by rewrite En).
    by rewrite (io_bind_ok _ _ _ _ _ (tcp_value_ok w2 c Hc2)).
  - exists (Throw e), w2. split; [|done]. unfold mbind, io_bind. rewrite peer_name_ok. unfold name_of_peer. by rewrite En.
Qed.

(** ** Sending *)

Context (log : K -> list TCPSegment.t) `{!LoggedAdapter self set_self log}.

Lemma adapter_write_log w seg :
  exists o w', adapter_write self set_self seg w = (o, w') /\ _tcp (object w') = _tcp (object w) /\
    match o with
    | Ok _ => log (FileDescriptor.kernel w') = log (FileDescriptor.kernel w) ++ [seg]
    | Throw _ => log (FileDescriptor.kernel w') = log (FileDescriptor.kernel w)
    | _ => False
    end.
Proof.
  unfold adapter_write. rewrite (io_bind_ok _ _ w (object w) w) by done.
  pose proof (log_write (_datagram_adapter (object w)) seg w) as Hw.
  destruct (ad_write _ seg w) as [o w1] eqn:E. destruct o as [a|e| |]; try done.
  - destruct Hw as [Hl Hs]. eexists (Ok tt), _. rewrite (io_bind_ok _ _ _ _ _ E), put_ok. split; [done|].
    rewrite object_with. unfold object. rewrite Hs. split; [done|]. unfold with_object. simpl. by rewrite log_set.
  - destruct Hw as [Hl Hs]. exists (Throw e), w1.
    split; [unfold mbind, io_bind; by rewrite E|]. unfold object. by rewrite Hs.
Qed.

Lemma send_segments_log fuel : forall w c,
  _tcp (object w) = Some c -> (length (TCPConnection.segments_out c) < fuel)%nat ->
  exists o w' gone rest, send_segments self set_self fuel w = (o, w') /\
    TCPConnection.segments_out c = gone ++ rest /\
    log (FileDescriptor.kernel w') = log (FileDescriptor.kernel w) ++ gone /\
    _tcp (object w') = Some (TCPConnection.set_segments_out c rest) /\
    match o with Ok _ => rest = [] | Throw _ => rest <> [] | _ => False end.
Proof.
  induction fuel as [|fuel IH]; intros w c Hc Hf; [lia|]. cbn [send_segments].
  rewrite (io_bind_ok _ _ _ _ _ (tcp_ok w c Hc)). destruct (TCPConnection.segments_out c) as [|seg q] eqn:Eq.
  { exists (Ok tt), w, [], []. split; [done|]. split; [done|]. rewrite app_nil_r. split; [done|]. split; [|done].
    rewrite Hc, <- Eq. by destruct c. }
  destruct (adapter_write_log w seg) as (o & w1 & Hw & Ht & Ho). destruct o as [u|e| |]; try done; cycle 1.
  { exists (Throw e), w1, [], (seg :: q). split; [unfold mbind, io_bind; by rewrite Hw|]. split; [done|].
    rewrite app_nil_r. split; [done|]. split; [|done]. rewrite Ht, Hc, <- Eq. by destruct c. }
  rewrite (io_bind_ok _ _ _ _ _ Hw). set (c2 := TCPConnection.set_segments_out c q).
  set (w2 := with_object w1 (fun s => set_tcp s (Some c2))).
  rewrite (io_bind_ok _ _ w1 tt w2) by (apply on_tcp_ok with (c := c); [by rewrite Ht|by rewrite Eq]).
  destruct (IH w2 c2) as (o & w' & gone & rest & Hrun & Hq & Hl & Ht' & Hend);
    [unfold w2; by rewrite object_with|simpl in *; lia|].
  exists o, w', (seg :: gone), rest. split; [done|]. split; [simpl in *; by rewrite Hq|]. split.
  { rewrite Hl. unfold w2, with_object. simpl. rewrite log_set, Ho. by rewrite <- app_assoc. }
  split; [by rewrite Ht'|done].
Qed.

End callbacks.

(** ** Properties *)

(** Rule 2 of the event loop moves bytes from the owner to the connection without losing
    any: whatever the kernel's read returns, the connection takes all of it, so that the outbound
    stream grows by exactly these bytes and the callback never throws that the connection accepted less
    than it advertised; when the owner has shut down its side the outbound stream is ended and
    marked, otherwise it stays open; if the read fails the object is as it was. *)
Theorem outbound_rule_correct {K A} (sys : Kernel K) (net : SocketCalls K) (R : Address.Resolver)
  (self : K -> TCPSpongeSocket.t A) set_self sent `{!SpongeAdapter (FileDescriptor.world (K := K)) A}
  (Hsys : PosixKernel sys sent) (Hmem : Memory sys net self set_self sent)
  (thread_data : Z) (w : FileDescriptor.world) (x : FDWrapper.t) (S : list byte) (c : TCPConnection.t)
  (Hx : points_to w thread_data x) (Hc : TCPSpongeSocket._tcp (object self w) = Some c) (Hwf : cn_wf S c)
  (Hopen : ByteStream.input_ended (TCPSender.stream_in (TCPConnection.sender_ c)) = false)
  (Hsum : zlen S + TCPConnection.remaining_outbound_capacity c < two63) :
  let capacity := TCPConnection.remaining_outbound_capacity c in
  let '(r, e, data, _) := sys_read sys (FileDescriptor.kernel w) (FDWrapper._fd x)
                            (Z.min FileDescriptor.BUFFER_SIZE capacity) in
  let at_eof := FDWrapper._eof x || bool_decide (0 < capacity /\ data = []) in
  exists w',
    if r =? -1 then
      TCPSpongeSocket.outbound_callback sys R self set_self thread_data w = (Throw (tagged_error "read" e), w') /\
      object self w' = object self w
    else
      TCPSpongeSocket.outbound_callback sys R self set_self thread_data w =
        (if at_eof then _ ← name_of_peer R (object self w); Ok tt else Ok tt, w') /\
      exists c', TCPSpongeSocket._tcp (object self w') = Some c' /\ cn_wf (S ++ data) c' /\
        TCPConnection.receiver_ c' = TCPConnection.receiver_ c /\
        ByteStream.input_ended (TCPSender.stream_in (TCPConnection.sender_ c')) = at_eof /\
        TCPSpongeSocket._outbound_shutdown (object self w') =
          at_eof || TCPSpongeSocket._outbound_shutdown (object self w).
Proof.
  cbv zeta. pose proof (remaining_range S c Hwf) as Hrange.
  pose proof (fd_read_correct sys sent Hsys w thread_data _ x Hx Hrange) as Hread.
  destruct (sys_read sys _ _ _) as [[[r e] data] k] eqn:Er. destruct Hread as (w1 & Hk & Hread).
  assert (Hobj : object self w1 = object self w).
  { unfold object. rewrite Hk. by eapply read_self. }
  unfold TCPSpongeSocket.outbound_callback. destruct (r =? -1).
  - destruct Hread as [Hrd _]. exists w1. split; [|done].
    rewrite (io_bind_ok _ _ _ _ _ (tcp_ok self w c Hc)). unfold mbind, io_bind. by rewrite Hrd.
  - destruct Hread as (Hrd & Hlim & _ & Hx1). set (x1 := FDWrapper.count_read _) in Hx1.
    assert (Heof : FDWrapper._eof x1 = FDWrapper._eof x || bool_decide (0 < TCPConnection.remaining_outbound_capacity c /\ data = [])).
    { unfold x1. simpl. destruct (decide _) as [H|H]; [rewrite bool_decide_eq_true_2 by done; by rewrite orb_true_r|].
      rewrite bool_decide_eq_false_2 by done. by rewrite orb_false_r. }
    destruct (outbound_after_read sys net R self set_self sent thread_data S c data w1 x1)
      as (w' & c' & Hrun & Hwf' & Hc' & Hr' & Hie & Hout); [congruence|done|done|done|done|lia|].
    rewrite Heof in Hrun, Hie, Hout. rewrite Hobj in Hrun, Hout. exists w'. split.
    + rewrite (io_bind_ok _ _ _ _ _ (tcp_ok self w c Hc)). by rewrite (io_bind_ok _ _ _ _ _ Hrd).
    + by exists c'.
Qed.

(** Rule 3 moves bytes from the inbound stream to the owner, in order, each once: whatever
    the kernel does, the owner's socket has received the first [n] bytes the stream held, and
    exactly these are gone from it, also when the write was partial or failed; the callback
    returns or throws; when it returns, the inbound side has been shut down towards the owner
    if the stream is at its end or failed. *)
Theorem inbound_rule_correct {K A} (sys : Kernel K) (net : SocketCalls K) (R : Address.Resolver)
  (self : K -> TCPSpongeSocket.t A) set_self sent `{!SpongeAdapter (FileDescriptor.world (K := K)) A}
  (Hsys : PosixKernel sys sent) (Hmem : Memory sys net self set_self sent)
  (thread_data : Z) (w : FileDescriptor.world) (x : FDWrapper.t) (c : TCPConnection.t)
  (Hx : points_to w thread_data x) (Hc : TCPSpongeSocket._tcp (object self w) = Some c)
  (Hwf : ByteStream.wf (TCPConnection.inbound_stream c)) :
  exists o w' n c', TCPSpongeSocket.inbound_callback sys net R self set_self thread_data w = (o, w') /\
    0 <= n <= Z.min 65536 (zlen (inbound c)) /\
    sent (FileDescriptor.kernel w') (FDWrapper._fd x) =
      sent (FileDescriptor.kernel w) (FDWrapper._fd x) ++ ztake n (inbound c) /\
    TCPSpongeSocket._tcp (object self w') = Some c' /\ inbound c' = zdrop n (inbound c) /\
    ByteStream.wf (TCPConnection.inbound_stream c') /\
    match o with
    | Ok _ => TCPSpongeSocket._inbound_shutdown (object self w') =
        (ByteStream.eof (TCPConnection.inbound_stream c') || ByteStream.error (TCPConnection.inbound_stream c')
         || TCPSpongeSocket._inbound_shutdown (object self w))
    | Throw _ => True
    | _ => False
    end.
Proof.
  pose proof (bs_buffer_size _ Hwf) as Hsize. pose proof (zlen_nonneg (inbound c)) as Hpos.
  set (amount := Z.min 65536 (zlen (inbound c))).
  assert (Hamount : 0 <= amount <= zlen (inbound c)) by lia.
  pose proof (bs_peek_spec _ amount Hwf Hamount) as Hpeek.
  assert (Hlen : zlen (ztake amount (inbound c)) = amount) by (rewrite zlen_ztake; lia).
  destruct (write_once sys net self set_self sent thread_data w x (ztake amount (inbound c)))
    as (o & w1 & n & Hrun & Hn & Hobj & (x1 & Hx1 & Hfd) & Hsent & Ho); [done|lia|].
  rewrite Hlen in Hn. rewrite ztake_ztake, Z.min_l in Hsent by lia.
  unfold TCPSpongeSocket.inbound_callback. rewrite (io_bind_ok _ _ _ _ _ (tcp_ok self w c Hc)). cbv zeta.
  unfold inbound in *. rewrite Hsize. fold amount.
  rewrite (io_bind_ok _ _ w _ w) by (unfold pure_; by rewrite Hpeek).
  assert (Hc1 : TCPSpongeSocket._tcp (object self w1) = Some c) by (by rewrite Hobj).
  destruct o as [r|e| |]; try done; subst.
  - rewrite (io_bind_ok _ _ _ _ _ Hrun).
    destruct (bs_pop_spec _ n Hwf ltac:(lia)) as (st & Hpop & Hwf' & Hct & _ & _ & _ & _ & _).
    set (c2 := TCPSpongeSocket.set_inbound c st).
    set (w2 := with_object self set_self w1 (fun s => TCPSpongeSocket.set_tcp s (Some c2))).
    rewrite (io_bind_ok _ _ w1 tt w2) by (apply on_tcp_ok with (c := c); [done|by rewrite Hpop]).
    assert (Ho2 : object self w2 = TCPSpongeSocket.set_tcp (object self w1) (Some c2)).
    { by apply (object_with sys net self set_self sent). }
    destruct (inbound_finish sys net R self set_self sent thread_data w2 c2 x1)
      as (o & w3 & Hend & Hsent3 & Hc3 & Ho3); [by rewrite Ho2|by apply points_to_with|].
    exists o, w3, n, c2. split; [done|]. split; [done|]. split.
    { rewrite Hsent3. unfold w2. by rewrite (sent_with sys net self set_self sent), Hsent. }
    split; [done|]. split; [done|]. split; [done|]. destruct o; try done. rewrite Ho3, Ho2. simpl. by rewrite Hobj.
  - exists (Throw e), w1, 0, c. split; [unfold mbind, io_bind; by rewrite Hrun|].
    split; [lia|]. split; [done|]. split; [done|]. split; [|done]. by rewrite zdrop_le0 by lia.
Qed.

(** Rule 4 sends what the connection has queued, in order, each segment once: the segments
    that have gone out are a first part of the queue and exactly these have left it; the
    callback returns only when the queue is empty, and throws only when the adapter did, with
    the segment that failed still at the front. *)
Theorem datagram_rule_correct {K A} (sys : Kernel K) (net : SocketCalls K)
  (self : K -> TCPSpongeSocket.t A) set_self sent `{!SpongeAdapter (FileDescriptor.world (K := K)) A}
  (log : K -> list TCPSegment.t) (Hmem : Memory sys net self set_self sent) (Hlog : LoggedAdapter self set_self log)
  (w : FileDescriptor.world) (c : TCPConnection.t) (Hc : TCPSpongeSocket._tcp (object self w) = Some c) :
  exists o w' gone rest, TCPSpongeSocket.datagram_callback self set_self w = (o, w') /\
    TCPConnection.segments_out c = gone ++ rest /\
    log (FileDescriptor.kernel w') = log (FileDescriptor.kernel w) ++ gone /\
    TCPSpongeSocket._tcp (object self w') = Some (TCPConnection.set_segments_out c rest) /\
    match o with Ok _ => rest = [] | Throw _ => rest <> [] | _ => False end.
Proof.
  unfold TCPSpongeSocket.datagram_callback. rewrite (io_bind_ok _ _ _ _ _ (tcp_ok self w c Hc)).
  apply (send_segments_log sys net self set_self sent log); [done|lia].
Qed.

(** C37. Stopping the TCP thread sends no reset: the end of [_tcp_main] destroys an active
    connection, whose destructor puts a segment with the RST flag into the connection's queue,
    but nothing goes out through any descriptor after the loop, and the queue is gone with the
    connection. *)
Theorem abort_sends_no_rst {K A} (sys : Kernel K) (net : SocketCalls K)
  (self : K -> TCPSpongeSocket.t A) set_self sent (Hmem : Memory sys net self set_self sent)
  (own : Z) (w : FileDescriptor.world) (S : list byte) (c : TCPConnection.t)
  (Hown : is_Some (FileDescriptor.handles w !! own))
  (Hc : TCPSpongeSocket._tcp (object self w) = Some c) (Hwf : cn_wf S c) (Hact : TCPConnection.active c = true) :
  (exists c' seg, TCPConnection.destroy c = Ok c' /\ TCPConnection.segments_out c' = TCPConnection.segments_out c ++ [seg] /\
    TCPHeader.rst (TCPSegment.header seg) = true) /\
  exists o w', TCPSpongeSocket.tcp_main_end net self set_self own w = (o, w') /\
    (forall fd, sent (FileDescriptor.kernel w') fd = sent (FileDescriptor.kernel w) fd) /\
    match o with
    | Ok _ => TCPSpongeSocket._tcp (object self w') = None
    | Throw _ => TCPSpongeSocket._tcp (object self w') = Some c
    | _ => False
    end.
Proof.
  destruct (send_rst_spec S c (cn_is_pre _ _ Hwf)) as (c1 & seg & Hrst & _ & _ & _ & _ & _ & _ & _ & Hq & Hflag).
  rewrite (cn_flushed _ _ Hwf) in Hq.
  assert (Hd : TCPConnection.destroy c = Ok (TCPConnection.dirty_abort c1)).
  { unfold TCPConnection.destroy. by rewrite Hact, Hrst. }
  split; [by exists (TCPConnection.dirty_abort c1), seg|].
  destruct (shutdown_keeps sys net self set_self sent w own Socket.SHUT_RDWR Hown) as (o & w1 & Hsh & Hobj & Hsent & Ho).
  unfold TCPSpongeSocket.tcp_main_end. destruct o as [u|e| |]; try done; cycle 1.
  { exists (Throw e), w1. rewrite Hobj. split; [unfold mbind, io_bind; by rewrite Hsh|done]. }
  rewrite (io_bind_ok _ _ _ _ _ Hsh).
  assert (Hc1 : TCPSpongeSocket._tcp (object self w1) = Some c) by (by rewrite Hobj).
  rewrite (io_bind_ok _ _ _ _ _ (tcp_value_ok self w1 c Hc1)).
  exists (Ok tt), (with_object self set_self w1 (fun s => TCPSpongeSocket.set_tcp s None)). split.
  { unfold TCPSpongeSocket.reset_tcp. rewrite (io_bind_ok _ _ w1 (object self w1) w1) by done.
    rewrite Hc1. by rewrite (io_bind_ok _ _ w1 (TCPConnection.dirty_abort c1) w1) by (unfold pure_; by rewrite Hd). }
  split; [|by rewrite (object_with sys net self set_self sent)].
  intros fd. by rewrite (sent_with sys net self set_self sent), Hsent.
Qed.

(** ** A machine to run the socket on

    The owner's end of the socket pair is two byte strings; the peer is another connection, to
    which the adapter delivers what is written and from whose queue it reads. *)
Record machine := Machine {
  m_self : TCPSpongeSocket.t FdAdapterBase.t;
  m_peer : TCPConnection.t;
  m_log : list TCPSegment.t;
  m_from_owner : list byte;
  m_to_owner : list byte;
  m_stop : bool;
  m_time : Z
}.

Definition m_set_self s (k : machine) : machine :=
  Machine s (m_peer k) (m_log k) (m_from_owner k) (m_to_owner k) (m_stop k) (m_time k).
Definition m_set_peer p l (k : machine) : machine :=
  Machine (m_self k) p l (m_from_owner k) (m_to_owner k) (m_stop k) (m_time k).

(** Handles and descriptors: the object's own, the thread's end of the pair, the adapter's. *)
Definition own_handle : Z := 0.
Definition thread_handle : Z := 1.
Definition adapter_handle : Z := 2.

Definition machine_kernel : Kernel machine := {|
  sys_read k _ n :=
    let data := ztake (Z.min 4096 n) (m_from_owner k) in
    (zlen data, 0, data, Machine (m_self k) (m_peer k) (m_log k) (zdrop (Z.min 4096 n) (m_from_owner k))
       (m_to_owner k) (m_stop k) (m_time k));
  sys_writev k _ iov :=
    let data := ztake 3 (concat iov.*1) in
    (zlen data, 0, Machine (m_self k) (m_peer k) (m_log k) (m_from_owner k) (m_to_owner k ++ data)
       (m_stop k) (m_time k));
  sys_close k _ := (0, 0, k);
  sys_getfl k _ := (0, 0, k);
  sys_setfl k _ _ := (0, 0, k)
|}.

Definition machine_net : SocketCalls machine := {|
  sys_socket k _ _ _ := (3, 0, tt, k);
  sys_getsockopt k _ _ opt _ :=
    (0, 0, (if opt =? Socket.SO_DOMAIN then Socket.AF_UNIX else Socket.SOCK_STREAM, Socket.SIZEOF_INT), k);
  sys_setsockopt k _ _ _ _ := (0, 0, tt, k);
  sys_getsockname k _ _ := (0, 0, (mail_address, 16), k);
  sys_getpeername k _ _ := (0, 0, (mail_address, 16), k);
  sys_bind k _ _ _ := (0, 0, tt, k);
  sys_connect k _ _ _ := (0, 0, tt, k);
  sys_shutdown k _ _ := (0, 0, tt, k);
  sys_listen k _ _ := (0, 0, tt, k);
  sys_accept k _ := (-1, EAGAIN, tt, k);
  sys_recvfrom k _ _ _ _ := (-1, EAGAIN, ([], ([], 0)), k);
  sys_sendmsg k _ _ _ _ _ := (-1, EAGAIN, tt, k);
  sys_open k _ _ := (3, 0, tt, k);
  sys_tunsetiff k _ _ := (0, 0, tt, k)
|}.

#[export] Instance machine_posix : PosixKernel machine_kernel (fun k _ => m_to_owner k).
Proof.
  split; simpl.
  - intros k fd iov r e k' [= <- <- <-]. pose proof (zlen_nonneg (concat iov.*1)). rewrite zlen_ztake.
    split; [lia|]. split; [lia|]. split; [lia|]. simpl. f_equal.
    destruct (Z.leb_spec (zlen (concat iov.*1)) 3); [rewrite !ztake_ge; lia || done|do 2 f_equal; lia].
  - intros k fd n r e data k' Hn [= <- <- <- <-]. pose proof (zlen_nonneg (m_from_owner k)). rewrite zlen_ztake.
    repeat split; lia.
Qed.

#[export] Instance machine_memory :
  Memory machine_kernel machine_net m_self m_set_self (fun k _ => m_to_owner k).
Proof. split; simpl; intros; simplify_eq/=; done. Qed.

(** The adapter: the base class and a link to the peer. *)
#[export] Instance machine_adapter : SpongeAdapter (FileDescriptor.world (K := machine)) FdAdapterBase.t := {|
  ad_fd _ := adapter_handle;
  ad_read a := fun w =>
    let k := FileDescriptor.kernel w in
    match TCPConnection.segments_out (m_peer k) with
    | [] => (_ ← FileDescriptor.register_read adapter_handle; mret (a, None)) w
    | seg :: rest => (_ ← FileDescriptor.register_read adapter_handle; mret (a, Some seg))
        (FileDescriptor.set_kernel (m_set_peer (TCPConnection.set_segments_out (m_peer k) rest) (m_log k) k) w)
    end;
  ad_write a seg := fun w =>
    let k := FileDescriptor.kernel w in
    let peer := match TCPConnection.segment_received (m_peer k) seg with Ok p => p | _ => m_peer k end in
    (_ ← FileDescriptor.register_write adapter_handle; mret a)
      (FileDescriptor.set_kernel (m_set_peer peer (m_log k ++ [seg]) k) w);
  ad_tick a _ := mret a;
  ad_base a := a;
  ad_set_base _ a := a
|}.

#[export] Instance machine_logged : LoggedAdapter m_self m_set_self m_log.
Proof. split; done. Qed.

(** Everything can be written; the adapter can be read when the peer has something, the pair
    when the owner has. *)
Definition machine_poll (k : machine) (ps : list EventLoop.pollfd) (_ : Z)
  : Z * Z * list EventLoop.pollfd * machine :=
  let readable fd :=
    if fd =? 12 then negb (bool_decide (TCPConnection.segments_out (m_peer k) = []))
    else negb (bool_decide (m_from_owner k = [])) in
  (zlen ps, 0,
   (fun p => EventLoop.Pollfd (EventLoop.p_fd p) (EventLoop.events p)
      (Z.lor EventLoop.POLLOUT (if readable (EventLoop.p_fd p) then EventLoop.POLLIN else 0))) <$> ps, k).

Definition machine_clock (k : machine) : Z * machine :=
  (m_time k + 1, Machine (m_self k) (m_peer k) (m_log k) (m_from_owner k) (m_to_owner k) (m_stop k) (m_time k + 1)).

Definition machine_config : FdAdapterConfig.t :=
  FdAdapterConfig.mk (Address.mk 16 mail_address) (Address.mk 16 mail_address) 0 0.

Definition machine_world (c : option TCPConnection.t) (peer : TCPConnection.t) (from_owner : list byte) (stop : bool)
  : FileDescriptor.world :=
  FileDescriptor.World
    (Machine (TCPSpongeSocket.mk (FdAdapterBase.mk machine_config false) c false false false)
       peer [] from_owner [] stop 0)
    {[ own_handle := (FDWrapper.mk 10 false false 0 0, 1);
       thread_handle := (FDWrapper.mk 11 false false 0 0, 1);
       adapter_handle := (FDWrapper.mk 12 false false 0 0, 1) ]}.

Definition small_config (isn : Z) : TCPConfig.t := TCPConfig.mk 1000 16 16 (Some (WrappingInt32.mk isn)).

(** The socket connects to a peer that listens, and then carries ten bytes of the owner's to it. *)
Definition machine_session : outcome (nat * TCPState.t * list byte) :=
  let w := machine_world None (fresh_connection 16) ten_bytes false in
  match TCPSpongeSocket.connect machine_kernel machine_net machine_poll machine_clock m_stop numeric_resolver
          m_self m_set_self thread_handle 20 (small_config 7) 0 machine_config ([], w) with
  | (Ok _, (rules, w)) =>
      match TCPSpongeSocket.tcp_rounds machine_kernel machine_poll machine_clock m_stop m_self m_set_self
              6 (mret true) 0 (rules, w) with
      | (_, (rules, w)) =>
          let k := FileDescriptor.kernel w in
          c ← match TCPSpongeSocket._tcp (m_self k) with Some c => Ok c | None => Undefined end;
          Ok (length rules, state c, inbound (m_peer k))
      end
  | (Throw e, _) => Throw e
  | _ => Undefined
  end.

Example machine_session_runs :
  machine_session = Ok (4%nat, TCPState.of_state TCPState.ESTABLISHED, ten_bytes).
Proof. vm_compute. reflexivity. Qed.

Definition open_world : FileDescriptor.world :=
  machine_world (Some (fresh_connection 16)) (fresh_connection 16) ten_bytes false.

Lemma open_points_to : points_to open_world thread_handle (FDWrapper.mk 11 false false 0 0).
Proof. by exists 1. Qed.

Lemma outbound_rule_correct_witness :
  exists w', TCPSpongeSocket.outbound_callback machine_kernel numeric_resolver m_self m_set_self thread_handle open_world
      = (Ok tt, w') /\
    exists c', TCPSpongeSocket._tcp (object m_self w') = Some c' /\ cn_wf ([] ++ ten_bytes) c' /\
      TCPConnection.receiver_ c' = TCPConnection.receiver_ (fresh_connection 16) /\
      ByteStream.input_ended (TCPSender.stream_in (TCPConnection.sender_ c')) = false /\
      TCPSpongeSocket._outbound_shutdown (object m_self w') = false.
Proof.
  apply (outbound_rule_correct machine_kernel machine_net numeric_resolver m_self m_set_self
    (fun k _ => m_to_owner k) machine_posix machine_memory thread_handle open_world
    (FDWrapper.mk 11 false false 0 0) [] (fresh_connection 16) open_points_to eq_refl); try reflexivity.
  apply (fresh_connection_wf 16 (fun _ _ => True) (fun _ => True)). unfold string_max_size. lia.
Defined.

(** A connection whose inbound stream holds ten bytes. *)
Definition holding_connection : TCPConnection.t :=
  TCPSpongeSocket.set_inbound (fresh_connection 16)
    match ByteStream.write (TCPConnection.inbound_stream (fresh_connection 16)) ten_bytes with
    | Ok (st, _) => st
    | _ => TCPConnection.inbound_stream (fresh_connection 16)
    end.

Definition holding_world : FileDescriptor.world :=
  machine_world (Some holding_connection) (fresh_connection 16) [] false.

Lemma holding_wf : ByteStream.wf (TCPConnection.inbound_stream holding_connection).
Proof. split; [split|..]; vm_compute; try done; split; (reflexivity || discriminate). Qed.

Lemma inbound_rule_correct_witness :
  exists o w' n c', TCPSpongeSocket.inbound_callback machine_kernel machine_net numeric_resolver m_self m_set_self
      thread_handle holding_world = (o, w') /\
    0 <= n <= Z.min 65536 (zlen (inbound holding_connection)) /\
    m_to_owner (FileDescriptor.kernel w') = [] ++ ztake n (inbound holding_connection) /\
    TCPSpongeSocket._tcp (object m_self w') = Some c' /\ inbound c' = zdrop n (inbound holding_connection) /\
    ByteStream.wf (TCPConnection.inbound_stream c') /\
    match o with
    | Ok _ => TCPSpongeSocket._inbound_shutdown (object m_self w') =
        (ByteStream.eof (TCPConnection.inbound_stream c') || ByteStream.error (TCPConnection.inbound_stream c') || false)
    | Throw _ => True
    | _ => False
    end.
Proof.
  apply (inbound_rule_correct machine_kernel machine_net numeric_resolver m_self m_set_self
    (fun k _ => m_to_owner k) machine_posix machine_memory thread_handle holding_world
    (FDWrapper.mk 11 false false 0 0) holding_connection); [by exists 1|reflexivity|apply holding_wf].
Defined.

(** Three bytes go out, seven stay. *)
Example inbound_partial_write :
  match TCPSpongeSocket.inbound_callback machine_kernel machine_net numeric_resolver m_self m_set_self
          thread_handle holding_world with
  | (Ok _, w') => (m_to_owner (FileDescriptor.kernel w'), inbound <$> TCPSpongeSocket._tcp (object m_self w'))
  | _ => ([], None)
  end = (replicate 3 Byte.x41, Some (replicate 7 Byte.x41)).
Proof. vm_compute. reflexivity. Qed.

Definition queued_connection : TCPConnection.t :=
  TCPConnection.set_segments_out (fresh_connection 16) [syn_segment; rst_segment].

Lemma datagram_rule_correct_witness :
  exists o w' gone rest, TCPSpongeSocket.datagram_callback m_self m_set_self
      (machine_world (Some queued_connection) (fresh_connection 16) [] false) = (o, w') /\
    [syn_segment; rst_segment] = gone ++ rest /\
    m_log (FileDescriptor.kernel w') = [] ++ gone /\
    TCPSpongeSocket._tcp (object m_self w') = Some (TCPConnection.set_segments_out queued_connection rest) /\
    match o with Ok _ => rest = [] | Throw _ => rest <> [] | _ => False end.
Proof.
  apply (datagram_rule_correct machine_kernel machine_net m_self m_set_self (fun k _ => m_to_owner k) m_log
    machine_memory machine_logged (machine_world (Some queued_connection) (fresh_connection 16) [] false)
    queued_connection). reflexivity.
Defined.

Lemma abort_sends_no_rst_witness :
  (exists c' seg, TCPConnection.destroy (fresh_connection 16) = Ok c' /\
    TCPConnection.segments_out c' = [] ++ [seg] /\ TCPHeader.rst (TCPSegment.header seg) = true) /\
  exists o w', TCPSpongeSocket.tcp_main_end machine_net m_self m_set_self own_handle open_world = (o, w') /\
    (Z -> m_to_owner (FileDescriptor.kernel w') = []) /\
    match o with
    | Ok _ => TCPSpongeSocket._tcp (object m_self w') = None
    | Throw _ => TCPSpongeSocket._tcp (object m_self w') = Some (fresh_connection 16)
    | _ => False
    end.
Proof.
  apply (abort_sends_no_rst machine_kernel machine_net m_self m_set_self (fun k _ => m_to_owner k)
    machine_memory own_handle open_world [] (fresh_connection 16)); try reflexivity; [by eexists|].
  apply (fresh_connection_wf 16 (fun _ _ => True) (fun _ => True)). unfold string_max_size. lia.
Defined.
