(* ===== verification/SpongeThread.v ===== *)
(** * SpongeThread.v: the TCP thread of a socket refines a TCP endpoint

    The rules of [libsponge/tcp_helpers/tcp_sponge_socket.cc] put together: [connect] or
    [listen_and_accept], then [_tcp_main], on any machine and with any adapter that keeps the
    promises of [EndpointAdapter].  What the thread does to its connection is a path of the
    endpoint of Endpoint.v: the bytes it reads from its owner are the bytes written to the
    endpoint, the bytes it writes to its owner are those read from the endpoint, and the
    segments that go through the adapter are those the endpoint hears and says. *)

From stdpp Require Import gmap list pretty.
From S2P Require Import Prelude Wrapping Streams Reassembler Buffers Parsing TcpWire Receiver Sender Connection TcpState.
From S2P Require Import IpWire Addresses Adapters Totality FileDesc EventLoop Sockets Handles StreamCopy SpongeSocket Transfer Endpoint.

(** ** What the socket relies on from an adapter *)

(** The descriptor behind each handle. *)
Definition numbers {K} (w : FileDescriptor.world (K := K)) : gmap Z Z := fst <$> fds w.

(** The descriptors, the object and the traffic of the descriptor [tfd] stay as they are. *)
Definition undisturbed {K T} (self : K -> T) (sent got : K -> Z -> list byte) (tfd : Z) :
  relation (FileDescriptor.world (K := K)) := fun w w' =>
  fds w' = fds w /\ self (FileDescriptor.kernel w') = self (FileDescriptor.kernel w) /\
  sent (FileDescriptor.kernel w') tfd = sent (FileDescriptor.kernel w) tfd /\
  got (FileDescriptor.kernel w') tfd = got (FileDescriptor.kernel w) tfd.

#[export] Instance undisturbed_preorder {K T} (self : K -> T) sent got tfd : PreOrder (undisturbed self sent got tfd).
Proof.
  split; [done|]. intros w1 w2 w3 (A1 & A2 & A3 & A4) (B1 & B2 & B3 & B4). split_and!; congruence.
Qed.

(** Adapters: [live a F] says that the adapter can be used when [F] gives the descriptors of
    the handles; [heard] and [said] are the segments that have come and gone through it.  No
    call of an adapter reaches undefined behaviour, touches the owner's descriptor or the
    object, and a call that throws lets nothing through. *)
Class EndpointAdapter {K A} `{!SpongeAdapter (FileDescriptor.world (K := K)) A} {T} (self : K -> T)
  (sent got : K -> Z -> list byte) (tfd : Z) (live : A -> gmap Z Z -> Prop) (heard said : A -> list TCPSegment.t) : Prop := {
  ea_read a w : live a (numbers w) ->
    wp (ad_read a) (fun '(a', seg) w' => undisturbed self sent got tfd w w' /\ live a' (numbers w) /\
      heard a' = heard a ++ option_list seg /\ said a' = said a /\ Forall seg_fine (option_list seg))
      (undisturbed self sent got tfd w) w;
  ea_write a seg w : live a (numbers w) ->
    wp (ad_write a seg) (fun a' w' => undisturbed self sent got tfd w w' /\ live a' (numbers w) /\
      heard a' = heard a /\ said a' = said a ++ [seg])
      (undisturbed self sent got tfd w) w;
  ea_tick a ms w : live a (numbers w) ->
    wp (ad_tick a ms) (fun a' w' => undisturbed self sent got tfd w w' /\ live a' (numbers w) /\
      heard a' = heard a /\ said a' = said a)
      (undisturbed self sent got tfd w) w;
  ea_base a b F : live a F -> live (ad_set_base a b) F;
  ea_base_heard a b : heard (ad_set_base a b) = heard a;
  ea_base_said a b : said (ad_set_base a b) = said a
}.

(** ** The thread *)

Section thread.

Import TCPSpongeSocket.

Context {K A : Type} (sys : Kernel K) (net : SocketCalls K)
  (sys_poll : K -> list EventLoop.pollfd -> Z -> Z * Z * list EventLoop.pollfd * K)
  (clock : K -> Z * K) (aborted : K -> bool) (R : Address.Resolver)
  (self : K -> t A) (set_self : t A -> K -> K) (sent got : K -> Z -> list byte)
  `{!SpongeAdapter (FileDescriptor.world (K := K)) A}
  `{!PosixKernel sys sent} `{!LoggedKernel sys net sys_poll self set_self sent got} `{!PosixPoll sys_poll}.

#[local] Abbreviation W := (FileDescriptor.world (K := K)).
#[local] Abbreviation object w := (self (FileDescriptor.kernel w)).

(** The owner's handle and that of [_thread_data] with its descriptor; no descriptor carries
    more than [2^60] bytes. *)
Context (own thread_data tfd : Z) (live : A -> gmap Z Z -> Prop) (heard said : A -> list TCPSegment.t)
  `{!EndpointAdapter self sent got tfd live heard said}.
Hypothesis Hclock : forall k, quiet self sent got k (clock k).2.
Hypothesis Hsmall : forall k, zlen (got k tfd) < 2 ^ 60 /\ zlen (sent k tfd) < 2 ^ 60.

(** The descriptors of the handles, which do not change. *)
Context (F : gmap Z Z).
Hypothesis Hthread : F !! thread_data = Some tfd.

(** Where the session started: the endpoint, what had come from the owner and gone to it, and
    what had gone through the adapter. *)
Context (e0 : endpoint) (G D : list byte) (H0 S0 : list TCPSegment.t).
Hypothesis He0 : ep_wf e0.

(** The object is at the endpoint [e], which has heard and said the given segments. *)
Record at_endpoint (e : endpoint) (hs ss : list TCPSegment.t) (w : W) : Prop := {
  at_path : path e0 hs ss e;
  at_fine : Forall seg_fine hs;
  at_tcp : _tcp (object w) = Some (conn e);
  at_got : got (FileDescriptor.kernel w) tfd = G ++ written e;
  at_sent : sent (FileDescriptor.kernel w) tfd = D ++ delivered e;
  at_heard : heard (_datagram_adapter (object w)) = H0 ++ hs;
  at_said : said (_datagram_adapter (object w)) = S0 ++ ss;
  at_live : live (_datagram_adapter (object w)) F;
  at_numbers : numbers w = F;
  at_open : _outbound_shutdown (object w) = false -> ended (conn e) = false
}.

Definition linked (w : W) : Prop := exists e hs ss, at_endpoint e hs ss w.

Lemma at_delivered e hs ss w : at_endpoint e hs ss w -> zlen (delivered e) < 2 ^ 60.
Proof.
  intros Ha. destruct (Hsmall (FileDescriptor.kernel w)) as [_ Hs]. rewrite (at_sent _ _ _ _ Ha), zlen_app in Hs.
  pose proof (zlen_nonneg D). lia.
Qed.

Lemma at_written e hs ss w : at_endpoint e hs ss w -> zlen (written e) < 2 ^ 60.
Proof.
  intros Ha. destruct (Hsmall (FileDescriptor.kernel w)) as [Hs _]. rewrite (at_got _ _ _ _ Ha), zlen_app in Hs.
  pose proof (zlen_nonneg G). lia.
Qed.

Lemma at_wf e hs ss w : at_endpoint e hs ss w -> ep_wf e.
Proof.
  intros Ha. pose proof (at_delivered _ _ _ _ Ha). eapply path_wf; [done|apply Ha|apply Ha|lia].
Qed.

(** ** Changing the object *)

Definition with_obj (w : W) (f : t A -> t A) : W :=
  FileDescriptor.set_kernel (set_self (f (object w)) (FileDescriptor.kernel w)) w.

Lemma obj_with w f : object (with_obj w f) = f (object w).
Proof. unfold with_obj. simpl. apply (logged_set (sys := sys) (net := net) (sys_poll := sys_poll) (sent := sent) (got := got)). Qed.

Lemma got_with w f fd : got (FileDescriptor.kernel (with_obj w f)) fd = got (FileDescriptor.kernel w) fd.
Proof. unfold with_obj. simpl. apply logged_got. Qed.

Lemma sent_with_obj w f fd : sent (FileDescriptor.kernel (with_obj w f)) fd = sent (FileDescriptor.kernel w) fd.
Proof. unfold with_obj. simpl. apply logged_sent. Qed.

(** Another world in which nothing was read or written and the object changed by [f]. *)
Lemma at_moved e hs ss w e' hs' ss' w' f :
  at_endpoint e hs ss w -> numbers w' = numbers w -> object w' = f (object w) ->
  got (FileDescriptor.kernel w') tfd = got (FileDescriptor.kernel w) tfd ->
  sent (FileDescriptor.kernel w') tfd = sent (FileDescriptor.kernel w) tfd ->
  path e0 hs' ss' e' -> Forall seg_fine hs' -> written e' = written e -> delivered e' = delivered e ->
  _tcp (f (object w)) = Some (conn e') -> live (_datagram_adapter (f (object w))) F ->
  heard (_datagram_adapter (f (object w))) = H0 ++ hs' -> said (_datagram_adapter (f (object w))) = S0 ++ ss' ->
  (_outbound_shutdown (f (object w)) = false -> ended (conn e') = false) ->
  at_endpoint e' hs' ss' w'.
Proof.
  intros [] Hf Ho Hg Hs Hp Hfine Hw Hd Ht Hl Hh Hsd Hop. split; rewrite ?Ho; try done; congruence.
Qed.

Lemma same_numbers (w w' : W) : fds w' = fds w -> numbers w' = numbers w.
Proof. unfold numbers. by intros ->. Qed.

(** Nothing but the kernel's own business. *)
Lemma at_quiet e hs ss w w' : at_endpoint e hs ss w -> calm self sent got w w' -> at_endpoint e hs ss w'.
Proof.
  intros Ha (Hf & Hs & H1 & H2). pose proof Ha as []. by eapply (at_moved e hs ss w _ _ _ w' id); [|apply same_numbers|..].
Qed.

(** A local step of the endpoint that is a change of the connection. *)
Lemma at_step e hs ss w e' : at_endpoint e hs ss w -> local_step e e' [] -> written e' = written e ->
  delivered e' = delivered e -> (_outbound_shutdown (object w) = false -> ended (conn e') = false) ->
  at_endpoint e' hs ss (with_obj w (fun s => set_tcp s (Some (conn e')))).
Proof.
  intros Ha Hs Hw Hd Ho. pose proof Ha as [Hp ? ? ? ? ? ? ? ? ?].
  eapply (at_moved e hs ss w _ _ _ _ (fun s => set_tcp s (Some (conn e')))); try done.
  - apply obj_with.
  - apply got_with.
  - apply sent_with_obj.
  - rewrite <- (app_nil_r ss). by eapply path_local.
Qed.

(** Flags of the object that matter to nobody else. *)
Lemma at_flag e hs ss w f : at_endpoint e hs ss w ->
  (forall s, _tcp (f s) = _tcp s /\ _datagram_adapter (f s) = _datagram_adapter s /\
     (_outbound_shutdown (f s) = false -> _outbound_shutdown s = false)) ->
  at_endpoint e hs ss (with_obj w f).
Proof.
  intros Ha Hf. pose proof Ha as [? ? ? ? ? ? ? ? ? Hop]. destruct (Hf (object w)) as (F1 & F2 & F3).
  eapply (at_moved e hs ss w _ _ _ _ f); rewrite ?F1, ?F2; try done; auto.
  - apply obj_with.
  - apply got_with.
  - apply sent_with_obj.
Qed.

(** ** Weakest preconditions of the small steps *)

Lemma wp_get Q E w : Q (object w) w -> wp (get self) Q E w.
Proof. done. Qed.

Lemma wp_put f Q E w : Q tt (with_obj w f) -> wp (put self set_self f) Q E w.
Proof. done. Qed.

Lemma wp_tcp c Q E w : _tcp (object w) = Some c -> Q c w -> wp (tcp self) Q E w.
Proof. intros Hc HQ. unfold tcp. apply wp_bind, wp_get. by rewrite Hc. Qed.

Lemma wp_tcp_value c Q E w : _tcp (object w) = Some c -> Q c w -> wp (tcp_value self) Q E w.
Proof. intros Hc HQ. unfold tcp_value. apply wp_bind, wp_get. by rewrite Hc. Qed.

Lemma wp_on_tcp f c c' Q E w : _tcp (object w) = Some c -> f c = Ok c' ->
  Q tt (with_obj w (fun s => set_tcp s (Some c'))) -> wp (on_tcp self set_self f) Q E w.
Proof. intros Hc Hf HQ. unfold on_tcp. apply wp_bind, (wp_tcp c); [done|]. apply wp_bind. unfold wp, pure_. by rewrite Hf. Qed.

Lemma wp_peer_name Q (E : W -> Prop) w : (forall s, Q s w) -> E w -> wp (peer_name R self) Q E w.
Proof.
  intros HQ HE. unfold peer_name. apply wp_bind, wp_get. unfold wp, pure_.
  pose proof (to_string_defined R (FdAdapterConfig.destination (FdAdapterBase.config (ad_base (_datagram_adapter (object w)))))).
  by destruct (Address.to_string R _).
Qed.

(** Looking at the handle of the thread. *)
Lemma thread_fds e hs ss w : at_endpoint e hs ss w -> exists n, fds w !! thread_data = Some (tfd, n).
Proof.
  intros Ha. pose proof (at_numbers _ _ _ _ Ha) as Hn. rewrite <- Hn in Hthread. unfold numbers in Hthread.
  rewrite lookup_fmap in Hthread. destruct (fds w !! thread_data) as [[fd n]|]; [|done]. injection Hthread as ->. by exists n.
Qed.

Lemma wp_eof Q E (w : W) n : fds w !! thread_data = Some (tfd, n) -> (forall b, Q b w) -> wp (FileDescriptor.eof thread_data) Q E w.
Proof.
  intros (x & Hx & _)%fds_lookup HQ. unfold FileDescriptor.eof. apply wp_bind. unfold wp, FileDescriptor.internal.
  rewrite Hx. apply HQ.
Qed.

(** Reading from the owner and writing to it. *)
Lemma wp_thread_read e hs ss w limit : at_endpoint e hs ss w -> 0 <= limit < two64 ->
  wp (FileDescriptor.read sys thread_data limit)
    (fun data w' => fds w' = fds w /\ object w' = object w /\
       sent (FileDescriptor.kernel w') tfd = sent (FileDescriptor.kernel w) tfd /\
       got (FileDescriptor.kernel w') tfd = G ++ written e ++ data /\ zlen data <= limit)
    (fun w' => at_endpoint e hs ss w' /\ fds w' = fds w) w.
Proof.
  intros Ha Hl. destruct (thread_fds _ _ _ _ Ha) as [n Hn]. destruct (fds_lookup _ _ _ _ Hn) as (x & Hx & Hfd).
  pose proof (fd_read_correct sys sent _ w thread_data limit x ltac:(by exists n) Hl) as Hr.
  pose proof (read_respects sys thread_data limit w) as Hf. unfold same_fds in Hf.
  rewrite Hfd in Hr. destruct (sys_read sys (FileDescriptor.kernel w) tfd (Z.min FileDescriptor.BUFFER_SIZE limit))
    as [[[r e1] data] k] eqn:Er. destruct (logged_read _ _ _ _ _ _ _ Er) as (Hs & Hse & Hgo).
  assert (Hmin : 0 <= Z.min FileDescriptor.BUFFER_SIZE limit) by (unfold FileDescriptor.BUFFER_SIZE; lia).
  destruct (read_returns _ _ _ _ _ _ _ Hmin Er) as (Hrange & _).
  destruct Hr as (w' & Hk & Hr). unfold wp. destruct (Z.eqb_spec r (-1)) as [->|Hne].
  - destruct Hr as [Hrd _]. rewrite Hrd in Hf |- *. simpl in Hf. split; [|done]. eapply at_quiet; [done|].
    split; [done|]. rewrite Hk. split; [done|]. split; [done|]. intros fd.
    rewrite Hgo. destruct (decide _) as [[_ ?]|_]; [lia|]. apply app_nil_r.
  - destruct Hr as (Hrd & Hlim & _ & _). rewrite Hrd in Hf |- *. simpl in Hf. rewrite Hk. split_and!; try done.
    rewrite Hgo, (at_got _ _ _ _ Ha), <- app_assoc. destruct (decide _) as [_|Hd]; [done|]. destruct Hd. split; [done|lia].
Qed.

Lemma wp_thread_write e hs ss w b : at_endpoint e hs ss w -> zlen b < two63 ->
  wp (FileDescriptor.write sys thread_data (BufferViewList.of_string b) false)
    (fun n w' => fds w' = fds w /\ object w' = object w /\ 0 <= n <= zlen b /\
       got (FileDescriptor.kernel w') tfd = got (FileDescriptor.kernel w) tfd /\
       sent (FileDescriptor.kernel w') tfd = D ++ delivered e ++ ztake n b)
    (fun w' => at_endpoint e hs ss w' /\ fds w' = fds w) w.
Proof.
  intros Ha Hb. destruct (thread_fds _ _ _ _ Ha) as [n Hn]. destruct (fds_lookup _ _ _ _ Hn) as (x & Hx & Hfd).
  assert (Hall : all_bytes (BufferViewList.of_string b) = b) by (unfold all_bytes; simpl; apply app_nil_r).
  pose proof (write_respects sys thread_data (BufferViewList.of_string b) false w) as Hf. unfold same_fds in Hf.
  destruct (write_loop_spec sys sent
    (fun k => self k = object w /\ got k tfd = got (FileDescriptor.kernel w) tfd) thread_data tfd false
    (S (length (all_bytes (BufferViewList.of_string b))))) with
    (buffer := BufferViewList.of_string b) (total := 0) (w := w) (x := x)
    as (o & w' & m & Hrun & Hm & Hs & [Ho Hg] & _ & Hout); try done; rewrite ?Hall in *; try lia.
  { intros k iov r e1 k' Hsys [<- <-]. by destruct (logged_writev _ _ _ _ _ _ Hsys) as (G1 & G2 & G3). }
  { by exists n. }
  unfold FileDescriptor.write in *. rewrite Hall in *. unfold wp. rewrite Hrun in Hf |- *. simpl in Hf.
  destruct o as [r|er| |]; try done.
  - destruct Hout as [-> _]. split_and!; try done; try lia. by rewrite Hs, (at_sent _ _ _ _ Ha), <- app_assoc.
  - specialize (Hout eq_refl). subst m. rewrite ztake_le0, app_nil_r in Hs by lia. split; [|done].
    eapply (at_moved e hs ss w e hs ss w' id); try done; try apply Ha. by apply same_numbers.
Qed.

(** ** The rules *)

(** The owner can still write. *)
Definition is_open (w : W) : Prop := exists c, _tcp (object w) = Some c /\ ended c = false.

Definition kept (w w' : W) : Prop := linked w' /\ fds w' = fds w /\ (is_open w -> is_open w').
Definition failed (w w' : W) : Prop := linked w' /\ fds w' = fds w.

Lemma kept_intro e hs ss w e' hs' ss' w' : at_endpoint e hs ss w -> at_endpoint e' hs' ss' w' -> fds w' = fds w ->
  ended (conn e') = ended (conn e) -> kept w w'.
Proof.
  intros Ha Ha' Hf He. split; [by exists e', hs', ss'|]. split; [done|]. intros (c & Hc & Hen).
  rewrite (at_tcp _ _ _ _ Ha) in Hc. injection Hc as <-. exists (conn e'). split; [apply Ha'|congruence].
Qed.

Lemma failed_intro e hs ss w w' : at_endpoint e hs ss w' -> fds w' = fds w -> failed w w'.
Proof. intros Ha Hf. split; [by exists e, hs, ss|done]. Qed.

(** The adapter reads: the endpoint has heard the segment once the connection has it. *)
Lemma wp_adapter_read e hs ss w : at_endpoint e hs ss w ->
  wp (adapter_read self set_self)
    (fun seg w' => fds w' = fds w /\ _tcp (object w') = Some (conn e) /\
       match seg with
       | None => at_endpoint e hs ss w'
       | Some seg => seg_fine seg /\ forall e', receives e seg e' ->
           at_endpoint e' (hs ++ [seg]) ss (with_obj w' (fun s => set_tcp s (Some (conn e'))))
       end)
    (fun w' => at_endpoint e hs ss w' /\ fds w' = fds w) w.
Proof.
  intros Ha. pose proof Ha as [Hp Hfine Htcp Hgot Hsent Hheard Hsaid Hlive Hnum Hop].
  unfold adapter_read. apply wp_bind, wp_get, wp_bind.
  eapply wp_mono; [apply (ea_read _ w); by rewrite Hnum|..].
  - intros [a seg] w1 ((Hf & Ho & Hs & Hg) & Hl & Hh & Hsd & Hsf). rewrite Hnum in Hl.
    apply wp_bind, wp_put, wp_ret. split; [done|]. rewrite obj_with, Ho. split; [exact Htcp|].
    destruct seg as [seg|]; simpl in *.
    + rewrite Forall_singleton in Hsf. split; [exact Hsf|]. intros e' Hr. pose proof Hr as (Hr1 & Hr2 & Hr3).
      eapply (at_moved e hs ss w _ _ _ _ (fun s => set_tcp (set_datagram_adapter s a) (Some (conn e')))); try done.
      * by apply same_numbers.
      * by rewrite !obj_with, Ho.
      * by rewrite !got_with.
      * by rewrite !sent_with_obj.
      * by eapply path_receive.
      * apply Forall_app. by split; [|apply Forall_singleton].
      * simpl. by rewrite Hh, Hheard, <- app_assoc.
      * simpl. congruence.
      * simpl. intros ?%Hop. by rewrite (received_ended _ _ _ Hr1).
    + eapply (at_moved e hs ss w _ _ _ _ (fun s => set_datagram_adapter s a)); try done.
      * by apply same_numbers.
      * by rewrite !obj_with, Ho.
      * by rewrite !got_with.
      * by rewrite !sent_with_obj.
      * simpl. by rewrite Hh, Hheard, app_nil_r.
      * simpl. congruence.
  - intros w1 (Hf & Ho & Hs & Hg). split; [|done]. by eapply (at_moved e hs ss w e hs ss w1 id); [|apply same_numbers|..].
Qed.

Lemma segment_callback_ok w : linked w -> wp (segment_callback R self set_self thread_data) (fun _ => kept w) (failed w) w.
Proof.
  intros (e & hs & ss & Ha). unfold segment_callback. apply wp_bind.
  eapply wp_mono; [by apply (wp_adapter_read e hs ss)| |intros w' []; by eapply failed_intro].
  intros seg w1 (Hf1 & Htcp1 & Hseg). apply wp_bind.
  assert (Hstep : wp (match seg with Some seg => on_tcp self set_self (fun c => TCPConnection.segment_received c seg) | None => mret tt end)
    (fun _ w2 => exists e' hs', at_endpoint e' hs' ss w2 /\ fds w2 = fds w /\ ended (conn e') = ended (conn e)) (failed w) w1).
  { destruct seg as [seg|]; [|apply wp_ret; eauto 6]. destruct Hseg as [Hfine Hnext].
    pose proof (at_delivered _ _ _ _ Ha) as Hd.
    destruct (receives_wf e seg) as (c' & Hc' & Hwf & _); [by eapply at_wf|lia|done|].
    eapply wp_on_tcp; [done|done|]. exists (Endpoint c' (written e) (delivered e)), (hs ++ [seg]).
    split; [by apply (Hnext (Endpoint c' (written e) (delivered e)))|]. split; [done|]. by eapply received_ended. }
  eapply wp_mono; [exact Hstep| |done]. intros _ w2 (e' & hs' & Ha' & Hf2 & Hen). destruct (thread_fds _ _ _ _ Ha') as [n Hn].
  apply wp_bind. eapply wp_eof; [exact Hn|]. intros [|]; [|apply wp_ret; by eapply kept_intro].
  apply wp_bind. eapply wp_tcp_value; [apply Ha'|]. apply wp_bind, wp_get. destruct (_ && _); [|apply wp_ret; by eapply kept_intro].
  apply wp_bind, wp_peer_name; [|by eapply failed_intro]. intros _. apply wp_put. eapply kept_intro; [done| |done|done].
  by apply at_flag.
Qed.

(** The adapter writes the segment at the front of the queue. *)
Lemma wp_adapter_write e hs ss w seg rest : at_endpoint e hs ss w -> TCPConnection.segments_out (conn e) = seg :: rest ->
  wp (adapter_write self set_self seg)
    (fun _ w' => fds w' = fds w /\ _tcp (object w') = Some (conn e) /\
       let e' := Endpoint (TCPConnection.set_segments_out (conn e) rest) (written e) (delivered e) in
       at_endpoint e' hs (ss ++ [seg]) (with_obj w' (fun s => set_tcp s (Some (conn e')))))
    (fun w' => at_endpoint e hs ss w' /\ fds w' = fds w) w.
Proof.
  intros Ha Hq. pose proof Ha as [Hp Hfine Htcp Hgot Hsent Hheard Hsaid Hlive Hnum Hop].
  unfold adapter_write. apply wp_bind, wp_get, wp_bind.
  eapply wp_mono; [apply (ea_write _ seg w); by rewrite Hnum|..].
  - intros a w1 ((Hf & Ho & Hs & Hg) & Hl & Hh & Hsd). rewrite Hnum in Hl.
    apply wp_put. split; [done|]. rewrite obj_with, Ho. split; [exact Htcp|]. cbv zeta.
    set (e' := Endpoint (TCPConnection.set_segments_out (conn e) rest) (written e) (delivered e)).
    eapply (at_moved e hs ss w _ _ _ _ (fun s => set_tcp (set_datagram_adapter s a) (Some (conn e')))); try done.
    + by apply same_numbers.
    + by rewrite !obj_with, Ho.
    + by rewrite !got_with.
    + by rewrite !sent_with_obj.
    + eapply path_local; [done|]. destruct e. by apply local_emit.
    + simpl. congruence.
    + simpl. by rewrite Hsd, Hsaid, <- app_assoc.
  - intros w1 (Hf & Ho & Hs & Hg). split; [|done]. by eapply (at_moved e hs ss w e hs ss w1 id); [|apply same_numbers|..].
Qed.

Lemma send_segments_ok fuel : forall e hs ss w, at_endpoint e hs ss w ->
  (length (TCPConnection.segments_out (conn e)) < fuel)%nat ->
  wp (send_segments self set_self fuel) (fun _ => kept w) (failed w) w.
Proof.
  induction fuel as [|fuel IH]; intros e hs ss w Ha Hl; [lia|]. cbn [send_segments].
  apply wp_bind. eapply wp_tcp; [apply Ha|]. destruct (TCPConnection.segments_out (conn e)) as [|seg rest] eqn:Eq.
  { apply wp_ret. by eapply kept_intro. }
  apply wp_bind. eapply wp_mono; [by eapply wp_adapter_write| |intros w' []; by eapply failed_intro].
  intros _ w1 (Hf1 & Htcp1 & Ha1). apply wp_bind. eapply wp_on_tcp; [done|reflexivity|].
  assert (Htail : tail (TCPConnection.segments_out (conn e)) = rest) by (by rewrite Eq). rewrite Htail.
  eapply wp_mono; [eapply IH; [exact Ha1|]; simpl in *; lia|..].
  - intros _ w2 (Hl2 & Hf2 & Ho2). split; [done|]. split; [by rewrite Hf2|]. intros (c & Hc & Hen). apply Ho2.
    rewrite (at_tcp _ _ _ _ Ha) in Hc. injection Hc as <-. eexists. split; [apply Ha1|done].
  - intros w2 (Hl2 & Hf2). split; [done|by rewrite Hf2].
Qed.

Lemma datagram_callback_ok w : linked w -> wp (datagram_callback self set_self) (fun _ => kept w) (failed w) w.
Proof.
  intros (e & hs & ss & Ha). unfold datagram_callback. apply wp_bind. eapply wp_tcp; [apply Ha|].
  eapply send_segments_ok; [done|lia].
Qed.

(** The owner has shut down its side, or the rule is cancelled. *)
Lemma at_closing e hs ss w : at_endpoint e hs ss w ->
  exists e', TCPConnection.end_input_stream (conn e) = Ok (conn e') /\
    at_endpoint e' hs ss (with_obj (with_obj w (fun s => set_tcp s (Some (conn e')))) (fun s => set_outbound_shutdown s true)).
Proof.
  intros Ha. destruct (end_input_wf _ _ (ep_conn _ (at_wf _ _ _ _ Ha))) as (c & new & Hc & _).
  exists (Endpoint c (written e) (delivered e)). split; [done|]. pose proof Ha as [Hp ? ? ? ? ? ? ? ? ?].
  eapply (at_moved e hs ss w _ _ _ _ (fun s => set_outbound_shutdown (set_tcp s (Some c)) true)); try done.
  - by rewrite !obj_with.
  - by rewrite !got_with.
  - by rewrite !sent_with_obj.
  - rewrite <- (app_nil_r ss). eapply path_local; [done|]. destruct e. by apply local_end.
Qed.

Lemma outbound_cancel_ok w : linked w ->
  exists w', outbound_cancel self set_self w = (Ok tt, w') /\ linked w' /\ fds w' = fds w.
Proof.
  intros (e & hs & ss & Ha). destruct (at_closing _ _ _ _ Ha) as (e' & He & Ha').
  eexists. split; [|split; [by exists e', hs, ss|done]].
  unfold outbound_cancel, on_tcp, tcp, get, gets, put, modify, mbind, io_bind, pure_, store, mret, io_ret.
  rewrite (at_tcp _ _ _ _ Ha), He. done.
Qed.

Lemma outbound_store_ok e hs ss w w1 data : at_endpoint e hs ss w -> ended (conn e) = false ->
  fds w1 = fds w -> object w1 = object w -> sent (FileDescriptor.kernel w1) tfd = sent (FileDescriptor.kernel w) tfd ->
  got (FileDescriptor.kernel w1) tfd = G ++ written e ++ data ->
  zlen data <= TCPConnection.remaining_outbound_capacity (conn e) ->
  wp (outbound_store R self set_self thread_data data) (fun _ => failed w) (failed w) w1.
Proof.
  intros Ha Hopen Hf1 Ho1 Hs1 Hg1 Hlen. pose proof (at_wf _ _ _ _ Ha) as Hwf.
  destruct (Hsmall (FileDescriptor.kernel w1)) as [Hgs _]. rewrite Hg1, !zlen_app in Hgs.
  pose proof (zlen_nonneg G). pose proof (zlen_nonneg data).
  destruct (write_whole _ _ data (ep_conn _ Hwf) Hopen Hlen) as (c1 & Hw & _ & _ & Hie); [lia|].
  set (e1 := Endpoint c1 (written e ++ data) (delivered e)).
  assert (Ha1 : at_endpoint e1 hs ss (with_obj w1 (fun s => set_tcp s (Some c1)))).
  { pose proof Ha as [Hp ? ? ? ? ? ? ? ? Hop]. split; rewrite ?obj_with, ?Ho1; simpl; try done.
    - rewrite <- (app_nil_r ss). eapply path_local; [done|]. destruct e as [c wr dl]. unfold e1. simpl in *.
      replace (wr ++ data) with (wr ++ ztake (zlen data) data) by (by rewrite ztake_ge by lia).
      eapply local_write; [lia|done].
    - by rewrite logged_got.
    - by rewrite logged_sent, Hs1.
    - unfold numbers. change (fds (with_obj w1 _)) with (fds w1). by rewrite Hf1. }
  unfold outbound_store. cbv zeta. apply wp_bind. eapply (wp_tcp (conn e)); [rewrite Ho1; apply Ha|].
  apply wp_bind. unfold wp at 1, pure_ at 1. rewrite Hw. apply wp_bind, wp_put.
  rewrite Z.eqb_refl. cbn [negb]. apply wp_bind. destruct (thread_fds _ _ _ _ Ha1) as [n Hn].
  eapply wp_eof; [exact Hn|]. intros [|]; [|apply wp_ret; by eapply failed_intro].
  destruct (at_closing _ _ _ _ Ha1) as (e2 & He2 & Ha2). apply wp_bind.
  eapply wp_on_tcp; [apply Ha1|exact He2|]. apply wp_bind, wp_put. apply wp_bind.
  apply wp_peer_name; [|by eapply failed_intro]. intros _. apply wp_bind. eapply wp_tcp_value; [apply Ha2|].
  apply wp_ret. by eapply failed_intro.
Qed.

Lemma outbound_callback_ok w : linked w -> is_open w ->
  wp (outbound_callback sys R self set_self thread_data) (fun _ => failed w) (failed w) w.
Proof.
  intros (e & hs & ss & Ha) (c & Hc & Hopen). rewrite (at_tcp _ _ _ _ Ha) in Hc. injection Hc as <-.
  unfold outbound_callback. apply wp_bind. eapply wp_tcp; [apply Ha|]. apply wp_bind.
  eapply wp_mono; [eapply wp_thread_read; [done|] | |intros w' []; by eapply failed_intro].
  { eapply remaining_range, ep_conn. by eapply at_wf. }
  intros data w1 (Hf1 & Ho1 & Hs1 & Hg1 & Hlen). by eapply outbound_store_ok.
Qed.

(** The part of rule 3 that follows the write. *)
Lemma inbound_end_ok e hs ss w : at_endpoint e hs ss w ->
  wp (inbound_end net R self set_self thread_data)
    (fun _ w' => at_endpoint e hs ss w' /\ fds w' = fds w) (fun w' => at_endpoint e hs ss w' /\ fds w' = fds w) w.
Proof.
  intros Ha. unfold inbound_end. apply wp_bind. eapply wp_tcp; [apply Ha|]. cbv zeta. destruct (_ || _); [|by apply wp_ret].
  destruct (thread_fds _ _ _ _ Ha) as [n Hn]. apply wp_bind.
  eapply (wp_call _ (calm self sent got)); [apply shutdown_answers|apply shutdown_calm|by rewrite Hn|..].
  2:{ intros w1 Hw1. split; [by eapply at_quiet|by destruct Hw1]. }
  intros _ w1 Hw1. pose proof (at_quiet _ _ _ _ _ Ha Hw1) as Ha1. destruct Hw1 as [Hf1 _].
  assert (Ha2 : at_endpoint e hs ss (with_obj w1 (fun s => set_inbound_shutdown s true))) by (by apply at_flag).
  apply wp_bind, wp_put, wp_bind, wp_peer_name; [|done]. intros _. apply wp_bind.
  eapply wp_tcp_value; [apply Ha2|]. by apply wp_ret.
Qed.

Lemma inbound_callback_ok w : linked w -> wp (inbound_callback sys net R self set_self thread_data) (fun _ => kept w) (failed w) w.
Proof.
  intros (e & hs & ss & Ha). pose proof (at_wf _ _ _ _ Ha) as Hwf.
  assert (Hst : ByteStream.wf (TCPConnection.inbound_stream (conn e))) by apply (ep_recv _ Hwf).
  pose proof (bs_buffer_size _ Hst) as Hsize. set (st := TCPConnection.inbound_stream (conn e)) in *.
  pose proof (zlen_nonneg (ByteStream.contents st)). set (amount := Z.min 65536 (ByteStream.buffer_size st)).
  unfold inbound_callback. apply wp_bind. eapply wp_tcp; [apply Ha|]. cbv zeta. apply wp_bind.
  fold st. fold amount. unfold wp at 1, pure_ at 1. rewrite bs_peek_spec by (done || lia).
  assert (Hlen : zlen (ztake amount (ByteStream.contents st)) = amount) by (rewrite zlen_ztake; lia).
  apply wp_bind. eapply wp_mono; [eapply wp_thread_write; [done|rewrite Hlen; lia]| |intros w' []; by eapply failed_intro].
  intros n w1 (Hf1 & Ho1 & Hn & Hg1 & Hs1). rewrite Hlen in Hn. rewrite ztake_ztake, Z.min_l in Hs1 by lia.
  destruct (bs_read_spec st n Hst ltac:(lia)) as (out & Hread & _).
  assert (Hpop : ByteStream.pop_output st n = Ok out).
  { unfold ByteStream.read in Hread. rewrite bs_peek_spec in Hread by (done || lia). cbn [mbind outcome_bind] in Hread.
    apply bind_Ok_inv in Hread as (s' & Hp & [= <-]). done. }
  set (e1 := Endpoint (set_inbound (conn e) out) (written e) (delivered e ++ ztake n (ByteStream.contents st))).
  assert (Ha1 : at_endpoint e1 hs ss (with_obj w1 (fun s => set_tcp s (Some (conn e1))))).
  { pose proof Ha as [Hp ? ? ? ? ? ? ? ? Hop]. split; rewrite ?obj_with, ?Ho1; simpl; try done.
    - rewrite <- (app_nil_r ss). eapply path_local; [done|]. destruct e as [c wr dl]. unfold e1. simpl in *.
      eapply local_read; [|done]. fold st. lia.
    - by rewrite logged_got, Hg1.
    - by rewrite logged_sent, Hs1.
    - unfold numbers. change (fds (with_obj w1 _)) with (fds w1). by rewrite Hf1. }
  apply wp_bind. eapply (wp_on_tcp _ (conn e)); [rewrite Ho1; apply Ha|fold st; by rewrite Hpop|].
  eapply wp_mono; [by eapply inbound_end_ok|..].
  - intros _ w2 [Ha2 Hf2]. eapply kept_intro; [exact Ha|exact Ha2|by rewrite Hf2|done].
  - intros w2 [Ha2 Hf2]. eapply failed_intro; [exact Ha2|by rewrite Hf2].
Qed.

(** ** The event loop *)

(** The rules of [_initialize_TCP], with the adapter's handle at that time. *)
Context (ah : Z).
Hypothesis Hhandles : ah <> thread_data.

Definition rule_1 : EventLoop.Rule K :=
  EventLoop.mkRule ah EventLoop.In (segment_callback R self set_self thread_data) (segment_interest self) (mret tt).
Definition rule_2 : EventLoop.Rule K :=
  EventLoop.mkRule thread_data EventLoop.In (outbound_callback sys R self set_self thread_data) (outbound_interest self)
    (outbound_cancel self set_self).
Definition rule_3 : EventLoop.Rule K :=
  EventLoop.mkRule thread_data EventLoop.Out (inbound_callback sys net R self set_self thread_data) (inbound_interest self) (mret tt).
Definition rule_4 : EventLoop.Rule K :=
  EventLoop.mkRule ah EventLoop.Out (datagram_callback self set_self) (datagram_interest self) (mret tt).

Definition socket_rules : list (EventLoop.Rule K) := [rule_1; rule_2; rule_3; rule_4].

Lemma socket_cases r : r ∈ socket_rules -> r = rule_1 \/ r = rule_2 \/ r = rule_3 \/ r = rule_4.
Proof. unfold socket_rules. rewrite !elem_of_cons, elem_of_nil. intuition. Qed.

(** The handles with their owners outside the event loop. *)
Context (F0 : gmap Z (Z * Z)).
Hypothesis HF0 : map_Forall (fun _ x => 1 <= x.2) F0.
Hypothesis HF : fst <$> F0 = F.
Hypothesis Hadapter : is_Some (F !! ah).

Lemma owners_from_zero : map_Forall (fun _ x => 0 <= x.2) F0.
Proof. eapply map_Forall_impl; [exact HF0|]. simpl. lia. Qed.

Lemma owned_fds hs (w : W) h fd : owned F0 hs w -> F !! h = Some fd -> exists n, fds w !! h = Some (fd, n).
Proof.
  intros [_ Ho] Hh. rewrite <- HF, lookup_fmap in Hh. specialize (Ho h).
  destruct (F0 !! h) as [[fd' n]|] eqn:Eh; [|done]. injection Hh as ->. cbn [mbind option_bind] in Ho.
  pose proof (HF0 _ _ Eh) as Hn. simpl in Hn. pose proof (owners_nonneg h hs).
  destruct (Z.eqb_spec (n + owners h hs) 0); [lia|]. by eexists.
Qed.

Lemma owned_numbers hs (w : W) : owned F0 hs w -> numbers w = F.
Proof.
  intros Ho. apply map_eq. intros j. unfold numbers. rewrite lookup_fmap. destruct (F !! j) as [fd|] eqn:Ej.
  { destruct (owned_fds _ _ _ _ Ho Ej) as [n ->]. done. }
  rewrite <- HF, lookup_fmap in Ej. destruct Ho as [_ Ho]. rewrite Ho. by destruct (F0 !! j).
Qed.

(** The invariant of the loop; rule 2, when it was interested, runs on an open stream. *)
Definition running (rules : list (EventLoop.Rule K)) (w : W) : Prop :=
  linked w /\ owned F0 (EventLoop.fd <$> rules) w /\ rules `sublist_of` socket_rules.

Definition interested (b : bool) (r : EventLoop.Rule K) (w : W) : Prop :=
  b = true -> EventLoop.fd r = thread_data -> EventLoop.direction r = EventLoop.In -> is_open w.

Lemma running_kept rules w w' : running rules w -> linked w' -> fds w' = fds w -> running rules w'.
Proof. intros (_ & [H1 H2] & Hs) Hl Hf. split; [done|]. split; [|done]. split; [done|]. intros j. by rewrite Hf. Qed.

Lemma rule_number r : r ∈ socket_rules -> exists fd, F !! EventLoop.fd r = Some fd.
Proof. destruct Hadapter as [afd Ha]. intros [->|[->|[->| ->]]]%socket_cases; simpl; eauto. Qed.

(** No two rules share their descriptor and direction. *)
Definition socket_rank (r : EventLoop.Rule K) : Z :=
  match EventLoop.direction r with
  | EventLoop.In => if EventLoop.fd r =? ah then 0 else 1
  | EventLoop.Out => if EventLoop.fd r =? ah then 3 else 2
  end.

Lemma socket_distinct before r after r' : before ++ r :: after `sublist_of` socket_rules -> r' ∈ before \/ r' ∈ after ->
  EventLoop.fd r' = EventLoop.fd r -> EventLoop.direction r' = EventLoop.direction r -> False.
Proof.
  intros Hs Hr' Hf Hd. assert (Hk : socket_rank r' = socket_rank r) by (unfold socket_rank; by rewrite Hf, Hd).
  destruct (sublist_ranked socket_rank socket_rules before after r) as [H1 H2]; [|exact Hs|].
  - unfold socket_rank. intros [|[|[|[|j]]]] x Hx; [apply (inj Some) in Hx as <-..|done]; simpl; rewrite ?Z.eqb_refl; try done;
      by destruct (Z.eqb_spec thread_data ah).
  - destruct Hr' as [Hr'|Hr']; [specialize (H1 _ Hr')|specialize (H2 _ Hr')]; lia.
Qed.

Lemma interest_ok r w : linked w -> r ∈ socket_rules -> exists b, EventLoop.interest r w = (Ok b, w) /\ interested b r w.
Proof.
  intros (e & hs & ss & Ha) Hr. pose proof (at_tcp _ _ _ _ Ha) as Htcp.
  assert (Hrun : forall (f : TCPConnection.t -> t A -> bool), (c ← tcp self; s ← get self; mret (f c s)) w = (Ok (f (conn e) (object w)), w)).
  { intros f. unfold tcp, get, gets, mbind, io_bind. by rewrite Htcp. }
  apply socket_cases in Hr as [->|[->|[->| ->]]]; simpl.
  - exists (TCPConnection.active (conn e)). split; [|intros _ E; by simpl in E].
    unfold segment_interest, tcp, get, gets, mbind, io_bind. by rewrite Htcp.
  - eexists. split; [apply (Hrun (fun c s => _ && _ && _))|]. intros [[_ Hs]%andb_prop _]%andb_prop _ _.
    exists (conn e). split; [done|]. apply (at_open _ _ _ _ Ha). by destruct (_outbound_shutdown (object w)).
  - eexists. split; [apply (Hrun (fun c s => _ || _ && _))|]. intros _ _ E. by simpl in E.
  - eexists. split; [unfold datagram_interest, tcp, get, gets, mbind, io_bind; by rewrite Htcp|]. intros _ E. by simpl in E.
Qed.

Lemma callback_ok rules r w : running rules w -> r ∈ rules -> interested true r w ->
  wp (EventLoop.callback r)
    (fun _ w' => linked w' /\ fds w' = fds w /\ (r <> rule_2 -> is_open w -> is_open w')) (failed w) w.
Proof.
  intros (Hl & _ & Hs) Hin Hint. apply (elem_of_sublist _ _ _ Hin) in Hs.
  apply socket_cases in Hs as [->|[->|[->| ->]]]; simpl.
  - eapply wp_mono; [by apply segment_callback_ok|by intros _ w' (? & ? & ?)|done].
  - eapply wp_mono; [apply outbound_callback_ok; [done|by apply Hint]| |done]. intros _ w' []. by split_and!.
  - eapply wp_mono; [by apply inbound_callback_ok|by intros _ w' (? & ? & ?)|done].
  - eapply wp_mono; [by apply datagram_callback_ok|by intros _ w' (? & ? & ?)|done].
Qed.

(** Erasing a rule; only cancelling rule 2 ends the outbound stream. *)
Lemma running_erase before r after w : running (before ++ r :: after) w ->
  exists w', EventLoop.cancel_and_erase sys r w = (Ok tt, w') /\ running (before ++ after) w' /\
    (r <> rule_2 -> is_open w -> is_open w').
Proof.
  intros (Hl & Ho & Hs). assert (Hr : r ∈ socket_rules) by (eapply elem_of_sublist; [|exact Hs]; apply elem_of_app; right; left).
  assert (Hc : exists w1, EventLoop.cancel r w = (Ok tt, w1) /\ linked w1 /\ fds w1 = fds w /\ (r <> rule_2 -> w1 = w)).
  { apply socket_cases in Hr as [->|[->|[->| ->]]]; simpl; try (by exists w).
    destruct (outbound_cancel_ok w Hl) as (w1 & H1 & H2 & H3). by exists w1. }
  destruct Hc as (w1 & Hc & (e & hs & ss & Ha) & Hf & Hsame).
  assert (Ho1 : owned F0 (EventLoop.fd r :: (EventLoop.fd <$> before ++ after)) w1).
  { rewrite fmap_app in Ho |- *. simpl in Ho. rewrite <- Permutation_middle in Ho.
    destruct Ho as [H1 H2]. split; [done|]. intros j. by rewrite Hf. }
  destruct (logged_release F0 owners_from_zero _ _ _ Ho1) as (w' & Hrel & Ho' & (Hq & Hse & Hgo) & _). exists w'.
  split; [unfold EventLoop.cancel_and_erase; by rewrite (io_bind_ok _ _ _ _ _ Hc)|]. split.
  - split; [|split; [done|]].
    + exists e, hs, ss. pose proof Ha as [? ? ? ? ? ? ? ? Hn ?]. eapply (at_moved e hs ss w1 _ _ _ w' id); try done.
      rewrite Hn. by eapply owned_numbers.
    + etrans; [|exact Hs]. apply sublist_app; [done|by apply sublist_cons].
  - intros Hne (c & Hc' & Hen). rewrite (Hsame Hne) in Hq. exists c. by rewrite Hq.
Qed.

Definition number (h : Z) : Z := default 0 (F !! h).

Lemma running_invariant : loop_invariant sys sys_poll number (fun _ => True) running interested.
Proof.
  split.
  - intros rules w r (_ & Ho & Hs) Hr. destruct (rule_number r) as [fd Hfd]; [by eapply elem_of_sublist|].
    destruct (owned_fds _ _ _ _ Ho Hfd) as [n (x & Hx & Hn)%fds_lookup]. exists x, n. unfold number. by rewrite Hfd.
  - intros rules w r (Hl & _ & Hs) Hr. destruct (interest_ok r w Hl) as (b & Hb & Hi); [by eapply elem_of_sublist|]. by exists b.
  - intros before r after w Hi Hint. assert (Hin : r ∈ before ++ r :: after) by (apply elem_of_app; right; left).
    pose proof (callback_ok _ _ _ Hi Hin Hint) as Hc. unfold wp in Hc. destruct (EventLoop.callback r w) as [[[]|e| |] w']; try done.
    + destruct Hc as (Hl & Hf & Ho). split; [by eapply running_kept|]. intros r' Hr' Hi' _ Hfd Hdir.
      apply Ho; [|by apply Hi']. intros ->. eapply (socket_distinct before rule_2 after r'); [apply Hi|by right|done|done].
    + destruct Hc as (Hl & Hf). by eapply running_kept.
  - intros before r after w Hi _. destruct (running_erase _ _ _ _ Hi) as (w' & Hc & Hi' & Ho). exists w'.
    split; [done|]. split; [done|]. assert (Hk : forall b r', r' ∈ before \/ r' ∈ after -> interested b r' w -> interested b r' w').
    { intros b r' Hr' Hint Hb Hfd Hdir. apply Ho; [|by apply Hint]. intros ->.
      by eapply (socket_distinct before rule_2 after r'); [apply Hi|..]. }
    split; intros; apply Hk; auto.
  - intros rules w ps t (Hl & Ho & Hs). pose proof (logged_poll (FileDescriptor.kernel w) ps t) as Hq.
    set (w' := FileDescriptor.set_kernel _ w). split.
    + split; [|split; [|done]]; [|by apply (calm_owned (self := self) (sent := sent) (got := got) F0 _ w)].
      destruct Hl as (e & hs & ss & Ha). exists e, hs, ss. by eapply at_quiet.
    + intros b r _ Hint Hb Hfd Hdir. destruct (Hint Hb Hfd Hdir) as (c & Hc & Hen). exists c. split; [|done].
      unfold w'. simpl. by destruct Hq as [-> _].
Qed.

(** ** The loop of the thread

    Code on the rules and the world, which may run for as many rounds as it likes: it returns
    with [Q], throws with [E], or is stopped, when [U] allows it, with [E]. *)
#[local] Abbreviation ST := (list (EventLoop.Rule K) * W)%type.

Definition swp {B} (U : Prop) (m : io ST B) (Q : B -> ST -> Prop) (E : ST -> Prop) (s : ST) : Prop :=
  match m s with
  | (Ok b, s') => Q b s'
  | (Throw _, s') => E s'
  | (OutOfFuel, s') => U /\ E s'
  | (Undefined, _) => False
  end.

Lemma swp_bind {B C} U (m : io ST B) (k : B -> io ST C) Q E s :
  swp U m (fun b => swp U (k b) Q E) E s -> swp U (m ≫= k) Q E s.
Proof. unfold swp, mbind, io_bind. by destruct (m s) as [[b| | |] s']. Qed.

Lemma swp_ret {B} U (b : B) (Q : B -> ST -> Prop) E s : Q b s -> swp U (mret b) Q E s.
Proof. done. Qed.

Lemma swp_mono {B} (U U' : Prop) (m : io ST B) (Q Q' : B -> ST -> Prop) (E E' : ST -> Prop) s :
  swp U m Q E s -> (U -> U') -> (forall b s', Q b s' -> Q' b s') -> (forall s', E s' -> E' s') -> swp U' m Q' E' s.
Proof. unfold swp. destruct (m s) as [[b| | |] s']; intuition. Qed.

Lemma swp_machine {B} U (m : io W B) (Q : B -> ST -> Prop) E rules w :
  wp m (fun b w' => Q b (rules, w')) (fun w' => E (rules, w')) w -> swp U (machine m) Q E (rules, w).
Proof. unfold swp, wp, machine. by destruct (m w) as [[b| | |] w']. Qed.

Definition going (s : ST) : Prop := running s.1 s.2.

Lemma wait_going U Q (E : ST -> Prop) s : going s -> (forall r s', going s' -> Q r s') -> (forall s', going s' -> E s') ->
  swp U (wait_next_event sys sys_poll) Q E s.
Proof.
  destruct s as [rules w]. intros Hi HQ HE. unfold swp, wait_next_event.
  assert (Hhup : reports_hangups sys_poll (fun _ => True)) by (intros k ps t r e ps' k' _; by apply Forall_forall).
  destruct (wait_next_event_invariant sys sys_poll number (fun _ => True) running interested running_invariant Hhup
    TCP_TICK_MS rules w Hi) as (o & rules' & w1 & -> & Hi1 & Ho).
  destruct o as [r|e| |]; try done; [by apply HQ|by apply HE].
Qed.

(** Code on the world that keeps the session going. *)
Definition steady {B} (m : io W B) (P : B -> Prop) : Prop := forall w, linked w ->
  wp m (fun b w' => P b /\ linked w' /\ fds w' = fds w) (failed w) w.

Lemma steady_going {B} U (m : io W B) P (Q : B -> ST -> Prop) E s : going s -> steady m P ->
  (forall b s', P b -> going s' -> Q b s') -> (forall s', going s' -> E s') -> swp U (machine m) Q E s.
Proof.
  destruct s as [rules w]. intros Hi Hm HQ HE. apply swp_machine. eapply wp_mono; [apply Hm, Hi|..].
  - intros b w' (HP & Hl & Hf). apply HQ; [done|]. by eapply running_kept.
  - intros w' (Hl & Hf). apply HE. by eapply running_kept.
Qed.

Lemma tcp_value_steady : steady (tcp_value self) (fun _ => True).
Proof. intros w (e & hs & ss & Ha). eapply wp_tcp_value; [apply Ha|]. split; [done|]. by split; [exists e, hs, ss|]. Qed.

Lemma peer_name_steady : steady (peer_name R self) (fun _ => True).
Proof. intros w Hl. by apply wp_peer_name. Qed.

Lemma timestamp_steady : steady (timestamp_ms clock) (fun _ => True).
Proof.
  intros w (e & hs & ss & Ha). unfold wp, timestamp_ms. specialize (Hclock (FileDescriptor.kernel w)).
  destruct (clock (FileDescriptor.kernel w)) as [n k]. split; [done|]. split; [|done]. exists e, hs, ss. by eapply at_quiet.
Qed.

(** The two ticks of a round. *)
Lemma tick_going {B} U ms (k : io ST B) Q E s : going s -> (forall s', going s' -> swp U k Q E s') ->
  swp U (c ← machine (tcp_value self); c ← machine (pure_ (TCPConnection.tick c ms)); _ ← machine (store self set_self c); k) Q E s.
Proof.
  destruct s as [rules w]. intros Hi Hk. pose proof (proj1 Hi) as (e & hs & ss & Ha).
  destruct (tick_wf _ _ ms (ep_conn _ (at_wf _ _ _ _ Ha))) as (c & new & Hc & _).
  apply swp_bind, swp_machine. eapply wp_tcp_value; [apply Ha|]. apply swp_bind, swp_machine. unfold wp, pure_. rewrite Hc.
  apply swp_bind, swp_machine, wp_put, Hk. eapply running_kept; [exact Hi| |done].
  exists (Endpoint c (written e) (delivered e)), hs, ss.
  apply (at_step e hs ss w (Endpoint c (written e) (delivered e))); try done; [destruct e; by eapply local_tick|].
  simpl. rewrite (tick_ended _ _ _ Hc). apply Ha.
Qed.

Lemma adapter_tick_steady ms : steady (adapter_tick self set_self ms) (fun _ => True).
Proof.
  intros w (e & hs & ss & Ha). pose proof Ha as [Hp Hfine Htcp Hgot Hsent Hheard Hsaid Hlive Hnum Hop].
  unfold adapter_tick. apply wp_bind, wp_get, wp_bind.
  eapply wp_mono; [apply (ea_tick _ ms w); by rewrite Hnum|..].
  - intros a w1 ((Hf & Ho & Hs & Hg) & Hl & Hh & Hsd). rewrite Hnum in Hl. apply wp_put.
    split; [done|]. split; [|done]. exists e, hs, ss.
    eapply (at_moved e hs ss w _ _ _ _ (fun s => set_datagram_adapter s a)); try done.
    + by apply same_numbers.
    + by rewrite !obj_with, Ho.
    + by rewrite !got_with.
    + by rewrite !sent_with_obj.
    + simpl. congruence.
    + simpl. congruence.
  - intros w1 (Hf & Ho & Hs & Hg). eapply failed_intro; [|done]. by eapply (at_moved e hs ss w e hs ss w1 id); [|apply same_numbers|..].
Qed.

(** A condition of the loop only looks. *)
Definition looks (condition : io W bool) : Prop := forall w, linked w -> exists b, condition w = (Ok b, w).

Lemma in_state_looks l : looks (in_state self l).
Proof.
  intros w (e & hs & ss & Ha). eexists. unfold in_state, tcp, get, gets, mbind, io_bind. by rewrite (at_tcp _ _ _ _ Ha).
Qed.

(** The loop keeps the session going; it is stopped only when nobody set the flag. *)
Lemma tcp_rounds_going fuel : forall condition base_time s, looks condition -> going s ->
  swp (~ ((0 < fuel)%nat /\ forall k, aborted k = true)) (tcp_rounds sys sys_poll clock aborted self set_self fuel condition base_time)
    (fun _ => going) going s.
Proof.
  induction fuel as [|fuel IH]; intros condition base_time s Hc Hi; cbn [tcp_rounds]; [split; [lia|done]|].
  set (U := ~ _). apply swp_bind. destruct s as [rules w]. destruct (Hc w (proj1 Hi)) as [b Hb]. apply swp_machine.
  unfold wp. rewrite Hb. destruct b; [|by apply swp_ret]. apply swp_bind, wait_going; [done| |done].
  intros ret s1 Hi1. destruct s1 as [rules1 w1]. apply swp_bind, swp_machine. unfold wp, gets.
  assert (Hrest : forall stop, stop = aborted (FileDescriptor.kernel w1) -> stop = false -> swp U
    (c ← machine (tcp_value self);
     if TCPConnection.active c then
       next_time ← machine (timestamp_ms clock);
       let passed := u64 (next_time - base_time) in
       c ← machine (tcp_value self);
       c ← machine (pure_ (TCPConnection.tick c passed));
       _ ← machine (store self set_self c);
       _ ← machine (adapter_tick self set_self passed);
       tcp_rounds sys sys_poll clock aborted self set_self fuel condition next_time
     else tcp_rounds sys sys_poll clock aborted self set_self fuel condition base_time) (fun _ => going) going (rules1, w1)).
  { intros stop Hst Hfalse. assert (HU : U) by (unfold U; intros [_ Hall]; rewrite Hall in Hst; congruence).
    assert (Hnext : forall t s, going s -> swp U (tcp_rounds sys sys_poll clock aborted self set_self fuel condition t) (fun _ => going) going s).
    { intros t s Hs. eapply swp_mono; [by apply IH|done|done|done]. }
    apply swp_bind. eapply steady_going; [done|apply tcp_value_steady| |done]. intros c s2 _ Hi2.
    destruct (TCPConnection.active c); [|by apply Hnext].
    apply swp_bind. eapply steady_going; [done|apply timestamp_steady| |done]. intros next s3 _ Hi3. cbv zeta.
    apply tick_going; [done|]. intros s4 Hi4. apply swp_bind.
    eapply steady_going; [done|apply adapter_tick_steady| |done]. intros _ s5 _ Hi5. by apply Hnext. }
  destruct ret; [..|by apply swp_ret]; destruct (aborted (FileDescriptor.kernel w1)) eqn:Ea; try (by apply swp_ret);
    by apply (Hrest false).
Qed.

Lemma tcp_loop_going fuel condition s : looks condition -> going s ->
  swp (~ ((0 < fuel)%nat /\ forall k, aborted k = true)) (_tcp_loop sys sys_poll clock aborted self set_self fuel condition)
    (fun _ => going) going s.
Proof.
  intros Hc Hi. unfold _tcp_loop. apply swp_bind. eapply steady_going; [done|apply timestamp_steady| |done].
  intros base s1 _ Hi1. by apply tcp_rounds_going.
Qed.

(** ** _tcp_main *)

(** What is left of the session when the connection is gone. *)
Definition concluded_at (w : W) : Prop := exists e hs ss, path e0 hs ss e /\ Forall seg_fine hs /\
  got (FileDescriptor.kernel w) tfd = G ++ written e /\ sent (FileDescriptor.kernel w) tfd = D ++ delivered e /\
  heard (_datagram_adapter (object w)) = H0 ++ hs /\ said (_datagram_adapter (object w)) = S0 ++ ss.

Lemma linked_concluded w : linked w -> concluded_at w.
Proof. intros (e & hs & ss & []). exists e, hs, ss. by split_and!. Qed.

(** What the object's destructor finds: the rules own their handles, and a connection that is
    still there is in order. *)
Definition settled (s : ST) : Prop :=
  concluded_at s.2 /\ owned F0 (EventLoop.fd <$> s.1) s.2 /\ (linked s.2 \/ _tcp (object s.2) = None).

Lemma going_settled s : going s -> settled s.
Proof. intros (Hl & Ho & _). split; [by apply linked_concluded|]. by split; [|left]. Qed.

Lemma settled_fds rules (w w' : W) : owned F0 (EventLoop.fd <$> rules) w -> fds w' = fds w -> concluded_at w' ->
  linked w' \/ _tcp (object w') = None -> settled (rules, w').
Proof. intros [H1 H2] Hf Hc Hl. split; [done|]. split; [|done]. split; [done|]. intros j. simpl. by rewrite Hf. Qed.

#[local] Hint Resolve going_settled : core.

Hypothesis Hown : is_Some (F !! own).

Lemma tcp_main_end_ok w : linked w -> numbers w = F ->
  wp (tcp_main_end net self set_self own) (fun _ w' => concluded_at w' /\ fds w' = fds w /\ _tcp (object w') = None) (failed w) w.
Proof.
  intros (e & hs & ss & Ha) Hn. destruct Hown as [ofd Ho].
  assert (Hh : is_Some (fds w !! own)).
  { rewrite <- Hn in Ho. unfold numbers in Ho. rewrite lookup_fmap in Ho. by destruct (fds w !! own). }
  unfold tcp_main_end. apply wp_bind.
  eapply (wp_call _ (calm self sent got)); [apply shutdown_answers|apply shutdown_calm|done|..].
  2:{ intros w1 Hw1. split; [|apply Hw1]. exists e, hs, ss. by eapply at_quiet. }
  intros _ w1 Hw1. pose proof (proj1 Hw1) as Hf1. pose proof (at_quiet _ _ _ _ _ Ha Hw1) as Ha1. apply wp_bind. eapply wp_tcp_value; [apply Ha1|].
  unfold reset_tcp. apply wp_bind, wp_get. rewrite (at_tcp _ _ _ _ Ha1). apply wp_bind.
  destruct (destroy_wf _ _ (ep_conn _ (at_wf _ _ _ _ Ha1))) as (c' & new & Hd & _). unfold wp at 1, pure_. rewrite Hd.
  apply wp_put. rewrite obj_with. split; [|by split]. pose proof Ha1 as []. exists e, hs, ss.
  rewrite got_with, sent_with_obj, obj_with. by split_and!.
Qed.

Lemma tcp_main_ok fuel s : going s ->
  swp (~ ((0 < fuel)%nat /\ forall k, aborted k = true)) (_tcp_main sys net sys_poll clock aborted self set_self own fuel)
    (fun _ s' => settled s' /\ _tcp (object s'.2) = None) settled s.
Proof.
  destruct s as [rules w]. intros Hi. pose proof (proj1 Hi) as (e & hs & ss & Ha). unfold _tcp_main.
  pose proof (at_tcp _ _ _ _ Ha) as Htcp. simpl in Htcp.
  apply swp_bind, swp_machine, wp_get. rewrite bool_decide_eq_true_2 by (rewrite Htcp; by eexists).
  apply swp_bind. eapply swp_mono; [apply (tcp_loop_going fuel (mret true)); [|exact Hi]|done|..].
  - intros w' _. by exists true.
  - intros _ [rules1 w1] (Hl1 & Ho1 & _). apply swp_machine. simpl in Ho1.
    eapply wp_mono; [apply tcp_main_end_ok; [done|by eapply owned_numbers]|..].
    + intros _ w2 (Hc2 & Hf2 & Hn2). split; [|done]. by eapply settled_fds; [..|right].
    + intros w2 (Hl2 & Hf2). eapply settled_fds; [done|done|by apply linked_concluded|by left].
  - auto.
Qed.

(** ** Starting a session *)

Context (cfg : TCPConfig.t) (random : Z).
Hypothesis Hmake : TCPConnection.make cfg random = Ok (conn e0).
Hypothesis Hfresh : written e0 = [] /\ delivered e0 = [] /\ ended (conn e0) = false.

(** The object before the session. *)
Record unconnected (w : W) : Prop := {
  un_tcp : _tcp (object w) = None;
  un_got : got (FileDescriptor.kernel w) tfd = G;
  un_sent : sent (FileDescriptor.kernel w) tfd = D;
  un_heard : heard (_datagram_adapter (object w)) = H0;
  un_said : said (_datagram_adapter (object w)) = S0;
  un_live : live (_datagram_adapter (object w)) F;
  un_fd : ad_fd (_datagram_adapter (object w)) = ah;
  un_fds : fds w = F0
}.

Lemma at_start w : unconnected w -> at_endpoint e0 [] [] (with_obj w (fun s => set_tcp s (Some (conn e0)))).
Proof.
  destruct Hfresh as (Hw & Hd & He). intros []. split; rewrite ?obj_with; simpl; rewrite ?Hw, ?Hd, ?app_nil_r; try done.
  - apply path_start.
  - by rewrite logged_got.
  - by rewrite logged_sent.
  - unfold numbers. change (fds (with_obj w _)) with (fds w). by rewrite un_fds0.
Qed.

Lemma fds_owned (w : W) : fds w = F0 -> owned F0 [] w.
Proof.
  intros Hf. split; [by constructor|]. intros j. rewrite Hf. destruct (F0 !! j) as [[fd n]|] eqn:Ej; [|done].
  pose proof (HF0 _ _ Ej) as Hn. simpl in Hn. cbn [mbind option_bind]. change (owners j []) with 0. rewrite Z.add_0_r.
  by destruct (Z.eqb_spec n 0); [lia|].
Qed.

(** Adding the next of the rules. *)
Lemma add_rule_going n r U Q E w : socket_rules !! n = Some r -> running (take n socket_rules) w ->
  (forall w', running (take (S n) socket_rules) w' -> Q tt (take (S n) socket_rules, w')) ->
  swp U (add_rule (EventLoop.fd r) (EventLoop.direction r) (EventLoop.callback r) (EventLoop.interest r) (EventLoop.cancel r))
    Q E (take n socket_rules, w).
Proof.
  intros Hr (Hl & Ho & Hs) HQ. destruct (rule_number r) as [fd Hfd]; [by eapply list_elem_of_lookup_2|].
  destruct (owned_fds _ _ _ _ Ho Hfd) as [m Hm].
  destruct (owned_duplicate F0 owners_from_zero _ _ _ Ho (ex_intro _ _ Hm)) as (w' & Hd & Ho' & Hk & _).
  unfold swp, add_rule, EventLoop.add_rule. rewrite (io_bind_ok _ _ _ _ _ Hd). unfold mret, io_ret.
  assert (Heq : take n socket_rules ++ [EventLoop.mkRule (EventLoop.fd r) (EventLoop.direction r) (EventLoop.callback r)
    (EventLoop.interest r) (EventLoop.cancel r)] = take (S n) socket_rules) by (rewrite (take_S_r _ _ r Hr); by destruct r).
  rewrite Heq. apply HQ. assert (Ho2 : owned F0 (EventLoop.fd <$> take (S n) socket_rules) w').
  { rewrite (take_S_r _ _ r Hr), fmap_app. simpl fmap. by rewrite <- Permutation_cons_append. }
  split; [|split; [done|apply sublist_take]]. destruct Hl as (e & hs & ss & Ha). exists e, hs, ss.
  pose proof Ha as [? ? ? ? ? ? ? ? Hn ?]. eapply (at_moved e hs ss w _ _ _ w' id); rewrite ?Hk; try done.
  rewrite Hn. by eapply owned_numbers.
Qed.

Lemma initialize_going U w : unconnected w ->
  swp U (_initialize_TCP sys net R self set_self thread_data cfg random) (fun _ => going) settled ([], w).
Proof.
  intros Hu. unfold _initialize_TCP. apply swp_bind, swp_machine. unfold wp, pure_. rewrite Hmake.
  apply swp_bind, swp_machine, wp_put. pose proof (at_start w Hu) as Ha. set (w1 := with_obj w _) in *.
  assert (Hi : running (take 0 socket_rules) w1).
  { split; [by exists e0, [], []|]. split; [apply fds_owned, Hu|apply sublist_nil_l]. }
  apply swp_bind, swp_machine, wp_get. cbv zeta.
  assert (Hah : ad_fd (_datagram_adapter (object w1)) = ah) by (unfold w1; rewrite obj_with; apply Hu). rewrite Hah.
  change (@nil (EventLoop.Rule K)) with (take 0 socket_rules).
  apply swp_bind, (add_rule_going 0 rule_1); [done|done|]. intros w2 H2.
  apply swp_bind, (add_rule_going 1 rule_2); [done|done|]. intros w3 H3.
  apply swp_bind, (add_rule_going 2 rule_3); [done|done|]. intros w4 H4.
  apply (add_rule_going 3 rule_4); [done|done|]. by intros w5 H5.
Qed.

(** Setting the base of the adapter. *)
Lemma base_going U f Q (E : ST -> Prop) s : going s -> (forall s', going s' -> Q tt s') ->
  swp U (machine (put self set_self (fun s => set_datagram_adapter s (ad_set_base (_datagram_adapter s) (f s))))) Q E s.
Proof.
  destruct s as [rules w]. intros Hi HQ. apply swp_machine, wp_put, HQ. eapply running_kept; [exact Hi| |done].
  destruct Hi as ((e & hs & ss & Ha) & _). simpl in Ha. exists e, hs, ss. pose proof Ha as [? ? ? ? ? Hh Hsd Hl ? ?].
  eapply (at_moved e hs ss w _ _ _ _ (fun s => set_datagram_adapter s (ad_set_base (_datagram_adapter s) (f s)))); try done.
  - apply obj_with.
  - apply got_with.
  - apply sent_with_obj.
  - by apply ea_base.
  - simpl. by rewrite ea_base_heard.
  - simpl. by rewrite ea_base_said.
Qed.

(** [_tcp->connect()]. *)
Lemma connect_steady : steady (on_tcp self set_self TCPConnection.connect) (fun _ => True).
Proof.
  intros w (e & hs & ss & Ha). destruct (connect_wf _ _ (ep_conn _ (at_wf _ _ _ _ Ha))) as (c & new & Hc & _).
  eapply wp_on_tcp; [apply Ha|exact Hc|]. split; [done|]. split; [|done]. exists (Endpoint c (written e) (delivered e)), hs, ss.
  apply (at_step e hs ss w (Endpoint c (written e) (delivered e))); try done; [destruct e; by eapply local_connect|].
  simpl. intros Ho%(at_open _ _ _ _ Ha). unfold TCPConnection.connect in Hc. apply bind_Ok_inv in Hc as (s & Hs & [= <-]).
  unfold ended, TCPSender.stream_in in *. simpl. by rewrite (fill_window_ended _ _ Hs).
Qed.

Lemma tcp_steady : steady (tcp self) (fun _ => True).
Proof. intros w (e & hs & ss & Ha). eapply wp_tcp; [apply Ha|]. split; [done|]. by split; [exists e, hs, ss|]. Qed.

Lemma connect_going fuel c_ad w : unconnected w ->
  swp (~ ((0 < fuel)%nat /\ forall k, aborted k = true))
    (connect sys net sys_poll clock aborted R self set_self thread_data fuel cfg random c_ad)
    (fun _ => going) settled ([], w).
Proof.
  intros Hu. unfold connect. apply swp_bind, swp_machine, wp_get. rewrite bool_decide_eq_false_2 by (rewrite (un_tcp _ Hu); by intros []).
  apply swp_bind. eapply swp_mono; [by apply initialize_going|done| |done]. intros [] s1 Hi1.
  apply swp_bind, (base_going _ (fun s => FdAdapterBase.set_config (ad_base (_datagram_adapter s)) c_ad)); [done|]. intros s2 Hi2.
  apply swp_bind. eapply steady_going; [done|apply peer_name_steady| |auto]. intros _ s3 _ Hi3.
  apply swp_bind. eapply steady_going; [done|apply connect_steady| |auto]. intros _ s4 _ Hi4.
  apply swp_bind. eapply steady_going; [done|apply tcp_steady| |auto]. intros c s5 _ Hi5.
  destruct (negb _); [by apply going_settled|].
  apply swp_bind. eapply swp_mono; [apply tcp_loop_going; [apply in_state_looks|exact Hi5]|done| |auto]. intros [] s6 Hi6.
  apply swp_bind. eapply steady_going; [done|apply peer_name_steady| |auto]. intros _ s7 _ Hi7. by apply swp_ret.
Qed.

Lemma accept_going fuel c_ad w : unconnected w ->
  swp (~ ((0 < fuel)%nat /\ forall k, aborted k = true))
    (listen_and_accept sys net sys_poll clock aborted R self set_self thread_data fuel cfg random c_ad)
    (fun _ => going) settled ([], w).
Proof.
  intros Hu. unfold listen_and_accept. apply swp_bind, swp_machine, wp_get.
  rewrite bool_decide_eq_false_2 by (rewrite (un_tcp _ Hu); by intros []).
  apply swp_bind. eapply swp_mono; [by apply initialize_going|done| |done]. intros [] s1 Hi1.
  apply swp_bind, (base_going _ (fun s => FdAdapterBase.set_listening
    (FdAdapterBase.set_config (ad_base (_datagram_adapter s)) c_ad) true)); [done|]. intros s2 Hi2.
  apply swp_bind. eapply swp_mono; [apply tcp_loop_going; [apply in_state_looks|exact Hi2]|done| |auto]. intros [] s3 Hi3.
  apply swp_bind. eapply steady_going; [done|apply peer_name_steady| |auto]. intros _ s4 _ Hi4. by apply swp_ret.
Qed.

(** ** Leaving the socket *)

(** Joining the thread, after something that keeps the session going. *)
Lemma join_ok {B} U (m : io ST B) fuel s : going s -> swp U m (fun _ => going) settled s ->
  swp (U \/ ~ ((0 < fuel)%nat /\ forall k, aborted k = true))
    (_ ← m; join (_tcp_main sys net sys_poll clock aborted self set_self own fuel))
    (fun r s' => settled s' /\ (r = Joined -> _tcp (object s'.2) = None)) settled s.
Proof.
  intros Hi Hm. apply swp_bind. eapply swp_mono; [exact Hm|tauto| |done]. intros b s1 Hi1.
  pose proof (tcp_main_ok fuel s1 Hi1) as H. unfold swp in *. unfold join.
  destruct (_tcp_main _ _ _ _ _ _ _ _ _ s1) as [[[]|e| |] s2]; [by destruct H|done|done|tauto].
Qed.

Lemma shutdown_own_going U s : going s ->
  swp U (machine (Socket.shutdown net own Socket.SHUT_RDWR)) (fun _ => going) going s.
Proof.
  destruct s as [rules w]. intros Hi. pose proof Hi as ((e & hs & ss & Ha) & Ho & _). destruct Hown as [ofd Hofd].
  destruct (owned_fds _ _ _ _ Ho Hofd) as [n Hn].
  assert (Hk : forall w', calm self sent got w w' -> going (rules, w')).
  { intros w' Hc. eapply running_kept; [exact Hi|exists e, hs, ss; by eapply at_quiet|apply Hc]. }
  apply swp_machine. eapply (wp_call _ (calm self sent got)); [apply shutdown_answers|apply shutdown_calm|simpl in *; by rewrite Hn|..].
  - intros _ w' Hc. by apply Hk.
  - intros w' Hc. by apply Hk.
Qed.

Lemma set_abort_going U (set_abort : K -> K) s : (forall k, quiet self sent got k (set_abort k)) -> going s ->
  swp U (machine (modify (fun w => FileDescriptor.set_kernel (set_abort (FileDescriptor.kernel w)) w)))
    (fun _ => going) settled s.
Proof.
  destruct s as [rules w]. intros Hq Hi. pose proof Hi as ((e & hs & ss & Ha) & _). apply swp_machine.
  unfold wp, modify. eapply running_kept; [exact Hi|exists e, hs, ss; by eapply at_quiet|done].
Qed.

(** A session whose owner waits for its end, or destroys the socket. *)
Definition leave (set_abort : option (K -> K)) (fuel : nat) : io ST thread_end :=
  match set_abort with
  | None => wait_until_closed net own true (_tcp_main sys net sys_poll clock aborted self set_self own fuel)
  | Some f => destroy f true (_tcp_main sys net sys_poll clock aborted self set_self own fuel)
  end.

Lemma leave_ok set_abort fuel s : (forall f, set_abort = Some f -> forall k, quiet self sent got k (f k)) -> going s ->
  swp (~ ((0 < fuel)%nat /\ forall k, aborted k = true)) (leave set_abort fuel)
    (fun r s' => settled s' /\ (r = Joined -> _tcp (object s'.2) = None)) settled s.
Proof.
  intros Hq Hi. destruct set_abort as [f|]; unfold leave, wait_until_closed, destroy.
  - eapply swp_mono; [apply (join_ok False); [exact Hi|apply set_abort_going; [by apply Hq|exact Hi]]|tauto|done|done].
  - eapply swp_mono; [apply (join_ok False); [exact Hi|]|tauto|done|done].
    eapply swp_mono; [by apply shutdown_own_going|done|done|auto].
Qed.

(** A socket in the scope of its owner: once the thread was started the owner does its work and
    waits for the end; if one of these throws, the destructor stops the thread. *)
Definition attend {B} (owner : io W B) (set_abort : K -> K) (fuel : nat) : io ST thread_end := fun s =>
  let main := _tcp_main sys net sys_poll clock aborted self set_self own fuel in
  match (_ ← machine owner; wait_until_closed net own true main) s with
  | (Throw e, s) =>
      (r ← destroy set_abort true main;
       match r with Joined => pure_ (Throw e) | Terminated => mret Terminated end) s
  | r => r
  end.

Definition attended {B} (opening : io ST unit) (owner : io W B) (set_abort : K -> K) (fuel : nat) : io ST thread_end :=
  _ ← opening; attend owner set_abort fuel.

(** The owner ran after the opening and returned. *)
Definition owner_ran {B} (opening : io ST unit) (owner : io W B) (s0 : ST) (F : gmap Z Z) (b : B) (w1 w2 : W) : Prop :=
  exists rules, opening s0 = (Ok tt, (rules, w1)) /\ numbers w1 = F /\ map_Forall (fun _ x => 1 <= x.2) (fds w1) /\ owner w1 = (Ok b, w2).

(** The owner's work: it stays away from the thread's end of the socket pair, and puts the
    descriptors back when it ends. *)
Definition owner_ok {B} (owner : io W B) : Prop := forall w, numbers w = F -> map_Forall (fun _ x => 1 <= x.2) (fds w) ->
  match owner w with
  | (Undefined, _) => False
  | (OutOfFuel, w') => undisturbed self sent got tfd w (FileDescriptor.World (FileDescriptor.kernel w') (FileDescriptor.handles w))
  | (_, w') => undisturbed self sent got tfd w w'
  end.

Lemma owned_positive hs (w : W) : owned F0 hs w -> map_Forall (fun _ x => 1 <= x.2) (fds w).
Proof.
  intros [_ Ho] j [fd n] Hj. rewrite Ho in Hj. destruct (F0 !! j) as [[fd' m]|] eqn:E; [|done]. cbn [mbind option_bind] in Hj.
  pose proof (HF0 _ _ E) as Hm. pose proof (owners_nonneg j hs). simpl in Hm. destruct (_ =? 0); [done|]. injection Hj as <- <-. simpl. lia.
Qed.

Lemma undisturbed_going rules w w' : going (rules, w) -> undisturbed self sent got tfd w w' -> going (rules, w').
Proof.
  intros Hi (Hf & Ho & Hs & Hg). eapply running_kept; [exact Hi| |done]. destruct Hi as ((e & hs & ss & Ha) & _).
  exists e, hs, ss. pose proof Ha as []. eapply (at_moved e hs ss w e hs ss w' id); try done. by apply same_numbers.
Qed.

(** How a socket's scope may end; [P] holds when its thread was joined. *)
Definition ends_well (P : Prop) (run : outcome thread_end * ST) : Prop :=
  concluded_at run.2.2 /\
  match run.1 with
  | Ok r => settled run.2 /\ (r = Joined -> P)
  | Throw _ => settled run.2
  | OutOfFuel => True
  | Undefined => False
  end.

Lemma stopped_ok P set_abort fuel ex s : (forall k, quiet self sent got k (set_abort k)) -> going s ->
  ends_well P ((r ← destroy set_abort true (_tcp_main sys net sys_poll clock aborted self set_self own fuel);
                match r with Joined => pure_ (Throw ex) | Terminated => mret Terminated end) s).
Proof.
  intros Hq Hs. pose proof (leave_ok (Some set_abort) fuel s ltac:(by intros f [= <-]) Hs) as Hl. unfold swp, leave in Hl.
  unfold mbind, io_bind. destruct (destroy _ _ _ s) as [[[]|e| |] s']; try done.
  - split; apply Hl.
  - split; [apply Hl|]. by split; [apply Hl|].
  - by split; [apply Hl|].
  - by split; [apply Hl|].
Qed.

Lemma attended_ok {B} opening (owner : io W B) set_abort fuel s0 : (forall k, quiet self sent got k (set_abort k)) -> owner_ok owner ->
  swp True opening (fun _ => going) settled s0 ->
  ends_well (exists b w1 w2, owner_ran opening owner s0 F b w1 w2) (attended opening owner set_abort fuel s0).
Proof.
  intros Hq Howner Hopen. unfold swp in Hopen. unfold attended, mbind, io_bind.
  destruct (opening s0) as [[[]|ex| |] [rules w]] eqn:Eopen; try done; [|by split; [apply Hopen|]|by split; [apply Hopen|]].
  rename Hopen into Hi. assert (Hnum : numbers w = F) by (destruct Hi as ((e & hs & ss & Ha) & _); apply Ha).
  set (main := _tcp_main sys net sys_poll clock aborted self set_self own fuel).
  pose proof (owned_positive _ _ (proj1 (proj2 Hi))) as Hpos. simpl in Hpos. specialize (Howner w Hnum Hpos).
  unfold attend. fold main. unfold mbind at 1, io_bind at 1, machine at 1. destruct (owner w) as [o w1] eqn:Eo.
  destruct o as [b|ex| |]; [| |done|].
  2:{ apply (stopped_ok _ set_abort fuel ex (rules, w1)); [done|]. by eapply undisturbed_going. }
  2:{ split; [|done]. pose proof (going_settled _ (undisturbed_going _ _ _ Hi Howner)) as (Hc & _). exact Hc. }
  assert (Hi1 : going (rules, w1)) by (by eapply undisturbed_going).
  pose proof (shutdown_own_going False _ Hi1) as Hsh. unfold wait_until_closed, mbind at 1, io_bind at 1. unfold swp in Hsh.
  destruct (machine _ (rules, w1)) as [[[]|ex| |] s2]; try tauto; [|by apply stopped_ok].
  pose proof (join_ok False (mret tt) fuel s2 Hsh Hsh) as Hj. unfold swp, mbind, io_bind in Hj. simpl in Hj. fold main in Hj.
  destruct (join main s2) as [[r|ex| |] s3] eqn:Ej; try tauto.
  - destruct Hj as [H1 H2]. split; [apply H1|]. split; [done|]. intros Hr. exists b, w, w1. by exists rules.
  - unfold join in Ej. by destruct (main s2) as [[]].
  - split; [apply Hj|done].
Qed.

Lemma session_ok (active_open : bool) set_abort fuel fuel' c_ad w : unconnected w ->
  (forall f, set_abort = Some f -> forall k, quiet self sent got k (f k)) ->
  swp (~ ((0 < fuel)%nat /\ (0 < fuel')%nat /\ forall k, aborted k = true))
    (_ ← (if active_open
          then connect sys net sys_poll clock aborted R self set_self thread_data fuel cfg random c_ad
          else listen_and_accept sys net sys_poll clock aborted R self set_self thread_data fuel cfg random c_ad);
     leave set_abort fuel')
    (fun r s' => settled s' /\ (r = Joined -> _tcp (object s'.2) = None)) settled ([], w).
Proof.
  intros Hu Hq. apply swp_bind. destruct active_open.
  - eapply swp_mono; [by apply connect_going|tauto| |done]. intros [] s Hi.
    eapply swp_mono; [by apply leave_ok|tauto|done|done].
  - eapply swp_mono; [by apply accept_going|tauto| |done]. intros [] s Hi.
    eapply swp_mono; [by apply leave_ok|tauto|done|done].
Qed.

(** The owner computes the configuration of the adapter, and connects or waits for a peer. *)
Definition opening (active_open : bool) (fuel : nat) (c_ad : outcome FdAdapterConfig.t) : io ST unit :=
  c_ad ← machine (pure_ c_ad);
  if active_open
  then connect sys net sys_poll clock aborted R self set_self thread_data fuel cfg random c_ad
  else listen_and_accept sys net sys_poll clock aborted R self set_self thread_data fuel cfg random c_ad.

Lemma unconnected_settled w : unconnected w -> settled ([], w).
Proof.
  destruct Hfresh as (Hw & Hd & _). intros []. split; [|split; [by apply fds_owned|by right]]. exists e0, [], [].
  rewrite Hw, Hd, !app_nil_r. split_and!; try done. apply path_start.
Qed.

Lemma opening_going active_open fuel c_ad w : concluded c_ad -> unconnected w ->
  swp True (opening active_open fuel c_ad) (fun _ => going) settled ([], w).
Proof.
  intros Hc Hu. apply swp_bind, swp_machine. unfold wp, pure_. destruct c_ad as [c_ad| | |]; try done; [|by apply unconnected_settled].
  destruct active_open; (eapply swp_mono; [by apply connect_going || by apply accept_going|done|done|done]).
Qed.

(** ** The end of the object *)

(** The members go in the reverse order of their declaration: the event loop, the connection,
    the adapter with its descriptor, the two ends of the socket pair. *)
Definition dismantle : io ST unit :=
  _ ← StreamCopy.destroy_loop sys;
  _ ← machine (reset_tcp self set_self);
  _ ← machine (FileDescriptor.release sys ah);
  _ ← machine (FileDescriptor.release sys thread_data);
  machine (FileDescriptor.release sys own).

(** A socket that is a local variable; when an exception left its thread the program is gone. *)
Definition scoped {B} (opening : io ST unit) (owner : io W B) (set_abort : K -> K) (fuel : nat) : io ST thread_end := fun s =>
  match attended opening owner set_abort fuel s with
  | (Ok Joined, s) => (_ ← dismantle; mret Joined) s
  | (Throw e, s) => (_ ← dismantle; pure_ (Throw e)) s
  | r => r
  end.

Lemma concluded_quiet w w' : quiet self sent got (FileDescriptor.kernel w) (FileDescriptor.kernel w') -> concluded_at w -> concluded_at w'.
Proof.
  intros (H1 & H2 & H3) (e & hs & ss & Hp & Hf & Hg & Hs & Hh & Hsd). exists e, hs, ss. rewrite H1, H2, H3. by split_and!.
Qed.

(** Releasing a handle with one owner. *)
Lemma release_one h fd (w : W) : fds w !! h = Some (fd, 1) ->
  exists w', FileDescriptor.release sys h w = (Ok tt, w') /\ fds w' = delete h (fds w) /\
    quiet self sent got (FileDescriptor.kernel w) (FileDescriptor.kernel w').
Proof.
  intros Hh. destruct (release_fds sys h fd 1 w Hh) as (w' & Hr & Hk & Hf & _); [done|]. exists w'. split; [done|]. split; [done|].
  by apply (may_close_quiet (sys := sys) (net := net) (sys_poll := sys_poll) (set_self := set_self)), relations.rtc_once.
Qed.

Lemma reset_settled rules w : settled (rules, w) ->
  exists w', reset_tcp self set_self w = (Ok tt, w') /\ fds w' = fds w /\ concluded_at w' /\ _tcp (object w') = None.
Proof.
  intros (Hc & _ & Hl). simpl in Hc, Hl. unfold reset_tcp, mbind, io_bind, get, gets.
  destruct (_tcp (object w)) as [c|] eqn:Et; [|by exists w]. destruct Hl as [(e & hs & ss & Ha)|]; [|done].
  pose proof (at_tcp _ _ _ _ Ha) as Et'. rewrite Et in Et'. injection Et' as ->.
  destruct (destroy_wf _ _ (ep_conn _ (at_wf _ _ _ _ Ha))) as (c' & new & Hd & _). unfold pure_. rewrite Hd.
  exists (with_obj w (fun s => set_tcp s None)). split; [done|]. split; [done|]. rewrite obj_with. split; [|done].
  destruct Hc as (e' & hs' & ss' & ?). exists e', hs', ss'. by rewrite got_with, sent_with_obj, obj_with.
Qed.

Lemma dismantle_ok s afd tfd' ofd : settled s -> ah <> own -> own <> thread_data ->
  F0 !! ah = Some (afd, 1) -> F0 !! thread_data = Some (tfd', 1) -> F0 !! own = Some (ofd, 1) ->
  exists w', dismantle s = (Ok tt, ([], w')) /\ concluded_at w' /\ fds w' = delete own (delete thread_data (delete ah F0)).
Proof.
  destruct s as [rules w]. intros Hs Hao Hot Ha Ht Ho. pose proof Hs as (Hc & Hown' & Hl). simpl in Hc, Hown', Hl.
  destruct (release_rules_ok sys F0 owners_from_zero rules [] w) as (w1 & H1 & O1 & Q1%may_close_quiet); [by rewrite app_nil_r|].
  assert (Hs1 : settled ([], w1)).
  { split; [by eapply concluded_quiet|]. split; [done|]. destruct Q1 as (Q1 & Q2 & Q3). simpl. rewrite Q1.
    destruct Hl as [(e & hs & ss & Hat)|]; [left|by right]. exists e, hs, ss. pose proof Hat as [? ? ? ? ? ? ? ? Hn ?].
    eapply (at_moved e hs ss w _ _ _ w1 id); try done. rewrite Hn. by eapply owned_numbers. }
  assert (Hf1 : fds w1 = F0).
  { apply map_eq. intros j. destruct O1 as [_ ->]. destruct (F0 !! j) as [[fd n]|] eqn:Ej; [|done]. pose proof (HF0 _ _ Ej) as Hn.
    simpl in Hn. cbn [mbind option_bind]. change (owners j []) with 0. rewrite Z.add_0_r. by destruct (Z.eqb_spec n 0); [lia|]. }
  destruct (reset_settled [] w1 Hs1) as (w2 & H2 & F2 & C2 & T2).
  destruct (release_one ah afd w2) as (w3 & H3 & F3 & Q3); [by rewrite F2, Hf1|].
  destruct (release_one thread_data tfd' w3) as (w4 & H4 & F4 & Q4); [by rewrite F3, F2, Hf1, lookup_delete_ne|].
  destruct (release_one own ofd w4) as (w5 & H5 & F5 & Q5); [by rewrite F4, F3, F2, Hf1, !lookup_delete_ne|].
  exists w5. split; [|split; [by do 3 (eapply concluded_quiet; [eassumption|])|by rewrite F5, F4, F3, F2, Hf1]].
  unfold dismantle, StreamCopy.destroy_loop, machine, mbind, io_bind. by rewrite H1, H2, H3, H4, H5.
Qed.

Lemma scoped_ok {B} active_open (owner : io W B) set_abort fuel fuel' c_ad w afd tfd' ofd :
  concluded c_ad -> unconnected w -> (forall k, quiet self sent got k (set_abort k)) -> owner_ok owner -> ah <> own -> own <> thread_data ->
  F0 !! ah = Some (afd, 1) -> F0 !! thread_data = Some (tfd', 1) -> F0 !! own = Some (ofd, 1) ->
  let '(o, (_, w')) := scoped (opening active_open fuel c_ad) owner set_abort fuel' ([], w) in
  o <> Undefined /\ concluded_at w' /\
  (o = Ok Joined \/ (exists e, o = Throw e) -> fds w' = delete own (delete thread_data (delete ah F0))) /\
  (o = Ok Joined -> exists b w1 w2, owner_ran (opening active_open fuel c_ad) owner ([], w) F b w1 w2).
Proof.
  intros Hc Hu Hq Howner Hao Hot Ha Ht Ho.
  pose proof (attended_ok _ owner set_abort fuel' _ Hq Howner (opening_going active_open fuel c_ad w Hc Hu)) as H.
  unfold scoped. destruct (attended _ owner set_abort fuel' ([], w)) as [[r|e| |] s]; destruct H as [Hcon H]; simpl in Hcon, H; try done.
  - destruct H as [Hs Hj]. destruct r.
    + destruct (dismantle_ok s afd tfd' ofd Hs Hao Hot Ha Ht Ho) as (w' & Hd & H1 & H2). unfold mbind, io_bind. rewrite Hd.
      split_and!; try done. intros _. by apply Hj.
    + destruct s as [rules w']. split; [done|]. split; [apply Hs|]. split; [by intros [[=]|[? [=]]]|done].
  - destruct (dismantle_ok s afd tfd' ofd H Hao Hot Ha Ht Ho) as (w' & Hd & H1 & H2). unfold mbind, io_bind. rewrite Hd.
    by split_and!.
  - destruct s as [rules w']. split; [done|]. split; [done|]. split; [by intros [[=]|[? [=]]]|done].
Qed.

End thread.

(** ** Hosts

    A machine with a socket on it: the system calls, the clock, the flag by which the owner
    asks the thread to stop, the memory of the object, the traffic of the descriptors, and the
    handles of the object. *)
Record host := Host {
  h_state : Type;
  h_adapter : Type;
  h_sys : Kernel h_state;
  h_net : SocketCalls h_state;
  h_poll : h_state -> list EventLoop.pollfd -> Z -> Z * Z * list EventLoop.pollfd * h_state;
  h_clock : h_state -> Z * h_state;
  h_aborted : h_state -> bool;
  h_resolver : Address.Resolver;
  h_self : h_state -> TCPSpongeSocket.t h_adapter;
  h_set_self : TCPSpongeSocket.t h_adapter -> h_state -> h_state;
  h_calls : SpongeAdapter (FileDescriptor.world (K := h_state)) h_adapter;
  h_sent : h_state -> Z -> list byte;
  h_got : h_state -> Z -> list byte;
  h_own : Z;
  h_thread_data : Z;
  h_tfd : Z;
  h_live : h_adapter -> gmap Z Z -> Prop;
  h_heard : h_adapter -> list TCPSegment.t;
  h_said : h_adapter -> list TCPSegment.t
}.

#[local] Existing Instance h_calls.

#[local] Abbreviation hworld h := (FileDescriptor.world (K := h_state h)).

(** What such a machine promises. *)
Class HostOk (h : host) : Prop := {
  ho_posix : PosixKernel (h_sys h) (h_sent h);
  ho_logged : LoggedKernel (h_sys h) (h_net h) (h_poll h) (h_self h) (h_set_self h) (h_sent h) (h_got h);
  ho_poll : PosixPoll (h_poll h);
  ho_adapter : EndpointAdapter (h_self h) (h_sent h) (h_got h) (h_tfd h) (h_live h) (h_heard h) (h_said h);
  ho_clock k : quiet (h_self h) (h_sent h) (h_got h) k (h_clock h k).2;
  ho_small k : zlen (h_got h k (h_tfd h)) < 2 ^ 60 /\ zlen (h_sent h k (h_tfd h)) < 2 ^ 60
}.

Section hosts.

Context (h : host).

#[local] Abbreviation object w := (h_self h (FileDescriptor.kernel w)).
#[local] Abbreviation adapter w := (TCPSpongeSocket._datagram_adapter (h_self h (FileDescriptor.kernel w))).

(** A socket on which neither [connect] nor [listen_and_accept] was called. *)
Record fresh_socket (w : hworld h) : Prop := {
  fs_tcp : TCPSpongeSocket._tcp (object w) = None;
  fs_thread : exists n, fds w !! h_thread_data h = Some (h_tfd h, n);
  fs_own : is_Some (fds w !! h_own h);
  fs_adapter : is_Some (fds w !! ad_fd (adapter w));
  fs_distinct : ad_fd (adapter w) <> h_thread_data h;
  fs_live : h_live h (adapter w) (numbers w);
  fs_owners : map_Forall (fun _ x => 1 <= x.2) (fds w)
}.

(** The life of a socket: its owner calls [connect] or [listen_and_accept], which start the
    thread of [_tcp_main], and then [wait_until_closed], or destroys it with the given way to
    store the flag; each loop may run for the given number of rounds. *)
Definition session (active_open : bool) (set_abort : option (h_state h -> h_state h)) (fuel fuel' : nat) (cfg : TCPConfig.t)
  (random : Z) (c_ad : FdAdapterConfig.t)
  : io (list (EventLoop.Rule (h_state h)) * hworld h) TCPSpongeSocket.thread_end :=
  _ ← (if active_open
       then TCPSpongeSocket.connect (h_sys h) (h_net h) (h_poll h) (h_clock h) (h_aborted h) (h_resolver h) (h_self h) (h_set_self h)
              (h_thread_data h) fuel cfg random c_ad
       else TCPSpongeSocket.listen_and_accept (h_sys h) (h_net h) (h_poll h) (h_clock h) (h_aborted h) (h_resolver h) (h_self h)
              (h_set_self h) (h_thread_data h) fuel cfg random c_ad);
  leave (h_sys h) (h_net h) (h_poll h) (h_clock h) (h_aborted h) (h_self h) (h_set_self h) (h_own h) set_abort fuel'.

(** Storing the flag changes nothing else. *)
Definition abort_ok (set_abort : option (h_state h -> h_state h)) : Prop :=
  forall f, set_abort = Some f -> forall k, quiet (h_self h) (h_sent h) (h_got h) k (f k).

(** Between two worlds the socket was an endpoint on the path to [e]. *)
Record travelled (cfg : TCPConfig.t) (random : Z) (w w' : hworld h) (e : endpoint) (hs ss : list TCPSegment.t) : Prop := {
  tr_path : exists c, TCPConnection.make cfg random = Ok c /\ path (Endpoint c [] []) hs ss e;
  tr_fine : Forall seg_fine hs;
  tr_got : h_got h (FileDescriptor.kernel w') (h_tfd h) = h_got h (FileDescriptor.kernel w) (h_tfd h) ++ written e;
  tr_sent : h_sent h (FileDescriptor.kernel w') (h_tfd h) = h_sent h (FileDescriptor.kernel w) (h_tfd h) ++ delivered e;
  tr_heard : h_heard h (adapter w') = h_heard h (adapter w) ++ hs;
  tr_said : h_said h (adapter w') = h_said h (adapter w) ++ ss
}.

Lemma make_ended cfg random c : TCPConnection.make cfg random = Ok c -> ended c = false.
Proof.
  unfold TCPConnection.make, TCPSender.make. intros H. inv_ok. subst. unfold ByteStream.make in *. inv_ok. by subst.
Qed.

(** A fresh socket is ready for the thread. *)
Lemma fresh_start cfg random w : fresh_socket w -> config_ok cfg random ->
  exists c, TCPConnection.make cfg random = Ok c /\ ep_wf (Endpoint c [] []) /\ ended c = false /\
    numbers w !! h_thread_data h = Some (h_tfd h) /\ is_Some (numbers w !! ad_fd (adapter w)) /\ is_Some (numbers w !! h_own h).
Proof.
  intros [Htcp [n Hthread] [[ofd m] Hown] [[afd k] Had] Hdist Hlive Howners] Hcfg. pose proof Hcfg as [C1 C2 C3 C4].
  destruct (cn_make_spec cfg random (fun _ _ => True) (fun _ => True)) as (c & Hm & _); [unfold string_max_size; lia..|done|].
  exists c. split; [done|]. split; [by eapply fresh_endpoint|]. split; [by eapply make_ended|].
  unfold numbers. rewrite !lookup_fmap, Hthread, Hown, Had. split_and!; by eexists || done.
Qed.

Lemma session_spec `{!HostOk h} active_open set_abort fuel fuel' cfg random c_ad w :
  fresh_socket w -> config_ok cfg random -> abort_ok set_abort ->
  let '(o, (_, w')) := session active_open set_abort fuel fuel' cfg random c_ad ([], w) in
  o <> Undefined /\ ((0 < fuel)%nat -> (0 < fuel')%nat -> (forall k, h_aborted h k = true) -> o <> OutOfFuel) /\
  (o = Ok TCPSpongeSocket.Joined -> TCPSpongeSocket._tcp (object w') = None) /\
  exists e hs ss, travelled cfg random w w' e hs ss.
Proof.
  intros Hw Hcfg Habort. destruct (fresh_start cfg random w Hw Hcfg) as (c & Hm & Hwf & Hen & Hthread' & Had' & Hown').
  destruct Hw as [Htcp _ _ _ Hdist Hlive Howners]. destruct HostOk0 as [Hposix Hlogged Hpoll Hadapter Hclock Hsmall].
  epose proof (session_ok (h_sys h) (h_net h) (h_poll h) (h_clock h) (h_aborted h) (h_resolver h) (h_self h) (h_set_self h)
    (h_sent h) (h_got h) (h_own h) (h_thread_data h) (h_tfd h) (h_live h) (h_heard h) (h_said h) Hclock Hsmall
    (numbers w) Hthread' (Endpoint c [] []) _ _ _ _ Hwf (ad_fd (adapter w)) Hdist (fds w) Howners eq_refl Had' Hown'
    cfg random Hm (conj eq_refl (conj eq_refl Hen)) active_open set_abort fuel fuel' c_ad w) as H.
  specialize (H ltac:(by split) Habort). unfold swp in H. fold (session active_open set_abort fuel fuel' cfg random c_ad) in H.
  destruct (session active_open set_abort fuel fuel' cfg random c_ad ([], w)) as [o [rules w']]. simpl in H.
  assert (Hend : concluded_at (h_self h) (h_sent h) (h_got h) (h_tfd h) (h_heard h) (h_said h) (Endpoint c [] [])
    (h_got h (FileDescriptor.kernel w) (h_tfd h)) (h_sent h (FileDescriptor.kernel w) (h_tfd h))
    (h_heard h (adapter w)) (h_said h (adapter w)) w' -> exists e hs ss, travelled cfg random w w' e hs ss).
  { intros (e & hs & ss & Hp & Hf & Hg & Hs & Hh & Hsd). exists e, hs, ss. split; try done. by exists c. }
  destruct o as [r|er| |]; try done.
  - destruct H as [[H1 _] H2]. split_and!; try done; [|by apply Hend]. intros [= ->]. by apply H2.
  - split_and!; try done. by apply Hend, H.
  - destruct H as [H1 [H2 _]]. split; [done|]. split; [by intros; destruct H1|]. split; [done|]. by apply Hend.
Qed.

(** The opening of a socket, and a program whose socket is a local variable. *)
Definition host_opening (active_open : bool) (fuel : nat) (cfg : TCPConfig.t) (random : Z) (c_ad : outcome FdAdapterConfig.t)
  : io (list (EventLoop.Rule (h_state h)) * hworld h) unit :=
  opening (h_sys h) (h_net h) (h_poll h) (h_clock h) (h_aborted h) (h_resolver h) (h_self h) (h_set_self h) (h_thread_data h)
    cfg random active_open fuel c_ad.

Definition socket_scope {B} (active_open : bool) (owner : io (hworld h) B) (set_abort : h_state h -> h_state h) (fuel fuel' : nat) (cfg : TCPConfig.t)
  (random : Z) (c_ad : outcome FdAdapterConfig.t) (device : Z)
  : io (list (EventLoop.Rule (h_state h)) * hworld h) TCPSpongeSocket.thread_end :=
  scoped (h_sys h) (h_net h) (h_poll h) (h_clock h) (h_aborted h) (h_self h) (h_set_self h) (h_own h) (h_thread_data h) device
    (host_opening active_open fuel cfg random c_ad) owner set_abort fuel'.

(** The three handles of the object are its own. *)
Definition sole_owner (w : hworld h) (j : Z) : Prop := exists fd, fds w !! j = Some (fd, 1).

Lemma socket_scope_spec `{!HostOk h} {B} active_open (owner : io (hworld h) B) set_abort fuel fuel' cfg random c_ad w :
  let device := ad_fd (adapter w) in
  fresh_socket w -> config_ok cfg random -> abort_ok (Some set_abort) -> concluded c_ad ->
  owner_ok (h_self h) (h_sent h) (h_got h) (h_tfd h) (numbers w) owner ->
  sole_owner w device -> sole_owner w (h_thread_data h) -> sole_owner w (h_own h) -> device <> h_own h -> h_own h <> h_thread_data h ->
  let '(o, (_, w')) := socket_scope active_open owner set_abort fuel fuel' cfg random c_ad device ([], w) in
  o <> Undefined /\ (exists e hs ss, travelled cfg random w w' e hs ss) /\
  (o = Ok TCPSpongeSocket.Joined \/ (exists e, o = Throw e) -> fds w' = delete (h_own h) (delete (h_thread_data h) (delete device (fds w)))) /\
  (o = Ok TCPSpongeSocket.Joined -> exists b w1 w2,
     owner_ran (host_opening active_open fuel cfg random c_ad) owner ([], w) (numbers w) b w1 w2).
Proof.
  intros device Hw Hcfg Habort Hconc Howner [afd Hafd] [tfd' Htfd] [ofd Hofd] Hao Hot.
  destruct (fresh_start cfg random w Hw Hcfg) as (c & Hm & Hwf & Hen & Hthread' & Had' & Hown').
  destruct Hw as [Htcp _ _ _ Hdist Hlive Howners]. destruct HostOk0 as [Hposix Hlogged Hpoll Hadapter Hclock Hsmall].
  epose proof (scoped_ok (h_sys h) (h_net h) (h_poll h) (h_clock h) (h_aborted h) (h_resolver h) (h_self h) (h_set_self h)
    (h_sent h) (h_got h) (h_own h) (h_thread_data h) (h_tfd h) (h_live h) (h_heard h) (h_said h) Hclock Hsmall
    (numbers w) Hthread' (Endpoint c [] []) _ _ _ _ Hwf device Hdist (fds w) Howners eq_refl Had' Hown'
    cfg random Hm (conj eq_refl (conj eq_refl Hen)) active_open owner set_abort fuel fuel' c_ad w afd tfd' ofd Hconc) as H.
  specialize (H ltac:(by split) (Habort set_abort eq_refl) Howner Hao Hot Hafd Htfd Hofd). unfold socket_scope.
  destruct (scoped _ _ _ _ _ _ _ _ _ _ _ _ _ _ _) as [o [rules w']]. destruct H as (H1 & (e & hs & ss & Hp & Hf & Hg & Hs & Hh & Hsd) & H3 & H4).
  split; [done|]. split; [|done]. exists e, hs, ss. split; try done. by exists c.
Qed.

End hosts.
