(* ===== verification/Devices.v ===== *)
(** * Devices.v: the adapters on their devices

    Models how the adapters of Adapters.v use their descriptors
    ([libsponge/tcp_helpers/fd_adapter.cc], [tuntap_adapter.hh], [tuntap_adapter.cc],
    [lossy_fd_adapter.hh]) and shows that each of them keeps the promises SpongeThread.v asks
    for: what it returns has the sizes of the wire, it touches no descriptor but its own, and
    none of its calls reaches undefined behaviour. *)

From stdpp Require Import gmap list pretty.
From S2P Require Import Prelude Wrapping Streams Reassembler Buffers Parsing TcpWire Receiver Sender Connection TcpState.
From S2P Require Import IpWire EtherWire Addresses NetIf Adapters Totality FileDesc EventLoop Sockets Handles SpongeSocket Transfer Endpoint SpongeThread.

(** ** The adapters as adapters of the socket *)

(** TCP over UDP: the base and the handle of [_sock]. *)
Record udp_adapter := UdpAdapter { udp_base : FdAdapterBase.t; _sock : Z }.

#[export] Instance udp_sponge_adapter {K} (net : SocketCalls K) (R : Address.Resolver) :
  SpongeAdapter (FileDescriptor.world (K := K)) udp_adapter := {|
  ad_fd := _sock;
  ad_read a :=
    datagram ← UDPSocket.recv net (_sock a) 65536;
    '(b, seg) ← pure_ (TCPOverUDPSocketAdapter.read (udp_base a) (UDPSocket.source_address datagram, UDPSocket.payload datagram));
    mret (UdpAdapter b (_sock a), seg);
  ad_write a seg :=
    '(b, _, (destination, out)) ← pure_ (TCPOverUDPSocketAdapter.write R (udp_base a) seg);
    _ ← UDPSocket.sendto net (_sock a) destination (BufferViewList.of_bufferlist out);
    mret (UdpAdapter b (_sock a));
  ad_tick a ms := mret (UdpAdapter (FdAdapterBase.tick (udp_base a) ms) (_sock a));
  ad_base := udp_base;
  ad_set_base a b := UdpAdapter b (_sock a)
|}.

(** TCP over IP over Ethernet: the adapter and the handle of [_tap]. *)
Module EthAdapter.

Import TCPOverIPv4OverEthernetAdapter.

Record t := mk { eth : TCPOverIPv4OverEthernetAdapter.t; _tap : Z }.

Section eth.

Context {K : Type} (sys : Kernel K) (R : Address.Resolver).

#[local] Abbreviation W := (FileDescriptor.world (K := K)).

Fixpoint write_frames (tap : Z) (frames : list BufferList.t) : io W unit :=
  match frames with
  | [] => mret tt
  | f :: frames => _ ← FileDescriptor.write sys tap (BufferViewList.of_bufferlist f) true; write_frames tap frames
  end.

(** [send_pending]: what waits goes to the device, in order. *)
Definition send_pending (a : t) : io W t :=
  let '(e, out) := TCPOverIPv4OverEthernetAdapter.send_pending (eth a) in
  _ ← write_frames (_tap a) out;
  mret (mk e (_tap a)).

Definition set_interface (a : t) (n : NetworkInterface.t) : t :=
  mk (TCPOverIPv4OverEthernetAdapter.mk (base (eth a)) n (_next_hop (eth a))) (_tap a).
Definition set_base (a : t) (b : FdAdapterBase.t) : t :=
  mk (TCPOverIPv4OverEthernetAdapter.mk b (_interface (eth a)) (_next_hop (eth a))) (_tap a).

(** The constructor, with the frame that primes the device. *)
Definition make (tap : Z) (eth_address : EthernetAddress) (ip_address next_hop : Address.t) : io W t :=
  '(e, out) ← pure_ (TCPOverIPv4OverEthernetAdapter.make R eth_address ip_address next_hop);
  _ ← write_frames tap out;
  mret (mk e tap).

Definition read (a : t) : io W (t * option TCPSegment.t) :=
  data ← FileDescriptor.read sys (_tap a) SIZE_MAX;
  '(r, frame) ← pure_ (EthernetFrame.parse EthernetFrame.make (Buffer.of_string data));
  if negb (bool_decide (r = NoError)) then mret (a, None)
  else
    '(n, ip_dgram) ← pure_ (NetworkInterface.recv_frame (_interface (eth a)) frame);
    a ← send_pending (set_interface a n);
    match ip_dgram with
    | Some d =>
        '(b, seg) ← pure_ (TCPOverIPv4Adapter.unwrap_tcp_in_ip R (base (eth a)) d);
        mret (set_base a b, seg)
    | None => mret (a, None)
    end.

Definition write (a : t) (seg : TCPSegment.t) : io W t :=
  '(_, d) ← pure_ (TCPOverIPv4Adapter.wrap_tcp_in_ip R (base (eth a)) seg);
  n ← pure_ (NetworkInterface.send_datagram (_interface (eth a)) d (_next_hop (eth a)));
  send_pending (set_interface a n).

Definition tick (a : t) (ms_since_last_tick : Z) : io W t :=
  send_pending (set_interface a (NetworkInterface.tick (_interface (eth a)) ms_since_last_tick)).

End eth.

End EthAdapter.

#[export] Instance eth_sponge_adapter {K} (sys : Kernel K) (R : Address.Resolver) :
  SpongeAdapter (FileDescriptor.world (K := K)) EthAdapter.t := {|
  ad_fd := EthAdapter._tap;
  ad_read := EthAdapter.read sys R;
  ad_write := EthAdapter.write sys R;
  ad_tick := EthAdapter.tick sys;
  ad_base a := TCPOverIPv4OverEthernetAdapter.base (EthAdapter.eth a);
  ad_set_base := EthAdapter.set_base
|}.

(** The lossy adapter around any of them; whether a segment is dropped depends on the
    configuration of the adapter inside. *)
Record lossy (Rand A : Type) := Lossy { _rand_state : Rand; _inner : A }.
Arguments Lossy {Rand A}.
Arguments _rand_state {Rand A}.
Arguments _inner {Rand A}.

Definition lossy_drops {Rand A W} `{!SpongeAdapter W A} (R : Address.Resolver) (_rand : Rand -> Z * Rand) (l : lossy Rand A) (uplink : bool)
  : bool * lossy Rand A :=
  let '(drop, l') := LossyFdAdapter._should_drop (FdAdapter0 := udp_fd_adapter R) Rand _rand
    (LossyFdAdapter.mk Rand (_rand_state l) (ad_base (_inner l))) uplink in
  (drop, Lossy (LossyFdAdapter.rand_state Rand l') (_inner l)).

#[export] Instance lossy_sponge_adapter {W Rand A} `{!SpongeAdapter W A} (R : Address.Resolver) (_rand : Rand -> Z * Rand) :
  SpongeAdapter W (lossy Rand A) := {|
  ad_fd l := ad_fd (_inner l);
  ad_read l :=
    '(a, ret) ← ad_read (_inner l);
    let '(drop, l) := lossy_drops R _rand (Lossy (_rand_state l) a) false in
    mret (l, if drop : bool then None else ret);
  ad_write l seg :=
    let '(drop, l) := lossy_drops R _rand l true in
    if drop : bool then mret l
    else a ← ad_write (_inner l) seg; mret (Lossy (_rand_state l) a);
  ad_tick l ms := a ← ad_tick (_inner l) ms; mret (Lossy (_rand_state l) a);
  ad_base l := ad_base (_inner l);
  ad_set_base l b := Lossy (_rand_state l) (ad_set_base (_inner l) b)
|}.

(** ** Sizes of what is parsed *)

(** The storage behind a buffer. *)
Definition room (b : Buffer.t) : Z := zlen (default [] (Buffer._storage b)).

Lemma room_str b : zlen (Buffer.str b) <= room b.
Proof.
  unfold room, Buffer.str. destruct (Buffer._storage b) as [s|]; [|done]; pose proof (zlen_nonneg s). cbn [default].
  rewrite zlen_ztake, zlen_zdrop. unfold id. lia.
Qed.

Lemma remove_room b n : yields (Buffer.remove_prefix b n) (fun b' => room b' <= room b).
Proof.
  unfold Buffer.remove_prefix. destruct (_ <? n); simpl; [done|].
  unfold room. destruct (Buffer._storage b) as [s|]; [destruct (_ =? _)|]; simpl; lia.
Qed.

Lemma check_size_buffer p n : NetParser._buffer (NetParser._check_size p n) = NetParser._buffer p.
Proof. unfold NetParser._check_size. by destruct (_ <? n). Qed.

Lemma parse_loop_range w b n : 0 <= w -> forall i ret, 0 <= ret < 2 ^ w ->
  yields (NetParser.parse_loop w b n i ret) (fun v => 0 <= v < 2 ^ w).
Proof.
  intros Hw. induction n as [|n IH]; intros i ret Hr; cbn [NetParser.parse_loop]; [done|].
  eapply yields_bind; [apply buffer_at_total|]. intros c _. apply IH. unfold uw. apply Z.mod_pos_bound. lia.
Qed.

(** What is left of the parser's buffer after an operation. *)
Definition shrunk (p p' : NetParser.t) : Prop := room (NetParser.buffer p') <= room (NetParser.buffer p).

Lemma parse_int_fits len p : yields (NetParser._parse_int len p) (fun '(v, p') => 0 <= v < 2 ^ (Z.of_nat len * 8) /\ shrunk p p').
Proof.
  unfold NetParser._parse_int, shrunk, NetParser.buffer. set (q := NetParser._check_size p (Z.of_nat len)).
  assert (Hq : NetParser._buffer q = NetParser._buffer p) by apply check_size_buffer.
  destruct (NetParser.error q); [simpl; rewrite Hq; lia|]. eapply yields_bind; [apply parse_loop_range; lia|].
  intros v Hv. eapply yields_bind; [apply remove_room|]. intros b Hb. simpl. rewrite Hq in Hb. done.
Qed.

Lemma parser_remove_fits p n : yields (NetParser.remove_prefix p n) (shrunk p).
Proof.
  unfold NetParser.remove_prefix, shrunk, NetParser.buffer. set (q := NetParser._check_size p n).
  assert (Hq : NetParser._buffer q = NetParser._buffer p) by apply check_size_buffer.
  destruct (NetParser.error q); [simpl; rewrite Hq; lia|]. eapply yields_bind; [apply remove_room|]. intros b Hb. simpl. by rewrite Hq in Hb.
Qed.

(** The next field. *)
Ltac field v p :=
  eapply yields_bind; [apply parse_int_fits|]; intros [v p] [? ?]; unfold shrunk in *.

Lemma tcp_header_fits p : yields (TCPHeader.parse p) (fun '(_, h, p') =>
  0 <= TCPHeader.win h < two16 /\ WrappingInt32.ok (TCPHeader.seqno h) /\ shrunk p p').
Proof.
  unfold TCPHeader.parse. field sport p1. field dport p2. field seqno p3. field ackno p4. field b p5. field fl p6.
  field win p7. field cksum p8. field uptr p9. cbv zeta. unfold shrunk in *.
  destruct (_ <? 5); [simpl; unfold WrappingInt32.ok; simpl; change (two32) with (2 ^ 32); change two16 with (2 ^ 16); lia|].
  eapply yields_bind; [apply parser_remove_fits|]. unfold shrunk. intros p10 Hlast.
  destruct (NetParser.error p10); simpl; unfold WrappingInt32.ok; simpl; change (two32) with (2 ^ 32); change two16 with (2 ^ 16); lia.
Qed.

Lemma segment_fits b init : 0 <= init < two32 -> room b < two32 ->
  yields (TCPSegment.parse TCPSegment.make b init) (fun '(_, s) => seg_fine s).
Proof.
  intros Hi Hb. unfold TCPSegment.parse. cbv zeta.
  eapply yields_bind; [apply checksum_value_total, sum_ok_add, sum_ok_make, Hi|]. intros v _. destruct (negb _); [by vm_compute|].
  eapply yields_bind; [apply tcp_header_fits|]. intros [[r h] p] (H1 & H2 & H3). simpl. split; [done|]. split; [done|].
  pose proof (room_str (NetParser.buffer p)). unfold shrunk in H3. simpl in *. lia.
Qed.

Lemma ip_header_shrinks h p : yields (IPv4Header.parse h p) (fun '(_, _, p') => shrunk p p').
Proof.
  unfold IPv4Header.parse. cbv zeta. destruct (_ <? _); [simpl; unfold shrunk; lia|].
  field first_byte p1. field tos p2. field len p3. field ident p4. field fo p5. field ttl p6. field proto p7.
  field cksum p8. field src p9. field dst p10.
  do 4 (match goal with |- yields (if ?b then _ else _) _ => destruct b end; [simpl; unfold shrunk; lia|]).
  eapply yields_bind; [apply parser_remove_fits|]. unfold shrunk. intros p11 Hlast.
  destruct (NetParser.error p11); [simpl; lia|]. eapply yields_bind with (P := fun _ => True); [concluding|]. intros v _.
  destruct (negb _); simpl; lia.
Qed.

(** A datagram's payload is what is left of its buffer. *)
Definition one_buffer (n : Z) (d : IPv4Datagram.t) : Prop := exists b, IPv4Datagram.payload d = BufferList.of_buffer b /\ room b <= n.

Lemma datagram_one_buffer d b : yields (IPv4Datagram.parse d b) (fun '(_, d') => one_buffer (room b) d').
Proof.
  unfold IPv4Datagram.parse. cbv zeta. eapply yields_bind; [apply ip_header_shrinks|]. intros [[r h] p] Hp. unfold shrunk in Hp.
  destruct (negb _); simpl; by exists (NetParser.buffer p).
Qed.

Lemma read_address_shrinks n p : yields (read_address n p) (fun '(_, p') => shrunk p p').
Proof.
  revert p. induction n as [|n IH]; intros p; cbn [read_address]; [simpl; unfold shrunk; lia|].
  eapply yields_bind; [apply parse_int_fits|]. intros [b p1] [_ H1]. eapply yields_bind; [apply IH|]. intros [l p2] H2.
  simpl. unfold shrunk in *. lia.
Qed.

(** The payload of a frame is what is left of its buffer. *)
Definition one_payload (n : Z) (f : EthernetFrame.t) : Prop := exists b, EthernetFrame.payload f = BufferList.of_buffer b /\ room b <= n.

Lemma frame_one_payload f b : yields (EthernetFrame.parse f b) (fun '(_, f') => one_payload (room b) f').
Proof.
  unfold EthernetFrame.parse. cbv zeta.
  eapply yields_bind with (P := fun '(_, _, p') => shrunk (NetParser.make b) p').
  - unfold EthernetHeader.parse. destruct (_ <? _); [simpl; unfold shrunk; lia|].
    eapply yields_bind; [apply read_address_shrinks|]. intros [dst p1] H1. eapply yields_bind; [apply read_address_shrinks|].
    intros [src p2] H2. field type p3. unfold shrunk in *. simpl in *. lia.
  - intros [[r h] p] Hp. simpl. by exists (NetParser.buffer p).
Qed.

Lemma recv_frame_one_buffer k n f : one_payload k f ->
  yields (NetworkInterface.recv_frame n f) (fun '(_, d) => Forall (one_buffer k) (option_list d)).
Proof.
  intros (b & Hb & Hk). pose proof (recv_frame_grows n f) as Hg. unfold NetworkInterface.recv_frame in *. cbv zeta in *.
  destruct (negb _ && negb _); [by constructor|]. destruct (_ =? EthernetHeader.TYPE_IPv4).
  { rewrite Hb. cbn [BufferList.to_buffer BufferList.of_buffer mbind outcome_bind]. eapply yields_bind; [apply datagram_one_buffer|].
    intros [r d] (b' & Hb' & Hk'). destruct (bool_decide _); simpl; [|by constructor]. apply Forall_singleton. exists b'. split; [done|lia]. }
  destruct (_ =? EthernetHeader.TYPE_ARP); [|by constructor].
  eapply yields_bind; [apply to_buffer_total|]. intros b0 _. eapply yields_bind; [apply arp_parse_total|].
  intros [r msg] _. destruct (bool_decide (r = NoError)); [|by constructor].
  eapply yields_bind with (P := fun _ => True).
  { destruct (_ !! _); [|done]. eapply yields_bind; [apply send_buffered_grows|]. by intros. }
  intros n2 _. eapply yields_bind with (P := fun _ => True); [|intros; by constructor].
  destruct (bool_decide _); [|done]. eapply yields_bind; [apply ipv4_numeric_total|]. intros own _.
  destruct (_ =? own); [|done]. eapply yields_bind; [apply generate_arp_total|]. by intros.
Qed.

(** ** An adapter with a record of its traffic *)

Record recording (A : Type) := Recording {
  recorded : A;
  rec_heard : list TCPSegment.t;
  rec_said : list TCPSegment.t
}.
Arguments Recording {A}.
Arguments recorded {A}.
Arguments rec_heard {A}.
Arguments rec_said {A}.

#[export] Instance recording_adapter {W A} `{!SpongeAdapter W A} : SpongeAdapter W (recording A) := {|
  ad_fd r := ad_fd (recorded r);
  ad_read r := '(a, seg) ← ad_read (recorded r); mret (Recording a (rec_heard r ++ option_list seg) (rec_said r), seg);
  ad_write r seg := a ← ad_write (recorded r) seg; mret (Recording a (rec_heard r) (rec_said r ++ [seg]));
  ad_tick r ms := a ← ad_tick (recorded r) ms; mret (Recording a (rec_heard r) (rec_said r));
  ad_base r := ad_base (recorded r);
  ad_set_base r b := Recording (ad_set_base (recorded r) b) (rec_heard r) (rec_said r)
|}.

(** The promises of an adapter without the record. *)
Class QuietAdapter {K A} `{!SpongeAdapter (FileDescriptor.world (K := K)) A} {T} (self : K -> T)
  (sent got : K -> Z -> list byte) (tfd : Z) (live : A -> gmap Z Z -> Prop) : Prop := {
  qa_read a w : live a (numbers w) ->
    wp (ad_read a) (fun '(a', seg) w' => undisturbed self sent got tfd w w' /\ live a' (numbers w) /\ Forall seg_fine (option_list seg))
      (undisturbed self sent got tfd w) w;
  qa_write a seg w : live a (numbers w) ->
    wp (ad_write a seg) (fun a' w' => undisturbed self sent got tfd w w' /\ live a' (numbers w)) (undisturbed self sent got tfd w) w;
  qa_tick a ms w : live a (numbers w) ->
    wp (ad_tick a ms) (fun a' w' => undisturbed self sent got tfd w w' /\ live a' (numbers w)) (undisturbed self sent got tfd w) w;
  qa_base a b F : live a F -> live (ad_set_base a b) F
}.

#[export] Instance recording_endpoint {K A} `{!SpongeAdapter (FileDescriptor.world (K := K)) A} {T} (self : K -> T) sent got tfd live :
  QuietAdapter self sent got tfd live ->
  EndpointAdapter self sent got tfd (fun (r : recording A) F => live (recorded r) F) rec_heard rec_said.
Proof.
  intros [Hr Hw Ht Hb]. split; try done.
  - intros r w Hl. apply wp_bind. eapply wp_mono; [by apply Hr| |done]. intros [a seg] w' (H1 & H2 & H3). apply wp_ret. by split_and!.
  - intros r seg w Hl. apply wp_bind. eapply wp_mono; [by apply Hw| |done]. intros a w' (H1 & H2). apply wp_ret. by split_and!.
  - intros r ms w Hl. apply wp_bind. eapply wp_mono; [by apply Ht| |done]. intros a w' (H1 & H2). apply wp_ret. by split_and!.
  - intros r b F Hl. by apply Hb.
Qed.

(** ** The TUN adapter *)

Section tun.

Context {K T : Type} (sys : Kernel K) (net : SocketCalls K)
  (sys_poll : K -> list EventLoop.pollfd -> Z -> Z * Z * list EventLoop.pollfd * K)
  (R : Address.Resolver) (self : K -> T) (set_self : T -> K -> K) (sent got : K -> Z -> list byte)
  `{!PosixKernel sys sent} `{!LoggedKernel sys net sys_poll self set_self sent got} (tfd : Z).

#[local] Abbreviation W := (FileDescriptor.world (K := K)).

(** The device behind a handle is there, and it is not the owner's descriptor. *)
Definition device_at (h : Z) (F : gmap Z Z) : Prop := exists fd, F !! h = Some fd /\ fd <> tfd.
Definition tun_live (a : tun_adapter) : gmap Z Z -> Prop := device_at (_tun a).
Definition udp_live (a : udp_adapter) : gmap Z Z -> Prop := device_at (_sock a).
Definition eth_live (a : EthAdapter.t) : gmap Z Z -> Prop := device_at (EthAdapter._tap a).

(** What happens on the descriptor behind [h] happens elsewhere. *)
Definition elsewhere (h : Z) : relation W := fun w w' =>
  fds w' = fds w /\ (forall fd n, fds w !! h = Some (fd, n) -> fd <> tfd -> undisturbed self sent got tfd w w').

(** Nothing happens to the object and the owner's descriptor. *)
Definition quiet_at {B} (m : io W B) (w : W) : Prop :=
  self (FileDescriptor.kernel (m w).2) = self (FileDescriptor.kernel w) /\
  sent (FileDescriptor.kernel (m w).2) tfd = sent (FileDescriptor.kernel w) tfd /\
  got (FileDescriptor.kernel (m w).2) tfd = got (FileDescriptor.kernel w) tfd.

#[local] Instance elsewhere_preorder h : PreOrder (elsewhere h).
Proof.
  split; [by intros w; split|]. intros w1 w2 w3 [A1 A2] [B1 B2]. split; [congruence|]. intros fd n Hn Hne.
  etrans; [by eapply A2|]. eapply B2; [|done]. by rewrite A1.
Qed.

Lemma update_elsewhere h f : (forall x, FDWrapper._fd (f x) = FDWrapper._fd x) -> respects (elsewhere h) (FileDescriptor.update h f).
Proof. intros Hf w. split; [by apply update_fds|]. intros fd n _ _. split; [by apply update_fds|done]. Qed.

(** A call on the descriptor that was looked up before. *)
Lemma elsewhere_call {B C} h (call : FDWrapper.t -> io W B) (rest : FDWrapper.t -> B -> io W C) :
  (forall x w, FDWrapper._fd x <> tfd -> quiet_at (call x) w) -> (forall x, respects same_fds (call x)) ->
  (forall x b, respects (elsewhere h) (rest x b)) -> respects (elsewhere h) (x ← FileDescriptor.internal h; b ← call x; rest x b).
Proof.
  intros Hc Hf Hr w. unfold mbind at 1, io_bind at 1, FileDescriptor.internal.
  destruct (FileDescriptor.handles w !! h) as [[x n]|] eqn:E; [|done].
  assert (Hcall : elsewhere h w (call x w).2).
  { split; [apply Hf|]. intros fd m Hm Hne. unfold fds in Hm. rewrite lookup_fmap, E in Hm. injection Hm as <- <-.
    split; [apply Hf|by apply Hc]. }
  unfold mbind, io_bind. destruct (call x w) as [[b| | |] w1]; try done. etrans; [exact Hcall|apply Hr].
Qed.

Lemma read_elsewhere h limit : respects (elsewhere h) (FileDescriptor.read sys h limit).
Proof.
  unfold FileDescriptor.read. apply elsewhere_call.
  - intros x w Hne. unfold quiet_at. destruct (sys_read sys _ _ _) as [[[r e] data] k] eqn:Er. simpl.
    destruct (logged_read _ _ _ _ _ _ _ Er) as (H1 & H2 & H3). split; [done|]. split; [done|].
    rewrite H3. destruct (decide _) as [[? _]|_]; [congruence|]. apply app_nil_r.
  - intros x w. by destruct (sys_read sys _ _ _) as [[[r e] data] k].
  - intros x [[r e] data]. respecting; try (by apply update_elsewhere); by intros w.
Qed.

Lemma write_elsewhere h b all : respects (elsewhere h) (FileDescriptor.write sys h b all).
Proof.
  unfold FileDescriptor.write. generalize (S (length (all_bytes b))) as fuel. intros fuel.
  generalize 0 at 1 as total. revert b. induction fuel as [|fuel IH]; intros b total; cbn [FileDescriptor.write_loop]; [by intros w|].
  apply elsewhere_call.
  - intros x w Hne. unfold quiet_at. destruct (sys_writev sys _ _ _) as [[r e] k] eqn:Ew. simpl.
    destruct (logged_writev _ _ _ _ _ _ Ew) as (H1 & H2 & H3). split; [done|]. split; [by apply H2|done].
  - intros x w. by destruct (sys_writev sys _ _ _) as [[r e] k].
  - intros x [r e]. respecting; try (by apply update_elsewhere); try apply IH; by intros w.
Qed.

(** A call on the device. *)
Lemma wp_device {B} h (m : io W B) (Q : B -> W -> Prop) w : device_at h (numbers w) -> respects (elsewhere h) m ->
  answers h m -> (forall b w', undisturbed self sent got tfd w w' -> Q b w') ->
  wp m Q (undisturbed self sent got tfd w) w.
Proof.
  intros (fd & Hfd & Hne) Hr Ha HQ. unfold numbers in Hfd. rewrite lookup_fmap in Hfd.
  destruct (fds w !! h) as [[fd' n]|] eqn:E; [|done]. injection Hfd as ->.
  eapply (wp_call _ (elsewhere h)); [done|done|by rewrite E|..].
  - intros b w' [_ H]. apply HQ. by eapply H.
  - intros w' [_ H]. by eapply H.
Qed.

(** What is read fits a segment. *)
Lemma read_length h limit w data w' : FileDescriptor.read sys h limit w = (Ok data, w') -> zlen data < two32.
Proof.
  unfold FileDescriptor.read, mbind, io_bind. destruct (FileDescriptor.internal h w) as [[x| | |] w1]; try done.
  destruct (sys_read sys _ _ _) as [[[r e] d] k]. unfold pure_. destruct (SystemCall _ _ _ _) as [n| | |]; try done.
  match goal with |- context [(if ?b then FileDescriptor.update _ _ else mret tt) ?w] => destruct ((if b then FileDescriptor.update h FDWrapper.set_eof else mret tt) w) as [[u| | |] w2] end; try done.
  destruct (_ <? n) eqn:E1; [done|]. destruct (n <? 0) eqn:E2; [done|].
  destruct (FileDescriptor.register_read h w2) as [[u'| | |] w3]; try done. intros [= <- _].
  apply Z.ltb_ge in E1, E2. unfold str_resize at 1. rewrite zlen_app, zlen_ztake, length_replicate.
  unfold FileDescriptor.BUFFER_SIZE in *. lia.
Qed.

End tun.

(** The name functions of the C library may fail; nothing worse happens. *)
Lemma ip_port_total R a : concluded (Address.ip_port R a).
Proof. pose proof (to_string_defined R a) as H. unfold Address.to_string in H. by destruct (Address.ip_port R a) as [[]| | |]. Qed.

Lemma port_total R a : concluded (Address.port R a).
Proof. unfold Address.port. eapply yields_bind; [apply ip_port_total|]. by intros []. Qed.

#[export] Hint Resolve port_total of_ip_total : total.

Lemma set_ports_total R c seg : concluded (set_ports R c seg).
Proof. unfold set_ports. concluding. Qed.

#[export] Hint Resolve set_ports_total : total.

Lemma tun_write_total R a seg : concluded (TCPOverIPv4OverTunFdAdapter.write R a seg).
Proof. unfold TCPOverIPv4OverTunFdAdapter.write, TCPOverIPv4Adapter.wrap_tcp_in_ip. concluding. Qed.

Lemma unwrap_fine R `{!SoundResolver R} a d : one_buffer (two32 - 1) d ->
  yields (TCPOverIPv4Adapter.unwrap_tcp_in_ip R a d) (fun '(_, seg) => Forall seg_fine (option_list seg)).
Proof.
  intros (b & Hb & Hroom). unfold TCPOverIPv4Adapter.unwrap_tcp_in_ip. cbv zeta.
  eapply yields_bind with (P := fun _ => True); [concluding|]. intros to_us _. destruct (negb to_us); [by constructor|].
  eapply yields_bind with (P := fun _ => True); [concluding|]. intros from _. destruct (negb from); [by constructor|].
  destruct (negb (_ =? _)); [by constructor|]. rewrite Hb. cbn [BufferList.to_buffer BufferList.of_buffer mbind outcome_bind].
  eapply yields_bind; [apply segment_fits; [apply pseudo_sum|lia]|]. intros [r seg] Hseg.
  destruct (negb _); [by constructor|]. eapply yields_bind; [apply port_total|]. intros p _. destruct (negb _); [by constructor|].
  eapply yields_bind with (P := fun _ => True); [concluding|]. intros [a' dropped] _. destruct dropped; [by constructor|].
  eapply yields_bind; [apply port_total|]. intros p' _. destruct (negb _); [by constructor|]. simpl. by apply Forall_singleton.
Qed.

Lemma tun_read_fine R `{!SoundResolver R} a data : zlen data < two32 ->
  yields (TCPOverIPv4OverTunFdAdapter.read R a data) (fun '(_, seg) => Forall seg_fine (option_list seg)).
Proof.
  intros Hd. unfold TCPOverIPv4OverTunFdAdapter.read. eapply yields_bind; [apply datagram_one_buffer|].
  intros [r d] (b & Hb & Hroom). destruct (negb _); [by constructor|]. apply (unwrap_fine R).
  change (room (Buffer.of_string data)) with (zlen data) in Hroom. exists b. split; [done|lia].
Qed.

Lemma udp_read_fine a source (payload : list byte) : zlen payload <= 65536 ->
  yields (TCPOverUDPSocketAdapter.read a (source, payload)) (fun '(_, seg) => Forall seg_fine (option_list seg)).
Proof.
  intros Hp. unfold TCPOverUDPSocketAdapter.read. destruct (negb _ && negb _); [by constructor|].
  eapply yields_bind; [apply segment_fits; [done|]|].
  { change (room (Buffer.of_string payload)) with (zlen payload). lia. }
  intros [r seg] Hseg. destruct (negb _); [by constructor|]. destruct (FdAdapterBase.listening a); [|by apply Forall_singleton].
  destruct (_ && _); [by apply Forall_singleton|by constructor].
Qed.

Lemma udp_write_total R a seg : concluded (TCPOverUDPSocketAdapter.write R a seg).
Proof. unfold TCPOverUDPSocketAdapter.write. concluding. Qed.

Lemma wrap_total R a seg : concluded (TCPOverIPv4Adapter.wrap_tcp_in_ip R a seg).
Proof. unfold TCPOverIPv4Adapter.wrap_tcp_in_ip. concluding. Qed.

(** [recvfrom] stores as much of the address as it says. *)
Class SoundSockets {K} (net : SocketCalls K) : Prop := {
  recvfrom_length k fd n fl len r e data addr n' k' :
    sys_recvfrom net k fd n fl len = (r, e, (data, (addr, n')), k') -> n' <= zlen addr
}.

Section quiet_adapters.

Context {K T : Type} (sys : Kernel K) (net : SocketCalls K)
  (sys_poll : K -> list EventLoop.pollfd -> Z -> Z * Z * list EventLoop.pollfd * K)
  (R : Address.Resolver) `{!SoundResolver R} (self : K -> T) (set_self : T -> K -> K) (sent got : K -> Z -> list byte)
  `{!PosixKernel sys sent} `{!LoggedKernel sys net sys_poll self set_self sent got} (tfd : Z).

#[local] Abbreviation W := (FileDescriptor.world (K := K)).
#[local] Abbreviation undisturbed := (undisturbed self sent got tfd).

Lemma device_read_wp h w : device_at tfd h (numbers w) ->
  wp (FileDescriptor.read sys h SpongeSocket.SIZE_MAX) (fun data w' => undisturbed w w' /\ zlen data < two32) (undisturbed w) w.
Proof.
  intros Hd. pose proof (wp_device self sent got tfd h (FileDescriptor.read sys h SpongeSocket.SIZE_MAX)
    (fun _ w' => undisturbed w w') w Hd) as H.
  specialize (H ltac:(by eapply read_elsewhere) ltac:(apply read_answers) ltac:(done)). unfold wp in *.
  destruct (FileDescriptor.read sys h SpongeSocket.SIZE_MAX w) as [[data|e| |] w1] eqn:Er; try done. split; [done|]. by eapply read_length.
Qed.

Lemma device_write_wp h b w : device_at tfd h (numbers w) ->
  wp (FileDescriptor.write sys h b true) (fun _ => undisturbed w) (undisturbed w) w.
Proof.
  intros Hd. eapply (wp_device self sent got tfd h); [done|by eapply write_elsewhere|by eapply write_answers|done].
Qed.

Lemma undisturbed_numbers w w' : undisturbed w w' -> numbers w' = numbers w.
Proof. intros (Hf & _). unfold numbers. by rewrite Hf. Qed.

#[export] Instance tun_quiet : @QuietAdapter K tun_adapter (tun_sponge_adapter sys R) T self sent got tfd (tun_live tfd).
Proof.
  split; cycle -1; [done|..].
  - intros a w Hl. simpl. apply wp_bind. eapply wp_mono; [by apply device_read_wp| |done]. intros data w1 [Hw Hd].
    apply wp_bind. eapply wp_pure; [by apply (tun_read_fine R)| |done]. intros [b seg] Hseg. apply wp_ret. by split_and!.
  - intros a seg w Hl. simpl. apply wp_bind. eapply wp_pure; [apply tun_write_total| |done].
    intros [[b s] out] _. apply wp_bind. eapply wp_mono; [by apply device_write_wp| |done]. intros n w' Hw. apply wp_ret. by split.
  - intros a ms w Hl. simpl. apply wp_ret. by split.
Qed.

(** *** UDP *)

Lemma recv_undisturbed `{!SoundSockets net} h mtu w : is_Some (fds w !! h) -> 0 <= mtu < two32 ->
  wp (UDPSocket.recv net h mtu) (fun rec w' => undisturbed w w' /\ zlen (UDPSocket.payload rec) <= mtu) (undisturbed w) w.
Proof.
  intros [[fd n] Hh] Hmtu. unfold UDPSocket.recv. apply wp_bind. eapply wp_fd_num; [done|]. apply wp_bind. unfold wp at 1, system_call.
  destruct (sys_recvfrom net _ _ _ _ _) as [[[r e] [data [addr len]]] k] eqn:Er. pose proof (recvfrom_length _ _ _ _ _ _ _ _ _ _ _ Er) as Hlen.
  pose proof (logged_recvfrom (sys := sys) (sys_poll := sys_poll) (set_self := set_self)
    (FileDescriptor.kernel w) fd mtu Socket.MSG_TRUNC Address.STORAGE_SIZE) as Hq.
  rewrite Er in Hq. simpl in Hq. assert (Hu : undisturbed w (FileDescriptor.set_kernel k w)) by (destruct Hq as (? & ? & ?); by split_and!).
  unfold SystemCall. destruct (_ || _); [|done]. replace (s64 mtu) with mtu by (unfold s64; rewrite Z.mod_small by lia; lia).
  destruct (Z.ltb_spec mtu (s32 r)); [done|]. apply wp_bind.
  assert (Hreg : undisturbed w (FileDescriptor.register_read h (FileDescriptor.set_kernel k w)).2).
  { etrans; [exact Hu|]. split_and!; try done. by apply update_fds. }
  unfold wp at 1. change (FileDescriptor.register_read h (FileDescriptor.set_kernel k w)) with
    (Ok tt, (FileDescriptor.register_read h (FileDescriptor.set_kernel k w)).2). cbv beta iota.
  apply wp_bind. eapply (wp_pure _ (fun _ => True)); [|intros a _|exact Hreg].
  - unfold Address.of_sockaddr. destruct (_ <? len); [done|]. destruct (Z.ltb_spec (zlen addr) len); [lia|done].
  - destruct (Z.ltb_spec (s32 r) 0); [exact Hreg|]. apply wp_ret. split; [exact Hreg|]. simpl.
    unfold str_resize at 1. rewrite zlen_app, zlen_ztake, length_replicate. lia.
Qed.

Lemma sendto_undisturbed h a b w : is_Some (fds w !! h) ->
  wp (UDPSocket.sendto net h a b) (fun _ => undisturbed w) (undisturbed w) w.
Proof.
  intros Hh. eapply (wp_call _ (calm self sent got)); [apply sendto_answers| |done|..].
  - unfold UDPSocket.sendto, UDPSocket.sendmsg_helper, FileDescriptor.fd_num. respecting; try (by apply update_calm); try (by intros v).
    apply system_call_calm. intros k. apply (logged_sendmsg (sys := sys) (sys_poll := sys_poll) (set_self := set_self)).
  - intros u w' [Hf (Q1 & Q2 & Q3)]. by split_and!.
  - intros w' [Hf (Q1 & Q2 & Q3)]. by split_and!.
Qed.

Lemma device_there h (w : W) : device_at tfd h (numbers w) -> is_Some (fds w !! h).
Proof.
  intros (fd & Hfd & _). unfold numbers in Hfd. rewrite lookup_fmap in Hfd. destruct (fds w !! h) as [x|]; [by exists x|done].
Qed.

#[export] Instance udp_quiet `{!SoundSockets net} :
  @QuietAdapter K udp_adapter (udp_sponge_adapter net R) T self sent got tfd (udp_live tfd).
Proof.
  split; cycle -1; [done|..].
  - intros a w Hl. simpl. apply wp_bind. eapply wp_mono; [apply recv_undisturbed; [by eapply device_there|done]| |done].
    intros [source payload] w1 [Hw Hd]. simpl in Hd. apply wp_bind. eapply wp_pure; [apply udp_read_fine, Hd| |done].
    intros [b seg] Hseg. apply wp_ret. by split_and!.
  - intros a seg w Hl. simpl. apply wp_bind. eapply wp_pure; [apply udp_write_total| |done].
    intros [[b s] [dst out]] _. apply wp_bind. eapply wp_mono; [apply sendto_undisturbed; by eapply device_there| |done].
    intros u w' Hw. apply wp_ret. by split.
  - intros a ms w Hl. simpl. apply wp_ret. by split.
Qed.

(** *** Ethernet *)

Lemma write_frames_undisturbed tap frames w : device_at tfd tap (numbers w) ->
  wp (EthAdapter.write_frames sys tap frames) (fun _ => undisturbed w) (undisturbed w) w.
Proof.
  revert w. induction frames as [|f frames IH]; intros w Hd; cbn [EthAdapter.write_frames]; [by apply wp_ret|].
  apply wp_bind. eapply wp_mono; [by apply device_write_wp| |done]. intros n w1 H1.
  eapply wp_mono; [apply IH; by rewrite (undisturbed_numbers _ _ H1)|..].
  - intros u w2 H2. etrans; [exact H1|exact H2].
  - intros w2 H2. etrans; [exact H1|exact H2].
Qed.

Lemma send_pending_undisturbed a w : eth_live tfd a (numbers w) ->
  wp (EthAdapter.send_pending sys a) (fun a' w' => undisturbed w w' /\ eth_live tfd a' (numbers w)) (undisturbed w) w.
Proof.
  intros Hl. unfold EthAdapter.send_pending. destruct (TCPOverIPv4OverEthernetAdapter.send_pending _) as [e out].
  apply wp_bind. eapply wp_mono; [by apply write_frames_undisturbed| |done]. intros u w' Hw. by apply wp_ret.
Qed.

#[export] Instance eth_quiet : @QuietAdapter K EthAdapter.t (eth_sponge_adapter sys R) T self sent got tfd (eth_live tfd).
Proof.
  split; cycle -1; [done|..]; simpl.
  - intros a w Hl. unfold EthAdapter.read. apply wp_bind. eapply wp_mono; [by apply device_read_wp| |done]. intros data w1 [Hw Hd].
    apply wp_bind. eapply wp_pure; [apply frame_one_payload| |done]. intros [r frame] Hf.
    destruct (negb _); [apply wp_ret; by split_and!|]. apply wp_bind. eapply wp_pure; [by apply recv_frame_one_buffer| |done].
    intros [n d] Hn. apply wp_bind. eapply wp_mono; [apply send_pending_undisturbed; by rewrite (undisturbed_numbers _ _ Hw)|..].
    2:{ intros w2 H2. etrans; [exact Hw|exact H2]. }
    intros a' w2 [H2 Hl2]. rewrite (undisturbed_numbers _ _ Hw) in Hl2. assert (Hw2 : undisturbed w w2) by (etrans; [exact Hw|exact H2]).
    destruct d as [d|]; [|apply wp_ret; by split_and!]. apply wp_bind.
    eapply wp_pure; [apply (unwrap_fine R)| |done].
    + apply Forall_singleton in Hn as (b & Hb & Hroom). exists b. split; [done|].
      change (room (Buffer.of_string data)) with (zlen data) in Hroom. lia.
    + intros [b seg] Hseg. apply wp_ret. by split_and!.
  - intros a seg w Hl. unfold EthAdapter.write. apply wp_bind. eapply (wp_pure _ (fun _ => True)); [apply wrap_total| |done].
    intros [s d] _. apply wp_bind. eapply wp_pure; [apply send_datagram_grows| |done]. intros n _. by apply send_pending_undisturbed.
  - intros a ms w Hl. unfold EthAdapter.tick. by apply send_pending_undisturbed.
Qed.

End quiet_adapters.

(** *** The lossy adapter *)

(** The lossy adapter keeps the promises of the one inside. *)
#[export] Instance lossy_quiet {K A Rand T} `{!SpongeAdapter (FileDescriptor.world (K := K)) A} (R : Address.Resolver)
  (_rand : Rand -> Z * Rand) (self : K -> T) sent got tfd live :
  QuietAdapter self sent got tfd live ->
  @QuietAdapter K (lossy Rand A) (lossy_sponge_adapter R _rand) T self sent got tfd (fun l F => live (_inner l) F).
Proof.
  assert (Hd : forall l up, _inner (lossy_drops R _rand l up).2 = _inner l).
  { intros l up. unfold lossy_drops. by destruct (LossyFdAdapter._should_drop _ _ _ _). }
  intros [Hr Hw Ht Hb]. split; simpl.
  - intros l w Hl. apply wp_bind. eapply wp_mono; [by apply Hr| |done]. intros [a seg] w' (H1 & H2 & H3).
    pose proof (Hd (Lossy (_rand_state l) a) false) as Hi. destruct (lossy_drops _ _ _ _) as [drop l']. simpl in Hi.
    apply wp_ret. rewrite Hi. split; [done|]. split; [done|]. by destruct drop; [constructor|].
  - intros l seg w Hl. pose proof (Hd l true) as Hi. destruct (lossy_drops _ _ _ _) as [drop l']. simpl in Hi.
    destruct drop; [apply wp_ret; by rewrite Hi|]. apply wp_bind. rewrite Hi. eapply wp_mono; [by apply Hw| |done].
    intros a w' H. by apply wp_ret.
  - intros l ms w Hl. apply wp_bind. eapply wp_mono; [by apply Ht| |done]. intros a w' H. by apply wp_ret.
  - intros l b F Hl. by apply Hb.
Qed.
