(* ===== verification/Sessions.v ===== *)
(** * Sessions.v: sockets over TUN devices, from owner to owner

    Two sockets ([libsponge/tcp_helpers/tcp_sponge_socket.cc]) that connect over any adapters
    that keep their promises carry the bytes of one owner to the other; the run of a client and
    a server over TUN devices is evaluated. *)

From stdpp Require Import gmap list pretty.
From S2P Require Import Prelude Wrapping Streams Reassembler Buffers Parsing TcpWire Receiver Sender Connection TcpState.
From S2P Require Import IpWire Addresses Adapters Totality FileDesc EventLoop Sockets Handles StreamCopy SpongeSocket Transfer Endpoint SpongeThread Devices.

(** ** A host with a TUN device

    What can be read from the descriptors and the datagrams that arrive come from scripts; what
    was read and written is logged, up to a limit beyond which nothing more is read or written. *)
Record user := User { u_shown : list byte; u_locals : StreamCopy.t }.

Record scripted (A : Type) := TunMachine {
  tm_user : user;
  tm_self : TCPSpongeSocket.t (recording A);
  tm_unread : gmap Z (list byte);
  tm_device : list (list byte);
  tm_got : gmap Z (list byte);
  tm_sent : gmap Z (list byte);
  tm_datagrams : list (list byte);
  tm_polls : Z
}.
Arguments TunMachine {A}.
Arguments tm_user {A}.
Arguments tm_self {A}.
Arguments tm_unread {A}.
Arguments tm_device {A}.
Arguments tm_got {A}.
Arguments tm_sent {A}.
Arguments tm_datagrams {A}.
Arguments tm_polls {A}.

Definition LIMIT : Z := 65535.

Definition log_of (m : gmap Z (list byte)) (fd : Z) : list byte := ztake LIMIT (default [] (m !! fd)).

Section scripted.

Context {A : Type}.

Definition unread (k : scripted A) (fd : Z) : list byte := default [] (tm_unread k !! fd).
Definition tun_got (k : scripted A) (fd : Z) : list byte := log_of (tm_got k) fd.
Definition tun_sent (k : scripted A) (fd : Z) : list byte := log_of (tm_sent k) fd.

Definition tm_shown (k : scripted A) : list byte := u_shown (tm_user k).
Definition tm_locals (k : scripted A) : StreamCopy.t := u_locals (tm_user k).
Definition tm_set_user u (k : scripted A) : scripted A :=
  TunMachine u (tm_self k) (tm_unread k) (tm_device k) (tm_got k) (tm_sent k) (tm_datagrams k) (tm_polls k).
Definition tm_set_shown s (k : scripted A) : scripted A := tm_set_user (User s (tm_locals k)) k.
Definition tm_set_locals s (k : scripted A) : scripted A := tm_set_user (User (tm_shown k) s) k.
Definition tm_set_self s (k : scripted A) : scripted A :=
  TunMachine (tm_user k) s (tm_unread k) (tm_device k) (tm_got k) (tm_sent k) (tm_datagrams k) (tm_polls k).

(** Handles and descriptors as before: 10 is the owner's end of the pair, 11 the thread's, 12
    the device. *)
Definition tun_kernel : Kernel (scripted A) := {|
  sys_read k fd n :=
    let room := Z.min (Z.min LIMIT n) (LIMIT - zlen (tun_got k fd)) in
    let took data k' := (zlen data, 0, data, TunMachine (tm_user k) (tm_self k) (tm_unread k') (tm_device k')
      (<[fd := tun_got k fd ++ data]> (tm_got k)) (tm_sent k) (tm_datagrams k) (tm_polls k)) in
    if fd =? 12 then
      match tm_device k with
      | [] => (-1, EAGAIN, [], k)
      | d :: rest => took (ztake room d) (TunMachine (tm_user k) (tm_self k) (tm_unread k) rest (tm_got k) (tm_sent k) (tm_datagrams k) (tm_polls k))
      end
    else took (ztake room (unread k fd))
      (TunMachine (tm_user k) (tm_self k) (<[fd := zdrop room (unread k fd)]> (tm_unread k)) (tm_device k) (tm_got k) (tm_sent k) (tm_datagrams k) (tm_polls k));
  sys_writev k fd iov :=
    let data := ztake (LIMIT - zlen (tun_sent k fd)) (concat iov.*1) in
    (zlen data, 0, TunMachine (tm_user k) (tm_self k) (tm_unread k) (tm_device k) (tm_got k) (<[fd := tun_sent k fd ++ data]> (tm_sent k))
       (if fd =? 12 then tm_datagrams k ++ [data] else tm_datagrams k) (tm_polls k));
  sys_close k _ := (0, 0, k);
  sys_getfl k _ := (0, 0, k);
  sys_setfl k _ _ := (0, 0, k)
|}.

(** The device can be opened once, and there are no other sockets. *)
Definition EMFILE : Z := 24.

Definition tun_net : SocketCalls (scripted A) := {|
  sys_socket k _ _ _ := (-1, EMFILE, tt, k);
  sys_getsockopt k _ _ _ _ := (0, 0, (1, Socket.SIZEOF_INT), k);
  sys_setsockopt k _ _ _ _ := (0, 0, tt, k);
  sys_getsockname k _ _ := (0, 0, ([], 0), k);
  sys_getpeername k _ _ := (0, 0, ([], 0), k);
  sys_bind k _ _ _ := (0, 0, tt, k);
  sys_connect k _ _ _ := (0, 0, tt, k);
  sys_shutdown k _ _ := (0, 0, tt, k);
  sys_listen k _ _ := (0, 0, tt, k);
  sys_accept k _ := (-1, EAGAIN, tt, k);
  sys_recvfrom k _ _ _ _ := (-1, EAGAIN, ([], ([], 0)), k);
  sys_sendmsg k _ _ _ _ _ := (-1, EAGAIN, tt, k);
  sys_open k _ _ :=
    if bool_decide (is_Some (tm_sent k !! 12)) then (-1, EMFILE, tt, k)
    else (12, 0, tt, TunMachine (tm_user k) (tm_self k) (tm_unread k) (tm_device k) (tm_got k) (<[12 := []]> (tm_sent k)) (tm_datagrams k) (tm_polls k));
  sys_tunsetiff k _ _ := (0, 0, tt, k)
|}.

(** The device can be read when a datagram waits, the owner's end at any time. *)
Definition tun_poll (k : scripted A) (ps : list EventLoop.pollfd) (_ : Z) : Z * Z * list EventLoop.pollfd * scripted A :=
  (zlen ps, 0, (fun p => EventLoop.Pollfd (EventLoop.p_fd p) (EventLoop.events p)
     (Z.lor EventLoop.POLLOUT (if (EventLoop.p_fd p =? 12) && bool_decide (tm_device k = []) then 0 else EventLoop.POLLIN))) <$> ps,
   TunMachine (tm_user k) (tm_self k) (tm_unread k) (tm_device k) (tm_got k) (tm_sent k) (tm_datagrams k) (tm_polls k + 1)).

Definition tun_clock (k : scripted A) : Z * scripted A := (10 * tm_polls k, k).

(** The owner asks the thread to stop after thirty rounds. *)
Definition tun_aborted (k : scripted A) : bool := 30 <=? tm_polls k.

End scripted.

#[local] Abbreviation tun_machine := (scripted (lossy Z tun_adapter)).

(** The adapter of [tcp_ipv4], which draws the numbers from the seed on. *)
Definition tun_lossy_adapter : SpongeAdapter (FileDescriptor.world (K := tun_machine)) (lossy Z tun_adapter) :=
  @lossy_sponge_adapter _ Z _ (tun_sponge_adapter tun_kernel numeric_resolver) numeric_resolver (fun g => (g, g + 1)).

Definition scripted_host {A} (calls : SpongeAdapter (FileDescriptor.world (K := scripted A)) A) (own thread_data tfd : Z) (live : A -> gmap Z Z -> Prop) : host :=
  Host (scripted A) (recording A) tun_kernel tun_net tun_poll tun_clock tun_aborted numeric_resolver tm_self tm_set_self
    (@recording_adapter _ _ calls) tun_sent tun_got own thread_data tfd (fun r F => live (recorded r) F) rec_heard rec_said.

Definition tun_host : host := scripted_host tun_lossy_adapter 0 1 11 (fun l F => tun_live 11 (_inner l) F).

Lemma log_insert m fd fd' (data : list byte) : zlen data <= LIMIT - zlen (log_of m fd) ->
  log_of (<[fd := log_of m fd ++ data]> m) fd' = if decide (fd' = fd) then log_of m fd ++ data else log_of m fd'.
Proof.
  intros Hl. unfold log_of at 1. destruct (decide (fd' = fd)) as [->|]; [|by rewrite lookup_insert_ne].
  rewrite lookup_insert_eq. simpl. apply ztake_ge. rewrite zlen_app. lia.
Qed.

Lemma log_small m fd : zlen (log_of m fd) <= LIMIT.
Proof. unfold log_of. rewrite zlen_ztake. unfold LIMIT. lia. Qed.

#[export] Instance tun_posix {A} : PosixKernel (tun_kernel (A := A)) tun_sent.
Proof.
  split; simpl.
  - intros k fd iov r e k' [= <- <- <-]. pose proof (zlen_nonneg (concat iov.*1)). pose proof (log_small (tm_sent k) fd).
    unfold tun_sent in *. rewrite zlen_ztake. unfold LIMIT in *.
    split; [lia|]. split; [lia|]. split; [lia|]. simpl. rewrite log_insert, decide_True by (rewrite ?zlen_ztake; unfold LIMIT; done || lia).
    f_equal. destruct (Z.leb_spec (zlen (concat iov.*1)) (65535 - zlen (log_of (tm_sent k) fd)));
      [rewrite !ztake_ge; done || lia|f_equal; lia].
  - intros k fd n r e data k' Hn. pose proof (log_small (tm_got k) fd). unfold tun_got, LIMIT in *.
    destruct (fd =? 12); [destruct (tm_device k) as [|d rest]|]; intros [= <- <- <- <-].
    + unfold EAGAIN. repeat split; lia.
    + pose proof (zlen_nonneg d). rewrite zlen_ztake. repeat split; lia.
    + pose proof (zlen_nonneg (unread k fd)). rewrite zlen_ztake. repeat split; lia.
Qed.

(** The memory of the machine: the object and what was shown. *)
Lemma tun_logs {A T} (self : scripted A -> T) set_self :
  (forall s k, self (set_self s k) = s /\ tm_got (set_self s k) = tm_got k /\ tm_sent (set_self s k) = tm_sent k) ->
  (forall k k', tm_self k' = tm_self k -> tm_user k' = tm_user k -> self k' = self k) ->
  LoggedKernel tun_kernel tun_net tun_poll self set_self tun_sent tun_got.
Proof.
  intros Hset Hself. split; try done; try (by intros; split; [by apply Hself|]).
  { intros s k. apply Hset. }
  { intros s k fd. unfold tun_sent. by destruct (Hset s k) as (_ & _ & ->). }
  { intros s k fd. unfold tun_got. by destruct (Hset s k) as (_ & -> & _). }
  - intros k fd n r e data k'. simpl. pose proof (log_small (tm_got k) fd). unfold tun_got in *.
    assert (Hcut : forall d : list byte, zlen (ztake (Z.min (Z.min LIMIT n) (LIMIT - zlen (log_of (tm_got k) fd))) d) <=
      LIMIT - zlen (log_of (tm_got k) fd)) by (intros d; rewrite zlen_ztake; lia).
    assert (Hlog : forall d fd', zlen d <= LIMIT - zlen (log_of (tm_got k) fd) ->
      log_of (<[fd := log_of (tm_got k) fd ++ d]> (tm_got k)) fd' = log_of (tm_got k) fd' ++ (if decide (fd' = fd /\ 0 <= zlen d) then d else [])).
    { intros d fd' Hd. rewrite log_insert by done. pose proof (zlen_nonneg d). destruct (decide (fd' = fd)) as [->|Hne].
      - by rewrite decide_True.
      - rewrite decide_False, app_nil_r by tauto. done. }
    destruct (fd =? 12); [destruct (tm_device k) as [|d rest]|]; intros [= <- <- <- <-]; (split; [by apply Hself|]); (split; [done|]); intros fd'; simpl.
    + rewrite decide_False by lia. by rewrite app_nil_r.
    + by apply Hlog.
    + by apply Hlog.
  - intros k fd iov r e k' [= <- <- <-]. split; [by apply Hself|]. split; [|done]. intros fd' Hne. unfold tun_sent. simpl.
    rewrite log_insert, decide_False by (rewrite ?zlen_ztake; pose proof (log_small (tm_sent k) fd); done || (unfold tun_sent; lia)). done.
Qed.

#[export] Instance tun_logged {A} : LoggedKernel (tun_kernel (A := A)) tun_net tun_poll tm_self tm_set_self tun_sent tun_got.
Proof. by apply tun_logs. Qed.

#[export] Instance tun_shows {A} : LoggedKernel (tun_kernel (A := A)) tun_net tun_poll tm_shown tm_set_shown tun_sent tun_got.
Proof. apply tun_logs; [done|]. unfold tm_shown. by intros k k' _ ->. Qed.

#[export] Instance tun_copies {A} : LoggedKernel (tun_kernel (A := A)) tun_net tun_poll tm_locals tm_set_locals tun_sent tun_got.
Proof. apply tun_logs; [done|]. unfold tm_locals. by intros k k' _ ->. Qed.

#[export] Instance tun_poll_posix {A} : PosixPoll (tun_poll (A := A)).
Proof. split. intros k ps t r e ps' k' [= <- <- <- <-]. induction ps; constructor; auto. Qed.

Lemma scripted_host_ok {A} (calls : SpongeAdapter (FileDescriptor.world (K := scripted A)) A) own thread_data tfd live :
  QuietAdapter tm_self tun_sent tun_got tfd live -> HostOk (scripted_host calls own thread_data tfd live).
Proof.
  intros Hq. split; simpl; try apply _.
  - done.
  - intros k. pose proof (log_small (tm_got k) tfd). pose proof (log_small (tm_sent k) tfd). unfold tun_got, tun_sent, LIMIT in *. lia.
Qed.

Lemma tun_lossy_quiet tfd : @QuietAdapter _ _ tun_lossy_adapter _ tm_self tun_sent tun_got tfd (fun l F => tun_live tfd (_inner l) F).
Proof. apply lossy_quiet. eapply tun_quiet; apply _. Qed.

#[export] Instance tun_host_ok : HostOk tun_host.
Proof. apply scripted_host_ok, tun_lossy_quiet. Qed.

(** ** Properties *)

(** C26. The adapters of the programs are fit for a socket.  On every machine that keeps its
    promises, whatever the device or the network delivers, reading from and writing to a TUN
    device, a UDP socket, a TAP device with its network interface, and the lossy version of any
    of these return or throw, never reach undefined behaviour, touch neither the owner's
    descriptor nor the socket's object, keep the device, and return only segments whose fields
    have the sizes of the wire. *)
Theorem adapters_keep_promises {K T Rand} (sys : Kernel K) (net : SocketCalls K) sys_poll (R : Address.Resolver)
  (_rand : Rand -> Z * Rand) (self : K -> T) (set_self : T -> K -> K) (sent got : K -> Z -> list byte) (tfd : Z)
  (HR : SoundResolver R) (Hnet : SoundSockets net) (Hposix : PosixKernel sys sent)
  (Hlog : LoggedKernel sys net sys_poll self set_self sent got) :
  (let _ := tun_sponge_adapter sys R in QuietAdapter self sent got tfd (tun_live tfd)) /\
  (let _ := udp_sponge_adapter net R in QuietAdapter self sent got tfd (udp_live tfd)) /\
  (let _ := eth_sponge_adapter sys R in QuietAdapter self sent got tfd (eth_live tfd)) /\
  (forall A (ad : SpongeAdapter FileDescriptor.world A) live, QuietAdapter self sent got tfd live ->
     let _ := lossy_sponge_adapter R _rand in
     QuietAdapter self sent got tfd (fun (l : lossy Rand A) F => live (_inner l) F)).
Proof.
  split; [by eapply tun_quiet|]. split; [by eapply udp_quiet|]. split; [by eapply eth_quiet|]. intros A ad live H. by apply lossy_quiet.
Qed.

(** C3. The socket is a TCP endpoint.  However long the threads of a socket run, on whatever
    machine, with whatever the owner, the network and the clock do, [connect] or
    [listen_and_accept] followed by [wait_until_closed] or the destructor never reaches undefined behaviour, and what it
    has done, however it ends, is a path of the endpoint of Endpoint.v: the bytes read from the
    owner are those written to the endpoint, the bytes the owner was given are those read from
    it, and what came and went through the adapter is what the endpoint heard and said.  When
    the thread has ended without an exception the connection is gone, and with the stop flag set
    its loops end within their first round. *)
Theorem socket_refines_endpoint (h : host) (Hh : HostOk h) (active_open : bool)
  (set_abort : option (h_state h -> h_state h)) (fuel fuel' : nat) (cfg : TCPConfig.t) (random : Z) (c_ad : FdAdapterConfig.t)
  (w : FileDescriptor.world) (Hw : fresh_socket h w) (Hcfg : config_ok cfg random) (Habort : abort_ok h set_abort) :
  let '(o, (_, w')) := session h active_open set_abort fuel fuel' cfg random c_ad ([], w) in
  o <> Undefined /\ ((0 < fuel)%nat -> (0 < fuel')%nat -> (forall k, h_aborted h k = true) -> o <> OutOfFuel) /\
  (o = Ok TCPSpongeSocket.Joined -> TCPSpongeSocket._tcp (h_self h (FileDescriptor.kernel w')) = None) /\
  exists e heard said, travelled h cfg random w w' e heard said.
Proof. by apply session_spec. Qed.

(** C2. From owner to owner.  Two sockets on two machines, each with its own adapter, connect and
    run for as long as they like; if every segment the second one's adapter returned is one
    that was given to the first one's adapter, up to ports, checksum and buffers, then the bytes the second owner has been given are a prefix of
    those read from the first owner: nothing is lost in the middle, repeated, reordered or made
    up, whatever the network loses, repeats and reorders.  The stream is shorter than 2 GiB. *)
Theorem sockets_transfer (h1 h2 : host) (H1 : HostOk h1) (H2 : HostOk h2) (active1 active2 : bool)
  (abort1 : option (h_state h1 -> h_state h1)) (abort2 : option (h_state h2 -> h_state h2)) (n1 m1 n2 m2 : nat)
  (cfg1 cfg2 : TCPConfig.t) (random1 random2 : Z) (c_ad1 c_ad2 : FdAdapterConfig.t) (w1 w2 : FileDescriptor.world)
  (Hw1 : fresh_socket h1 w1) (Hw2 : fresh_socket h2 w2) (Hcfg1 : config_ok cfg1 random1) (Hcfg2 : config_ok cfg2 random2)
  (Habort1 : abort_ok h1 abort1) (Habort2 : abort_ok h2 abort2) :
  let '(_, (_, w1')) := session h1 active1 abort1 n1 m1 cfg1 random1 c_ad1 ([], w1) in
  let '(_, (_, w2')) := session h2 active2 abort2 n2 m2 cfg2 random2 c_ad2 ([], w2) in
  exists written said heard delivered,
    h_got h1 (FileDescriptor.kernel w1') (h_tfd h1) = h_got h1 (FileDescriptor.kernel w1) (h_tfd h1) ++ written /\
    h_said h1 (TCPSpongeSocket._datagram_adapter (h_self h1 (FileDescriptor.kernel w1'))) =
      h_said h1 (TCPSpongeSocket._datagram_adapter (h_self h1 (FileDescriptor.kernel w1))) ++ said /\
    h_heard h2 (TCPSpongeSocket._datagram_adapter (h_self h2 (FileDescriptor.kernel w2'))) =
      h_heard h2 (TCPSpongeSocket._datagram_adapter (h_self h2 (FileDescriptor.kernel w2))) ++ heard /\
    h_sent h2 (FileDescriptor.kernel w2') (h_tfd h2) = h_sent h2 (FileDescriptor.kernel w2) (h_tfd h2) ++ delivered /\
    ((forall seg, seg ∈ heard -> exists seg', seg' ∈ said /\ seg_equiv seg seg') -> zlen written + 2 < two31 -> delivered `prefix_of` written).
Proof.
  pose proof (session_spec h1 active1 abort1 n1 m1 cfg1 random1 c_ad1 w1 Hw1 Hcfg1 Habort1) as S1.
  pose proof (session_spec h2 active2 abort2 n2 m2 cfg2 random2 c_ad2 w2 Hw2 Hcfg2 Habort2) as S2.
  destruct (session h1 _ _ _ _ _ _ _ _) as [o1 [rules1 w1']]. destruct (session h2 _ _ _ _ _ _ _ _) as [o2 [rules2 w2']].
  destruct S1 as (_ & _ & _ & e1 & hs1 & ss1 & [(c1 & Hm1 & Hp1) Hf1 Hg1 Hs1 Hh1 Hd1]).
  destruct S2 as (_ & _ & _ & e2 & hs2 & ss2 & [(c2 & Hm2 & Hp2) Hf2 Hg2 Hs2 Hh2 Hd2]).
  exists (Transfer.written e1), ss1, hs2, (delivered e2). split_and!; try done. intros Hnet Hshort.
  destruct (ho_small (h := h1) (FileDescriptor.kernel w1')) as [_ B1]. rewrite Hs1, zlen_app in B1.
  destruct (ho_small (h := h2) (FileDescriptor.kernel w2')) as [_ B2]. rewrite Hs2, zlen_app in B2.
  pose proof (zlen_nonneg (h_sent h1 (FileDescriptor.kernel w1) (h_tfd h1))).
  pose proof (zlen_nonneg (h_sent h2 (FileDescriptor.kernel w2) (h_tfd h2))).
  destruct (paths_transfer cfg1 cfg2 random1 random2 c1 c2 hs1 ss1 e1 hs2 ss2 e2) as [[rest Hrest] _]; try done; [lia|lia|].
  unfold received in Hrest. rewrite <- app_assoc in Hrest. by eexists.
Qed.

(** ** A client sends five bytes to a server *)

Definition client_address : Address.t := inet_address 167772161 5000.
Definition server_address : Address.t := inet_address 167772162 1234.

Definition client_ad : FdAdapterConfig.t := FdAdapterConfig.mk client_address server_address 0 0.
Definition server_ad : FdAdapterConfig.t := FdAdapterConfig.mk server_address (inet_address 0 0) 0 0.

Definition session_config (isn : Z) : TCPConfig.t := TCPConfig.mk 1000 64 64 (Some (WrappingInt32.mk isn)).

(** A socket with what can be read from each descriptor and the datagrams that will arrive, and
    one whose owner wants to send the given bytes. *)
Definition tun_script (scripts : gmap Z (list byte)) (device : list (list byte)) : FileDescriptor.world :=
  FileDescriptor.World
    (TunMachine (User [] no_locals) (TCPSpongeSocket.mk (Recording (Lossy 0 (TunAdapter (FdAdapterBase.mk client_ad false) 2)) [] []) None false false false)
       scripts device ∅ ∅ [] 0)
    {[ 0 := (FDWrapper.mk 10 false false 0 0, 1); 1 := (FDWrapper.mk 11 false false 0 0, 1); 2 := (FDWrapper.mk 12 false false 0 0, 1) ]}.

Definition tun_world (owner : list byte) (device : list (list byte)) : FileDescriptor.world := tun_script {[ 11 := owner ]} device.

(** The client destroys its socket, which ends the thread after its time; the server waits. *)
Definition stop {A} (k : scripted A) : scripted A :=
  TunMachine (tm_user k) (tm_self k) (tm_unread k) (tm_device k) (tm_got k) (tm_sent k) (tm_datagrams k) (tm_polls k + 10).

Lemma stop_ok : abort_ok tun_host (Some stop).
Proof. by intros f [= <-]. Qed.

Lemma no_abort_ok : abort_ok tun_host None.
Proof. by intros f. Qed.

Definition client (device : list (list byte)) :=
  session tun_host true (Some stop) 40 40 (session_config 4294967290) 0 client_ad ([], tun_world hello device).
Definition server (device : list (list byte)) :=
  session tun_host false None 40 40 (session_config 77) 0 server_ad ([], tun_world [] device).

(** What a run put on its device. *)
Definition put_out (run : outcome TCPSpongeSocket.thread_end * (list (EventLoop.Rule tun_machine) * FileDescriptor.world (K := tun_machine))) : list (list byte) :=
  tm_datagrams (FileDescriptor.kernel run.2.2).

(** The client hears what the server answers to its first datagram, the server all the client
    then sends. *)
Definition client_hears : list (list byte) := put_out (server (put_out (client []))).
Definition client_run := client client_hears.
Definition server_hears : list (list byte) := put_out client_run.
Definition server_run := server server_hears.

Lemma session_config_ok isn random : 0 <= isn < two32 -> config_ok (session_config isn) random.
Proof. intros H. split; simpl; try lia. by unfold WrappingInt32.ok. Qed.

Lemma tun_script_fresh scripts device : fresh_socket tun_host (tun_script scripts device).
Proof.
  split; try done; try (by eexists).
  change (fds (tun_script scripts device)) with ({[ 0 := (10, 1); 1 := (11, 1); 2 := (12, 1) ]} : gmap Z (Z * Z)).
  apply map_Forall_insert_2; [simpl; lia|]. apply map_Forall_insert_2; [simpl; lia|]. apply map_Forall_singleton. simpl. lia.
Qed.

Lemma tun_world_fresh owner device : fresh_socket tun_host (tun_world owner device).
Proof. apply tun_script_fresh. Qed.

(** Deciding that every segment of a list is one of another. *)
Definition seg_equivb (seg seg' : TCPSegment.t) : bool :=
  TCPHeader.eqb (TCPSegment.header seg) (TCPSegment.header seg') &&
  bool_decide (Buffer.str (TCPSegment.payload seg) = Buffer.str (TCPSegment.payload seg')).

Lemma all_equiv heard said : forallb (fun seg => existsb (seg_equivb seg) said) heard = true ->
  forall seg, seg ∈ heard -> exists seg', seg' ∈ said /\ seg_equiv seg seg'.
Proof.
  rewrite forallb_forall. intros H seg Hin. apply list_elem_of_In in Hin. apply H in Hin. apply existsb_exists in Hin as (seg' & Hs & He).
  exists seg'. split; [by apply list_elem_of_In|]. apply andb_prop in He as [H1 H2%bool_decide_eq_true]. by split.
Qed.

Lemma socket_refines_endpoint_witness :
  client_run.1 = Ok TCPSpongeSocket.Joined /\
  exists e heard said, travelled tun_host (session_config 4294967290) 0 (tun_world hello client_hears) client_run.2.2 e heard said.
Proof.
  split; [vm_compute; reflexivity|].
  pose proof (socket_refines_endpoint tun_host tun_host_ok true (Some stop) 40 40 (session_config 4294967290) 0 client_ad
    (tun_world hello client_hears)
    (tun_world_fresh _ _) (session_config_ok 4294967290 0 ltac:(lia)) stop_ok) as H.
  change (session tun_host true (Some stop) 40 40 (session_config 4294967290) 0 client_ad ([], tun_world hello client_hears)) with client_run in H.
  destruct client_run as [o [rules w']]. apply H.
Defined.

Lemma sockets_transfer_witness :
  client_run.1 = Ok TCPSpongeSocket.Joined /\ server_run.1 = Ok TCPSpongeSocket.Joined /\
  exists written delivered, tun_got (FileDescriptor.kernel client_run.2.2) 11 = written /\
    tun_sent (FileDescriptor.kernel server_run.2.2) 11 = delivered /\ delivered `prefix_of` written /\ delivered = hello.
Proof.
  split; [vm_compute; reflexivity|]. split; [vm_compute; reflexivity|].
  pose proof (sockets_transfer tun_host tun_host tun_host_ok tun_host_ok true false (Some stop) None 40 40 40 40
    (session_config 4294967290) (session_config 77) 0 0 client_ad server_ad
    (tun_world hello client_hears) (tun_world [] server_hears)
    (tun_world_fresh _ _) (tun_world_fresh _ _)
    (session_config_ok 4294967290 0 ltac:(lia)) (session_config_ok 77 0 ltac:(lia)) stop_ok no_abort_ok) as H.
  change (session tun_host true (Some stop) 40 40 (session_config 4294967290) 0 client_ad ([], tun_world hello client_hears)) with client_run in H.
  change (session tun_host false None 40 40 (session_config 77) 0 server_ad ([], tun_world [] server_hears)) with server_run in H.
  assert (Hsaid : forallb (fun seg => existsb (seg_equivb seg) (rec_said (TCPSpongeSocket._datagram_adapter
    (tm_self (FileDescriptor.kernel client_run.2.2))))) (rec_heard (TCPSpongeSocket._datagram_adapter
    (tm_self (FileDescriptor.kernel server_run.2.2)))) = true) by (vm_compute; reflexivity).
  assert (Hgot : tun_got (FileDescriptor.kernel client_run.2.2) 11 = hello) by (vm_compute; reflexivity).
  assert (Hsent : tun_sent (FileDescriptor.kernel server_run.2.2) 11 = hello) by (vm_compute; reflexivity).
  destruct client_run as [o1 [rules1 w1]]. destruct server_run as [o2 [rules2 w2]]. cbn [fst snd] in Hsaid, Hgot, Hsent |- *.
  destruct H as (written & said & heard & delivered & H1 & H2 & H3 & H4 & H5).
  cbn in H1, H2, H3, H4. exists written, delivered. split; [exact H1|]. split; [exact H4|].
  assert (Esaid : said = rec_said (TCPSpongeSocket._datagram_adapter (tm_self (FileDescriptor.kernel w1)))) by (symmetry; exact H2).
  assert (Eheard : heard = rec_heard (TCPSpongeSocket._datagram_adapter (tm_self (FileDescriptor.kernel w2)))) by (symmetry; exact H3).
  assert (Ewritten : written = hello) by (etrans; [symmetry; exact H1|exact Hgot]).
  assert (Edelivered : delivered = hello) by (etrans; [symmetry; exact H4|exact Hsent]).
  split; [|exact Edelivered]. apply H5; [rewrite Esaid, Eheard; by apply all_equiv|]. rewrite Ewritten. reflexivity.
Defined.

#[export] Instance tun_net_sound {A} : SoundSockets (tun_net (A := A)).
Proof. split. by intros k fd n fl len r e data addr n' k' [= <- <- <- <- <- <-]. Qed.

Lemma adapters_keep_promises_witness :
  @QuietAdapter tun_machine (lossy Z tun_adapter) tun_lossy_adapter _ tm_self tun_sent tun_got 11 (fun l F => tun_live 11 (_inner l) F).
Proof.
  pose proof (adapters_keep_promises (tun_kernel (A := lossy Z tun_adapter)) tun_net tun_poll numeric_resolver (fun g => (g, g + 1))
    tm_self tm_set_self tun_sent tun_got 11 _ _ _ _) as (Htun & _ & _ & Hlossy).
  exact (Hlossy _ (tun_sponge_adapter tun_kernel numeric_resolver) _ Htun).
Defined.
