(* ===== verification/Clients.v ===== *)
(** * Clients.v: the programs that copy between a terminal and a sponge socket

    Models the [main] functions of [apps/tcp_ipv4.cc], [apps/tcp_udp.cc] and
    [apps/tcp_ip_ethernet.cc]: each reads its command line (CmdLine.v), makes a socket on a
    device of its own, connects or waits for a peer, hands the socket to
    [bidirectional_stream_copy], and waits until it is closed.  The copy's locals and the
    socket's object are different parts of the memory; the thread of the socket does its work
    where its owner joins it, as in SpongeSocket.v. *)

From stdpp Require Import gmap list pretty.
From S2P Require Import Prelude Wrapping Streams Reassembler Buffers Parsing TcpWire Receiver Sender Connection TcpState.
From S2P Require Import IpWire EtherWire Addresses NetIf Adapters Totality CmdLine FileDesc EventLoop Sockets Handles StreamCopy Programs.
From S2P Require Import SpongeSocket Transfer Endpoint SpongeThread Devices Sessions.

Module SpongeClient.

(** [TUN_DFLT]. *)
Definition TUN_DFLT : string := "tun144".

Section client.

Context {K A : Type} (sys : Kernel K) (net : SocketCalls K)
  (sys_poll : K -> list EventLoop.pollfd -> Z -> Z * Z * list EventLoop.pollfd * K)
  (sys_socketpair : K -> Z -> Z -> Z -> Z * Z * (Z * Z) * K)
  (clock : K -> Z * K) (aborted : K -> bool) (set_abort : K -> K) (R : Address.Resolver)
  (self : K -> TCPSpongeSocket.t A) (set_self : TCPSpongeSocket.t A -> K -> K)
  (locals : K -> StreamCopy.t) (set_locals : StreamCopy.t -> K -> K)
  `{!SpongeAdapter (FileDescriptor.world (K := K)) A}.

#[local] Abbreviation W := (FileDescriptor.world (K := K)).
#[local] Abbreviation ST := (list (EventLoop.Rule K) * W)%type.

(** [TCPSpongeSocket(AdaptT &&)] with the adapter that [device] makes: the handles of the
    device and of the two ends of the socket pair. *)
Definition make_socket (device : io W (Z * A)) : io W (Z * Z * Z) :=
  '(h, a) ← device;
  '(own, thread_data) ← destroying (FileDescriptor.release sys h) (
    pair ← TCPSpongeSocket.socket_pair_helper sys sys_socketpair Socket.SOCK_STREAM;
    TCPSpongeSocket.construct sys net pair);
  _ ← TCPSpongeSocket.put self set_self (fun _ => TCPSpongeSocket.mk a None false false false);
  mret (h, own, thread_data).

(** [listen_and_accept] or [connect], the copy, and [wait_until_closed], in the scope of the
    socket: [fuel], [fuel'] and [fuel''] bound the rounds of the opening, of the copy and of the
    thread. *)
Definition with_socket (fuel fuel' fuel'' : nat) (isn : Z) (listen : bool) (c_fsm : TCPConfig.t) (c_filt : FdAdapterConfig.t)
  (device own thread_data : Z) : io ST TCPSpongeSocket.thread_end :=
  scoped sys net sys_poll clock aborted self set_self own thread_data device
    (opening sys net sys_poll clock aborted R self set_self thread_data c_fsm isn (negb listen) fuel (Ok c_filt))
    (StreamCopy.bidirectional_stream_copy sys net sys_poll locals set_locals fuel' own) set_abort fuel''.

(** The exit status of a program that got so far; [None] when an exception that left the thread
    ended it. *)
Definition status (r : TCPSpongeSocket.thread_end) : option Z :=
  match r with TCPSpongeSocket.Joined => Some 0 | TCPSpongeSocket.Terminated => None end.

(** The rest of [main] once the command line was read. *)
Definition run (fuel fuel' fuel'' : nat) (isn : Z) (s : settings) (device : io W (Z * A)) : io ST (option Z) :=
  '(h, own, thread_data) ← TCPSpongeSocket.machine (make_socket device);
  r ← with_socket fuel fuel' fuel'' isn (listen s) (c_fsm s) (c_filt s) h own thread_data;
  mret (status r).

(** [main], with the way the program reads its command line and the way it makes its device. *)
Definition main {Conf} (get_config : list string -> outcome (ending Conf)) (settings_of : Conf -> settings) (device : Conf -> io W (Z * A))
  (fuel fuel' fuel'' : nat) (isn : Z) (argv : list string) : io ST (option Z) :=
  if zlen argv <? 3 then mret (Some 1)
  else
    catch (
      e ← TCPSpongeSocket.machine (pure_ (get_config argv));
      match e with
      | Exited status _ => mret (Some status)
      | Parsed c _ => run fuel fuel' fuel'' isn (settings_of c) (device c)
      end) (fun _ => mret (Some 1)).

End client.

(** ** The devices of the three programs *)

Section devices.

Context {K Rand : Type} (sys : Kernel K) (net : SocketCalls K) (R : Address.Resolver) (seed : Rand).

#[local] Abbreviation W := (FileDescriptor.world (K := K)).

(** [LossyTCPOverIPv4OverTunFdAdapter(TCPOverIPv4OverTunFdAdapter(TunFD(...)))]. *)
Definition tun_device (s : settings) : io W (Z * lossy Rand tun_adapter) :=
  tun ← TunTapFD.make sys net (String.list_byte_of_string (default TUN_DFLT (device s))) true;
  b ← destroying (FileDescriptor.release sys tun) (pure_ (FdAdapterBase.make R));
  mret (tun, Lossy seed (TunAdapter b tun)).

(** [UDPSocket udp_sock], bound when the program listens, and its adapter. *)
Definition udp_device (s : settings) : io W (Z * lossy Rand udp_adapter) :=
  udp_sock ← UDPSocket.make net;
  b ← destroying (FileDescriptor.release sys udp_sock) (
    _ ← (if listen s then Socket.bind net udp_sock (FdAdapterConfig.source (c_filt s)) else mret tt);
    pure_ (FdAdapterBase.make R));
  mret (udp_sock, Lossy seed (UdpAdapter b udp_sock)).

(** [TCPOverIPv4OverEthernetAdapter(TapFD(...), ...)], given six random bytes. *)
Definition tap_device (random : list Z) (c : settings * Address.t) : io W (Z * EthAdapter.t) :=
  let '(s, next_hop) := c in
  tap ← TunTapFD.make sys net (String.list_byte_of_string (default TAP_DFLT (device s))) false;
  a ← destroying (FileDescriptor.release sys tap)
        (EthAdapter.make sys R tap (random_private_ethernet_address random) (FdAdapterConfig.source (c_filt s)) next_hop);
  mret (tap, a).

End devices.

(** ** The three programs *)

Section programs.

Context {K Rand : Type} (sys : Kernel K) (net : SocketCalls K)
  (sys_poll : K -> list EventLoop.pollfd -> Z -> Z * Z * list EventLoop.pollfd * K)
  (sys_socketpair : K -> Z -> Z -> Z -> Z * Z * (Z * Z) * K)
  (clock : K -> Z * K) (aborted : K -> bool) (set_abort : K -> K) (R : Address.Resolver)
  (_rand : Rand -> Z * Rand) (seed : Rand) (locals : K -> StreamCopy.t) (set_locals : StreamCopy.t -> K -> K).

#[local] Abbreviation W := (FileDescriptor.world (K := K)).
#[local] Abbreviation ST := (list (EventLoop.Rule K) * W)%type.

(** [draw] is the random source port. *)
Definition tcp_ipv4 (self : K -> TCPSpongeSocket.t (lossy Rand tun_adapter)) set_self (draw : Z)
  : nat -> nat -> nat -> Z -> list string -> io ST (option Z) :=
  let _ := @lossy_sponge_adapter _ Rand _ (tun_sponge_adapter sys R) R _rand in
  main sys net sys_poll sys_socketpair clock aborted set_abort R self set_self locals set_locals
    (ipv4_get_config R draw) id (tun_device sys net R seed).

Definition tcp_udp (self : K -> TCPSpongeSocket.t (lossy Rand udp_adapter)) set_self
  : nat -> nat -> nat -> Z -> list string -> io ST (option Z) :=
  let _ := @lossy_sponge_adapter _ Rand _ (udp_sponge_adapter net R) R _rand in
  main sys net sys_poll sys_socketpair clock aborted set_abort R self set_self locals set_locals
    (udp_get_config R) id (udp_device sys net R seed).

Definition tcp_ip_ethernet (self : K -> TCPSpongeSocket.t EthAdapter.t) set_self (draw : Z) (random : list Z)
  : nat -> nat -> nat -> Z -> list string -> io ST (option Z) :=
  let _ := eth_sponge_adapter sys R in
  main sys net sys_poll sys_socketpair clock aborted set_abort R self set_self locals set_locals
    (ethernet_get_config R draw) fst (tap_device sys net R random).

End programs.

End SpongeClient.

(** ** The copy as the owner of a socket *)

Section owner.

Context {K A : Type} (sys : Kernel K) (net : SocketCalls K)
  (sys_poll : K -> list EventLoop.pollfd -> Z -> Z * Z * list EventLoop.pollfd * K)
  (self : K -> TCPSpongeSocket.t A) (set_self : TCPSpongeSocket.t A -> K -> K)
  (locals : K -> StreamCopy.t) (set_locals : StreamCopy.t -> K -> K) (sent got : K -> Z -> list byte)
  `{!PosixKernel sys sent} `{!LoggedKernel sys net sys_poll self set_self sent got} `{!PosixPoll sys_poll}
  `{!LoggedKernel sys net sys_poll locals set_locals sent got}.
Hypothesis Hsep : forall s k, self (set_locals s k) = self k.

Context (own ofd tfd : Z).
Hypothesis Hofd : ofd <> StreamCopy.STDIN_FILENO /\ ofd <> StreamCopy.STDOUT_FILENO.

#[local] Abbreviation W := (FileDescriptor.world (K := K)).

Lemma numbers_fds F (w : W) j fd : numbers w = F -> F !! j = Some fd -> exists n, fds w !! j = Some (fd, n).
Proof.
  intros <-. unfold numbers. rewrite lookup_fmap. destruct (fds w !! j) as [[fd' n]|]; [|done]. intros [= ->]. by eexists.
Qed.

(** It leaves the thread's end of the socket pair and the object alone. *)
Lemma copy_owner_ok F fuel : F !! own = Some ofd -> tfd <> StreamCopy.STDIN_FILENO -> tfd <> StreamCopy.STDOUT_FILENO -> tfd <> ofd ->
  owner_ok self sent got tfd F (StreamCopy.bidirectional_stream_copy sys net sys_poll locals set_locals fuel own).
Proof.
  intros HF H0 H1 Hne w Hnum Hpos. destruct (numbers_fds F w own ofd Hnum HF) as [n Hn].
  pose proof (stream_copy_spec sys net sys_poll locals set_locals sent got self set_self (fun _ => True) False fuel own ofd n w) as H.
  specialize (H ltac:(done) Hsep ltac:(intros k ps t r e ps' k' _; by apply Forall_forall) ltac:(done) Hn Hpos Hofd).
  destruct (StreamCopy.bidirectional_stream_copy _ _ _ _ _ _ _ w) as [o w']. destruct H as (Hu & _ & [Hm Hl] & Hf & _).
  destruct (Hl tfd H0 H1 Hne) as [Hs Hg]. destruct o; try done; split_and!; try done; by apply Hf.
Qed.

(** What it has copied when it returns. *)
Lemma copy_owner_copied (hung : Z -> Prop) F fuel w w' : reports_hangups sys_poll hung ->
  F !! own = Some ofd -> numbers w = F -> map_Forall (fun _ x => 1 <= x.2) (fds w) ->
  StreamCopy.bidirectional_stream_copy sys net sys_poll locals set_locals fuel own w = (Ok tt, w') ->
  copied sent got ofd (FileDescriptor.kernel w) (FileDescriptor.kernel w')
    (~ interruptible sys_poll /\ ~ hung ofd /\ ~ hung StreamCopy.STDOUT_FILENO /\ closed_of w own = false).
Proof.
  intros Hhung HF Hnum Hpos Hrun. destruct (numbers_fds F w own ofd Hnum HF) as [n Hn].
  pose proof (stream_copy_spec sys net sys_poll locals set_locals sent got self set_self hung
    (~ hung ofd /\ ~ hung StreamCopy.STDOUT_FILENO /\ closed_of w own = false) fuel own ofd n w) as H.
  specialize (H ltac:(done) Hsep Hhung ltac:(done) Hn Hpos Hofd). rewrite Hrun in H. destruct H as (_ & Hflow & _ & _ & Hdone).
  intros d. destruct (Hflow d) as (_ & x & Hg & Hs). eexists x, _. split; [exact Hg|]. split; [exact Hs|].
  intros (Hi & Hup). destruct (Hdone eq_refl Hup) as [|Hfin]; [done|]. by destruct (Hfin d) as (-> & _).
Qed.

End owner.

(** ** From the constructed socket to its destructor

    On any machine, with any adapter that keeps its promises: what the thread of the socket did
    to the connection is a path of the endpoint of Endpoint.v, all handles are released, and the
    bytes written in each direction are a prefix of those read, and all of them unless a signal
    came or a hangup was reported. *)

#[local] Existing Instance h_calls.

Lemma with_socket_copies (h : host) (Hh : HostOk h) (locals : h_state h -> StreamCopy.t) (set_locals : StreamCopy.t -> h_state h -> h_state h)
  (Hlocals : LoggedKernel (h_sys h) (h_net h) (h_poll h) locals set_locals (h_sent h) (h_got h))
  (Hsep : forall s k, h_self h (set_locals s k) = h_self h k)
  (hung : Z -> Prop) (Hhung : reports_hangups (h_poll h) hung)
  (set_abort : h_state h -> h_state h) (Habort : abort_ok h (Some set_abort))
  (fuel fuel' fuel'' : nat) (isn : Z) (listen : bool) (c_fsm : TCPConfig.t) (c_filt : FdAdapterConfig.t) (w : FileDescriptor.world)
  (device ofd tfd' dfd : Z) (Hw : fresh_socket h w) (Hcfg : config_ok c_fsm isn)
  (Hd : device = ad_fd (TCPSpongeSocket._datagram_adapter (h_self h (FileDescriptor.kernel w))))
  (Hdevice : fds w !! device = Some (dfd, 1)) (Hthread : fds w !! h_thread_data h = Some (tfd', 1)) (Hown : fds w !! h_own h = Some (ofd, 1))
  (Hends : ofd <> h_tfd h) (Hd1 : device <> h_own h) (Hd2 : h_own h <> h_thread_data h)
  (Hstd : Forall (fun fd => fd <> StreamCopy.STDIN_FILENO /\ fd <> StreamCopy.STDOUT_FILENO) [ofd; h_tfd h]) :
  let '(o, (_, w')) := SpongeClient.with_socket (h_sys h) (h_net h) (h_poll h) (h_clock h) (h_aborted h) set_abort (h_resolver h)
    (h_self h) (h_set_self h) locals set_locals fuel fuel' fuel'' isn listen c_fsm c_filt device (h_own h) (h_thread_data h) ([], w) in
  o <> Undefined /\ (exists e heard said, travelled h c_fsm isn w w' e heard said) /\
  (o = Ok TCPSpongeSocket.Joined \/ (exists e, o = Throw e) ->
     fds w' = delete (h_own h) (delete (h_thread_data h) (delete device (fds w)))) /\
  (o = Ok TCPSpongeSocket.Joined -> exists w1 w2,
     owner_ran (host_opening h (negb listen) fuel c_fsm isn (Ok c_filt))
       (StreamCopy.bidirectional_stream_copy (h_sys h) (h_net h) (h_poll h) locals set_locals fuel' (h_own h)) ([], w) (numbers w) tt w1 w2 /\
     copied (h_sent h) (h_got h) ofd (FileDescriptor.kernel w1) (FileDescriptor.kernel w2)
       (~ interruptible (h_poll h) /\ ~ hung ofd /\ ~ hung StreamCopy.STDOUT_FILENO /\ closed_of w1 (h_own h) = false)).
Proof.
  subst device. pose proof Hh as [Hposix Hlogged Hpoll _ _ _]. apply Forall_cons in Hstd as [Hofd [[Ht0 Ht1] _]%Forall_cons].
  assert (HF : numbers w !! h_own h = Some ofd) by (unfold numbers; by rewrite lookup_fmap, Hown).
  pose proof (copy_owner_ok (h_sys h) (h_net h) (h_poll h) (h_self h) (h_set_self h) locals set_locals (h_sent h) (h_got h) Hsep (h_own h)
    ofd (h_tfd h) Hofd (numbers w) fuel' HF Ht0 Ht1 (not_eq_sym Hends)) as Howner.
  pose proof (socket_scope_spec h (negb listen) _ set_abort fuel fuel'' c_fsm isn (Ok c_filt) w Hw Hcfg Habort Logic.I Howner
    (ex_intro _ _ Hdevice) (ex_intro _ _ Hthread) (ex_intro _ _ Hown) Hd1 Hd2) as H.
  unfold SpongeClient.with_socket. unfold socket_scope in H. unfold host_opening in *.
  destruct (scoped _ _ _ _ _ _ _ _ _ _ _ _ _ _ _) as [o [rules w']].
  destruct H as (H1 & H2 & H3 & H4). split; [done|]. split; [done|]. split; [done|]. intros Ho.
  destruct (H4 Ho) as ([] & w1 & w2 & Hran). exists w1, w2. split; [done|]. destruct Hran as (rules1 & Hopen & Hn & Hpos & Hrun).
  by eapply (copy_owner_copied (h_sys h) (h_net h) (h_poll h) (h_self h) (h_set_self h)).
Qed.
