(* ===== verification/Launch.v ===== *)
(** * Launch.v: from the device to the end of the socket

    The constructors of the sockets of [apps/tcp_ipv4.cc], [apps/tcp_udp.cc] and
    [apps/tcp_ip_ethernet.cc] make what Clients.v starts from: a device of the program's own and
    the two ends of a fresh socket pair ([libsponge/tcp_helpers/tcp_sponge_socket.cc],
    [libsponge/util/tun.cc], [libsponge/util/socket.cc]).  With them the part of [main] after the
    command line is covered as a whole. *)

From stdpp Require Import gmap list pretty.
From S2P Require Import Prelude Wrapping Streams Reassembler Buffers Parsing TcpWire Receiver Sender Connection TcpState.
From S2P Require Import IpWire EtherWire Addresses NetIf Adapters Totality CmdLine FileDesc EventLoop Sockets Handles StreamCopy Programs.
From S2P Require Import SpongeSocket Transfer Endpoint SpongeThread Devices Sessions Clients.

(** ** What is documented of calls that open descriptors

    [opened k fd] says that the descriptor is in use; a new descriptor was not. *)
Definition still_open {K} (opened : K -> Z -> Prop) (k k' : K) : Prop := forall fd, opened k fd -> opened k' fd.

Class OpensDescriptors {K} (sys : Kernel K) (net : SocketCalls K) (sys_socketpair : K -> Z -> Z -> Z -> Z * Z * (Z * Z) * K)
  (opened : K -> Z -> Prop) : Prop := {
  od_open k p f r e x k' : sys_open net k p f = (r, e, x, k') ->
    -1 <= r < two31 /\ (r = -1 -> e <> 0) /\ (0 <= r -> ~ opened k r /\ opened k' r) /\ still_open opened k k';
  od_socket k d t p r e x k' : sys_socket net k d t p = (r, e, x, k') ->
    -1 <= r < two31 /\ (r = -1 -> e <> 0) /\ (0 <= r -> ~ opened k r /\ opened k' r) /\ still_open opened k k';
  od_pair k d t p r e a b k' : sys_socketpair k d t p = (r, e, (a, b), k') ->
    -1 <= r < two31 /\ (r = -1 -> e <> 0) /\ (0 <= r -> 0 <= a /\ 0 <= b /\ a <> b /\ ~ opened k a /\ ~ opened k b);
  od_tunsetiff k fd q : still_open opened k (sys_tunsetiff net k fd q).2;
  od_bind k fd a n : still_open opened k (sys_bind net k fd a n).2;
  od_writev k fd iov : still_open opened k (sys_writev sys k fd iov).2
}.

Section launch.

Context {K : Type} (sys : Kernel K) (net : SocketCalls K) (sys_socketpair : K -> Z -> Z -> Z -> Z * Z * (Z * Z) * K)
  (sent : K -> Z -> list byte) (opened : K -> Z -> Prop)
  `{!PosixKernel sys sent} `{!OpensDescriptors sys net sys_socketpair opened}.

#[local] Abbreviation W := (FileDescriptor.world (K := K)).

#[export] Instance still_open_preorder : PreOrder (still_open opened).
Proof. split; [by intros k fd|]. intros k1 k2 k3 H1 H2 fd Hf. auto. Qed.

(** The handles stay as they are and nothing is closed. *)
Definition holds : relation W := fun w w' =>
  fds w' = fds w /\ still_open opened (FileDescriptor.kernel w) (FileDescriptor.kernel w').

#[export] Instance holds_preorder : PreOrder holds.
Proof. split; [by intros w; split|]. intros w1 w2 w3 [A1 A2] [B1 B2]. split; [congruence|by etrans]. Qed.

Lemma update_holds h f : (forall x, FDWrapper._fd (f x) = FDWrapper._fd x) -> respects holds (FileDescriptor.update h f).
Proof. intros Hf w. split; [by apply update_fds|done]. Qed.

Lemma system_call_holds {X} s (f : K -> Z * Z * X * K) : (forall k, still_open opened k (f k).2) -> respects holds (system_call s f).
Proof.
  intros Hf w. specialize (Hf (FileDescriptor.kernel w)). unfold system_call. destruct (f _) as [[[r e] x] k]. simpl in Hf.
  by destruct (SystemCall _ _ _ _).
Qed.

Lemma write_holds h b all : respects holds (FileDescriptor.write sys h b all).
Proof.
  unfold FileDescriptor.write. generalize (S (length (all_bytes b))) as fuel. intros fuel.
  generalize 0 at 1 as total. revert b. induction fuel as [|fuel IH]; intros b total; cbn [FileDescriptor.write_loop]; [by intros w|].
  respecting; try (by apply update_holds); try apply IH; try (by intros w).
  intros w. pose proof (od_writev (FileDescriptor.kernel w)) as Hw. simpl. specialize (Hw (FDWrapper._fd a) (BufferViewList.as_iovecs b)).
  by destruct (sys_writev sys _ _ _) as [[r e] k].
Qed.

(** A handle with one owner is released. *)
Lemma release_sole h fd w : fds w !! h = Some (fd, 1) -> exists w', FileDescriptor.release sys h w = (Ok tt, w') /\ fds w' = delete h (fds w).
Proof. intros Hh. destruct (release_fds sys h fd 1 w Hh) as (w' & Hr & _ & Hf & _); [done|]. by exists w'. Qed.

(** Code with one handle of its own, which goes when the code throws. *)
Lemma guarded_wp {A} h fd (m : io W A) (Q : A -> W -> Prop) w : fds w !! h = Some (fd, 1) ->
  wp m Q (fun w' => fds w' = fds w) w -> wp (destroying (FileDescriptor.release sys h) m) Q (fun w' => fds w' = delete h (fds w)) w.
Proof.
  intros Hh Hm. apply wp_destroying. eapply wp_mono; [exact Hm|done|]. intros w1 Hf.
  destruct (release_sole h fd w1) as (w' & Hr & Hd); [by rewrite Hf|]. exists w'. split; [done|]. by rewrite Hd, Hf.
Qed.

(** The sockets of the pair are checked. *)
Lemma verify_same_fds h domain type : respects same_fds (Socket.verify net h domain type).
Proof. unfold Socket.verify, FileDescriptor.fd_num. respecting; try apply system_call_respects; by intros w. Qed.

Lemma of_fd_checked h fd domain type w : fds w !! h = Some (fd, 1) ->
  wp (Socket.of_fd sys net h domain type) (fun h' w' => h' = h /\ fds w' = fds w) (fun w' => fds w' = delete h (fds w)) w.
Proof.
  intros Hh. unfold Socket.of_fd. apply wp_bind. eapply wp_mono; [eapply (guarded_wp h fd _ (fun _ w' => fds w' = fds w)); [done|]|..].
  - eapply (wp_call _ same_fds h); [apply verify_answers|apply verify_same_fds|by rewrite Hh|done|done].
  - intros u w' Hf. by apply wp_ret.
  - done.
Qed.

Lemma set_blocking_same_fds h b : respects same_fds (FileDescriptor.set_blocking sys h b).
Proof.
  unfold FileDescriptor.set_blocking. respecting; try (by intros w); intros w; simpl; by repeat case_match; simplify_eq/=.
Qed.

Lemma construct_wp first second a b w : first <> second -> fds w !! first = Some (a, 1) -> fds w !! second = Some (b, 1) ->
  wp (TCPSpongeSocket.construct sys net (first, second)) (fun hs w' => hs = (first, second) /\ fds w' = fds w)
    (fun w' => fds w' = delete first (delete second (fds w))) w.
Proof.
  intros Hne Hf Hs. unfold TCPSpongeSocket.construct. apply wp_bind.
  eapply wp_mono with (Q := fun h' w' => h' = first /\ fds w' = fds w) (E := fun w' => fds w' = delete first (delete second (fds w))).
  { apply wp_destroying. eapply wp_mono; [by eapply of_fd_checked|done|]. intros w1 H1.
    destruct (release_sole second b w1) as (w2 & Hr & H2); [by rewrite H1, lookup_delete_ne|]. exists w2. split; [done|].
    rewrite H2, H1. apply delete_delete. }
  2:{ done. }
  intros own w1 [-> H1]. apply wp_destroying.
  assert (HE : forall w2, fds w2 = delete second (fds w) ->
    exists w', FileDescriptor.release sys first w2 = (Ok tt, w') /\ fds w' = delete first (delete second (fds w))).
  { intros w2 H2. destruct (release_sole first a w2) as (w' & Hr & Hd); [by rewrite H2, lookup_delete_ne|]. exists w'. by rewrite Hd, H2. }
  apply wp_bind. eapply wp_mono; [eapply (of_fd_checked second b); by rewrite H1|..].
  2:{ intros w2 H2. apply HE. by rewrite H2, H1. }
  intros td w2 [-> H2]. apply wp_bind.
  eapply wp_mono; [eapply (guarded_wp second b _ (fun _ w' => fds w' = fds w2)); [by rewrite H2, H1|]|..].
  - eapply (wp_call _ same_fds second); [apply set_blocking_answers|apply set_blocking_same_fds|by rewrite H2, H1, Hs|done|done].
  - intros u w3 H3. apply wp_ret. split; [done|]. congruence.
  - intros w3 H3. apply HE. by rewrite H3, H2, H1.
Qed.

(** Both ends are new. *)
Lemma pair_wp type w :
  wp (TCPSpongeSocket.socket_pair_helper sys sys_socketpair type)
    (fun '(first, second) w' => exists a b, first <> second /\ fds w !! first = None /\ fds w !! second = None /\
       fds w' = <[second := (b, 1)]> (<[first := (a, 1)]> (fds w)) /\
       a <> b /\ ~ opened (FileDescriptor.kernel w) a /\ ~ opened (FileDescriptor.kernel w) b)
    (fun w' => fds w' = fds w) w.
Proof.
  unfold TCPSpongeSocket.socket_pair_helper. apply wp_bind. unfold wp at 1, system_call.
  destruct (sys_socketpair (FileDescriptor.kernel w) Socket.AF_UNIX type 0) as [[[r e] [a b]] k] eqn:E.
  destruct (od_pair _ _ _ _ _ _ _ _ _ E) as (Hr & He & Hnew). rewrite s32_id by lia. unfold SystemCall.
  destruct (Z.leb_spec 0 r); simpl.
  2:{ assert (r = -1) as -> by lia. by destruct (Z.eqb_spec e 0) as [->|]; [destruct (He eq_refl)|]. }
  destruct (Hnew ltac:(done)) as (Ha & Hb & Hab & Hna & Hnb). set (w1 := FileDescriptor.set_kernel k w).
  destruct (make_fds a w1 Ha) as (first & w2 & M1 & N1 & F1 & _ & _). destruct (make_fds b w2 Hb) as (second & w3 & M2 & N2 & F2 & _ & _).
  rewrite F1 in N2, F2. apply lookup_insert_None in N2 as [N2 Hne]. unfold wp, mbind, io_bind, destroying, catch. rewrite M1, M2.
  exists a, b. by split_and!.
Qed.

(** ** Devices *)

(** A handle of a descriptor that was not open before. *)
Record new_handle (w : W) (h fd : Z) (w' : W) : Prop := {
  nh_free : fds w !! h = None;
  nh_fds : fds w' = <[h := (fd, 1)]> (fds w);
  nh_opened : opened (FileDescriptor.kernel w') fd;
  nh_still : still_open opened (FileDescriptor.kernel w) (FileDescriptor.kernel w')
}.

Lemma new_handle_holds w h fd w1 w2 : new_handle w h fd w1 -> holds w1 w2 -> new_handle w h fd w2.
Proof. intros [H1 H2 H3 H4] [F S]. split; [done|congruence|by apply S|by etrans]. Qed.

(** What is done with it before it is handed on. *)
Lemma new_guarded {A} (m : io W A) (Q : A -> Prop) w h fd w1 : new_handle w h fd w1 ->
  wp m (fun a w2 => holds w1 w2 /\ Q a) (holds w1) w1 ->
  wp (destroying (FileDescriptor.release sys h) m) (fun a w2 => new_handle w h fd w2 /\ Q a) (fun w' => fds w' = fds w) w1.
Proof.
  intros Hn Hm. eapply wp_mono; [eapply (guarded_wp h fd _ (fun a w2 => holds w1 w2 /\ Q a))|..].
  - rewrite (nh_fds _ _ _ _ Hn). apply lookup_insert_eq.
  - eapply wp_mono; [exact Hm|done|]. by intros w2 [F _].
  - intros a w2 [H HQ]. split; [by eapply new_handle_holds|done].
  - intros w2 ->. rewrite (nh_fds _ _ _ _ Hn). apply delete_insert_id, (nh_free _ _ _ _ Hn).
Qed.

Lemma new_handle_there w h fd w' : new_handle w h fd w' -> is_Some (fds w' !! h).
Proof. intros [_ H _ _]. rewrite H, lookup_insert_eq. by eexists. Qed.

(** A call that opens a descriptor. *)
Definition opens {X} (f : K -> Z * Z * X * K) : Prop := forall k r e x k', f k = (r, e, x, k') ->
  -1 <= r < two31 /\ (r = -1 -> e <> 0) /\ (0 <= r -> ~ opened k r /\ opened k' r) /\ still_open opened k k'.

Lemma open_handle {X B} s (f : K -> Z * Z * X * K) (body : Z -> io W B) (Q : B -> W -> Prop) w : opens f ->
  (forall h fd w', new_handle w h fd w' -> wp (body h) Q (fun w' => fds w' = fds w) w') ->
  wp ('(n, _) ← system_call s f; h ← FileDescriptor.make n; body h) Q (fun w' => fds w' = fds w) w.
Proof.
  intros Hf Hbody. apply wp_bind. unfold wp at 1, system_call. destruct (f (FileDescriptor.kernel w)) as [[[r e] x] k] eqn:E.
  destruct (Hf _ _ _ _ _ E) as (Hr & He & Hnew & Hs). rewrite s32_id by lia. unfold SystemCall.
  destruct (Z.leb_spec 0 r); simpl.
  2:{ assert (r = -1) as -> by lia. by destruct (Z.eqb_spec e 0) as [->|]; [destruct (He eq_refl)|]. }
  apply wp_bind. destruct (make_fds r (FileDescriptor.set_kernel k w) ltac:(done)) as (h & w2 & M & N & F & Hk & _). unfold wp at 1. rewrite M.
  apply (Hbody h r). split; try done; rewrite Hk; [by apply Hnew|done].
Qed.

Lemma tuntap_made devname is_tun w :
  wp (TunTapFD.make sys net devname is_tun) (fun h w' => exists fd, new_handle w h fd w') (fun w' => fds w' = fds w) w.
Proof.
  unfold TunTapFD.make. apply open_handle; [intros k r e x k'; apply od_open|]. intros h fd w1 Hn. apply wp_bind.
  eapply wp_mono; [eapply (new_guarded _ (fun _ => True)); [done|]| |done].
  - eapply (wp_call _ holds h); [..|by eapply new_handle_there|done|done].
    + unfold FileDescriptor.fd_num. answering; [by respecting|]. intros w2 _. unfold system_call.
      destruct (sys_tunsetiff net _ _ _) as [[[r e] x] k]. unfold SystemCall. by destruct (_ || _).
    + unfold FileDescriptor.fd_num. respecting; try (by intros w2). apply system_call_holds. intros k. apply od_tunsetiff.
  - intros u w2 [H _]. apply wp_ret. by exists fd.
Qed.

Lemma udp_made w : wp (UDPSocket.make net) (fun h w' => exists fd, new_handle w h fd w') (fun w' => fds w' = fds w) w.
Proof.
  unfold UDPSocket.make, Socket.make.
  pose proof (open_handle "socket" (fun k => sys_socket net k Address.AF_INET Socket.SOCK_DGRAM 0) (fun h => mret h)
    (fun h w' => exists fd, new_handle w h fd w') w) as H.
  unfold wp, mbind, io_bind in *. specialize (H ltac:(intros k r e x k'; apply od_socket) ltac:(intros h fd w' Hn; by exists fd)).
  destruct (system_call _ _ w) as [[[n x]| | |] w1]; try done. by destruct (FileDescriptor.make n w1) as [[]].
Qed.

(** What a program's device is made of: [live] says when its adapter can be used. *)
Definition makes_device {A} `{!SpongeAdapter W A} (live : Z -> A -> gmap Z Z -> Prop) (device : io W (Z * A)) : Prop := forall w,
  wp device
    (fun '(h, a) w' => exists fd, new_handle w h fd w' /\ ad_fd a = h /\ forall tfd F, F !! h = Some fd -> fd <> tfd -> live tfd a F)
    (fun w' => fds w' = fds w) w.

(** The three programs' devices make one. *)
Lemma adapter_base_total R `{!SoundResolver R} : concluded (FdAdapterBase.make R).
Proof. unfold FdAdapterBase.make, FdAdapterConfig.make. concluding. Qed.

Lemma live_at fd h tfd (F : gmap Z Z) : F !! h = Some fd -> fd <> tfd -> device_at tfd h F.
Proof. intros HF Hne. by exists fd. Qed.

Lemma tun_device_made {Rand} R `{!SoundResolver R} _rand (seed : Rand) s :
  @makes_device _ (@lossy_sponge_adapter _ Rand _ (tun_sponge_adapter sys R) R _rand)
    (fun tfd l F => tun_live tfd (_inner l) F) (SpongeClient.tun_device sys net R seed s).
Proof.
  intros w. unfold SpongeClient.tun_device. apply wp_bind. eapply wp_mono; [apply tuntap_made| |done]. intros h w1 [fd Hn].
  apply wp_bind. eapply wp_mono; [eapply (new_guarded _ (fun _ => True)); [done|]| |done].
  - by eapply (wp_pure _ (fun _ => True)); [apply adapter_base_total|..].
  - intros b w2 [H _]. apply wp_ret. exists fd. split; [done|]. split; [done|]. intros tfd F. apply live_at.
Qed.

Lemma bind_holds h a : respects holds (Socket.bind net h a).
Proof. unfold Socket.bind, FileDescriptor.fd_num. respecting; try (by intros w). apply system_call_holds. intros k. apply od_bind. Qed.

Lemma bind_answers h a : answers h (Socket.bind net h a).
Proof.
  unfold Socket.bind, FileDescriptor.fd_num. answering; [by respecting|]. intros w _. unfold system_call.
  destruct (sys_bind net _ _ _ _) as [[[r e] x] k]. unfold SystemCall. by destruct (_ || _).
Qed.

Lemma udp_device_made {Rand} R `{!SoundResolver R} _rand (seed : Rand) s :
  @makes_device _ (@lossy_sponge_adapter _ Rand _ (udp_sponge_adapter net R) R _rand)
    (fun tfd l F => udp_live tfd (_inner l) F) (SpongeClient.udp_device sys net R seed s).
Proof.
  intros w. unfold SpongeClient.udp_device. apply wp_bind. eapply wp_mono; [apply udp_made| |done]. intros h w1 [fd Hn].
  apply wp_bind. eapply wp_mono; [eapply (new_guarded _ (fun _ => True)); [done|]| |done].
  - apply wp_bind. eapply wp_mono with (Q := fun _ => holds w1) (E := holds w1); [|intros u w2 Hw|done].
    + destruct (listen s); [|by apply wp_ret].
      eapply (wp_call _ holds h); [apply bind_answers|apply bind_holds|by eapply new_handle_there|done|done].
    + by eapply (wp_pure _ (fun _ => True)); [apply adapter_base_total|..].
  - intros b w2 [H _]. apply wp_ret. exists fd. split; [done|]. split; [done|]. intros tfd F. apply live_at.
Qed.

Lemma write_frames_holds tap frames w : is_Some (fds w !! tap) ->
  wp (EthAdapter.write_frames sys tap frames) (fun _ => holds w) (holds w) w.
Proof.
  revert w. induction frames as [|f frames IH]; intros w Hd; cbn [EthAdapter.write_frames]; [by apply wp_ret|].
  apply wp_bind. eapply (wp_call _ holds tap); [by eapply write_answers|apply write_holds|done| |done].
  intros n w1 H1. eapply wp_mono; [apply IH; by rewrite (proj1 H1)|..].
  - intros u w2 H2. by etrans.
  - intros w2 H2. by etrans.
Qed.

Lemma eth_adapter_holds R `{!SoundResolver R} h eth_address ip_address next_hop w : is_Some (fds w !! h) ->
  wp (EthAdapter.make sys R h eth_address ip_address next_hop) (fun a w' => holds w w' /\ EthAdapter._tap a = h) (holds w) w.
Proof.
  intros Hh. unfold EthAdapter.make. apply wp_bind.
  eapply (wp_pure _ (fun _ => True)); [unfold TCPOverIPv4OverEthernetAdapter.make| |done].
  - eapply yields_bind; [apply (adapter_base_total R)|]. by intros.
  - intros [e out] _. apply wp_bind. eapply wp_mono; [by apply write_frames_holds| |done]. intros u w2 Hw. by apply wp_ret.
Qed.

Lemma tap_device_made R `{!SoundResolver R} random c :
  @makes_device _ (eth_sponge_adapter sys R) eth_live (SpongeClient.tap_device sys net R random c).
Proof.
  intros w. unfold SpongeClient.tap_device. destruct c as [s next_hop]. apply wp_bind.
  eapply wp_mono; [apply tuntap_made| |done]. intros h w1 [fd Hn]. apply wp_bind.
  eapply wp_mono; [eapply (new_guarded _ (fun a => EthAdapter._tap a = h)); [done|]; by eapply eth_adapter_holds, new_handle_there| |done].
  intros a w2 [H Ha].
  apply wp_ret. exists fd. split; [done|]. split; [done|]. intros tfd F HF Hne. exists fd. by rewrite Ha.
Qed.

(** A device whose adapter keeps a record of its traffic. *)
Definition recording_device {A} (device : io W (Z * A)) : io W (Z * recording A) :=
  '(h, a) ← device; mret (h, Recording a [] []).

Lemma recording_made {A} `{!SpongeAdapter W A} live (device : io W (Z * A)) : makes_device live device ->
  makes_device (fun tfd r F => live tfd (recorded r) F) (recording_device device).
Proof.
  intros H w. apply wp_bind. eapply wp_mono; [apply H| |done]. intros [h a] w1 (fd & Hn & Ha & Hl). apply wp_ret. by exists fd.
Qed.

(** What the constructor of a socket leaves behind. *)
Record launched {A} `{!SpongeAdapter W A} (live : Z -> A -> gmap Z Z -> Prop) (self : K -> TCPSpongeSocket.t A) (h own thread_data fd a b : Z)
  (w w' : W) : Prop := {
  la_new : fds w !! h = None /\ fds w !! own = None /\ fds w !! thread_data = None;
  la_apart : h <> own /\ h <> thread_data /\ own <> thread_data;
  la_fds : fds w' = <[thread_data := (b, 1)]> (<[own := (a, 1)]> (<[h := (fd, 1)]> (fds w)));
  la_numbers : a <> b /\ fd <> b;
  la_standard : Forall (fun fd => fd <> StreamCopy.STDIN_FILENO /\ fd <> StreamCopy.STDOUT_FILENO) [a; b];
  la_object : exists ad, self (FileDescriptor.kernel w') = TCPSpongeSocket.mk ad None false false false /\ ad_fd ad = h /\
    forall tfd F, F !! h = Some fd -> fd <> tfd -> live tfd ad F
}.

Lemma make_socket_launched {A} `{!SpongeAdapter W A} live (self : K -> TCPSpongeSocket.t A) set_self (device : io W (Z * A)) w :
  (forall s k, self (set_self s k) = s) -> makes_device live device ->
  opened (FileDescriptor.kernel w) StreamCopy.STDIN_FILENO -> opened (FileDescriptor.kernel w) StreamCopy.STDOUT_FILENO ->
  wp (SpongeClient.make_socket sys net sys_socketpair self set_self device)
    (fun '(h, own, thread_data) w' => exists fd a b, launched live self h own thread_data fd a b w w') (fun w' => fds w' = fds w) w.
Proof.
  intros Hset Hdev H0 H1. unfold SpongeClient.make_socket. apply wp_bind. eapply wp_mono; [apply Hdev| |done].
  intros [h ad] w1 (fd & [N1 F1 O1 S1] & Had & Hlive). apply wp_bind.
  eapply wp_mono with (E := fun w' => fds w' = delete h (fds w1)); [eapply (guarded_wp h fd); [by rewrite F1, lookup_insert_eq|]|..].
  - apply wp_bind. eapply wp_mono; [apply pair_wp| |done]. intros [first second] w2 (a & b & Hne & Nf & Ns & F2 & Hab & Ha & Hb).
    eapply wp_mono; [apply (construct_wp first second a b w2); rewrite ?F2; [done|by rewrite lookup_insert_ne, lookup_insert_eq|apply lookup_insert_eq]|..].
    + intros hs w3 [-> F3]. instantiate (1 := fun hs w' => exists first second a b, hs = (first, second) /\ first <> second /\
        fds w1 !! first = None /\ fds w1 !! second = None /\ fds w' = <[second := (b, 1)]> (<[first := (a, 1)]> (fds w1)) /\
        a <> b /\ ~ opened (FileDescriptor.kernel w1) a /\ ~ opened (FileDescriptor.kernel w1) b).
      exists first, second, a, b. split_and!; try done. congruence.
    + intros w3 F3. rewrite F3, F2, delete_insert_id by (by rewrite lookup_insert_ne). by rewrite delete_insert_id.
  - intros hs w3 (own & td & a & b & -> & Hne & Nf & Ns & F3 & Hab & Ha & Hb). rewrite F1 in Nf, Ns, F3.
    apply lookup_insert_None in Nf as [Nf Hhf]. apply lookup_insert_None in Ns as [Ns Hhs]. apply wp_bind. unfold wp at 1, TCPSpongeSocket.put, modify.
    apply wp_ret. exists fd, a, b. split; try done.
    + by split; [intros ->|]; [..|intros ->]; auto.
    + repeat constructor; intros ->; auto.
    + exists ad. simpl. by rewrite Hset.
  - intros w3 F3. rewrite F3, F1. by rewrite delete_insert_id.
Qed.

End launch.

(** ** Programs on a host

    [placed] is the host with other handles; [live] says of any descriptor of the thread when
    the adapter can be used. *)
Definition placed (h : host) (live : Z -> h_adapter h -> gmap Z Z -> Prop) (own thread_data tfd : Z) : host :=
  Host (h_state h) (h_adapter h) (h_sys h) (h_net h) (h_poll h) (h_clock h) (h_aborted h) (h_resolver h) (h_self h) (h_set_self h)
    (h_calls h) (h_sent h) (h_got h) own thread_data tfd (live tfd) (h_heard h) (h_said h).

(** A host that keeps its promises wherever the handles are, and on which descriptors can be
    opened. *)
Class LaunchPad (h : host) (live : Z -> h_adapter h -> gmap Z Z -> Prop)
  (sys_socketpair : h_state h -> Z -> Z -> Z -> Z * Z * (Z * Z) * h_state h) (opened : h_state h -> Z -> Prop) : Prop := {
  lp_host own thread_data tfd :: HostOk (placed h live own thread_data tfd);
  lp_opens :: OpensDescriptors (h_sys h) (h_net h) sys_socketpair opened
}.

(** The world a program starts in: the standard streams are open, and every handle has an
    owner. *)
Record started (h : host) (opened : h_state h -> Z -> Prop) (w : FileDescriptor.world (K := h_state h)) : Prop := {
  st_in : opened (FileDescriptor.kernel w) StreamCopy.STDIN_FILENO;
  st_out : opened (FileDescriptor.kernel w) StreamCopy.STDOUT_FILENO;
  st_owners : map_Forall (fun _ x => 1 <= x.2) (fds w)
}.

#[local] Existing Instance h_calls.

Section programs.

Context (h : host) (live : Z -> h_adapter h -> gmap Z Z -> Prop)
  (sys_socketpair : h_state h -> Z -> Z -> Z -> Z * Z * (Z * Z) * h_state h) (opened : h_state h -> Z -> Prop)
  `{!LaunchPad h live sys_socketpair opened}.

#[local] Abbreviation W := (FileDescriptor.world (K := h_state h)).

(** The new socket is ready, and its handles are its own. *)
Lemma launched_fresh device own thread_data dfd ofd tfd (w w' : W) : map_Forall (fun _ x => 1 <= x.2) (fds w) ->
  launched live (h_self h) device own thread_data dfd ofd tfd w w' ->
  fresh_socket (placed h live own thread_data tfd) w' /\
  device = ad_fd (TCPSpongeSocket._datagram_adapter (h_self h (FileDescriptor.kernel w'))) /\
  fds w' !! device = Some (dfd, 1) /\ fds w' !! thread_data = Some (tfd, 1) /\ fds w' !! own = Some (ofd, 1).
Proof.
  intros Howners [_ (Hdo & Hdt & Hot) HF [Hot' Hdt'] _ (ad & Had & <- & Hlive)].
  assert (Hd : fds w' !! ad_fd ad = Some (dfd, 1)) by (by rewrite HF, 2!lookup_insert_ne, lookup_insert_eq).
  assert (Ho : fds w' !! own = Some (ofd, 1)) by (by rewrite HF, lookup_insert_ne, lookup_insert_eq).
  assert (Ht : fds w' !! thread_data = Some (tfd, 1)) by (by rewrite HF, lookup_insert_eq).
  rewrite Had. split_and!; try done. split; simpl; rewrite ?Had; simpl; try done; [by eexists..| |].
  - apply (Hlive tfd); [|done]. unfold numbers. by rewrite lookup_fmap, Hd.
  - rewrite HF. by repeat apply map_Forall_insert_2.
Qed.

Lemma launched_gone device own thread_data dfd ofd tfd (w w' : W) :
  launched live (h_self h) device own thread_data dfd ofd tfd w w' ->
  delete own (delete thread_data (delete device (fds w'))) = fds w.
Proof.
  intros [(H1 & H2 & H3) (Hdo & Hdt & Hot) -> _ _ _].
  rewrite (delete_delete _ thread_data device), delete_insert_id by (by rewrite !lookup_insert_ne).
  rewrite (delete_delete _ own device), delete_insert_id by (by rewrite lookup_insert_ne). by apply delete_insert_id.
Qed.

(** A program makes its socket and goes on with it, or has no handles left. *)
Lemma launch_spec {B} (device : io W (Z * h_adapter h)) (body : Z -> Z -> Z -> io (list (EventLoop.Rule (h_state h)) * W) B) (w : W)
  (Post : outcome B * (list (EventLoop.Rule (h_state h)) * W) -> Prop) :
  makes_device opened live device -> started h opened w ->
  (forall dev own thread_data dfd ofd tfd w0, launched live (h_self h) dev own thread_data dfd ofd tfd w w0 ->
     Post (body dev own thread_data ([], w0))) ->
  (forall e w', fds w' = fds w -> Post (Throw e, ([], w'))) ->
  Post (('(dev, own, thread_data) ← TCPSpongeSocket.machine
           (SpongeClient.make_socket (h_sys h) (h_net h) sys_socketpair (h_self h) (h_set_self h) device); body dev own thread_data) ([], w)).
Proof.
  intros Hdev [H0 H1 _] Hbody Hthrow. pose proof (lp_host 0 0 0) as [_ Hlogged _ _ _ _].
  pose proof (make_socket_launched (h_sys h) (h_net h) sys_socketpair opened live (h_self h) (h_set_self h) device w
    (@logged_set _ _ _ _ _ _ _ _ _ Hlogged) Hdev H0 H1) as Hmake.
  unfold mbind at 1, io_bind at 1, TCPSpongeSocket.machine. unfold wp in Hmake.
  destruct (SpongeClient.make_socket _ _ _ _ _ _ w) as [[[[dev own] td]|e| |] w0]; try done; [|by apply Hthrow].
  destruct Hmake as (dfd & ofd & tfd & Hla). by eapply Hbody.
Qed.

(** *** The clients *)

Context (locals : h_state h -> StreamCopy.t) (set_locals : StreamCopy.t -> h_state h -> h_state h)
  (Hlocals : LoggedKernel (h_sys h) (h_net h) (h_poll h) locals set_locals (h_sent h) (h_got h))
  (Hsep : forall s k, h_self h (set_locals s k) = h_self h k) (hung : Z -> Prop) (Hhung : reports_hangups (h_poll h) hung)
  (set_abort : h_state h -> h_state h) (Habort : abort_ok h (Some set_abort)) (fuel fuel' fuel'' : nat) (isn : Z).

(** What a client with these settings has done between two worlds: it made its socket, whose
    thread was an endpoint, and in between copied both ways. *)
Definition served (s : settings) (w w' : W) : Prop := exists device own thread_data dfd ofd tfd w0 e heard said w1 w2,
  launched live (h_self h) device own thread_data dfd ofd tfd w w0 /\
  travelled (placed h live own thread_data tfd) (c_fsm s) isn w0 w' e heard said /\
  owner_ran (host_opening (placed h live own thread_data tfd) (negb (listen s)) fuel (c_fsm s) isn (Ok (c_filt s)))
    (StreamCopy.bidirectional_stream_copy (h_sys h) (h_net h) (h_poll h) locals set_locals fuel' own) ([], w0) (numbers w0) tt w1 w2 /\
  copied (h_sent h) (h_got h) ofd (FileDescriptor.kernel w1) (FileDescriptor.kernel w2)
    (~ interruptible (h_poll h) /\ ~ hung ofd /\ ~ hung StreamCopy.STDOUT_FILENO /\ closed_of w1 own = false).

Lemma run_spec (s : settings) (device : io W (Z * h_adapter h)) (w : W) :
  makes_device opened live device -> started h opened w -> config_ok (c_fsm s) isn ->
  let '(o, (_, w')) := SpongeClient.run (h_sys h) (h_net h) (h_poll h) sys_socketpair (h_clock h) (h_aborted h) set_abort (h_resolver h)
    (h_self h) (h_set_self h) locals set_locals fuel fuel' fuel'' isn s device ([], w) in
  o <> Undefined /\ ((exists n, o = Ok (Some n)) \/ (exists e, o = Throw e) -> fds w' = fds w) /\
  (forall n, o = Ok (Some n) -> n = 0 /\ served s w w').
Proof.
  intros Hdev Hstart Hcfg. unfold SpongeClient.run. apply launch_spec with (Post := fun '(o, (_, w')) => _); [done..| |by intros; split_and!].
  intros dev own td dfd ofd tfd w0 Hla. destruct (launched_fresh _ _ _ _ _ _ _ _ (st_owners _ _ _ Hstart) Hla) as (Hfresh & Hd & Fd & Ft & Fo).
  pose proof (launched_gone _ _ _ _ _ _ _ _ Hla) as Hgone. pose proof Hla as [_ (Hdo & Hdt & Hot) _ [Hab _] Hstd _].
  pose proof (with_socket_copies (placed h live own td tfd) _ locals set_locals Hlocals Hsep hung Hhung set_abort Habort fuel fuel' fuel'' isn
    (listen s) (c_fsm s) (c_filt s) w0 dev ofd tfd dfd Hfresh Hcfg Hd Fd Ft Fo Hab Hdo Hot Hstd) as H.
  simpl in H. unfold mbind, io_bind. destruct (SpongeClient.with_socket _ _ _ _ _ _ _ _ _ _ _ _ _ _ _ _ _ _ _ _ _ _) as [[r|e| |] [rules w']]; try done.
  - destruct H as (_ & (e & heard & said & Htr) & Hfds & Hcopy). destruct r; simpl; split_and!; try done.
    + intros _. rewrite <- Hgone. by apply Hfds; left.
    + intros n [= <-]. destruct (Hcopy eq_refl) as (w1 & w2 & Hran & Hcop). split; [done|].
      by exists dev, own, td, dfd, ofd, tfd, w0, e, heard, said, w1, w2.
    + by intros [[n Hn]|[e' He]].
  - destruct H as (_ & _ & Hfds & _). split_and!; try done. intros _. rewrite <- Hgone. apply Hfds. right. by eexists.
  - by destruct H as [? _].
  - split_and!; try done. by intros [[n Hn]|[e' He]].
Qed.

End programs.

(** ** Properties *)

(** C20. The clients, from start to exit.  On any machine on which descriptors can be opened, with
    any device whose adapter keeps its promises, whatever the command line says, the peer, the
    terminal, the network and the clock do and however long the loops run: once the command line
    is read without undefined behaviour into a usable configuration, [main] of [tcp_ipv4],
    [tcp_udp] and [tcp_ip_ethernet] never reaches undefined behaviour and no exception leaves it.
    When it returns, with whatever status, every handle it made is gone.  When it returns 0, it
    has shown its usage text, or it has made a socket whose thread was an endpoint of Endpoint.v
    and has copied: the bytes written in each direction between the terminal and the owner's end
    of the socket pair are a prefix of those read, and all of them if the owner's end was open
    when the copying began and [poll] reports neither a signal nor a hangup. *)
Theorem clients_copy (h : host) (live : Z -> h_adapter h -> gmap Z Z -> Prop)
  (sys_socketpair : h_state h -> Z -> Z -> Z -> Z * Z * (Z * Z) * h_state h) (opened : h_state h -> Z -> Prop)
  (Hpad : LaunchPad h live sys_socketpair opened)
  (locals : h_state h -> StreamCopy.t) (set_locals : StreamCopy.t -> h_state h -> h_state h)
  (Hlocals : LoggedKernel (h_sys h) (h_net h) (h_poll h) locals set_locals (h_sent h) (h_got h))
  (Hsep : forall s k, h_self h (set_locals s k) = h_self h k) (hung : Z -> Prop) (Hhung : reports_hangups (h_poll h) hung)
  (set_abort : h_state h -> h_state h) (Habort : abort_ok h (Some set_abort)) (fuel fuel' fuel'' : nat) (isn : Z)
  (Conf : Type) (get_config : list string -> outcome (ending Conf)) (settings_of : Conf -> settings)
  (device : Conf -> io FileDescriptor.world (Z * h_adapter h)) (Hdevice : forall c, makes_device opened live (device c))
  (argv : list string) (Hconcluded : concluded (get_config argv))
  (Hconfig : forall c curr, get_config argv = Ok (Parsed c curr) -> config_ok (c_fsm (settings_of c)) isn)
  (w : FileDescriptor.world) (Hstart : started h opened w) :
  let '(o, (_, w')) := SpongeClient.main (h_sys h) (h_net h) (h_poll h) sys_socketpair (h_clock h) (h_aborted h) set_abort (h_resolver h)
    (h_self h) (h_set_self h) locals set_locals get_config settings_of device fuel fuel' fuel'' isn argv ([], w) in
  o <> Undefined /\ (forall e, o <> Throw e) /\ (forall n, o = Ok (Some n) -> fds w' = fds w) /\
  (o = Ok (Some 0) -> (exists message, get_config argv = Ok (Exited 0 message)) \/
     exists c curr, get_config argv = Ok (Parsed c curr) /\
       served h live locals set_locals hung fuel fuel' isn (settings_of c) w w').
Proof.
  unfold SpongeClient.main. destruct (zlen argv <? 3); [by split_and!|].
  unfold catch, mbind at 1, io_bind at 1, TCPSpongeSocket.machine, pure_.
  destruct (get_config argv) as [[c curr|status message]|e| |] eqn:Ec; try done; [|by split_and!; try done; intros [= ->]; left; eexists].
  pose proof (run_spec h live sys_socketpair opened locals set_locals Hlocals Hsep hung Hhung set_abort Habort fuel fuel' fuel'' isn
    (settings_of c) (device c) w (Hdevice c) Hstart (Hconfig c curr eq_refl)) as H.
  destruct (SpongeClient.run _ _ _ _ _ _ _ _ _ _ _ _ _ _ _ _ _ _ ([], w)) as [[r|e| |] [rules w']]; destruct H as (Hu & Hf & Hs); try done.
  - split_and!; try done; [intros n [= ->]; apply Hf; left; by eexists|]. intros [= ->]. right. exists c, curr. split; [done|]. exact (proj2 (Hs 0 eq_refl)).
  - split_and!; try done. intros n _. apply Hf. right. by eexists.
Qed.

(** ** A client that copies

    The scripts of Sessions.v on a machine without handles: the terminal holds five bytes, the
    peer has sent eight, which wait at the owner's end of the socket pair. *)
Definition scripted_pair {A} (k : scripted A) (_ _ _ : Z) : Z * Z * (Z * Z) * scripted A := (0, 0, (10, 11), k).

Definition scripted_opened {A} (k : scripted A) (fd : Z) : Prop := fd = 0 \/ fd = 1 \/ fd = 12 /\ is_Some (tm_sent k !! 12).

#[export] Instance scripted_opens {A} : OpensDescriptors (tun_kernel (A := A)) tun_net scripted_pair scripted_opened.
Proof.
  split; try done.
  - intros k p f r e x k'. simpl. destruct (bool_decide_reflect (is_Some (tm_sent k !! 12))) as [H|H]; intros [= <- <- <- <-].
    + by split_and!.
    + split_and!; try done.
      * intros _. split; [by intros [|[|[]]]|]. right; right. simpl. rewrite lookup_insert_eq. split; [done|by eexists].
      * intros fd [->|[->|[-> ?]]]; [by left|by right; left|done].
  - intros k d t p r e x k' [= <- <- <- <-]. by split_and!.
  - intros k d t p r e a b k' [= <- <- <- <- <-]. split_and!; try done. intros _. split_and!; try done; by intros [|[|[]]].
  - intros k fd iov fd' [->|[->|[-> Hs]]]; [by left|by right; left|]. right; right. split; [done|]. simpl.
    apply lookup_insert_is_Some. destruct (decide (fd = 12)); [by left|by right].
Qed.

Definition scripted_start {A} (self : TCPSpongeSocket.t (recording A)) (scripts : gmap Z (list byte)) : FileDescriptor.world :=
  FileDescriptor.World (TunMachine (User [] no_locals) self scripts [] ∅ ∅ [] 0) ∅.

Definition client_live (tfd : Z) (r : recording (lossy Z tun_adapter)) (F : gmap Z Z) : Prop := tun_live tfd (_inner (recorded r)) F.

#[export] Instance client_pad : LaunchPad tun_host client_live scripted_pair scripted_opened.
Proof.
  split; [|apply scripted_opens]. intros own td tfd. apply (scripted_host_ok tun_lossy_adapter own td tfd (fun l F => tun_live tfd (_inner l) F)).
  apply tun_lossy_quiet.
Qed.

Definition client_world : FileDescriptor.world :=
  scripted_start (tm_self (FileDescriptor.kernel (tun_script ∅ []))) {[ 0 := replicate 5 Byte.x41; 10 := replicate 8 Byte.x42 ]}.

Definition client_device (s : settings) : io FileDescriptor.world (Z * recording (lossy Z tun_adapter)) :=
  recording_device (SpongeClient.tun_device (tun_kernel (A := lossy Z tun_adapter)) tun_net numeric_resolver 0 s).

Definition client_argv : list string := ["tcp_ipv4"; "10.0.0.2"; "1234"]%string.

Definition client_main (fuel : nat) :=
  SpongeClient.main tun_kernel tun_net tun_poll scripted_pair tun_clock tun_aborted stop numeric_resolver tm_self tm_set_self tm_locals tm_set_locals
    (SpongeAdapter0 := h_calls tun_host) (ipv4_get_config numeric_resolver 5000) id client_device fuel fuel fuel 7 client_argv ([], client_world).

Lemma client_result :
  let '(o, (_, w')) := client_main 40 in
  (o, tun_sent (FileDescriptor.kernel w') 10, tun_sent (FileDescriptor.kernel w') 1, fds w') =
    (Ok (Some 0), replicate 5 Byte.x41, replicate 8 Byte.x42, ∅).
Proof. vm_compute. reflexivity. Qed.

Lemma scripted_poll_hangs {A} : reports_hangups (tun_poll (A := A)) (fun _ => False).
Proof.
  intros k ps t r e ps' k' [= <- <- <- <-]. apply Forall_fmap, Forall_forall. intros p _. simpl. by destruct (_ && _).
Qed.

Lemma client_settings : exists c curr, ipv4_get_config numeric_resolver 5000 client_argv = Ok (Parsed c curr) /\ c_fsm c = TCPConfig.make.
Proof. do 2 eexists. split; vm_compute; reflexivity. Qed.

Lemma default_config_ok isn : 0 <= isn < two32 -> config_ok TCPConfig.make isn.
Proof. intros H. by split. Qed.

Lemma client_started : started tun_host scripted_opened client_world.
Proof. split; [by left|by right; left|]. change (fds client_world) with (∅ : gmap Z (Z * Z)). apply map_Forall_empty. Qed.

Lemma client_device_made (c : settings) : makes_device (SpongeAdapter0 := h_calls tun_host) scripted_opened client_live (client_device c).
Proof.
  apply (recording_made (SpongeAdapter0 := tun_lossy_adapter) scripted_opened (fun tfd l F => tun_live tfd (_inner l) F)
    (SpongeClient.tun_device (tun_kernel (A := lossy Z tun_adapter)) tun_net numeric_resolver 0 c)).
  eapply tun_device_made; apply _.
Qed.

Lemma client_config_concluded : concluded (ipv4_get_config numeric_resolver 5000 client_argv).
Proof. destruct client_settings as (c & curr & -> & _). done. Qed.

Lemma client_config_usable c curr :
  ipv4_get_config numeric_resolver 5000 client_argv = Ok (Parsed c curr) -> config_ok (c_fsm (id c)) 7.
Proof. destruct client_settings as (c' & curr' & -> & Hfsm). intros [= <- <-]. unfold id. rewrite Hfsm. by apply default_config_ok. Qed.

Lemma clients_copy_witness :
  let '(o, (_, w')) := client_main 40 in
  o = Ok (Some 0) /\ fds w' = fds client_world /\
  exists c curr, ipv4_get_config numeric_resolver 5000 client_argv = Ok (Parsed c curr) /\
    served tun_host client_live tm_locals tm_set_locals (fun _ => False) 40 40 7 c client_world w'.
Proof.
  destruct client_settings as (c0 & curr0 & Hc & _). assert (Ho : (client_main 40).1 = Ok (Some 0)) by (vm_compute; reflexivity).
  pose proof (clients_copy tun_host client_live scripted_pair scripted_opened client_pad tm_locals tm_set_locals tun_copies (fun s k => eq_refl)
    (fun _ => False) scripted_poll_hangs stop stop_ok 40 40 40 7 settings (ipv4_get_config numeric_resolver 5000) id client_device
    client_device_made client_argv client_config_concluded client_config_usable client_world client_started) as H.
  change (let '(o, (_, w')) := client_main 40 in o <> Undefined /\ (forall e, o <> Throw e) /\ (forall n, o = Ok (Some n) -> fds w' = fds client_world) /\
    (o = Ok (Some 0) -> (exists message, ipv4_get_config numeric_resolver 5000 client_argv = Ok (Exited 0 message)) \/
       exists c curr, ipv4_get_config numeric_resolver 5000 client_argv = Ok (Parsed c curr) /\
         served tun_host client_live tm_locals tm_set_locals (fun _ => False) 40 40 7 c client_world w')) in H.
  destruct (client_main 40) as [o [rules w']]. cbn [fst] in Ho. destruct H as (_ & _ & H3 & H4). split; [exact Ho|]. split; [by eapply H3|].
  destruct (H4 Ho) as [[message Hm]|Hs]; [|exact Hs]. rewrite Hc in Hm. discriminate.
Defined.
