(* ===== verification/Webget.v ===== *)
(** * Webget.v: a client of the whole stack

    Models [apps/webget.cc] and the constructor of [FullStackSocket]
    ([libsponge/tcp_helpers/tcp_sponge_socket.cc]): a socket whose TCP segments travel in IP
    datagrams in Ethernet frames sends a request and shows what comes back.  The owner's part
    and the thread's part of the socket meet through the two ends of a socket pair; as in
    SpongeSocket.v the thread does its work where the owner joins it.  [shown] is what has been
    written to the standard output. *)

From stdpp Require Import gmap list pretty.
From S2P Require Import Prelude Wrapping Streams Reassembler Buffers Parsing TcpWire Receiver Sender Connection TcpState.
From S2P Require Import IpWire EtherWire Addresses NetIf Adapters Totality CmdLine FileDesc EventLoop Sockets Handles StreamCopy Programs.
From S2P Require Import SpongeSocket Transfer Endpoint SpongeThread Devices Sessions Clients Launch.

Module Webget.

Definition CRLF : list byte := [Byte.x0d; Byte.x0a].

(** [req]. *)
Definition request (host path : string) : list byte :=
  String.list_byte_of_string "GET " ++ String.list_byte_of_string path ++ String.list_byte_of_string " HTTP/1.1" ++ CRLF ++
  String.list_byte_of_string "Host: " ++ String.list_byte_of_string host ++ CRLF ++
  String.list_byte_of_string "Connection: close" ++ CRLF ++ CRLF.

Section webget.

Context {K A : Type} (sys : Kernel K) (net : SocketCalls K)
  (sys_poll : K -> list EventLoop.pollfd -> Z -> Z * Z * list EventLoop.pollfd * K)
  (sys_socketpair : K -> Z -> Z -> Z -> Z * Z * (Z * Z) * K)
  (clock : K -> Z * K) (aborted : K -> bool) (set_abort : K -> K) (R : Address.Resolver)
  (self : K -> TCPSpongeSocket.t A) (set_self : TCPSpongeSocket.t A -> K -> K)
  (shown : K -> list byte) (set_shown : list byte -> K -> K)
  `{!SpongeAdapter (FileDescriptor.world (K := K)) A} (as_adapter : EthAdapter.t -> A).

#[local] Abbreviation W := (FileDescriptor.world (K := K)).
#[local] Abbreviation ST := (list (EventLoop.Rule K) * W)%type.

(** [cout << resp]. *)
Definition show (resp : list byte) : io W unit := modify (fun w =>
  FileDescriptor.set_kernel (set_shown (shown (FileDescriptor.kernel w) ++ resp) (FileDescriptor.kernel w)) w).

(** [while (!socket.eof())], for at most [fuel] rounds. *)
Fixpoint read_loop (fuel : nat) (socket : Z) : io W unit :=
  match fuel with
  | O => pure_ OutOfFuel
  | S fuel =>
      at_eof ← FileDescriptor.eof socket;
      if at_eof : bool then mret tt
      else
        resp ← FileDescriptor.read sys socket SIZE_MAX;
        _ ← show resp;
        read_loop fuel socket
  end.

(** What the owner does with the connected socket. *)
Definition fetch (fuel : nat) (socket : Z) (req : list byte) : io W unit :=
  _ ← FileDescriptor.write sys socket (BufferViewList.of_string req) true;
  read_loop fuel socket.

Definition LOCAL_TAP_NEXT_HOP_ADDRESS : string := "169.254.10.1".

(** The adapter of a [FullStackSocket], given six random bytes. *)
Definition full_stack_device (random : list Z) : io W (Z * A) :=
  tap ← TunTapFD.make sys net (String.list_byte_of_string "tap10") false;
  a ← destroying (FileDescriptor.release sys tap) (
    ip_address ← pure_ (Address.of_host R LOCAL_TAP_IP_ADDRESS "0");
    next_hop ← pure_ (Address.of_host R LOCAL_TAP_NEXT_HOP_ADDRESS "0");
    EthAdapter.make sys R tap (random_private_ethernet_address random) ip_address next_hop);
  mret (tap, as_adapter a).

(** [FullStackSocket::FullStackSocket()]: the handles of the device and of the two ends of the
    socket pair. *)
Definition full_stack_socket (random : list Z) : io W (Z * Z * Z) :=
  SpongeClient.make_socket sys net sys_socketpair self set_self (full_stack_device random).

(** The argument of [TCPSpongeSocket::connect] that [FullStackSocket::connect] makes of
    [Address(host, "http")]. *)
Definition server_config (random_port : Z) (host : string) : outcome FdAdapterConfig.t :=
  address ← Address.of_host R host "http";
  '(_, multiplexer_config) ← full_stack_config R random_port address;
  Ok multiplexer_config.

(** The rest of [get_URL], with the socket: [fuel], [fuel'] and [fuel''] bound the rounds of
    [connect], of the owner and of the thread, [isn] is the random initial sequence number. *)
Definition with_socket (fuel fuel' fuel'' : nat) (isn random_port : Z) (host path : string) (tap own thread_data : Z)
  : io ST TCPSpongeSocket.thread_end :=
  scoped sys net sys_poll clock aborted self set_self own thread_data tap
    (opening sys net sys_poll clock aborted R self set_self thread_data client_tcp_config isn true fuel (server_config random_port host))
    (fetch fuel' own (request host path)) set_abort fuel''.

Definition get_URL (fuel fuel' fuel'' : nat) (random : list Z) (isn random_port : Z) (host path : string)
  : io ST TCPSpongeSocket.thread_end :=
  '(tap, own, thread_data) ← TCPSpongeSocket.machine (full_stack_socket random);
  with_socket fuel fuel' fuel'' isn random_port host path tap own thread_data.

(** [main]: the exit status, or [None] when the program is aborted: without a name, or by an
    exception that leaves the thread. *)
Definition main (fuel fuel' fuel'' : nat) (random : list Z) (isn random_port : Z) (argv : list string) : io ST (option Z) :=
  if zlen argv <=? 0 then mret None
  else if negb (zlen argv =? 3) then mret (Some 1)
  else
    catch (
      host ← pure_ (argument argv 1);
      path ← pure_ (argument argv 2);
      r ← get_URL fuel fuel' fuel'' random isn random_port host path;
      mret (match r with TCPSpongeSocket.Joined => Some 0 | TCPSpongeSocket.Terminated => None end)) (fun _ => mret (Some 1)).

End webget.

End Webget.

(** ** The owner *)

Section owner.

Context {K A : Type} (sys : Kernel K) (net : SocketCalls K)
  (sys_poll : K -> list EventLoop.pollfd -> Z -> Z * Z * list EventLoop.pollfd * K)
  (self : K -> TCPSpongeSocket.t A) (set_self : TCPSpongeSocket.t A -> K -> K) (shown : K -> list byte) (set_shown : list byte -> K -> K)
  (sent got : K -> Z -> list byte)
  `{!PosixKernel sys sent} `{!LoggedKernel sys net sys_poll self set_self sent got}
  `{!LoggedKernel sys net sys_poll shown set_shown sent got}.
Hypothesis Hsep : forall s k, self (set_shown s k) = self k.

#[local] Abbreviation W := (FileDescriptor.world (K := K)).

Context (socket fd : Z).

#[local] Abbreviation sent_on w := (sent (FileDescriptor.kernel w) fd).
#[local] Abbreviation got_on w := (got (FileDescriptor.kernel w) fd).
#[local] Abbreviation shown_in w := (shown (FileDescriptor.kernel w)).

(** Between two worlds the owner wrote [x] to its socket, and read and showed [page]. *)
Record fetched (x page : list byte) (w w' : W) : Prop := {
  fe_fds : fds w' = fds w;
  fe_sent : sent_on w' = sent_on w ++ x;
  fe_got : got_on w' = got_on w ++ page;
  fe_shown : shown_in w' = shown_in w ++ page
}.

Lemma fetched_refl w : fetched [] [] w w.
Proof. by split; rewrite ?app_nil_r. Qed.

Lemma fetched_trans x y p q w1 w2 w3 : fetched x p w1 w2 -> fetched y q w2 w3 -> fetched (x ++ y) (p ++ q) w1 w3.
Proof. intros [A1 A2 A3 A4] [B1 B2 B3 B4]. split; [congruence|..]; rewrite app_assoc; congruence. Qed.

Lemma socket_read w n : fds w !! socket = Some (fd, n) ->
  wp (FileDescriptor.read sys socket SIZE_MAX)
    (fun data w' => fds w' = fds w /\ sent_on w' = sent_on w /\ got_on w' = got_on w ++ data /\ shown_in w' = shown_in w /\
       exists k n e k', sys_read sys k fd n = (zlen data, e, data, k'))
    (fetched [] [] w) w.
Proof.
  intros Hn. destruct (fds_lookup _ _ _ _ Hn) as (x & Hx & Hfd).
  pose proof (fd_read_correct sys sent _ w socket SIZE_MAX x ltac:(by exists n) ltac:(by unfold SIZE_MAX)) as Hr.
  pose proof (read_respects sys socket SIZE_MAX w) as Hf. unfold same_fds in Hf.
  rewrite Hfd in Hr. destruct (sys_read sys _ fd _) as [[[r e1] data] k] eqn:Er.
  destruct (logged_read (self := shown) _ _ _ _ _ _ _ Er) as (Hs & Hse & Hgo).
  assert (Hmin : 0 <= Z.min FileDescriptor.BUFFER_SIZE SIZE_MAX) by done.
  destruct (read_returns _ _ _ _ _ _ _ Hmin Er) as (Hrange & _ & _ & Hlen).
  destruct Hr as (w' & Hk & Hr). unfold wp. destruct (Z.eqb_spec r (-1)) as [->|Hne].
  - destruct Hr as [Hrd _]. rewrite Hrd in Hf |- *. split; [done|..]; rewrite Hk, ?app_nil_r, ?Hse, ?Hs; try done.
    rewrite Hgo. destruct (decide _) as [[_ ?]|_]; [lia|]. apply app_nil_r.
  - destruct Hr as (Hrd & _). rewrite Hrd in Hf |- *. rewrite Hk. split_and!; try done.
    + rewrite Hgo, decide_True by (split; [done|lia]). done.
    + rewrite (Hlen ltac:(lia)). by do 4 eexists.
Qed.

Lemma read_loop_spec fuel : forall w n, fds w !! socket = Some (fd, n) ->
  let '(o, w') := Webget.read_loop sys shown set_shown fuel socket w in
  o <> Undefined /\ (o = Ok tt -> eof_of w' socket = true) /\ exists page, fetched [] page w w'.
Proof.
  induction fuel as [|fuel IH]; intros w n Hn; cbn [Webget.read_loop].
  { split; [done|]. split; [done|]. exists []. apply fetched_refl. }
  destruct (fds_lookup _ _ _ _ Hn) as (x & Hx & Hfd). unfold FileDescriptor.eof, FileDescriptor.internal.
  unfold mbind at 1, io_bind at 1. unfold mbind at 1, io_bind at 1. rewrite Hx. unfold mret at 1, io_ret at 1.
  destruct (FDWrapper._eof x) eqn:Ee.
  { split; [done|]. split; [intros _; unfold eof_of; by rewrite Hx|]. exists []. apply fetched_refl. }
  pose proof (socket_read w n Hn) as Hr. unfold wp in Hr. unfold mbind at 1, io_bind at 1.
  destruct (FileDescriptor.read sys socket SIZE_MAX w) as [[data|e| |] w1]; try done.
  2:{ split; [done|]. split; [done|]. by exists []. }
  destruct Hr as (H1 & H2 & H3 & H4 & _). unfold mbind, io_bind, Webget.show, modify. set (w2 := FileDescriptor.set_kernel _ w1).
  assert (Hstep : fetched [] data w w2).
  { split; simpl; rewrite ?app_nil_r; [done| | |].
    - by rewrite (logged_sent (self := shown)).
    - by rewrite (logged_got (self := shown)).
    - rewrite (logged_set (sys := sys) (net := net) (sys_poll := sys_poll) (sent := sent) (got := got)). by rewrite H4. }
  specialize (IH w2 n ltac:(by change (fds w2) with (fds w1); rewrite H1)).
  destruct (Webget.read_loop sys shown set_shown fuel socket w2) as [o w']. destruct IH as (I1 & I2 & page & I3).
  split; [done|]. split; [done|]. exists (data ++ page). by apply (fetched_trans [] [] _ _ _ w2).
Qed.

Lemma fetch_spec fuel req w n : fds w !! socket = Some (fd, n) -> zlen req < two63 ->
  let '(o, w') := Webget.fetch sys shown set_shown fuel socket req w in
  o <> Undefined /\ exists x page, fetched x page w w' /\ x `prefix_of` req /\ (o = Ok tt -> x = req /\ eof_of w' socket = true).
Proof.
  intros Hn Hlen. destruct (fds_lookup _ _ _ _ Hn) as (x & Hx & Hfd).
  assert (Hall : all_bytes (BufferViewList.of_string req) = req) by (unfold all_bytes; simpl; apply app_nil_r).
  pose proof (write_respects sys socket (BufferViewList.of_string req) true w) as Hf. unfold same_fds in Hf.
  destruct (write_loop_spec sys sent (fun k => shown k = shown_in w /\ got k fd = got_on w) socket fd true
    (S (length (all_bytes (BufferViewList.of_string req))))) with (buffer := BufferViewList.of_string req) (total := 0) (w := w) (x := x)
    as (o & w1 & m & Hrun & Hm & Hs & [Ho Hg] & _ & Hout); try done; rewrite ?Hall in *; try lia.
  { intros k iov r e1 k' Hsys [<- <-]. by destruct (logged_writev (self := shown) _ _ _ _ _ _ Hsys) as (G1 & G2 & G3). }
  { by exists n. }
  unfold Webget.fetch, mbind, io_bind. unfold FileDescriptor.write in *. rewrite Hall in *. rewrite Hrun in Hf |- *. simpl in Hf.
  assert (Hw : fetched (ztake m req) [] w w1) by (by split; rewrite ?app_nil_r).
  assert (Hp : ztake m req `prefix_of` req) by (exists (zdrop m req); by rewrite ztake_zdrop).
  destruct o as [r|er| |]; try done; [|split; [done|]; by exists (ztake m req), []].
  destruct Hout as [-> Hful]. specialize (Hful eq_refl). pose proof (read_loop_spec fuel w1 n ltac:(by rewrite Hf)) as Hloop.
  destruct (Webget.read_loop _ _ _ fuel socket w1) as [o w']. destruct Hloop as (H1 & H2 & page & H3). split; [done|].
  exists (ztake m req ++ []), ([] ++ page). split; [by eapply fetched_trans|]. rewrite app_nil_r. split; [done|].
  intros ->. split; [apply ztake_ge; lia|auto].
Qed.

(** The thread's end of the pair is left alone. *)
Lemma fetch_elsewhere tfd fuel req : respects (elsewhere self sent got tfd socket) (Webget.fetch sys shown set_shown fuel socket req).
Proof.
  pose proof (elsewhere_preorder self sent got tfd socket) as Hpre.
  unfold Webget.fetch. apply respects_bind; [done|by eapply write_elsewhere|]. intros _.
  induction fuel as [|fuel IH]; cbn [Webget.read_loop]; [by intros w|].
  apply respects_bind; [done|unfold FileDescriptor.eof; respecting; by intros w|]. intros [|]; [by intros w|].
  apply respects_bind; [done|by eapply read_elsewhere|]. intros data. apply respects_bind; [done| |done].
  intros w. split; [done|]. intros _ _ _ _. unfold Webget.show, modify. split; [done|]. simpl.
  by rewrite (logged_sent (self := shown)), (logged_got (self := shown)), Hsep.
Qed.

Lemma fetch_owner_ok tfd fuel req F : F !! socket = Some fd -> fd <> tfd -> zlen req < two63 ->
  owner_ok self sent got tfd F (Webget.fetch sys shown set_shown fuel socket req).
Proof.
  intros HF Hne Hlen w Hnum _. rewrite <- Hnum in HF. unfold numbers in HF. rewrite lookup_fmap in HF.
  destruct (fds w !! socket) as [[fd' n]|] eqn:E; [|done]. injection HF as ->.
  pose proof (fetch_spec fuel req w n E Hlen) as H. pose proof (fetch_elsewhere tfd fuel req w) as [_ He].
  destruct (Webget.fetch _ _ _ fuel socket req w) as [o w']. specialize (He fd n E Hne). destruct H as [Hu _].
  destruct o; try done. by destruct He as (_ & He).
Qed.

End owner.

(** ** From the constructed socket to its destructor *)

#[local] Existing Instance h_calls.
#[local] Hint Resolve of_host_total : total.

Lemma server_config_total R `{!SoundResolver R} random_port host : concluded (Webget.server_config R random_port host).
Proof.
  unfold Webget.server_config, full_stack_config, client_config, FdAdapterConfig.make. concluding.
Qed.

Lemma client_config_ok isn : 0 <= isn < two32 -> config_ok client_tcp_config isn.
Proof. intros H. split; simpl; try done. Qed.

(** With the connected socket, on any machine and with any adapter that keeps its promises. *)
Lemma with_socket_fetches (h : host) (Hh : HostOk h) (HR : SoundResolver (h_resolver h))
  (shown : h_state h -> list byte) (set_shown : list byte -> h_state h -> h_state h)
  (Hshown : LoggedKernel (h_sys h) (h_net h) (h_poll h) shown set_shown (h_sent h) (h_got h))
  (Hsep : forall s k, h_self h (set_shown s k) = h_self h k)
  (set_abort : h_state h -> h_state h) (Habort : abort_ok h (Some set_abort))
  (fuel fuel' fuel'' : nat) (isn random_port : Z) (server path : string) (w : FileDescriptor.world) (tap ofd tfd' afd : Z)
  (Hw : fresh_socket h w) (Htap : tap = ad_fd (TCPSpongeSocket._datagram_adapter (h_self h (FileDescriptor.kernel w))))
  (Hisn : 0 <= isn < two32) (Hreq : zlen (Webget.request server path) < two63)
  (Hdevice : fds w !! tap = Some (afd, 1)) (Hthread : fds w !! h_thread_data h = Some (tfd', 1)) (Hown : fds w !! h_own h = Some (ofd, 1))
  (Hends : ofd <> h_tfd h) (Hd1 : tap <> h_own h) (Hd2 : h_own h <> h_thread_data h) :
  let '(o, (_, w')) := Webget.with_socket (h_sys h) (h_net h) (h_poll h) (h_clock h) (h_aborted h) set_abort (h_resolver h)
    (h_self h) (h_set_self h) shown set_shown fuel fuel' fuel'' isn random_port server path tap (h_own h) (h_thread_data h) ([], w) in
  o <> Undefined /\ (exists e heard said, travelled h client_tcp_config isn w w' e heard said) /\
  (o = Ok TCPSpongeSocket.Joined \/ (exists e, o = Throw e) ->
     fds w' = delete (h_own h) (delete (h_thread_data h) (delete tap (fds w)))) /\
  (o = Ok TCPSpongeSocket.Joined -> exists w1 w2 page,
     owner_ran (host_opening h true fuel client_tcp_config isn (Webget.server_config (h_resolver h) random_port server))
       (Webget.fetch (h_sys h) shown set_shown fuel' (h_own h) (Webget.request server path)) ([], w) (numbers w) tt w1 w2 /\
     fetched shown (h_sent h) (h_got h) ofd (Webget.request server path) page w1 w2 /\ eof_of w2 (h_own h) = true).
Proof.
  subst tap. pose proof Hh as [Hposix Hlogged _ _ _ _].
  assert (HF : numbers w !! h_own h = Some ofd) by (unfold numbers; by rewrite lookup_fmap, Hown).
  pose proof (fetch_owner_ok _ _ _ _ _ shown set_shown _ _ Hsep (h_own h) ofd (h_tfd h) fuel' (Webget.request server path)
    (numbers w) HF Hends Hreq) as Howner.
  pose proof (socket_scope_spec h true _ set_abort fuel fuel'' client_tcp_config isn (Webget.server_config (h_resolver h) random_port server) w
    Hw (client_config_ok isn Hisn) Habort (server_config_total _ random_port server) Howner
    (ex_intro _ _ Hdevice) (ex_intro _ _ Hthread) (ex_intro _ _ Hown) Hd1 Hd2) as H.
  unfold Webget.with_socket. unfold socket_scope, host_opening in H. destruct (scoped _ _ _ _ _ _ _ _ _ _ _ _ _ _ _) as [o [rules w']].
  destruct H as (H1 & H2 & H3 & H4). split; [done|]. split; [done|]. split; [done|]. intros Ho.
  destruct (H4 Ho) as ([] & w1 & w2 & Hran). pose proof Hran as (rules1 & _ & Hn & _ & Hrun). rewrite <- Hn in HF. unfold numbers in HF. rewrite lookup_fmap in HF.
  destruct (fds w1 !! h_own h) as [[fd' n]|] eqn:E; [|done]. injection HF as ->.
  pose proof (fetch_spec (h_sys h) (h_net h) (h_poll h) shown set_shown (h_sent h) (h_got h) (h_own h) ofd fuel'
    (Webget.request server path) w1 n E Hreq) as Hf.
  rewrite Hrun in Hf. destruct Hf as (_ & x & page & Hfe & _ & Hall). destruct (Hall eq_refl) as [-> He].
  by exists w1, w2, page.
Qed.

(** ** The whole program *)

Section programs.

Context (h : host) (live : Z -> h_adapter h -> gmap Z Z -> Prop)
  (sys_socketpair : h_state h -> Z -> Z -> Z -> Z * Z * (Z * Z) * h_state h) (opened : h_state h -> Z -> Prop)
  (Hpad : LaunchPad h live sys_socketpair opened) (HR : SoundResolver (h_resolver h))
  (as_adapter : EthAdapter.t -> h_adapter h).
Hypothesis Hadapter : forall a, ad_fd (as_adapter a) = EthAdapter._tap a.
Hypothesis Hlive : forall tfd a F, eth_live tfd a F -> live tfd (as_adapter a) F.

#[local] Abbreviation W := (FileDescriptor.world (K := h_state h)).

Lemma full_stack_made random :
  makes_device opened live (Webget.full_stack_device (h_sys h) (h_net h) (h_resolver h) as_adapter random).
Proof.
  intros w. pose proof (lp_host 0 0 0) as [Hposix _ _ _ _ _]. unfold Webget.full_stack_device. apply wp_bind.
  eapply wp_mono; [apply (tuntap_made (h_sys h) (h_net h) sys_socketpair opened)| |done]. intros tap w1 [fd Hn]. apply wp_bind.
  eapply wp_mono; [eapply (new_guarded (h_sys h) opened _ (fun a => EthAdapter._tap a = tap)); [done|]| |done].
  - apply wp_bind. eapply (wp_pure _ (fun _ => True)); [by apply of_host_total| |done]. intros ip_address _.
    apply wp_bind. eapply (wp_pure _ (fun _ => True)); [by apply of_host_total| |done]. intros next_hop _.
    eapply (eth_adapter_holds (h_sys h) (h_net h) sys_socketpair (h_sent h) opened); [done|by eapply new_handle_there].
  - intros a w2 [H Ha]. apply wp_ret. exists fd. split; [done|]. rewrite Hadapter. split; [done|].
    intros tfd F HF Hne. apply Hlive. exists fd. by rewrite Ha.
Qed.

Context (shown : h_state h -> list byte) (set_shown : list byte -> h_state h -> h_state h)
  (Hshown : LoggedKernel (h_sys h) (h_net h) (h_poll h) shown set_shown (h_sent h) (h_got h))
  (Hsep : forall s k, h_self h (set_shown s k) = h_self h k)
  (set_abort : h_state h -> h_state h) (Habort : abort_ok h (Some set_abort)) (fuel fuel' fuel'' : nat) (random : list Z) (isn random_port : Z).

(** Between two worlds the program made its socket, whose thread was an endpoint, sent the
    request and showed what it got. *)
Definition page_shown (server path : string) (w w' : W) : Prop := exists tap own thread_data dfd ofd tfd w0 e heard said w1 w2 page,
  launched live (h_self h) tap own thread_data dfd ofd tfd w w0 /\
  travelled (placed h live own thread_data tfd) client_tcp_config isn w0 w' e heard said /\
  owner_ran (host_opening (placed h live own thread_data tfd) true fuel client_tcp_config isn
      (Webget.server_config (h_resolver h) random_port server))
    (Webget.fetch (h_sys h) shown set_shown fuel' own (Webget.request server path)) ([], w0) (numbers w0) tt w1 w2 /\
  fetched shown (h_sent h) (h_got h) ofd (Webget.request server path) page w1 w2 /\ eof_of w2 own = true.

Lemma get_URL_spec server path (w : W) : started h opened w -> 0 <= isn < two32 -> zlen (Webget.request server path) < two63 ->
  let '(o, (_, w')) := Webget.get_URL (h_sys h) (h_net h) (h_poll h) sys_socketpair (h_clock h) (h_aborted h) set_abort (h_resolver h)
    (h_self h) (h_set_self h) shown set_shown as_adapter fuel fuel' fuel'' random isn random_port server path ([], w) in
  o <> Undefined /\ (o = Ok TCPSpongeSocket.Joined \/ (exists e, o = Throw e) -> fds w' = fds w) /\
  (o = Ok TCPSpongeSocket.Joined -> page_shown server path w w').
Proof.
  intros Hstart Hisn Hreq. unfold Webget.get_URL, Webget.full_stack_socket.
  apply (launch_spec h live sys_socketpair opened) with (Post := fun '(o, (_, w')) => _); [apply full_stack_made|done| |by intros; split_and!].
  intros tap own td dfd ofd tfd w0 Hla. destruct (launched_fresh _ _ _ _ _ _ _ _ _ _ (st_owners _ _ _ Hstart) Hla) as (Hfresh & Hd & Fd & Ft & Fo).
  pose proof (launched_gone _ _ _ _ _ _ _ _ _ _ Hla) as Hgone. pose proof Hla as [_ (Hdo & Hdt & Hot) _ [Hab _] _ _].
  pose proof (with_socket_fetches (placed h live own td tfd) _ HR shown set_shown Hshown Hsep set_abort Habort fuel fuel' fuel'' isn random_port
    server path w0 tap ofd tfd dfd Hfresh Hd Hisn Hreq Fd Ft Fo Hab Hdo Hot) as H.
  simpl in H. destruct (Webget.with_socket _ _ _ _ _ _ _ _ _ _ _ _ _ _ _ _ _ _ _ _ _ _) as [o [rules w']].
  destruct H as (Hu & (e & heard & said & Htr) & Hfds & Hpage). split; [done|]. split; [by rewrite <- Hgone|]. intros Ho.
  destruct (Hpage Ho) as (w1 & w2 & page & Hran & Hfe & He).
  by exists tap, own, td, dfd, ofd, tfd, w0, e, heard, said, w1, w2, page.
Qed.

End programs.

(** ** Properties *)

Lemma request_length server path : zlen (Webget.request server path) =
  zlen (String.list_byte_of_string server) + zlen (String.list_byte_of_string path) + 44.
Proof. unfold Webget.request, Webget.CRLF. rewrite !zlen_app. simpl. unfold zlen. simpl. lia. Qed.

(** C21. [webget], from start to exit.  On any machine on which descriptors can be opened, with
    an adapter over the TAP device that keeps its promises, whatever the arguments, the server,
    the network and the clock are and however long the loops run: [main] never reaches undefined
    behaviour and no exception leaves it.  When it returns, with whatever status, every handle it
    made is gone.  When it returns 0, it was called with a host and a path, it has made a socket
    whose thread was an endpoint of Endpoint.v, has written the whole request for that path to
    the owner's end of the socket pair, has read from there until the end, and has shown exactly
    what it read. *)
Theorem webget_fetches (h : host) (live : Z -> h_adapter h -> gmap Z Z -> Prop)
  (sys_socketpair : h_state h -> Z -> Z -> Z -> Z * Z * (Z * Z) * h_state h) (opened : h_state h -> Z -> Prop)
  (Hpad : LaunchPad h live sys_socketpair opened) (HR : SoundResolver (h_resolver h))
  (as_adapter : EthAdapter.t -> h_adapter h) (Hadapter : forall a, ad_fd (as_adapter a) = EthAdapter._tap a)
  (Hlive : forall tfd a F, eth_live tfd a F -> live tfd (as_adapter a) F)
  (shown : h_state h -> list byte) (set_shown : list byte -> h_state h -> h_state h)
  (Hshown : LoggedKernel (h_sys h) (h_net h) (h_poll h) shown set_shown (h_sent h) (h_got h))
  (Hsep : forall s k, h_self h (set_shown s k) = h_self h k)
  (set_abort : h_state h -> h_state h) (Habort : abort_ok h (Some set_abort)) (fuel fuel' fuel'' : nat)
  (random : list Z) (isn random_port : Z) (Hisn : 0 <= isn < two32)
  (argv : list string) (Hargv : Forall (fun a => zlen (String.list_byte_of_string a) < 2 ^ 61) argv)
  (w : FileDescriptor.world) (Hstart : started h opened w) :
  let '(o, (_, w')) := Webget.main (h_sys h) (h_net h) (h_poll h) sys_socketpair (h_clock h) (h_aborted h) set_abort (h_resolver h)
    (h_self h) (h_set_self h) shown set_shown as_adapter fuel fuel' fuel'' random isn random_port argv ([], w) in
  o <> Undefined /\ (forall e, o <> Throw e) /\ (forall n, o = Ok (Some n) -> fds w' = fds w) /\
  (o = Ok (Some 0) -> exists name server path, argv = [name; server; path] /\
     page_shown h live shown set_shown fuel fuel' isn random_port server path w w').
Proof.
  unfold Webget.main. destruct (zlen argv <=? 0); [by split_and!|]. destruct (Z.eqb_spec (zlen argv) 3) as [E|]; [|by split_and!].
  unfold zlen in E. destruct argv as [|name [|server [|path [|]]]]; try (simpl in E; lia).
  apply Forall_cons in Hargv as [_ [Hserver [Hpath _]%Forall_cons]%Forall_cons].
  pose proof (get_URL_spec h live sys_socketpair opened Hpad HR as_adapter Hadapter Hlive shown set_shown Hshown Hsep set_abort Habort
    fuel fuel' fuel'' random isn random_port server path w Hstart Hisn) as H. rewrite request_length in H.
  specialize (H ltac:(change two63 with (2 ^ 63); lia)). cbv [catch argument negb mbind io_bind pure_]. simpl.
  destruct (Webget.get_URL _ _ _ _ _ _ _ _ _ _ _ _ _ _ _ _ _ _ _ _ _ ([], w)) as [[r|e| |] [rules w']]; destruct H as (Hu & Hf & Hs); try done.
  - destruct r; split_and!; try done; [intros n _; by apply Hf; left|]. intros _. exists name, server, path. split; [done|by apply Hs].
  - split_and!; try done. intros n _. apply Hf. right. by eexists.
Qed.

(** ** A page is fetched *)

Definition web_page : list byte := String.list_byte_of_string "HTTP/1.1 200 OK".

(** A machine of Sessions.v with a TAP device. *)
Definition tap_calls : SpongeAdapter (FileDescriptor.world (K := scripted EthAdapter.t)) EthAdapter.t :=
  eth_sponge_adapter tun_kernel numeric_resolver.

Definition web_live (tfd : Z) (r : recording EthAdapter.t) (F : gmap Z Z) : Prop := eth_live tfd (recorded r) F.
Definition web_host : host := scripted_host tap_calls 0 1 11 (eth_live 11).

#[export] Instance web_pad : LaunchPad web_host web_live scripted_pair scripted_opened.
Proof.
  split; [|apply scripted_opens]. intros own td tfd. apply (scripted_host_ok tap_calls own td tfd (eth_live tfd)). eapply eth_quiet; apply _.
Qed.

Definition web_adapter (a : EthAdapter.t) : recording EthAdapter.t := Recording a [] [].

(** What the owner will read is the page. *)
Definition web_world : FileDescriptor.world :=
  scripted_start (TCPSpongeSocket.mk (web_adapter (EthAdapter.mk (TCPOverIPv4OverEthernetAdapter.mk (FdAdapterBase.mk client_ad false)
    (NetworkInterface.make (random_private_ethernet_address []) client_address) server_address) 0)) None false false false)
    {[ 10 := web_page ]}.

Lemma tap_stop_ok : abort_ok web_host (Some stop).
Proof. by intros f [= <-]. Qed.

Definition web_run (fuel : nat) :=
  Webget.main tun_kernel tun_net tun_poll scripted_pair tun_clock tun_aborted stop numeric_resolver tm_self tm_set_self tm_shown tm_set_shown
    (SpongeAdapter0 := h_calls web_host) web_adapter fuel fuel fuel [1; 2; 3; 4; 5; 6] 7 5000 ["webget"; "10.0.0.2"; "/"]%string ([], web_world).

Lemma web_shown :
  let '(o, (_, w')) := web_run 40 in
  (o, tm_shown (FileDescriptor.kernel w'), tun_sent (FileDescriptor.kernel w') 10, fds w') =
    (Ok (Some 0), web_page, Webget.request "10.0.0.2" "/", ∅).
Proof. vm_compute. reflexivity. Qed.

Lemma web_started : started web_host scripted_opened web_world.
Proof. split; [by left|by right; left|]. change (fds web_world) with (∅ : gmap Z (Z * Z)). apply map_Forall_empty. Qed.

Lemma web_args : Forall (fun a => zlen (String.list_byte_of_string a) < 2 ^ 61) ["webget"; "10.0.0.2"; "/"]%string.
Proof. by repeat constructor. Qed.

Lemma webget_fetches_witness :
  let '(o, (_, w')) := web_run 40 in
  o = Ok (Some 0) /\ fds w' = fds web_world /\ exists name server path, ["webget"; "10.0.0.2"; "/"]%string = [name; server; path] /\
    page_shown web_host web_live tm_shown tm_set_shown 40 40 7 5000 server path web_world w'.
Proof.
  assert (Ho : (web_run 40).1 = Ok (Some 0)) by (vm_compute; reflexivity).
  pose proof (webget_fetches web_host web_live scripted_pair scripted_opened web_pad numeric_sound web_adapter (fun a => eq_refl) (fun tfd a F H => H)
    tm_shown tm_set_shown tun_shows (fun s k => eq_refl) stop tap_stop_ok 40 40 40 [1; 2; 3; 4; 5; 6] 7 5000
    ltac:(split; [discriminate|reflexivity]) _ web_args web_world web_started) as H.
  change (let '(o, (_, w')) := web_run 40 in o <> Undefined /\ (forall e, o <> Throw e) /\ (forall n, o = Ok (Some n) -> fds w' = fds web_world) /\
    (o = Ok (Some 0) -> exists name server path, ["webget"; "10.0.0.2"; "/"]%string = [name; server; path] /\
       page_shown web_host web_live tm_shown tm_set_shown 40 40 7 5000 server path web_world w')) in H.
  destruct (web_run 40) as [o [rules w']]. cbn [fst] in Ho. destruct H as (_ & _ & H3 & H4). split; [exact Ho|]. split; [by eapply H3|].
  exact (H4 Ho).
Defined.
