(* ===== verification/TunDump.v ===== *)
(** * TunDump.v: a dump of what arrives at a TUN device

    Models [apps/tun.cc]: the program reads packets from a TUN device and shows each in
    hexadecimal, and its IPv4 and TCP headers when it has them.  [shown] is what has been
    written to the standard output; [what] gives the text of an exception.  The loop has no end
    in the code but an exception; it is run for a number of rounds. *)

From Stdlib Require Import Ascii.
From stdpp Require Import gmap list pretty.
From S2P Require Import Prelude Wrapping Streams Buffers Parsing TcpWire IpWire Addresses Printers Adapters Totality.
From S2P Require Import FileDesc EventLoop Sockets Handles StreamCopy SpongeSocket Devices Sessions Launch Webget.

Local Open Scope string_scope.
Local Open Scope Z_scope.

Module TunDump.

Definition GOT_PACKET : string := nl +:+ nl +:+ "***" +:+ nl +:+ "*** Got packet:" +:+ nl +:+ "***" +:+ nl.
Definition PARSE_IPV4 : string := "attempting to parse as ipv4 datagram... ".
Definition PARSE_TCP : string := nl +:+ "Attempting to parse as a TCP segment... ".
Definition FAILED : string := "failed." +:+ nl.
Definition NOT_TCP : string := nl +:+ "Not TCP, skipping." +:+ nl.

(** The lines that announce a header. *)
Definition ipv4_line (h : IPv4Header.t) : string := "success! totlen=" +:+ pretty (IPv4Header.len h) +:+ ", IPv4 header contents:" +:+ nl.
Definition tcp_line (s : TCPSegment.t) : string :=
  "success! payload len=" +:+ pretty (Buffer.size (TCPSegment.payload s)) +:+ ", TCP header contents:" +:+ nl.

Section tun.

Context {K : Type} (sys : Kernel K) (net : SocketCalls K) (shown : K -> list byte) (set_shown : list byte -> K -> K) (what : exn -> string).

#[local] Abbreviation W := (FileDescriptor.world (K := K)).

(** [cout << s]. *)
Definition show (s : string) : io W unit := Webget.show shown set_shown (String.list_byte_of_string s).

(** A turn of the loop, once the packet was read. *)
Definition packet (buffer : list byte) : io W unit :=
  _ ← show GOT_PACKET;
  dump ← pure_ (hexdump buffer 0);
  _ ← show dump;
  _ ← show PARSE_IPV4;
  '(r, ip_dgram) ← pure_ (IPv4Datagram.parse IPv4Datagram.make (Buffer.of_string buffer));
  if negb (bool_decide (r = NoError)) then show FAILED
  else
    let header := IPv4Datagram.header ip_dgram in
    _ ← show (ipv4_line header);
    _ ← show (ipv4_to_string header);
    if negb (IPv4Header.proto header =? IPv4Header.PROTO_TCP) then show NOT_TCP
    else
      _ ← show PARSE_TCP;
      payload ← pure_ (BufferList.to_buffer (IPv4Datagram.payload ip_dgram));
      '(r, tcp_seg) ← pure_ (TCPSegment.parse TCPSegment.make payload (IPv4Header.pseudo_cksum header));
      if negb (bool_decide (r = NoError)) then show FAILED
      else
        _ ← show (tcp_line tcp_seg);
        show (tcp_to_string (TCPSegment.header tcp_seg) +:+ nl).

(** [while (true)], for at most [fuel] rounds. *)
Fixpoint loop (fuel : nat) (tun : Z) : io W unit :=
  match fuel with
  | O => pure_ OutOfFuel
  | S fuel =>
      buffer ← FileDescriptor.read sys tun SIZE_MAX;
      _ ← packet buffer;
      loop fuel tun
  end.

(** [main] and its exit status. *)
Definition main (fuel : nat) : io W Z :=
  catch (
    tun ← TunTapFD.make sys net (String.list_byte_of_string "tun144") true;
    _ ← destroying (FileDescriptor.release sys tun) (loop fuel tun);
    _ ← FileDescriptor.release sys tun;
    mret 0)
  (fun e => _ ← show ("Exception: " +:+ what e +:+ nl); mret 1).

End tun.

End TunDump.

(** ** What is shown of a packet *)

(** The dump of a packet: one line for every 16 bytes. *)
Definition dump_text (data : list byte) : string :=
  match data with [] => fill 4 " "%char +:+ " " +:+ nl +:+ nl | _ => dump_reference 0 data end.

Definition preamble (data : list byte) : string := TunDump.GOT_PACKET +:+ dump_text data +:+ TunDump.PARSE_IPV4.

(** [report data text]: the packet is no IPv4 datagram, carries no TCP, has no good TCP segment,
    or one. *)
Inductive report (data : list byte) : string -> Prop :=
  | report_no_datagram r d :
      IPv4Datagram.parse IPv4Datagram.make (Buffer.of_string data) = Ok (r, d) -> r <> NoError ->
      report data (preamble data +:+ TunDump.FAILED)
  | report_no_tcp d :
      IPv4Datagram.parse IPv4Datagram.make (Buffer.of_string data) = Ok (NoError, d) ->
      IPv4Header.proto (IPv4Datagram.header d) <> IPv4Header.PROTO_TCP ->
      report data (preamble data +:+ TunDump.ipv4_line (IPv4Datagram.header d) +:+ ipv4_to_string (IPv4Datagram.header d) +:+ TunDump.NOT_TCP)
  | report_no_segment d b r seg :
      IPv4Datagram.parse IPv4Datagram.make (Buffer.of_string data) = Ok (NoError, d) ->
      IPv4Header.proto (IPv4Datagram.header d) = IPv4Header.PROTO_TCP -> IPv4Datagram.payload d = [b] ->
      TCPSegment.parse TCPSegment.make b (IPv4Header.pseudo_cksum (IPv4Datagram.header d)) = Ok (r, seg) -> r <> NoError ->
      report data (preamble data +:+ TunDump.ipv4_line (IPv4Datagram.header d) +:+ ipv4_to_string (IPv4Datagram.header d) +:+
        TunDump.PARSE_TCP +:+ TunDump.FAILED)
  | report_segment d b seg :
      IPv4Datagram.parse IPv4Datagram.make (Buffer.of_string data) = Ok (NoError, d) ->
      IPv4Header.proto (IPv4Datagram.header d) = IPv4Header.PROTO_TCP -> IPv4Datagram.payload d = [b] ->
      TCPSegment.parse TCPSegment.make b (IPv4Header.pseudo_cksum (IPv4Datagram.header d)) = Ok (NoError, seg) ->
      report data (preamble data +:+ TunDump.ipv4_line (IPv4Datagram.header d) +:+ ipv4_to_string (IPv4Datagram.header d) +:+
        TunDump.PARSE_TCP +:+ TunDump.tcp_line seg +:+ tcp_to_string (TCPSegment.header seg) +:+ nl).

(** ** Lemmas *)

Lemma bytes_app a b : String.list_byte_of_string (a +:+ b) = (String.list_byte_of_string a ++ String.list_byte_of_string b)%list.
Proof. induction a as [|c a IH]; [done|]. unfold String.list_byte_of_string in *. simpl. by f_equal. Qed.

Lemma hexdump_text data : zlen data < two31 -> hexdump data 0 = Ok (dump_text data).
Proof. intros Hl. destruct data as [|b data]; [by vm_compute|]. by apply hexdump_rows. Qed.

Lemma segment_parse_returns s b init : Buffer.wf b -> 0 <= init < two32 -> exists r seg, TCPSegment.parse s b init = Ok (r, seg).
Proof.
  intros Hb Hi. unfold TCPSegment.parse. rewrite checksum_value_spec by (by apply sum_ok_add). cbn [mbind outcome_bind].
  destruct (negb _); [by eauto|]. destruct (header_parse_spec b Hb) as (r & h & p & -> & _). cbn [mbind outcome_bind]. eauto.
Qed.

(** The payload of a parsed datagram is one buffer. *)
Lemma datagram_payload_buffer d buf : Buffer.wf buf -> zlen (Buffer.str buf) < two16 ->
  exists r d' b, IPv4Datagram.parse d buf = Ok (r, d') /\ IPv4Datagram.payload d' = [b] /\ Buffer.wf b.
Proof.
  intros Hb Hl. destruct (ip_header_parse_spec (IPv4Datagram._header d) buf Hb Hl) as (p & Hp & _ & Hwf & _).
  unfold IPv4Datagram.parse. rewrite Hp. cbn [mbind outcome_bind].
  destruct (negb _); by eexists _, _, (NetParser.buffer p).
Qed.

Section shows.

Context {K : Type} (sys : Kernel K) (net : SocketCalls K)
  (sys_poll : K -> list EventLoop.pollfd -> Z -> Z * Z * list EventLoop.pollfd * K)
  (shown : K -> list byte) (set_shown : list byte -> K -> K) (sent got : K -> Z -> list byte) (what : exn -> string)
  `{!PosixKernel sys sent} `{!LoggedKernel sys net sys_poll shown set_shown sent got}.

#[local] Abbreviation W := (FileDescriptor.world (K := K)).
#[local] Abbreviation show := (TunDump.show shown set_shown).

(** Between two worlds a text was shown and nothing else happened. *)
Record showed (text : string) (w w' : W) : Prop := {
  sh_fds : fds w' = fds w;
  sh_got fd : got (FileDescriptor.kernel w') fd = got (FileDescriptor.kernel w) fd;
  sh_shown : shown (FileDescriptor.kernel w') = (shown (FileDescriptor.kernel w) ++ String.list_byte_of_string text)%list
}.

Lemma showed_refl w : showed "" w w.
Proof. split; try done. by rewrite app_nil_r. Qed.

Lemma show_wp s text (w w' : W) : showed text w w' -> wp (show s) (fun _ => showed (text +:+ s) w) (fun _ => False) w'.
Proof.
  intros [H1 H2 H3]. split; simpl; [done| |].
  - intros fd. by rewrite (logged_got (sys := sys) (net := net) (sys_poll := sys_poll) (sent := sent)).
  - rewrite (logged_set (sys := sys) (net := net) (sys_poll := sys_poll) (sent := sent) (got := got)), H3, bytes_app. by rewrite app_assoc.
Qed.

Lemma show_then {B} s text (m : io W B) Q E (w w' : W) : showed text w w' ->
  (forall w'', showed (text +:+ s) w w'' -> wp m Q E w'') -> wp (_ ← show s; m) Q E w'.
Proof. intros H Hm. apply wp_bind. eapply wp_mono; [by apply show_wp| |done]. intros u w'' Hs. by apply Hm. Qed.

Lemma pure_then {A B} (o : outcome A) a (m : A -> io W B) Q E w : o = Ok a -> wp (m a) Q E w -> wp (x ← pure_ o; m x) Q E w.
Proof. by intros ->. Qed.

Lemma wp_report s text data (w w' : W) : showed text w w' -> report data (text +:+ s) ->
  wp (show s) (fun _ w'' => exists text, report data text /\ showed text w w'') (fun _ => False) w'.
Proof. intros H Hr. eapply wp_mono; [by apply show_wp| |done]. intros u w'' Hs. by exists (text +:+ s). Qed.

(** A turn of the loop shows the report of its packet. *)
Lemma packet_wp data (w : W) : zlen data < two16 ->
  wp (TunDump.packet shown set_shown data) (fun _ w' => exists text, report data text /\ showed text w w') (fun _ => False) w.
Proof.
  intros Hl. unfold TunDump.packet. eapply show_then; [apply showed_refl|]. intros w1 H1.
  eapply pure_then; [apply hexdump_text; lia|]. eapply show_then; [exact H1|]. intros w2 H2. eapply show_then; [exact H2|]. intros w3 H3.
  destruct (datagram_payload_buffer IPv4Datagram.make (Buffer.of_string data)) as (r & d & b & Hp & Hd & Hb);
    [apply buffer_of_string_wf; lia|by rewrite buffer_of_string_str by lia|].
  eapply pure_then; [exact Hp|]. cbv beta iota. rewrite !str_app_assoc, str_nil_app in H3. fold (preamble data) in H3.
  destruct (bool_decide_reflect (r = NoError)) as [->|Hr]; cbn [negb].
  2:{ eapply wp_report; [exact H3|]. by eapply report_no_datagram. }
  eapply show_then; [exact H3|]. intros w4 H4. eapply show_then; [exact H4|]. intros w5 H5. rewrite !str_app_assoc in H5.
  destruct (Z.eqb_spec (IPv4Header.proto (IPv4Datagram.header d)) IPv4Header.PROTO_TCP) as [Hpr|Hpr]; cbn [negb].
  2:{ eapply wp_report; [exact H5|]. rewrite !str_app_assoc. by eapply report_no_tcp. }
  eapply show_then; [exact H5|]. intros w6 H6. rewrite !str_app_assoc in H6. rewrite Hd. eapply pure_then; [done|].
  destruct (segment_parse_returns TCPSegment.make b (IPv4Header.pseudo_cksum (IPv4Datagram.header d)) Hb (pseudo_sum _)) as (r & seg & Hs).
  eapply pure_then; [exact Hs|]. cbv beta iota. destruct (bool_decide_reflect (r = NoError)) as [->|Hr]; cbn [negb].
  2:{ eapply wp_report; [exact H6|]. rewrite !str_app_assoc. by eapply report_no_segment. }
  eapply show_then; [exact H6|]. intros w7 H7. rewrite !str_app_assoc in H7. eapply wp_report; [exact H7|].
  rewrite !str_app_assoc. by eapply report_segment.
Qed.

(** *** The loop *)

(** Between two worlds the packets were read from the descriptor and their reports shown. *)
Record reported (fd : Z) (packets : list (list byte)) (text : string) (w w' : W) : Prop := {
  rp_fds : fds w' = fds w;
  rp_got : got (FileDescriptor.kernel w') fd = (got (FileDescriptor.kernel w) fd ++ concat packets)%list;
  rp_shown : shown (FileDescriptor.kernel w') = (shown (FileDescriptor.kernel w) ++ String.list_byte_of_string text)%list
}.

Inductive reports : list (list byte) -> string -> Prop :=
  | reports_nil : reports [] ""
  | reports_cons data packets text rest : report data text -> reports packets rest -> reports (data :: packets) (text +:+ rest).

(** The device, which is all the program reads, delivers one datagram at a time. *)
Definition whole_datagrams : Prop := forall k fd n r e data k', sys_read sys k fd n = (r, e, data, k') -> r < two16.

Lemma reported_nil fd w w' : fds w' = fds w -> got (FileDescriptor.kernel w') fd = got (FileDescriptor.kernel w) fd ->
  shown (FileDescriptor.kernel w') = shown (FileDescriptor.kernel w) -> reported fd [] "" w w'.
Proof. by split; simpl; rewrite ?app_nil_r. Qed.

Lemma reported_cons fd data text packets rest w w1 w2 w3 : fds w1 = fds w ->
  got (FileDescriptor.kernel w1) fd = (got (FileDescriptor.kernel w) fd ++ data)%list ->
  shown (FileDescriptor.kernel w1) = shown (FileDescriptor.kernel w) -> showed text w1 w2 -> reported fd packets rest w2 w3 ->
  reported fd (data :: packets) (text +:+ rest) w w3.
Proof.
  intros A1 A2 A3 [B1 B2 B3] [C1 C2 C3]. split; [congruence|..].
  - rewrite C2, B2, A2. simpl. by rewrite app_assoc.
  - rewrite C3, B3, A3, bytes_app. by rewrite app_assoc.
Qed.

Lemma tun_loop_spec (Hwhole : whole_datagrams) tun fd n fuel : forall w, fds w !! tun = Some (fd, n) ->
  let '(o, w') := TunDump.loop sys shown set_shown fuel tun w in
  o <> Undefined /\ (forall u, o <> Ok u) /\
  exists packets text, reports packets text /\ reported fd packets text w w' /\ (o = OutOfFuel -> length packets = fuel).
Proof.
  induction fuel as [|fuel IH]; intros w Hw; cbn [TunDump.loop].
  { split; [done|]. split; [done|]. exists [], "". split; [constructor|]. split; [by apply reported_nil|done]. }
  pose proof (socket_read sys net sys_poll shown set_shown sent got tun fd w n Hw) as Hr. unfold wp in Hr. unfold mbind at 1, io_bind at 1.
  destruct (FileDescriptor.read sys tun SIZE_MAX w) as [[data|e| |] w1]; try done.
  2:{ destruct Hr as [R1 R2 R3 R4]. rewrite app_nil_r in R3, R4. split; [done|]. split; [done|]. exists [], "".
      split; [constructor|]. split; [by apply reported_nil|done]. }
  destruct Hr as (R1 & _ & R3 & R4 & k & m & e & k' & Hk). apply Hwhole in Hk.
  pose proof (packet_wp data w1 Hk) as Hp. unfold wp in Hp. unfold mbind, io_bind.
  destruct (TunDump.packet shown set_shown data w1) as [[u|e'| |] w2]; try done. destruct Hp as (text & Hrep & Hsh).
  specialize (IH w2 ltac:(by rewrite (sh_fds _ _ _ Hsh), R1)). destruct (TunDump.loop sys shown set_shown fuel tun w2) as [o w3].
  destruct IH as (I1 & I2 & packets & rest & I3 & I4 & I5). split; [done|]. split; [done|]. exists (data :: packets), (text +:+ rest).
  split; [by constructor|]. split; [by eapply reported_cons|]. intros Ho. simpl. f_equal. auto.
Qed.

End shows.

(** ** Properties *)

(** C22. The program shows what arrives.  On any machine whose device delivers whole datagrams,
    whatever they hold and for any number of rounds: [main] of [tun] never reaches undefined
    behaviour and no exception leaves it.  Unless the device cannot be opened, its output is the
    report of every packet it read, in order, each with the hexadecimal dump and with the headers
    the packet has, and it has reported one packet for every round it made.  It ends only by an
    exception, which is shown after the reports; the exit status is then 1 and the device is
    closed. *)
Theorem tun_reports {K} (sys : Kernel K) (net : SocketCalls K)
  (sys_poll : K -> list EventLoop.pollfd -> Z -> Z * Z * list EventLoop.pollfd * K)
  (sys_socketpair : K -> Z -> Z -> Z -> Z * Z * (Z * Z) * K) (opened : K -> Z -> Prop)
  (shown : K -> list byte) (set_shown : list byte -> K -> K) (sent got : K -> Z -> list byte) (what : exn -> string)
  (Hposix : PosixKernel sys sent) (Hlog : LoggedKernel sys net sys_poll shown set_shown sent got)
  (Hopens : OpensDescriptors sys net sys_socketpair opened) (Hwhole : whole_datagrams sys)
  (fuel : nat) (w : FileDescriptor.world) :
  let '(o, w') := TunDump.main sys net shown set_shown what fuel w in
  o <> Undefined /\ (forall e, o <> Throw e) /\ (forall n, o = Ok n -> n = 1 /\ fds w' = fds w) /\
  ((exists e w1, TunTapFD.make sys net (String.list_byte_of_string "tun144") true w = (Throw e, w1)) \/
   exists tun fd w1 packets text final, new_handle opened w tun fd w1 /\ reports packets text /\
     got (FileDescriptor.kernel w') fd = (got (FileDescriptor.kernel w1) fd ++ concat packets)%list /\
     shown (FileDescriptor.kernel w') = (shown (FileDescriptor.kernel w1) ++ String.list_byte_of_string (text +:+ final))%list /\
     (o = OutOfFuel -> length packets = fuel /\ final = "") /\
     (forall n, o = Ok n -> exists e, final = "Exception: " +:+ what e +:+ nl)).
Proof.
  unfold TunDump.main, catch, mbind, io_bind. pose proof (tuntap_made sys net sys_socketpair opened (String.list_byte_of_string "tun144") true w) as Hmake.
  unfold wp in Hmake. destruct (TunTapFD.make _ _ _ _ w) as [[tun|e| |] w1]; try done.
  2:{ pose proof (show_wp sys net sys_poll shown set_shown sent got ("Exception: " +:+ what e +:+ nl) "" w1 w1 (showed_refl shown got w1)) as Hs.
      unfold wp in Hs. destruct (TunDump.show _ _ _ w1) as [[u| | |] w2]; try done. destruct Hs as [S1 S2 S3].
      split_and!; try done; [intros n [= <-]; split; [done|by rewrite S1]|]. left. by eauto. }
  destruct Hmake as [fd Hn]. assert (Htun : fds w1 !! tun = Some (fd, 1)) by (rewrite (nh_fds _ _ _ _ _ Hn); apply lookup_insert_eq).
  pose proof (tun_loop_spec sys net sys_poll shown set_shown sent got Hwhole tun fd 1 fuel w1 Htun) as H. unfold destroying, catch.
  destruct (TunDump.loop sys shown set_shown fuel tun w1) as [[u|e| |] w2]; destruct H as (H1 & H2 & packets & text & H3 & [R1 R2 R3] & H5);
    try done; [by destruct (H2 u)| |].
  2:{ split_and!; try done. right. exists tun, fd, w1, packets, text, "". split_and!; try done; [by rewrite str_app_nil|]. by intros _; split; [apply H5|]. }
  destruct (release_fds sys tun fd 1 w2 ltac:(by rewrite R1) ltac:(done)) as (w3 & Hrel & Hclose & F3 & _).
  assert (Hq : quiet shown sent got (FileDescriptor.kernel w2) (FileDescriptor.kernel w3)).
  { destruct Hclose as [->|[fd' ->]]; [done|apply (logged_close (net := net) (sys_poll := sys_poll) (set_self := set_shown))]. }
  unfold mbind, io_bind. rewrite Hrel. cbn [pure_].
  pose proof (show_wp sys net sys_poll shown set_shown sent got ("Exception: " +:+ what e +:+ nl) "" w3 w3 (showed_refl shown got w3)) as Hs.
  unfold wp in Hs. destruct (TunDump.show _ _ _ w3) as [[u| | |] w4]; try done. destruct Hs as [S1 S2 S3]. destruct Hq as (Q1 & Q2 & Q3).
  split_and!; try done.
  - intros n [= <-]. split; [done|]. rewrite S1, F3, R1, (nh_fds _ _ _ _ _ Hn). apply delete_insert_id, (nh_free _ _ _ _ _ Hn).
  - right. exists tun, fd, w1, packets, text, ("Exception: " +:+ what e +:+ nl). split_and!; try done.
    + by rewrite S2, Q3.
    + rewrite str_nil_app in S3. rewrite S3, Q1, R3, (bytes_app text). by rewrite app_assoc.
    + intros n _. by exists e.
Qed.

(** ** Two packets are shown

    On a machine of Sessions.v: the first is what a client of Sessions.v sends to open a
    connection, the second is too short; then there is nothing more to read. *)
Definition dump_packets : list (list byte) := (put_out (client []) ++ [[Byte.x45; Byte.x00]])%list.

Definition dump_world : FileDescriptor.world :=
  FileDescriptor.World (TunMachine (User [] no_locals) (tm_self (FileDescriptor.kernel (tun_script ∅ []))) ∅ dump_packets ∅ ∅ [] 0) ∅.

Definition dump_what (e : exn) : string := match e with tagged_error attempt _ => attempt | _ => "error" end.

Definition dump_run := TunDump.main tun_kernel tun_net tm_shown tm_set_shown dump_what 10 dump_world.

Lemma dump_whole : whole_datagrams (tun_kernel (A := lossy Z tun_adapter)).
Proof.
  intros k fd n r e data k'. simpl. assert (Hlim : forall d : list byte, zlen (ztake (Z.min (Z.min LIMIT n) (LIMIT - zlen (tun_got k fd))) d) < two16).
  { intros d. rewrite zlen_ztake. pose proof (zlen_nonneg d). unfold LIMIT. lia. }
  destruct (fd =? 12); [destruct (tm_device k)|]; intros [= <- _ _ _]; done.
Qed.

(** What is shown of the opening segment. *)
Lemma dump_shown :
  let '(o, w') := dump_run in
  (o, fds w', String.string_of_list_byte (ztake 98 (tm_shown (FileDescriptor.kernel w')))) =
    (Ok 1, ∅, nl +:+ nl +:+ "***" +:+ nl +:+ "*** Got packet:" +:+ nl +:+ "***" +:+ nl +:+
       "00000000:    4500 0028 0000 4000 8006 e6cd 0a00 0001    E..(..@.........").
Proof. vm_compute. reflexivity. Qed.

Lemma tun_reports_witness :
  let '(o, w') := dump_run in
  o = Ok 1 /\ fds w' = fds dump_world /\ exists tun fd w1 packets text final, new_handle scripted_opened dump_world tun fd w1 /\ reports packets text /\
    tun_got (FileDescriptor.kernel w') fd = (tun_got (FileDescriptor.kernel w1) fd ++ concat packets)%list /\
    tm_shown (FileDescriptor.kernel w') = (tm_shown (FileDescriptor.kernel w1) ++ String.list_byte_of_string (text +:+ final))%list.
Proof.
  assert (Ho : dump_run.1 = Ok 1) by (vm_compute; reflexivity).
  assert (Hopen : exists h w1, TunTapFD.make tun_kernel tun_net (String.list_byte_of_string "tun144") true dump_world = (Ok h, w1))
    by (do 2 eexists; vm_compute; reflexivity).
  pose proof (tun_reports tun_kernel tun_net tun_poll scripted_pair scripted_opened tm_shown tm_set_shown tun_sent tun_got dump_what
    tun_posix tun_shows scripted_opens dump_whole 10 dump_world) as H.
  fold dump_run in H. destruct dump_run as [o w']. cbn [fst] in Ho. destruct H as (_ & _ & H3 & H4). split; [exact Ho|].
  split; [exact (proj2 (H3 1 Ho))|]. destruct H4 as [(e & w1 & He)|(tun & fd & w1 & packets & text & final & A1 & A2 & A3 & A4 & _)].
  - destruct Hopen as (h & w2 & Hh). rewrite Hh in He. discriminate.
  - exists tun, fd, w1, packets, text, final. split; [exact A1|]. split; [exact A2|]. split; [exact A3|exact A4].
Defined.
