(* ===== verification/Lab7.v ===== *)
(** * Lab7.v: a host and its router on the Internet

    Models [apps/lab7.cc]: the adapter that gives the frames of a host's network interface to a
    socket pair, the sockets of the two hosts, the router of each side, and the thread that
    moves frames between the host, the router and the UDP socket to the other side.  The router
    is shared by the callbacks of the thread: [self] and [set_self] read and write it in the
    state of the machine, [K].  [exit_flag] is the flag by which the main thread ends the
    network thread.  The random generator and the name functions are parameters. *)

From stdpp Require Import gmap list pretty.
From S2P Require Import Prelude Buffers Parsing TcpWire IpWire EtherWire Addresses Printers NetIf Routing Adapters Totality.
From S2P Require Import FileDesc EventLoop Sockets Handles StreamCopy Connection Sender SpongeSocket.

Module Lab7.

(** ** Random Ethernet addresses *)

Section random.

Context {G : Type} (rd : G -> Z * G).

(** [for (auto &byte : addr) byte = rd();] *)
Fixpoint random_bytes (n : nat) (g : G) : EthernetAddress * G :=
  match n with
  | O => ([], g)
  | S n => let '(v, g) := rd g in let '(l, g) := random_bytes n g in (u8 v :: l, g)
  end.

Definition random_host_ethernet_address (g : G) : EthernetAddress * G :=
  let '(addr, g) := random_bytes 6 g in
  let addr := alter (fun b => Z.lor b 2) 0%nat addr in
  let addr := alter (fun b => Z.land b 254) 0%nat addr in
  (addr, g).

Definition random_router_ethernet_address (g : G) : EthernetAddress * G :=
  let '(addr, g) := random_bytes 6 g in
  let addr := <[0%nat := 2]> addr in
  let addr := <[1%nat := 0]> addr in
  let addr := <[2%nat := 0]> addr in
  (addr, g).

End random.

(** ** The text printed for a frame *)

Definition summary (R : Address.Resolver) (frame : EthernetFrame.t) : outcome string :=
  let ret := ethernet_header_to_string (EthernetFrame.header frame) in
  let type := EthernetHeader.type (EthernetFrame.header frame) in
  if type =? EthernetHeader.TYPE_IPv4 then
    '(r, dgram) ← IPv4Datagram.parse IPv4Datagram.make
        (Buffer.of_string (BufferList.concatenate (EthernetFrame.payload frame)));
    if bool_decide (r = NoError) then
      let h := IPv4Datagram.header dgram in
      let ret := String.append ret (String.append " " (ipv4_summary R h)) in
      if IPv4Header.proto h =? IPv4Header.PROTO_TCP then
        '(r, tcp_seg) ← TCPSegment.parse TCPSegment.make
            (Buffer.of_string (BufferList.concatenate (IPv4Datagram.payload dgram))) (IPv4Header.pseudo_cksum h);
        if bool_decide (r = NoError)
        then Ok (String.append ret (String.append " " (tcp_summary (TCPSegment.header tcp_seg))))
        else Ok ret
      else Ok ret
    else Ok (String.append ret " (bad IPv4)")
  else if type =? EthernetHeader.TYPE_ARP then
    b ← BufferList.to_buffer (EthernetFrame.payload frame);
    '(r, arp) ← ARPMessage.parse ARPMessage.make b;
    if bool_decide (r = NoError) then Ok (String.append ret (String.append " " (arp_to_string R arp)))
    else Ok (String.append ret " (bad ARP)")
  else Ok ret.

(** ** NetworkInterfaceAdapter *)

Record NetworkInterfaceAdapter := mkAdapter {
  base : FdAdapterBase.t;
  _interface : NetworkInterface.t;
  _next_hop : Address.t;
  _data_socket_pair : Z * Z
}.

Definition set_interface (a : NetworkInterfaceAdapter) v : NetworkInterfaceAdapter :=
  mkAdapter (base a) v (_next_hop a) (_data_socket_pair a).
Definition set_base (a : NetworkInterfaceAdapter) v : NetworkInterfaceAdapter :=
  mkAdapter v (_interface a) (_next_hop a) (_data_socket_pair a).
Definition frame_fd (a : NetworkInterfaceAdapter) : Z := (_data_socket_pair a).2.

Section adapter.

Context {K : Type} (sys : Kernel K) (R : Address.Resolver).

#[local] Abbreviation W := (FileDescriptor.world (K := K)).

Definition adapter_make {G} (rd : G -> Z * G) (sys_socketpair : K -> Z -> Z -> Z -> Z * Z * (Z * Z) * K)
  (ip_address next_hop : Address.t) (g : G) : io W (NetworkInterfaceAdapter * G) :=
  b ← pure_ (FdAdapterBase.make R);
  let '(eth, g) := random_host_ethernet_address rd g in
  pair ← TCPSpongeSocket.socket_pair_helper sys sys_socketpair Socket.SOCK_DGRAM;
  mret (mkAdapter b (NetworkInterface.make eth ip_address) next_hop pair, g).

(** The loop of [send_pending]: each frame is popped once it was written. *)
Fixpoint send_frames (a : NetworkInterfaceAdapter) (frames : list EthernetFrame.t) : io W NetworkInterfaceAdapter :=
  match frames with
  | [] => mret a
  | f :: rest =>
      _ ← FileDescriptor.write sys (_data_socket_pair a).1 (BufferViewList.of_bufferlist (EthernetFrame.serialize f)) true;
      send_frames (set_interface a (NetworkInterface.set_frames_out (_interface a) rest)) rest
  end.

Definition send_pending (a : NetworkInterfaceAdapter) : io W NetworkInterfaceAdapter :=
  send_frames a (NetworkInterface.frames_out (_interface a)).

Definition adapter_read (a : NetworkInterfaceAdapter) : io W (NetworkInterfaceAdapter * option TCPSegment.t) :=
  data ← FileDescriptor.read sys (_data_socket_pair a).1 SIZE_MAX;
  '(r, frame) ← pure_ (EthernetFrame.parse EthernetFrame.make (Buffer.of_string data));
  if negb (bool_decide (r = NoError)) then mret (a, None)
  else
    '(n, ip_dgram) ← pure_ (NetworkInterface.recv_frame (_interface a) frame);
    a ← send_pending (set_interface a n);
    match ip_dgram with
    | Some d =>
        '(b, seg) ← pure_ (TCPOverIPv4Adapter.unwrap_tcp_in_ip R (base a) d);
        mret (set_base a b, seg)
    | None => mret (a, None)
    end.

Definition adapter_write (a : NetworkInterfaceAdapter) (seg : TCPSegment.t) : io W NetworkInterfaceAdapter :=
  '(_, d) ← pure_ (TCPOverIPv4Adapter.wrap_tcp_in_ip R (base a) seg);
  n ← pure_ (NetworkInterface.send_datagram (_interface a) d (_next_hop a));
  send_pending (set_interface a n).

Definition adapter_tick (a : NetworkInterfaceAdapter) (ms_since_last_tick : Z) : io W NetworkInterfaceAdapter :=
  send_pending (set_interface a (NetworkInterface.tick (_interface a) ms_since_last_tick)).

(** The adapter's descriptor is the first of the pair. *)
#[export] Instance lab7_sponge_adapter : SpongeAdapter W NetworkInterfaceAdapter := {|
  ad_fd a := (_data_socket_pair a).1;
  ad_read := adapter_read;
  ad_write := adapter_write;
  ad_tick := adapter_tick;
  ad_base := base;
  ad_set_base := set_base
|}.

End adapter.

(** ** TCPSocketLab7: what its methods do before they call those of the base class *)

Section socket.

Context (R : Address.Resolver).

(** [connect]: the new local address and the configuration; [random_port] comes from the random
    device. *)
Definition connect_config (_local_address address : Address.t) (random_port : Z) : outcome (Address.t * FdAdapterConfig.t) :=
  multiplexer_config ← FdAdapterConfig.make R;
  ip ← Address.ip R _local_address;
  _local_address ← Address.of_ip R ip (u16 random_port);
  _ ← Address.to_string R _local_address;
  Ok (_local_address, FdAdapterConfig.set_destination (FdAdapterConfig.set_source multiplexer_config _local_address) address).

Definition bind (_local_address address : Address.t) : outcome Address.t :=
  ip ← Address.ip R address;
  own ← Address.ip R _local_address;
  if negb (bool_decide (ip = own)) then
    name ← Address.to_string R address;
    Throw (runtime_error (String.append "Cannot bind to " name))
  else
    own ← Address.ip R _local_address;
    port ← Address.port R address;
    Address.of_ip R own port.

Definition listen_config (_local_address : Address.t) : outcome FdAdapterConfig.t :=
  multiplexer_config ← FdAdapterConfig.make R;
  Ok (FdAdapterConfig.set_source multiplexer_config _local_address).

End socket.

(** ** program_body: the router *)

Section routers.

Context (R : Address.Resolver) {G : Type} (rd : G -> Z * G).

(** [router.add_interface({random_router_ethernet_address(), {ip}})]. *)
Definition add_interface (r : Router.t) (ip : string) (g : G) : outcome (Z * Router.t * G) :=
  let '(eth, g) := random_router_ethernet_address rd g in
  a ← Address.of_ip R ip 0;
  let '(num, r) := Router.add_interface r (AsyncNetworkInterface.of_interface (NetworkInterface.make eth a)) in
  Ok (num, r, g).

(** [router.add_route(Address{prefix}.ipv4_numeric(), length, next_hop, num)]. *)
Definition add_route (r : Router.t) (prefix : string) (length : Z) (next_hop : option string) (num : Z) : outcome Router.t :=
  a ← Address.of_ip R prefix 0;
  n ← Address.ipv4_numeric a;
  hop ← match next_hop with None => Ok None | Some ip => h ← Address.of_ip R ip 0; Ok (Some h) end;
  Router.add_route r n length hop num.

(** The router with the numbers of its host side and its Internet side. *)
Definition setup_router (is_client : bool) (g : G) : outcome (Router.t * Z * Z * G) :=
  if is_client then
    '(host_side, r, g) ← add_interface Router.make "192.168.0.1" g;
    '(internet_side, r, g) ← add_interface r "10.0.0.192" g;
    r ← add_route r "192.168.0.0" 16 None host_side;
    r ← add_route r "10.0.0.0" 8 None internet_side;
    r ← add_route r "172.16.0.0" 12 (Some "10.0.0.172") internet_side;
    Ok (r, host_side, internet_side, g)
  else
    '(host_side, r, g) ← add_interface Router.make "172.16.0.1" g;
    '(internet_side, r, g) ← add_interface r "10.0.0.172" g;
    r ← add_route r "172.16.0.0" 12 None host_side;
    r ← add_route r "10.0.0.0" 8 None internet_side;
    r ← add_route r "192.168.0.0" 16 (Some "10.0.0.192") internet_side;
    Ok (r, host_side, internet_side, g).

(** The addresses of the host and of its next hop. *)
Definition host_addresses (is_client : bool) : outcome (Address.t * Address.t) :=
  if is_client then
    ip ← Address.of_ip R "192.168.0.50" 0; hop ← Address.of_ip R "192.168.0.1" 0; Ok (ip, hop)
  else
    ip ← Address.of_ip R "172.16.0.100" 0; hop ← Address.of_ip R "172.16.0.1" 0; Ok (ip, hop).

End routers.

(** ** program_body: the network thread *)

Section network.

Context {K : Type} (sys : Kernel K) (net : SocketCalls K)
  (sys_poll : K -> list EventLoop.pollfd -> Z -> Z * Z * list EventLoop.pollfd * K)
  (exit_flag : K -> bool) (R : Address.Resolver) (self : K -> Router.t) (set_self : Router.t -> K -> K).

#[local] Abbreviation W := (FileDescriptor.world (K := K)).
#[local] Abbreviation ST := (list (EventLoop.Rule K) * W)%type.

(** What the thread captures: the handles of [frame_fd()] and of [internet_socket], and the
    other locals. *)
Context (frames internet : Z) (bounce_address : Address.t) (host_side internet_side : Z) (debug : bool).

(** The socket to the bouncer: three empty datagrams let it know where we are. *)
Definition announce : io W unit :=
  _ ← UDPSocket.sendto net internet bounce_address (BufferViewList.of_string []);
  _ ← UDPSocket.sendto net internet bounce_address (BufferViewList.of_string []);
  UDPSocket.sendto net internet bounce_address (BufferViewList.of_string []).

Definition get : io W Router.t := gets (fun w => self (FileDescriptor.kernel w)).
Definition put (r : Router.t) : io W unit := modify (fun w =>
  FileDescriptor.set_kernel (set_self r (FileDescriptor.kernel w)) w).

(** A call that changes the router. *)
Definition on_router (f : Router.t -> outcome Router.t) : io W unit :=
  r ← get; r ← pure_ (f r); put r.

(** [router.interface(side).f(...)]. *)
Definition on_interface (side : Z) (f : AsyncNetworkInterface.t -> outcome AsyncNetworkInterface.t) (r : Router.t)
  : outcome Router.t :=
  i ← Router.interface r side; i ← f i; Ok (Router.set_interface r side i).

(** [if (debug) cerr << summary(frame)]. *)
Definition report (frame : EthernetFrame.t) : io W unit :=
  if debug then _ ← pure_ (summary R frame); mret tt else mret tt.

(** Frames into the router, from the handle [h]. *)
Definition receive_callback (h side : Z) : io W unit :=
  data ← FileDescriptor.read sys h SIZE_MAX;
  '(r, frame) ← pure_ (EthernetFrame.parse EthernetFrame.make (Buffer.of_string data));
  if negb (bool_decide (r = NoError)) then mret tt
  else
    _ ← report frame;
    _ ← on_router (on_interface side (fun i => AsyncNetworkInterface.recv_frame i frame));
    on_router Router.route.

(** [router.interface(side).frames_out()], a reference to the queue. *)
Definition frames_out (side : Z) : io W (list EthernetFrame.t) :=
  r ← get; i ← pure_ (Router.interface r side);
  mret (NetworkInterface.frames_out (AsyncNetworkInterface.base i)).

(** [f.front()] on an empty queue is undefined. *)
Definition front (side : Z) : io W EthernetFrame.t :=
  f ← frames_out side; match f with x :: _ => mret x | [] => pure_ Undefined end.

Definition pop (i : AsyncNetworkInterface.t) : AsyncNetworkInterface.t :=
  AsyncNetworkInterface.mk
    (NetworkInterface.set_frames_out (AsyncNetworkInterface.base i)
       (tail (NetworkInterface.frames_out (AsyncNetworkInterface.base i))))
    (AsyncNetworkInterface._datagrams_out i).

(** Frames out of the router, by [send]. *)
Definition send_callback (side : Z) (send : BufferViewList.t -> io W unit) : io W unit :=
  _ ← frames_out side;
  _ ← (if debug then f ← front side; report f else mret tt);
  f ← front side;
  _ ← send (BufferViewList.of_bufferlist (EthernetFrame.serialize f));
  on_router (on_interface side (fun i => Ok (pop i))).

Definition send_interest (side : Z) : io W bool :=
  f ← frames_out side; mret (negb (bool_decide (f = []))).

(** The default interest and cancellation of [add_rule]. *)
Definition always : io W bool := mret true.
Definition nothing : io W unit := mret tt.

Definition host_to_router : EventLoop.Rule K :=
  EventLoop.mkRule frames EventLoop.In (receive_callback frames host_side) always nothing.
Definition router_to_host : EventLoop.Rule K :=
  EventLoop.mkRule frames EventLoop.Out
    (send_callback host_side (fun b => _ ← FileDescriptor.write sys frames b true; mret tt))
    (send_interest host_side) nothing.
Definition router_to_internet : EventLoop.Rule K :=
  EventLoop.mkRule internet EventLoop.Out
    (send_callback internet_side (fun b => UDPSocket.sendto net internet bounce_address b))
    (send_interest internet_side) nothing.
Definition internet_to_router : EventLoop.Rule K :=
  EventLoop.mkRule internet EventLoop.In (receive_callback internet internet_side) always nothing.

Definition wait_next_event : io ST EventLoop.Result := fun '(rules, w) =>
  let '(o, rules, w) := EventLoop.wait_next_event sys sys_poll 50 rules w in (o, (rules, w)).

Definition tick (side : Z) : io W unit :=
  on_router (on_interface side (fun i => Ok (AsyncNetworkInterface.mk
    (NetworkInterface.tick (AsyncNetworkInterface.base i) 50) (AsyncNetworkInterface._datagrams_out i)))).

(** [while (true)], for at most [fuel] rounds. *)
Fixpoint network_rounds (fuel : nat) : io ST unit :=
  match fuel with
  | O => pure_ OutOfFuel
  | S fuel =>
      ret ← wait_next_event;
      match ret with
      | EventLoop.Exit => mret tt
      | _ =>
          _ ← StreamCopy.machine (tick host_side);
          _ ← StreamCopy.machine (tick internet_side);
          stop ← StreamCopy.machine (gets (fun w => exit_flag (FileDescriptor.kernel w)));
          if stop : bool then mret tt else network_rounds fuel
      end
  end.

(** The thread: the event loop is destroyed on the way out, exceptions are caught. *)
Definition network_thread (fuel : nat) : io W unit := fun w =>
  let body : io ST unit :=
    _ ← StreamCopy.add_rule host_to_router;
    _ ← StreamCopy.add_rule router_to_host;
    _ ← StreamCopy.add_rule router_to_internet;
    _ ← StreamCopy.add_rule internet_to_router;
    network_rounds fuel in
  let '(o, (_, w)) := catch (StreamCopy.leaving (StreamCopy.destroy_loop sys) body) (fun _ => mret tt) ([], w) in (o, w).

End network.

(** ** main *)

Record arguments := Arguments {
  is_client : bool;
  bounce_host : string;
  bounce_port : string;
  debugging : bool
}.

(** What [main] makes of a non-empty [argv]: nothing when it prints how to use the program. *)
Definition main_arguments (argv : list string) : option arguments :=
  let argc := zlen argv in
  if negb (argc =? 4) && negb (argc =? 5) then None
  else
    match argv with
    | _ :: role :: host :: port :: _ =>
        if negb (bool_decide (role = "client")) && negb (bool_decide (role = "server")) then None
        else Some (Arguments (bool_decide (role = "client")) host port (argc =? 5))
    | _ => None
    end.

End Lab7.

(** ** What the thread relies on: the system calls leave the router alone *)
Class RouterMemory {K} (sys : Kernel K) (net : SocketCalls K)
  (sys_poll : K -> list EventLoop.pollfd -> Z -> Z * Z * list EventLoop.pollfd * K)
  (self : K -> Router.t) (set_self : Router.t -> K -> K) : Prop := {
  rm_set r k : self (set_self r k) = r;
  rm_read k fd n : self (sys_read sys k fd n).2 = self k;
  rm_writev k fd iov : self (sys_writev sys k fd iov).2 = self k;
  rm_sendmsg k fd a len iov flags : self (sys_sendmsg net k fd a len iov flags).2 = self k;
  rm_close k fd : self (sys_close sys k fd).2 = self k;
  rm_poll k ps t : self (sys_poll k ps t).2 = self k
}.

(** ** Lemmas *)


(** The text for a frame is always made. *)
Lemma summary_total R f : concluded (Lab7.summary R f).
Proof. unfold Lab7.summary. concluding. Qed.

Section thread.

Import Lab7.

Context {K : Type} (sys : Kernel K) (net : SocketCalls K)
  (sys_poll : K -> list EventLoop.pollfd -> Z -> Z * Z * list EventLoop.pollfd * K)
  (exit_flag : K -> bool) (R : Address.Resolver) (self : K -> Router.t) (set_self : Router.t -> K -> K)
  (sent : K -> Z -> list byte)
  `{!PosixKernel sys sent} `{!RouterMemory sys net sys_poll self set_self} `{!PosixPoll sys_poll}.

#[local] Abbreviation W := (FileDescriptor.world (K := K)).
#[local] Abbreviation ST := (list (EventLoop.Rule K) * W)%type.
#[local] Abbreviation router w := (self (FileDescriptor.kernel w)).

Context (frames internet : Z) (bounce_address : Address.t) (host_side internet_side : Z) (debug : bool).
Hypothesis Hsides : host_side <> internet_side.
Hypothesis Hhandles : frames <> internet.

(** Code that leaves the descriptors and the router alone. *)
Definition still : relation W := fun w w' => fds w' = fds w /\ router w' = router w.

#[local] Instance still_preorder : PreOrder still.
Proof. split; [done|]. intros w1 w2 w3 [H1 H2] [G1 G2]. split; congruence. Qed.

Lemma update_still h f : (forall x, FDWrapper._fd (f x) = FDWrapper._fd x) -> respects still (FileDescriptor.update h f).
Proof. intros Hf w. split; [by apply update_fds|done]. Qed.

Lemma kernel_still w k : self k = router w -> still w (FileDescriptor.set_kernel k w).
Proof. done. Qed.

Lemma read_still h limit : respects still (FileDescriptor.read sys h limit).
Proof.
  unfold FileDescriptor.read. respecting; try (by apply update_still); try (by intros w).
  intros w. pose proof (rm_read (FileDescriptor.kernel w) (FDWrapper._fd a) (Z.min FileDescriptor.BUFFER_SIZE limit)) as H.
  destruct (sys_read sys _ _ _) as [[[r e] d] k]. by apply kernel_still.
Qed.

Lemma write_still h b all : respects still (FileDescriptor.write sys h b all).
Proof.
  unfold FileDescriptor.write. generalize (S (length (all_bytes b))) as fuel. intros fuel.
  generalize 0 at 1 as total. revert b. induction fuel as [|fuel IH]; intros b total; cbn [FileDescriptor.write_loop]; [done|].
  respecting; try (by apply update_still); try apply IH; try (by intros w).
  intros w. pose proof (rm_writev (FileDescriptor.kernel w) (FDWrapper._fd a) (BufferViewList.as_iovecs b)) as H.
  destruct (sys_writev sys _ _ _) as [[r e] k]. by apply kernel_still.
Qed.

Lemma sendto_still h a b : respects still (UDPSocket.sendto net h a b).
Proof.
  unfold UDPSocket.sendto, UDPSocket.sendmsg_helper, FileDescriptor.fd_num.
  respecting; try (by apply update_still); try (by intros w).
  intros w. unfold system_call. pose proof (rm_sendmsg (FileDescriptor.kernel w) a0 (Some (Address._address a))
    (Address._size a) (BufferViewList.as_iovecs b) 0) as H.
  destruct (sys_sendmsg net _ _ _ _ _ _) as [[[r e] x] k]. by destruct (SystemCall _ _ _ _).
Qed.

(** ** The sides of the router *)

Definition at_side (r : Router.t) (side : Z) : option AsyncNetworkInterface.t := zget (Router.interfaces_ r) side.

Definition has_sides (r : Router.t) : Prop := is_Some (at_side r host_side) /\ is_Some (at_side r internet_side).

(** A frame waits at the side. *)
Definition waiting (r : Router.t) (side : Z) : Prop :=
  exists i, at_side r side = Some i /\ NetworkInterface.frames_out_ (AsyncNetworkInterface.base i) <> [].

(** The sides are there, and what waits goes on waiting. *)
Definition keeps_waiting (r r' : Router.t) : Prop := forall side,
  (is_Some (at_side r side) -> is_Some (at_side r' side)) /\ (waiting r side -> waiting r' side).

#[local] Instance keeps_waiting_preorder : PreOrder keeps_waiting.
Proof. split; [by intros r side|]. intros r1 r2 r3 H G side. destruct (H side), (G side). auto. Qed.

Lemma keeps_pointwise r r' (P : AsyncNetworkInterface.t -> AsyncNetworkInterface.t -> Prop) :
  (forall i i', P i i' -> grows (AsyncNetworkInterface.base i) (AsyncNetworkInterface.base i')) ->
  Forall2 P (Router.interfaces_ r) (Router.interfaces_ r') -> keeps_waiting r r'.
Proof.
  intros HP Hall side. unfold waiting, at_side, zget. destruct (side <? 0); [done|]. split.
  - intros [i Hi]. destruct (Forall2_lookup_l _ _ _ _ _ Hall Hi) as (i' & Hi' & _). by exists i'.
  - intros (i & Hi & Hne). destruct (Forall2_lookup_l _ _ _ _ _ Hall Hi) as (i' & Hi' & Hg%HP). exists i'. split; [done|].
    destruct Hg as (_ & _ & [fs ->]). by destruct (NetworkInterface.frames_out_ (AsyncNetworkInterface.base i)).
Qed.

Lemma route_keeps r : yields (Router.route r) (keeps_waiting r).
Proof.
  eapply yields_impl; [apply route_routes|]. intros r' [_ H]. eapply keeps_pointwise; [|exact H]. by intros i i' [Hg _].
Qed.

(** Replacing one interface. *)
Lemma at_set_interface r side i side' : is_Some (at_side r side) ->
  at_side (Router.set_interface r side i) side' = if decide (side' = side) then Some i else at_side r side'.
Proof.
  unfold at_side, zget. intros [j Hj]. destruct (Z.ltb_spec side 0); [done|]. simpl.
  destruct (decide (side' = side)) as [->|Hne].
  - destruct (Z.ltb_spec side 0); [lia|]. apply list_lookup_insert_eq. by eapply lookup_lt_Some.
  - destruct (Z.ltb_spec side' 0); [done|]. apply list_lookup_insert_ne. lia.
Qed.

Lemma on_interface_yields r side f P : is_Some (at_side r side) ->
  (forall i, at_side r side = Some i -> yields (f i) (P i)) ->
  yields (on_interface side f r) (fun r' => exists i i', at_side r side = Some i /\ P i i' /\ r' = Router.set_interface r side i').
Proof.
  intros [i Hi] Hf. unfold on_interface, Router.interface. unfold at_side in *. rewrite Hi. cbn [mbind outcome_bind].
  eapply yields_bind; [by apply Hf|]. intros i' Hi'. simpl. by exists i, i'.
Qed.

Lemma set_keeps r side i i' : at_side r side = Some i ->
  grows (AsyncNetworkInterface.base i) (AsyncNetworkInterface.base i') -> keeps_waiting r (Router.set_interface r side i').
Proof.
  intros Hi (_ & _ & [fs Hfs]) s. unfold waiting. rewrite !at_set_interface by (by eexists).
  destruct (decide (s = side)) as [->|]; [|done]. split; [by eexists|]. intros (j & Hj & Hne). exists i'. split; [done|].
  rewrite Hi in Hj. injection Hj as <-. rewrite Hfs. by destruct (NetworkInterface.frames_out_ (AsyncNetworkInterface.base i)).
Qed.

Lemma has_sides_kept r r' : keeps_waiting r r' -> has_sides r -> has_sides r'.
Proof. intros H [H1 H2]. split; by apply H. Qed.

(** ** The callbacks *)

Lemma on_router_wp f P (Q : unit -> W -> Prop) (E : W -> Prop) w : yields (f (router w)) P ->
  (forall w', fds w' = fds w -> P (router w') -> Q tt w') -> E w -> wp (on_router self set_self f) Q E w.
Proof.
  intros Hf HQ HE. unfold on_router. apply wp_bind, wp_ret, wp_bind. eapply wp_pure; [exact Hf| |done].
  intros r Hr. apply HQ; [done|]. simpl. by rewrite (rm_set (sys := sys) (net := net) (sys_poll := sys_poll)).
Qed.

(** The descriptors stay and the router keeps its sides and its frames. *)
Definition fine (w0 w : W) : Prop := fds w = fds w0 /\ keeps_waiting (router w0) (router w).

Lemma still_fine w w' : still w w' -> fine w w'.
Proof. intros [H1 H2]. split; [done|]. by rewrite H2. Qed.

Lemma report_wp dbg f (Q : unit -> W -> Prop) (E : W -> Prop) w : Q tt w -> E w -> wp (report R dbg f) Q E w.
Proof.
  intros HQ HE. unfold report. destruct dbg; [|by apply wp_ret]. apply wp_bind.
  eapply wp_pure; [apply summary_total|intros _ _; by apply wp_ret|done].
Qed.

Lemma receive_fine h side w : is_Some (fds w !! h) -> is_Some (at_side (router w) side) ->
  wp (receive_callback sys R self set_self debug h side) (fun _ => fine w) (fine w) w.
Proof.
  intros Hh Hs. unfold receive_callback. apply wp_bind.
  eapply wp_call; [apply read_answers|apply read_still|done| |apply still_fine].
  intros data w1 [Hf1 Hr1]. assert (H1 : fine w w1) by (by apply still_fine). apply wp_bind.
  eapply wp_pure; [apply frame_parse_total| |done]. intros [r f] _. destruct (negb _); [by apply wp_ret|].
  apply wp_bind, report_wp; [|done]. apply wp_bind. eapply on_router_wp; [|..|done].
  { apply on_interface_yields; [by rewrite Hr1|]. intros i _. apply async_recv_grows. }
  intros w2 Hf2 (i & i' & Hi & [Hg _] & Hr2). assert (H2 : fine w w2).
  { split; [congruence|]. rewrite Hr2, <- Hr1. by eapply set_keeps. }
  eapply on_router_wp; [apply route_keeps| |done]. intros w3 Hf3 Hr3. destruct H2. split; [congruence|by etrans].
Qed.

(** Sending takes the front of one side, and only that. *)
Definition popped (side : Z) (w0 w : W) : Prop := fds w = fds w0 /\
  (forall s, is_Some (at_side (router w0) s) -> is_Some (at_side (router w) s)) /\
  (forall s, s <> side -> waiting (router w0) s -> waiting (router w) s).

Lemma fine_popped side w w' : fine w w' -> popped side w w'.
Proof. intros [H1 H2]. split; [done|]. split; [apply H2|intros s _; apply H2]. Qed.

Lemma frames_out_wp side (Q : _ -> W -> Prop) E w i : at_side (router w) side = Some i ->
  Q (NetworkInterface.frames_out_ (AsyncNetworkInterface.base i)) w -> wp (frames_out self side) Q E w.
Proof.
  intros Hi HQ. unfold frames_out. apply wp_bind, wp_ret, wp_bind. unfold wp, pure_, Router.interface.
  unfold at_side in Hi. by rewrite Hi.
Qed.

Lemma front_wp side (Q : _ -> W -> Prop) E w : waiting (router w) side -> (forall f, Q f w) -> wp (front self side) Q E w.
Proof.
  intros (i & Hi & Hne) HQ. unfold front. apply wp_bind. eapply frames_out_wp; [done|].
  destruct (NetworkInterface.frames_out_ (AsyncNetworkInterface.base i)); [done|]. by apply wp_ret.
Qed.

Lemma send_popped side h send w : is_Some (fds w !! h) -> waiting (router w) side ->
  (forall b, answers h (send b)) -> (forall b, respects still (send b)) ->
  wp (send_callback R self set_self debug side send) (fun _ => popped side w) (popped side w) w.
Proof.
  intros Hh Hw Hans Hst. assert (H0 : popped side w w) by (by split). pose proof Hw as (i & Hi & _).
  unfold send_callback. apply wp_bind. eapply frames_out_wp; [done|].
  assert (Hrest : wp (f ← front self side; _ ← send (BufferViewList.of_bufferlist (EthernetFrame.serialize f));
    on_router self set_self (on_interface side (fun i => Ok (pop i)))) (fun _ => popped side w) (popped side w) w).
  { apply wp_bind, front_wp; [done|]. intros f. apply wp_bind.
    eapply wp_call; [apply Hans|apply Hst|done| |by intros w1 ?; apply fine_popped, still_fine].
    intros [] w1 [Hf1 Hr1]. assert (H1 : popped side w w1) by (by apply fine_popped, still_fine).
    eapply on_router_wp; [|..|done].
    { apply (on_interface_yields _ _ _ (fun i i' => True)); [by rewrite Hr1, Hi|]. by intros. }
    intros w2 Hf2 (j & j' & Hj & _ & Hr2). split; [congruence|]. rewrite Hr1 in *. split; intros s.
    - rewrite Hr2, at_set_interface by (by eexists). by destruct (decide (s = side)).
    - intros Hne. unfold waiting. rewrite Hr2, at_set_interface by (by eexists). by rewrite decide_False. }
  apply wp_bind. destruct debug; [|by apply wp_ret]. apply wp_bind, front_wp; [done|]. intros f.
  apply report_wp; done.
Qed.

(** ** The rules *)

Context (F0 : gmap Z (Z * Z)) (HF0 : map_Forall (fun _ x => 1 <= x.2) F0) (ffd ifd : Z).
Hypothesis Hframes : exists n, F0 !! frames = Some (ffd, n).
Hypothesis Hinternet : exists n, F0 !! internet = Some (ifd, n).

Definition network_rules : list (EventLoop.Rule K) :=
  [host_to_router sys R self set_self frames host_side debug;
   router_to_host sys R self set_self frames host_side debug;
   router_to_internet net R self set_self internet bounce_address internet_side debug;
   internet_to_router sys R self set_self internet internet_side debug].

#[local] Abbreviation hr := (host_to_router sys R self set_self frames host_side debug).
#[local] Abbreviation rh := (router_to_host sys R self set_self frames host_side debug).
#[local] Abbreviation ri := (router_to_internet net R self set_self internet bounce_address internet_side debug).
#[local] Abbreviation ir := (internet_to_router sys R self set_self internet internet_side debug).

Lemma network_cases r : r ∈ network_rules -> r = hr \/ r = rh \/ r = ri \/ r = ir.
Proof. unfold network_rules. rewrite !elem_of_cons, elem_of_nil. intuition. Qed.

Definition net_rank (r : EventLoop.Rule K) : Z :=
  match EventLoop.direction r with
  | EventLoop.In => if EventLoop.fd r =? frames then 0 else 3
  | EventLoop.Out => if EventLoop.fd r =? frames then 1 else 2
  end.

Lemma net_ranks : net_rank hr = 0 /\ net_rank rh = 1 /\ net_rank ri = 2 /\ net_rank ir = 3.
Proof. unfold net_rank. simpl. rewrite Z.eqb_refl. by destruct (Z.eqb_spec internet frames). Qed.

Lemma network_order before r after : before ++ r :: after `sublist_of` network_rules ->
  (forall r', r' ∈ before -> net_rank r' < net_rank r) /\ (forall r', r' ∈ after -> net_rank r < net_rank r').
Proof.
  apply sublist_ranked. destruct net_ranks as (H1 & H2 & H3 & H4).
  intros [|[|[|[|j]]]] x Hx; [apply (inj Some) in Hx as <-..|done]; done.
Qed.

(** The invariant: the sides are there and the handles are owned by the rules; a rule that
    sends and was interested has something to send. *)
Definition relaying (rules : list (EventLoop.Rule K)) (w : W) : Prop :=
  has_sides (router w) /\ owned F0 (EventLoop.fd <$> rules) w /\ rules `sublist_of` network_rules.

Definition has_frame (b : bool) (r : EventLoop.Rule K) (w : W) : Prop :=
  b = true -> (r = rh -> waiting (router w) host_side) /\ (r = ri -> waiting (router w) internet_side).

Lemma HF0' : map_Forall (fun _ x => 0 <= x.2) F0.
Proof. eapply map_Forall_impl; [exact HF0|]. simpl. lia. Qed.

Definition number (h : Z) : Z := match F0 !! h with Some (fd, _) => fd | None => 0 end.

Lemma owned_number hs (w : W) h : owned F0 hs w -> is_Some (F0 !! h) -> exists n, fds w !! h = Some (number h, n).
Proof.
  intros [_ Ho] [[fd n] Hh]. specialize (Ho h). unfold number. rewrite Hh in *. cbn [mbind option_bind] in Ho.
  pose proof (HF0 _ _ Hh) as Hn. simpl in Hn. pose proof (owners_nonneg h hs).
  destruct (Z.eqb_spec (n + owners h hs) 0); [lia|]. by eexists.
Qed.

Lemma rule_handle r : r ∈ network_rules -> is_Some (F0 !! EventLoop.fd r).
Proof.
  destruct Hframes as [n1 H1], Hinternet as [n2 H2].
  intros [->|[->|[->| ->]]]%network_cases; simpl; by eexists.
Qed.

Lemma rule_fds rules w r : relaying rules w -> r ∈ network_rules -> exists n, fds w !! EventLoop.fd r = Some (number (EventLoop.fd r), n).
Proof. intros (_ & Ho & _) Hr. eapply owned_number; [exact Ho|by apply rule_handle]. Qed.

Lemma relaying_kept rules w w' : relaying rules w -> fds w' = fds w -> has_sides (router w') -> relaying rules w'.
Proof. intros (_ & [H1 H2] & Hs) Hf Hr. split; [done|]. split; [|done]. split; [done|]. intros j. by rewrite Hf. Qed.

(** What a callback may do to the frames that wait, by the rule. *)
Definition callback_keeps (r : EventLoop.Rule K) (w w' : W) : Prop := fds w' = fds w /\
  (forall s, is_Some (at_side (router w) s) -> is_Some (at_side (router w') s)) /\
  (forall s, (s = host_side -> r <> rh) -> (s = internet_side -> r <> ri) -> waiting (router w) s -> waiting (router w') s).

Lemma callback_wp rules r w : relaying rules w -> r ∈ rules -> has_frame true r w ->
  wp (EventLoop.callback r) (fun _ => callback_keeps r w) (callback_keeps r w) w.
Proof.
  intros Hi Hin Hf. pose proof (elem_of_sublist _ _ _ Hin (proj2 (proj2 Hi))) as Hr. specialize (Hf eq_refl) as [Hrh Hri].
  destruct (rule_fds _ _ _ Hi Hr) as [n Hh]. assert (Hs : is_Some (fds w !! EventLoop.fd r)) by (by eexists).
  pose proof Hi as ((H1 & H2) & _ & _).
  assert (Hfine : forall w', fine w w' -> callback_keeps r w w').
  { intros w' [F1 F2]. split; [done|]. split; intros s; [apply F2|intros _ _; apply F2]. }
  apply network_cases in Hr as [->|[->|[->| ->]]]; simpl in *.
  - eapply wp_mono; [by apply receive_fine|intros ? ?; apply Hfine|apply Hfine].
  - assert (Hp : forall w', popped host_side w w' -> callback_keeps rh w w').
    { intros w' (P1 & P2 & P3). split; [done|]. split; [done|]. intros s Hs1 _. apply P3. intros ->. by apply Hs1. }
    eapply wp_mono; [eapply send_popped; [done|by apply Hrh|..]|intros ? ?; apply Hp|apply Hp].
    + intros b. apply answers_bind; [eapply write_answers; apply _|apply write_respects|by intros ? ? ?].
    + intros b. apply respects_bind; [apply _|apply write_still|by intros ? ?].
  - assert (Hp : forall w', popped internet_side w w' -> callback_keeps ri w w').
    { intros w' (P1 & P2 & P3). split; [done|]. split; [done|]. intros s _ Hs2. apply P3. intros ->. by apply Hs2. }
    eapply wp_mono; [eapply send_popped; [done|by apply Hri|..]|intros ? ?; apply Hp|apply Hp].
    + intros b. apply sendto_answers.
    + intros b. apply sendto_still.
  - eapply wp_mono; [by apply receive_fine|intros ? ?; apply Hfine|apply Hfine].
Qed.

Lemma rule_interest_ok r w : has_sides (router w) -> r ∈ network_rules ->
  exists b, EventLoop.interest r w = (Ok b, w) /\ has_frame b r w.
Proof.
  intros [H1 H2] Hr. assert (Hint : forall side, is_Some (at_side (router w) side) ->
    exists b, send_interest self side w = (Ok b, w) /\ (b = true -> waiting (router w) side)).
  { intros side [i Hi]. unfold send_interest, frames_out, mbind, io_bind, get, gets, pure_, Router.interface, at_side in *.
    rewrite Hi. eexists. split; [done|]. intros Hb. exists i. split; [done|]. intros E. unfold NetworkInterface.frames_out in Hb.
    by rewrite E in Hb. }
  assert (Hne : rh <> ri) by (intros E; apply (f_equal EventLoop.fd) in E; simpl in E; congruence).
  assert (Hd : forall x, EventLoop.direction x = EventLoop.In -> x <> rh /\ x <> ri) by (intros x E; split; by intros ->).
  apply network_cases in Hr as [->|[->|[->| ->]]]; simpl.
  - exists true. split; [done|]. intros _. destruct (Hd hr eq_refl). by split.
  - destruct (Hint _ H1) as (b & Hb & Hw). exists b. split; [done|]. intros E. by split; [auto|].
  - destruct (Hint _ H2) as (b & Hb & Hw). exists b. split; [done|]. intros E. split; [by intros E2; symmetry in E2|auto].
  - exists true. split; [done|]. intros _. destruct (Hd ir eq_refl). by split.
Qed.

Lemma relaying_callback before r after w : relaying (before ++ r :: after) w -> has_frame true r w ->
  match EventLoop.callback r w with
  | (Ok _, w') => relaying (before ++ r :: after) w' /\ forall r', r' ∈ after -> has_frame true r' w -> has_frame true r' w'
  | (Throw _, w') => relaying (before ++ r :: after) w'
  | _ => False
  end.
Proof.
  intros Hi Hf. assert (Hin : r ∈ before ++ r :: after) by (apply elem_of_app; right; left).
  pose proof (callback_wp _ _ _ Hi Hin Hf) as Hc. pose proof Hi as (Hsd & _ & Hs).
  assert (Hkeep : forall w', callback_keeps r w w' -> relaying (before ++ r :: after) w').
  { intros w' (C1 & C2 & _). eapply relaying_kept; [done|done|]. destruct Hsd. by split; apply C2. }
  unfold wp in Hc. destruct (EventLoop.callback r w) as [[[]|e| |] w']; try done; [|by apply Hkeep].
  split; [by apply Hkeep|]. intros r' Hr' Hf' _. destruct (Hf' eq_refl) as [H1 H2]. destruct Hc as (_ & _ & Hw).
  apply network_order in Hs as [_ Ha]. specialize (Ha _ Hr'). destruct net_ranks as (R1 & R2 & R3 & R4).
  split; intros ->.
  - apply Hw; [intros _ ->; lia|congruence|by apply H1].
  - apply Hw; [congruence|intros _ ->; lia|by apply H2].
Qed.

Lemma closing_router k k' : may_close sys k k' -> self k' = self k.
Proof.
  intros [->|[fd ->]]; [done|]. apply (rm_close (sys := sys) (net := net) (sys_poll := sys_poll) (set_self := set_self)).
Qed.

Lemma relaying_erase before r after w : relaying (before ++ r :: after) w ->
  exists w', EventLoop.cancel_and_erase sys r w = (Ok tt, w') /\ relaying (before ++ after) w' /\
    forall b r', has_frame b r' w -> has_frame b r' w'.
Proof.
  intros (Hsd & Ho & Hs). assert (Hc : EventLoop.cancel r = nothing).
  { assert (Hr : r ∈ network_rules) by (eapply elem_of_sublist; [|exact Hs]; apply elem_of_app; right; left).
    by apply network_cases in Hr as [->|[->|[->| ->]]]. }
  rewrite fmap_app in Ho. simpl in Ho. rewrite <- Permutation_middle, <- fmap_app in Ho.
  destruct (owned_release sys F0 HF0' _ _ _ Ho) as (w' & Hr & Ho' & Hk%closing_router & _). exists w'.
  split; [unfold EventLoop.cancel_and_erase; rewrite Hc; by rewrite (io_bind_ok _ _ w tt w)|].
  split; [|intros b r'; unfold has_frame; by rewrite Hk].
  split; [by rewrite Hk|]. split; [done|]. etrans; [|exact Hs]. apply sublist_app; [done|by apply sublist_cons].
Qed.

Lemma relaying_invariant : loop_invariant sys sys_poll number (fun _ => True) relaying has_frame.
Proof.
  split; try apply relaying_callback.
  - intros rules w r Hi Hr. destruct (rule_fds _ _ r Hi) as [n Hn]; [by eapply elem_of_sublist; [|apply Hi]|].
    destruct (fds_lookup _ _ _ _ Hn) as (x & Hx & Hfd). by exists x, n.
  - intros rules w r Hi Hr. destruct (rule_interest_ok r w) as (b & Hb & Hf); [apply Hi|by eapply elem_of_sublist; [|apply Hi]|].
    by exists b.
  - intros before r after w Hi _. destruct (relaying_erase _ _ _ _ Hi) as (w' & H1 & H2 & H3). exists w'. auto.
  - intros rules w ps t (Hsd & Ho & Hs).
    assert (Hk : self (sys_poll (FileDescriptor.kernel w) ps t).2 = router w)
      by apply (rm_poll (sys := sys) (net := net) (set_self := set_self)).
    split; [|intros b r Hr; unfold has_frame; by simpl; rewrite Hk].
    split; [by simpl; rewrite Hk|]. by split.
Qed.

(** ** The thread *)

Lemma tick_wp side rules w : relaying rules w -> is_Some (at_side (router w) side) ->
  wp (tick self set_self side) (fun _ => relaying rules) (relaying rules) w.
Proof.
  intros Hi Hs. unfold tick. eapply on_router_wp; [|..|done].
  { apply (on_interface_yields _ _ _ (fun i i' => grows (AsyncNetworkInterface.base i) (AsyncNetworkInterface.base i'))); [done|].
    intros i _. simpl. apply tick_grows. }
  intros w' Hf (i & i' & Hat & Hg & Hr). eapply relaying_kept; [done|done|].
  eapply has_sides_kept; [|apply Hi]. rewrite Hr. by eapply set_keeps.
Qed.

(** A run of the thread's rounds; the flag ends it in the first round. *)
Lemma rounds_ok fuel rules w : relaying rules w ->
  let '(o, (rules', w')) := network_rounds sys sys_poll exit_flag self set_self host_side internet_side fuel (rules, w) in
  relaying rules' w' /\ o <> Undefined /\ ((0 < fuel)%nat -> (forall k, exit_flag k = true) -> o <> OutOfFuel).
Proof.
  revert rules w. induction fuel as [|fuel IH]; intros rules w Hi; cbn [network_rounds].
  { split; [done|]. split; [done|]. lia. }
  unfold mbind at 1, io_bind at 1, wait_next_event at 1.
  assert (Hhup : reports_hangups sys_poll (fun _ => True)) by (intros k ps t r e ps' k' _; by apply Forall_forall).
  destruct (wait_next_event_invariant sys sys_poll number (fun _ => True) relaying has_frame relaying_invariant Hhup 50 rules w Hi)
    as (o & kept & w1 & -> & Hi1 & Ho).
  assert (Hrest : let '(o, (rules', w')) := (_ ← StreamCopy.machine (tick self set_self host_side);
      _ ← StreamCopy.machine (tick self set_self internet_side);
      stop ← StreamCopy.machine (gets (fun w => exit_flag (FileDescriptor.kernel w)));
      if stop : bool then mret tt
      else network_rounds sys sys_poll exit_flag self set_self host_side internet_side fuel) (kept, w1) in
    relaying rules' w' /\ o <> Undefined /\ ((forall k, exit_flag k = true) -> o <> OutOfFuel)).
  { pose proof (tick_wp host_side kept w1 Hi1 (proj1 (proj1 Hi1))) as H1. unfold wp in H1.
    unfold mbind at 1, io_bind at 1, StreamCopy.machine at 1.
    destruct (tick self set_self host_side w1) as [[[]|e| |] w2]; try done.
    pose proof (tick_wp internet_side kept w2 H1 (proj2 (proj1 H1))) as H2. unfold wp in H2.
    unfold mbind at 1, io_bind at 1, StreamCopy.machine at 1.
    destruct (tick self set_self internet_side w2) as [[[]|e| |] w3]; try done.
    unfold mbind, io_bind, StreamCopy.machine, gets. destruct (exit_flag (FileDescriptor.kernel w3)) eqn:Ee; [done|].
    specialize (IH kept w3 H2). destruct (network_rounds _ _ _ _ _ _ _ fuel (kept, w3)) as [o2 [r2 w4]].
    destruct IH as (I1 & I2 & _). split; [done|]. split; [done|]. intros Hall. by rewrite Hall in Ee. }
  destruct o as [[ | | ]|e| |]; try done;
    match type of Hrest with context [?m (kept, w1)] => destruct (m (kept, w1)) as [o2 [r2 w2]] end;
    destruct Hrest as (G1 & G2 & G3); (split; [done|split; [done|auto]]).
Qed.

(** Adding the next of the rules. *)
Lemma relaying_add n r w : network_rules !! n = Some r -> relaying (take n network_rules) w ->
  exists w', StreamCopy.add_rule r (take n network_rules, w) = (Ok tt, (take (S n) network_rules, w')) /\
    relaying (take (S n) network_rules) w'.
Proof.
  intros Hr (Hsd & Ho & Hs). assert (Hin : r ∈ network_rules) by (by eapply list_elem_of_lookup_2).
  destruct (owned_number _ _ (EventLoop.fd r) Ho (rule_handle r Hin)) as [m Hm].
  destruct (owned_duplicate F0 HF0' _ _ _ Ho (ex_intro _ _ Hm)) as (w' & Hd & Ho' & Hk & _). exists w'.
  unfold StreamCopy.add_rule, EventLoop.add_rule. rewrite (io_bind_ok _ _ _ _ _ Hd).
  unfold mret, io_ret. cbv beta iota.
  assert (Heq : take n network_rules ++ [EventLoop.mkRule (EventLoop.fd r) (EventLoop.direction r) (EventLoop.callback r)
    (EventLoop.interest r) (EventLoop.cancel r)] = take (S n) network_rules) by (rewrite (take_S_r _ _ r Hr); by destruct r).
  rewrite Heq. split; [done|]. split; [by rewrite Hk|]. split; [|apply sublist_take].
  rewrite (take_S_r _ _ r Hr), fmap_app. simpl fmap. by rewrite <- Permutation_cons_append.
Qed.

Lemma thread_ok fuel w : fds w = F0 -> has_sides (router w) ->
  let '(o, w') := network_thread sys net sys_poll exit_flag R self set_self frames internet bounce_address
                    host_side internet_side debug fuel w in
  (o = Ok tt \/ o = OutOfFuel) /\ (o = Ok tt -> fds w' = fds w) /\
  ((0 < fuel)%nat -> (forall k, exit_flag k = true) -> o = Ok tt).
Proof.
  intros Hf0 Hsd. assert (Hi0 : relaying (take 0 network_rules) w).
  { split; [done|]. split; [|apply sublist_nil_l]. split; [by constructor|]. intros j. rewrite Hf0.
    destruct (F0 !! j) as [[fd n]|] eqn:Ej; [|done]. pose proof (HF0 _ _ Ej) as Hn. simpl in Hn. cbn [mbind option_bind].
    change (owners j (EventLoop.fd <$> take 0 network_rules)) with 0. rewrite Z.add_0_r. by destruct (Z.eqb_spec n 0); [lia|]. }
  destruct (relaying_add 0 _ _ eq_refl Hi0) as (w1 & A1 & Hi1). destruct (relaying_add 1 _ _ eq_refl Hi1) as (w2 & A2 & Hi2).
  destruct (relaying_add 2 _ _ eq_refl Hi2) as (w3 & A3 & Hi3). destruct (relaying_add 3 _ _ eq_refl Hi3) as (w4 & A4 & Hi4).
  unfold network_thread. cbv zeta. pose proof (rounds_ok fuel _ _ Hi4) as Hr.
  set (rounds := network_rounds sys sys_poll exit_flag self set_self host_side internet_side fuel) in *.
  assert (Hbody : forall s, s = ([], w) -> (_ ← StreamCopy.add_rule hr; _ ← StreamCopy.add_rule rh;
    _ ← StreamCopy.add_rule ri; _ ← StreamCopy.add_rule ir; rounds) s = rounds (take 4 network_rules, w4)).
  { intros s ->. change (@nil (EventLoop.Rule K)) with (take 0 network_rules).
    rewrite (io_bind_ok _ _ _ _ _ A1), (io_bind_ok _ _ _ _ _ A2), (io_bind_ok _ _ _ _ _ A3). by rewrite (io_bind_ok _ _ _ _ _ A4). }
  unfold catch, StreamCopy.leaving at 1. rewrite (Hbody _ eq_refl).
  destruct (rounds (take 4 network_rules, w4)) as [o [rules w']]. destruct Hr as ((_ & Ho & _) & Hu & Hfuel).
  assert (Hd : exists w'', StreamCopy.destroy_loop sys (rules, w') = (Ok tt, ([], w'')) /\ fds w'' = fds w).
  { destruct (release_rules_ok sys F0 HF0' rules [] w') as (w'' & H1 & [_ H2] & _); [by rewrite app_nil_r|].
    exists w''. split; [unfold StreamCopy.destroy_loop; by rewrite H1|]. rewrite Hf0. apply map_eq. intros j. rewrite H2.
    destruct (F0 !! j) as [[fd n]|] eqn:Ej; [|done]. pose proof (HF0 _ _ Ej) as Hn. simpl in Hn. cbn [mbind option_bind].
    change (owners j []) with 0. rewrite Z.add_0_r. by destruct (Z.eqb_spec n 0); [lia|]. }
  destruct Hd as (w'' & Hd & Hfd). destruct o as [[]|e| |]; try done.
  - unfold mbind, io_bind. rewrite Hd. simpl. auto.
  - unfold mbind, io_bind. rewrite Hd. simpl. auto.
  - split; [by right|]. split; [done|]. intros H1 H2. by destruct (Hfuel H1 H2).
Qed.

End thread.

(** ** The routers *)

Definition ip4 (a b c d : Z) : Z := ((a * 256 + b) * 256 + c) * 256 + d.

(** The routes of the two sides, in the order in which they are added. *)
Definition lab7_routes (is_client : bool) : list route_spec :=
  if is_client then
    [Route (ip4 192 168 0 0) 16 None 0; Route (ip4 10 0 0 0) 8 None 1;
     Route (ip4 172 16 0 0) 12 (Some (inet_address (ip4 10 0 0 172) 0)) 1]
  else
    [Route (ip4 172 16 0 0) 12 None 0; Route (ip4 10 0 0 0) 8 None 1;
     Route (ip4 192 168 0 0) 16 (Some (inet_address (ip4 10 0 0 192) 0)) 1].

(** The addresses of the router's two interfaces. *)
Definition lab7_addresses (is_client : bool) : list Z :=
  if is_client then [ip4 192 168 0 1; ip4 10 0 0 192] else [ip4 172 16 0 1; ip4 10 0 0 172].

Lemma lab7_routes_ok is_client : Forall rs_ok (lab7_routes is_client).
Proof. destruct is_client; repeat (apply Forall_cons; split); try apply Forall_nil, I; by split. Qed.

Section setup.

Import Lab7.

Context (R : Address.Resolver) `{!NumericResolver R} (Hdotted : forall ip, Address.inet_ntoa R ip = dotted ip)
  {G : Type} (rd : G -> Z * G).

Lemma of_dotted s ip : s = dotted ip -> 0 <= ip < two32 -> Address.of_ip R s 0 = Ok (inet_address ip 0).
Proof. intros -> Hip. rewrite <- Hdotted. by apply of_ip_numeric. Qed.

Lemma address_bytes_ok n g : length (random_bytes rd n g).1 = n /\ Forall (fun z => 0 <= z < two8) (random_bytes rd n g).1.
Proof.
  revert g. induction n as [|n IH]; intros g; simpl; [by split|]. destruct (rd g) as [v g1].
  destruct (IH g1) as [H1 H2]. destruct (random_bytes rd n g1) as [l g2]. simpl in *. split; [lia|].
  constructor; [apply u8_range|done].
Qed.

(** The router's Ethernet addresses are private and differ from every host's first byte rule
    only in being fixed: 02:00:00, then three random bytes. *)
Lemma router_address_ok g : exists a b c, (random_router_ethernet_address rd g).1 = [2; 0; 0; a; b; c] /\
  addr_ok (random_router_ethernet_address rd g).1.
Proof.
  unfold random_router_ethernet_address. destruct (address_bytes_ok 6 g) as [Hl Hf].
  destruct (random_bytes rd 6 g) as [addr g']. simpl in *.
  destruct addr as [|x0 [|x1 [|x2 [|x3 [|x4 [|x5 [|x6 addr]]]]]]]; simplify_eq/=. exists x3, x4, x5.
  split; [done|]. split; [done|]. repeat (apply Forall_cons in Hf as [? Hf]). repeat (apply Forall_cons; split); done.
Qed.

Lemma add_interface_ok r s ip g : s = dotted ip -> 0 <= ip < two32 ->
  zlen (Router.interfaces_ r) < two32 ->
  exists eth g', add_interface R rd r s g =
    Ok (zlen (Router.interfaces_ r), Router.mk (Router.interfaces_ r ++
      [AsyncNetworkInterface.of_interface (NetworkInterface.make eth (inet_address ip 0))]) (Router.table_ r), g') /\
    (exists a b c, eth = [2; 0; 0; a; b; c]) /\ addr_ok eth.
Proof.
  intros Hs Hip Hlen. unfold add_interface. destruct (router_address_ok g) as (a & b & c & He & Hok).
  destruct (random_router_ethernet_address rd g) as [eth g']. simpl in He, Hok.
  rewrite (of_dotted s ip) by done. exists eth, g'. split; [|split; [by exists a, b, c|done]].
  unfold Router.add_interface. cbn [mbind outcome_bind]. rewrite zlen_app.
  change (zlen [AsyncNetworkInterface.of_interface (NetworkInterface.make eth (inet_address ip 0))]) with 1.
  rewrite u64_small by lia. by replace (zlen (Router.interfaces_ r) + 1 - 1) with (zlen (Router.interfaces_ r)) by lia.
Qed.

Lemma add_route_lab7 r s ip len hop hop' num : s = dotted ip -> 0 <= ip < two32 ->
  match hop, hop' with
  | None, None => True
  | Some h, Some a => exists ip', h = dotted ip' /\ 0 <= ip' < two32 /\ a = inet_address ip' 0
  | _, _ => False
  end ->
  add_route R r s len hop num = Router.add_route r ip len hop' num.
Proof.
  assert (Hbind : forall A B (a : A) (k : A -> outcome B), Ok a ≫= k = k a) by done.
  assert (Hport : 0 <= 0 < two16) by lia.
  intros Hs Hip Hh. unfold add_route. rewrite (of_dotted s ip Hs Hip), Hbind, (inet_address_numeric ip 0 Hip Hport), Hbind.
  destruct hop as [h|], hop' as [a|]; [|done..|by rewrite Hbind]. destruct Hh as (ip' & H1 & H2 & ->).
  by rewrite (of_dotted h ip' H1 H2), !Hbind.
Qed.

(** The addresses the program names. *)
Definition named : list (string * Z) :=
  [("192.168.0.1", ip4 192 168 0 1); ("10.0.0.192", ip4 10 0 0 192); ("192.168.0.0", ip4 192 168 0 0);
   ("10.0.0.0", ip4 10 0 0 0); ("172.16.0.0", ip4 172 16 0 0); ("10.0.0.172", ip4 10 0 0 172);
   ("172.16.0.1", ip4 172 16 0 1)].

Lemma named_dotted s ip : (s, ip) ∈ named -> s = dotted ip /\ 0 <= ip < two32.
Proof.
  assert (H : forallb (fun x => bool_decide (x.1 = dotted x.2) && (0 <=? x.2) && (x.2 <? two32)) named = true)
    by (vm_compute; reflexivity).
  intros Hin%list_elem_of_In. rewrite forallb_forall in H. specialize (H _ Hin). simpl in H.
  apply andb_prop in H as [[H1%bool_decide_eq_true H2]%andb_prop H3]. split; [done|lia].
Qed.

Definition interface_of (eth : EthernetAddress) (ip : Z) : AsyncNetworkInterface.t :=
  AsyncNetworkInterface.of_interface (NetworkInterface.make eth (inet_address ip 0)).

Definition router_eth (eth : EthernetAddress) : Prop := (exists a b c, eth = [2; 0; 0; a; b; c]) /\ addr_ok eth.

(** Two interfaces on an empty router. *)
Lemma two_interfaces {B} s0 ip0 s1 ip1 g (k : Z -> Z -> Router.t -> G -> outcome B) : (s0, ip0) ∈ named -> (s1, ip1) ∈ named ->
  exists eth0 eth1 g', ('(h, r, g) ← add_interface R rd Router.make s0 g; '(i, r, g) ← add_interface R rd r s1 g; k h i r g) =
    k 0 1 (Router.mk [interface_of eth0 ip0; interface_of eth1 ip1] ∅) g' /\ router_eth eth0 /\ router_eth eth1.
Proof.
  intros [H1 H2]%named_dotted [H3 H4]%named_dotted.
  destruct (add_interface_ok Router.make s0 ip0 g H1 H2) as (e0 & g1 & -> & He0); [done|]. cbn [mbind outcome_bind].
  match goal with |- context [add_interface R rd ?r s1 g1] =>
    destruct (add_interface_ok r s1 ip1 g1 H3 H4) as (e1 & g2 & -> & He1); [done|] end.
  by exists e0, e1, g2.
Qed.

Lemma named_route {B} r s ip len num (k : Router.t -> outcome B) : (s, ip) ∈ named ->
  (r ← add_route R r s len None num; k r) = (r ← Router.add_route r ip len None num; k r).
Proof. intros [H1 H2]%named_dotted. by rewrite (add_route_lab7 r s ip len None None num). Qed.

Lemma named_route_via {B} r s ip len h ip' num (k : Router.t -> outcome B) : (s, ip) ∈ named -> (h, ip') ∈ named ->
  (r ← add_route R r s len (Some h) num; k r) = (r ← Router.add_route r ip len (Some (inet_address ip' 0)) num; k r).
Proof.
  intros [H1 H2]%named_dotted [H3 H4]%named_dotted.
  rewrite (add_route_lab7 r s ip len (Some h) (Some (inet_address ip' 0)) num); try done. by exists ip'.
Qed.

Lemma three_routes {B} r a b c r' (k : Router.t -> outcome B) : add_routes r [a; b; c] = Ok r' ->
  (r ← Router.add_route r (rs_prefix a) (rs_length a) (rs_hop a) (rs_num a);
   r ← Router.add_route r (rs_prefix b) (rs_length b) (rs_hop b) (rs_num b);
   r ← Router.add_route r (rs_prefix c) (rs_length c) (rs_hop c) (rs_num c);
   k r) = k r'.
Proof.
  cbn [add_routes]. destruct (Router.add_route r _ _ _ _) as [r1| | |]; try done. cbn [mbind outcome_bind].
  destruct (Router.add_route r1 _ _ _ _) as [r2| | |]; try done. cbn [mbind outcome_bind].
  destruct (Router.add_route r2 _ _ _ _) as [r3| | |]; try done. by intros [= ->].
Qed.

(** The set-up is [add_routes] on a router with two interfaces. *)
Lemma setup_router_ok is_client g :
  exists eth0 eth1 r g', setup_router R rd is_client g = Ok (r, 0, 1, g') /\ router_eth eth0 /\ router_eth eth1 /\
    add_routes (Router.mk (zip_with interface_of [eth0; eth1] (lab7_addresses is_client)) ∅) (lab7_routes is_client) = Ok r.
Proof.
  assert (Hin : forall x, existsb (fun y => bool_decide (x = y)) named = true -> x ∈ named).
  { intros x (y & Hy & E%bool_decide_eq_true)%existsb_exists. subst. by apply list_elem_of_In. }
  destruct is_client; unfold setup_router.
  - destruct (two_interfaces "192.168.0.1" (ip4 192 168 0 1) "10.0.0.192" (ip4 10 0 0 192) g (fun host_side internet_side r g =>
      r ← add_route R r "192.168.0.0" 16 None host_side; r ← add_route R r "10.0.0.0" 8 None internet_side;
      r ← add_route R r "172.16.0.0" 12 (Some "10.0.0.172") internet_side; Ok (r, host_side, internet_side, g)))
      as (e0 & e1 & g' & -> & He0 & He1); [by apply Hin; vm_compute..|].
    destruct (add_routes_ok (Router.mk [interface_of e0 (ip4 192 168 0 1); interface_of e1 (ip4 10 0 0 192)] ∅)
      (lab7_routes true) (lab7_routes_ok true)) as (r & Hr & _). exists e0, e1, r, g'. split; [|split; [done|split; done]].
    rewrite (named_route _ _ (ip4 192 168 0 0)) by (by apply Hin; vm_compute).
    setoid_rewrite (named_route _ _ (ip4 10 0 0 0)); [|by apply Hin; vm_compute].
    setoid_rewrite (named_route_via _ _ (ip4 172 16 0 0) _ _ (ip4 10 0 0 172)); [|by apply Hin; vm_compute..].
    exact (three_routes _ _ _ _ _ (fun r => Ok (r, 0, 1, g')) Hr).
  - destruct (two_interfaces "172.16.0.1" (ip4 172 16 0 1) "10.0.0.172" (ip4 10 0 0 172) g (fun host_side internet_side r g =>
      r ← add_route R r "172.16.0.0" 12 None host_side; r ← add_route R r "10.0.0.0" 8 None internet_side;
      r ← add_route R r "192.168.0.0" 16 (Some "10.0.0.192") internet_side; Ok (r, host_side, internet_side, g)))
      as (e0 & e1 & g' & -> & He0 & He1); [by apply Hin; vm_compute..|].
    destruct (add_routes_ok (Router.mk [interface_of e0 (ip4 172 16 0 1); interface_of e1 (ip4 10 0 0 172)] ∅)
      (lab7_routes false) (lab7_routes_ok false)) as (r & Hr & _). exists e0, e1, r, g'. split; [|split; [done|split; done]].
    rewrite (named_route _ _ (ip4 172 16 0 0)) by (by apply Hin; vm_compute).
    setoid_rewrite (named_route _ _ (ip4 10 0 0 0)); [|by apply Hin; vm_compute].
    setoid_rewrite (named_route_via _ _ (ip4 192 168 0 0) _ _ (ip4 10 0 0 192)); [|by apply Hin; vm_compute..].
    exact (three_routes _ _ _ _ _ (fun r => Ok (r, 0, 1, g')) Hr).
Qed.

(** Such a router is well formed. *)
Lemma setup_router_wf is_client g r host internet g' : setup_router R rd is_client g = Ok (r, host, internet, g') ->
  host = 0 /\ internet = 1 /\ rt_wf (lab7_routes is_client) r /\ zlen (Router.interfaces_ r) = 2.
Proof.
  destruct (setup_router_ok is_client g) as (e0 & e1 & r' & g2 & -> & [_ He0] & [_ He1] & Hr). intros [= -> <- <- <-].
  destruct (add_routes_ok (Router.mk (zip_with interface_of [e0; e1] (lab7_addresses is_client)) ∅) _ (lab7_routes_ok is_client))
    as (r2 & Hr2 & Hifs & Htab). rewrite Hr in Hr2. injection Hr2 as <-.
  assert (Hlen : zlen (Router.interfaces_ r) = 2) by (rewrite Hifs; by destruct is_client).
  split; [done|]. split; [done|]. split; [|done]. split; [apply lab7_routes_ok|intros key; by rewrite Htab|..].
  - rewrite Hlen. assert (Hh : forall ip, 0 <= ip < two32 -> hop_ok (Some (inet_address ip 0))).
    { intros ip Hip. exists ip. split; [done|]. by apply inet_address_numeric. }
    destruct is_client; repeat (apply Forall_cons; split); try apply Forall_nil, I; simpl; (split; [lia|]); done || by apply Hh.
  - rewrite Hifs. assert (Hn : forall e ip, addr_ok e -> 0 <= ip < two32 ->
      (exists own, ni_wf own (AsyncNetworkInterface.base (interface_of e ip))) /\
      Forall IPv4Datagram.ok (AsyncNetworkInterface._datagrams_out (interface_of e ip))).
    { intros e ip He Hip. split; [|by constructor]. exists ip. split; simpl; try done. by apply inet_address_numeric. }
    destruct is_client; simpl; repeat (apply Forall_cons; split); try apply Forall_nil, I; by apply Hn.
Qed.

End setup.

(** ** An empty frame *)

Definition empty_frame : EthernetFrame.t :=
  EthernetFrame.mk EthernetHeader.make (BufferList.of_buffer (Buffer.of_string [])).

Lemma empty_frame_parses : EthernetFrame.parse EthernetFrame.make (Buffer.of_string []) = Ok (NoError, empty_frame).
Proof. reflexivity. Qed.

Lemma empty_frame_report {K} R debug (w : FileDescriptor.world (K := K)) : exists u, Lab7.report R debug empty_frame w = (Ok u, w).
Proof. destruct debug; by exists tt. Qed.

Lemma empty_frame_ignored r side i : Router.interface r side = Ok i ->
  NetworkInterface.ethernet_address_ (AsyncNetworkInterface.base i) <> EMPTY_ADDRESS ->
  Lab7.on_interface side (fun i => AsyncNetworkInterface.recv_frame i empty_frame) r = Ok r.
Proof.
  intros Hi He. unfold Lab7.on_interface. rewrite Hi. cbn [mbind outcome_bind].
  unfold AsyncNetworkInterface.recv_frame, NetworkInterface.recv_frame. cbv zeta.
  change (EthernetHeader.dst (EthernetFrame.header empty_frame)) with EMPTY_ADDRESS.
  rewrite (bool_decide_eq_false_2 (EMPTY_ADDRESS = NetworkInterface.ethernet_address_ (AsyncNetworkInterface.base i))) by (by intros E).
  rewrite bool_decide_eq_false_2 by done. cbn [negb andb mbind outcome_bind].
  unfold Router.interface, zget in Hi. destruct (side <? 0); [done|].
  destruct (Router.interfaces_ r !! Z.to_nat side) as [j|] eqn:Ej; [|done]. injection Hi as ->.
  unfold Router.set_interface. destruct r as [ifs table], i as [b q]. simpl in *. by rewrite list_insert_id.
Qed.

(** A router with nothing to route stays as it is. *)
Lemma route_idle r : Forall (fun j => AsyncNetworkInterface._datagrams_out j = []) (Router.interfaces_ r) -> Router.route r = Ok r.
Proof.
  intros Hq. unfold Router.route. assert (Hf : exists m, Router.queue_fuel r = S m) by (by eexists). destruct Hf as [m ->].
  assert (H : forall k idx, (idx + k <= length (Router.interfaces_ r))%nat -> Router.route_from (S m) r idx k = Ok r).
  { intros k. induction k as [|k IH]; intros idx Hk; cbn [Router.route_from]; [done|].
    destruct (lookup_lt_is_Some_2 (Router.interfaces_ r) idx) as [i Hi]; [lia|].
    assert (Hd : Router.drain (S m) r idx = Ok r).
    { cbn [Router.drain]. rewrite Hi. eapply Forall_lookup_1 in Hq; [|exact Hi]. simpl in Hq.
      unfold AsyncNetworkInterface.datagrams_out. by rewrite Hq. }
    rewrite Hd. apply IH. lia. }
  apply H. lia.
Qed.

(** ** Properties *)

(** Where each side's router sends an address, by its prefix: to the host's network, to the
    network between the routers, or to the other side by its router. *)
Definition lab7_destination (is_client : bool) (ip : Z) : option (Z * option Address.t) :=
  if Z.shiftr ip 16 =? 49320 then Some (if is_client then (0, None) else (1, Some (inet_address (ip4 10 0 0 192) 0)))
  else if Z.shiftr ip 24 =? 10 then Some (1, None)
  else if Z.shiftr ip 20 =? 2753 then Some (if is_client then (1, Some (inet_address (ip4 10 0 0 172) 0)) else (0, None))
  else None.

Lemma lab7_lpm is_client ip : route_entry <$> lpm (lab7_routes is_client) ip = lab7_destination is_client ip.
Proof.
  assert (H20 : Z.shiftr ip 20 = Z.shiftr (Z.shiftr ip 16) 4) by (by rewrite Z.shiftr_shiftr).
  assert (H24 : Z.shiftr ip 24 = Z.shiftr (Z.shiftr ip 20) 4) by (by rewrite Z.shiftr_shiftr).
  assert (A : Z.shiftr ip 16 = 49320 -> Z.shiftr ip 24 = 192 /\ Z.shiftr ip 20 = 3082) by (intros E; by rewrite H24, H20, E).
  assert (B : Z.shiftr ip 20 = 2753 -> Z.shiftr ip 24 = 172) by (intros E; by rewrite H24, E).
  unfold lab7_destination, lab7_routes, matches. destruct is_client; cbn [lpm]; unfold matches; simpl rs_length; simpl rs_prefix;
    repeat match goal with |- context [Z.shiftr (ip4 ?a ?b ?c ?d) ?n] =>
      let v := eval vm_compute in (Z.shiftr (ip4 a b c d) n) in change (Z.shiftr (ip4 a b c d) n) with v end;
    change (32 - 16) with 16; change (32 - 8) with 24; change (32 - 12) with 20;
    destruct (Z.eqb_spec (Z.shiftr ip 16) 49320) as [E16|], (Z.eqb_spec (Z.shiftr ip 24) 10) as [E24|],
      (Z.eqb_spec (Z.shiftr ip 20) 2753) as [E20|]; repeat case_decide; try done; exfalso;
    intuition congruence.
Qed.

(** The routers of the two sides are set up right: with a resolver for numeric names the set-up
    always succeeds, gives a well-formed router with the host's side first and the Internet's
    second, and the router's table sends every address where it belongs: the host's own network
    directly, the network between the routers directly, the other host's network to the other
    side's router, and nothing anywhere else. *)
Theorem lab7_routers_correct (R : Address.Resolver) (Hnum : NumericResolver R)
  (Hdotted : forall ip, Address.inet_ntoa R ip = dotted ip) {G : Type} (rd : G -> Z * G) (is_client : bool) (g : G) :
  exists r g', Lab7.setup_router R rd is_client g = Ok (r, 0, 1, g') /\
    rt_wf (lab7_routes is_client) r /\ zlen (Router.interfaces_ r) = 2 /\
    forall ip, 0 <= ip < two32 ->
      Router.find_route 34 (Router.table_ r) ip (u32 (Z.lnot 0)) 32 = Ok (lab7_destination is_client ip).
Proof.
  destruct (setup_router_ok R Hdotted rd is_client g) as (_ & _ & r & g' & Hr & _). exists r, g'. split; [done|].
  destruct (setup_router_wf R Hdotted rd _ _ _ _ _ _ Hr) as (_ & _ & Hwf & Hlen). split; [done|]. split; [done|].
  intros ip Hip. rewrite <- lab7_lpm. by apply lookup_is_lpm; [apply Hwf|apply Hwf|].
Qed.

(** C27. The network thread is safe, whatever the kernel does and whatever frames arrive from the
    host and from the Internet: it never reaches undefined behaviour, although its callbacks
    take the front of a queue without looking whether there is one, because a rule that sends
    runs only when the queue was not empty before [poll] and nothing but the rule itself takes
    frames out; it throws nothing; when it ends, every handle has as many owners as before; and
    once the flag is set it ends with the round. *)
Theorem network_thread_safe {K} (sys : Kernel K) (net : SocketCalls K) sys_poll (exit_flag : K -> bool)
  (R : Address.Resolver) (Hnum : NumericResolver R) (Hdotted : forall ip, Address.inet_ntoa R ip = dotted ip)
  (self : K -> Router.t) set_self (sent : K -> Z -> list byte) (Hposix : PosixKernel sys sent)
  (Hmem : RouterMemory sys net sys_poll self set_self) (Hpoll : PosixPoll sys_poll)
  {G : Type} (rd : G -> Z * G) (is_client debug : bool) (g g' : G) (host_side internet_side : Z)
  (frames internet ffd ifd n m : Z) (bounce_address : Address.t) (fuel : nat) (w : FileDescriptor.world)
  (Hsetup : Lab7.setup_router R rd is_client g = Ok (self (FileDescriptor.kernel w), host_side, internet_side, g'))
  (Hframes : fds w !! frames = Some (ffd, n)) (Hinternet : fds w !! internet = Some (ifd, m))
  (Hdistinct : frames <> internet) (Howners : map_Forall (fun _ x => 1 <= x.2) (fds w)) :
  let '(o, w') := Lab7.network_thread sys net sys_poll exit_flag R self set_self frames internet bounce_address
                    host_side internet_side debug fuel w in
  (o = Ok tt \/ o = OutOfFuel) /\ (o = Ok tt -> fds w' = fds w) /\
  ((0 < fuel)%nat -> (forall k, exit_flag k = true) -> o = Ok tt).
Proof.
  destruct (setup_router_wf R Hdotted rd _ _ _ _ _ _ Hsetup) as (-> & -> & _ & Hlen).
  eapply (thread_ok sys net sys_poll exit_flag R self set_self sent frames internet bounce_address 0 1 debug); try done.
  - by eexists.
  - by eexists.
  - split; apply zget_is_Some; lia.
Qed.

(** An empty datagram from anywhere on the Internet makes the router deaf: the rule for frames
    from the Internet reads it with [FileDescriptor::read], which takes nothing for the end of
    the file; the rule succeeds, and the next time the event loop sets it up it is erased. *)
Theorem empty_datagram_deafens {K} (sys : Kernel K) (net : SocketCalls K) sys_poll (R : Address.Resolver)
  (self : K -> Router.t) set_self (sent : K -> Z -> list byte) (Hposix : PosixKernel sys sent)
  (Hmem : RouterMemory sys net sys_poll self set_self) (internet internet_side : Z) (debug : bool)
  (w : FileDescriptor.world) (x : FDWrapper.t) (i : AsyncNetworkInterface.t) (k : K)
  (Hx : points_to w internet x)
  (Hread : sys_read sys (FileDescriptor.kernel w) (FDWrapper._fd x) FileDescriptor.BUFFER_SIZE = (0, 0, [], k))
  (Hside : Router.interface (self (FileDescriptor.kernel w)) internet_side = Ok i)
  (Heth : NetworkInterface.ethernet_address_ (AsyncNetworkInterface.base i) <> EMPTY_ADDRESS)
  (Hqueues : Forall (fun j => AsyncNetworkInterface._datagrams_out j = []) (Router.interfaces_ (self (FileDescriptor.kernel w)))) :
  let rule := Lab7.internet_to_router sys R self set_self internet internet_side debug in
  exists w1, EventLoop.callback rule w = (Ok tt, w1) /\ eof_of w1 internet = true /\
    forall w2 n, same_ends w1 w2 -> fds w2 !! internet = Some (FDWrapper._fd x, n) -> 1 <= n -> exists w3, EventLoop.setup_rule sys rule w2 = (Ok None, w3).
Proof.
  cbv zeta. pose proof (fd_read_correct sys sent Hposix w internet SIZE_MAX x Hx ltac:(done)) as Hr.
  change (Z.min FileDescriptor.BUFFER_SIZE SIZE_MAX) with FileDescriptor.BUFFER_SIZE in Hr. rewrite Hread in Hr.
  destruct Hr as (w1 & Hk1 & Hr). simpl in Hr. destruct Hr as (Hr & _ & _ & [m Hx1]).
  assert (Hself : self k = self (FileDescriptor.kernel w)).
  { pose proof (rm_read (net := net) (sys_poll := sys_poll) (set_self := set_self) (FileDescriptor.kernel w) (FDWrapper._fd x)
      FileDescriptor.BUFFER_SIZE) as H. by rewrite Hread in H. }
  set (r := self (FileDescriptor.kernel w)) in *.
  set (w2 := FileDescriptor.set_kernel (set_self r (set_self r k)) w1).
  assert (Heof : eof_of w2 internet = true) by (unfold eof_of, w2; simpl; by rewrite Hx1).
  exists w2. split; [|split; [done|]].
  - simpl. unfold Lab7.receive_callback. rewrite (io_bind_ok _ _ _ _ _ Hr).
    rewrite (io_bind_ok _ _ w1 (NoError, empty_frame) w1) by (unfold pure_; by rewrite empty_frame_parses).
    cbv beta iota. rewrite bool_decide_eq_true_2 by done. cbn [negb].
    destruct (empty_frame_report R debug w1) as [[] Hrep]. rewrite (io_bind_ok _ _ _ _ _ Hrep).
    rewrite (io_bind_ok _ _ w1 tt (FileDescriptor.set_kernel (set_self r k) w1)).
    + unfold Lab7.on_router. rewrite (io_bind_ok _ _ _ r (FileDescriptor.set_kernel (set_self r k) w1)).
      2:{ unfold Lab7.get, gets. simpl. by rewrite (rm_set (sys := sys) (net := net) (sys_poll := sys_poll)). }
      rewrite (io_bind_ok _ _ _ r (FileDescriptor.set_kernel (set_self r k) w1)) by (unfold pure_; by rewrite (route_idle r Hqueues)). done.
    + unfold Lab7.on_router. rewrite (io_bind_ok _ _ w1 r w1) by (unfold Lab7.get, gets; by rewrite Hk1, Hself).
      rewrite (io_bind_ok _ _ w1 r w1) by (unfold pure_; by rewrite (empty_frame_ignored r internet_side i Hside Heth)).
      unfold Lab7.put, modify. by rewrite Hk1.
  - intros w3 n Hs Hn Hpos. destruct (Hs internet) as [_ He]. specialize (He Heof).
    destruct (release_fds sys internet _ n w3 Hn Hpos) as (w4 & Hrel & _). exists w4.
    destruct (fds_lookup _ _ _ _ Hn) as (y & Hy & _). unfold eof_of in He. rewrite Hy in He.
    unfold EventLoop.setup_rule. simpl EventLoop.direction. cbv iota.
    rewrite (io_bind_ok _ _ w3 true w3).
    2:{ unfold FileDescriptor.eof. rewrite (io_bind_ok _ _ w3 y w3) by (apply internal_ok; by exists n). by rewrite He. }
    cbv iota. unfold EventLoop.cancel_and_erase. simpl EventLoop.cancel. simpl EventLoop.fd.
    rewrite (io_bind_ok _ _ w3 tt w4); [done|]. by rewrite (io_bind_ok _ _ w3 tt w3).
Qed.

(** ** A machine: what waits at each descriptor and what was sent *)

Record station := Station {
  st_router : Router.t;
  st_inbox : gmap Z (list (list byte));
  st_sent : gmap Z (list byte)
}.

Definition station_sent (k : station) (fd : Z) : list byte := default [] (st_sent k !! fd).
Definition station_inbox (k : station) (fd : Z) : list (list byte) := default [] (st_inbox k !! fd).
Definition set_st_router (r : Router.t) (k : station) : station := Station r (st_inbox k) (st_sent k).

Definition EAGAIN : Z := 11.

Definition station_kernel : Kernel station := {|
  sys_read k fd n :=
    match station_inbox k fd with
    | d :: rest => (zlen (ztake (Z.min 65536 n) d), 0, ztake (Z.min 65536 n) d, Station (st_router k) (<[fd := rest]> (st_inbox k)) (st_sent k))
    | [] => (-1, EAGAIN, [], k)
    end;
  sys_writev k fd iov :=
    let data := ztake 65536 (concat iov.*1) in
    (zlen data, 0, Station (st_router k) (st_inbox k) (<[fd := station_sent k fd ++ data]> (st_sent k)));
  sys_close k _ := (0, 0, k);
  sys_getfl k _ := (0, 0, k);
  sys_setfl k _ _ := (0, 0, k)
|}.

Definition station_net : SocketCalls station := {|
  sys_socket k _ _ _ := (3, 0, tt, k);
  sys_getsockopt k _ _ _ _ := (0, 0, (0, 0), k);
  sys_setsockopt k _ _ _ _ := (0, 0, tt, k);
  sys_getsockname k _ _ := (0, 0, ([], 0), k);
  sys_getpeername k _ _ := (0, 0, ([], 0), k);
  sys_bind k _ _ _ := (0, 0, tt, k);
  sys_connect k _ _ _ := (0, 0, tt, k);
  sys_shutdown k _ _ := (0, 0, tt, k);
  sys_listen k _ _ := (0, 0, tt, k);
  sys_accept k _ := (-1, EAGAIN, tt, k);
  sys_recvfrom k _ _ _ _ := (-1, EAGAIN, ([], ([], 0)), k);
  sys_sendmsg k fd _ _ iov _ := (zlen (concat iov.*1), 0, tt,
    Station (st_router k) (st_inbox k) (<[fd := station_sent k fd ++ concat iov.*1]> (st_sent k)));
  sys_open k _ _ := (3, 0, tt, k);
  sys_tunsetiff k _ _ := (0, 0, tt, k)
|}.

(** A descriptor is ready for reading when something waits at it, and always for writing. *)
Definition station_poll (k : station) (ps : list EventLoop.pollfd) (_ : Z) : Z * Z * list EventLoop.pollfd * station :=
  (zlen ps, 0, (fun p => EventLoop.Pollfd (EventLoop.p_fd p) (EventLoop.events p)
     (Z.lor EventLoop.POLLOUT (if decide (station_inbox k (EventLoop.p_fd p) = []) then 0 else EventLoop.POLLIN))) <$> ps, k).

#[export] Instance station_posix : PosixKernel station_kernel station_sent.
Proof.
  split; simpl.
  - intros k fd iov r e k' [= <- <- <-]. pose proof (zlen_nonneg (concat iov.*1)). rewrite zlen_ztake.
    split; [lia|]. split; [lia|]. split; [lia|]. unfold station_sent at 1. simpl. rewrite lookup_insert_eq. simpl. f_equal.
    destruct (Z.leb_spec (zlen (concat iov.*1)) 65536); [rewrite !ztake_ge; lia || done|do 2 f_equal; lia].
  - intros k fd n r e data k' Hn. destruct (station_inbox k fd) as [|d rest]; intros [= <- <- <- <-].
    + unfold EAGAIN. repeat split; lia.
    + pose proof (zlen_nonneg d). rewrite zlen_ztake. repeat split; try lia.
Qed.

#[export] Instance station_memory : RouterMemory station_kernel station_net station_poll st_router set_st_router.
Proof. split; try done. intros k fd n. simpl. by destruct (station_inbox k fd). Qed.

#[export] Instance station_poll_posix : PosixPoll station_poll.
Proof. split. intros k ps t r e ps' k' [= <- <- <- <-]. induction ps; constructor; auto. Qed.

(** The client's router, with the handles 5 for the frames and 6 for the Internet. *)
Definition counting (g : Z) : Z * Z := (g, g + 1).

Definition client_router : Router.t :=
  match Lab7.setup_router numeric_resolver counting true 1 with Ok (r, _, _, _) => r | _ => Router.make end.

Definition station_world (from_host from_internet : list (list byte)) : FileDescriptor.world :=
  FileDescriptor.World (Station client_router {[ 10 := from_host; 11 := from_internet ]} ∅)
    {[ 5 := (FDWrapper.mk 10 false false 0 0, 1); 6 := (FDWrapper.mk 11 false false 0 0, 1) ]}.

(** The host 192.168.0.50 tells where it is; a datagram for it without payload, with the given
    first byte (version and length) and checksum. *)
Definition host_eth : EthernetAddress := [4; 4; 4; 4; 4; 4].

Definition host_arp : list byte :=
  EthernetHeader.serialize (EthernetHeader.mk ETHERNET_BROADCAST host_eth EthernetHeader.TYPE_ARP) ++
  match ARPMessage.serialize (ARPMessage.mk ARPMessage.TYPE_ETHERNET EthernetHeader.TYPE_IPv4 6 4 ARPMessage.OPCODE_REPLY
    host_eth (ip4 192 168 0 50) EMPTY_ADDRESS (ip4 192 168 0 1)) with Ok b => b | _ => [] end.

Definition internet_frame (first_byte : Z) (cksum : Z) : list byte :=
  EthernetHeader.serialize (EthernetHeader.mk ETHERNET_BROADCAST host_eth EthernetHeader.TYPE_IPv4) ++
  be_encode 1 first_byte ++ be_encode 1 0 ++ be_encode 2 20 ++ be_encode 2 0 ++ be_encode 2 0 ++ be_encode 1 64 ++
  be_encode 1 6 ++ be_encode 2 cksum ++ be_encode 4 (ip4 10 0 0 7) ++ be_encode 4 (ip4 192 168 0 50).

(** The thread, which nobody asks to stop. *)
Definition client_thread (rounds : nat) (from_host from_internet : list (list byte)) : outcome unit * FileDescriptor.world :=
  Lab7.network_thread station_kernel station_net station_poll (fun _ => false) numeric_resolver st_router set_st_router
    5 6 (inet_address (ip4 192 0 2 1) 9000) 0 1 false rounds (station_world from_host from_internet).

(** One datagram whose version field is not 4 ends the network thread.  A router that knows
    its host forwards a good datagram and goes on; the same datagram with version 5, which
    [IPv4Datagram::parse] accepts, makes [serialize] throw in the middle of [route], and the
    thread ends although nobody asked it to. *)
Theorem wrong_version_ends_thread :
  (client_thread 5 [host_arp] [internet_frame 69 45059]).1 = OutOfFuel /\
  (client_thread 5 [host_arp] [internet_frame 85 0]).1 = Ok tt /\
  Lab7.on_interface 1 (fun i => AsyncNetworkInterface.recv_frame i
    (EthernetFrame.mk (EthernetHeader.mk ETHERNET_BROADCAST host_eth EthernetHeader.TYPE_IPv4)
       (BufferList.of_string (zdrop 14 (internet_frame 85 0))))) client_router <> Ok client_router.
Proof. split; [vm_compute; reflexivity|]. split; [vm_compute; reflexivity|]. vm_compute. discriminate. Qed.

Lemma lab7_routers_correct_witness :
  exists r g', Lab7.setup_router numeric_resolver counting true 1 = Ok (r, 0, 1, g') /\
    rt_wf (lab7_routes true) r /\ zlen (Router.interfaces_ r) = 2 /\
    forall ip, 0 <= ip < two32 ->
      Router.find_route 34 (Router.table_ r) ip (u32 (Z.lnot 0)) 32 = Ok (lab7_destination true ip).
Proof. exact (lab7_routers_correct numeric_resolver _ (fun _ => eq_refl) counting true 1). Defined.

Lemma client_router_set_up : Lab7.setup_router numeric_resolver counting true 1 = Ok (client_router, 0, 1, 13).
Proof. vm_compute. reflexivity. Qed.

Lemma network_thread_safe_witness :
  let '(o, w') := client_thread 5 [host_arp] [internet_frame 85 0] in
  (o = Ok tt \/ o = OutOfFuel) /\ (o = Ok tt -> fds w' = fds (station_world [host_arp] [internet_frame 85 0])) /\
  ((0 < 5)%nat -> (forall k : station, false = true) -> o = Ok tt).
Proof.
  apply (network_thread_safe station_kernel station_net station_poll (fun _ => false) numeric_resolver _ (fun _ => eq_refl)
    st_router set_st_router station_sent _ _ _ counting true false 1 13 0 1 5 6 10 11 1 1).
  - exact client_router_set_up.
  - reflexivity.
  - reflexivity.
  - discriminate.
  - change (fds (station_world [host_arp] [internet_frame 85 0])) with ({[ 5 := (10, 1); 6 := (11, 1) ]} : gmap Z (Z * Z)).
    apply map_Forall_insert_2; [simpl; lia|]. apply map_Forall_singleton. simpl. lia.
Defined.

Lemma empty_datagram_deafens_witness :
  let rule := Lab7.internet_to_router station_kernel numeric_resolver st_router set_st_router 6 1 false in
  exists w1, EventLoop.callback rule (station_world [] [[]]) = (Ok tt, w1) /\ eof_of w1 6 = true /\
    forall w2 n, same_ends w1 w2 -> fds w2 !! 6 = Some (11, n) -> 1 <= n ->
      exists w3, EventLoop.setup_rule station_kernel rule w2 = (Ok None, w3).
Proof.
  apply (empty_datagram_deafens station_kernel station_net station_poll numeric_resolver st_router set_st_router station_sent
    _ _ 6 1 false (station_world [] [[]]) (FDWrapper.mk 11 false false 0 0)
    (match Router.interface client_router 1 with Ok i => i | _ => AsyncNetworkInterface.of_interface (NetworkInterface.make [] (inet_address 0 0)) end)
    (Station client_router {[ 10 := []; 11 := [] ]} ∅)).
  - exists 1. reflexivity.
  - vm_compute. reflexivity.
  - vm_compute. reflexivity.
  - vm_compute. discriminate.
  - vm_compute. repeat constructor.
Defined.

(** The arguments of [main]. *)
Example main_arguments_client :
  Lab7.main_arguments ["lab7"; "client"; "cs144.keithw.org"; "3000"] =
    Some (Lab7.Arguments true "cs144.keithw.org" "3000" false) /\
  Lab7.main_arguments ["lab7"; "router"; "cs144.keithw.org"; "3000"] = None /\
  Lab7.main_arguments ["lab7"; "server"; "cs144.keithw.org"; "3001"; "debug"] =
    Some (Lab7.Arguments false "cs144.keithw.org" "3001" true) /\
  Lab7.main_arguments ["lab7"; "client"] = None.
Proof. vm_compute. auto. Qed.
